(* ===== verification/_CoqProject ===== *)
-Q . S2P
Prelude.v
GoStrings.v
GoNum.v
MemoryTypes.v
MemoryStore.v
Journal.v
Governance.v
Consolidator.v
Sha1.v
Upgrade.v
Recall.v
StatusDirs.v
Approval.v
FsAccess.v
GoTime.v
Execution.v
Executor.v
Runtime.v
MemorySystem.v
Procedural.v
MemScheduler.v
MemOrchestrator.v
GoText.v
GoJson.v
ChatStore.v
ChatRoute.v
AgentLoop.v
AgentSkills.v
ChatText.v
ChatService.v
SkillText.v
Skills.v
SkillMemory.v
SkillRunner.v
SkillSafety.v
RootGate.v
AgentTools.v
Assistant.v
Reading.v
ApiServer.v
ApiFacts.v
GoStruct.v
ModelConfig.v
ModelGateway.v
DiffText.v
Harness.v
HarnessDiff.v
HarnessRollup.v
HarnessBaseline.v
HarnessFixtures.v
HarnessSteps.v
HarnessFacts.v
HarnessAssert.v
HarnessRunner.v
