(* ===== verification/Prelude.v ===== *)
(** * MnemosyneOS: a verification development

    MnemosyneOS (Go, [src/internal]) is an agent runtime that keeps its state
    in files: a versioned memory of cards and edges, tasks that are planned,
    approved and executed, an executor for shell commands and file access, and
    the services that decide what a model is shown and when memory is
    maintained.  This development is a shallow embedding of that core: each Go
    function is a Rocq function over explicit state, and the theorems state
    what the components promise.

    ** How the model is built

    An operation is a function in [M S A] (state and error monad, below): it
    takes the state [S] and the [World] (clock readings, outcomes of file
    operations, random bytes) and returns a result, the state it leaves and
    the world.  An operation that fails keeps the changes it made before.
    The sentinel errors of the program are the constructors of [error]; the
    text of an error message is dropped.  A run-time panic is [EPanic].

    Every mutating file operation reads one [Fault]: it succeeds, fails
    without effect, or fails after truncating the file ([Torn]).  Files
    written as JSON hold the value ([Doc]); what [json.Unmarshal] would read
    back after [json.Marshal] is the [*_norm] function of the type and when
    marshalling succeeds its [*_json_ok] (omitted empty fields, a NaN score).
    Stored text is assumed to be valid UTF-8, and record IDs to hold no slash.

    Each store holds a mutex for the whole of an operation, so an operation is
    one atomic step; interleavings of operations are sequences of steps
    ([Journal.op_step], [MemorySystem.memory_step], [Approval.run_ops],
    [Runtime.RuntimeOp], [ModelConfig.step]).  Go's map iteration order is an argument
    [ord] of the definitions that range over a map, and the determinism
    theorems show when the result does not depend on it.

    [int] and [time.Duration] are [Z] with the 64-bit wrap-around written where
    the code can overflow ([GoNum]); [float64] is the standard library's
    [spec_float] at binary64, rounded as on amd64 (no fused multiply-add);
    a [string] is its bytes ([GoStrings]).

    ** Files, and what they model

    Shared: [Prelude] (errors, monad, Hoare logic, files, generic lemmas),
    [GoStrings], [GoNum], [GoTime], [Sha1], [StatusDirs] (records kept in
    [<status>/<id>.json], used by approvals, tasks and actions).

    Memory: [MemoryTypes] ([memory/types.go]), [MemoryStore] ([memory/store.go]
    and [Append] of [journal.go]: CreateCard, UpdateCard, TouchCard, CreateEdge,
    Query, the snapshots), [Journal] ([memory/journal.go]: replay, integrity,
    rebuild), [Governance] ([governance.go]), [Consolidator]
    ([consolidator.go]), [Upgrade] ([conflict.go], [upgrade.go]), [Procedural]
    ([procedural.go]), [Recall] ([recall/service.go]), [MemorySystem]
    ([memory/scheduler.go] and the step relation of the whole memory),
    [MemScheduler] ([memoryscheduler/scheduler.go]), [MemOrchestrator]
    ([memoryorchestrator/orchestrator.go]).

    Runtime: [Approval] ([approval/]), [FsAccess] ([fsaccess/]), [Execution]
    ([execution/]) with its theorems in [Executor], [Runtime] ([airuntime/]).

    Conversations: [GoText] (text routines: runes, UTF-8 validity, cutting and
    trimming, a regular-expression matcher with its language), [GoJson]
    (encoding/json on the values tools exchange), [ChatStore]
    ([chat/types.go], [chat/store.go]), [ChatRoute] ([chat/locale.go],
    [intent.go], [dialogue_agent.go], [skill_agent.go], [route_agent.go]),
    [ChatText] (the texts, prompts and session-state updates of
    [chat/service.go]), [ChatService] (its [Send] and what it calls).

    The agent: [AgentLoop] ([chat/agent_loop.go], the registry of
    [skills/agent_skills.go]), [AgentSkills] (the tool handlers of
    [skills/agent_skills.go]), [AgentTools] (the tools as
    [RegisterBuiltinAgentSkills] registers them, with their schemas).

    Skills and the task runner: [SkillText] ([skills/manifest.go],
    [external.go] and the text helpers of [runner.go]: slugs, queries, threads
    of mail, [splitArgs], evidence of procedures), [Skills]
    ([skills/registry.go], [settings.go]: the registry, manifests on disk and
    the saved switches), [SkillMemory] (the cards a web search leaves:
    [upsertCard] and its callers), [SkillRunner] ([RunTask] with its handlers,
    the gate of root tasks, external programs, [connectors/runtime.go]) with
    its theorems in [SkillSafety].  The state of a run is a [System]: the
    stores, the machine (executor and one map of files on disk), the registry,
    the progress events reported.

    The program: [RootGate] (what no run, turn or denial can bring about
    without an approval: the frame lemmas the next files share), [Assistant]
    ([runtimeapp/app.go]: [Build] over the files of a runtime root, and what a
    turn of the assembled program may do behind the conversation).

    The harness: [Harness] ([harness/types.go], [loader.go]: scenarios and
    their files), [DiffText] (the normal forms of texts and what they mean),
    [HarnessDiff] ([diff.go]: reports and their comparison), [HarnessRollup], [HarnessBaseline] ([rollup.go]),
    [HarnessFixtures] ([fixtures.go], [model_stub.go]), and [runner.go]:
    [HarnessSteps] (the steps), [HarnessFacts] (their frame lemmas and a
    bench to run them on), [HarnessAssert] (the assertions), [HarnessRunner]
    (the runtime root, [RunScenario], the files of a run).  The files of the
    harness are a map from paths to nodes that hold documents ([Stored], a
    report, a scenario, a baseline, or an unreadable text) or are directories;
    an [Env] carries the services of the run, and a [Site] the files it leaves
    when it ends.

    The HTTP interface: [ApiServer] ([api/server.go]: every handler, the table
    of [Routes] with those of the web console ([api/web.go]) unless it is
    switched off, and the choice of a route by [http.ServeMux], over the
    assembled program of [Assistant]); [Reading] (the operations of the stores
    that only read); [ApiFacts] (its theorems).

    Language models: [ModelConfig] ([model/runtime.go] up to the gateway,
    [profiles.go], [lasttest.go]: configurations, their normal form, the
    overlay of the environment, the three stores), [GoStruct] ([json.Unmarshal]
    into structs), [ModelGateway] (the gateways of [model/runtime.go] and
    [model/text.go]: requests, whole and streamed answers; definitions only).

    ** What the theorems show

    Memory: every mutation of a store whose storage works can be recovered
    from the journal; the integrity check accepts exactly the stores whose
    journal replays to them; queries return exactly the matching versions and
    incident edges; scores stay in the unit interval; decay, promotion,
    conflict detection and upgrade do exactly what they announce, in any map
    order; the history of a card is append-only along every run.  Recall
    returns the best-ranked eligible hits.  The memory scheduler triggers only
    when due; packets obey their quotas.

    Runtime: an approval token authorizes one use in any history, and a request
    moves only along its life cycle; a profile other than the user's passes
    only with a token; file writes stay in the configured roots; retries are
    bounded; a completed action with an idempotency key is not run again; a
    task has at most one file, in the directory of its state, and on a working
    disk exactly one.

    Conversations: on a working disk the conversation store refines an
    abstract map from session IDs to message lists, live and archived;
    archiving and restoring lose nothing under any fault; a routing decision
    is well-formed whatever the model answers, and a turn becomes a task only
    with a warrant; a turn without consent leaves the tasks alone; a turn
    calls itself at most once.

    The agent: the loop ends with a well-formed conversation, tools get the
    arguments the model wrote, file tools see only what the policy lets them
    read, and a search reports what a reference enumeration lists.

    The task runner: a run settles its task or reports an error; a root task
    starts nothing without an approval; an external program of a manifest at
    an absolute path runs below the directory of the manifest, with its
    declared environment; outputs stay
    below [artifacts] and [observations] as far as kinds and names do; a
    search leaves exactly the cards announced; the registry agrees with the
    saved switches after every operation.

    The program: a turn without consent does nothing behind the conversation
    but memory operations and calls of the three tools that write.

    The harness: a comparison of reports is clean exactly when the runs agree
    on what is compared, texts by their paragraphs of words and details token
    by token; a baseline saved into an empty directory is matched by its runs;
    a rollup counts every run once; a run reports what its steps answered, in
    order up to the first error, and passes exactly when they ran and every
    assertion holds; a scenario that approves nothing acts
    as the user; assertions on the memory mean what they say, on a memory that
    stays well-formed; the files of a run load as its report and its scenario.

    The HTTP interface: a GET or HEAD request that no page of the console
    answers leaves every store as it was; a lookup answers with exactly the
    record asked for; the approval of a task's action reaches the task.

    Language models: the default configuration file never holds an API key,
    configurations in use are bounded, the environment has the last word, and
    the store of named profiles is a map.

    ** Bounds and fuel

    The retry loops of the executor take their bound as fuel
    ([max - attempt + 1]); [Executor] proves that the fuel is enough.
    [FsAccess.eval_prefix] recurses on the length of the path.  The other loops are structural on lists.

    ** Parameters

    The Unicode case tables ([UnicodeTables], exact on ASCII), the digits
    [fmt] prints for a float ([FloatFormat]), symlink resolution, the
    environment, the clock, random bytes, and what an external command
    returns.  Hypotheses about them are named in the statements and met by
    the witnesses.
    A language model is a function from the prompt (and the number of the
    reading of the environment) to the decoded answer or an error
    ([ChatRoute.Gateway], [ChatService.TextModel], [AgentLoop.TextGateway]);
    nothing is assumed of what it answers.  The task runner that a turn calls
    is an argument of the service ([ChatService.RunTaskWithProgress]).
    URL parsing ([UrlPackage]), connectors, external programs, [os.Stat], the
    texts of errors and the orders of maps are fields of [SkillRunner.Runner]
    or section variables.
    The texts of the operating system and of decoding errors, [%q], the
    decoded form of a harness file, the outcome of [sort.Slice] on equal
    elements and the parsers of fixture files are fields of [Harness.Host] and
    [HarnessFixtures.Parsers]; those of a run ([HarnessSteps.Rig]) add number
    parsing, the text and the existence of files that are not records, and the
    bound on the depth of [Send] (3 is enough, by [ChatService.Send_terminates]).
    The decoders of request bodies and [time.Parse] are fields of
    [ApiServer.Decoders]; the handlers of the web console are the argument
    [page] of its section.  What a call of [run_command], [write_file] or
    [append_file] changes is arbitrary ([Assistant.put]); that a tool which
    changes nothing leaves the state as it is is [Assistant.put_view].  The
    HTTP client of the model gateway is [ModelGateway.Wire].

    ** Not modelled

    What commands do to files (the executor logs that they were started);
    timers and goroutines, except as the sequences of steps they cause; the
    pages of the web console, the terminal console, and the HTTP clients of
    search engines and GitHub, which are input and output around the modelled
    components; IMAP; the answers [http.ServeMux] gives of its own,
    percent-encoded paths and status filters that are paths.  The
    nesting limit of encoding/json; the tools [write_file] and [append_file]
    (registered, but without a handler in the source).  A background
    completion of a reply is a job in the state, run by a later step, not a
    concurrent thread.  Runners and services built without stores; JSON
    objects with two keys that differ only in case; artifact names that point
    at the store's own files.  The files actions
    and artifacts write and the record files of the stores are separate maps: a
    file-write below the runtime root that makes or changes a record (which
    the path policy allows) is not seen by the stores of the model. *)
From stdpp Require Export base tactics option gmap sets list strings sorting pretty.
From Stdlib Require Export ZArith Lia.

#[global] Set Default Goal Selector "!".

(** ** Errors

    A Go [error] is modelled by the sentinel it wraps ([errors.Is]); the text
    of the message is dropped.  [EIO] is a failing file operation, [EJson] a
    failing (un)marshal, [EPanic] a run-time panic that unwinds the call. *)
Inductive error :=
  | EIO | ENotExist | EJson | EPanic
  | ErrNotFound | ErrAlreadyExists | ErrInvalidArgument
  | ErrApprovalNotFound | ErrApprovalInvalidInput | ErrApprovalDenied
  | ErrTaskNotFound | ErrRuntimeInvalidInput | ErrRequeueState
  | ErrActionNotFound | ErrExecutionInvalidInput | ErrExecutionDenied.

#[global] Instance error_eq_dec : EqDecision error.
Proof. solve_decision. Defined.

(** The pair [(value, err)] a Go function returns. *)
Inductive result (A : Type) := Ok (a : A) | Err (e : error).
Arguments Ok {A} a.
Arguments Err {A} e.

Definition is_ok {A} (r : result A) : bool :=
  match r with Ok _ => true | Err _ => false end.

#[export] Instance result_ret : MRet result := λ A a, Ok a.
#[export] Instance result_bind : MBind result := λ A B f r,
  match r with Ok a => f a | Err e => Err e end.

Lemma result_bind_Ok {A B} (r : result A) (f : A → result B) b :
  (r ≫= f) = Ok b ↔ ∃ a, r = Ok a ∧ f a = Ok b.
Proof. destruct r as [a|e]; cbn; naive_solver. Qed.

(** ** The environment

    [clock n] is the [n]-th reading of [time.Now] (nanoseconds), [faults n]
    the outcome of the [n]-th mutating file operation: it succeeds, fails
    leaving the file alone, or fails after truncating it ([os.WriteFile]
    truncates before it writes), [entropy n] the bytes the [n]-th read of
    [crypto/rand] yields, if it does.  [tick] counts the readings made so far. *)
Inductive Fault := NoFault | FailEarly | FailTorn.

Record World := mkWorld {
  clock : nat → Z; faults : nat → Fault; entropy : nat → option string; tick : nat }.

Definition advance (w : World) : World :=
  mkWorld (clock w) (faults w) (entropy w) (S (tick w)).

(** A world in which every file operation succeeds. *)
Definition reliable (w : World) : Prop := ∀ n, faults w n = NoFault.

Lemma reliable_advance w : reliable w → reliable (advance w).
Proof. done. Qed.

(** A reliable world whose clock starts in November 2023 and advances by one
    second per reading: the environment of the witnesses. *)
Definition world0 : World :=
  mkWorld (λ n, 1700000000000000000 + Z.of_nat n * 1000000000)%Z (λ _, NoFault)
    (λ n, Some (String (Ascii.ascii_of_nat (97 + n)) "entropy")) 0.

(** ** The state-and-error monad of the model

    An operation over the state [S] reads the environment and returns its
    outcome and the state it leaves; a failing operation keeps the changes it
    made before failing, as the Go code does. *)
Definition M (S A : Type) : Type := S → World → result A * S * World.

Section monad.
Context {S : Type}.

#[global] Instance M_ret : MRet (M S) := λ A a s w, (Ok a, s, w).
#[global] Instance M_bind : MBind (M S) := λ A B k m s w,
  match m s w with
  | (Ok a, s', w') => k a s' w'
  | (Err e, s', w') => (Err e, s', w')
  end.

Definition throw {A} (e : error) : M S A := λ s w, (Err e, s, w).
Definition get : M S S := λ s w, (Ok s, s, w).
Definition modify (f : S → S) : M S unit := λ s w, (Ok tt, f s, w).
(** [time.Now().UTC()] *)
Definition now : M S Z := λ s w, (Ok (clock w (tick w)), s, advance w).
(** the outcome of the next mutating file operation *)
Definition io : M S Fault := λ s w, (Ok (faults w (tick w)), s, advance w).
(** [rand.Read(buf)] *)
Definition rand : M S string := λ s w,
  (match entropy w (tick w) with Some b => Ok b | None => Err EIO end, s, advance w).
(** run [m] and hand its error to the caller as a value *)
Definition try {A} (m : M S A) : M S (result A) := λ s w,
  match m s w with (r, s', w') => (Ok r, s', w') end.
Definition lift_result {A} (r : result A) : M S A := λ s w, (r, s, w).

(** [for _, x := range l { acc = f(acc, x) }], left on the first error. *)
Fixpoint foldM {A B} (f : B → A → M S B) (b : B) (l : list A) : M S B :=
  match l with
  | [] => mret b
  | x :: l' => b' ← f b x; foldM f b' l'
  end.

Definition forM {A} (f : A → M S unit) (l : list A) : M S unit :=
  foldM (λ _ x, f x) tt l.
End monad.
Arguments M_ret S A a s w /.
Arguments M_bind S A B k m s w /.
Arguments throw {S A} e s w /.
Arguments get {S} s w /.
Arguments modify {S} f s w /.
Arguments now {S} s w /.
Arguments io {S} s w /.
Arguments rand {S} s w /.
Arguments try {S A} m s w /.
Arguments lift_result {S A} r s w /.
Arguments mret {M MRet A} _ /.

Lemma bind_eq {S A B} (m : M S A) (k : A → M S B) s w :
  (m ≫= k) s w = match m s w with
    | (Ok a, s', w') => k a s' w'
    | (Err e, s', w') => (Err e, s', w')
    end.
Proof. reflexivity. Qed.

(** The state an operation leaves. *)
Definition exec {S A} (m : M S A) (s : S) (w : World) : S :=
  match m s w with (_, s', _) => s' end.

Lemma exec_preserved {S A} (m : M S A) s w : exec m s w = (m s w).1.2.
Proof. unfold exec. by destruct (m s w) as [[r s'] w']. Qed.

(** ** A Hoare logic for the monad *)

(** [hoare P m Q]: started in a state satisfying [P], [m] ends with an outcome
    and a state related by [Q], whatever the clock and the faults. *)
Definition hoare {S A} (P : S → Prop) (m : M S A) (Q : result A → S → Prop) : Prop :=
  ∀ s w, P s → let '(r, s', _) := m s w in Q r s'.

(** [m] keeps the invariant [I], on its error paths too. *)
Definition preserves {S A} (I : S → Prop) (m : M S A) : Prop :=
  hoare I m (λ _, I).

Lemma preserves_exec {S A} (I : S → Prop) (m : M S A) s w :
  preserves I m → I s → I (exec m s w).
Proof. intros H Hs. specialize (H s w Hs). unfold exec. by destruct (m s w) as [[r s'] w']. Qed.

Create HintDb hoare discriminated.

Section hoare.
Context {S : Type}.
Implicit Types P I : S → Prop.

Lemma hoare_conseq {A} P P' (m : M S A) (Q Q' : result A → S → Prop) :
  hoare P' m Q' → (∀ s, P s → P' s) → (∀ r s, Q' r s → Q r s) → hoare P m Q.
Proof.
  intros H HP HQ s w Hs. specialize (H s w (HP s Hs)).
  destruct (m s w) as [[r s'] w']. by apply HQ.
Qed.

Lemma hoare_bind {A B} P (m : M S A) (k : A → M S B) (R : A → S → Prop) Q :
  hoare P m (λ r s, match r with Ok a => R a s | Err e => Q (Err e) s end) →
  (∀ a, hoare (R a) (k a) Q) →
  hoare P (m ≫= k) Q.
Proof.
  intros Hm Hk s w Hs. specialize (Hm s w Hs). unfold mbind, M_bind.
  destruct (m s w) as [[[a|e] s'] w']; [|done]. by apply Hk.
Qed.

Lemma preserves_bind {A B} I (m : M S A) (k : A → M S B) :
  preserves I m → (∀ a, preserves I (k a)) → preserves I (m ≫= k).
Proof.
  intros Hm Hk. apply (hoare_bind _ _ _ (λ _, I)); [|done].
  eapply hoare_conseq; [apply Hm| done |]. by intros [].
Qed.

Lemma preserves_ret {A} I (a : A) : preserves I (mret a : M S A).
Proof. by intros s w. Qed.
Lemma preserves_throw {A} I e : preserves I (throw e : M S A).
Proof. by intros s w. Qed.
Lemma preserves_get I : preserves I (get : M S S).
Proof. by intros s w. Qed.
Lemma preserves_now I : preserves I (now : M S Z).
Proof. by intros s w. Qed.
Lemma preserves_io I : preserves I (io : M S Fault).
Proof. by intros s w. Qed.
Lemma preserves_rand I : preserves I (rand : M S string).
Proof. by intros s w. Qed.
Lemma preserves_lift {A} I (r : result A) : preserves I (lift_result r).
Proof. by intros s w. Qed.
Lemma preserves_lift_bind {A B} I (r : result A) (k : A → M S B) :
  (∀ a, r = Ok a → preserves I (k a)) → preserves I (lift_result r ≫= k).
Proof. intros Hk s w Hs. destruct r as [a|e]; [by apply Hk|done]. Qed.
Lemma preserves_modify I (f : S → S) :
  (∀ s, I s → I (f s)) → preserves I (modify f).
Proof. intros H s w Hs. by apply H. Qed.
Lemma preserves_try {A} I (m : M S A) : preserves I m → preserves I (try m).
Proof.
  intros H s w Hs. specialize (H s w Hs). unfold try.
  by destruct (m s w) as [[r s'] w'].
Qed.

(** The state read by [get] satisfies the invariant in the continuation. *)
Lemma preserves_get_bind {A} I (k : S → M S A) :
  (∀ s, hoare (λ s', s' = s ∧ I s) (k s) (λ _, I)) → preserves I (get ≫= k).
Proof. intros H s w Hs. cbn. by apply (H s s w). Qed.

Lemma preserves_foldM {A B} I (f : B → A → M S B) (l : list A) :
  (∀ b x, x ∈ l → preserves I (f b x)) → ∀ b, preserves I (foldM f b l).
Proof.
  induction l as [|x l IH]; intros Hf b; simpl; [apply preserves_ret|].
  apply preserves_bind; [apply Hf; left|].
  intros b'. apply IH. intros. apply Hf. by right.
Qed.

Lemma preserves_forM {A} I (f : A → M S unit) (l : list A) :
  (∀ x, preserves I (f x)) → preserves I (forM f l).
Proof. intros H. apply preserves_foldM. intros _ x _. apply H. Qed.
End hoare.

#[export] Hint Resolve preserves_ret preserves_throw preserves_get preserves_now
  preserves_io preserves_rand preserves_lift preserves_try preserves_forM : hoare.

(** Walk through a monadic program proving [preserves]. *)
Ltac preserves_step :=
  match goal with
  | |- preserves _ (if ?b then _ else _) => destruct b eqn:?
  | |- preserves _ (match ?x with _ => _ end) => destruct x eqn:?
  | |- preserves _ (mbind _ _) => apply preserves_bind; [|intros]
  | |- preserves _ (forM _ _) => apply preserves_forM; intros
  | |- preserves _ (foldM _ _ _) => apply preserves_foldM; intros
  | |- preserves _ (try _) => apply preserves_try
  | |- preserves _ (let _ := _ in _) => cbv zeta
  | |- preserves _ _ => solve [eauto with hoare nocore]
  end.
Ltac preserves_tac := repeat preserves_step.

(** [raises P m]: every error of [m] satisfies [P]. *)
Definition raises {S A} (P : error → Prop) (m : M S A) : Prop :=
  ∀ s w e s' w', m s w = (Err e, s', w') → P e.

Section raises.
Context {S : Type}.
Implicit Types P : error → Prop.

Lemma raises_bind {A B} P (m : M S A) (k : A → M S B) :
  raises P m → (∀ a, raises P (k a)) → raises P (m ≫= k).
Proof.
  intros Hm Hk s w e s' w'. unfold mbind, M_bind.
  destruct (m s w) as [[[a|e1] s1] w1] eqn:E; [by apply Hk|].
  intros [= -> -> ->]. by apply (Hm _ _ _ _ _ E).
Qed.
Lemma raises_ret {A} P (a : A) : raises P (mret a : M S A).
Proof. by intros s w e s' w' [=]. Qed.
Lemma raises_throw {A} P e : P e → raises P (throw e : M S A).
Proof. by intros H s w e' s' w' [= -> -> ->]. Qed.
Lemma raises_get P : raises P (get : M S S).
Proof. by intros s w e s' w' [=]. Qed.
Lemma raises_modify P f : raises P (modify f : M S unit).
Proof. by intros s w e s' w' [=]. Qed.
Lemma raises_now P : raises P (now : M S Z).
Proof. by intros s w e s' w' [=]. Qed.
Lemma raises_io P : raises P (io : M S Fault).
Proof. by intros s w e s' w' [=]. Qed.
Lemma raises_try {A} P (m : M S A) : raises P (try m).
Proof. intros s w e s' w'. unfold try. by destruct (m s w) as [[r s1] w1]. Qed.
Lemma raises_foldM {A B} P (f : B → A → M S B) (l : list A) :
  (∀ b x, raises P (f b x)) → ∀ b, raises P (foldM f b l).
Proof.
  intros Hf. induction l as [|x l IH]; intros b; simpl; [apply raises_ret|].
  by apply raises_bind.
Qed.
End raises.
#[export] Hint Resolve raises_ret raises_get raises_modify raises_now raises_io
  raises_try : hoare.

Ltac raises_step :=
  match goal with
  | |- raises _ (if ?b then _ else _) => destruct b eqn:?
  | |- raises _ (match ?x with _ => _ end) => destruct x eqn:?
  | |- raises _ (mbind _ _) => apply raises_bind; [|intros]
  | |- raises _ (foldM _ _ _) => apply raises_foldM; intros
  | |- raises _ (let _ := _ in _) => cbv zeta
  | |- raises _ (throw _) => apply raises_throw; solve [eauto]
  | |- raises _ _ => solve [eauto with hoare nocore]
  end.
Ltac raises_tac := repeat raises_step.

(** [timeless m]: [m] leaves the environment as it is, up to the number of
    readings; so what holds of every clock reading and every fault still does. *)
Definition same_env (w w' : World) : Prop := clock w' = clock w ∧ faults w' = faults w.
Definition timeless {S A} (m : M S A) : Prop := ∀ s w, same_env w (m s w).2.

Section timeless.
Context {S : Type}.
Lemma timeless_bind {A B} (m : M S A) (k : A → M S B) : timeless m → (∀ a, timeless (k a)) → timeless (m ≫= k).
Proof.
  intros Hm Hk s w. rewrite bind_eq. specialize (Hm s w). destruct (m s w) as [[[a|e] s'] w']; [|done].
  destruct Hm as [H1 H2], (Hk a s' w') as [H3 H4]. cbn in *. split; congruence.
Qed.
Lemma timeless_try {A} (m : M S A) : timeless m → timeless (try m).
Proof. intros Hm s w. specialize (Hm s w). unfold try. by destruct (m s w) as [[? ?] ?]. Qed.
Lemma timeless_ret {A} (a : A) : timeless (mret a : M S A). Proof. done. Qed.
Lemma timeless_throw {A} e : timeless (throw e : M S A). Proof. done. Qed.
Lemma timeless_get : timeless (get : M S S). Proof. done. Qed.
Lemma timeless_modify f : timeless (modify f : M S unit). Proof. done. Qed.
Lemma timeless_now : timeless (now : M S Z). Proof. done. Qed.
Lemma timeless_io : timeless (io : M S Fault). Proof. done. Qed.
Lemma timeless_lift {A} (r : result A) : timeless (lift_result r : M S A). Proof. done. Qed.
End timeless.
#[export] Hint Resolve timeless_ret timeless_throw timeless_get timeless_modify timeless_now
  timeless_io timeless_lift : hoare.
Ltac timeless_step :=
  match goal with
  | |- timeless (if ?b then _ else _) => destruct b
  | |- timeless (match ?x with _ => _ end) => destruct x
  | |- timeless (mbind _ _) => apply timeless_bind; [|intros]
  | |- timeless (try _) => apply timeless_try
  | |- timeless (let _ := _ in _) => cbv zeta
  | |- timeless _ => solve [eauto with hoare nocore]
  end.
Ltac timeless_tac := repeat timeless_step.

(** Run a monadic program symbolically. *)
Ltac run := unfold mbind, mret, M_bind, M_ret, throw, get, modify, now, io, rand, try,
  lift_result in *; cbn [fst snd] in *.

(** ** Files

    A directory is a finite map from file names to files; a torn file holds
    bytes that no longer decode. *)
Inductive File (A : Type) := Doc (a : A) | Torn.
Arguments Doc {A} a.
Arguments Torn {A}.

(** A view of a directory inside the state of a component. *)
Record Lens (S T : Type) := mkLens { view : S → T; over : (T → T) → S → S }.
Arguments mkLens {S T} _ _.
Arguments view {S T} _ _.
Arguments over {S T} _ _ _.

Section files.
Context {S K A : Type} `{Countable K}.
Variable dir : Lens S (gmap K (File A)).

(** [os.WriteFile]: a fault is raised before or after the truncation. *)
Definition WriteFile (name : K) (data : A) : M S unit :=
  f ← io;
  match f with
  | NoFault => modify (over dir (insert name (Doc data)))
  | FailEarly => throw EIO
  | FailTorn => _ ← modify (over dir (insert name Torn)); throw EIO
  end.

(** [os.Remove], reporting whether it failed for a reason other than a
    missing file. *)
Definition Remove (name : K) : M S unit :=
  f ← io;
  match f with
  | NoFault => modify (over dir (delete name))
  | _ => throw EIO
  end.

(** [_ = os.Remove(path)] *)
Definition RemoveIgnore (name : K) : M S unit :=
  _ ← try (Remove name); mret tt.

Definition Stat (name : K) : M S bool :=
  s ← get; mret (bool_decide (is_Some (view dir s !! name))).

(** [os.ReadFile] followed by [json.Unmarshal] *)
Definition ReadJSON (name : K) : M S A :=
  s ← get;
  match view dir s !! name with
  | Some (Doc a) => mret a
  | Some Torn => throw EJson
  | None => throw ENotExist
  end.

Lemma preserves_WriteFile (I : S → Prop) name data :
  (∀ s f, I s → I (over dir f s)) → preserves I (WriteFile name data).
Proof.
  intros HI. unfold WriteFile. preserves_tac.
  all: apply preserves_modify; auto.
Qed.
Lemma preserves_Remove (I : S → Prop) name :
  (∀ s f, I s → I (over dir f s)) → preserves I (Remove name).
Proof.
  intros HI. unfold Remove. preserves_tac.
  apply preserves_modify; auto.
Qed.
Lemma preserves_RemoveIgnore (I : S → Prop) name :
  (∀ s f, I s → I (over dir f s)) → preserves I (RemoveIgnore name).
Proof.
  intros HI. unfold RemoveIgnore. preserves_tac.
  by apply preserves_Remove.
Qed.

(** In a reliable world the file operations do what they are asked. *)
Lemma WriteFile_reliable name data s w :
  reliable w → WriteFile name data s w = (Ok tt, over dir (insert name (Doc data)) s, advance w).
Proof. intros Hw. unfold WriteFile, mbind, M_bind, io. by rewrite Hw. Qed.
Lemma Remove_reliable name s w :
  reliable w → Remove name s w = (Ok tt, over dir (delete name) s, advance w).
Proof. intros Hw. unfold Remove, mbind, M_bind, io. by rewrite Hw. Qed.
Lemma RemoveIgnore_reliable name s w :
  reliable w → RemoveIgnore name s w = (Ok tt, over dir (delete name) s, advance w).
Proof.
  intros Hw. unfold RemoveIgnore, try, mbind, M_bind. by rewrite Remove_reliable.
Qed.

Lemma raises_WriteFile name data : raises (λ e, e = EIO) (WriteFile name data).
Proof. unfold WriteFile. raises_tac. Qed.
Lemma raises_RemoveIgnore P name : raises P (RemoveIgnore name).
Proof. unfold RemoveIgnore. raises_tac. Qed.
End files.

(** ** Generic lemmas on lists, options and maps *)

Lemma last_snoc_eq {A} (l : list A) x : last (l ++ [x]) = Some x.
Proof. apply last_snoc. Qed.

Lemma omap_Permutation {A B} (f : A → option B) (l k : list A) :
  l ≡ₚ k → omap f l ≡ₚ omap f k.
Proof.
  induction 1; simpl; repeat case_match; auto.
  - by apply perm_swap.
  - by etrans.
Qed.

Lemma list_filter_length_le {A} (P : A → Prop) `{∀ x, Decision (P x)} (l : list A) :
  length (filter P l) ≤ length l.
Proof. apply length_filter. Qed.

Lemma filter_nil_iff {A} (P : A → Prop) `{∀ x, Decision (P x)} (l : list A) :
  filter P l = [] ↔ ∀ x, x ∈ l → ¬ P x.
Proof.
  split.
  - intros E x Hx HP. assert (x ∈ filter P l) as Hin by (by apply list_elem_of_filter).
    rewrite E in Hin. by apply elem_of_nil in Hin.
  - intros Hnone. destruct (filter P l) as [|x r] eqn:E; [done|].
    assert (x ∈ filter P l) as Hin by (rewrite E; left).
    apply list_elem_of_filter in Hin as [??]. by destruct (Hnone x).
Qed.

(** Sortedness of a list whose elements satisfy [P], for a relation that is
    transitive on [P] only. *)
Lemma Sorted_StronglySorted_on {A} (R : A → A → Prop) (P : A → Prop) (l : list A) :
  (∀ x y z, P x → P y → P z → R x y → R y z → R x z) →
  Forall P l → Sorted R l → StronglySorted R l.
Proof.
  intros Htrans HP Hs. induction Hs as [|x l Hs IH Hx]; [constructor|].
  apply Forall_cons in HP as [HPx HP]. specialize (IH HP). constructor; [done|].
  destruct Hx as [|y l Hxy]; [constructor|].
  apply Forall_cons in HP as [HPy HP]. apply StronglySorted_inv in IH as [_ IH].
  constructor; [done|]. apply Forall_forall. intros z Hz.
  rewrite Forall_forall in IH, HP. eapply (Htrans x y z); auto.
Qed.

Lemma StronglySorted_map {A B} (R : A → A → Prop) (R' : B → B → Prop) (f : A → B) (l : list A) :
  (∀ x y, x ∈ l → y ∈ l → R x y → R' (f x) (f y)) → StronglySorted R l → StronglySorted R' (f <$> l).
Proof.
  intros Hf Hs. induction Hs as [|x l Hs IH Hx]; cbn; [constructor|]. constructor.
  - apply IH. intros. apply Hf; [by right..|done].
  - rewrite Forall_forall in Hx. apply Forall_forall. intros y (z & -> & Hz)%list_elem_of_fmap.
    apply Hf; [left|by right|by apply Hx].
Qed.

Lemma StronglySorted_take {A} (R : A → A → Prop) n (l : list A) :
  StronglySorted R l → StronglySorted R (take n l).
Proof.
  intros Hs. revert n. induction Hs as [|x l Hs IH Hx]; intros [|n]; cbn; try constructor; [apply IH|].
  rewrite Forall_forall in Hx. apply Forall_forall. intros y Hy. apply Hx. by eapply subseteq_take.
Qed.

(** In a sorted list the first [n] elements come before the others. *)
Lemma StronglySorted_take_drop {A} (R : A → A → Prop) n (l : list A) x y :
  StronglySorted R l → x ∈ take n l → y ∈ drop n l → R x y.
Proof.
  intros Hs. revert n. induction Hs as [|z l Hs IH Hz]; intros [|n]; cbn; try (by intros ?%elem_of_nil).
  intros [->|Hx]%elem_of_cons Hy; [|by eapply IH].
  rewrite Forall_forall in Hz. apply Hz. by eapply subseteq_drop.
Qed.

(** A NoDup schedule of the keys of a map: the order [range m] visits them in. *)
Definition range_of {K A} `{Countable K} (m : gmap K A) (ord : list K) : Prop :=
  NoDup ord ∧ ∀ k, k ∈ ord ↔ k ∈ dom m.

Lemma range_of_Permutation {K A} `{Countable K} (m : gmap K A) ord1 ord2 :
  range_of m ord1 → range_of m ord2 → ord1 ≡ₚ ord2.
Proof.
  intros [Hn1 H1] [Hn2 H2]. apply NoDup_Permutation; [done..|].
  intros k. by rewrite H1, H2.
Qed.

Lemma range_of_elements {K A} `{Countable K} (m : gmap K A) :
  range_of m (elements (dom m)).
Proof. split; [apply NoDup_elements|]. intros k. apply elem_of_elements. Qed.

(** A schedule of the keys of a computed map, checked by evaluation. *)
Lemma range_of_bool {K A} `{Countable K} (m : gmap K A) ord :
  bool_decide (NoDup ord) = true → bool_decide (dom m = list_to_set ord) = true → range_of m ord.
Proof.
  intros Hn%bool_decide_eq_true Hd%bool_decide_eq_true. split; [done|].
  intros k. rewrite Hd. by rewrite elem_of_list_to_set.
Qed.

(** ** Grouping into a map of slices: [groups[key] = append(groups[key], x)] *)

Section group_by.
Context {A : Type} (key : A → option string).

Definition group_add (groups : gmap string (list A)) (x : A) : gmap string (list A) :=
  match key x with
  | Some k => <[k := default [] (groups !! k) ++ [x]]> groups
  | None => groups
  end.

Lemma group_by_go l groups k :
  default [] (foldl group_add groups l !! k) = default [] (groups !! k) ++ filter (λ x, key x = Some k) l.
Proof.
  revert groups. induction l as [|x l IH]; intros groups; cbn [foldl]; [by rewrite app_nil_r|].
  rewrite IH, filter_cons. unfold group_add. destruct (key x) as [k'|]; [|done].
  destruct (decide (k' = k)) as [->|Hne].
  - rewrite lookup_insert_eq, decide_True by done. cbn. by rewrite <- app_assoc.
  - by rewrite lookup_insert_ne, decide_False by congruence.
Qed.

(** A group holds the elements with its key, in their order. *)
Lemma group_by_lookup l k :
  default [] (foldl group_add ∅ l !! k) = filter (λ x, key x = Some k) l.
Proof. by rewrite group_by_go, lookup_empty. Qed.

Lemma group_by_dom l k : is_Some (foldl group_add ∅ l !! k) ↔ ∃ x, x ∈ l ∧ key x = Some k.
Proof.
  induction l as [|x l IH] using rev_ind; cbn.
  { rewrite lookup_empty. split; [by intros []|]. by intros (x & ?%elem_of_nil & _). }
  rewrite foldl_app. cbn. unfold group_add at 1.
  setoid_rewrite elem_of_app. setoid_rewrite list_elem_of_singleton.
  destruct (key x) as [k'|] eqn:E; [|rewrite IH; naive_solver].
  destruct (decide (k' = k)) as [->|Hne].
  - rewrite lookup_insert_eq. split; [by eauto|]. by eauto.
  - rewrite lookup_insert_ne, IH by done. naive_solver.
Qed.
End group_by.
