(* ===== verification/GoStrings.v ===== *)
(** * Go strings

    A Go [string] is a sequence of bytes: Stdlib's [string] (one [ascii] per
    byte).  This file holds the functions of Go's [strings], [encoding/hex],
    [strconv] and [fmt] packages the program calls, on bytes.  White space is
    Unicode's [White_Space] in its UTF-8 encoding, so [TrimSpace] and [Fields]
    are exact on every byte string.  [ToLower] is exact on ASCII strings and
    takes the Unicode case tables as a parameter on the others, as the Go code
    splits on the same test. *)
From S2P Require Import Prelude.
From Stdlib Require Export Ascii.
From Stdlib Require String.

Definition byte (n : nat) : ascii := ascii_of_nat n.

(** ** White space *)

(** [unicode.IsSpace] on a one-byte rune. *)
Definition space1 (a : ascii) : bool :=
  let n := nat_of_ascii a in (n =? 32)%nat || ((9 <=? n) && (n <=? 13))%nat.
(** U+0085 and U+00A0. *)
Definition space2 (a b : ascii) : bool :=
  let m := nat_of_ascii a in let n := nat_of_ascii b in
  ((m =? 194) && ((n =? 133) || (n =? 160)))%nat.
(** U+1680, U+2000-200A, U+2028, U+2029, U+202F, U+205F, U+3000. *)
Definition space3 (a b c : ascii) : bool :=
  let l := nat_of_ascii a in let m := nat_of_ascii b in let n := nat_of_ascii c in
  ((l =? 225) && (m =? 154) && (n =? 128)
   || (l =? 226) && (m =? 128)
        && (((128 <=? n) && (n <=? 138)) || (n =? 168) || (n =? 169) || (n =? 175))
   || (l =? 226) && (m =? 129) && (n =? 159)
   || (l =? 227) && (m =? 128) && (n =? 128))%nat.

(** Drop the leading white space; [sp2] and [sp3] recognise a multi-byte rune
    in the order in which the bytes are met. *)
Fixpoint trim_with (sp2 : ascii → ascii → bool) (sp3 : ascii → ascii → ascii → bool)
    (s : string) : string :=
  match s with
  | String a r =>
      if space1 a then trim_with sp2 sp3 r else
      match r with
      | String b r2 =>
          if sp2 a b then trim_with sp2 sp3 r2 else
          match r2 with
          | String c r3 => if sp3 a b c then trim_with sp2 sp3 r3 else s
          | EmptyString => s
          end
      | EmptyString => s
      end
  | EmptyString => s
  end.

Definition TrimLeftSpace : string → string := trim_with space2 space3.
Definition TrimRightSpace (s : string) : string :=
  String.rev (trim_with (λ b a, space2 a b) (λ c b a, space3 a b c) (String.rev s)).
(** [strings.TrimSpace] *)
Definition TrimSpace (s : string) : string := TrimRightSpace (TrimLeftSpace s).

(** [strings.TrimSpace(s) == ""] *)
Definition blank (s : string) : bool := bool_decide (TrimSpace s = "").

(** [strings.Fields]: [cur] is the field being read, backwards. *)
Fixpoint fields_go (cur : string) (s : string) : list string :=
  let flush k := match cur with EmptyString => k | _ => String.rev cur :: k end in
  match s with
  | EmptyString => flush []
  | String a r =>
      if space1 a then flush (fields_go "" r) else
      match r with
      | String b r2 =>
          if space2 a b then flush (fields_go "" r2) else
          match r2 with
          | String c r3 =>
              if space3 a b c then flush (fields_go "" r3)
              else fields_go (String a cur) r
          | EmptyString => fields_go (String a cur) r
          end
      | EmptyString => fields_go (String a cur) r
      end
  end.
Definition Fields (s : string) : list string := fields_go "" s.

(** ** Case *)

Definition is_ascii_byte (a : ascii) : bool := (nat_of_ascii a <? 128)%nat.
Fixpoint is_ascii (s : string) : bool :=
  match s with EmptyString => true | String a r => is_ascii_byte a && is_ascii r end.
Definition lower_byte (a : ascii) : ascii :=
  let n := nat_of_ascii a in
  if ((65 <=? n) && (n <=? 90))%nat then ascii_of_nat (n + 32) else a.
Fixpoint map_bytes (f : ascii → ascii) (s : string) : string :=
  match s with EmptyString => "" | String a r => String (f a) (map_bytes f r) end.

(** Go's [unicode.ToLower] tables, applied to a string with a non-ASCII byte. *)
Class UnicodeTables := unicode_lower : string → string.

(** [strings.ToLower] *)
Definition ToLower `{UnicodeTables} (s : string) : string :=
  if is_ascii s then map_bytes lower_byte s else unicode_lower s.

(** The tables restricted to the scripts without case the program's own
    markers use: used by the witnesses. *)
Definition caseless_tables : UnicodeTables := map_bytes lower_byte.

(** ** Substrings *)

Definition HasPrefix (s pre : string) : bool := String.prefix pre s.
Definition HasSuffix (s suf : string) : bool := String.prefix (String.rev suf) (String.rev s).
(** [strings.Contains] *)
Definition Contains (s sub : string) : bool :=
  match String.index 0 sub s with Some _ => true | None => false end.
(** [s[n:]] and [s[:n]], for [n <= len(s)] *)
Fixpoint drop_bytes (n : nat) (s : string) : string :=
  match n, s with O, _ => s | S n, String _ r => drop_bytes n r | S _, EmptyString => "" end.
Definition take_bytes (n : nat) (s : string) : string := String.substring 0 n s.
Definition len (s : string) : nat := String.length s.

(** [strings.ReplaceAll(s, old, new)] for a nonempty [old]: leftmost, non
    overlapping; [fuel] bounds the number of bytes of [s]. *)
Fixpoint replace_go (fuel : nat) (old new s : string) : string :=
  match fuel, s with
  | S fuel, String a r =>
      if HasPrefix s old then new +:+ replace_go fuel old new (drop_bytes (len old) s)
      else String a (replace_go fuel old new r)
  | _, _ => s
  end.
Definition ReplaceAll (s old new : string) : string := replace_go (len s) old new s.

(** [strings.Join(l, sep)] *)
Definition Join (l : list string) (sep : string) : string := String.concat sep l.

(** A [strings.NewReplacer] whose old strings are single bytes. *)
Fixpoint ReplaceBytes (f : ascii → string) (s : string) : string :=
  match s with EmptyString => "" | String a r => f a +:+ ReplaceBytes f r end.

(** [strings.Trim(s, cutset)] for a cutset of one byte *)
Fixpoint trim_left_byte (c : ascii) (s : string) : string :=
  match s with
  | String a r => if decide (a = c) then trim_left_byte c r else s
  | EmptyString => ""
  end.
Definition TrimByte (s : string) (c : ascii) : string :=
  String.rev (trim_left_byte c (String.rev (trim_left_byte c s))).

(** ** Hexadecimal and decimal *)

Definition hex_digit (n : nat) : ascii :=
  if (n <? 10)%nat then ascii_of_nat (48 + n) else ascii_of_nat (87 + n).
(** [hex.EncodeToString([]byte(s))] *)
Fixpoint HexEncode (s : string) : string :=
  match s with
  | EmptyString => ""
  | String a r =>
      let n := nat_of_ascii a in
      String (hex_digit (n / 16)) (String (hex_digit (n mod 16)) (HexEncode r))
  end.

(** [fmt.Sprintf("%d", z)] *)
Definition Itoa (z : Z) : string := pretty z.

Definition digit_of (a : ascii) : option Z :=
  let n := nat_of_ascii a in
  if ((48 <=? n) && (n <=? 57))%nat then Some (Z.of_nat n - 48)%Z else None.
Fixpoint scan_digits (acc : Z) (s : string) : Z :=
  match s with
  | String a r => match digit_of a with Some d => scan_digits (10 * acc + d)%Z r | None => acc end
  | EmptyString => acc
  end.
(** [fmt.Sscanf(s, "%d", &v)] on a string without leading white space: an
    optional sign, then decimal digits, then anything; [None] when there is no
    digit or the number leaves the range of [int]. *)
Definition Sscanf_d (s : string) : option Z :=
  let '(sign, r) := match s with
    | String "-" r => ((-1)%Z, r) | String "+" r => (1%Z, r) | _ => (1%Z, s) end in
  match r with
  | String a _ =>
      match digit_of a with
      | Some _ =>
          let v := (sign * scan_digits 0 r)%Z in
          if ((- 2 ^ 63 <=? v) && (v <? 2 ^ 63))%Z then Some v else None
      | None => None
      end
  | EmptyString => None
  end.

(** [firstNonEmpty], which the packages of the program each declare. *)
Fixpoint firstNonEmpty (values : list string) : string :=
  match values with
  | [] => ""
  | v :: r => if bool_decide (TrimSpace v ≠ "") then TrimSpace v else firstNonEmpty r
  end.

(** ** Lemmas *)

Lemma hex_digit_inj a b : (a < 16)%nat → (b < 16)%nat → hex_digit a = hex_digit b → a = b.
Proof.
  intros Ha Hb.
  do 16 (destruct a as [|a]; [do 16 (destruct b as [|b]; [vm_compute; congruence|]); lia|]).
  lia.
Qed.

(** The two digits determine the byte. *)
Lemma hex_byte_inj a b :
  hex_digit (nat_of_ascii a / 16) = hex_digit (nat_of_ascii b / 16) →
  hex_digit (nat_of_ascii a mod 16) = hex_digit (nat_of_ascii b mod 16) →
  a = b.
Proof.
  intros Hh Hl. pose proof (nat_ascii_bounded a). pose proof (nat_ascii_bounded b).
  apply hex_digit_inj in Hh; [|apply Nat.Div0.div_lt_upper_bound; lia..].
  apply hex_digit_inj in Hl; [|apply Nat.mod_upper_bound; lia..].
  rewrite <- (ascii_nat_embedding a), <- (ascii_nat_embedding b). f_equal.
  pose proof (Nat.div_mod_eq (nat_of_ascii a) 16).
  pose proof (Nat.div_mod_eq (nat_of_ascii b) 16). lia.
Qed.

(** Hexadecimal encoding is injective. *)
Lemma HexEncode_inj s t : HexEncode s = HexEncode t → s = t.
Proof.
  revert t. induction s as [|a s IH]; intros [|b t]; cbn [HexEncode]; try done.
  pose proof (hex_byte_inj a b) as Hab.
  generalize dependent (hex_digit (nat_of_ascii a / 16)).
  generalize dependent (hex_digit (nat_of_ascii a mod 16)).
  generalize dependent (hex_digit (nat_of_ascii b / 16)).
  generalize dependent (hex_digit (nat_of_ascii b mod 16)).
  intros bl bh al ah Hab H. injection H as -> -> Ht.
  rewrite Hab by done. f_equal. by apply IH.
Qed.

Lemma string_cons_app a s t : String a s +:+ t = String a (s +:+ t).
Proof. reflexivity. Qed.

Lemma string_app_assoc s t u : s +:+ t +:+ u = (s +:+ t) +:+ u.
Proof. induction s as [|a s IH]; [done|]. by rewrite !string_cons_app, IH. Qed.
Lemma string_length_app s t : len (s +:+ t) = (len s + len t)%nat.
Proof.
  unfold len. induction s as [|a s IH]; [done|].
  rewrite string_cons_app. cbn. by rewrite IH.
Qed.

Lemma string_app_inj_suffix s t u : s +:+ u = t +:+ u → s = t.
Proof.
  revert t. induction s as [|a s IH]; intros [|b t] H; [done| | |].
  1,2: apply (f_equal len) in H; rewrite !string_length_app in H; cbn in H; lia.
  rewrite !string_cons_app in H. injection H as -> H. f_equal. by apply IH.
Qed.

(** ** Trimming twice is trimming once *)

Section trim.
Context (sp2 : ascii → ascii → bool) (sp3 : ascii → ascii → ascii → bool).

(** No leading white space is left. *)
Definition trimmed (s : string) : Prop := trim_with sp2 sp3 s = s.

Lemma trim_with_length s : (len (trim_with sp2 sp3 s) <= len s)%nat.
Proof.
  unfold len. remember (String.length s) as n eqn:E. revert s E.
  induction n as [n IH] using lt_wf_ind; intros s ->.
  destruct s as [|a [|b [|c r]]]; simpl in *; [done|..].
  all: repeat case_match; simpl; try lia.
  all: match goal with |- context [trim_with _ _ ?t] =>
         assert (String.length (trim_with sp2 sp3 t) <= String.length t)%nat
           by (eapply IH; simpl; [|done]; lia); simpl in *; lia end.
Qed.

Lemma trim_with_trimmed s : trimmed (trim_with sp2 sp3 s).
Proof.
  unfold trimmed. remember (String.length s) as n eqn:E. revert s E.
  induction n as [n IH] using lt_wf_ind; intros s ->.
  destruct s as [|a r]; [done|]. cbn [trim_with].
  destruct (space1 a) eqn:Ea; [eapply IH; [|done]; simpl; lia|].
  destruct r as [|b r]; [cbn [trim_with]; by rewrite Ea|].
  destruct (sp2 a b) eqn:Eb; [eapply IH; [|done]; simpl; lia|].
  destruct r as [|c r]; [cbn [trim_with]; by rewrite Ea, Eb|].
  destruct (sp3 a b c) eqn:Ec; [eapply IH; [|done]; simpl; lia|].
  cbn [trim_with]. by rewrite Ea, Eb, Ec.
Qed.

(** Whether a string starts with white space shows in its first bytes. *)
Lemma trimmed_cons a r :
  trimmed (String a r) ↔
    space1 a = false ∧
    match r with
    | String b r2 => sp2 a b = false ∧
        match r2 with String c _ => sp3 a b c = false | EmptyString => True end
    | EmptyString => True
    end.
Proof.
  assert (∀ t, (len t < len (String a r))%nat → trim_with sp2 sp3 t ≠ String a r) as Hne.
  { intros t Ht Heq. pose proof (trim_with_length t). rewrite Heq in *. lia. }
  unfold trimmed, len in *. cbn [trim_with String.length] in *. split.
  - intros H. destruct (space1 a); [exfalso; eapply Hne; [|done]; simpl; lia|].
    split; [done|]. destruct r as [|b r]; [done|].
    destruct (sp2 a b); [exfalso; eapply Hne; [|done]; simpl; lia|].
    split; [done|]. destruct r as [|c r]; [done|].
    destruct (sp3 a b c); [exfalso; eapply Hne; [|done]; simpl; lia|done].
  - intros [-> H]. destruct r as [|b r]; [done|]. destruct H as [-> H].
    destruct r as [|c r]; [done|]. by rewrite H.
Qed.

Lemma trimmed_prefix p q : trimmed (p +:+ q) → trimmed p.
Proof.
  destruct p as [|a p]; [done|]. rewrite string_cons_app, !trimmed_cons.
  intros [Ha H]. split; [done|]. destruct p as [|b p]; [done|].
  rewrite string_cons_app in H. destruct H as [Hb H]. split; [done|].
  destruct p as [|c p]; [done|]. by rewrite string_cons_app in H.
Qed.

(** [trim_with] drops a prefix. *)
Lemma trim_with_suffix s : ∃ p, s = p +:+ trim_with sp2 sp3 s.
Proof.
  remember (String.length s) as n eqn:E. revert s E.
  induction n as [n IH] using lt_wf_ind; intros s ->.
  destruct s as [|a r]; [by exists ""|]. cbn [trim_with].
  destruct (space1 a) eqn:Ea.
  { destruct (IH (String.length r)) with (s := r) as [p Hp]; [simpl; lia|done|].
    exists (String a p). rewrite string_cons_app. by f_equal. }
  destruct r as [|b r]; [by exists ""|].
  destruct (sp2 a b) eqn:Eb.
  { destruct (IH (String.length r)) with (s := r) as [p Hp]; [simpl; lia|done|].
    exists (String a (String b p)). rewrite !string_cons_app. by do 2 f_equal. }
  destruct r as [|c r]; [by exists ""|].
  destruct (sp3 a b c) eqn:Ec; [|by exists ""].
  destruct (IH (String.length r)) with (s := r) as [p Hp]; [simpl; lia|done|].
  exists (String a (String b (String c p))). rewrite !string_cons_app. by do 3 f_equal.
Qed.
End trim.

Lemma rev_app_app s t u : String.rev_app (s +:+ t) u = String.rev_app t (String.rev_app s u).
Proof.
  revert u. induction s as [|a s IH]; intros u; [done|].
  rewrite string_cons_app. cbn. apply IH.
Qed.
Lemma rev_app_acc s u : String.rev_app s u = String.rev s +:+ u.
Proof.
  unfold String.rev. revert u. induction s as [|a s IH]; intros u; [done|].
  cbn. rewrite (IH (String a u)), (IH (String a "")). clear IH.
  induction (String.rev_app s "") as [|b r IHr]; [done|].
  rewrite !string_cons_app. by f_equal.
Qed.
Lemma rev_app_distr s t : String.rev (s +:+ t) = String.rev t +:+ String.rev s.
Proof. unfold String.rev at 1. by rewrite rev_app_app, rev_app_acc. Qed.
Lemma string_app_nil_r s : s +:+ "" = s.
Proof. induction s as [|a s IH]; [done|]. rewrite string_cons_app. by f_equal. Qed.
Lemma string_rev_rev s : String.rev (String.rev s) = s.
Proof.
  induction s as [|a s IH]; [done|].
  change (String a s) with (String a "" +:+ s) at 1.
  rewrite rev_app_distr, rev_app_distr, IH. done.
Qed.

Lemma HasPrefix_app p s : HasPrefix (p +:+ s) p = true.
Proof.
  unfold HasPrefix. induction p as [|a p IH]; [by destruct s|].
  rewrite string_cons_app. cbn. by destruct (ascii_dec a a).
Qed.
Lemma HasSuffix_app s p : HasSuffix (s +:+ p) p = true.
Proof. unfold HasSuffix. rewrite rev_app_distr. apply HasPrefix_app. Qed.
Lemma HasPrefix_spec s p : HasPrefix s p = true ↔ ∃ r, s = p +:+ r.
Proof.
  split; [|intros [r ->]; apply HasPrefix_app]. revert s. unfold HasPrefix.
  induction p as [|a p IH]; intros s; [by exists s|].
  destruct s as [|b s]; cbn; [done|]. destruct (ascii_dec a b) as [->|]; [|done].
  intros [r ->]%IH. exists r. by rewrite string_cons_app.
Qed.

(** [TrimSpace] is idempotent. *)
Lemma TrimSpace_idemp s : TrimSpace (TrimSpace s) = TrimSpace s.
Proof.
  unfold TrimSpace at 1. set (t := TrimSpace s).
  assert (TrimLeftSpace t = t) as Hl.
  { unfold t, TrimSpace, TrimRightSpace. set (u := TrimLeftSpace s).
    destruct (trim_with_suffix (λ b a, space2 a b) (λ c b a, space3 a b c) (String.rev u))
      as [p Hp].
    apply (trimmed_prefix space2 space3 _ (String.rev p)).
    rewrite <- rev_app_distr, <- Hp, string_rev_rev. apply trim_with_trimmed. }
  rewrite Hl. unfold t, TrimSpace, TrimRightSpace.
  rewrite string_rev_rev. f_equal. apply trim_with_trimmed.
Qed.
Create Rewrite HintDb gostrings.
#[export] Hint Rewrite TrimSpace_idemp : gostrings.

Lemma blank_TrimSpace s : blank (TrimSpace s) = blank s.
Proof. unfold blank. by rewrite TrimSpace_idemp. Qed.
#[export] Hint Rewrite blank_TrimSpace : gostrings.

(** [firstNonEmpty] returns a trimmed string: the first one that is not blank. *)
Lemma firstNonEmpty_trimmed l : TrimSpace (firstNonEmpty l) = firstNonEmpty l.
Proof.
  induction l as [|v l IH]; [done|]. cbn. case_bool_decide; [|done].
  apply TrimSpace_idemp.
Qed.
Lemma firstNonEmpty_nonblank l : (∃ v, v ∈ l ∧ blank v = false) → firstNonEmpty l ≠ "".
Proof.
  induction l as [|v l IH]; intros (x & Hx & Hb); [by apply elem_of_nil in Hx|].
  cbn. case_bool_decide as Hv; [done|].
  apply elem_of_cons in Hx as [->|Hx]; [|by eauto].
  unfold blank in Hb. case_bool_decide; congruence.
Qed.

(** ** Strings without white space or multi-byte runes *)

Definition plain_byte (a : ascii) : bool := is_ascii_byte a && negb (space1 a).
Fixpoint plain (s : string) : bool :=
  match s with EmptyString => true | String a r => plain_byte a && plain r end.

Lemma plain_app s t : plain (s +:+ t) = plain s && plain t.
Proof.
  induction s as [|a s IH]; [done|]. rewrite string_cons_app. cbn. rewrite IH. apply andb_assoc.
Qed.
Lemma plain_rev s : plain (String.rev s) = plain s.
Proof.
  induction s as [|a s IH]; [done|]. change (String a s) with (String a "" +:+ s).
  rewrite rev_app_distr, !plain_app, IH. apply andb_comm.
Qed.
Lemma trim_with_plain sp2 sp3 s :
  (∀ a b, plain_byte a = true → plain_byte b = true → sp2 a b = false) →
  (∀ a b c, plain_byte a = true → plain_byte b = true → plain_byte c = true → sp3 a b c = false) →
  plain s = true → trim_with sp2 sp3 s = s.
Proof.
  intros H2 H3. destruct s as [|a r]; [done|]. cbn [plain]. intros [Ha Hr]%andb_true_iff.
  apply trimmed_cons. split; [by apply andb_true_iff in Ha as [_ ?%negb_true_iff]|].
  destruct r as [|b r]; [done|]. cbn [plain] in Hr. apply andb_true_iff in Hr as [Hb Hr].
  split; [by apply H2|]. destruct r as [|c r]; [done|]. cbn [plain] in Hr.
  apply andb_true_iff in Hr as [Hc _]. by apply H3.
Qed.
Lemma plain_byte_lt a : plain_byte a = true → (nat_of_ascii a < 128)%nat.
Proof. intros [H _]%andb_true_iff. by apply Nat.ltb_lt. Qed.
Lemma plain_space2 a b : plain_byte a = true → space2 a b = false.
Proof. intros H%plain_byte_lt. unfold space2. destruct (Nat.eqb_spec (nat_of_ascii a) 194); [lia|done]. Qed.
Lemma plain_space3 a b c : plain_byte a = true → space3 a b c = false.
Proof.
  intros H%plain_byte_lt. unfold space3.
  destruct (Nat.eqb_spec (nat_of_ascii a) 225); [lia|].
  destruct (Nat.eqb_spec (nat_of_ascii a) 226); [lia|].
  destruct (Nat.eqb_spec (nat_of_ascii a) 227); [lia|done].
Qed.

(** Trimming leaves such a string alone. *)
Lemma TrimSpace_plain s : plain s = true → TrimSpace s = s.
Proof.
  intros Hs. unfold TrimSpace, TrimLeftSpace, TrimRightSpace.
  rewrite (trim_with_plain space2 space3 s); auto using plain_space2, plain_space3.
  rewrite trim_with_plain; [apply string_rev_rev|..|by rewrite plain_rev].
  - auto using plain_space2.
  - auto using plain_space3.
Qed.
Lemma hex_digit_plain_byte n : (n < 16)%nat → plain_byte (hex_digit n) = true.
Proof. intros Hn. do 16 (destruct n as [|n]; [reflexivity|]). lia. Qed.
Lemma HexEncode_plain s : plain (HexEncode s) = true.
Proof.
  induction s as [|a s IH]; [done|]. cbn [HexEncode plain]. pose proof (nat_ascii_bounded a).
  rewrite !hex_digit_plain_byte, IH; [done| |].
  - apply Nat.mod_upper_bound. lia.
  - apply Nat.Div0.div_lt_upper_bound. lia.
Qed.

Lemma Itoa_inj x y : Itoa x = Itoa y → x = y.
Proof. apply (inj pretty). Qed.

(** Examples on concrete strings. *)
Example TrimSpace_example : TrimSpace (String (byte 9) "  a b  ") = "a b".
Proof. reflexivity. Qed.
Example Fields_example :
  Fields ("  the quick" +:+ String (byte 227) (String (byte 128) (String (byte 128) "fox "))) = ["the"; "quick"; "fox"].
Proof. reflexivity. Qed.
Example HexEncode_example : HexEncode "card:1" = "636172643a31".
Proof. reflexivity. Qed.
Example ReplaceAll_example : ReplaceAll "aXXbXX" "XX" "-" = "a-b-".
Proof. reflexivity. Qed.
Example Itoa_example : Itoa 42 = "42" ∧ Sscanf_d "42abc" = Some 42%Z ∧ Sscanf_d "x" = None.
Proof. done. Qed.
