(* ===== verification/GoNum.v ===== *)
(** * Go numbers and times

    [float64] is IEEE 754 binary64, the [spec_float] of the library at
    precision 53 and exponent bound 1024 (round to nearest, ties to even), so
    that every score computation of the program is the one Go makes.  [int]
    and [time.Duration] are 64-bit two's complement integers in [Z]; a
    [time.Time] is a number of nanoseconds since the Unix epoch in [Z]. *)
From S2P Require Import Prelude.
From Corelib Require Export SpecFloat.
Open Scope Z_scope.

(** ** float64 *)

Abbreviation float64 := spec_float.
Definition fadd : float64 → float64 → float64 := SFadd 53 1024.
Definition fsub : float64 → float64 → float64 := SFsub 53 1024.
Definition fmul : float64 → float64 → float64 := SFmul 53 1024.
Definition fdiv : float64 → float64 → float64 := SFdiv 53 1024.
(** [float64(z)] for an [int] *)
Definition of_int (z : Z) : float64 := binary_normalize 53 1024 z 0 false.
Definition flt : float64 → float64 → bool := SFltb.
Definition fle : float64 → float64 → bool := SFleb.
Definition feq : float64 → float64 → bool := SFeqb.
(** The literal [num/den] of the source: a correctly rounded quotient. *)
Definition lit (num den : Z) : float64 := fdiv (of_int num) (of_int den).
Definition f0 : float64 := S754_zero false.
Definition f1 : float64 := of_int 1.

Definition is_nan (x : float64) : bool := match x with S754_nan => true | _ => false end.
Definition is_finite (x : float64) : bool :=
  match x with S754_zero _ | S754_finite _ _ _ => true | _ => false end.
Definition signbit (x : float64) : bool :=
  match x with S754_zero s | S754_infinity s | S754_finite s _ _ => s | S754_nan => false end.

(** [math.Max] and [math.Min], special cases in the order of Go's code. *)
Definition fmax (x y : float64) : float64 :=
  match x, y with
  | S754_infinity false, _ | _, S754_infinity false => S754_infinity false
  | S754_nan, _ | _, S754_nan => S754_nan
  | S754_zero s, S754_zero _ => if s then y else x
  | _, _ => if flt y x then x else y
  end.
Definition fmin (x y : float64) : float64 :=
  match x, y with
  | S754_infinity true, _ | _, S754_infinity true => S754_infinity true
  | S754_nan, _ | _, S754_nan => S754_nan
  | S754_zero s, S754_zero _ => if s then x else y
  | _, _ => if flt x y then x else y
  end.

(** A score of the unit interval: what every activation score is meant to be. *)
Definition in_unit (x : float64) : bool := fle f0 x && fle x f1.

(** [json:",omitempty"] drops both zeros of a float. *)
Definition omit_zero (x : float64) : float64 :=
  match x with S754_zero _ => f0 | _ => x end.

(** ** int (64 bits) *)

Definition wrap64 (z : Z) : Z := (z + 2 ^ 63) mod 2 ^ 64 - 2 ^ 63.
Definition int64_range (z : Z) : Prop := - 2 ^ 63 <= z < 2 ^ 63.

(** ** time *)

Abbreviation Time := Z (only parsing).
Definition Nanosecond : Z := 1.
Definition Millisecond : Z := 1000000.
Definition Second : Z := 1000000000.
Definition Minute : Z := 60 * Second.
Definition Hour : Z := 60 * Minute.
(** January 1 of the year 1: the zero [time.Time]. *)
Definition zeroTime : Time := -62135596800 * Second.
Definition IsZero (t : Time) : bool := t =? zeroTime.
(** [t.Sub(u)] saturates at the bounds of [Duration]. *)
Definition Sub (t u : Time) : Z := Z.max (- 2 ^ 63) (Z.min (2 ^ 63 - 1) (t - u)).
Definition Before (t u : Time) : bool := t <? u.
Definition After (t u : Time) : bool := u <? t.
(** [d.Hours()]: whole hours plus the fraction, [/] and [%] truncating. *)
Definition Hours (d : Z) : float64 :=
  fadd (of_int (Z.quot d Hour)) (fdiv (of_int (Z.rem d Hour)) (of_int Hour)).
(** The years [time.Time.MarshalJSON] accepts: 0 to 9999. *)
Definition json_time_ok (t : Time) : bool :=
  (-62167219200 * Second <=? t) && (t <? 253402300800 * Second).

(** ** Lemmas *)

Lemma wrap64_small z : int64_range z → wrap64 z = z.
Proof. unfold int64_range, wrap64. intros. rewrite Z.mod_small; lia. Qed.

Lemma wrap64_range z : int64_range (wrap64 z).
Proof.
  unfold int64_range, wrap64. pose proof (Z.mod_pos_bound (z + 2 ^ 63) (2 ^ 64)). lia.
Qed.

Lemma fle_refl x : is_nan x = false → fle x x = true.
Proof.
  unfold fle, SFleb. destruct x as [|[]| |[] m e]; try done; intros _; simpl.
  all: by rewrite Z.compare_refl, (Pos.compare_refl m : Pos.compare_cont Eq m m = Eq).
Qed.

Lemma SFcompare_swap x y : SFcompare y x = CompOpp <$> SFcompare x y.
Proof.
  destruct x as [[]|[]| |[] m e], y as [[]|[]| |[] m' e']; try done; simpl.
  all: rewrite (Z.compare_antisym e e'); destruct (e ?= e'); simpl; try done.
  all: change (Pos.compare_cont Eq m' m) with (m' ?= m)%positive;
       change (Pos.compare_cont Eq m m') with (m ?= m')%positive;
       by rewrite (Pos.compare_antisym m m').
Qed.

Lemma flt_fle x y : flt x y = true → fle x y = true.
Proof. unfold flt, fle, SFltb, SFleb. by destruct (SFcompare x y) as [[]|]. Qed.

Lemma flt_not_fle x y : flt x y = true → fle y x = false.
Proof. unfold flt, fle, SFltb, SFleb. rewrite (SFcompare_swap x y). by destruct (SFcompare x y) as [[]|]. Qed.
Lemma not_flt_fle x y : is_nan x = false → is_nan y = false → flt x y = false → fle y x = true.
Proof.
  intros Hx Hy. unfold flt, fle, SFltb, SFleb. rewrite (SFcompare_swap x y).
  destruct (SFcompare x y) as [[]|] eqn:E; try done.
  by destruct x as [|[]| |[]], y as [|[]| |[]].
Qed.

(** The result of [math.Max]/[math.Min] is one of the arguments (up to the
    sign of a zero) and bounds both. *)
Lemma fmax_r x y : is_nan x = false → is_nan y = false → fle y (fmax x y) = true.
Proof.
  intros Hx Hy. unfold fmax.
  destruct x as [[]|[]| |], y as [[]|[]| |]; try done; try (destruct s); try done.
  all: match goal with |- context [if flt ?a ?b then _ else _] =>
         destruct (flt a b) eqn:E; [by apply flt_fle|] end.
  all: by apply fle_refl.
Qed.

(** *** Sums of finite numbers are numbers *)

Lemma shr_1_nonneg r : 0 <= shr_m r → 0 <= shr_m (shr_1 r).
Proof. destruct r as [[|[]|[]] ? ?]; cbn; lia. Qed.
Lemma shr_iter_nonneg p r : 0 <= shr_m r → 0 <= shr_m (iter_pos shr_1 p r).
Proof. revert r. induction p; intros r Hr; cbn; auto using shr_1_nonneg. Qed.
Lemma shr_fexp_nonneg m e l : 0 <= m → 0 <= shr_m (shr_fexp 53 1024 m e l).1.
Proof.
  intros Hm. unfold shr_fexp, shr.
  assert (0 <= shr_m (shr_record_of_loc m l)) by (by destruct l as [|[]]).
  destruct (_ - e); cbn; auto using shr_iter_nonneg.
Qed.
Lemma round_nonneg m l : 0 <= m → 0 <= round_nearest_even m l.
Proof. destruct l as [|[]]; cbn; try lia. destruct (Z.even m); lia. Qed.

Lemma binary_round_aux_not_nan s m e l : 0 <= m → is_nan (binary_round_aux 53 1024 s m e l) = false.
Proof.
  intros Hm. unfold binary_round_aux.
  pose proof (shr_fexp_nonneg m e l Hm) as H1. destruct (shr_fexp 53 1024 m e l) as [r1 e1]. cbn in H1.
  pose proof (shr_fexp_nonneg (round_nearest_even (shr_m r1) (loc_of_shr_record r1)) e1 loc_Exact
    (round_nonneg _ _ H1)) as H2.
  destruct (shr_fexp 53 1024 _ _ _) as [r2 e2]. cbn in H2.
  destruct (shr_m r2); [done|by destruct (e2 <=? _)|lia].
Qed.

Lemma binary_normalize_not_nan m e s : is_nan (binary_normalize 53 1024 m e s) = false.
Proof.
  destruct m as [|p|p]; [done|..]; unfold binary_normalize, binary_round.
  all: destruct (shl_align _ _ _); by apply binary_round_aux_not_nan.
Qed.
Lemma of_int_not_nan z : is_nan (of_int z) = false.
Proof. apply binary_normalize_not_nan. Qed.

Lemma fadd_not_nan x y : is_nan x = false → is_nan y = false →
  is_finite x = true ∨ is_finite y = true → is_nan (fadd x y) = false.
Proof.
  destruct x as [[]|[]| |s1 m1 e1], y as [[]|[]| |s2 m2 e2]; try done; try naive_solver.
  intros _ _ _. apply binary_normalize_not_nan.
Qed.

Lemma fmul_not_nan x s m e : is_nan x = false → is_nan (fmul x (S754_finite s m e)) = false.
Proof.
  destruct x as [?|?| |s1 m1 e1]; try done. intros _. cbn.
  apply binary_round_aux_not_nan. lia.
Qed.

(** *** The order of floats

    [fkey] maps the numbers to triples whose lexicographic order is the order
    of [flt], so that its order properties follow by [lia]. *)
Definition fkey (x : float64) : Z * Z * Z :=
  match x with
  | S754_infinity true => (-2, 0, 0)
  | S754_finite true m e => (-1, - e, - Z.pos m)
  | S754_zero _ => (0, 0, 0)
  | S754_finite false m e => (1, e, Z.pos m)
  | S754_infinity false => (2, 0, 0)
  | S754_nan => (3, 0, 0)
  end.
Definition key_lt (a b : Z * Z * Z) : Prop :=
  a.1.1 < b.1.1 ∨ (a.1.1 = b.1.1 ∧ (a.1.2 < b.1.2 ∨ (a.1.2 = b.1.2 ∧ a.2 < b.2))).

Lemma SFcompare_key x y : is_nan x = false → is_nan y = false →
  match SFcompare x y with
  | Some Lt => key_lt (fkey x) (fkey y)
  | Some Eq => fkey x = fkey y
  | Some Gt => key_lt (fkey y) (fkey x)
  | None => False
  end.
Proof.
  unfold key_lt. destruct x as [[]|[]| |[] m e], y as [[]|[]| |[] m' e']; try done; intros _ _; cbn; try lia.
  all: change (Pos.compare_cont Eq m m') with (m ?= m')%positive.
  all: destruct (Z.compare_spec e e'), (Pos.compare_spec m m'); cbn; try lia; try (f_equal; [f_equal|]; lia).
  all: subst; done.
Qed.

Lemma flt_key x y : is_nan x = false → is_nan y = false → flt x y = true ↔ key_lt (fkey x) (fkey y).
Proof.
  intros Hx Hy. pose proof (SFcompare_key x y Hx Hy) as H. unfold flt, SFltb.
  destruct (SFcompare x y) as [[]|]; [rewrite H| | |done]; unfold key_lt in *; split; try done; lia.
Qed.
Lemma feq_key x y : is_nan x = false → is_nan y = false → feq x y = true ↔ fkey x = fkey y.
Proof.
  intros Hx Hy. pose proof (SFcompare_key x y Hx Hy) as H. unfold feq, SFeqb.
  destruct (SFcompare x y) as [[]|]; [done| | |done]; split; try done.
  all: intros E; rewrite E in H; unfold key_lt in H; lia.
Qed.
