(* ===== verification/MemoryTypes.v ===== *)
(** * The data of the memory component ([internal/memory/types.go])

    Cards, edges and requests with the fields of the source, and the JSON
    round trip of a card and an edge: [*_json_ok] says when [json.Marshal]
    succeeds and [*_norm] what [json.Unmarshal] reads back. *)
From S2P Require Import Prelude GoStrings GoNum.

(** ** Status and scope names *)

Definition ScopeSession : string := "session".
Definition ScopeUser : string := "user".
Definition ScopeProject : string := "project".
Definition CardStatusCandidate : string := "candidate".
Definition CardStatusActive : string := "active".
Definition CardStatusStale : string := "stale".
Definition CardStatusSuperseded : string := "superseded".
Definition CardStatusArchived : string := "archived".

Definition NormalizeCardStatus (status : string) : string :=
  if decide (status ∈ [CardStatusCandidate; CardStatusActive; CardStatusStale;
                       CardStatusSuperseded; CardStatusArchived]) then status
  else if decide (status = "") then CardStatusActive
  else "".

Definition IsRecallEligibleStatus (status : string) : bool :=
  bool_decide (NormalizeCardStatus status = CardStatusActive).

(** ** Dynamic values

    The values a [map[string]any] holds: what [encoding/json] decodes to, and
    the [int], [[]string] and [[]any] the program itself stores. *)
#[warnings="-register-all"]
Inductive Any :=
  | AStr (s : string)
  | AFloat (f : float64)
  | AInt (z : Z)
  | ABool (b : bool)
  | ANull
  | AStrs (l : list string)
  | AList (l : list Any)
  | AMap (l : list (string * Any)).

(** [json.Marshal] accepts the value: it rejects NaN and the infinities. *)
Fixpoint any_json_ok (a : Any) : bool :=
  match a with
  | AFloat f => is_finite f
  | AList l => forallb any_json_ok l
  | AMap l => forallb (λ kv, any_json_ok kv.2) l
  | _ => true
  end.

(** What a marshalled value decodes to: numbers become [float64], slices [[]any]. *)
Fixpoint any_norm (a : Any) : Any :=
  match a with
  | AInt z => AFloat (of_int z)
  | AStrs l => AList (AStr <$> l)
  | AList l => AList (any_norm <$> l)
  | AMap l => AMap ((λ kv, (kv.1, any_norm kv.2)) <$> l)
  | _ => a
  end.

(** ** Records *)

Record EvidenceRef := mkEvidenceRef {
  er_CardID : string; er_Snippet : string; er_Hash : string }.

Record Provenance := mkProvenance {
  AgentID : string; pv_Source : string; Confidence : float64 }.

Record ActivationState := mkActivation {
  Score : float64;
  LastAccessAt : option Time;
  LastEvaluatedAt : option Time;
  DecayPolicy : string }.

(** [map[string]any]: [None] is the nil map. *)
Abbreviation Content := (option (gmap string Any)).

Record Card := mkCard {
  CardID : string; CardType : string; Scope : string;
  CreatedAt : Time; ValidFrom : option Time; ValidTo : option Time;
  Version : Z; PrevVersion : string; Status : string; Supersedes : string;
  card_Content : Content;
  EvidenceRefs : option (list EvidenceRef);
  card_Provenance : Provenance;
  Activation : ActivationState }.

Record Edge := mkEdge {
  EdgeID : string; FromCardID : string; ToCardID : string; EdgeType : string;
  Weight : float64; edge_Confidence : float64;
  edge_ValidFrom : option Time; edge_ValidTo : option Time;
  edge_EvidenceRefs : option (list EvidenceRef);
  edge_CreatedAt : Time }.

Record CreateCardRequest := mkCreateCardRequest {
  cc_CardID : string; cc_CardType : string; cc_Scope : string; cc_Status : string;
  cc_Supersedes : string; cc_ValidFrom : option Time; cc_ValidTo : option Time;
  cc_Activation : option ActivationState;
  cc_Content : Content; cc_EvidenceRefs : option (list EvidenceRef);
  cc_Provenance : Provenance }.

Record UpdateCardRequest := mkUpdateCardRequest {
  uc_Content : Content; uc_Scope : string;
  uc_ValidFrom : option Time; uc_ValidTo : option Time;
  uc_Status : string; uc_Supersedes : string;
  uc_EvidenceRefs : option (list EvidenceRef);
  uc_Provenance : Provenance }.

Record CreateEdgeRequest := mkCreateEdgeRequest {
  ce_EdgeID : string; ce_FromCardID : string; ce_ToCardID : string; ce_EdgeType : string;
  ce_Weight : float64; ce_Confidence : float64;
  ce_ValidFrom : option Time; ce_ValidTo : option Time;
  ce_EvidenceRefs : option (list EvidenceRef) }.

Record QueryRequest := mkQueryRequest {
  q_CardID : string; q_CardType : string; q_Scope : string; q_Status : string;
  q_AsOf : option Time }.

Record QueryResponse := mkQueryResponse { Cards : list Card; Edges : list Edge }.

Definition no_provenance : Provenance := mkProvenance "" "" f0.

(** An [UpdateCardRequest] literal with only the field [Status] set. *)
Definition status_update (status : string) : UpdateCardRequest :=
  mkUpdateCardRequest None "" None None status "" None no_provenance.

(** [value, ok := content[key].(string)] *)
Definition content_string (c : Content) (key : string) : option string :=
  match c with
  | Some m => match m !! key with Some (AStr s) => Some s | _ => None end
  | None => None
  end.

(** ** JSON *)

Definition content_json_ok (c : Content) : bool :=
  match c with Some m => forallb (λ kv, any_json_ok kv.2) (map_to_list m) | None => true end.
Definition content_norm (c : Content) : Content :=
  match c with Some m => Some (any_norm <$> m) | None => None end.

(** [json:",omitempty"] on a slice *)
Definition omit_empty {A} (l : option (list A)) : option (list A) :=
  match l with Some [] => None | _ => l end.

Definition opt_time_ok (t : option Time) : bool :=
  match t with Some t => json_time_ok t | None => true end.

Definition card_json_ok (c : Card) : bool :=
  json_time_ok (CreatedAt c) && opt_time_ok (ValidFrom c) && opt_time_ok (ValidTo c)
  && content_json_ok (card_Content c)
  && is_finite (Confidence (card_Provenance c))
  && is_finite (Score (Activation c))
  && opt_time_ok (LastAccessAt (Activation c))
  && opt_time_ok (LastEvaluatedAt (Activation c)).

Definition card_norm (c : Card) : Card :=
  mkCard (CardID c) (CardType c) (Scope c) (CreatedAt c) (ValidFrom c) (ValidTo c)
    (Version c) (PrevVersion c) (Status c) (Supersedes c)
    (content_norm (card_Content c)) (omit_empty (EvidenceRefs c))
    (mkProvenance (AgentID (card_Provenance c)) (pv_Source (card_Provenance c))
       (omit_zero (Confidence (card_Provenance c))))
    (Activation c).

Definition edge_json_ok (e : Edge) : bool :=
  is_finite (Weight e) && is_finite (edge_Confidence e)
  && opt_time_ok (edge_ValidFrom e) && opt_time_ok (edge_ValidTo e)
  && json_time_ok (edge_CreatedAt e).

Definition edge_norm (e : Edge) : Edge :=
  mkEdge (EdgeID e) (FromCardID e) (ToCardID e) (EdgeType e)
    (omit_zero (Weight e)) (omit_zero (edge_Confidence e))
    (edge_ValidFrom e) (edge_ValidTo e) (omit_empty (edge_EvidenceRefs e))
    (edge_CreatedAt e).

(** ** Lemmas *)

Lemma NormalizeCardStatus_idemp s :
  NormalizeCardStatus s ≠ "" →
  NormalizeCardStatus (NormalizeCardStatus s) = NormalizeCardStatus s.
Proof.
  unfold NormalizeCardStatus. case_decide as Hs; [by rewrite decide_True|].
  by case_decide.
Qed.

(** An induction principle that reaches the values inside lists and maps. *)
Section any_ind.
Variable P : Any → Prop.
Hypothesis Hstr : ∀ s, P (AStr s).
Hypothesis Hfloat : ∀ f, P (AFloat f).
Hypothesis Hint : ∀ z, P (AInt z).
Hypothesis Hbool : ∀ b, P (ABool b).
Hypothesis Hnull : P ANull.
Hypothesis Hstrs : ∀ l, P (AStrs l).
Hypothesis Hlist : ∀ l, Forall P l → P (AList l).
Hypothesis Hmap : ∀ l, Forall (λ kv, P kv.2) l → P (AMap l).

Fixpoint Any_ind' (a : Any) : P a :=
  match a with
  | AStr s => Hstr s | AFloat f => Hfloat f | AInt z => Hint z | ABool b => Hbool b
  | ANull => Hnull | AStrs l => Hstrs l
  | AList l => Hlist l ((fix go l : Forall P l :=
      match l with [] => List.Forall_nil P
      | x :: r => List.Forall_cons P x r (Any_ind' x) (go r) end) l)
  | AMap l => Hmap l ((fix go l : Forall (λ kv, P kv.2) l :=
      match l with [] => List.Forall_nil _
      | x :: r => List.Forall_cons _ x r (Any_ind' x.2) (go r) end) l)
  end.
End any_ind.

(** A value that went through JSON once is a fixed point of JSON. *)
Lemma any_norm_idemp a : any_norm (any_norm a) = any_norm a.
Proof.
  induction a as [| | | | | |l IH|l IH] using Any_ind'; try done; cbn.
  - f_equal. rewrite <- list_fmap_compose. apply list_fmap_ext. intros i x _. reflexivity.
  - f_equal. rewrite <- list_fmap_compose. apply list_fmap_ext.
    intros i x Hx. exact (Forall_lookup_1 _ _ _ _ IH Hx).
  - f_equal. rewrite <- list_fmap_compose. apply list_fmap_ext.
    intros i [k x] Hx. cbn. f_equal. exact (Forall_lookup_1 _ _ _ _ IH Hx).
Qed.


Lemma omit_empty_idemp {A} (l : option (list A)) : omit_empty (omit_empty l) = omit_empty l.
Proof. by destruct l as [[|]|]. Qed.
Lemma omit_zero_idemp x : omit_zero (omit_zero x) = omit_zero x.
Proof. by destruct x. Qed.

Lemma content_norm_idemp c : content_norm (content_norm c) = content_norm c.
Proof.
  destruct c as [m|]; [|done]. cbn. f_equal. rewrite <- map_fmap_compose.
  apply map_fmap_ext. intros. apply any_norm_idemp.
Qed.

Lemma card_norm_idemp c : card_norm (card_norm c) = card_norm c.
Proof.
  unfold card_norm; cbn. by rewrite content_norm_idemp, omit_empty_idemp, omit_zero_idemp.
Qed.
Lemma edge_norm_idemp e : edge_norm (edge_norm e) = edge_norm e.
Proof. unfold edge_norm; cbn. by rewrite omit_empty_idemp, !omit_zero_idemp. Qed.
