(* ===== verification/MemoryStore.v ===== *)
(** * The memory store ([internal/memory/store.go], the writer half of [journal.go])

    The versioned card store with its edge index, its JSON snapshots and its
    append-only journal.  The first half holds the operations, the second the
    well-formedness invariant and what each operation does. *)
From S2P Require Import Prelude GoStrings GoNum MemoryTypes.
Open Scope Z_scope.

(** ** State *)

Record JournalEvent := mkJournalEvent {
  je_Timestamp : Time; je_EventType : string; je_EntityID : string;
  je_EntityType : string; je_Version : Z;
  je_CardSnapshot : option (list Card);
  je_EdgeSnapshot : option Edge }.

(** What [rootDir] holds: the snapshot directories, the lines of
    [journal.jsonl], and whether the journal's [json.Encoder] has failed: an
    encoder keeps its first write error and refuses every later event. *)
Record Disk := mkDisk {
  card_files : gmap string (File (list Card));
  edge_files : gmap string (File Edge);
  journal : list (File JournalEvent);
  enc_err : bool }.

(** [disk = None] is the in-memory store of [NewStore]. *)
Record Store := mkStore {
  cards : gmap string (list Card);
  edges : gmap string Edge;
  edgesByCard : gmap string (list string);
  disk : option Disk }.

Definition NewStore : Store := mkStore ∅ ∅ ∅ None.
Definition empty_disk : Disk := mkDisk ∅ ∅ [] false.

Definition persistent (s : Store) : bool := match disk s with Some _ => true | None => false end.

Definition set_cards (f : gmap string (list Card) → gmap string (list Card)) (s : Store) : Store :=
  mkStore (f (cards s)) (edges s) (edgesByCard s) (disk s).
Definition set_disk (f : Disk → Disk) (s : Store) : Store :=
  mkStore (cards s) (edges s) (edgesByCard s) (f <$> disk s).

Definition card_dir : Lens Store (gmap string (File (list Card))) := mkLens
  (λ s, match disk s with Some d => card_files d | None => ∅ end)
  (λ f, set_disk (λ d, mkDisk (f (card_files d)) (edge_files d) (journal d) (enc_err d))).
Definition edge_dir : Lens Store (gmap string (File Edge)) := mkLens
  (λ s, match disk s with Some d => edge_files d | None => ∅ end)
  (λ f, set_disk (λ d, mkDisk (card_files d) (f (edge_files d)) (journal d) (enc_err d))).

(** ** File names *)

Definition cardFileName (cardID : string) : string := HexEncode cardID +:+ ".json".
Definition edgeFileName (edgeID : string) : string := HexEncode edgeID +:+ ".json".
Definition legacyMemoryFileName (id : string) : string :=
  ReplaceBytes (λ a, if decide (a = "/"%char) then "__"
                     else if decide (a = ":"%char) then "_"
                     else if decide (a = " "%char) then "_" else String a "") id
  +:+ ".json".

(** ** Persistence *)

(** [s.cards[cardID]]: a missing key reads as the nil slice. *)
Definition versions_of (s : Store) (cardID : string) : list Card := default [] (cards s !! cardID).

Definition persistCard (cardID : string) : M Store unit :=
  s ← get;
  let versions := versions_of s cardID in
  if negb (forallb card_json_ok versions) then throw EJson else
  _ ← WriteFile card_dir (cardFileName cardID) (card_norm <$> versions);
  if decide (legacyMemoryFileName cardID = cardFileName cardID) then mret tt
  else RemoveIgnore card_dir (legacyMemoryFileName cardID).

Definition persistEdge (edgeID : string) : M Store unit :=
  s ← get;
  match edges s !! edgeID with
  | None => mret tt
  | Some edge =>
      if negb (edge_json_ok edge) then throw EJson else
      _ ← WriteFile edge_dir (edgeFileName edgeID) (edge_norm edge);
      if decide (legacyMemoryFileName edgeID = edgeFileName edgeID) then mret tt
      else RemoveIgnore edge_dir (legacyMemoryFileName edgeID)
  end.

Definition set_journal (f : list (File JournalEvent) → list (File JournalEvent)) (err : bool)
    : Store → Store :=
  set_disk (λ d, mkDisk (card_files d) (edge_files d) (f (journal d)) (enc_err d || err)).

(** [Journal.Append]: encode the event at the end of the file, then sync it. *)
Definition Append (event : JournalEvent) : M Store unit :=
  s ← get;
  if (match disk s with Some d => enc_err d | None => false end) then throw EIO else
  f ← io;
  match f with
  | FailEarly => _ ← modify (set_journal id true); throw EIO
  | FailTorn => _ ← modify (set_journal (λ j, j ++ [Torn]) true); throw EIO
  | NoFault =>
      _ ← modify (set_journal (λ j, j ++ [Doc event]) false);
      f' ← io;
      match f' with NoFault => mret tt | _ => throw EIO end
  end.

(** [marshalRaw(v)], as what the raw message decodes to *)
Definition marshalCards (versions : list Card) : option (list Card) :=
  if forallb card_json_ok versions then Some (card_norm <$> versions) else None.
Definition marshalEdge (edge : Edge) : option Edge :=
  if edge_json_ok edge then Some (edge_norm edge) else None.

Definition appendCardJournalEvent (eventType cardID cardType : string) (version : Z)
    : M Store unit :=
  s ← get;
  ts ← now;
  Append (mkJournalEvent ts eventType cardID cardType version
            (marshalCards (versions_of s cardID)) None).

Definition appendEdgeJournalEvent (eventType : string) (edge : Edge) : M Store unit :=
  ts ← now;
  Append (mkJournalEvent ts eventType (EdgeID edge) (EdgeType edge) 0 None (marshalEdge edge)).

(** [if s.persistent() { persistCard; appendCardJournalEvent }] *)
Definition recordCard (eventType : string) (card : Card) (cardID : string) : M Store unit :=
  s ← get;
  if persistent s then
    _ ← persistCard cardID;
    appendCardJournalEvent eventType cardID (CardType card) (Version card)
  else mret tt.

Definition recordEdge (edge : Edge) : M Store unit :=
  s ← get;
  if persistent s then
    _ ← persistEdge (EdgeID edge);
    appendEdgeJournalEvent "edge_created" edge
  else mret tt.

(** ** Card operations *)

Definition clampUnit (value : float64) : float64 := fmax f0 (fmin f1 value).

Definition CreateCard (req : CreateCardRequest) : M Store Card :=
  if bool_decide (cc_CardID req = "") || bool_decide (cc_CardType req = "")
  then throw ErrInvalidArgument else
  let status := NormalizeCardStatus (cc_Status req) in
  if bool_decide (status = "") then throw ErrInvalidArgument else
  t ← now;
  let activation := match cc_Activation req with
    | None => mkActivation f1 None None ""
    | Some a => mkActivation (clampUnit (Score a)) (LastAccessAt a) (LastEvaluatedAt a)
                  (DecayPolicy a)
    end in
  let card := mkCard (cc_CardID req) (cc_CardType req) (cc_Scope req) t
    (cc_ValidFrom req) (cc_ValidTo req) 1 "" status (cc_Supersedes req)
    (cc_Content req) (cc_EvidenceRefs req) (cc_Provenance req) activation in
  s ← get;
  match cards s !! cc_CardID req with
  | Some _ => throw ErrAlreadyExists
  | None =>
      _ ← modify (set_cards (insert (cc_CardID req) [card]));
      _ ← recordCard "card_created" card (cc_CardID req);
      mret card
  end.

(** [latest.CardID + "#v" + fmt.Sprintf("%d", latest.Version)] *)
Definition prevVersionID (latest : Card) : string :=
  CardID latest +:+ "#v" +:+ Itoa (Version latest).

(** The card [UpdateCard] appends after [latest]. *)
Definition updatedCard (latest : Card) (req : UpdateCardRequest) (t : Time) : Card :=
  mkCard (CardID latest) (CardType latest)
    (if decide (uc_Scope req ≠ "") then uc_Scope req else Scope latest)
    (CreatedAt latest) (uc_ValidFrom req) (uc_ValidTo req)
    (wrap64 (Version latest + 1)) (prevVersionID latest)
    (if decide (uc_Status req ≠ "") then NormalizeCardStatus (uc_Status req) else Status latest)
    (if decide (uc_Supersedes req ≠ "") then uc_Supersedes req else Supersedes latest)
    (match uc_Content req with Some _ => uc_Content req | None => card_Content latest end)
    (match uc_EvidenceRefs req with Some _ => uc_EvidenceRefs req | None => EvidenceRefs latest end)
    (let p := uc_Provenance req in
     if bool_decide (AgentID p ≠ "") || bool_decide (pv_Source p ≠ "")
        || negb (feq (Confidence p) f0)
     then p else card_Provenance latest)
    (mkActivation (Score (Activation latest)) (Some t)
       (LastEvaluatedAt (Activation latest)) (DecayPolicy (Activation latest))).

(** [versions = append(versions, updated); s.cards[cardID] = versions], then
    the snapshot and the journal event. *)
Definition appendVersion (eventType cardID : string) (updated : Card) : M Store Card :=
  _ ← modify (λ s, set_cards (insert cardID (versions_of s cardID ++ [updated])) s);
  _ ← recordCard eventType updated cardID;
  mret updated.

Definition UpdateCard (cardID : string) (req : UpdateCardRequest) : M Store Card :=
  if bool_decide (cardID = "") then throw ErrInvalidArgument else
  if bool_decide (uc_Status req ≠ "") && bool_decide (NormalizeCardStatus (uc_Status req) = "")
  then throw ErrInvalidArgument else
  s ← get;
  match last (versions_of s cardID) with
  | None => throw ErrNotFound
  | Some latest =>
      t ← now;
      appendVersion "card_updated" cardID (updatedCard latest req t)
  end.

(** The card [TouchCard] appends after [latest]. *)
Definition touchedCard (latest : Card) (activationDelta confidenceDelta : float64) (t : Time)
    : Card :=
  mkCard (CardID latest) (CardType latest) (Scope latest) (CreatedAt latest)
    (ValidFrom latest) (ValidTo latest)
    (wrap64 (Version latest + 1)) (prevVersionID latest) (Status latest) (Supersedes latest)
    (card_Content latest) (EvidenceRefs latest)
    (mkProvenance (AgentID (card_Provenance latest)) (pv_Source (card_Provenance latest))
       (clampUnit (fadd (Confidence (card_Provenance latest)) confidenceDelta)))
    (mkActivation (clampUnit (fadd (Score (Activation latest)) activationDelta)) (Some t)
       (LastEvaluatedAt (Activation latest)) (DecayPolicy (Activation latest))).

Definition TouchCard (cardID : string) (activationDelta confidenceDelta : float64)
    : M Store Card :=
  if blank cardID then throw ErrInvalidArgument else
  s ← get;
  match last (versions_of s cardID) with
  | None => throw ErrNotFound
  | Some latest =>
      t ← now;
      appendVersion "card_touched" cardID (touchedCard latest activationDelta confidenceDelta t)
  end.

(** ** Edges *)

(** [s.edgesByCard[cardID] = append(s.edgesByCard[cardID], edgeID)] *)
Definition index_edge (cardID edgeID : string) (ix : gmap string (list string))
    : gmap string (list string) :=
  <[cardID := default [] (ix !! cardID) ++ [edgeID]]> ix.

(** The store after the edge and its two index entries are written. *)
Definition add_edge (edge : Edge) (s : Store) : Store :=
  mkStore (cards s) (<[EdgeID edge := edge]> (edges s))
    (index_edge (ToCardID edge) (EdgeID edge)
       (index_edge (FromCardID edge) (EdgeID edge) (edgesByCard s)))
    (disk s).

Definition CreateEdge (req : CreateEdgeRequest) : M Store Edge :=
  if bool_decide (ce_EdgeID req = "") || bool_decide (ce_FromCardID req = "")
     || bool_decide (ce_ToCardID req = "") || bool_decide (ce_EdgeType req = "")
  then throw ErrInvalidArgument else
  s ← get;
  match edges s !! ce_EdgeID req, cards s !! ce_FromCardID req, cards s !! ce_ToCardID req with
  | Some _, _, _ => throw ErrAlreadyExists
  | None, None, _ | None, Some _, None => throw ErrInvalidArgument
  | None, Some _, Some _ =>
      t ← now;
      let edge := mkEdge (ce_EdgeID req) (ce_FromCardID req) (ce_ToCardID req)
        (ce_EdgeType req) (ce_Weight req) (ce_Confidence req) (ce_ValidFrom req)
        (ce_ValidTo req) (ce_EvidenceRefs req) t in
      _ ← modify (add_edge edge);
      _ ← recordEdge edge;
      mret edge
  end.

(** ** Queries *)

(** Latest version whose validity window contains [asOf]. *)
Definition in_window (asOf : Time) (card : Card) : bool :=
  negb (match ValidFrom card with Some f => Before asOf f | None => false end)
  && negb (match ValidTo card with Some t => After asOf t | None => false end).

Definition resolveAsOf (versions : list Card) (asOf : option Time) : option Card :=
  match asOf with
  | None => last versions
  | Some t => List.find (in_window t) (reverse versions)
  end.

(** The zero [Edge], which a map lookup of a missing key returns. *)
Definition zeroEdge : Edge := mkEdge "" "" "" "" f0 f0 None None None zeroTime.

(** [collectEdgesForCards]: [seen] grows as edges are emitted. *)
Fixpoint collect_go (s : Store) (seen : list string) (ids : list string) : list Edge :=
  match ids with
  | [] => []
  | edgeID :: rest =>
      if decide (edgeID ∈ seen) then collect_go s seen rest
      else default zeroEdge (edges s !! edgeID) :: collect_go s (edgeID :: seen) rest
  end.
Definition collectEdgesForCards (s : Store) (cardIDs : list string) : list Edge :=
  collect_go s [] (mbind (λ cardID, default [] (edgesByCard s !! cardID)) cardIDs).

Definition matchesQuery (req : QueryRequest) (card : Card) : bool :=
  (bool_decide (q_CardType req = "") || bool_decide (CardType card = q_CardType req))
  && (bool_decide (q_Scope req = "") || bool_decide (Scope card = q_Scope req))
  && (bool_decide (q_Status req = "") || bool_decide (Status card = q_Status req)).

(** [ord] is the order in which [range s.cards] visits the card IDs. *)
Definition Query (ord : list string) (req : QueryRequest) (s : Store) : QueryResponse :=
  if decide (q_CardID req ≠ "") then
    match resolveAsOf (versions_of s (q_CardID req)) (q_AsOf req) with
    | Some card => mkQueryResponse [card] (collectEdgesForCards s [q_CardID req])
    | None => mkQueryResponse [] []
    end
  else
    let found := omap (λ cardID,
        card ← resolveAsOf (versions_of s cardID) (q_AsOf req);
        if matchesQuery req card then Some card else None) ord in
    mkQueryResponse found (collectEdgesForCards s (CardID <$> found)).

(** The order of [LatestCards]: newest first, then by card ID. *)
Definition newest_first (a b : Card) : Prop :=
  CreatedAt b < CreatedAt a ∨ (CreatedAt a = CreatedAt b ∧ String.le (CardID a) (CardID b)).
#[export] Instance newest_first_dec : RelDecision newest_first.
Proof. intros a b. unfold newest_first. apply _. Defined.

Definition LatestCards (ord : list string) (s : Store) : list Card :=
  merge_sort newest_first (omap (λ cardID, resolveAsOf (versions_of s cardID) None) ord).

(** ** The in-memory part and the frame of persistence *)

Definition mem (s : Store) : gmap string (list Card) * gmap string Edge * gmap string (list string) :=
  (cards s, edges s, edgesByCard s).

(** The memory of [s] after [versions] became the versions of [cardID]. *)
Definition mem_cards (s : Store) (cardID : string) (versions : list Card) :=
  (<[cardID := versions]> (cards s), edges s, edgesByCard s).

(** Persistence touches the disk only. *)
Definition frame (s0 s : Store) : Prop := mem s = mem s0 ∧ persistent s = persistent s0.

Lemma frame_disk s0 s f : frame s0 s → frame s0 (set_disk f s).
Proof. unfold frame, persistent. cbn. by destruct (disk s). Qed.
Lemma frame_card_dir s0 s f : frame s0 s → frame s0 (over card_dir f s).
Proof. apply frame_disk. Qed.
Lemma frame_edge_dir s0 s f : frame s0 s → frame s0 (over edge_dir f s).
Proof. apply frame_disk. Qed.
Lemma preserves_frame_disk s0 f : preserves (frame s0) (modify (set_disk f)).
Proof. apply preserves_modify. intros s. apply frame_disk. Qed.
#[local] Hint Resolve preserves_WriteFile preserves_RemoveIgnore frame_card_dir
  frame_edge_dir preserves_frame_disk : hoare.

Lemma persistCard_frame s0 id : preserves (frame s0) (persistCard id).
Proof. unfold persistCard. preserves_tac. Qed.
Lemma persistEdge_frame s0 id : preserves (frame s0) (persistEdge id).
Proof. unfold persistEdge. preserves_tac. Qed.
Lemma Append_frame s0 ev : preserves (frame s0) (Append ev).
Proof. unfold Append, set_journal. preserves_tac. Qed.
#[export] Hint Resolve persistCard_frame persistEdge_frame Append_frame : hoare.
Lemma recordCard_frame s0 ev c id : preserves (frame s0) (recordCard ev c id).
Proof. unfold recordCard, appendCardJournalEvent. preserves_tac. Qed.
Lemma appendEdge_frame s0 ev e : preserves (frame s0) (appendEdgeJournalEvent ev e).
Proof. unfold appendEdgeJournalEvent. preserves_tac. Qed.
#[export] Hint Resolve recordCard_frame appendEdge_frame : hoare.

(** Only a file operation or an encoding can fail. *)
Definition storage_error (e : error) : Prop := e = EIO ∨ e = EJson.

Lemma storage_WriteFile {K A} `{Countable K} (dir : Lens Store (gmap K (File A))) name data :
  raises storage_error (WriteFile dir name data).
Proof. intros s w e s' w' E. left. by eapply raises_WriteFile. Qed.
#[local] Hint Resolve storage_WriteFile raises_RemoveIgnore : hoare.
#[local] Hint Unfold storage_error : core.

Lemma raises_recordCard ev c id : raises storage_error (recordCard ev c id).
Proof. unfold recordCard, persistCard, appendCardJournalEvent, Append. raises_tac. Qed.
Lemma raises_persistEdge id : raises storage_error (persistEdge id).
Proof. unfold persistEdge. raises_tac. Qed.
Lemma raises_appendEdge ev e : raises storage_error (appendEdgeJournalEvent ev e).
Proof. unfold appendEdgeJournalEvent, Append. raises_tac. Qed.

Lemma recordEdge_run e s w :
  ∃ r s' w', recordEdge e s w = (r, s', w') ∧ frame s s' ∧
    match r with Ok _ => True | Err e => storage_error e ∧ persistent s = true end.
Proof.
  assert (preserves (frame s) (recordEdge e)) as Hf by (unfold recordEdge; preserves_tac).
  assert (raises storage_error (recordEdge e)) as He.
  { unfold recordEdge. apply raises_bind; [apply raises_get|]. intros s0.
    destruct (persistent s0); [|apply raises_ret].
    apply raises_bind; [apply raises_persistEdge|]. intros. apply raises_appendEdge. }
  specialize (Hf s w). specialize (He s w).
  destruct (recordEdge e s w) as [[r s'] w'] eqn:E.
  exists r, s', w'. split_and!; [done|by apply Hf|].
  destruct r as [|er]; [done|]. split; [by eapply He|].
  unfold recordEdge in E. run. by destruct (persistent s).
Qed.

(** What recording a card does: the memory is kept, and only a persistent
    store can fail. *)
Lemma recordCard_run ev c id s w :
  ∃ r s' w', recordCard ev c id s w = (r, s', w') ∧ frame s s' ∧
    match r with Ok _ => True | Err e => storage_error e ∧ persistent s = true end.
Proof.
  pose proof (recordCard_frame s ev c id s w) as Hf.
  pose proof (raises_recordCard ev c id s w) as He.
  destruct (recordCard ev c id s w) as [[r s'] w'] eqn:E.
  exists r, s', w'. split_and!; [done|by apply Hf|].
  destruct r as [|e]; [done|]. split; [by eapply He|].
  unfold recordCard in E. run. by destruct (persistent s).
Qed.

(** The outcome of a mutation whose memory update is done before its
    recording: on a storage error the update stays. *)
Definition committed {A} (s : Store) (a : A) (r : result A) : Prop :=
  r = Ok a ∨ ∃ e, r = Err e ∧ storage_error e ∧ persistent s = true.

Lemma appendVersion_run ev id c s w :
  ∃ r s' w', appendVersion ev id c s w = (r, s', w') ∧
    mem s' = mem_cards s id (versions_of s id ++ [c]) ∧
    persistent s' = persistent s ∧ committed s c r.
Proof.
  unfold appendVersion. run.
  edestruct (recordCard_run ev c id) as (r & s' & w' & -> & [Hm Hp] & Hr).
  exists (match r with Ok _ => Ok c | Err e => Err e end), s', w'.
  split; [by destruct r|]. split; [done|]. split; [done|].
  destruct r; [by left|right]. eauto.
Qed.

(** ** Well-formedness *)

(** The versions of a card: numbered from 1, chained, one identity, one
    creation time, a known status. *)
Definition version_ok (id typ : string) (created : Time) (i : nat) (c : Card) : Prop :=
  CardID c = id ∧ CardType c = typ ∧ CreatedAt c = created ∧
  Version c = wrap64 (Z.of_nat i + 1) ∧
  PrevVersion c = (if decide (i = 0)%nat then "" else id +:+ "#v" +:+ Itoa (wrap64 (Z.of_nat i))) ∧
  NormalizeCardStatus (Status c) = Status c ∧ Status c ≠ "".

Definition versions_wf (id : string) (vs : list Card) : Prop :=
  vs ≠ [] ∧ id ≠ "" ∧ ∃ typ created, ∀ i c, vs !! i = Some c → version_ok id typ created i c.

Definition incident (cardID : string) (e : Edge) : Prop :=
  FromCardID e = cardID ∨ ToCardID e = cardID.

Definition edges_wf (cs : gmap string (list Card)) (es : gmap string Edge)
    (ix : gmap string (list string)) : Prop :=
  (∀ eid e, es !! eid = Some e →
     EdgeID e = eid ∧ is_Some (cs !! FromCardID e) ∧ is_Some (cs !! ToCardID e)) ∧
  (∀ cardID eid, eid ∈ default [] (ix !! cardID) ↔
     ∃ e, es !! eid = Some e ∧ incident cardID e).

Definition mem_wf (m : gmap string (list Card) * gmap string Edge * gmap string (list string)) :=
  let '(cs, es, ix) := m in
  (∀ id vs, cs !! id = Some vs → versions_wf id vs) ∧ edges_wf cs es ix.

Definition store_wf (s : Store) : Prop := mem_wf (mem s).

(** [updated] is a legal next version of [latest]. *)
Definition next_version (latest updated : Card) : Prop :=
  CardID updated = CardID latest ∧ CardType updated = CardType latest ∧
  CreatedAt updated = CreatedAt latest ∧
  Version updated = wrap64 (Version latest + 1) ∧
  PrevVersion updated = prevVersionID latest ∧
  NormalizeCardStatus (Status updated) = Status updated ∧ Status updated ≠ "".

Lemma wrap64_succ z : wrap64 (wrap64 z + 1) = wrap64 (z + 1).
Proof.
  unfold wrap64.
  replace ((z + 2 ^ 63) mod 2 ^ 64 - 2 ^ 63 + 1 + 2 ^ 63)
    with ((z + 2 ^ 63) mod 2 ^ 64 + 1) by lia.
  rewrite Z.add_mod_idemp_l by lia. do 2 f_equal. lia.
Qed.

Lemma versions_wf_snoc id vs latest c :
  versions_wf id vs → last vs = Some latest → next_version latest c →
  versions_wf id (vs ++ [c]).
Proof.
  intros (Hne & Hid & typ & created & Hvs) Hlast (H1 & H2 & H3 & H4 & H5 & H6 & H7).
  split_and!; [by destruct vs|done|]. exists typ, created. intros i c' Hi.
  apply lookup_app_Some in Hi as [Hi|[Hlen Hi]]; [by apply Hvs|].
  apply list_lookup_singleton_Some in Hi as [Hi ->].
  rewrite last_lookup in Hlast. destruct (Hvs _ _ Hlast) as (E1 & E2 & E3 & E4 & E5 & _).
  assert (length vs ≠ 0)%nat by (destruct vs; cbn; [by destruct Hne|lia]).
  unfold version_ok, prevVersionID in *. rewrite H1, H2, H3, H4, H5, E1, E2, E3, E4, wrap64_succ.
  replace (Z.of_nat (Init.Nat.pred (length vs)) + 1) with (Z.of_nat i) by lia.
  rewrite decide_False by lia. auto 10.
Qed.

Lemma mem_wf_set_versions s id vs :
  store_wf s → is_Some (cards s !! id) → versions_wf id vs → mem_wf (mem_cards s id vs).
Proof.
  intros [Hc [He Hx]] Hsome Hvs. split; [|split].
  - intros id' vs'. rewrite lookup_insert_Some. naive_solver.
  - intros eid e Hl. destruct (He _ _ Hl) as (? & ? & ?). split_and!; [done|..].
    all: rewrite lookup_insert_is_Some; destruct (decide (id = FromCardID e));
      destruct (decide (id = ToCardID e)); auto.
  - apply Hx.
Qed.

Lemma versions_of_last s id latest :
  store_wf s → last (versions_of s id) = Some latest →
  is_Some (cards s !! id) ∧ versions_wf id (versions_of s id) ∧
  NormalizeCardStatus (Status latest) = Status latest ∧ Status latest ≠ "" ∧
  CardID latest = id.
Proof.
  unfold versions_of. intros [Hc _] Hl. destruct (cards s !! id) as [vs|] eqn:E; [|done].
  pose proof (Hc _ _ E) as Hvs. split_and!; [done|done|..].
  all: destruct Hvs as (_ & _ & typ & cr & Hvs); cbn in Hl; rewrite last_lookup in Hl.
  all: destruct (Hvs _ _ Hl) as (? & ? & ? & ? & ? & ? & ?); done.
Qed.

(** Appending a legal next version keeps the store well formed. *)
Lemma append_version_wf s id latest c :
  store_wf s → last (versions_of s id) = Some latest → next_version latest c →
  mem_wf (mem_cards s id (versions_of s id ++ [c])).
Proof.
  intros Hs Hl Hn. destruct (versions_of_last _ _ _ Hs Hl) as (? & ? & _).
  apply mem_wf_set_versions; [done..|]. by eapply versions_wf_snoc.
Qed.

Lemma updatedCard_next latest req t :
  NormalizeCardStatus (Status latest) = Status latest → Status latest ≠ "" →
  (uc_Status req = "" ∨ NormalizeCardStatus (uc_Status req) ≠ "") →
  next_version latest (updatedCard latest req t).
Proof.
  intros H1 H2 H3. unfold next_version, updatedCard; cbn. split_and!; try done.
  all: case_decide; [|done]. all: destruct H3 as [|H3]; [done|].
  - by apply NormalizeCardStatus_idemp.
  - done.
Qed.

Lemma touchedCard_next latest da dc t :
  NormalizeCardStatus (Status latest) = Status latest → Status latest ≠ "" →
  next_version latest (touchedCard latest da dc t).
Proof. done. Qed.

Lemma index_edge_elem ix c e cardID eid :
  eid ∈ default [] (index_edge c e ix !! cardID) ↔
  eid ∈ default [] (ix !! cardID) ∨ (c = cardID ∧ eid = e).
Proof.
  unfold index_edge. destruct (decide (c = cardID)) as [->|Hne].
  - rewrite lookup_insert_eq. cbn. rewrite elem_of_app, list_elem_of_singleton. naive_solver.
  - rewrite lookup_insert_ne by done. naive_solver.
Qed.

Lemma add_edge_wf s e :
  store_wf s → edges s !! EdgeID e = None →
  is_Some (cards s !! FromCardID e) → is_Some (cards s !! ToCardID e) →
  store_wf (add_edge e s).
Proof.
  intros [Hc [He Hx]] Hn Hf Ht. split; [done|]. cbn in *. split.
  - intros eid e' [[<- <-]|[? Hl]]%lookup_insert_Some; [done|by apply He].
  - intros cardID eid. rewrite !index_edge_elem, Hx. unfold incident. split.
    + intros [[(e' & Hl & Hi)|[<- ->]]|[<- ->]].
      * exists e'. split; [|done]. rewrite lookup_insert_ne by congruence. done.
      * exists e. rewrite lookup_insert_eq. auto.
      * exists e. rewrite lookup_insert_eq. auto.
    + intros (e' & [[<- <-]|[Hne Hl]]%lookup_insert_Some & Hi).
      * destruct Hi as [<-| <-]; auto.
      * left. left. eauto.
Qed.

(** ** What the mutations do *)

Definition activation_of (req : CreateCardRequest) : ActivationState :=
  match cc_Activation req with
  | None => mkActivation f1 None None ""
  | Some a => mkActivation (clampUnit (Score a)) (LastAccessAt a) (LastEvaluatedAt a)
                (DecayPolicy a)
  end.

(** The first version of a created card. *)
Definition createdCard (req : CreateCardRequest) (t : Time) : Card :=
  mkCard (cc_CardID req) (cc_CardType req) (cc_Scope req) t (cc_ValidFrom req)
    (cc_ValidTo req) 1 "" (NormalizeCardStatus (cc_Status req)) (cc_Supersedes req)
    (cc_Content req) (cc_EvidenceRefs req) (cc_Provenance req) (activation_of req).

(** The guards of [CreateCard]. *)
Definition create_ok (req : CreateCardRequest) : bool :=
  negb (bool_decide (cc_CardID req = "") || bool_decide (cc_CardType req = ""))
  && negb (bool_decide (NormalizeCardStatus (cc_Status req) = "")).

Lemma CreateCard_run req s w :
  ∃ r s' w', CreateCard req s w = (r, s', w') ∧
    if negb (create_ok req) then r = Err ErrInvalidArgument ∧ s' = s
    else match cards s !! cc_CardID req with
    | Some _ => r = Err ErrAlreadyExists ∧ s' = s
    | None =>
        let c := createdCard req (clock w (tick w)) in
        mem s' = mem_cards s (cc_CardID req) [c] ∧ persistent s' = persistent s ∧
        committed s c r
    end.
Proof.
  unfold CreateCard, create_ok. rewrite negb_andb, !negb_involutive.
  destruct (bool_decide (cc_CardID req = "") || bool_decide (cc_CardType req = ""));
    [by eexists _, _, _|].
  destruct (bool_decide (NormalizeCardStatus (cc_Status req) = "")); [by eexists _, _, _|].
  run. destruct (cards s !! cc_CardID req) eqn:E; [by eexists _, _, _|].
  edestruct (recordCard_run) as (r & s' & w' & -> & [Hm Hp] & Hr).
  exists (match r with Ok _ => Ok (createdCard req (clock w (tick w))) | Err e => Err e end), s', w'.
  split; [by destruct r|]. split; [done|]. split; [done|].
  destruct r; [by left|right]. eauto.
Qed.

Definition update_ok (cardID : string) (req : UpdateCardRequest) : bool :=
  negb (bool_decide (cardID = ""))
  && negb (bool_decide (uc_Status req ≠ "") && bool_decide (NormalizeCardStatus (uc_Status req) = "")).

Lemma UpdateCard_run id req s w :
  ∃ r s' w', UpdateCard id req s w = (r, s', w') ∧
    if negb (update_ok id req) then r = Err ErrInvalidArgument ∧ s' = s
    else match last (versions_of s id) with
    | None => r = Err ErrNotFound ∧ s' = s
    | Some latest =>
        let c := updatedCard latest req (clock w (tick w)) in
        mem s' = mem_cards s id (versions_of s id ++ [c]) ∧ persistent s' = persistent s ∧
        committed s c r
    end.
Proof.
  unfold UpdateCard, update_ok. rewrite negb_andb, !negb_involutive.
  destruct (bool_decide (id = "")); [by eexists _, _, _|]. cbn.
  destruct (bool_decide _ && bool_decide _); [by eexists _, _, _|].
  run. destruct (last (versions_of s id)) as [latest|]; [|by eexists _, _, _].
  edestruct (appendVersion_run "card_updated") as (r & s' & w' & -> & ? & ? & ?). eauto 10.
Qed.

Lemma TouchCard_run id da dc s w :
  ∃ r s' w', TouchCard id da dc s w = (r, s', w') ∧
    if blank id then r = Err ErrInvalidArgument ∧ s' = s
    else match last (versions_of s id) with
    | None => r = Err ErrNotFound ∧ s' = s
    | Some latest =>
        let c := touchedCard latest da dc (clock w (tick w)) in
        mem s' = mem_cards s id (versions_of s id ++ [c]) ∧ persistent s' = persistent s ∧
        committed s c r
    end.
Proof.
  unfold TouchCard. destruct (blank id); [by eexists _, _, _|].
  run. destruct (last (versions_of s id)) as [latest|]; [|by eexists _, _, _].
  edestruct (appendVersion_run "card_touched") as (r & s' & w' & -> & ? & ? & ?). eauto 10.
Qed.

Definition createdEdge (req : CreateEdgeRequest) (t : Time) : Edge :=
  mkEdge (ce_EdgeID req) (ce_FromCardID req) (ce_ToCardID req) (ce_EdgeType req)
    (ce_Weight req) (ce_Confidence req) (ce_ValidFrom req) (ce_ValidTo req)
    (ce_EvidenceRefs req) t.

Definition edge_ok (req : CreateEdgeRequest) : bool :=
  negb (bool_decide (ce_EdgeID req = "") || bool_decide (ce_FromCardID req = "")
        || bool_decide (ce_ToCardID req = "") || bool_decide (ce_EdgeType req = "")).

Lemma CreateEdge_run req s w :
  ∃ r s' w', CreateEdge req s w = (r, s', w') ∧
    if negb (edge_ok req) then r = Err ErrInvalidArgument ∧ s' = s
    else match edges s !! ce_EdgeID req with
    | Some _ => r = Err ErrAlreadyExists ∧ s' = s
    | None =>
        if decide (is_Some (cards s !! ce_FromCardID req) ∧
                   is_Some (cards s !! ce_ToCardID req)) then
          let e := createdEdge req (clock w (tick w)) in
          mem s' = mem (add_edge e s) ∧ persistent s' = persistent s ∧ committed s e r
        else r = Err ErrInvalidArgument ∧ s' = s
    end.
Proof.
  unfold CreateEdge, edge_ok. rewrite negb_involutive. destruct (_ || _); [by eexists _, _, _|].
  run. destruct (edges s !! ce_EdgeID req) eqn:Ee; [by eexists _, _, _|].
  destruct (cards s !! ce_FromCardID req) eqn:Ef;
    [|eexists _, _, _; split; [done|]; by rewrite decide_False by (by intros [[? ?] _])].
  destruct (cards s !! ce_ToCardID req) eqn:Et;
    [|eexists _, _, _; split; [done|]; by rewrite decide_False by (by intros [_ [? ?]])].
  edestruct (recordEdge_run) as (r & s' & w' & -> & [Hm Hp] & Hr).
  exists (match r with Ok _ => Ok (createdEdge req (clock w (tick w))) | Err e => Err e end), s', w'.
  split; [by destruct r|]. rewrite decide_True by eauto.
  split; [done|]. split; [done|].
  destruct r; [by left|right]. eauto.
Qed.

(** ** Invariant preservation, one lemma per operation *)

Lemma CreateCard_preserves req : preserves store_wf (CreateCard req).
Proof.
  intros s w Hs. edestruct (CreateCard_run req s w) as (r & s' & w' & -> & H).
  destruct (create_ok req) eqn:Hok; cbn in H; [|by destruct H as [_ ->]].
  destruct (cards s !! cc_CardID req) eqn:Ec; [by destruct H as [_ ->]|].
  destruct H as (Hm & _ & _). unfold store_wf. rewrite Hm.
  unfold create_ok in Hok. apply andb_true_iff in Hok as [H1 H2].
  apply negb_true_iff, orb_false_iff in H1 as [H1 _].
  apply bool_decide_eq_false in H1. apply negb_true_iff, bool_decide_eq_false in H2.
  destruct Hs as [Hc [He Hx]]. split; [|split; [|done]].
  - intros id vs [[<- <-]|[_ Hl]]%lookup_insert_Some; [|by apply Hc].
    split_and!; [done|done|]. exists (cc_CardType req), (clock w (tick w)). intros i c.
    intros [-> <-]%list_lookup_singleton_Some. unfold version_ok; cbn.
    split_and!; try done. by apply NormalizeCardStatus_idemp.
  - intros eid e Hl. destruct (He _ _ Hl) as (? & ? & ?).
    split_and!; [done|by apply lookup_insert_is_Some; destruct (decide (cc_CardID req = FromCardID e)); auto
      |by apply lookup_insert_is_Some; destruct (decide (cc_CardID req = ToCardID e)); auto].
Qed.

Lemma update_ok_status id req :
  update_ok id req = true → uc_Status req = "" ∨ NormalizeCardStatus (uc_Status req) ≠ "".
Proof.
  unfold update_ok. destruct (decide (uc_Status req = "")); [by left|].
  repeat case_bool_decide; try done; cbn; auto.
Qed.

Lemma UpdateCard_preserves id req : preserves store_wf (UpdateCard id req).
Proof.
  intros s w Hs. edestruct (UpdateCard_run id req s w) as (r & s' & w' & -> & H).
  destruct (update_ok id req) eqn:Hok; cbn in H; [|by destruct H as [_ ->]].
  destruct (last (versions_of s id)) as [latest|] eqn:El; [|by destruct H as [_ ->]].
  destruct H as (Hm & _ & _). unfold store_wf. rewrite Hm.
  destruct (versions_of_last _ _ _ Hs El) as (_ & _ & ? & ? & _).
  eapply append_version_wf; [done..|]. apply updatedCard_next; eauto using update_ok_status.
Qed.

Lemma TouchCard_preserves id da dc : preserves store_wf (TouchCard id da dc).
Proof.
  intros s w Hs. edestruct (TouchCard_run id da dc s w) as (r & s' & w' & -> & H).
  destruct (blank id); [by destruct H as [_ ->]|].
  destruct (last (versions_of s id)) as [latest|] eqn:El; [|by destruct H as [_ ->]].
  destruct H as (Hm & _ & _). unfold store_wf. rewrite Hm.
  destruct (versions_of_last _ _ _ Hs El) as (_ & _ & ? & ? & _).
  eapply append_version_wf; [done..|]. by apply touchedCard_next.
Qed.

Lemma CreateEdge_preserves req : preserves store_wf (CreateEdge req).
Proof.
  intros s w Hs. edestruct (CreateEdge_run req s w) as (r & s' & w' & -> & H).
  destruct (edge_ok req) eqn:Hok; cbn in H; [|by destruct H as [_ ->]].
  destruct (edges s !! ce_EdgeID req) eqn:Ee; [by destruct H as [_ ->]|].
  case_decide as Hd; [|by destruct H as [_ ->]].
  destruct H as (Hm & _ & _). unfold store_wf. rewrite Hm.
  destruct Hd. by apply add_edge_wf.
Qed.
#[export] Hint Resolve CreateCard_preserves UpdateCard_preserves TouchCard_preserves
  CreateEdge_preserves : hoare.

(** ** Scores *)

Lemma clampUnit_unit v : is_nan v = false → in_unit (clampUnit v) = true.
Proof.
  intros Hv. destruct v as [[]|[]| |[] m e]; try done.
  unfold clampUnit, fmin. change f1 with (S754_finite false 4503599627370496 (-52)).
  cbv iota. destruct (flt _ (S754_finite false m e)) eqn:E; [done|].
  change (in_unit (S754_finite false m e) = true). unfold in_unit.
  apply andb_true_iff. split; [done|]. by apply not_flt_fle in E.
Qed.

(** ** Queries *)

Lemma collect_go_elem s seen ids e :
  e ∈ collect_go s seen ids ↔
  ∃ eid, eid ∈ ids ∧ eid ∉ seen ∧ e = default zeroEdge (edges s !! eid).
Proof.
  revert seen. induction ids as [|x ids IH]; intros seen; cbn.
  { rewrite elem_of_nil. split; [done|]. intros (? & H & _). by apply elem_of_nil in H. }
  case_decide as Hx.
  - rewrite IH. setoid_rewrite elem_of_cons. split; [naive_solver|].
    intros (eid & [->|?] & ? & ?); naive_solver.
  - rewrite elem_of_cons, IH. setoid_rewrite elem_of_cons. split.
    + intros [->|(eid & ? & Hn & ->)]; [by eauto|]. exists eid. naive_solver.
    + intros (eid & [->|?] & ? & ->); [by left|].
      destruct (decide (eid = x)) as [->|]; [by left|right].
      exists eid. naive_solver.
Qed.

Lemma collect_go_NoDup s seen ids :
  (∀ eid, eid ∈ ids → ∃ e, edges s !! eid = Some e ∧ EdgeID e = eid) →
  NoDup (EdgeID <$> collect_go s seen ids).
Proof.
  revert seen. induction ids as [|x ids IH]; intros seen H; cbn; [constructor|].
  case_decide as Hx; [apply IH; intros; apply H; by right|].
  cbn. constructor; [|apply IH; intros; apply H; by right].
  destruct (H x) as (e & Hl & He); [left|]. rewrite Hl. cbn.
  intros Hin. apply list_elem_of_fmap in Hin as (e' & Heq & Hin).
  apply collect_go_elem in Hin as (eid & Hin & Hn & ->).
  destruct (H eid) as (e' & Hl' & He'); [by right|]. rewrite Hl' in Heq. cbn in Heq.
  apply not_elem_of_cons in Hn as [Hn _]. congruence.
Qed.

(** The edges of a response are the edges incident to its cards, once each. *)
Lemma collectEdges_exact s ids :
  store_wf s →
  NoDup (EdgeID <$> collectEdgesForCards s ids) ∧
  ∀ e, e ∈ collectEdgesForCards s ids ↔
    edges s !! EdgeID e = Some e ∧ ∃ id, id ∈ ids ∧ incident id e.
Proof.
  intros (_ & He & Hx). unfold collectEdgesForCards. split.
  - apply collect_go_NoDup. intros eid Hin. apply list_elem_of_bind in Hin as (c & Hin & _).
    apply Hx in Hin as (e & Hl & _). exists e. split; [done|]. by apply He in Hl as [? _].
  - intros e. rewrite collect_go_elem. setoid_rewrite list_elem_of_bind. split.
    + intros (eid & (c & Hin & Hc) & _ & ->).
      apply Hx in Hin as (e & Hl & Hi). rewrite Hl. cbn.
      destruct (He _ _ Hl) as [<- _]. eauto.
    + intros [Hl (id & Hid & Hi)]. exists (EdgeID e). rewrite Hl.
      split_and!; [|apply not_elem_of_nil|done].
      exists id. split; [|done]. apply Hx. eauto.
Qed.

Lemma resolveAsOf_Some vs t c : resolveAsOf vs t = Some c → c ∈ vs.
Proof.
  destruct t as [t|]; cbn.
  - intros [H _]%List.find_some.
    by rewrite <- list_elem_of_In, elem_of_reverse in H.
  - intros H. rewrite last_lookup in H. by apply list_elem_of_lookup_2 in H.
Qed.

Lemma resolve_CardID s id t c :
  store_wf s → resolveAsOf (versions_of s id) t = Some c → CardID c = id.
Proof.
  intros [Hc _] H%resolveAsOf_Some. unfold versions_of in H.
  destruct (cards s !! id) as [vs|] eqn:E; [|by apply elem_of_nil in H].
  destruct (Hc _ _ E) as (_ & _ & ? & ? & Hv).
  apply list_elem_of_lookup in H as [i Hi]. by destruct (Hv _ _ Hi).
Qed.

(** The card a scan keeps for one ID. *)
Definition found_card (s : Store) (req : QueryRequest) (cardID : string) : option Card :=
  card ← resolveAsOf (versions_of s cardID) (q_AsOf req);
  if matchesQuery req card then Some card else None.

Lemma found_card_Some s req id c :
  found_card s req id = Some c ↔
  resolveAsOf (versions_of s id) (q_AsOf req) = Some c ∧ matchesQuery req c = true.
Proof.
  unfold found_card. destruct (resolveAsOf _ _) as [c'|]; cbn; [|naive_solver].
  destruct (matchesQuery req c') eqn:E; naive_solver congruence.
Qed.

Lemma Query_scan ord req s :
  q_CardID req = "" →
  Query ord req s = mkQueryResponse (omap (found_card s req) ord)
    (collectEdgesForCards s (CardID <$> omap (found_card s req) ord)).
Proof. intros H. unfold Query. by rewrite decide_False by (by intros ?). Qed.

Lemma Query_cards_elem ord req s c :
  q_CardID req = "" → range_of (cards s) ord →
  c ∈ Cards (Query ord req s) ↔
  ∃ id, resolveAsOf (versions_of s id) (q_AsOf req) = Some c ∧ matchesQuery req c = true.
Proof.
  intros Hq [_ Hord]. rewrite Query_scan by done. cbn. rewrite list_elem_of_omap.
  setoid_rewrite found_card_Some. split; [naive_solver|]. intros (id & H & Hm).
  exists id. split; [|done]. apply Hord, elem_of_dom.
  unfold versions_of in H. destruct (cards s !! id); [done|].
  cbn in H. destruct (q_AsOf req); done.
Qed.

Lemma omap_NoDup_key {A B K} (f : A → option B) (key : B → K) (ka : A → K) (l : list A) :
  (∀ a b, f a = Some b → key b = ka a) → NoDup (ka <$> l) → NoDup (key <$> omap f l).
Proof.
  intros Hf. induction l as [|a l IH]; cbn; [constructor|].
  intros [Ha Hl]%NoDup_cons. destruct (f a) as [b|] eqn:E; cbn; [|by apply IH].
  constructor; [|by apply IH]. rewrite (Hf _ _ E). contradict Ha.
  apply list_elem_of_fmap in Ha as (b' & Hb & Hin).
  apply list_elem_of_omap in Hin as (a' & Ha' & Eb').
  rewrite Hb, (Hf _ _ Eb'). by apply list_elem_of_fmap_2.
Qed.

Lemma Query_cards_NoDup ord req s :
  store_wf s → q_CardID req = "" → range_of (cards s) ord →
  NoDup (CardID <$> Cards (Query ord req s)).
Proof.
  intros Hs Hq [Hn _]. rewrite Query_scan by done. cbn.
  apply (omap_NoDup_key _ _ id); [|by rewrite list_fmap_id].
  intros id c [H _]%found_card_Some. by eapply resolve_CardID.
Qed.

(** ** Properties *)

Lemma NewStore_wf : store_wf NewStore.
Proof.
  split; [|split]; cbn.
  - intros id vs. by rewrite lookup_empty.
  - intros id e. by rewrite lookup_empty.
  - intros cardID eid. rewrite lookup_empty. cbn. rewrite elem_of_nil.
    split; [done|]. intros (e & H & _). by rewrite lookup_empty in H.
Qed.

(** Two project facts linked by an edge, built by the operations themselves. *)
Definition demo_request (cardID status : string) : CreateCardRequest :=
  mkCreateCardRequest cardID "fact" ScopeProject status "" None None None
    (Some {["topic" := AStr "deploy window"]}) None (mkProvenance "" "test" (lit 8 10)).
Definition demo_build : M Store unit :=
  _ ← CreateCard (demo_request "card:a" "");
  _ ← CreateCard (demo_request "card:b" CardStatusCandidate);
  _ ← CreateEdge (mkCreateEdgeRequest "edge:1" "card:a" "card:b" "supports" f1 f1 None None None);
  mret tt.
Definition demo_store : Store := exec demo_build NewStore world0.

Lemma demo_store_wf : store_wf demo_store.
Proof.
  apply (preserves_exec store_wf demo_build); [|apply NewStore_wf].
  unfold demo_build. preserves_tac.
Qed.

(** C3. A filtered [Query] is exact whatever order [range s.cards] takes: it
    returns the resolved version of every card that passes the filters, one
    per card ID, and with them precisely the edges incident to a returned
    card, each of them once. *)
Theorem Query_exact ord req s :
  store_wf s → range_of (cards s) ord → q_CardID req = "" →
  let resp := Query ord req s in
  (∀ c, c ∈ Cards resp ↔
     ∃ id, resolveAsOf (versions_of s id) (q_AsOf req) = Some c ∧ matchesQuery req c = true) ∧
  NoDup (CardID <$> Cards resp) ∧
  NoDup (EdgeID <$> Edges resp) ∧
  (∀ e, e ∈ Edges resp ↔
     edges s !! EdgeID e = Some e ∧ ∃ c, c ∈ Cards resp ∧ incident (CardID c) e).
Proof.
  intros Hs Hord Hq resp. split_and!.
  - intros c. by apply Query_cards_elem.
  - by apply Query_cards_NoDup.
  - unfold resp. rewrite Query_scan by done. by apply collectEdges_exact.
  - intros e. unfold resp. rewrite Query_scan by done. cbn [Cards Edges].
    destruct (collectEdges_exact s (CardID <$> omap (found_card s req) ord) Hs) as [_ ->].
    split; (intros [Hl (x & Hx & Hi)]; split; [done|]).
    + apply list_elem_of_fmap in Hx as (c & -> & Hc). eauto.
    + exists (CardID x). split; [by apply list_elem_of_fmap_2|done].
Qed.

Definition demo_query : QueryRequest := mkQueryRequest "" "" ScopeProject CardStatusActive None.
Lemma Query_exact_witness :
  Query ["card:b"; "card:a"] demo_query demo_store =
    mkQueryResponse (versions_of demo_store "card:a") (Edges (Query ["card:a"; "card:b"] demo_query demo_store))
  ∧ NoDup (CardID <$> Cards (Query ["card:b"; "card:a"] demo_query demo_store)).
Proof.
  split; [reflexivity|].
  apply (Query_exact ["card:b"; "card:a"] demo_query demo_store demo_store_wf); [|reflexivity].
  split; [by vm_compute; repeat constructor; rewrite ?elem_of_cons, ?elem_of_nil; naive_solver|].
  intros k. replace (dom (cards demo_store)) with ({["card:a"; "card:b"]} : gset string) by (by vm_compute).
  set_solver.
Defined.

(** An as-of query returns the last version whose validity window contains
    the instant, and nothing exactly when no window does. *)
Theorem resolveAsOf_latest vs t c :
  resolveAsOf vs (Some t) = Some c ↔
  ∃ i, vs !! i = Some c ∧ in_window t c = true ∧
       ∀ j c', (i < j)%nat → vs !! j = Some c' → in_window t c' = false.
Proof.
  induction vs as [|x vs IH] using rev_ind; cbn.
  { split; [done|]. intros (i & H & _). done. }
  rewrite reverse_snoc. cbn. destruct (in_window t x) eqn:Ex.
  - split.
    + intros [= ->]. exists (length vs). rewrite lookup_app_r, Nat.sub_diag by lia.
      split_and!; [done|done|]. intros j c' Hj Hl%lookup_lt_Some.
      rewrite length_app in Hl. cbn in Hl. lia.
    + intros (i & Hi & Hw & Hlast). destruct (decide (i = length vs)) as [->|Hne].
      * rewrite lookup_app_r, Nat.sub_diag in Hi by lia. by injection Hi as ->.
      * apply lookup_lt_Some in Hi as Hlt. rewrite length_app in Hlt. cbn in Hlt.
        specialize (Hlast (length vs) x ltac:(lia)). rewrite lookup_app_r, Nat.sub_diag in Hlast by lia.
        by rewrite Hlast in Ex.
  - cbn in IH. rewrite IH. split; intros (i & Hi & Hw & Hlast); exists i.
    + apply lookup_lt_Some in Hi as Hlt. rewrite lookup_app_l by done.
      split_and!; [done|done|]. intros j c' Hj [Hl|[_ Hl]]%lookup_app_Some; [by eapply Hlast|].
      by apply list_lookup_singleton_Some in Hl as [_ <-].
    + apply lookup_app_Some in Hi as [Hi|[Hlen Hi]].
      * split_and!; [done|done|]. intros j c' Hj Hl. apply (Hlast j); [done|].
        by apply lookup_app_l_Some.
      * apply list_lookup_singleton_Some in Hi as [_ <-]. congruence.
Qed.

(** *** Latest cards *)

#[export] Instance newest_first_total : Total newest_first.
Proof.
  intros a b. unfold newest_first.
  destruct (decide (CreatedAt a = CreatedAt b)) as [->|]; [|lia].
  destruct (total String.le (CardID a) (CardID b)); auto.
Qed.
#[export] Instance newest_first_trans : Transitive newest_first.
Proof.
  intros a b c [|[E1 H1]] [|[E2 H2]]; unfold newest_first; [left; lia..|].
  right. split; [congruence|]. by trans (CardID b).
Qed.

Lemma newest_first_antisym a b :
  newest_first a b → newest_first b a → CardID a = CardID b.
Proof.
  intros [|[E1 H1]] [|[E2 H2]]; try lia. by apply (anti_symm String.le).
Qed.

Lemma NoDup_fmap_eq {A B} (f : A → B) (l : list A) x y :
  NoDup (f <$> l) → x ∈ l → y ∈ l → f x = f y → x = y.
Proof.
  intros Hn [i Hi]%list_elem_of_lookup [j Hj]%list_elem_of_lookup Hf.
  assert (i = j) as ->.
  { apply (NoDup_lookup _ _ _ (f x) Hn); rewrite list_lookup_fmap; [by rewrite Hi|].
    rewrite Hj. cbn. by rewrite Hf. }
  congruence.
Qed.

Definition latest_in (s : Store) (cardID : string) : option Card :=
  resolveAsOf (versions_of s cardID) None.

Lemma latest_NoDup s ord :
  store_wf s → NoDup ord → NoDup (CardID <$> omap (latest_in s) ord).
Proof.
  intros Hs Hn. apply (omap_NoDup_key _ _ id); [|by rewrite list_fmap_id].
  intros cardID c H. exact (resolve_CardID s cardID None c Hs H).
Qed.

Lemma LatestCards_run ord1 ord2 s :
  store_wf s → range_of (cards s) ord1 → range_of (cards s) ord2 →
  LatestCards ord1 s = LatestCards ord2 s ∧
  StronglySorted newest_first (LatestCards ord1 s) ∧
  ∀ c, c ∈ LatestCards ord1 s ↔ ∃ id vs, cards s !! id = Some vs ∧ last vs = Some c.
Proof.
  intros Hs H1 H2. fold (latest_in s). unfold LatestCards.
  change (λ cardID, resolveAsOf (versions_of s cardID) None) with (latest_in s).
  assert (merge_sort newest_first (omap (latest_in s) ord1)
          ≡ₚ merge_sort newest_first (omap (latest_in s) ord2)) as Hp.
  { rewrite !merge_sort_Permutation. apply omap_Permutation.
    by eapply range_of_Permutation. }
  split_and!.
  - apply (StronglySorted_unique_strong newest_first);
      [|apply StronglySorted_merge_sort; apply _..|done].
    intros a b Ha Hb Hab Hba. rewrite <- Hp in Hb. rewrite merge_sort_Permutation in Ha, Hb.
    eapply (NoDup_fmap_eq CardID); [apply latest_NoDup; [done|apply H1]|done..|].
    by apply newest_first_antisym.
  - apply StronglySorted_merge_sort; apply _.
  - intros c. rewrite merge_sort_Permutation, list_elem_of_omap.
    unfold latest_in, versions_of. cbn. split.
    + intros (id & _ & H). destruct (cards s !! id) as [vs|] eqn:E; [|done]. eauto.
    + intros (id & vs & E & H). exists id. rewrite E. split; [|done].
      apply H1, elem_of_dom. eauto.
Qed.

(** [LatestCards] does not depend on the iteration order of the map: every
    order gives the same list, sorted newest first with ties broken by card
    ID, and holding exactly the last version of every card. *)
Theorem LatestCards_deterministic ord1 ord2 s :
  store_wf s → range_of (cards s) ord1 → range_of (cards s) ord2 →
  LatestCards ord1 s = LatestCards ord2 s ∧
  StronglySorted newest_first (LatestCards ord1 s) ∧
  ∀ c, c ∈ LatestCards ord1 s ↔ ∃ id vs, cards s !! id = Some vs ∧ last vs = Some c.
Proof. apply LatestCards_run. Qed.

Lemma demo_range ord : ord ≡ₚ ["card:a"; "card:b"] → range_of (cards demo_store) ord.
Proof.
  intros Hp. split.
  - rewrite Hp. vm_compute; repeat constructor; rewrite ?elem_of_cons, ?elem_of_nil; naive_solver.
  - intros k. rewrite Hp.
    replace (dom (cards demo_store)) with ({["card:a"; "card:b"]} : gset string) by (by vm_compute).
    set_solver.
Qed.

Lemma LatestCards_deterministic_witness :
  CardID <$> LatestCards ["card:a"; "card:b"] demo_store = ["card:b"; "card:a"] ∧
  LatestCards ["card:a"; "card:b"] demo_store = LatestCards ["card:b"; "card:a"] demo_store.
Proof.
  split; [reflexivity|].
  apply (LatestCards_deterministic ["card:a"; "card:b"] ["card:b"; "card:a"]);
    [apply demo_store_wf|apply demo_range..]; [done|apply perm_swap].
Defined.

(** *** Touching *)

(** [TouchCard] keeps activation and confidence in the unit interval
    whatever the deltas, as long as the sums are numbers, and the touched card
    becomes the latest version. *)
Theorem TouchCard_unit id da dc s w c s' w' :
  TouchCard id da dc s w = (Ok c, s', w') →
  (∀ latest, last (versions_of s id) = Some latest →
     is_nan (fadd (Score (Activation latest)) da) = false ∧
     is_nan (fadd (Confidence (card_Provenance latest)) dc) = false) →
  last (versions_of s' id) = Some c ∧
  in_unit (Score (Activation c)) = true ∧
  in_unit (Confidence (card_Provenance c)) = true.
Proof.
  intros E Hnan. destruct (TouchCard_run id da dc s w) as (r & s1 & w1 & E1 & H).
  rewrite E in E1. injection E1 as <- <- <-.
  destruct (blank id); [by destruct H|].
  destruct (last (versions_of s id)) as [latest|] eqn:El; [|by destruct H].
  destruct (Hnan _ eq_refl) as [Hs Hc].
  destruct H as (Hm & _ & [[= ->]|(? & [=] & _)]).
  injection Hm as Hm _ _. unfold versions_of at 1. rewrite Hm, lookup_insert_eq. cbn.
  rewrite last_snoc. split_and!; [done|by apply clampUnit_unit..].
Qed.

Lemma TouchCard_unit_witness :
  match TouchCard "card:a" (lit 3 10) (lit 5 10) demo_store world0 with
  | (Ok c, s', _) => last (versions_of s' "card:a") = Some c ∧
      in_unit (Score (Activation c)) = true ∧ in_unit (Confidence (card_Provenance c)) = true
  | _ => False
  end.
Proof.
  destruct (TouchCard "card:a" (lit 3 10) (lit 5 10) demo_store world0) as [[[c|e] s'] w'] eqn:E.
  - apply (TouchCard_unit _ _ _ _ _ _ _ _ E). intros latest Hl.
    assert ((λ l, (is_nan (fadd (Score (Activation l)) (lit 3 10)),
                   is_nan (fadd (Confidence (card_Provenance l)) (lit 5 10))))
            <$> last (versions_of demo_store "card:a") = Some (false, false)) as Hb
      by (vm_compute; reflexivity).
    rewrite Hl in Hb. cbn [fmap option_fmap option_map] in Hb.
    apply Some_inj, pair_equal_spec in Hb. exact Hb.
  - apply (f_equal (λ x, is_ok x.1.1)) in E. vm_compute in E. discriminate E.
Defined.

(** *** Snapshot file names *)

Lemma json_name_inj a b : a +:+ ".json" = b +:+ ".json" → a = b.
Proof. apply string_app_inj_suffix. Qed.

(** Two cards never share a snapshot file: [cardFileName] is injective. *)
Theorem cardFileName_collision_free a b : cardFileName a = cardFileName b ↔ a = b.
Proof.
  split; [|by intros ->]. unfold cardFileName. intros H%json_name_inj.
  by apply HexEncode_inj.
Qed.

Lemma hex_digit_plain n :
  (n < 16)%nat → hex_digit n ≠ "/"%char ∧ hex_digit n ≠ ":"%char ∧ hex_digit n ≠ " "%char.
Proof. intros H. do 16 (destruct n as [|n]; [vm_compute; split_and!; congruence|]). lia. Qed.

Lemma legacy_of_hex id : legacyMemoryFileName (HexEncode id) = cardFileName id.
Proof.
  unfold legacyMemoryFileName, cardFileName. f_equal.
  induction id as [|a id IH]; [done|]. cbn [HexEncode ReplaceBytes].
  pose proof (nat_ascii_bounded a).
  destruct (hex_digit_plain (nat_of_ascii a / 16)) as (? & ? & ?);
    [apply Nat.Div0.div_lt_upper_bound; lia|].
  destruct (hex_digit_plain (nat_of_ascii a mod 16)) as (? & ? & ?);
    [apply Nat.mod_upper_bound; lia|].
  rewrite !decide_False by done. rewrite IH. reflexivity.
Qed.

Lemma HexEncode_length s : len (HexEncode s) = (2 * len s)%nat.
Proof. unfold len. induction s as [|a s IH]; [done|]. cbn [HexEncode String.length]. lia. Qed.

(** The clean-up of pre-hex snapshot names can delete a live snapshot: the
    legacy name of a card whose ID is the hexadecimal spelling of another
    card's ID is that other card's current file, so persisting the first
    removes the second from disk. *)
Theorem persistCard_deletes_other_snapshot id s w d :
  id ≠ "" → disk s = Some d → reliable w →
  forallb card_json_ok (versions_of s (HexEncode id)) = true →
  let '(r, s', _) := persistCard (HexEncode id) s w in
  r = Ok tt ∧ mem s' = mem s ∧ view card_dir s' !! cardFileName id = None.
Proof.
  intros Hid Hd Hw Hok. unfold persistCard. run.
  rewrite Hok, legacy_of_hex. cbn [negb]. run. rewrite WriteFile_reliable by done.
  rewrite decide_False; [rewrite RemoveIgnore_reliable by done|].
  - split_and!; [done|done|]. cbn. rewrite Hd. cbn. apply lookup_delete_eq.
  - rewrite cardFileName_collision_free. intros E. apply (f_equal len) in E.
    rewrite HexEncode_length in E. destruct id; [done|]. unfold len in E. cbn in E. lia.
Qed.

(** A persistent store with an empty [rootDir]. *)
Definition NewPersistent : Store := mkStore ∅ ∅ ∅ (Some empty_disk).
Definition alias_store : Store :=
  exec (_ ← CreateCard (demo_request "61" ""); CreateCard (demo_request "a" ""))
    NewPersistent world0.

Lemma persistCard_deletes_other_snapshot_witness :
  is_Some (view card_dir alias_store !! cardFileName "a") ∧
  view card_dir (exec (persistCard "61") alias_store world0) !! cardFileName "a" = None.
Proof.
  split; [vm_compute; eauto|].
  assert (∃ d, disk alias_store = Some d) as [d Hd]
    by (unfold alias_store; vm_compute; by eexists).
  assert (forallb card_json_ok (versions_of alias_store (HexEncode "a")) = true) as Hok
    by (vm_compute; reflexivity).
  pose proof (persistCard_deletes_other_snapshot "a" alias_store world0 d
    ltac:(discriminate) Hd (λ n, eq_refl) Hok) as H.
  unfold exec. replace (HexEncode "a") with "61" in H by reflexivity.
  destruct (persistCard "61" alias_store world0) as [[r s'] w']. by destruct H as (_ & _ & ?).
Defined.

(** Creating an edge keeps referential integrity: it succeeds on an
    in-memory store exactly when all four fields are given, the edge ID is
    free and both cards exist, and then the index of both endpoints gains it
    at the end. *)
Theorem CreateEdge_complete req s w :
  disk s = None →
  is_ok (CreateEdge req s w).1.1 = true ↔
  edge_ok req = true ∧ edges s !! ce_EdgeID req = None ∧
  is_Some (cards s !! ce_FromCardID req) ∧ is_Some (cards s !! ce_ToCardID req) ∧
  exec (CreateEdge req) s w = add_edge (createdEdge req (clock w (tick w))) s.
Proof.
  intros Hd. unfold exec, CreateEdge, edge_ok.
  destruct (_ || _); [by split; [|intros (? & _)]|]. run.
  destruct (edges s !! ce_EdgeID req); [by split; [|intros (_ & ? & _)]|].
  destruct (cards s !! ce_FromCardID req); [|by split; [|intros (_ & _ & [? ?] & _)]].
  destruct (cards s !! ce_ToCardID req); [|by split; [|intros (_ & _ & _ & [? ?] & _)]].
  unfold recordEdge. run.
  assert (∀ e, persistent (add_edge e s) = false) as -> by (intros; unfold persistent; cbn; by rewrite Hd).
  split; [|done]. intros _. split_and!; eauto.
Qed.

Lemma CreateEdge_complete_witness :
  is_ok (CreateEdge (mkCreateEdgeRequest "edge:2" "card:b" "card:b" "self" f1 f1 None None None)
           demo_store world0).1.1 = true ∧
  is_ok (CreateEdge (mkCreateEdgeRequest "edge:1" "card:a" "card:b" "dup" f1 f1 None None None)
           demo_store world0).1.1 = false.
Proof.
  split; [|reflexivity]. apply CreateEdge_complete; [reflexivity|].
  repeat split; eauto.
Defined.
