(* ===== verification/Journal.v ===== *)
(** * Journal replay, integrity check and recovery ([internal/memory/journal.go]
    and the disk half of [store.go])

    The journal is the source of truth of a persistent store: this file shows
    that it replays to the live memory, that the integrity check accepts
    exactly then, and that [RebuildProjections] recovers the snapshots from it. *)
From S2P Require Import Prelude GoStrings GoNum MemoryTypes MemoryStore.
Open Scope Z_scope.

(** ** Reading and replaying the journal *)

(** [ReadJournal]: a line that does not decode fails the whole read. *)
Fixpoint ReadJournal (lines : list (File JournalEvent)) : result (list JournalEvent) :=
  match lines with
  | [] => Ok []
  | Torn :: _ => Err EJson
  | Doc e :: rest =>
      match ReadJournal rest with Ok events => Ok (e :: events) | Err err => Err err end
  end.

Definition card_events : list string :=
  ["card_created"; "card_updated"; "card_touched"; "decay_applied"].

(** One turn of the replay loop. *)
Definition replay_event (s : Store) (ev : JournalEvent) : Store :=
  if decide (je_EventType ev ∈ card_events) then
    match je_CardSnapshot ev with
    | Some (v0 :: vs) => set_cards (insert (CardID v0) (v0 :: vs)) s
    | _ => s
    end
  else if decide (je_EventType ev = "edge_created") then
    match je_EdgeSnapshot ev with
    | Some edge =>
        match edges s !! EdgeID edge with
        | None => add_edge edge s
        | Some _ => mkStore (cards s) (<[EdgeID edge := edge]> (edges s)) (edgesByCard s) (disk s)
        end
    | None => s
    end
  else s.

Definition ReplayFromJournal (lines : list (File JournalEvent)) : result Store :=
  match ReadJournal lines with
  | Ok events => Ok (foldl replay_event NewStore events)
  | Err e => Err e
  end.

(** ** The integrity report *)

Record IntegrityReport := mkIntegrityReport {
  ir_OK : bool;
  MissingCards : list string; ExtraCards : list string; MismatchCards : list string;
  MissingEdges : list string; ExtraEdges : list string }.

(** The orders in which the five loops of [VerifyIntegrity] visit the replayed
    and the live cards and edges. *)
Record Ranges := mkRanges {
  replayed_cards : list string; live_cards : list string;
  replayed_edges : list string; live_edges : list string }.

(** The keys met by a loop that are missing from [m]. *)
Definition missing_in {A} (m : gmap string A) (ord : list string) : list string :=
  filter (λ k, m !! k = None) ord.

Definition VerifyIntegrity (ord : Ranges) (s : Store) : result IntegrityReport :=
  match disk s with
  | None => Ok (mkIntegrityReport true [] [] [] [] [])
  | Some d =>
      match ReplayFromJournal (journal d) with
      | Err e => Err e
      | Ok replayed =>
          let missing := missing_in (cards s) (replayed_cards ord) in
          let extra := missing_in (cards replayed) (live_cards ord) in
          let mismatch := filter (λ id, is_Some (cards s !! id) ∧
              length (versions_of s id) ≠ length (versions_of replayed id)) (replayed_cards ord) in
          let missing_e := missing_in (edges s) (replayed_edges ord) in
          let extra_e := missing_in (edges replayed) (live_edges ord) in
          Ok (mkIntegrityReport
                (bool_decide (missing = [] ∧ extra = [] ∧ mismatch = [] ∧
                              missing_e = [] ∧ extra_e = []))
                missing extra mismatch missing_e extra_e)
      end
  end.

(** ** Loading and rebuilding the snapshots *)

(** [os.ReadDir]: the entries of a directory, sorted by name. *)
Definition name_le {A} (a b : string * A) : Prop := String.le a.1 b.1.
#[export] Instance name_le_dec {A} : RelDecision (@name_le A).
Proof. intros a b. unfold name_le. apply _. Defined.
Definition ReadDir {A} (m : gmap string (File A)) : list (string * File A) :=
  merge_sort name_le (map_to_list m).

(** The loops of [loadFromDisk]: other extensions are skipped, a file that
    does not decode fails the load, an empty version list is skipped. *)
Fixpoint load_cards (entries : list (string * File (list Card)))
    (acc : gmap string (list Card)) : result (gmap string (list Card)) :=
  match entries with
  | [] => Ok acc
  | (name, body) :: rest =>
      if negb (HasSuffix name ".json") then load_cards rest acc else
      match body with
      | Torn => Err EJson
      | Doc [] => load_cards rest acc
      | Doc (v0 :: vs) => load_cards rest (<[CardID v0 := v0 :: vs]> acc)
      end
  end.

Fixpoint load_edges (entries : list (string * File Edge)) (s : Store) : result Store :=
  match entries with
  | [] => Ok s
  | (name, body) :: rest =>
      if negb (HasSuffix name ".json") then load_edges rest s else
      match body with
      | Torn => Err EJson
      | Doc edge => load_edges rest (add_edge edge s)
      end
  end.

Definition loadFromDisk (d : Disk) : result Store :=
  match load_cards (ReadDir (card_files d)) ∅ with
  | Err e => Err e
  | Ok cs => load_edges (ReadDir (edge_files d)) (mkStore cs ∅ ∅ (Some d))
  end.

(** [NewPersistentStore] on an existing [rootDir]: the journal is reopened. *)
Definition NewPersistentStore (d : Disk) : result Store :=
  loadFromDisk (mkDisk (card_files d) (edge_files d) (journal d) false).

(** The names a wipe removes: [filepath.Ext(name) == ".json"]. *)
Definition json_names {A} (m : gmap string (File A)) : list string :=
  filter (λ name, Is_true (HasSuffix name ".json")) (ReadDir m).*1.

Definition wipe : M Store unit :=
  s ← get;
  _ ← forM (RemoveIgnore card_dir) (json_names (view card_dir s));
  forM (RemoveIgnore edge_dir) (json_names (view edge_dir s)).

(** [ordc] and [orde] are the orders of the two rewriting loops. *)
Definition RebuildProjections (ordc orde : list string) : M Store unit :=
  s ← get;
  match disk s with
  | None => mret tt
  | Some d =>
      replayed ← lift_result (ReplayFromJournal (journal d));
      _ ← wipe;
      _ ← modify (λ s, mkStore (cards replayed) (edges replayed) (edgesByCard replayed) (disk s));
      _ ← forM persistCard ordc;
      forM persistEdge orde
  end.

(** ** What a successful recording appends *)

(** The journal of [s], with the state of its encoder. *)
Definition journal_of (s : Store) : option (list (File JournalEvent) * bool) :=
  match disk s with Some d => Some (journal d, enc_err d) | None => None end.

Definition same_journal (s0 s : Store) : Prop := frame s0 s ∧ journal_of s = journal_of s0.

Lemma same_journal_card_dir s0 s f : same_journal s0 s → same_journal s0 (over card_dir f s).
Proof.
  unfold same_journal. intros [? <-]. split; [by apply frame_card_dir|]. unfold journal_of. cbn. by destruct (disk s).
Qed.
Lemma same_journal_edge_dir s0 s f : same_journal s0 s → same_journal s0 (over edge_dir f s).
Proof.
  unfold same_journal. intros [? <-]. split; [by apply frame_edge_dir|]. unfold journal_of. cbn. by destruct (disk s).
Qed.
#[local] Hint Resolve preserves_WriteFile preserves_RemoveIgnore same_journal_card_dir
  same_journal_edge_dir : hoare.

Lemma persistCard_journal s0 id : preserves (same_journal s0) (persistCard id).
Proof. unfold persistCard. preserves_tac. Qed.
Lemma persistEdge_journal s0 id : preserves (same_journal s0) (persistEdge id).
Proof. unfold persistEdge. preserves_tac. Qed.

Lemma persistCard_ok id s w s' w' :
  persistCard id s w = (Ok tt, s', w') →
  same_journal s s' ∧ forallb card_json_ok (versions_of s id) = true.
Proof.
  intros E. split.
  - pose proof (persistCard_journal s id s w (conj (conj eq_refl eq_refl) eq_refl)) as H.
    by rewrite E in H.
  - revert E. unfold persistCard. run. by destruct (forallb _ _).
Qed.

Lemma persistEdge_ok id e s w s' w' :
  edges s !! id = Some e → persistEdge id s w = (Ok tt, s', w') →
  same_journal s s' ∧ edge_json_ok e = true.
Proof.
  intros He E. split.
  - pose proof (persistEdge_journal s id s w (conj (conj eq_refl eq_refl) eq_refl)) as H.
    by rewrite E in H.
  - revert E. unfold persistEdge. run. rewrite He. by destruct (edge_json_ok e).
Qed.

Lemma Append_ok ev s w s' w' lines :
  journal_of s = Some (lines, false) → Append ev s w = (Ok tt, s', w') →
  frame s s' ∧ journal_of s' = Some (lines ++ [Doc ev], false).
Proof.
  intros Hj E. split.
  { pose proof (Append_frame s ev s w) as H. rewrite E in H. by apply H. }
  revert Hj E. unfold journal_of, Append, set_journal, set_disk. run.
  destruct (disk s) as [d|] eqn:Ed; [|done]. intros [= <- He]. rewrite He.
  destruct (faults w (tick w)); try done. cbn.
  destruct (faults w (Datatypes.S (tick w))); try done. intros [= <- <-]. cbn.
  rewrite Ed. cbn. by rewrite He.
Qed.

(** A recorded card: its whole history, as JSON reads it back, is the last
    event of the journal. *)
Lemma recordCard_ok ev c id s w s' w' lines :
  journal_of s = Some (lines, false) → recordCard ev c id s w = (Ok tt, s', w') →
  frame s s' ∧ ∃ ts, journal_of s' = Some (lines ++ [Doc (mkJournalEvent ts ev id
    (CardType c) (Version c) (Some (card_norm <$> versions_of s id)) None)], false).
Proof.
  intros Hj. unfold recordCard, appendCardJournalEvent. run.
  assert (persistent s = true) as ->.
  { unfold persistent, journal_of in *. by destruct (disk s). }
  destruct (persistCard id s w) as [[[[]|] s1] w1] eqn:E1; [|done].
  destruct (persistCard_ok _ _ _ _ _ E1) as [[[Hm Hp] Hj1] Hok]. intros E2.
  assert (versions_of s1 id = versions_of s id) as Hv.
  { injection Hm as Hc _ _. unfold versions_of. by rewrite Hc. }
  unfold marshalCards in E2. rewrite Hv, Hok in E2.
  rewrite Hj in Hj1. destruct (Append_ok _ _ _ _ _ _ Hj1 E2) as [[Hm2 Hp2] Hj2].
  split; [|eauto]. split; congruence.
Qed.

Lemma recordEdge_ok e s w s' w' lines :
  edges s !! EdgeID e = Some e → journal_of s = Some (lines, false) →
  recordEdge e s w = (Ok tt, s', w') →
  frame s s' ∧ ∃ ts, journal_of s' = Some (lines ++ [Doc (mkJournalEvent ts "edge_created"
    (EdgeID e) (EdgeType e) 0 None (Some (edge_norm e)))], false).
Proof.
  intros He Hj. unfold recordEdge, appendEdgeJournalEvent. run.
  assert (persistent s = true) as ->.
  { unfold persistent, journal_of in *. by destruct (disk s). }
  destruct (persistEdge (EdgeID e) s w) as [[[[]|] s1] w1] eqn:E1; [|done].
  destruct (persistEdge_ok _ _ _ _ _ _ He E1) as [[[Hm Hp] Hj1] Hok]. intros E2.
  unfold marshalEdge in E2. rewrite Hok in E2.
  rewrite Hj in Hj1. destruct (Append_ok _ _ _ _ _ _ Hj1 E2) as [[Hm2 Hp2] Hj2].
  split; [|eauto]. split; congruence.
Qed.

(** ** The journal is complete *)

(** The in-memory state as JSON reads it back. *)
Definition norm_mem (s : Store)
    : gmap string (list Card) * gmap string Edge * gmap string (list string) :=
  (fmap (M:=list) card_norm <$> cards s, edge_norm <$> edges s, edgesByCard s).

(** The abstract contract of a persistent store: its journal alone determines
    its memory. *)
Definition journal_complete (s : Store) : Prop :=
  ∃ lines rs, journal_of s = Some (lines, false) ∧
    ReplayFromJournal lines = Ok rs ∧ mem rs = norm_mem s.

Lemma ReadJournal_app lines1 lines2 evs1 :
  ReadJournal lines1 = Ok evs1 →
  ReadJournal (lines1 ++ lines2) =
    match ReadJournal lines2 with Ok evs2 => Ok (evs1 ++ evs2) | Err e => Err e end.
Proof.
  revert evs1. induction lines1 as [|[ev|] lines1 IH]; intros evs1; cbn.
  - intros [= <-]. by destruct (ReadJournal lines2).
  - destruct (ReadJournal lines1) as [evs|]; [|done]. intros [= <-].
    rewrite (IH evs) by done. by destruct (ReadJournal lines2).
  - done.
Qed.

Lemma replay_snoc lines rs ev :
  ReplayFromJournal lines = Ok rs →
  ReplayFromJournal (lines ++ [Doc ev]) = Ok (replay_event rs ev).
Proof.
  unfold ReplayFromJournal. destruct (ReadJournal lines) as [evs|] eqn:E; [|done].
  intros [= <-]. rewrite (ReadJournal_app _ _ _ E). cbn. by rewrite foldl_app.
Qed.

(** Recording a card whose versions were just written keeps the journal complete. *)
Lemma recordCard_complete ev id c v vs s w s' w' :
  journal_complete s → ev ∈ card_events → CardID v = id →
  recordCard ev c id (set_cards (insert id (v :: vs)) s) w = (Ok tt, s', w') →
  journal_complete s'.
Proof.
  intros (lines & rs & Hj & Hr & Hm) Hev Hhd E. set (s1 := set_cards _ s) in E.
  destruct (recordCard_ok _ _ _ s1 _ _ _ lines Hj E) as [[Hm2 _] [ts Hj2]].
  assert (versions_of s1 id = v :: vs) as Hv1.
  { unfold s1, versions_of. cbn. by rewrite lookup_insert_eq. }
  rewrite Hv1 in Hj2. eexists _, _. split; [exact Hj2|]. split; [by apply replay_snoc|].
  unfold replay_event. cbn [je_EventType je_CardSnapshot]. rewrite decide_True by done.
  cbn. injection Hm as Hc He Hx. injection Hm2 as Hc2 He2 Hx2.
  unfold mem, norm_mem. rewrite Hc2, He2, Hx2. unfold s1. cbn. rewrite Hc, He, Hx, fmap_insert.
  cbn. by rewrite Hhd.
Qed.

Lemma recordEdge_complete e s w s' w' :
  journal_complete s → edges s !! EdgeID e = None →
  recordEdge e (add_edge e s) w = (Ok tt, s', w') → journal_complete s'.
Proof.
  intros (lines & rs & Hj & Hr & Hm) Hn E. set (s1 := add_edge e s) in E.
  assert (edges s1 !! EdgeID e = Some e) as Hl by apply lookup_insert_eq.
  destruct (recordEdge_ok _ s1 _ _ _ lines Hl Hj E) as [[Hm2 _] [ts Hj2]].
  eexists _, _. split; [exact Hj2|]. split; [by apply replay_snoc|].
  injection Hm as Hc He Hx. injection Hm2 as Hc2 He2 Hx2.
  unfold replay_event. cbn [je_EventType je_EdgeSnapshot]. rewrite decide_False by (unfold card_events; set_solver).
  rewrite decide_True by done. cbn. rewrite He, lookup_fmap, Hn. cbn.
  unfold mem, norm_mem. rewrite Hc2, He2, Hx2. unfold s1. cbn. by rewrite Hc, He, Hx, fmap_insert.
Qed.

(** The mutations a client of the store can ask for. *)
Inductive StoreOp :=
  | OpCreate (req : CreateCardRequest)
  | OpUpdate (cardID : string) (req : UpdateCardRequest)
  | OpTouch (cardID : string) (activationDelta confidenceDelta : float64)
  | OpEdge (req : CreateEdgeRequest).

Definition run_op (op : StoreOp) : M Store unit :=
  match op with
  | OpCreate req => _ ← CreateCard req; mret tt
  | OpUpdate cardID req => _ ← UpdateCard cardID req; mret tt
  | OpTouch cardID da dc => _ ← TouchCard cardID da dc; mret tt
  | OpEdge req => _ ← CreateEdge req; mret tt
  end.

(** The journal stays complete unless the operation fails in storage. *)
Definition completes {A} (m : M Store A) : Prop :=
  hoare (λ s, store_wf s ∧ journal_complete s) m
    (λ r s', match r with Err e => storage_error e ∨ journal_complete s' | Ok _ => journal_complete s' end).

Lemma appendVersion_completes ev id latest c s w :
  store_wf s → journal_complete s → last (versions_of s id) = Some latest →
  CardID c = CardID latest → ev ∈ card_events →
  let '(r, s', _) := appendVersion ev id c s w in
  match r with Err e => storage_error e ∨ journal_complete s' | Ok _ => journal_complete s' end.
Proof.
  intros Hs Hj Hl Hc Hev. unfold appendVersion. run.
  destruct (versions_of_last _ _ _ Hs Hl) as (_ & Hwf & _).
  destruct (versions_of s id) as [|v vs] eqn:Ev; [done|]. cbn [app].
  destruct (recordCard _ _ _ _ w) as [[[[]|e] s2] w2] eqn:E.
  - eapply recordCard_complete; [done..| |exact E].
    destruct Hwf as (_ & _ & typ & cr & H). by destruct (H 0%nat v eq_refl).
  - left. by eapply raises_recordCard.
Qed.

Lemma CreateCard_completes req : completes (CreateCard req).
Proof.
  intros s w [Hs Hj]. unfold CreateCard.
  destruct (bool_decide _ || bool_decide _); [cbn; auto|].
  destruct (bool_decide (_ = "")); [cbn; auto|]. run.
  destruct (cards s !! cc_CardID req) eqn:El; [auto|].
  destruct (recordCard _ _ _ _ _) as [[[[]|e] s2] w2] eqn:E.
  - eapply recordCard_complete; [done| | |exact E]; [|done]. unfold card_events; set_solver.
  - left. by eapply raises_recordCard.
Qed.

Lemma UpdateCard_completes id req : completes (UpdateCard id req).
Proof.
  intros s w [Hs Hj]. unfold UpdateCard. destruct (bool_decide _); [cbn; auto|].
  destruct (_ && _); [cbn; auto|]. run.
  destruct (last (versions_of s id)) as [latest|] eqn:El; [|auto].
  apply (appendVersion_completes _ _ latest); [done..|]. unfold card_events; set_solver.
Qed.

Lemma TouchCard_completes id da dc : completes (TouchCard id da dc).
Proof.
  intros s w [Hs Hj]. unfold TouchCard. destruct (blank id); [cbn; auto|]. run.
  destruct (last (versions_of s id)) as [latest|] eqn:El; [|auto].
  apply (appendVersion_completes _ _ latest); [done..|]. unfold card_events; set_solver.
Qed.

Lemma CreateEdge_completes req : completes (CreateEdge req).
Proof.
  intros s w [Hs Hj]. unfold CreateEdge. destruct (_ || _); [cbn; auto|]. run.
  destruct (edges s !! ce_EdgeID req) eqn:Ee; [auto|].
  destruct (cards s !! ce_FromCardID req); [|auto].
  destruct (cards s !! ce_ToCardID req); [|auto].
  destruct (recordEdge_run (createdEdge req (clock w (tick w)))
    (add_edge (createdEdge req (clock w (tick w))) s) (advance w)) as (r & s2 & w2 & E & _ & Hr).
  unfold createdEdge in E. rewrite E. destruct r as [[]|e]; [|by left; apply Hr].
  eapply recordEdge_complete; [done| |exact E]. done.
Qed.

Lemma run_op_completes op : completes (run_op op).
Proof.
  assert (∀ A (m : M Store A), completes m → completes (_ ← m; mret tt)) as Hb.
  { intros A m Hm s w H. specialize (Hm s w H). run. by destruct (m s w) as [[[] ?] ?]. }
  destruct op; apply Hb; [apply CreateCard_completes|apply UpdateCard_completes
    |apply TouchCard_completes|apply CreateEdge_completes].
Qed.

Lemma run_op_preserves op : preserves store_wf (run_op op).
Proof. destruct op; unfold run_op; preserves_tac. Qed.

(** The mutations every operation of the memory is made of: the requests of
    the store, and the version a decay appends to a card. *)
Inductive Mutation := ByRequest (op : StoreOp) | ByDecay (cardID : string) (updated : Card).
Definition mutate (m : Mutation) : M Store unit :=
  match m with
  | ByRequest op => run_op op
  | ByDecay cardID updated => _ ← appendVersion "decay_applied" cardID updated; mret tt
  end.
(** A decay appends a next version of the card it names. *)
Definition applies (s : Store) (m : Mutation) : Prop :=
  match m with
  | ByRequest _ => True
  | ByDecay cardID updated =>
      ∃ latest, last (versions_of s cardID) = Some latest ∧ next_version latest updated
  end.

(** One mutation, whatever its outcome. *)
Definition mutation_step (s s' : Store) : Prop :=
  ∃ m w, applies s m ∧ s' = exec (mutate m) s w.
(** One mutation of a store whose storage did not fail: it returned a value or
    refused its arguments. *)
Definition op_step (s s' : Store) : Prop :=
  ∃ m w r w', applies s m ∧ mutate m s w = (r, s', w') ∧ ∀ e, r = Err e → ¬ storage_error e.

Lemma NewPersistent_complete : journal_complete NewPersistent.
Proof. eexists _, _. split; [done|]. by split. Qed.
Lemma NewPersistent_wf : store_wf NewPersistent.
Proof. exact NewStore_wf. Qed.

Lemma mutate_preserves m s w : store_wf s → applies s m → store_wf (exec (mutate m) s w).
Proof.
  destruct m as [op|id c]; intros Hs Ha; [by apply preserves_exec; [apply run_op_preserves|]|].
  destruct Ha as (latest & Hl & Hn). unfold exec, mutate. run.
  destruct (appendVersion_run "decay_applied" id c s w) as (res & s1 & w1 & -> & Hm & _).
  assert (store_wf s1) by (unfold store_wf; rewrite Hm; by eapply append_version_wf). by destruct res.
Qed.
Lemma mutate_completes m s w : store_wf s → journal_complete s → applies s m →
  let '(r, s', _) := mutate m s w in
  match r with Err e => storage_error e ∨ journal_complete s' | Ok _ => journal_complete s' end.
Proof.
  destruct m as [op|id c]; intros Hs Hj Ha; [by apply run_op_completes|].
  destruct Ha as (latest & Hl & Hn). unfold mutate. run.
  pose proof (appendVersion_completes "decay_applied" id latest c s w Hs Hj Hl (proj1 Hn)) as H.
  destruct (appendVersion _ _ _ _ _) as [[[?|e] s'] w']; apply H; unfold card_events; set_solver.
Qed.

Lemma op_step_complete s s' :
  op_step s s' → store_wf s ∧ journal_complete s → store_wf s' ∧ journal_complete s'.
Proof.
  intros (m & w & r & w' & Ha & E & Hr) [Hs Hj]. split.
  - pose proof (mutate_preserves m s w Hs Ha) as Hp. unfold exec in Hp. by rewrite E in Hp.
  - pose proof (mutate_completes m s w Hs Hj Ha) as Hc. rewrite E in Hc.
    destruct r as [|e]; [done|]. destruct Hc as [Hc|]; [|done]. by destruct (Hr e eq_refl).
Qed.

Lemma reachable_complete s :
  rtc op_step NewPersistent s → store_wf s ∧ journal_complete s.
Proof.
  intros H. assert (store_wf NewPersistent ∧ journal_complete NewPersistent) as H0
    by (split; [apply NewPersistent_wf|apply NewPersistent_complete]).
  induction H as [|s1 s2 s3 Hstep _ IH]; [done|]. by apply IH, (op_step_complete s1).
Qed.

(** ** Snapshots in a reliable world *)

(** The snapshot directory after the body of [id] was written and its legacy
    name removed; [body] is what the store holds under each ID. *)
Definition snap {A} (body : string → option A) (m : gmap string (File A)) (id : string)
    : gmap string (File A) :=
  match body id with
  | None => m
  | Some a =>
      let m1 := <[cardFileName id := Doc a]> m in
      if decide (legacyMemoryFileName id = cardFileName id) then m1
      else delete (legacyMemoryFileName id) m1
  end.

Definition card_body (s : Store) (id : string) : option (list Card) :=
  Some (card_norm <$> versions_of s id).
Definition edge_body (s : Store) (id : string) : option Edge := edge_norm <$> edges s !! id.

(** [s] with its two snapshot directories replaced. *)
Definition with_files (mc : gmap string (File (list Card))) (me : gmap string (File Edge))
    (s : Store) : Store := set_disk (λ d, mkDisk mc me (journal d) (enc_err d)) s.

Lemma with_files_over_card f mc me s :
  over card_dir f (with_files mc me s) = with_files (f mc) me s.
Proof. unfold with_files, set_disk. cbn. by destruct (disk s). Qed.
Lemma with_files_over_edge f mc me s :
  over edge_dir f (with_files mc me s) = with_files mc (f me) s.
Proof. unfold with_files, set_disk. cbn. by destruct (disk s). Qed.
Lemma with_files_id s d :
  disk s = Some d → with_files (card_files d) (edge_files d) s = s.
Proof. destruct s, disk as [[]|]; cbn; by intros [= <-]. Qed.

Lemma persistCard_reliable id mc me s w :
  reliable w → forallb card_json_ok (versions_of s id) = true →
  ∃ w', persistCard id (with_files mc me s) w =
    (Ok tt, with_files (snap (card_body s) mc id) me s, w') ∧ reliable w'.
Proof.
  intros Hw Hok. unfold persistCard. run.
  change (versions_of (with_files mc me s) id) with (versions_of s id). rewrite Hok. cbn [negb].
  run. rewrite WriteFile_reliable, with_files_over_card by done.
  unfold snap, card_body. case_decide; [eauto using reliable_advance|].
  rewrite RemoveIgnore_reliable, with_files_over_card by done. eauto using reliable_advance.
Qed.

Lemma persistEdge_reliable id e mc me s w :
  reliable w → edges s !! id = Some e → edge_json_ok e = true →
  ∃ w', persistEdge id (with_files mc me s) w =
    (Ok tt, with_files mc (snap (edge_body s) me id) s, w') ∧ reliable w'.
Proof.
  intros Hw He Hok. unfold persistEdge. run.
  change (edges (with_files mc me s)) with (edges s). unfold snap, edge_body. rewrite He, Hok. cbn [negb].
  run. rewrite WriteFile_reliable, with_files_over_edge by done.
  cbn [fmap option_fmap option_map].
  change edgeFileName with cardFileName. case_decide; [eauto using reliable_advance|].
  rewrite RemoveIgnore_reliable, with_files_over_edge by done. eauto using reliable_advance.
Qed.

(** A loop of operations that each succeed and step the view [v]. *)
Lemma forM_reliable {V K} (op : K → M Store unit) (st : V → Store) (f : V → K → V) l v w :
  (∀ k v w, k ∈ l → reliable w → ∃ w', op k (st v) w = (Ok tt, st (f v k), w') ∧ reliable w') →
  reliable w →
  ∃ w', forM op l (st v) w = (Ok tt, st (foldl f v l), w') ∧ reliable w'.
Proof.
  unfold forM. revert v w. induction l as [|k l IH]; intros v w Hop Hw; cbn; [eauto|].
  destruct (Hop k v w) as (w1 & E & Hw1); [left|done|]. run. rewrite E.
  apply IH; [|done]. intros. apply Hop; [by right|done].
Qed.

(** No legacy name of an ID is the current name of another one. *)
Definition legacy_safe {A} (m : gmap string A) : Prop :=
  ∀ id id', is_Some (m !! id) → is_Some (m !! id') →
    legacyMemoryFileName id = cardFileName id' → id = id'.

(** The directory [m] holds exactly the bodies of [cs] under their names. *)
Definition holds {A} (m : gmap string (File A)) (cs : gmap string A) : Prop :=
  (∀ id a, cs !! id = Some a → m !! cardFileName id = Some (Doc a)) ∧
  (∀ n b, m !! n = Some b → HasSuffix n ".json" = true →
     ∃ id a, cs !! id = Some a ∧ n = cardFileName id ∧ b = Doc a).

Lemma snaps_lookup {A} (body : string → option A) ids m :
  (∀ id id', id ∈ ids → id' ∈ ids → legacyMemoryFileName id = cardFileName id' → id = id') →
  (∀ id a, id ∈ ids → body id = Some a →
     foldl (snap body) m ids !! cardFileName id = Some (Doc a)) ∧
  (∀ n b, foldl (snap body) m ids !! n = Some b →
     m !! n = Some b ∨ ∃ id a, id ∈ ids ∧ body id = Some a ∧ n = cardFileName id ∧ b = Doc a).
Proof.
  induction ids as [|x ids IH] using rev_ind; intros Hsafe; cbn.
  { split; [by intros ? ? ?%elem_of_nil|auto]. }
  destruct IH as [IH1 IH2]; [intros; apply Hsafe; set_solver|].
  rewrite foldl_app. cbn. set (m1 := foldl _ _ _) in *. split.
  - intros id a [Hin| ->%list_elem_of_singleton]%elem_of_app Hb; unfold snap.
    + destruct (body x) as [ax|] eqn:Ex; [|by apply IH1].
      destruct (decide (id = x)) as [->|Hne].
      * rewrite Hb in Ex. injection Ex as ->. case_decide as Hd; [by rewrite lookup_insert_eq|].
        rewrite lookup_delete_ne by done. by rewrite lookup_insert_eq.
      * assert (cardFileName x ≠ cardFileName id) by (rewrite cardFileName_collision_free; done).
        case_decide; [by rewrite lookup_insert_ne, (IH1 id a)|].
        rewrite lookup_delete_ne; [by rewrite lookup_insert_ne, (IH1 id a)|].
        intros E%Hsafe; set_solver.
    + rewrite Hb. case_decide; [by rewrite lookup_insert_eq|].
      rewrite lookup_delete_ne by done. by rewrite lookup_insert_eq.
  - intros n b Hl. assert (m1 !! n = Some b ∨ ∃ a, body x = Some a ∧ n = cardFileName x ∧ b = Doc a) as [H|H].
    { revert Hl. unfold snap. destruct (body x) as [a|]; [|auto].
      assert (<[cardFileName x:=Doc a]> m1 !! n = Some b →
        m1 !! n = Some b ∨ ∃ a', Some a = Some a' ∧ n = cardFileName x ∧ b = Doc a') as Hi.
      { intros [[<- <-]|[_ ?]]%lookup_insert_Some; eauto. }
      case_decide; [done|]. intros [_ ?]%lookup_delete_Some. auto. }
    + destruct (IH2 _ _ H) as [|(id & a & ? & ?)]; [auto|]. right. exists id, a. set_solver.
    + destruct H as (a & ? & ?). right. exists x, a. set_solver.
Qed.

Lemma snaps_holds {A} (body : string → option A) (cs : gmap string A) ord m :
  range_of cs ord → legacy_safe cs → (∀ id, is_Some (cs !! id) → body id = cs !! id) →
  (∀ n b, m !! n = Some b → HasSuffix n ".json" = false) →
  holds (foldl (snap body) m ord) cs.
Proof.
  intros [_ Hord] Hsafe Hbody Hm.
  assert (∀ id, id ∈ ord ↔ is_Some (cs !! id)) as Ho by (intros; by rewrite Hord, elem_of_dom).
  destruct (snaps_lookup body ord m) as [H1 H2]; [intros ? ?; rewrite !Ho; apply Hsafe|].
  split.
  - intros id a Hl. apply H1; [apply Ho; eauto|]. by rewrite Hbody by eauto.
  - intros n b Hl Hs. destruct (H2 _ _ Hl) as [Hl'|(id & a & Hin & Hb & Hn)].
    + by rewrite (Hm _ _ Hl') in Hs.
    + exists id, a. split; [|done]. rewrite <- Hbody; [done|by apply Ho].
Qed.

(** ** Wiping and loading *)

Definition deletes {A} (m : gmap string (File A)) (names : list string) := foldl (flip delete) m names.

Lemma deletes_lookup {A} names (m : gmap string (File A)) n b :
  deletes m names !! n = Some b ↔ m !! n = Some b ∧ n ∉ names.
Proof.
  revert m. unfold deletes. induction names as [|x names IH]; intros m; cbn; [set_solver|].
  rewrite IH. unfold flip. rewrite lookup_delete_Some. set_solver.
Qed.

Lemma ReadDir_elem {A} (m : gmap string (File A)) n b :
  (n, b) ∈ ReadDir m ↔ m !! n = Some b.
Proof. unfold ReadDir. rewrite merge_sort_Permutation. apply elem_of_map_to_list. Qed.

Lemma ReadDir_NoDup {A} (m : gmap string (File A)) : NoDup (ReadDir m).*1.
Proof. unfold ReadDir. rewrite merge_sort_Permutation. apply NoDup_fst_map_to_list. Qed.

Lemma wiped_names {A} (m : gmap string (File A)) n b :
  deletes m (json_names m) !! n = Some b → HasSuffix n ".json" = false.
Proof.
  rewrite deletes_lookup. intros [Hl Hn]. apply not_true_iff_false. intros Hs. apply Hn.
  unfold json_names. apply list_elem_of_filter. split; [by apply Is_true_true|].
  apply list_elem_of_fmap. exists (n, b). split; [done|]. by apply ReadDir_elem.
Qed.

Lemma wipe_reliable s d w :
  disk s = Some d → reliable w →
  ∃ w', wipe s w = (Ok tt, with_files (deletes (card_files d) (json_names (card_files d)))
                             (deletes (edge_files d) (json_names (edge_files d))) s, w')
        ∧ reliable w'.
Proof.
  intros Hd Hw. unfold wipe. run. cbn [view card_dir]. rewrite Hd.
  pose proof (with_files_id s d Hd) as Hid.
  destruct (forM_reliable (RemoveIgnore card_dir) (λ m, with_files m (edge_files d) s)
    (flip delete) (json_names (card_files d)) (card_files d) w) as (w1 & E1 & Hw1); [|done|].
  { intros n m w0 _ H0. rewrite RemoveIgnore_reliable, with_files_over_card by done.
    eauto using reliable_advance. }
  rewrite Hid in E1. rewrite E1. cbn [view edge_dir]. rewrite Hd.
  destruct (forM_reliable (RemoveIgnore edge_dir)
    (λ m, with_files (deletes (card_files d) (json_names (card_files d))) m s)
    (flip delete) (json_names (edge_files d)) (edge_files d) w1) as (w2 & E2 & Hw2); [|done|].
  { intros n m w0 _ H0. rewrite RemoveIgnore_reliable, with_files_over_edge by done.
    eauto using reliable_advance. }
  unfold deletes in *. rewrite E2. eauto.
Qed.

Lemma HasSuffix_json id : HasSuffix (cardFileName id) ".json" = true.
Proof. apply HasSuffix_app. Qed.

Lemma load_cards_go (cs : gmap string (list Card)) entries (acc : gmap string (list Card)) :
  (∀ id vs, cs !! id = Some vs → ∃ v vs', vs = v :: vs' ∧ CardID v = id) →
  (∀ n b, (n, b) ∈ entries → HasSuffix n ".json" = true →
     ∃ id vs, cs !! id = Some vs ∧ n = cardFileName id ∧ b = Doc vs) →
  ∃ acc', load_cards entries acc = Ok acc' ∧
    ∀ id, acc' !! id = if decide (cardFileName id ∈ entries.*1) then cs !! id else acc !! id.
Proof.
  intros Hcs. revert acc. induction entries as [|[n b] entries IH]; intros acc Hin; cbn.
  { exists acc. split; [done|]. intros id. by rewrite decide_False by (apply not_elem_of_nil). }
  assert (∀ n b, (n, b) ∈ entries → HasSuffix n ".json" = true →
     ∃ id vs, cs !! id = Some vs ∧ n = cardFileName id ∧ b = Doc vs) as Hin' by (intros; apply Hin; set_solver).
  destruct (HasSuffix n ".json") eqn:Hs; cbn.
  - destruct (Hin n b) as (id0 & vs & Hl & -> & ->); [left|done|].
    destruct (Hcs _ _ Hl) as (v & vs' & -> & Hv). rewrite Hv.
    destruct (IH (<[id0 := v :: vs']> acc) Hin') as (acc' & -> & Hacc). exists acc'. split; [done|].
    intros id. rewrite Hacc. destruct (decide (id = id0)) as [->|Hne].
    + rewrite lookup_insert_eq, Hl. by repeat case_decide; set_solver.
    + rewrite lookup_insert_ne by done.
      assert (cardFileName id ≠ cardFileName id0) by (by rewrite cardFileName_collision_free).
      by repeat case_decide; set_solver.
  - destruct (IH acc Hin') as (acc' & -> & Hacc). exists acc'. split; [done|].
    intros id. rewrite Hacc. assert (cardFileName id ≠ n).
    { intros <-. by rewrite HasSuffix_json in Hs. }
    by repeat case_decide; set_solver.
Qed.

Lemma holds_file {A} (m : gmap string (File A)) cs id :
  holds m cs → cardFileName id ∈ (ReadDir m).*1 ↔ is_Some (cs !! id).
Proof.
  intros [H1 H2]. rewrite list_elem_of_fmap. split.
  - intros ([n b] & E0 & Hl%ReadDir_elem). cbn in E0. subst n.
    destruct (H2 _ _ Hl (HasSuffix_json id)) as (id' & a & Hl' & E & _).
    apply cardFileName_collision_free in E as ->. eauto.
  - intros [a Hl]. exists (cardFileName id, Doc a). split; [done|]. by apply ReadDir_elem, H1.
Qed.

Lemma load_cards_exact m cs :
  holds m cs → (∀ id vs, cs !! id = Some vs → ∃ v vs', vs = v :: vs' ∧ CardID v = id) →
  load_cards (ReadDir m) ∅ = Ok cs.
Proof.
  intros Hm Hcs. destruct (load_cards_go cs (ReadDir m) ∅ Hcs) as (acc & -> & H).
  { intros n b Hl%ReadDir_elem. by apply Hm. }
  f_equal. apply map_eq. intros id. rewrite H.
  case_decide as Hd; rewrite (holds_file m cs) in Hd by done; [done|].
  rewrite lookup_empty. by rewrite <- eq_None_not_Some in Hd.
Qed.

Lemma load_edges_go (es : gmap string Edge) entries s :
  NoDup entries.*1 → store_wf s →
  (∀ eid e, es !! eid = Some e → EdgeID e = eid ∧ is_Some (cards s !! FromCardID e) ∧
     is_Some (cards s !! ToCardID e)) →
  (∀ n b, (n, b) ∈ entries → HasSuffix n ".json" = true →
     ∃ id e, es !! id = Some e ∧ n = cardFileName id ∧ b = Doc e ∧ edges s !! id = None) →
  ∃ s', load_edges entries s = Ok s' ∧ store_wf s' ∧ cards s' = cards s ∧ disk s' = disk s ∧
    ∀ id, edges s' !! id = if decide (cardFileName id ∈ entries.*1) then es !! id else edges s !! id.
Proof.
  revert s. induction entries as [|[n b] entries IH]; intros s Hnd Hs He Hin; cbn.
  { exists s. do 4 (split; [done|]). intros id. by rewrite decide_False by (apply not_elem_of_nil). }
  apply NoDup_cons in Hnd as [Hn Hnd].
  destruct (HasSuffix n ".json") eqn:Hsuf; cbn.
  - destruct (Hin n b) as (id0 & e & Hl & -> & -> & Hnone); [left|done|].
    destruct (He _ _ Hl) as (Heid & Hf & Ht).
    destruct (IH (add_edge e s)) as (s' & -> & Hs' & Hc & Hd & Hacc).
    { done. }
    { apply add_edge_wf; [done| |done..]. by rewrite Heid. }
    { done. }
    { intros n b Hl' Hsuf'. destruct (Hin n b) as (id & e' & H1 & -> & -> & H2); [by right|done|].
      exists id, e'. split_and!; [done..|]. cbn. rewrite Heid, lookup_insert_ne; [done|].
      intros ->. apply Hn. apply list_elem_of_fmap. by exists (cardFileName id, Doc e'). }
    exists s'. do 4 (split; [done|]). intros id. rewrite Hacc. cbn. rewrite Heid.
    destruct (decide (id = id0)) as [->|Hne].
    + rewrite lookup_insert_eq, Hl. by repeat case_decide; set_solver.
    + rewrite lookup_insert_ne by done.
      assert (cardFileName id ≠ cardFileName id0) by (by rewrite cardFileName_collision_free).
      by repeat case_decide; set_solver.
  - destruct (IH s Hnd Hs He) as (s' & -> & ? & ? & ? & Hacc).
    { intros. apply Hin; [by right|done]. }
    exists s'. do 4 (split; [done|]).
    intros id. rewrite Hacc. assert (cardFileName id ≠ n).
    { intros <-. by rewrite HasSuffix_json in Hsuf. }
    by repeat case_decide; set_solver.
Qed.

(** A disk that holds a well-formed memory loads as that memory. *)
Lemma loadFromDisk_exact d s :
  store_wf s → holds (card_files d) (cards s) → holds (edge_files d) (edges s) →
  ∃ s', loadFromDisk d = Ok s' ∧ cards s' = cards s ∧ edges s' = edges s ∧
    disk s' = Some d ∧ store_wf s'.
Proof.
  intros [Hcs [Hes Hix]] Hc He. unfold loadFromDisk.
  rewrite (load_cards_exact _ (cards s)); [|done|].
  2: { intros id vs Hl. destruct (Hcs _ _ Hl) as (Hne & _ & typ & cr & Hv).
       destruct vs as [|v vs]; [done|]. exists v, vs. split; [done|]. apply (Hv 0%nat v eq_refl). }
  destruct (load_edges_go (edges s) (ReadDir (edge_files d)) (mkStore (cards s) ∅ ∅ (Some d)))
    as (s' & -> & Hs' & Hc' & Hd' & H).
  - apply ReadDir_NoDup.
  - split; [done|]. split; cbn; [intros ? ?; by rewrite lookup_empty|].
    apply NewStore_wf.
  - done.
  - intros n b Hl%ReadDir_elem Hsuf. destruct He as [_ He].
    destruct (He _ _ Hl Hsuf) as (id & e & ? & ? & ?). exists id, e. cbn. by rewrite lookup_empty.
  - exists s'. split_and!; [done|done| |done|done]. apply map_eq. intros id. rewrite H.
    case_decide as Hd; rewrite (holds_file _ (edges s)) in Hd by done; [done|].
    cbn. rewrite lookup_empty. by rewrite <- eq_None_not_Some in Hd.
Qed.

Lemma norm_store_wf s rs : store_wf s → mem rs = norm_mem s → store_wf rs.
Proof.
  intros [Hc [He Hx]] Hm. unfold store_wf. rewrite Hm. unfold norm_mem. split; [|split].
  - intros id vs. rewrite lookup_fmap_Some. intros (vs0 & <- & Hl).
    destruct (Hc _ _ Hl) as (Hne & Hid & typ & cr & Hv).
    split_and!; [by destruct vs0|done|]. exists typ, cr. intros i c.
    rewrite list_lookup_fmap_Some. intros (c0 & -> & Hl0). exact (Hv _ _ Hl0).
  - intros eid e. rewrite lookup_fmap_Some. intros (e0 & <- & Hl).
    destruct (He _ _ Hl) as (? & ? & ?). cbn. rewrite !lookup_fmap, !fmap_is_Some. done.
  - intros cardID eid. rewrite Hx. setoid_rewrite lookup_fmap_Some. split.
    + intros (e & Hl & Hi). exists (edge_norm e). eauto.
    + intros (e & (e0 & <- & Hl) & Hi). exists e0. eauto.
Qed.

(** Every card and edge of the memory can be marshalled. *)
Definition mem_json_ok (s : Store) : Prop :=
  (∀ id vs, cards s !! id = Some vs → forallb card_json_ok vs = true) ∧
  (∀ id e, edges s !! id = Some e → edge_json_ok e = true).

Lemma norm_bodies s rs id :
  mem rs = norm_mem s →
  (is_Some (cards rs !! id) → card_body rs id = cards rs !! id) ∧
  (is_Some (edges rs !! id) → edge_body rs id = edges rs !! id).
Proof.
  intros Hm. injection Hm as Hc He _. unfold card_body, edge_body, versions_of.
  rewrite Hc, He, !lookup_fmap. split.
  - destruct (cards s !! id) as [vs|]; cbn; [|by intros []]. intros _. f_equal.
    rewrite <- list_fmap_compose. apply list_fmap_ext. intros. apply card_norm_idemp.
  - destruct (edges s !! id) as [e|]; cbn; [|by intros []]. intros _. f_equal. apply edge_norm_idemp.
Qed.

(** What the rewriting loops of [RebuildProjections] leave, started from a
    store that holds the replayed memory. *)
Lemma rewrite_loops s rs mc me ordc orde w :
  mem rs = norm_mem s → mem_json_ok rs → reliable w →
  range_of (cards rs) ordc → range_of (edges rs) orde →
  ∃ w', (_ ← forM persistCard ordc; forM persistEdge orde) (with_files mc me rs) w =
    (Ok tt, with_files (foldl (snap (card_body rs)) mc ordc)
              (foldl (snap (edge_body rs)) me orde) rs, w').
Proof.
  intros Hm [Hjc Hje] Hw [_ Hoc] [_ Hoe]. run.
  destruct (forM_reliable persistCard (λ m, with_files m me rs) (snap (card_body rs)) ordc mc w)
    as (w1 & E1 & Hw1); [|done|].
  { intros id m w0 Hin H0. apply persistCard_reliable; [done|].
    apply Hoc, elem_of_dom in Hin as [vs Hl]. unfold versions_of. rewrite Hl. by eapply Hjc. }
  rewrite E1.
  destruct (forM_reliable persistEdge (λ m, with_files (foldl (snap (card_body rs)) mc ordc) m rs)
    (snap (edge_body rs)) orde me w1) as (w2 & E2 & _); [|done|by rewrite E2; eauto].
  intros id m w0 Hin H0. apply Hoe, elem_of_dom in Hin as [e Hl].
  by apply (persistEdge_reliable id e); [|done|eapply Hje].
Qed.

(** [RebuildProjections] on a store [b] whose journal determines the memory of
    [s], whatever the memory and the snapshots of [b] are. *)
Lemma RebuildProjections_run s b d rs ordc orde w :
  disk b = Some d → ReplayFromJournal (journal d) = Ok rs → mem rs = norm_mem s →
  mem_json_ok rs → reliable w →
  range_of (cards rs) ordc → range_of (edges rs) orde →
  ∃ s' w' d', RebuildProjections ordc orde b w = (Ok tt, s', w') ∧ mem s' = mem rs ∧
    disk s' = Some d' ∧ journal d' = journal d ∧
    card_files d' = foldl (snap (card_body rs)) (deletes (card_files d) (json_names (card_files d))) ordc ∧
    edge_files d' = foldl (snap (edge_body rs)) (deletes (edge_files d) (json_names (edge_files d))) orde.
Proof.
  intros Hd Hr Hm Hok Hw Hc He. unfold RebuildProjections.
  destruct (wipe_reliable b d w Hd Hw) as (w1 & E1 & Hw1).
  set (mc := deletes (card_files d) _) in *. set (me := deletes (edge_files d) _) in *.
  set (rb := mkStore (cards rs) (edges rs) (edgesByCard rs) (disk b)).
  destruct (rewrite_loops s rb mc me ordc orde w1) as (w2 & E2); [done..|].
  assert (disk (with_files mc me b) = disk (with_files mc me rb)) as Hdf by done.
  run. rewrite Hd, Hr, E1. rewrite Hdf.
  change (mkStore (cards rs) (edges rs) (edgesByCard rs) (disk (with_files mc me rb)))
    with (with_files mc me rb). rewrite E2.
  eexists _, w2, (mkDisk _ _ (journal d) (enc_err d)). split; [done|].
  unfold rb, with_files, set_disk. cbn. rewrite Hd. cbn. auto 10.
Qed.

(** C1. The journal alone recovers the store. Take any store reached from an
    empty one by mutations - creations, updates and touches of cards, new
    edges, and the versions a decay appends - none of which failed in storage,
    then lose everything but its journal: for arbitrary memory and arbitrary
    (even torn) snapshot files, [RebuildProjections] on a working disk restores
    the memory as JSON reads it back, and reopening the resulting directory
    loads the same cards and edges with an exact edge index. Two conditions on
    the memory: what it holds can be marshalled, and no ID is spelled so that
    its file name of the old scheme is the current file name of another one
    (the snapshots of such a pair overwrite each other). *)
Theorem RebuildProjections_recovers s b d ordc orde w :
  rtc op_step NewPersistent s →
  disk b = Some d → Some (journal d) = fst <$> journal_of s →
  let '(cs, es, _) := norm_mem s in
  mem_json_ok (mkStore cs es ∅ None) → legacy_safe cs → legacy_safe es →
  range_of cs ordc → range_of es orde → reliable w →
  ∃ s' w' d' s2, RebuildProjections ordc orde b w = (Ok tt, s', w') ∧
    mem s' = norm_mem s ∧ disk s' = Some d' ∧ journal d' = journal d ∧
    NewPersistentStore d' = Ok s2 ∧ cards s2 = cs ∧ edges s2 = es ∧ store_wf s2.
Proof.
  intros Hreach Hd Hj. cbn. intros Hok Hsc Hse Hoc Hoe Hw.
  destruct (reachable_complete s Hreach) as [Hwf (lines & rs & Hj' & Hr & Hm)].
  rewrite Hj' in Hj. injection Hj as <-.
  pose proof (norm_store_wf s rs Hwf Hm) as Hwfr. injection Hm as Hc He Hx.
  rewrite <- Hc, <- He in *.
  assert (mem rs = norm_mem s) as Hm by (unfold mem, norm_mem; congruence).
  destruct (RebuildProjections_run s b d rs ordc orde w) as (s' & w' & d' & E & Hm' & Hd' & Hj & Hcf & Hef);
    [done..|].
  destruct (loadFromDisk_exact (mkDisk (card_files d') (edge_files d') (journal d') false) rs)
    as (s2 & E2 & ? & ? & _ & ?); [done| | |].
  - cbn. rewrite Hcf. apply snaps_holds; [done..|by intros; apply (norm_bodies s)|apply wiped_names].
  - cbn. rewrite Hef. apply snaps_holds; [done..|by intros; apply (norm_bodies s)|apply wiped_names].
  - exists s', w', d', s2. rewrite <- Hm. auto 10.
Qed.

(** ** The integrity check *)

Lemma missing_in_nil {A B} (m : gmap string A) (m' : gmap string B) ord :
  range_of m' ord → missing_in m ord = [] ↔ dom m' ⊆ dom m.
Proof.
  intros [_ Ho]. unfold missing_in. rewrite filter_nil_iff. split.
  - intros H k Hk%Ho. specialize (H k Hk). apply elem_of_dom.
    destruct (m !! k); [eauto|done].
  - intros H k Hk%Ho Hn. apply H, elem_of_dom in Hk as [? Hk]. congruence.
Qed.

(** The loops of a [VerifyIntegrity] call visit every key once. *)
Definition ranges_ok (ord : Ranges) (live replayed : Store) : Prop :=
  range_of (cards replayed) (replayed_cards ord) ∧ range_of (cards live) (live_cards ord) ∧
  range_of (edges replayed) (replayed_edges ord) ∧ range_of (edges live) (live_edges ord).

Lemma VerifyIntegrity_run ord s d rs :
  disk s = Some d → ReplayFromJournal (journal d) = Ok rs → ranges_ok ord s rs →
  ∃ report, VerifyIntegrity ord s = Ok report ∧
    (ir_OK report = true ↔
       (∀ id, length <$> cards s !! id = length <$> cards rs !! id) ∧
       dom (edges s) = dom (edges rs)).
Proof.
  intros Hd Hr (H1 & H2 & H3 & H4). unfold VerifyIntegrity. rewrite Hd, Hr.
  eexists. split; [done|]. cbn [ir_OK]. rewrite bool_decide_eq_true.
  rewrite (missing_in_nil (cards s) _ _ H1), (missing_in_nil (cards rs) _ _ H2),
    (missing_in_nil (edges s) _ _ H3), (missing_in_nil (edges rs) _ _ H4).
  rewrite filter_nil_iff. split.
  - intros (Hm & Hx & Hl & Hme & Hxe). split; [|set_solver]. intros id.
    destruct (cards s !! id) as [vs|] eqn:E1, (cards rs !! id) as [vs'|] eqn:E2; cbn.
    + f_equal. destruct (decide (length vs = length vs')) as [|Hne]; [done|].
      destruct (Hl id); [apply H1, elem_of_dom; eauto|]. unfold versions_of. rewrite E1, E2. eauto.
    + apply elem_of_dom_2, Hx, elem_of_dom in E1 as [? ?]. congruence.
    + apply elem_of_dom_2, Hm, elem_of_dom in E2 as [? ?]. congruence.
    + done.
  - intros [Hl He]. assert (∀ id, is_Some (cards s !! id) ↔ is_Some (cards rs !! id)) as Hdom.
    { intros id. specialize (Hl id). by destruct (cards s !! id), (cards rs !! id). }
    split_and!; [..|set_solver|set_solver].
    + intros id. rewrite !elem_of_dom. apply Hdom.
    + intros id. rewrite !elem_of_dom. apply Hdom.
    + intros id Hin [_ Hne]. apply Hne. specialize (Hl id). unfold versions_of.
      destruct (cards s !! id), (cards rs !! id); cbn in *; congruence.
Qed.

(** What the integrity check decides, exactly: a persistent store passes
    if and only if the journal replays to the same set of card IDs, the same
    number of versions of each card, and the same set of edge IDs. Card
    contents, statuses and edge fields are not compared. *)
Theorem VerifyIntegrity_exact ord s d rs :
  disk s = Some d → ReplayFromJournal (journal d) = Ok rs → ranges_ok ord s rs →
  ∃ report, VerifyIntegrity ord s = Ok report ∧
    (ir_OK report = true ↔
       (∀ id, length <$> cards s !! id = length <$> cards rs !! id) ∧
       dom (edges s) = dom (edges rs)).
Proof. apply VerifyIntegrity_run. Qed.

Lemma norm_ranges s rs :
  mem rs = norm_mem s →
  (∀ id, length <$> cards s !! id = length <$> cards rs !! id) ∧ dom (edges s) = dom (edges rs).
Proof.
  intros Hm. injection Hm as Hc He _. rewrite Hc, He. split; [|by rewrite dom_fmap_L].
  intros id. rewrite lookup_fmap. destruct (cards s !! id) as [vs|]; cbn; [|done].
  by rewrite length_fmap.
Qed.

Lemma reachable_disk s :
  rtc op_step NewPersistent s →
  ∃ d rs, disk s = Some d ∧ ReplayFromJournal (journal d) = Ok rs ∧ mem rs = norm_mem s.
Proof.
  intros Hreach. destruct (reachable_complete s Hreach) as [_ (lines & rs & Hj & Hr & Hm)].
  unfold journal_of in Hj. destruct (disk s) as [d|]; [|done]. injection Hj as <- _. eauto.
Qed.

(** A store whose storage never failed always passes its own integrity
    check: after any sequence of mutations the journal on disk replays, and to
    a store that agrees with the live memory. *)
Theorem VerifyIntegrity_reachable ord s :
  rtc op_step NewPersistent s →
  ∃ d rs, disk s = Some d ∧ ReplayFromJournal (journal d) = Ok rs ∧ mem rs = norm_mem s ∧
    (ranges_ok ord s rs → ∃ report, VerifyIntegrity ord s = Ok report ∧ ir_OK report = true).
Proof.
  intros Hreach. destruct (reachable_disk s Hreach) as (d & rs & Hd & Hr & Hm).
  exists d, rs. split_and!; [done..|]. intros Ho.
  destruct (VerifyIntegrity_run ord s d rs Hd Hr Ho) as (report & E & Hiff).
  exists report. split; [done|]. by apply Hiff, norm_ranges.
Qed.

(** *** A persistent store for the witnesses *)

Lemma op_step_exec op s w :
  is_ok (run_op op s w).1.1 = true → op_step s (exec (run_op op) s w).
Proof.
  intros H. unfold exec. destruct (run_op op s w) as [[r s'] w'] eqn:E.
  exists (ByRequest op), w, r, w'. split; [done|]. split; [exact E|]. intros e ->. done.
Qed.

Definition demo_ops : list StoreOp :=
  [OpCreate (demo_request "card:a" ""); OpCreate (demo_request "card:b" CardStatusCandidate);
   OpEdge (mkCreateEdgeRequest "edge:1" "card:a" "card:b" "supports" f1 f1 None None None);
   OpUpdate "card:a" (status_update CardStatusStale);
   OpTouch "card:b" (lit 1 10) f0].
Definition run_ops (w : World) : Store → list StoreOp → Store :=
  foldl (λ s op, exec (run_op op) s w).
Fixpoint ops_ok (w : World) (s : Store) (ops : list StoreOp) : bool :=
  match ops with
  | [] => true
  | op :: rest => is_ok (run_op op s w).1.1 && ops_ok w (exec (run_op op) s w) rest
  end.
Definition demo_persistent : Store := run_ops world0 NewPersistent demo_ops.

Lemma run_ops_reach w s ops : ops_ok w s ops = true → rtc op_step s (run_ops w s ops).
Proof.
  revert s. induction ops as [|op ops IH]; intros s; cbn; [intros _; apply rtc_refl|].
  intros [H1 H2]%andb_true_iff. eapply rtc_l; [by apply op_step_exec|]. by apply IH.
Qed.

Lemma demo_persistent_reach : rtc op_step NewPersistent demo_persistent.
Proof.
  apply run_ops_reach. vm_compute. reflexivity.
Qed.

(** The same directory after its snapshots were torn or lost. *)
Definition torn_disk : Disk := mkDisk {[cardFileName "card:a" := Torn]} ∅
  (default [] (journal <$> disk demo_persistent)) false.
Definition torn_store : Store := mkStore ∅ ∅ ∅ (Some torn_disk).

Lemma legacy_safe_bool {A} (m : gmap string A) ids :
  bool_decide (dom m = list_to_set ids) = true →
  forallb (λ id, forallb (λ id', bool_decide (legacyMemoryFileName id = cardFileName id' → id = id')) ids) ids = true →
  legacy_safe m.
Proof.
  intros Hd%bool_decide_eq_true H id id' Hi Hi'.
  rewrite <- elem_of_dom, Hd, elem_of_list_to_set in Hi, Hi'.
  rewrite forallb_forall in H. specialize (H id). rewrite <- list_elem_of_In in H. specialize (H Hi).
  rewrite forallb_forall in H. specialize (H id'). rewrite <- list_elem_of_In in H.
  by apply (bool_decide_eq_true_1 _ (H Hi')).
Qed.

(** A live store that lost a version of a card. *)
Definition short_store : Store := set_cards (alter (take 1) "card:a") demo_persistent.

Lemma disk_set_cards f s : disk (set_cards f s) = disk s.
Proof. reflexivity. Qed.
Lemma edges_set_cards f s : edges (set_cards f s) = edges s.
Proof. reflexivity. Qed.
Lemma short_disk : disk short_store = disk demo_persistent.
Proof. unfold short_store. apply disk_set_cards. Qed.
Lemma short_edges : edges short_store = edges demo_persistent.
Proof. unfold short_store. apply edges_set_cards. Qed.

Lemma mem_json_ok_bool s :
  forallb (λ kv, forallb card_json_ok kv.2) (map_to_list (cards s)) = true →
  forallb (λ kv, edge_json_ok kv.2) (map_to_list (edges s)) = true →
  mem_json_ok s.
Proof.
  rewrite !forallb_forall. intros Hc He. split; intros id x Hl%elem_of_map_to_list%list_elem_of_In.
  - exact (Hc _ Hl).
  - exact (He _ Hl).
Qed.

Lemma RebuildProjections_recovers_witness :
  ∃ s' w' d' s2,
    RebuildProjections ["card:b"; "card:a"] ["edge:1"] torn_store world0 = (Ok tt, s', w') ∧
    disk s' = Some d' ∧ NewPersistentStore d' = Ok s2 ∧
    cards s2 = (norm_mem demo_persistent).1.1 ∧ store_wf s2.
Proof.
  pose proof (RebuildProjections_recovers demo_persistent torn_store torn_disk
    ["card:b"; "card:a"] ["edge:1"] world0 demo_persistent_reach eq_refl) as H.
  cbn [norm_mem] in H.
  destruct H as (s' & w' & d' & s2 & ? & _ & ? & _ & ? & ? & _ & ?).
  - vm_compute; reflexivity.
  - apply mem_json_ok_bool; vm_compute; reflexivity.
  - apply (legacy_safe_bool _ ["card:a"; "card:b"]); vm_compute; reflexivity.
  - apply (legacy_safe_bool _ ["edge:1"]); vm_compute; reflexivity.
  - apply range_of_bool; vm_compute; reflexivity.
  - apply range_of_bool; vm_compute; reflexivity.
  - done.
  - exists s', w', d', s2. auto.
Defined.

Definition demo_orders : Ranges :=
  mkRanges ["card:a"; "card:b"] ["card:b"; "card:a"] ["edge:1"] ["edge:1"].

Lemma demo_ranges live rs :
  cards live = cards short_store ∨ cards live = cards demo_persistent →
  edges live = edges demo_persistent → mem rs = norm_mem demo_persistent →
  ranges_ok demo_orders live rs.
Proof.
  intros Hl Hle Hm.
  assert (cards rs = (norm_mem demo_persistent).1.1) as Hc by (by rewrite <- Hm).
  assert (edges rs = (norm_mem demo_persistent).1.2) as He by (by rewrite <- Hm).
  unfold ranges_ok. rewrite Hc, He, Hle. split_and!.
  2: destruct Hl as [-> | ->]. all: apply range_of_bool; vm_compute; reflexivity.
Qed.

Lemma VerifyIntegrity_reachable_witness :
  ∃ report, VerifyIntegrity demo_orders demo_persistent = Ok report ∧ ir_OK report = true.
Proof.
  destruct (VerifyIntegrity_reachable demo_orders demo_persistent demo_persistent_reach)
    as (d & rs & Hd & Hr & Hm & H).
  apply H, demo_ranges; [right; reflexivity|reflexivity|exact Hm].
Defined.

Lemma VerifyIntegrity_exact_witness :
  ∃ report, VerifyIntegrity demo_orders short_store = Ok report ∧ ir_OK report ≠ true.
Proof.
  destruct (reachable_disk demo_persistent demo_persistent_reach) as (d & rs & Ed & Hr & Hm).
  assert (disk short_store = Some d) as Ed' by (by rewrite short_disk).
  destruct (VerifyIntegrity_exact demo_orders short_store d rs Ed' Hr) as (report & E & Hiff).
  { apply demo_ranges; [left; reflexivity|exact short_edges|exact Hm]. }
  exists report. split; [done|]. rewrite Hiff. intros [H _]. specialize (H "card:a").
  assert (cards rs = (norm_mem demo_persistent).1.1) as Hc by (by rewrite <- Hm).
  rewrite Hc in H. vm_compute in H. discriminate H.
Defined.
