(* ===== verification/Governance.v ===== *)
(** * Decay and compaction ([internal/memory/governance.go])

    The time-based decay of active and stale cards: the per-card decision as a
    pure function, the loop of [DecayAndCompact] over the card map, and the
    theorem that the loop applies the decision to every card exactly once,
    whatever order the map is visited in. *)
From S2P Require Import Prelude GoStrings GoNum MemoryTypes MemoryStore.
Open Scope Z_scope.

Record GovernanceOptions := mkGovernanceOptions {
  BaseDecayRate : float64; StaleThreshold : float64; ArchiveThreshold : float64;
  go_Now : Time }.

Record GarbageCollectionResult := mkGCResult {
  Examined : Z; Decayed : Z; Staled : Z; Archived : Z }.

(** The defaulting of the options, [opts.Now] aside. *)
Definition or_default (x d : float64) : float64 := if fle x f0 then d else x.
Definition with_defaults (opts : GovernanceOptions) (t : Time) : GovernanceOptions :=
  mkGovernanceOptions (or_default (BaseDecayRate opts) (lit 5 100))
    (or_default (StaleThreshold opts) (lit 5 10))
    (or_default (ArchiveThreshold opts) (lit 1 10)) t.

(** Cards the loop passes over without examining them. *)
Definition skipped (card : Card) : bool :=
  bool_decide (Status card ∈ [CardStatusArchived; CardStatusSuperseded; CardStatusCandidate]).

Definition decay_rate (opts : GovernanceOptions) (policy : string) : float64 :=
  if decide (policy = "session_use") then fmul (BaseDecayRate opts) (of_int 5)
  else if decide (policy = "durable") then fmul (BaseDecayRate opts) (lit 2 10)
  else if decide (policy = "never") then f0
  else BaseDecayRate opts.

(** The card appended by a decay. *)
Definition decayedCard (latest : Card) (newScore : float64) (newStatus : string) (t : Time) : Card :=
  mkCard (CardID latest) (CardType latest) (Scope latest) (CreatedAt latest)
    (ValidFrom latest) (ValidTo latest)
    (wrap64 (Version latest + 1)) (prevVersionID latest) newStatus (Supersedes latest)
    (card_Content latest) (EvidenceRefs latest) (card_Provenance latest)
    (mkActivation newScore (LastAccessAt (Activation latest)) (Some t)
       (DecayPolicy (Activation latest))).

(** The decision for one examined card: the version to append, if any. *)
Definition decay_card (opts : GovernanceOptions) (latest : Card) : option Card :=
  let lastEval := match LastEvaluatedAt (Activation latest) with
    | Some t => t | None => CreatedAt latest end in
  let hoursSinceEval := Hours (Sub (go_Now opts) lastEval) in
  if fle hoursSinceEval f0 then None else
  let rate := decay_rate opts (DecayPolicy (Activation latest)) in
  let decayAmount := fmul hoursSinceEval rate in
  if fle decayAmount (lit 1 1000) && flt f0 rate then None else
  let newScore := clampUnit (fsub (Score (Activation latest)) decayAmount) in
  let newStatus :=
    if flt newScore (ArchiveThreshold opts) && bool_decide (Status latest = CardStatusStale)
    then CardStatusArchived
    else if flt newScore (StaleThreshold opts) && bool_decide (Status latest = CardStatusActive)
    then CardStatusStale
    else Status latest in
  if flt newScore (Score (Activation latest)) || bool_decide (newStatus ≠ Status latest)
  then Some (decayedCard latest newScore newStatus (go_Now opts)) else None.

(** The counters after a card was examined, with the version it got. *)
Definition count_card (latest : Card) (updated : option Card) (r : GarbageCollectionResult)
    : GarbageCollectionResult :=
  match updated with
  | None => mkGCResult (Examined r + 1) (Decayed r) (Staled r) (Archived r)
  | Some c =>
      let changed := bool_decide (Status c ≠ Status latest) in
      mkGCResult (Examined r + 1) (Decayed r + 1)
        (if changed && bool_decide (Status c = CardStatusStale) then Staled r + 1 else Staled r)
        (if changed && bool_decide (Status c = CardStatusArchived) then Archived r + 1 else Archived r)
  end.

(** The loop over [s.cards], visited in the order of the list. A storage
    error ends it and is returned with the counters reached so far. *)
Fixpoint decay_loop (opts : GovernanceOptions) (r : GarbageCollectionResult) (ids : list string)
    : M Store (GarbageCollectionResult * option error) :=
  match ids with
  | [] => mret (r, None)
  | cardID :: rest =>
      s ← get;
      match last (versions_of s cardID) with
      | None => decay_loop opts r rest
      | Some latest =>
          if skipped latest then decay_loop opts r rest else
          match decay_card opts latest with
          | None => decay_loop opts (count_card latest None r) rest
          | Some updated =>
              let r' := count_card latest (Some updated) r in
              res ← try (appendVersion "decay_applied" cardID updated);
              match res with
              | Ok _ => decay_loop opts r' rest
              | Err e => mret (r', Some e)
              end
          end
      end
  end.

Definition DecayAndCompact (ord : list string) (opts : GovernanceOptions)
    : M Store (GarbageCollectionResult * option error) :=
  t ← (if IsZero (go_Now opts) then now else mret (go_Now opts));
  decay_loop (with_defaults opts t) (mkGCResult 0 0 0 0) ord.

(** ** The decision *)

(** The version a run appends to the versions [vs], if any. *)
Definition decay_of (opts : GovernanceOptions) (vs : list Card) : option Card :=
  latest ← last vs;
  if skipped latest then None else decay_card opts latest.
#[local] Arguments decay_of : simpl never.

Lemma decay_card_Some opts latest c :
  decay_card opts latest = Some c →
  ∃ newScore newStatus, c = decayedCard latest newScore newStatus (go_Now opts) ∧
    (newStatus = Status latest ∧ flt newScore (Score (Activation latest)) = true ∨
     Status latest = CardStatusActive ∧ newStatus = CardStatusStale
       ∧ flt newScore (StaleThreshold opts) = true ∨
     Status latest = CardStatusStale ∧ newStatus = CardStatusArchived
       ∧ flt newScore (ArchiveThreshold opts) = true).
Proof.
  unfold decay_card. destruct (fle _ f0); [done|]. destruct (_ && flt f0 _); [done|].
  set (newScore := clampUnit _).
  match goal with |- context [if ?b then CardStatusArchived else ?e] =>
    set (newStatus := if b then CardStatusArchived else e) end.
  destruct (_ || _) eqn:Hor; [|done]. intros [= <-]. exists newScore, newStatus.
  split; [done|]. unfold newStatus in *.
  destruct (flt newScore (ArchiveThreshold opts) && _) eqn:Ha.
  { apply andb_true_iff in Ha as [? ?%bool_decide_eq_true]. auto 10. }
  destruct (flt newScore (StaleThreshold opts) && _) eqn:Hs.
  { apply andb_true_iff in Hs as [? ?%bool_decide_eq_true]. auto 10. }
  left. split; [done|]. rewrite bool_decide_false in Hor by (by intros []). by rewrite orb_false_r in Hor.
Qed.

Lemma decay_card_next opts latest c :
  NormalizeCardStatus (Status latest) = Status latest → Status latest ≠ "" →
  decay_card opts latest = Some c → next_version latest c.
Proof.
  intros Hn He (sc & st & -> & H)%decay_card_Some.
  unfold next_version. cbn. by destruct H as [[-> _]|[(_ & -> & _)|(_ & -> & _)]].
Qed.

Lemma decay_of_next opts s id c :
  store_wf s → decay_of opts (versions_of s id) = Some c →
  ∃ latest, last (versions_of s id) = Some latest ∧ next_version latest c.
Proof.
  intros Hs. unfold decay_of. destruct (last _) as [latest|] eqn:El; [|done]. cbn.
  destruct (skipped latest); [done|]. intros Hd. exists latest. split; [done|].
  destruct (versions_of_last _ _ _ Hs El) as (_ & _ & ? & ? & _). by eapply decay_card_next.
Qed.

(** ** The loop *)

(** What a run that met no storage error leaves of the card map and adds to
    the counters, card by card. *)
Definition decayed_cards (opts : GovernanceOptions) (ids : list string)
    (cs : gmap string (list Card)) : gmap string (list Card) :=
  map_imap (λ id vs, Some (if decide (id ∈ ids) then
    match decay_of opts vs with Some c => vs ++ [c] | None => vs end else vs)) cs.

Definition tally_card (opts : GovernanceOptions) (vs : list Card) (r : GarbageCollectionResult) :=
  match last vs with
  | Some latest => if skipped latest then r else count_card latest (decay_card opts latest) r
  | None => r
  end.

Lemma decayed_cards_lookup opts ids cs id :
  decayed_cards opts ids cs !! id =
  (λ vs, if decide (id ∈ ids) then match decay_of opts vs with Some c => vs ++ [c] | None => vs end
         else vs) <$> cs !! id.
Proof. unfold decayed_cards. rewrite map_lookup_imap. by destruct (cs !! id). Qed.

Lemma decay_of_nonempty opts s id c :
  decay_of opts (versions_of s id) = Some c → is_Some (cards s !! id).
Proof. unfold decay_of, versions_of. by destruct (cards s !! id). Qed.

(** One turn of the loop that appends nothing leaves the specification alone. *)
Lemma decayed_cards_skip opts id ids cs :
  decay_of opts (default [] (cs !! id)) = None →
  decayed_cards opts (id :: ids) cs = decayed_cards opts ids cs.
Proof.
  intros H. apply map_eq. intros k. rewrite !decayed_cards_lookup.
  destruct (cs !! k) as [vs|] eqn:E; [|done]. cbn. f_equal.
  destruct (decide (k = id)) as [->|]; [|by repeat case_decide; set_solver].
  rewrite E in H. cbn in H. rewrite H. by repeat case_decide.
Qed.

Lemma decayed_cards_step opts id ids cs c :
  id ∉ ids → decay_of opts (default [] (cs !! id)) = Some c →
  decayed_cards opts ids (<[id := default [] (cs !! id) ++ [c]]> cs) = decayed_cards opts (id :: ids) cs.
Proof.
  intros Hn H. apply map_eq. intros k. rewrite !decayed_cards_lookup.
  destruct (decide (k = id)) as [->|Hne].
  - rewrite lookup_insert_eq. destruct (cs !! id) as [vs|] eqn:E; [|done]. cbn in *. f_equal.
    rewrite decide_False, decide_True by set_solver. by rewrite H.
  - rewrite lookup_insert_ne by done. destruct (cs !! k); [|done]. cbn. f_equal.
    by repeat case_decide; set_solver.
Qed.

Lemma foldl_tally_frame opts ids (cs : gmap string (list Card)) id vs r :
  id ∉ ids →
  foldl (λ r k, tally_card opts (default [] (<[id := vs]> cs !! k)) r) r ids =
  foldl (λ r k, tally_card opts (default [] (cs !! k)) r) r ids.
Proof.
  revert r. induction ids as [|k ids IH]; intros r Hn; [done|]. cbn.
  rewrite lookup_insert_ne by set_solver. apply IH. set_solver.
Qed.

Lemma decay_loop_exact opts ids r s w r' s' w' :
  NoDup ids → decay_loop opts r ids s w = (Ok (r', None), s', w') →
  mem s' = (decayed_cards opts ids (cards s), edges s, edgesByCard s) ∧
  r' = foldl (λ r k, tally_card opts (versions_of s k) r) r ids.
Proof.
  revert r s w. induction ids as [|id ids IH]; intros r s w Hnd; cbn.
  { intros [= <- <- <-]. split; [|done]. unfold mem. f_equal. f_equal.
    apply map_eq. intros k. rewrite decayed_cards_lookup. destruct (cards s !! k); [|done].
    cbn. by rewrite decide_False by (apply not_elem_of_nil). }
  apply NoDup_cons in Hnd as [Hn Hnd]. run.
  unfold tally_card at 2. pose proof (eq_refl (decay_of opts (versions_of s id))) as Hdo.
  unfold decay_of at 2 in Hdo. destruct (last (versions_of s id)) as [latest|]; cbn in Hdo.
  2: { intros E. rewrite decayed_cards_skip by exact Hdo. by eapply IH. }
  destruct (skipped latest).
  { intros E. rewrite decayed_cards_skip by exact Hdo. by eapply IH. }
  destruct (decay_card opts latest) as [c|].
  2: { intros E. rewrite decayed_cards_skip by exact Hdo. by eapply IH. }
  destruct (appendVersion_run "decay_applied" id c s w) as (res & s1 & w1 & -> & Hm & _).
  destruct res as [c'|e]; [|done]. intros E.
  destruct (IH _ _ _ Hnd E) as [Hm' ->]. injection Hm as Hc He Hx. split.
  - rewrite Hm', Hc, He, Hx. do 2 f_equal. apply decayed_cards_step; [done|exact Hdo].
  - unfold versions_of. rewrite Hc. by apply foldl_tally_frame.
Qed.

Lemma decay_loop_preserves opts r ids : preserves store_wf (decay_loop opts r ids).
Proof.
  revert r. induction ids as [|id ids IH]; intros r; [apply preserves_ret|]. cbn.
  intros s w Hs. run. destruct (last (versions_of s id)) as [latest|] eqn:El; [|by apply IH].
  destruct (skipped latest); [by apply IH|].
  destruct (decay_card opts latest) as [c|] eqn:Ed; [|by apply IH].
  destruct (appendVersion_run "decay_applied" id c s w) as (res & s1 & w1 & -> & Hm & _).
  assert (store_wf s1) as Hs1.
  { unfold store_wf. rewrite Hm. destruct (versions_of_last _ _ _ Hs El) as (_ & _ & ? & ? & _).
    eapply append_version_wf; [done..|]. by eapply decay_card_next. }
  destruct res; [by apply IH|done].
Qed.

Lemma DecayAndCompact_preserves ord opts : preserves store_wf (DecayAndCompact ord opts).
Proof.
  unfold DecayAndCompact. apply preserves_bind; [destruct (IsZero _); auto with hoare|].
  intros. apply decay_loop_preserves.
Qed.
#[export] Hint Resolve DecayAndCompact_preserves : hoare.

Lemma DecayAndCompact_run ord opts s w r s' w' :
  NoDup ord → DecayAndCompact ord opts s w = (Ok (r, None), s', w') →
  let opts' := with_defaults opts (if IsZero (go_Now opts) then clock w (tick w) else go_Now opts) in
  mem s' = (decayed_cards opts' ord (cards s), edges s, edgesByCard s) ∧
  r = foldl (λ r k, tally_card opts' (versions_of s k) r) (mkGCResult 0 0 0 0) ord.
Proof.
  intros Hnd. unfold DecayAndCompact. destruct (IsZero (go_Now opts)); run; cbn.
  all: intros E; by apply (decay_loop_exact _ _ _ _ _ _ _ _ Hnd E).
Qed.

(** An in-memory store has no storage to fail. *)
Lemma decay_loop_memory opts r ids s w :
  disk s = None → ∃ r' s' w', decay_loop opts r ids s w = (Ok (r', None), s', w').
Proof.
  revert r s w. induction ids as [|id ids IH]; intros r s w Hd; cbn; [by eexists _, _, _|].
  run. destruct (last _) as [latest|]; [|by apply IH].
  destruct (skipped latest); [by apply IH|].
  destruct (decay_card opts latest) as [c|]; [|by apply IH].
  destruct (appendVersion_run "decay_applied" id c s w) as (res & s1 & w1 & -> & _ & Hp & Hc).
  assert (persistent s = false) as Hns by (unfold persistent; by rewrite Hd).
  destruct Hc as [->|(e & _ & _ & Hs)]; [|congruence].
  apply IH. rewrite Hns in Hp. unfold persistent in Hp. by destruct (disk s1).
Qed.

Lemma count_card_comm l1 u1 l2 u2 r :
  count_card l1 u1 (count_card l2 u2 r) = count_card l2 u2 (count_card l1 u1 r).
Proof.
  unfold count_card. destruct u1 as [c1|], u2 as [c2|]; cbn; try done.
  all: repeat match goal with |- context [if ?b then _ else _] => destruct b end; f_equal; lia.
Qed.

Lemma tally_comm opts vs1 vs2 r :
  tally_card opts vs1 (tally_card opts vs2 r) = tally_card opts vs2 (tally_card opts vs1 r).
Proof.
  unfold tally_card. destruct (last vs1) as [l1|], (last vs2) as [l2|]; try done.
  destruct (skipped l1), (skipped l2); try done. apply count_card_comm.
Qed.

Lemma tally_Permutation opts s ord1 ord2 r :
  ord1 ≡ₚ ord2 →
  foldl (λ r k, tally_card opts (versions_of s k) r) r ord1 =
  foldl (λ r k, tally_card opts (versions_of s k) r) r ord2.
Proof.
  intros Hp. revert r. induction Hp as [|x l k _ IH|x y l|l k m _ IH1 _ IH2]; intros r; cbn; auto.
  - by rewrite tally_comm.
  - by rewrite IH1.
Qed.

(** The status changes a decay may make. *)
Definition decay_transition (opts : GovernanceOptions) (latest c : Card) : Prop :=
  Status c = Status latest ∧ flt (Score (Activation c)) (Score (Activation latest)) = true ∨
  Status latest = CardStatusActive ∧ Status c = CardStatusStale ∧
    flt (Score (Activation c)) (StaleThreshold opts) = true ∨
  Status latest = CardStatusStale ∧ Status c = CardStatusArchived ∧
    flt (Score (Activation c)) (ArchiveThreshold opts) = true.

(** C12. One decay run, exactly: unless a storage error stops it, every card
    gains at most one version, the one its own latest version calls for, and
    edges are untouched. A decay lowers the score, or moves the card one step
    along active, stale, archived because the score fell under that step's
    threshold; it never touches a candidate, superseded or archived card. *)
Theorem DecayAndCompact_exact ord opts s w r s' w' :
  range_of (cards s) ord → DecayAndCompact ord opts s w = (Ok (r, None), s', w') →
  let opts' := with_defaults opts (if IsZero (go_Now opts) then clock w (tick w) else go_Now opts) in
  (∀ id, versions_of s' id = versions_of s id ++ option_list (decay_of opts' (versions_of s id))) ∧
  edges s' = edges s ∧
  (∀ id c, decay_of opts' (versions_of s id) = Some c →
     ∃ latest, last (versions_of s id) = Some latest ∧ skipped latest = false ∧
       decay_transition opts' latest c).
Proof.
  intros [Hnd Hord] E opts'. destruct (DecayAndCompact_run _ _ _ _ _ _ _ Hnd E) as [Hm _].
  injection Hm as Hc He _. split_and!; [|done|].
  - intros id. unfold versions_of. rewrite Hc, decayed_cards_lookup.
    destruct (cards s !! id) as [vs|] eqn:El; cbn; [|done].
    rewrite decide_True by (apply Hord; by apply elem_of_dom_2 in El).
    fold opts'. destruct (decay_of opts' vs); cbn; [done|]. by rewrite app_nil_r.
  - intros id c. unfold decay_of. destruct (last _) as [latest|]; [|done]. cbn.
    destruct (skipped latest) eqn:Hsk; [done|]. intros Hd. exists latest. split_and!; [done|done|].
    apply decay_card_Some in Hd as (sc & st & -> & H). unfold decay_transition. cbn. naive_solver.
Qed.

Definition demo_gc : GovernanceOptions :=
  mkGovernanceOptions f0 f0 f0 (1700000000 * Second + 20 * Hour).
Definition gc_ord : list string := ["card:b"; "card:a"].

Lemma demo_gc_run :
  ∃ r s' w', DecayAndCompact gc_ord demo_gc demo_store world0 = (Ok (r, None), s', w').
Proof.
  destruct (decay_loop_memory (with_defaults demo_gc (go_Now demo_gc)) (mkGCResult 0 0 0 0)
    gc_ord demo_store world0) as (r & s' & w' & E); [reflexivity|].
  exists r, s', w'. exact E.
Qed.

Lemma DecayAndCompact_exact_witness :
  ∃ r s' w', DecayAndCompact gc_ord demo_gc demo_store world0 = (Ok (r, None), s', w') ∧
    (Status <$> last (versions_of s' "card:a")) = Some CardStatusStale ∧
    (Status <$> last (versions_of s' "card:b")) = Some CardStatusCandidate.
Proof.
  destruct demo_gc_run as (r & s' & w' & E). exists r, s', w'. split; [exact E|].
  destruct (DecayAndCompact_exact gc_ord demo_gc demo_store world0 r s' w') as (H & _).
  - apply demo_range. apply perm_swap.
  - exact E.
  - rewrite !H. split; vm_compute; reflexivity.
Defined.

(** Garbage collection is deterministic: two runs that visit the card map
    in different orders leave the same cards and report the same counters. *)
Theorem DecayAndCompact_deterministic ord1 ord2 opts s w r1 s1 w1 r2 s2 w2 :
  range_of (cards s) ord1 → range_of (cards s) ord2 →
  DecayAndCompact ord1 opts s w = (Ok (r1, None), s1, w1) →
  DecayAndCompact ord2 opts s w = (Ok (r2, None), s2, w2) →
  mem s1 = mem s2 ∧ r1 = r2.
Proof.
  intros H1 H2 E1 E2.
  destruct (DecayAndCompact_run _ _ _ _ _ _ _ (proj1 H1) E1) as [-> ->].
  destruct (DecayAndCompact_run _ _ _ _ _ _ _ (proj1 H2) E2) as [-> ->]. split.
  - do 2 f_equal. apply map_eq. intros id. rewrite !decayed_cards_lookup.
    destruct (cards s !! id) as [vs|] eqn:El; [|done]. cbn.
    apply elem_of_dom_2 in El.
    rewrite !decide_True; [done|by apply H2|by apply H1].
  - by apply tally_Permutation, (range_of_Permutation (cards s)).
Qed.

Lemma DecayAndCompact_deterministic_witness :
  ∃ r1 s1 w1 r2 s2 w2,
    DecayAndCompact gc_ord demo_gc demo_store world0 = (Ok (r1, None), s1, w1) ∧
    DecayAndCompact (rev gc_ord) demo_gc demo_store world0 = (Ok (r2, None), s2, w2) ∧
    mem s1 = mem s2 ∧ r1 = r2.
Proof.
  destruct demo_gc_run as (r1 & s1 & w1 & E1).
  destruct (decay_loop_memory (with_defaults demo_gc (go_Now demo_gc)) (mkGCResult 0 0 0 0)
    (rev gc_ord) demo_store world0) as (r2 & s2 & w2 & E2); [reflexivity|].
  exists r1, s1, w1, r2, s2, w2. split; [exact E1|]. split; [exact E2|].
  eapply DecayAndCompact_deterministic; [apply demo_range..|exact E1|exact E2].
  - apply perm_swap.
  - reflexivity.
Defined.
