(* ===== verification/Consolidator.v ===== *)
(** * Candidate promotion ([internal/memory/consolidator.go]) *)
From S2P Require Import Prelude GoStrings GoNum MemoryTypes MemoryStore.
Open Scope Z_scope.

Record ConsolidateRequest := mkConsolidateRequest {
  cr_CardType : string; cr_Scope : string; Limit : Z; ArchiveRemaining : bool }.

Record ConsolidateResult := mkConsolidateResult {
  cs_Examined : Z; Promoted : Z; Superseded : Z; cs_Archived : Z;
  PromotedCards : list string; SupersededCards : list string; ArchivedCards : list string }.

(** Oldest first, ties by card ID. *)
Definition oldest_first (a b : Card) : Prop :=
  CreatedAt a < CreatedAt b ∨ (CreatedAt a = CreatedAt b ∧ String.le (CardID a) (CardID b)).
#[export] Instance oldest_first_dec : RelDecision oldest_first.
Proof. intros a b. unfold oldest_first. apply _. Defined.

#[export] Instance oldest_first_total : Total oldest_first.
Proof.
  intros a b. unfold oldest_first.
  destruct (decide (CreatedAt a = CreatedAt b)) as [->|]; [|lia].
  destruct (total String.le (CardID a) (CardID b)); auto.
Qed.
#[export] Instance oldest_first_trans : Transitive oldest_first.
Proof.
  intros a b c [|[E1 H1]] [|[E2 H2]]; unfold oldest_first; [left; lia..|].
  right. split; [congruence|]. by trans (CardID b).
Qed.

(** The request that promotes a candidate. *)
Definition promotion (card : Card) : UpdateCardRequest :=
  mkUpdateCardRequest (card_Content card) (Scope card) None None CardStatusActive ""
    (EvidenceRefs card) (card_Provenance card).

Definition add_promoted (id : string) (r : ConsolidateResult) : ConsolidateResult :=
  mkConsolidateResult (cs_Examined r) (Promoted r + 1) (Superseded r) (cs_Archived r)
    (PromotedCards r ++ [id]) (SupersededCards r) (ArchivedCards r).
Definition add_superseded (id : string) (r : ConsolidateResult) : ConsolidateResult :=
  mkConsolidateResult (cs_Examined r) (Promoted r) (Superseded r + 1) (cs_Archived r)
    (PromotedCards r) (SupersededCards r ++ [id]) (ArchivedCards r).
Definition add_archived (id : string) (r : ConsolidateResult) : ConsolidateResult :=
  mkConsolidateResult (cs_Examined r) (Promoted r) (Superseded r) (cs_Archived r + 1)
    (PromotedCards r) (SupersededCards r) (ArchivedCards r ++ [id]).

(** The two loops; an error of the update ends the call with the counters
    reached so far. *)
Fixpoint promote_loop (cards : list Card) (r : ConsolidateResult)
    : M Store (ConsolidateResult * option error) :=
  match cards with
  | [] => mret (r, None)
  | card :: rest =>
      res ← try (UpdateCard (CardID card) (promotion card));
      match res with
      | Err e => mret (r, Some e)
      | Ok _ =>
          let r := add_promoted (CardID card) r in
          let target := TrimSpace (Supersedes card) in
          if decide (target = "") then promote_loop rest r else
          res ← try (UpdateCard target (status_update CardStatusSuperseded));
          promote_loop rest (if is_ok res then add_superseded target r else r)
      end
  end.

Fixpoint archive_loop (cards : list Card) (r : ConsolidateResult)
    : M Store (ConsolidateResult * option error) :=
  match cards with
  | [] => mret (r, None)
  | card :: rest =>
      res ← try (UpdateCard (CardID card) (status_update CardStatusArchived));
      match res with
      | Err e => mret (r, Some e)
      | Ok _ => archive_loop rest (add_archived (CardID card) r)
      end
  end.

(** The candidates of a request in promotion order, and how many are promoted. *)
Definition candidates (ord : list string) (req : ConsolidateRequest) (s : Store) : list Card :=
  merge_sort oldest_first (Cards (Query ord (mkQueryRequest "" (TrimSpace (cr_CardType req))
    (TrimSpace (cr_Scope req)) CardStatusCandidate None) s)).
Definition promotion_limit (req : ConsolidateRequest) (n : nat) : nat :=
  if decide (Limit req <= 0 ∨ Z.of_nat n < Limit req) then n else Z.to_nat (Limit req).

Definition PromoteCandidates (ord : list string) (req : ConsolidateRequest)
    : M Store (ConsolidateResult * option error) :=
  s ← get;
  let cards := candidates ord req s in
  let limit := promotion_limit req (length cards) in
  out ← promote_loop (take limit cards)
          (mkConsolidateResult (Z.of_nat (length cards)) 0 0 0 [] [] []);
  match out with
  | (r, Some e) => mret (r, Some e)
  | (r, None) => if ArchiveRemaining req then archive_loop (drop limit cards) r else mret (r, None)
  end.

(** ** Invariants *)

Lemma promote_loop_preserves (I : Store → Prop) cards r :
  (∀ id req, preserves I (UpdateCard id req)) → preserves I (promote_loop cards r).
Proof. intros H. revert r. induction cards as [|c cards IH]; intros r; cbn; preserves_tac. Qed.
Lemma archive_loop_preserves (I : Store → Prop) cards r :
  (∀ id req, preserves I (UpdateCard id req)) → preserves I (archive_loop cards r).
Proof. intros H. revert r. induction cards as [|c cards IH]; intros r; cbn; preserves_tac. Qed.

Lemma PromoteCandidates_invariant (I : Store → Prop) ord req :
  (∀ id req, preserves I (UpdateCard id req)) → preserves I (PromoteCandidates ord req).
Proof.
  intros H. unfold PromoteCandidates. preserves_tac.
  - by apply promote_loop_preserves.
  - by apply archive_loop_preserves.
Qed.
Lemma PromoteCandidates_preserves ord req : preserves store_wf (PromoteCandidates ord req).
Proof. apply PromoteCandidates_invariant. auto with hoare. Qed.
#[export] Hint Resolve PromoteCandidates_preserves : hoare.

(** ** What a run reports *)

(** Every card of the list is stored, in an in-memory store. *)
Definition all_stored (cards0 : list Card) (s : Store) : Prop :=
  disk s = None ∧ ∀ c, c ∈ cards0 → CardID c ≠ "" ∧ is_Some (last (versions_of s (CardID c))).

Lemma UpdateCard_stored cards0 id req s w :
  all_stored cards0 s →
  ∃ r s' w', UpdateCard id req s w = (r, s', w') ∧ all_stored cards0 s' ∧
    (update_ok id req = true → is_Some (last (versions_of s id)) → is_ok r = true).
Proof.
  intros [Hd Hall]. destruct (UpdateCard_run id req s w) as (r & s' & w' & -> & H).
  exists r, s', w'. split; [done|]. destruct (update_ok id req); cbn in H.
  2: { destruct H as [-> ->]. by split. }
  destruct (last (versions_of s id)) as [latest|] eqn:El.
  2: { destruct H as [-> ->]. split; [by split|]. by intros _ []. }
  destruct H as (Hm & Hp & Hc). injection Hm as Hcs _ _. split; [split|].
  - unfold persistent in Hp. rewrite Hd in Hp. by destruct (disk s').
  - intros c Hin. destruct (Hall c Hin) as [? Hl]. split; [done|]. unfold versions_of at 1.
    rewrite Hcs. destruct (decide (id = CardID c)) as [->|Hne].
    + rewrite lookup_insert_eq. cbn. rewrite last_snoc. eauto.
    + rewrite lookup_insert_ne by done. exact Hl.
  - intros _ _. destruct Hc as [->|(e & _ & _ & Hs)]; [done|].
    unfold persistent in Hs. by rewrite Hd in Hs.
Qed.

Lemma promote_loop_reports cards0 cards r s w :
  (∀ c, c ∈ cards → c ∈ cards0) → all_stored cards0 s →
  ∃ r' s' w', promote_loop cards r s w = (Ok (r', None), s', w') ∧ all_stored cards0 s' ∧
    cs_Examined r' = cs_Examined r ∧
    Promoted r' = Promoted r + Z.of_nat (length cards) ∧
    PromotedCards r' = PromotedCards r ++ (CardID <$> cards) ∧
    cs_Archived r' = cs_Archived r ∧ ArchivedCards r' = ArchivedCards r.
Proof.
  revert r s w. induction cards as [|c cards IH]; intros r s w Hin Hs; cbn.
  { exists r, s, w. rewrite app_nil_r. split; [done|]. split; [done|]. split_and!; done || lia. }
  run. destruct (UpdateCard_stored cards0 (CardID c) (promotion c) s w Hs)
    as (res & s1 & w1 & -> & Hs1 & Hok).
  destruct (proj2 Hs c) as [Hne Hsome]; [apply Hin; left|].
  assert (update_ok (CardID c) (promotion c) = true) as Hu.
  { unfold update_ok. by rewrite bool_decide_false. }
  destruct res as [c'|e]; [|by specialize (Hok Hu Hsome)].
  assert (∀ c, c ∈ cards → c ∈ cards0) as Hin' by (intros; apply Hin; by right).
  case_decide as Ht.
  - destruct (IH (add_promoted (CardID c) r) s1 w1 Hin' Hs1) as (r' & s2 & w2 & E & H1 & H2 & H3 & H4 & H5 & H6).
    exists r', s2, w2. rewrite E, H2, H3, H4, H5, H6. cbn. rewrite <- app_assoc. split; [done|]. split; [done|]. split_and!; done || lia.
  - destruct (UpdateCard_stored cards0 (TrimSpace (Supersedes c)) (status_update CardStatusSuperseded) s1 w1 Hs1)
      as (res & s2 & w2 & -> & Hs2 & _).
    set (r1 := if is_ok res then _ else _).
    destruct (IH r1 s2 w2 Hin' Hs2) as (r' & s3 & w3 & E & H1 & H2 & H3 & H4 & H5 & H6).
    exists r', s3, w3. rewrite E, H2, H3, H4, H5, H6.
    split; [done|]. split; [done|]. unfold r1.
    destruct (is_ok res); cbn; rewrite <- app_assoc; split_and!; done || lia.
Qed.

Lemma archive_loop_reports cards0 cards r s w :
  (∀ c, c ∈ cards → c ∈ cards0) → all_stored cards0 s →
  ∃ r' s' w', archive_loop cards r s w = (Ok (r', None), s', w') ∧ all_stored cards0 s' ∧
    cs_Examined r' = cs_Examined r ∧ Promoted r' = Promoted r ∧ PromotedCards r' = PromotedCards r ∧
    cs_Archived r' = cs_Archived r + Z.of_nat (length cards) ∧
    ArchivedCards r' = ArchivedCards r ++ (CardID <$> cards).
Proof.
  revert r s w. induction cards as [|c cards IH]; intros r s w Hin Hs; cbn.
  { exists r, s, w. rewrite app_nil_r. split; [done|]. split; [done|]. split_and!; done || lia. }
  run. destruct (UpdateCard_stored cards0 (CardID c) (status_update CardStatusArchived) s w Hs)
    as (res & s1 & w1 & -> & Hs1 & Hok).
  destruct (proj2 Hs c) as [Hne Hsome]; [apply Hin; left|].
  assert (update_ok (CardID c) (status_update CardStatusArchived) = true) as Hu.
  { unfold update_ok. by rewrite bool_decide_false. }
  destruct res as [c'|e]; [|by specialize (Hok Hu Hsome)].
  destruct (IH (add_archived (CardID c) r) s1 w1) as (r' & s2 & w2 & E & H1 & H2 & H3 & H4 & H5 & H6);
    [intros; apply Hin; by right|done|].
  exists r', s2, w2. rewrite E, H2, H3, H4, H5, H6. cbn. rewrite <- app_assoc.
  split; [done|]. split; [done|]. split_and!; done || lia.
Qed.

Lemma candidates_stored ord req s :
  store_wf s → disk s = None → all_stored (candidates ord req s) s.
Proof.
  intros Hs Hd. split; [done|]. intros c Hin. unfold candidates in Hin.
  rewrite merge_sort_Permutation in Hin. rewrite Query_scan in Hin by done. cbn in Hin.
  apply list_elem_of_omap in Hin as (id & _ & Hf). apply found_card_Some in Hf as [Hr _].
  cbn in Hr. destruct (versions_of_last _ _ _ Hs Hr) as (_ & (_ & Hne & _) & _ & _ & Hid).
  rewrite Hid. eauto.
Qed.

(** On an in-memory store [PromoteCandidates] never fails: it promotes the
    oldest candidates up to the limit, oldest first, reports each of them
    once, and archives exactly the remaining ones when asked to. *)
Theorem PromoteCandidates_reports ord req s w :
  store_wf s → disk s = None →
  let cards := candidates ord req s in
  let limit := promotion_limit req (length cards) in
  ∃ r s' w', PromoteCandidates ord req s w = (Ok (r, None), s', w') ∧ store_wf s' ∧
    StronglySorted oldest_first cards ∧
    cs_Examined r = Z.of_nat (length cards) ∧
    Promoted r = Z.of_nat limit ∧ PromotedCards r = CardID <$> take limit cards ∧
    ArchivedCards r = (if ArchiveRemaining req then CardID <$> drop limit cards else []).
Proof.
  intros Hs Hd cards limit. pose proof (candidates_stored ord req s Hs Hd) as Hall. fold cards in Hall.
  pose proof (PromoteCandidates_preserves ord req s w Hs) as Hwf. revert Hwf.
  unfold PromoteCandidates. run. fold cards. fold limit.
  edestruct (promote_loop_reports cards (take limit cards)) as (r1 & s1 & w1 & -> & H1 & H2 & H3 & H4 & H5 & H6);
    [intros ?; apply subseteq_take|done|].
  assert (StronglySorted oldest_first cards) as Hsort.
  { apply StronglySorted_merge_sort; apply _. }
  assert (limit ≤ length cards)%nat as Hlim.
  { unfold limit, promotion_limit. case_decide; lia. }
  assert (length (take limit cards) = limit) as Hlt by (rewrite length_take; lia).
  rewrite Hlt in H3. cbn in H3, H4, H5, H6, H2. destruct (ArchiveRemaining req).
  - edestruct (archive_loop_reports cards (drop limit cards)) as (r2 & s2 & w2 & -> & K1 & K2 & K3 & K4 & K5 & K6);
      [intros ?; apply subseteq_drop|done|].
    intros Hwf. exists r2, s2, w2. rewrite K2, K3, K4, K6, H2, H3, H4, H6. auto 10.
  - intros Hwf. exists r1, s1, w1. rewrite H2, H3, H4, H6. auto 10.
Qed.

(** *** Concrete runs *)

Definition candidate_request (cardID supersedes : string) (validTo : option Time) : CreateCardRequest :=
  mkCreateCardRequest cardID "fact" ScopeProject CardStatusCandidate supersedes None validTo None
    None None no_provenance.
(** Two candidates, the older of which supersedes the younger. *)
Definition rival_build : M Store unit :=
  _ ← CreateCard (candidate_request "card:old" "card:new" (Some (1800000000 * Second)));
  _ ← CreateCard (candidate_request "card:new" "" None);
  mret tt.
Definition rival_store : Store := exec rival_build NewStore world0.
Lemma rival_store_wf : store_wf rival_store.
Proof.
  apply (preserves_exec store_wf rival_build); [|apply NewStore_wf].
  unfold rival_build. preserves_tac.
Qed.
Definition rival_ord : list string := ["card:new"; "card:old"].

Lemma PromoteCandidates_reports_witness :
  ∃ r s' w', PromoteCandidates rival_ord (mkConsolidateRequest "fact" "" 1 true) rival_store world0
      = (Ok (r, None), s', w') ∧
    PromotedCards r = ["card:old"] ∧ ArchivedCards r = ["card:new"].
Proof.
  destruct (PromoteCandidates_reports rival_ord (mkConsolidateRequest "fact" "" 1 true)
    rival_store world0 rival_store_wf eq_refl) as (r & s' & w' & E & _ & _ & _ & _ & H1 & H2).
  exists r, s', w'. split; [exact E|]. rewrite H1, H2. split; vm_compute; reflexivity.
Defined.

Definition latest_status (s : Store) (id : string) : option string :=
  Status <$> last (versions_of s id).

(** A promotion run can undo its own superseding: the superseded candidate was
    read before the loop, so its own turn promotes it back to active. *)
Lemma promotion_revives_superseded :
  let s' := exec (PromoteCandidates rival_ord (mkConsolidateRequest "" "" 0 false)) rival_store world0 in
  latest_status s' "card:old" = Some CardStatusActive ∧
  latest_status s' "card:new" = Some CardStatusActive ∧
  (Status <$> versions_of s' "card:new")
    = [CardStatusCandidate; CardStatusSuperseded; CardStatusActive].
Proof. vm_compute. done. Qed.

(** A status-only update erases the validity window of the card. *)
Lemma status_update_erases_window latest status t :
  ValidFrom (updatedCard latest (status_update status) t) = None ∧
  ValidTo (updatedCard latest (status_update status) t) = None ∧
  ValidTo (updatedCard latest (promotion latest) t) = None.
Proof. done. Qed.
