(* ===== verification/Sha1.v ===== *)
(** * SHA-1 ([crypto/sha1])

    The digest the memory component derives card IDs from, after FIPS 180-4:
    32-bit words in [Z], padding, message schedule and the 80 rounds. *)
From S2P Require Import Prelude GoStrings.
Open Scope Z_scope.

Definition w32 (z : Z) : Z := z mod 2 ^ 32.
Definition rotl (n x : Z) : Z := w32 (Z.lor (Z.shiftl x n) (Z.shiftr x (32 - n))).
Definition not32 (x : Z) : Z := 2 ^ 32 - 1 - x.

Fixpoint bytes_of (s : string) : list Z :=
  match s with
  | EmptyString => []
  | String a r => Z.of_nat (nat_of_ascii a) :: bytes_of r
  end.

(** The big-endian word of four bytes, and the bytes of a word. *)
Definition word_of (a b c d : Z) : Z := ((a * 256 + b) * 256 + c) * 256 + d.
Definition word_bytes (w : Z) : list Z :=
  [Z.shiftr w 24 mod 256; Z.shiftr w 16 mod 256; Z.shiftr w 8 mod 256; w mod 256].

Fixpoint words_of (l : list Z) : list Z :=
  match l with
  | a :: b :: c :: d :: r => word_of a b c d :: words_of r
  | _ => []
  end.

(** The message, 0x80, zeros up to 56 modulo 64, and the bit length. *)
Definition pad (l : list Z) : list Z :=
  let n := Z.of_nat (length l) in
  l ++ 128 :: replicate (Z.to_nat ((55 - n) mod 64)) 0
    ++ word_bytes (w32 (Z.shiftr (8 * n) 32)) ++ word_bytes (w32 (8 * n)).

(** The message schedule, newest word first. *)
Fixpoint schedule (n : nat) (w : list Z) : list Z :=
  match n with
  | O => w
  | S n =>
      let nth k := default 0 (w !! k) in
      schedule n (rotl 1 (Z.lxor (Z.lxor (nth 2%nat) (nth 7%nat))
                                 (Z.lxor (nth 13%nat) (nth 15%nat))) :: w)
  end.

Definition round_f (t b c d : Z) : Z :=
  if t <? 20 then Z.lor (Z.land b c) (Z.land (not32 b) d)
  else if t <? 40 then Z.lxor (Z.lxor b c) d
  else if t <? 60 then Z.lor (Z.lor (Z.land b c) (Z.land b d)) (Z.land c d)
  else Z.lxor (Z.lxor b c) d.
Definition round_k (t : Z) : Z :=
  if t <? 20 then 0x5A827999 else if t <? 40 then 0x6ED9EBA1
  else if t <? 60 then 0x8F1BBCDC else 0xCA62C1D6.

Definition digest_state : Type := Z * Z * Z * Z * Z.

Fixpoint rounds (t : Z) (ws : list Z) (st : digest_state) : digest_state :=
  match ws with
  | [] => st
  | w :: ws =>
      let '(a, b, c, d, e) := st in
      rounds (t + 1) ws
        (w32 (rotl 5 a + round_f t b c d + e + round_k t + w), a, rotl 30 b, c, d)
  end.

Definition block (st : digest_state) (ws : list Z) : digest_state :=
  let '(a, b, c, d, e) := st in
  let '(a', b', c', d', e') := rounds 0 (reverse (schedule 64 (reverse ws))) st in
  (w32 (a + a'), w32 (b + b'), w32 (c + c'), w32 (d + d'), w32 (e + e')).

Fixpoint blocks (fuel : nat) (st : digest_state) (ws : list Z) : digest_state :=
  match fuel, ws with
  | S fuel, _ :: _ => blocks fuel (block st (take 16 ws)) (drop 16 ws)
  | _, _ => st
  end.

(** [sha1.Sum([]byte(s))]: one unit of fuel per word is enough, since every
    step of [blocks] consumes sixteen of them. *)
Definition Sum (s : string) : list Z :=
  let ws := words_of (pad (bytes_of s)) in
  let '(a, b, c, d, e) := blocks (length ws) (0x67452301, 0xEFCDAB89, 0x98BADCFE, 0x10325476, 0xC3D2E1F0) ws in
  mjoin (word_bytes <$> [a; b; c; d; e]).

(** [fmt.Sprintf("%x", b)] *)
Definition hex_bytes (l : list Z) : string :=
  HexEncode (String.string_of_list_ascii ((λ z, ascii_of_nat (Z.to_nat z)) <$> l)).

(** The test vectors of FIPS 180-4. *)
Example Sum_abc : hex_bytes (Sum "abc") = "a9993e364706816aba3e25717850c26c9cd0d89d".
Proof. vm_compute. reflexivity. Qed.
Example Sum_two_blocks :
  hex_bytes (Sum "abcdbcdecdefdefgefghfghighijhijkijkljklmklmnlmnomnopnopq")
  = "84983e441c3bd26ebaae4aa1f95129e5e54670f1".
Proof. vm_compute. reflexivity. Qed.
Example Sum_empty : hex_bytes (Sum "") = "da39a3ee5e6b4b0d3255bfef95601890afd80709".
Proof. vm_compute. reflexivity. Qed.
