(* ===== verification/Upgrade.v ===== *)
(** * Conflicts and event-to-fact upgrade ([internal/memory/conflict.go], [upgrade.go])

    Cards are grouped by a normalized topic; groups of facts are compared for
    divergent assertions, groups of events are turned into fact candidates
    with their evidence edges. *)
From S2P Require Import Prelude GoStrings GoNum MemoryTypes MemoryStore Sha1.
Open Scope Z_scope.

(** ** Topics *)

Section topics.
Context {tables : UnicodeTables}.

Definition normalizeTopic (s : string) : string :=
  let words := Fields (TrimSpace (ToLower s)) in
  Join (merge_sort String.le words) " ".

(** The first key of the list whose content is a string with a nonempty image. *)
Fixpoint first_key (f : string → string) (keys : list string) (c : Content) : option string :=
  match keys with
  | [] => None
  | key :: rest =>
      match content_string c key with
      | Some val => if decide (f val = "") then first_key f rest c else Some (f val)
      | None => first_key f rest c
      end
  end.

Definition extractTopic (card : Card) : string :=
  default "" (first_key normalizeTopic ["topic"; "subject"; "summary"; "query"; "claim"]
                (card_Content card)).

(** [byTopic[topic] = append(byTopic[topic], card)] over the cards, cards
    without a topic left out. *)
Definition group_card (groups : gmap string (list Card)) (card : Card) : gmap string (list Card) :=
  let topic := extractTopic card in
  if decide (topic = "") then groups
  else <[topic := default [] (groups !! topic) ++ [card]]> groups.
Definition clusterEventCards (cards : list Card) : gmap string (list Card) :=
  foldl group_card ∅ cards.

(** ** Conflicts *)

Record Conflict := mkConflict {
  CardA : string; CardB : string; Topic : string; Reason : string; ScoreDelta : float64 }.
Record ConflictDetectionRequest := mkConflictRequest { cd_Scope : string; cd_CardType : string }.
Record ConflictDetectionResult := mkConflictResult { cd_Examined : Z; Conflicts : list Conflict }.

Definition truncate (s : string) (max : nat) : string :=
  if (len s <=? max)%nat then s else take_bytes (max - 3) s +:+ "...".

Fixpoint content_conflict (keys : list string) (a b : Card) : string :=
  match keys with
  | [] => ""
  | key :: rest =>
      match content_string (card_Content a) key, content_string (card_Content b) key with
      | Some valA, Some valB =>
          let valA := TrimSpace (ToLower valA) in
          let valB := TrimSpace (ToLower valB) in
          if bool_decide (valA = "") || bool_decide (valB = "") then content_conflict rest a b
          else if decide (valA = valB) then content_conflict rest a b
          else "divergent " +:+ key +:+ ": " +:+ truncate valA 80 +:+ " vs " +:+ truncate valB 80
      | _, _ => content_conflict rest a b
      end
  end.
Definition contentConflict : Card → Card → string :=
  content_conflict ["answer"; "claim"; "summary"; "body"].

Definition pairKey (a b : Card) : string := CardID a +:+ "|" +:+ CardID b.

(** One inner iteration: [seen] and the conflicts reported so far. *)
Definition check_pair (topic : string) (a : Card) (st : list string * list Conflict) (b : Card)
    : list string * list Conflict :=
  if decide (pairKey a b ∈ st.1) then st else
  let reason := contentConflict a b in
  if decide (reason = "") then st
  else (pairKey a b :: st.1,
        st.2 ++ [mkConflict (CardID a) (CardID b) topic reason
                   (fsub (Score (Activation a)) (Score (Activation b)))]).

Fixpoint check_entries (topic : string) (entries : list Card) (st : list string * list Conflict)
    : list string * list Conflict :=
  match entries with
  | [] => st
  | a :: rest => check_entries topic rest (foldl (check_pair topic a) st rest)
  end.

(** [ord1] and [ord2] are the orders of the two queries, [tord] the order in
    which the topics are visited. *)
Definition conflict_cards (ord1 ord2 : list string) (req : ConflictDetectionRequest) (s : Store)
    : list Card :=
  let scope := TrimSpace (cd_Scope req) in
  let cardType := if decide (TrimSpace (cd_CardType req) = "") then "fact" else TrimSpace (cd_CardType req) in
  Cards (Query ord1 (mkQueryRequest "" cardType scope CardStatusActive None) s)
  ++ Cards (Query ord2 (mkQueryRequest "" cardType scope CardStatusCandidate None) s).

Definition DetectConflicts (ord1 ord2 : list string) (tord : list string)
    (req : ConflictDetectionRequest) (s : Store) : ConflictDetectionResult :=
  let all := conflict_cards ord1 ord2 req s in
  let byTopic := clusterEventCards all in
  mkConflictResult (Z.of_nat (length all))
    (foldl (λ st topic, check_entries topic (default [] (byTopic !! topic)) st) ([], []) tord).2.

(** ** Event-to-fact upgrade *)

Record UpgradeRequest := mkUpgradeRequest {
  ur_Scope : string; MinOccurrences : Z; MinConfidence : float64; ArchiveSources : bool }.
Record UpgradeResult := mkUpgradeResult {
  EventsExamined : Z; ClustersFound : Z; FactsCreated : Z; EventsArchived : Z;
  FactCardIDs : list string }.

Definition snippet_of (val : string) : string :=
  if (200 <? len val)%nat then take_bytes 197 val +:+ "..." else val.
Fixpoint snippet_key (keys : list string) (c : Content) : option string :=
  match keys with
  | [] => None
  | key :: rest =>
      match content_string c key with
      | Some val => if blank val then snippet_key rest c else Some (snippet_of val)
      | None => snippet_key rest c
      end
  end.
Definition extractSnippet (card : Card) : string :=
  default (CardID card) (snippet_key ["summary"; "snippet"; "body"; "claim"; "query"] (card_Content card)).

Definition averageConfidence (cards : list Card) : float64 :=
  match cards with
  | [] => f0
  | _ =>
      let '(sum, count) := foldl (λ '(sum, count) c,
          let conf := Confidence (card_Provenance c) in
          if flt f0 conf then (fadd sum conf, count + 1) else (sum, count)) (f0, 0) cards in
      if count =? 0 then lit 7 10 else fdiv sum (of_int count)
  end.

Definition factCardIDFromTopic (topic : string) : string :=
  "fact:upgraded:" +:+ hex_bytes (take 8 (Sum topic)).

(** The first nonblank string under [key] among the cards. *)
Fixpoint first_assertion (key : string) (cards : list Card) : option string :=
  match cards with
  | [] => None
  | card :: rest =>
      match content_string (card_Content card) key with
      | Some val => if blank val then first_assertion key rest else Some val
      | None => first_assertion key rest
      end
  end.

Definition synthesizeFactContent (topic : string) (cards : list Card) : gmap string Any :=
  let content : gmap string Any :=
    <["topic" := AStr topic]> (<["source_count" := AInt (Z.of_nat (length cards))]>
      {["derived_from" := AStr "event-fact-upgrade"]}) in
  let content := foldl (λ (m : gmap string Any) key,
      match first_assertion key cards with Some val => <[key := AStr val]> m | None => m end)
    content ["summary"; "claim"; "body"; "answer"] in
  <["source_event_ids" := AList ((λ c, AStr (CardID c)) <$> cards)]> content.

Definition fact_request (scope topic : string) (cards : list Card) : CreateCardRequest :=
  mkCreateCardRequest (factCardIDFromTopic topic) "fact" scope CardStatusCandidate "" None None None
    (Some (synthesizeFactContent topic cards))
    (Some ((λ c, mkEvidenceRef (CardID c) (extractSnippet c) "") <$> cards))
    (mkProvenance "" "event-fact-upgrade" (averageConfidence cards)).

Definition evidence_edge (factCardID : string) (c : Card) : CreateEdgeRequest :=
  mkCreateEdgeRequest ("edge:evidence:" +:+ CardID c +:+ "->" +:+ factCardID)
    (CardID c) factCardID "evidence" f1 (Confidence (card_Provenance c)) None None None.

(** The archiving loop: failures are not counted and not reported. *)
Fixpoint archive_sources (cards : list Card) (r : UpgradeResult) : M Store UpgradeResult :=
  match cards with
  | [] => mret r
  | c :: rest =>
      res ← try (UpdateCard (CardID c) (status_update CardStatusArchived));
      archive_sources rest
        (if is_ok res then mkUpgradeResult (EventsExamined r) (ClustersFound r) (FactsCreated r)
           (EventsArchived r + 1) (FactCardIDs r) else r)
  end.

(** The effective thresholds of a request. *)
Definition min_occ (req : UpgradeRequest) : Z :=
  if MinOccurrences req <=? 0 then 2 else MinOccurrences req.
Definition min_conf (req : UpgradeRequest) : float64 :=
  if fle (MinConfidence req) f0 then lit 5 10 else MinConfidence req.
Definition upgrade_scope (req : UpgradeRequest) : string :=
  if decide (TrimSpace (ur_Scope req) = "") then ScopeProject else TrimSpace (ur_Scope req).

(** Whether the cluster warrants a fact. *)
Definition warrants (req : UpgradeRequest) (cards : list Card) : bool :=
  negb (Z.of_nat (length cards) <? min_occ req)
  && negb (flt (averageConfidence cards) (min_conf req)).

Definition upgrade_cluster (req : UpgradeRequest) (topic : string) (cards : list Card)
    (r : UpgradeResult) : M Store (UpgradeResult * option error) :=
  if negb (warrants req cards) then mret (r, None) else
  let factCardID := factCardIDFromTopic topic in
  s ← get;
  match Cards (Query [] (mkQueryRequest factCardID "" "" "" None) s) with
  | _ :: _ => mret (r, None)
  | [] =>
      res ← try (CreateCard (fact_request (upgrade_scope req) topic cards));
      match res with
      | Err e => mret (r, Some e)
      | Ok _ =>
          let r := mkUpgradeResult (EventsExamined r) (ClustersFound r) (FactsCreated r + 1)
                     (EventsArchived r) (FactCardIDs r ++ [factCardID]) in
          _ ← forM (λ c, _ ← try (CreateEdge (evidence_edge factCardID c)); mret tt) cards;
          if ArchiveSources req then r ← archive_sources cards r; mret (r, None)
          else mret (r, None)
      end
  end.

Fixpoint upgrade_loop (req : UpgradeRequest) (clusters : gmap string (list Card))
    (topics : list string) (r : UpgradeResult) : M Store (UpgradeResult * option error) :=
  match topics with
  | [] => mret (r, None)
  | topic :: rest =>
      out ← upgrade_cluster req topic (default [] (clusters !! topic)) r;
      match out with
      | (r, Some e) => mret (r, Some e)
      | (r, None) => upgrade_loop req clusters rest r
      end
  end.

Definition upgrade_events (ord : list string) (req : UpgradeRequest) (s : Store) : list Card :=
  Cards (Query ord (mkQueryRequest "" "event" (upgrade_scope req) CardStatusActive None) s).

(** [tord] is the order in which the clusters are visited. *)
Definition UpgradeEventsToFacts (ord tord : list string) (req : UpgradeRequest)
    : M Store (UpgradeResult * option error) :=
  s ← get;
  let events := upgrade_events ord req s in
  let r := mkUpgradeResult (Z.of_nat (length events)) 0 0 0 [] in
  if Z.of_nat (length events) <? min_occ req then mret (r, None) else
  let clusters := clusterEventCards events in
  upgrade_loop req clusters tord
    (mkUpgradeResult (Z.of_nat (length events)) (Z.of_nat (size clusters)) 0 0 []).

#[local] Arguments extractTopic : simpl never.
#[local] Arguments contentConflict : simpl never.

(** ** Grouping *)

Lemma group_card_lookup groups card t :
  t ≠ "" →
  default [] (group_card groups card !! t) =
  default [] (groups !! t) ++ (if decide (extractTopic card = t) then [card] else []).
Proof.
  intros Ht. unfold group_card. destruct (decide (extractTopic card = "")) as [He|He].
  { rewrite He. rewrite decide_False by congruence. by rewrite app_nil_r. }
  destruct (decide (extractTopic card = t)) as [->|Hne].
  - by rewrite lookup_insert_eq.
  - rewrite lookup_insert_ne by done. by rewrite app_nil_r.
Qed.

Lemma cluster_lookup_go cards groups t :
  t ≠ "" →
  default [] (foldl group_card groups cards !! t) =
  default [] (groups !! t) ++ filter (λ c, extractTopic c = t) cards.
Proof.
  intros Ht. revert groups. induction cards as [|c cards IH]; intros groups; cbn [foldl].
  - by rewrite app_nil_r.
  - rewrite IH, group_card_lookup, <- app_assoc by done. rewrite filter_cons. by case_decide.
Qed.

(** The group of a topic: the cards with that topic, in their order. *)
Lemma cluster_lookup cards t :
  t ≠ "" → default [] (clusterEventCards cards !! t) = filter (λ c, extractTopic c = t) cards.
Proof. intros Ht. unfold clusterEventCards. rewrite cluster_lookup_go by done. by rewrite lookup_empty. Qed.

Lemma cluster_dom cards t :
  is_Some (clusterEventCards cards !! t) ↔ t ≠ "" ∧ ∃ c, c ∈ cards ∧ extractTopic c = t.
Proof.
  unfold clusterEventCards. induction cards as [|c cards IH] using rev_ind; cbn.
  { rewrite lookup_empty. split; [by intros []|]. intros (_ & c & H & _). by apply elem_of_nil in H. }
  rewrite foldl_app. cbn. unfold group_card at 1.
  setoid_rewrite elem_of_app. setoid_rewrite list_elem_of_singleton. case_decide as He.
  - rewrite IH. split; [naive_solver|]. intros (Ht & c' & [?| ->] & E); [by eauto|congruence].
  - destruct (decide (extractTopic c = t)) as [<-|Hne].
    + rewrite lookup_insert_eq. split; [|by eauto]. intros _. split; [done|]. eauto.
    + rewrite lookup_insert_ne by done. rewrite IH. naive_solver.
Qed.

(** ** Conflict detection *)

Lemma content_conflict_sym keys a b :
  content_conflict keys a b = "" ↔ content_conflict keys b a = "".
Proof.
  induction keys as [|k keys IH]; [done|]. cbn.
  destruct (content_string (card_Content a) k), (content_string (card_Content b) k); try done.
  cbv zeta. rewrite (orb_comm (bool_decide (TrimSpace (ToLower s0) = ""))).
  destruct (_ || _); [done|]. repeat case_decide; try done; congruence.
Qed.

Lemma conflict_reason_nonempty key x : "divergent " +:+ key +:+ x ≠ "".
Proof. done. Qed.

(** The conflicts a pair of entries may produce. *)
Definition conflict_of (topic : string) (a b : Card) : Conflict :=
  mkConflict (CardID a) (CardID b) topic (contentConflict a b)
    (fsub (Score (Activation a)) (Score (Activation b))).
Definition conflict_key (c : Conflict) : string := CardA c +:+ "|" +:+ CardB c.

(** The state of the scan: every seen key was reported once, every report
    satisfies [P]. *)
Definition scan_ok (P : Conflict → Prop) (st : list string * list Conflict) : Prop :=
  (∀ k, k ∈ st.1 ↔ k ∈ conflict_key <$> st.2) ∧ NoDup (conflict_key <$> st.2) ∧
  ∀ c, c ∈ st.2 → P c.

Lemma check_pair_ok P topic a b st :
  scan_ok P st → (contentConflict a b ≠ "" → P (conflict_of topic a b)) →
  scan_ok P (check_pair topic a st b) ∧
  (∀ k, k ∈ st.1 → k ∈ (check_pair topic a st b).1) ∧
  (contentConflict a b ≠ "" → pairKey a b ∈ (check_pair topic a st b).1).
Proof.
  intros (Hk & Hn & HP) Hab. unfold check_pair. case_decide as Hin; [done|].
  case_decide as Hr; [done|]. cbn. split; [|split; [by right|by left]].
  split_and!; cbn.
  - intros k. rewrite elem_of_cons, fmap_app, elem_of_app, Hk. cbn.
    rewrite list_elem_of_singleton. unfold conflict_key at 2. cbn. naive_solver.
  - rewrite fmap_app. apply NoDup_app. split_and!; [done| |apply NoDup_singleton].
    intros k Hk' ->%list_elem_of_singleton. apply Hin, Hk. done.
  - intros c [Hc| ->%list_elem_of_singleton]%elem_of_app; [by apply HP|by apply Hab].
Qed.

Lemma check_inner_ok P topic a bs st :
  scan_ok P st → (∀ b, b ∈ bs → contentConflict a b ≠ "" → P (conflict_of topic a b)) →
  let st' := foldl (check_pair topic a) st bs in
  scan_ok P st' ∧ (∀ k, k ∈ st.1 → k ∈ st'.1) ∧
  (∀ b, b ∈ bs → contentConflict a b ≠ "" → pairKey a b ∈ st'.1).
Proof.
  revert st. induction bs as [|b bs IH]; intros st Hst HP; cbn.
  { split_and!; [apply Hst..|done|]. by intros ? ?%elem_of_nil. }
  destruct (check_pair_ok P topic a b st Hst) as (H1 & H2 & H3); [by apply HP; left|].
  destruct (IH (check_pair topic a st b) H1) as (K1 & K2 & K3); [by intros; apply HP; [right|]|].
  split; [done|]. split; [auto|]. intros b' [->|Hb]%elem_of_cons Hr; [by apply K2, H3|by apply K3].
Qed.

Lemma check_entries_ok P topic es st :
  scan_ok P st →
  (∀ a b, [a; b] `sublist_of` es → contentConflict a b ≠ "" → P (conflict_of topic a b)) →
  let st' := check_entries topic es st in
  scan_ok P st' ∧ (∀ k, k ∈ st.1 → k ∈ st'.1) ∧
  (∀ a b, [a; b] `sublist_of` es → contentConflict a b ≠ "" → pairKey a b ∈ st'.1).
Proof.
  revert st. induction es as [|a es IH]; intros st Hst HP; cbn.
  { split; [done|]. split; [done|]. intros a b Hs. by apply sublist_nil_r in Hs. }
  destruct (check_inner_ok P topic a es st Hst) as (H1 & H2 & H3).
  { intros b Hb. apply HP. apply sublist_skip. by apply singleton_sublist_l. }
  destruct (IH _ H1) as (K1 & K2 & K3).
  { intros a' b Hs. apply HP. by apply sublist_cons. }
  split; [done|]. split; [auto|]. intros a' b Hs Hr.
  apply sublist_cons_r in Hs as [Hs|(l & [= <- <-] & Hl)]; [by apply K3|].
  apply K2, H3; [by apply singleton_sublist_l|done].
Qed.

Lemma filter_sublist_mono {A} (P : A → Prop) `{∀ x, Decision (P x)} (l1 l2 : list A) :
  l1 `sublist_of` l2 → filter P l1 `sublist_of` filter P l2.
Proof.
  induction 1 as [|x l1 l2 _ IH|x l1 l2 _ IH]; [done|..]; rewrite ?filter_cons; case_decide; auto.
  - by apply sublist_skip.
  - by apply sublist_cons.
Qed.

Lemma pair_sublist_filter {A} (P : A → Prop) `{∀ x, Decision (P x)} (l : list A) a b :
  [a; b] `sublist_of` filter P l ↔ [a; b] `sublist_of` l ∧ P a ∧ P b.
Proof.
  split.
  - intros Hs. split; [by etrans; [|apply (sublist_filter P)]|].
    apply sublist_subseteq in Hs. split.
    all: eapply (proj1 (list_elem_of_filter P l _)), Hs; set_solver.
  - intros (Hs & Ha & Hb). apply (filter_sublist_mono P) in Hs.
    rewrite filter_cons_True, filter_cons_True in Hs by done. done.
Qed.

(** A reported conflict: two cards of the scan, in scan order, that share the
    topic and diverge. *)
Definition true_conflict (all : list Card) (c : Conflict) : Prop :=
  ∃ a b, [a; b] `sublist_of` all ∧ extractTopic a = Topic c ∧ extractTopic b = Topic c ∧
    Topic c ≠ "" ∧ contentConflict a b ≠ "" ∧ c = conflict_of (Topic c) a b.

Lemma scan_topics all tord st :
  scan_ok (true_conflict all) st → (∀ t, t ∈ tord → t ≠ "") →
  let st' := foldl (λ st topic, check_entries topic (default [] (clusterEventCards all !! topic)) st) st tord in
  scan_ok (true_conflict all) st' ∧ (∀ k, k ∈ st.1 → k ∈ st'.1) ∧
  ∀ t a b, t ∈ tord → [a; b] `sublist_of` all → extractTopic a = t → extractTopic b = t →
    contentConflict a b ≠ "" → pairKey a b ∈ st'.1.
Proof.
  revert st. induction tord as [|t tord IH]; intros st Hst Ht; cbn.
  { split; [done|]. split; [done|]. by intros ? ? ? ?%elem_of_nil. }
  assert (t ≠ "") as Ht0 by (apply Ht; left). rewrite cluster_lookup by done.
  destruct (check_entries_ok (true_conflict all) t (filter (λ c, extractTopic c = t) all) st Hst)
    as (H1 & H2 & H3).
  { intros a b (Hs & Ha & Hb)%pair_sublist_filter Hr. exists a, b. done. }
  destruct (IH _ H1) as (K1 & K2 & K3); [intros; apply Ht; by right|].
  split; [done|]. split; [auto|].
  intros t' a b [->|Hin]%elem_of_cons Hs Ha Hb Hr; [|by eapply K3].
  apply K2, H3; [|done]. by apply pair_sublist_filter.
Qed.


(** ** The upgrade *)

(** The cards of [s0] are all there, and every other card of [s] is a fact
    with the shape [UpgradeEventsToFacts] gives it. *)
Definition upgrade_fact (req : UpgradeRequest) (clusters : gmap string (list Card))
    (topics : list string) (id : string) (vs : list Card) : Prop :=
  ∃ topic t, topic ∈ topics ∧ id = factCardIDFromTopic topic ∧
    warrants req (default [] (clusters !! topic)) = true ∧
    head vs = Some (createdCard
      (fact_request (upgrade_scope req) topic (default [] (clusters !! topic))) t).
Definition upgraded (req : UpgradeRequest) (clusters : gmap string (list Card))
    (topics : list string) (s0 s : Store) : Prop :=
  (∀ id, is_Some (cards s0 !! id) → is_Some (cards s !! id)) ∧
  (∀ id vs, cards s !! id = Some vs →
     is_Some (cards s0 !! id) ∨ upgrade_fact req clusters topics id vs).

Section upgrade_inv.
Variables (req : UpgradeRequest) (clusters : gmap string (list Card)) (topics : list string).
Variable s0 : Store.
#[local] Abbreviation I := (upgraded req clusters topics s0).

Lemma UpdateCard_upgraded id r : preserves I (UpdateCard id r).
Proof.
  intros s w [H1 H2]. edestruct (UpdateCard_run id r s w) as (res & s' & w' & -> & H).
  destruct (update_ok id r); cbn in H; [|by destruct H as [_ ->]].
  destruct (last (versions_of s id)) as [latest|] eqn:El; [|by destruct H as [_ ->]].
  destruct H as (Hm & _ & _). injection Hm as Hc _ _. unfold upgraded. rewrite Hc. split.
  - intros k Hk. apply lookup_insert_is_Some. destruct (decide (id = k)); auto.
  - intros k vs [[<- <-]|[_ Hl]]%lookup_insert_Some; [|by apply H2].
    unfold versions_of in *. destruct (cards s !! id) as [vs|] eqn:E; [|done].
    destruct (H2 _ _ E) as [|(topic & t & ? & ? & ? & Hh)]; [by left|right].
    exists topic, t. split_and!; [done..|]. by destruct vs.
Qed.

Lemma CreateEdge_upgraded r : preserves I (CreateEdge r).
Proof.
  intros s w H. edestruct (CreateEdge_run r s w) as (res & s' & w' & -> & Hr).
  destruct (edge_ok r); cbn in Hr; [|by destruct Hr as [_ ->]].
  destruct (edges s !! ce_EdgeID r); [by destruct Hr as [_ ->]|].
  case_decide; [|by destruct Hr as [_ ->]].
  destruct Hr as (Hm & _). injection Hm as Hc _ _. unfold upgraded. by rewrite Hc.
Qed.

Lemma CreateCard_upgraded topic :
  topic ∈ topics → warrants req (default [] (clusters !! topic)) = true →
  preserves I (CreateCard (fact_request (upgrade_scope req) topic (default [] (clusters !! topic)))).
Proof.
  intros Hin Hw s w [H1 H2].
  edestruct CreateCard_run as (res & s' & w' & -> & H). revert H.
  destruct (create_ok _); cbn -[factCardIDFromTopic]; [|by intros [_ ->]].
  destruct (cards s !! factCardIDFromTopic topic) eqn:El; [by intros [_ ->]|].
  intros (Hm & _ & _). injection Hm as Hc _ _. unfold upgraded. rewrite Hc. split.
  - intros k Hk. apply lookup_insert_is_Some. destruct (decide (factCardIDFromTopic topic = k)); auto.
  - intros k vs [[<- <-]|[_ Hl]]%lookup_insert_Some; [|by apply H2].
    right. exists topic, (clock w (tick w)). done.
Qed.

Lemma archive_sources_upgraded (J : Store → Prop) cs r :
  (∀ id u, preserves J (UpdateCard id u)) → preserves J (archive_sources cs r).
Proof. intros HJ. revert r. induction cs as [|c cs IH]; intros r; cbn; preserves_tac. Qed.

Lemma upgrade_cluster_upgraded topic r :
  topic ∈ topics → preserves I (upgrade_cluster req topic (default [] (clusters !! topic)) r).
Proof.
  intros Hin. unfold upgrade_cluster. destruct (warrants _ _) eqn:Hw; [|apply preserves_ret].
  cbn [negb]. preserves_tac.
  - by apply CreateCard_upgraded.
  - apply CreateEdge_upgraded.
  - apply archive_sources_upgraded, UpdateCard_upgraded.
Qed.

Lemma upgrade_loop_upgraded tord r :
  (∀ t, t ∈ tord → t ∈ topics) → preserves I (upgrade_loop req clusters tord r).
Proof.
  revert r. induction tord as [|t tord IH]; intros r Ht; cbn; [apply preserves_ret|].
  apply preserves_bind; [apply upgrade_cluster_upgraded, Ht; left|].
  intros [r' [e|]]; [apply preserves_ret|]. apply IH. intros. apply Ht. by right.
Qed.
End upgrade_inv.

Lemma UpgradeEventsToFacts_preserves ord tord req : preserves store_wf (UpgradeEventsToFacts ord tord req).
Proof.
  unfold UpgradeEventsToFacts. preserves_tac.
  generalize (clusterEventCards (upgrade_events ord req a)) as clusters. intros clusters.
  generalize (mkUpgradeResult (Z.of_nat (length (upgrade_events ord req a))) (Z.of_nat (size clusters)) 0 0 []).
  induction tord as [|t tord IH]; intros r; cbn; [apply preserves_ret|].
  apply preserves_bind; [|intros [? []]; [apply preserves_ret|apply IH]].
  unfold upgrade_cluster. preserves_tac.
  apply archive_sources_upgraded. auto with hoare.
Qed.

(** Event-to-fact upgrade creates nothing but warranted facts and loses no
    card, however far it gets: every card that a call adds is a candidate fact
    stored under the hash of a topic, with the confidence average and one
    evidence reference per supporting event, and the active events of the
    scope with that topic are at least the minimum number. *)
Theorem UpgradeEventsToFacts_sound ord tord req s w :
  let events := upgrade_events ord req s in
  range_of (clusterEventCards events) tord →
  let s' := exec (UpgradeEventsToFacts ord tord req) s w in
  (∀ id, is_Some (cards s !! id) → is_Some (cards s' !! id)) ∧
  ∀ id vs, cards s !! id = None → cards s' !! id = Some vs →
    ∃ topic t, let evs := filter (λ c, extractTopic c = topic) events in
      id = factCardIDFromTopic topic ∧ topic ≠ "" ∧
      head vs = Some (createdCard (fact_request (upgrade_scope req) topic evs) t) ∧
      min_occ req <= Z.of_nat (length evs) ∧
      flt (averageConfidence evs) (min_conf req) = false.
Proof.
  intros events [_ Ho] s'.
  assert (upgraded req (clusterEventCards events) tord s s') as [H1 H2].
  { assert (upgraded req (clusterEventCards events) tord s s) as Hs by (split; eauto).
    unfold s', exec, UpgradeEventsToFacts. run. fold events.
    destruct (Z.of_nat (length events) <? min_occ req); [done|].
    set (r0 := mkUpgradeResult _ _ _ _ _).
    pose proof (upgrade_loop_upgraded req (clusterEventCards events) tord s tord r0
      (λ t H, H) s w Hs) as Hp.
    by destruct (upgrade_loop _ _ _ _ s w) as [[r1 s1] w1]. }
  split; [done|]. intros id vs Hn Hl.
  destruct (H2 _ _ Hl) as [[? ?]|(topic & t & Hin & -> & Hw & Hh)]; [congruence|].
  apply Ho, elem_of_dom, cluster_dom in Hin as [Ht _].
  rewrite cluster_lookup in Hw, Hh by done. exists topic, t. split_and!; [done..| |].
  all: unfold warrants in Hw; apply andb_true_iff in Hw as [Hw1 Hw2].
  - apply negb_true_iff in Hw1. lia.
  - by apply negb_true_iff in Hw2.
Qed.
End topics.

(** *** Concrete runs *)

#[local] Existing Instance caseless_tables.

Definition event_request (cardID topic answer : string) : CreateCardRequest :=
  mkCreateCardRequest cardID "event" ScopeProject "" "" None None None
    (Some (<["topic" := AStr topic]> {["answer" := AStr answer]})) None
    (mkProvenance "" "chat" (lit 8 10)).
Definition event_build : M Store unit :=
  _ ← CreateCard (event_request "event:1" "Deploy Friday" "yes");
  _ ← CreateCard (event_request "event:2" "friday  deploy" "no");
  mret tt.
Definition event_store : Store := exec event_build NewStore world0.
Definition event_ord : list string := ["event:1"; "event:2"].
Definition event_upgrade : UpgradeRequest := mkUpgradeRequest "" 0 f0 true.

Lemma UpgradeEventsToFacts_sound_witness :
  let s' := exec (UpgradeEventsToFacts event_ord ["deploy friday"] event_upgrade) event_store world0 in
  (∀ id, is_Some (cards event_store !! id) → is_Some (cards s' !! id)) ∧
  (λ c, (CardType c, Status c)) <$> last (versions_of s' (factCardIDFromTopic "deploy friday"))
    = Some ("fact", CardStatusCandidate) ∧
  Status <$> last (versions_of s' "event:1") = Some CardStatusArchived.
Proof.
  split; [|split; vm_compute; reflexivity].
  apply (UpgradeEventsToFacts_sound event_ord ["deploy friday"] event_upgrade event_store world0).
  apply range_of_bool; vm_compute; reflexivity.
Defined.

