(* ===== verification/Recall.v ===== *)
(** * Recall ([internal/recall/service.go])

    Keyword recall over the latest cards: tokenisation, scoring, ranking, and
    the usage feedback that touches the cards a recall used. *)
From S2P Require Import Prelude GoStrings GoNum MemoryTypes MemoryStore.
Open Scope Z_scope.

(** The decimal digits [fmt] prints for a [float64]. *)
Class FloatFormat := format_float : float64 → string.

Section recall.
Context {tables : UnicodeTables} {digits : FloatFormat}.

(** [fmt.Sprintf("%v", value)]: maps print their keys in order. *)
Definition key_le (a b : string * string) : Prop := String.le a.1 b.1.
#[local] Instance key_le_dec : RelDecision key_le.
Proof. intros a b. unfold key_le. apply _. Defined.
Fixpoint Sprintf_v (a : Any) : string :=
  match a with
  | AStr s => s
  | AFloat f => format_float f
  | AInt z => Itoa z
  | ABool b => if b then "true" else "false"
  | ANull => "<nil>"
  | AStrs l => "[" +:+ Join l " " +:+ "]"
  | AList l => "[" +:+ Join (Sprintf_v <$> l) " " +:+ "]"
  | AMap l => "map[" +:+ Join ((λ kv, kv.1 +:+ ":" +:+ kv.2) <$>
                merge_sort key_le ((λ kv, (kv.1, Sprintf_v kv.2)) <$> l)) " " +:+ "]"
  end.

Definition newline : string := String (ascii_of_nat 10) "".
Definition crlf : string := String (ascii_of_nat 13) newline.

(** The text of one content value; [None] leaves the key out. *)
Definition flatten_value (value : Any) : option string :=
  match value with
  | AStr s => Some s
  | AStrs typed => Some (Join typed " ")
  | AList typed =>
      let parts := omap (λ item, match item with AStr s => Some s | _ => None end) typed in
      if decide (parts = []) then None else Some (Join parts " ")
  | _ => Some (TrimSpace (ReplaceAll (Sprintf_v value) newline " "))
  end.
Definition flattenContent (content : Content) : gmap string string :=
  match content with Some m => omap flatten_value m | None => ∅ end.

Definition sourceForCardType (cardType : string) : option string :=
  if decide (cardType ∈ ["web_search"; "search_summary"; "web_result"]) then Some "web"
  else if decide (cardType ∈ ["email_inbox"; "email_summary"; "email_thread"; "email_message"]) then Some "email"
  else if decide (cardType ∈ ["github_issue_search"; "github_issue_summary"; "github_issue"]) then Some "github"
  else if decide (cardType = "procedure") then Some "procedure"
  else None.

Definition baseWeight (cardType : string) : float64 :=
  if decide (cardType ∈ ["search_summary"; "email_summary"; "github_issue_summary"]) then of_int 4
  else if decide (cardType = "email_thread") then lit 35 10
  else if decide (cardType ∈ ["web_result"; "email_message"; "github_issue"]) then of_int 3
  else if decide (cardType = "procedure") then lit 38 10
  else if decide (cardType ∈ ["web_search"; "email_inbox"; "github_issue_search"]) then of_int 2
  else of_int 1.

(** [text[start:end]]: out of range bounds panic. *)
Definition slice (text : string) (start stop : nat) : result string :=
  if ((start <=? stop) && (stop <=? len text))%nat then Ok (String.substring start (stop - start) text)
  else Err EPanic.

Definition clip (text : string) (max : nat) : result string :=
  if (max <=? 3)%nat then slice text 0 max
  else s ← slice text 0 (max - 3); mret (s +:+ "...").

(** The match is searched in the lower-cased text, the slice taken from the
    text itself. *)
Definition snippetAroundMatch (text token : string) (max : nat) : result string :=
  let text := TrimSpace (ReplaceAll (ReplaceAll text crlf " ") newline " ") in
  if (len text <=? max)%nat then Ok text else
  if decide (token = "") then clip text max else
  match String.index 0 (ToLower token) (ToLower text) with
  | None => clip text max
  | Some idx =>
      let start := (idx - max / 3)%nat in
      let stop := Nat.min (start + max) (len text) in
      snippet ← slice text start stop;
      let snippet := if (0 <? start)%nat then "..." +:+ snippet else snippet in
      mret (if (stop <? len text)%nat then snippet +:+ "..." else snippet)
  end.

Fixpoint preview_key (fields : list string) (card : Card) : result string :=
  match fields with
  | [] => Ok (CardID card)
  | field :: rest =>
      match content_string (card_Content card) field with
      | Some value => if blank value then preview_key rest card else snippetAroundMatch value "" 180
      | None => preview_key rest card
      end
  end.
Definition previewCard : Card → result string :=
  preview_key ["summary"; "snippet"; "subject"; "title"; "body"; "goal"; "query"].

Definition splitQueryTokens (query : string) : list string :=
  let fields := Fields (ToLower query) in
  let query := TrimSpace (ToLower query) in
  let out := if decide (query = "") then [] else [query] in
  foldl (λ out field,
    if decide (field = "" ∨ field ∈ out) then out else out ++ [field]) out fields.

(** [None] is the nil map: no filter. *)
Definition normalizeSources (sources : list string) : option (gset string) :=
  let out : gset string := list_to_set (filter (λ s, s ≠ "") ((λ s, TrimSpace (ToLower s)) <$> sources)) in
  if decide (out = ∅) then None else Some out.

(** The loop over the tokens of one field. *)
Fixpoint score_tokens (value lower : string) (tokens : list string)
    (st : float64 * bool * string) : result (float64 * bool * string) :=
  match tokens with
  | [] => mret st
  | token :: rest =>
      let '(score, fieldMatched, bestSnippet) := st in
      if negb (bool_decide (token = "")) && Contains lower token then
        best ← (if decide (bestSnippet = "") then snippetAroundMatch value token 180
                else Ok bestSnippet);
        score_tokens value lower rest (fadd score f1, true, best)
      else score_tokens value lower rest st
  end.

(** [if fieldMatched { matchedFields = append(matchedFields, field) }] *)
Definition add_matched (fieldMatched : bool) (matchedFields : list string) (field : string) : list string :=
  if fieldMatched then matchedFields ++ [field] else matchedFields.

(** The loop over the fields, visited in the order of the list. *)
Fixpoint score_fields (fields : list (string * string)) (tokens : list string)
    (st : float64 * list string * string) : result (float64 * list string * string) :=
  match fields with
  | [] => mret st
  | (field, value) :: rest =>
      let '(score, matchedFields, bestSnippet) := st in
      '(score, fieldMatched, bestSnippet) ← score_tokens value (ToLower value) tokens (score, false, bestSnippet);
      score_fields rest tokens
        (score, add_matched fieldMatched matchedFields field, bestSnippet)
  end.

(** [ord] is the order in which the flattened content is visited. *)
Definition scoreCard (ord : list (string * string)) (card : Card) (query : string)
    (tokens : list string) : result (float64 * list string * string) :=
  let base := baseWeight (CardType card) in
  if blank query then snippet ← previewCard card; mret (base, [], snippet) else
  '(score, matchedFields, bestSnippet) ← score_fields ord tokens (f0, [], "");
  if decide (matchedFields = []) then Ok (f0, [], "") else
  preview ← previewCard card;
  mret (fadd base score, matchedFields, firstNonEmpty [bestSnippet; preview]).

Record RecallRequest := mkRecallRequest {
  rr_Query : string; Sources : list string; rr_Limit : Z }.
Record Hit := mkHit {
  h_Source : string; h_CardType : string; h_CardID : string; h_Score : float64;
  h_Snippet : string; MatchedFields : list string; h_Card : Card }.
Record Response := mkResponse { rs_Query : string; Hits : list Hit }.

(** The [less] function of the sort. *)
Definition hit_less (a b : Hit) : bool :=
  if feq (h_Score a) (h_Score b) then
    if decide (CreatedAt (h_Card a) = CreatedAt (h_Card b))
    then bool_decide (String.le (h_CardID a) (h_CardID b) ∧ h_CardID a ≠ h_CardID b)
    else bool_decide (CreatedAt (h_Card b) < CreatedAt (h_Card a))
  else flt (h_Score b) (h_Score a).
Definition hit_le (a b : Hit) : Prop := hit_less b a = false.
#[export] Instance hit_le_dec : RelDecision hit_le.
Proof. intros a b. unfold hit_le. apply _. Defined.

(** One turn of the loop over the latest cards: the hit it appends, if any. *)
Definition hit_of (fords : string → list (string * string)) (query : string)
    (tokens : list string) (filter : option (gset string)) (card : Card) : result (option Hit) :=
  if negb (IsRecallEligibleStatus (Status card)) then Ok None else
  match sourceForCardType (CardType card) with
  | None => Ok None
  | Some source =>
      if (match filter with Some f => negb (bool_decide (source ∈ f)) | None => false end) then Ok None
      else
        '(score, matchedFields, snippet) ← scoreCard (fords (CardID card)) card query tokens;
        if negb (bool_decide (query = "")) && feq score f0 then Ok None
        else Ok (Some (mkHit source (CardType card) (CardID card) score snippet matchedFields card))
  end.

Fixpoint collect_hits (f : Card → result (option Hit)) (cards : list Card) : result (list Hit) :=
  match cards with
  | [] => Ok []
  | card :: rest =>
      h ← f card;
      hits ← collect_hits f rest;
      mret (match h with Some h => h :: hits | None => hits end)
  end.

(** [ord] is the order of [range s.cards] in [LatestCards], [fords] the order
    in which the flattened content of each card is visited. *)
Definition Recall (ord : list string) (fords : string → list (string * string))
    (req : RecallRequest) (s : Store) : result Response :=
  let limit := if rr_Limit req <=? 0 then 10%nat else Z.to_nat (rr_Limit req) in
  let query := TrimSpace (rr_Query req) in
  let queryTokens := splitQueryTokens query in
  let sourceFilter := normalizeSources (Sources req) in
  hits ← collect_hits (hit_of fords query queryTokens sourceFilter) (LatestCards ord s);
  mret (mkResponse query (take limit (merge_sort hit_le hits))).

(** ** Feedback *)

Record UsageFeedback := mkFeedback {
  fb_CardID : string; ActivationDelta : float64; ConfidenceDelta : float64 }.

Definition merge_feedback (merged : gmap string UsageFeedback) (item : UsageFeedback)
    : gmap string UsageFeedback :=
  let cardID := TrimSpace (fb_CardID item) in
  if decide (cardID = "") then merged else
  let current := default (mkFeedback "" f0 f0) (merged !! cardID) in
  <[cardID := mkFeedback cardID (fadd (ActivationDelta current) (ActivationDelta item))
                (fadd (ConfidenceDelta current) (ConfidenceDelta item))]> merged.

(** [ord] is the order in which the merged feedback is visited. *)
Definition ApplyFeedback (ord : list string) (feedback : list UsageFeedback) : M Store unit :=
  let merged := foldl merge_feedback ∅ feedback in
  forM (λ cardID, match merged !! cardID with
    | Some item => _ ← TouchCard (fb_CardID item) (ActivationDelta item) (ConfidenceDelta item); mret tt
    | None => mret tt
    end) ord.

(** ** Scores *)

Fixpoint bump (n : nat) (x : float64) : float64 :=
  match n with O => x | S n => fadd (bump n x) f1 end.
Lemma bump_add n m x : bump (n + m) x = bump m (bump n x).
Proof.
  induction m as [|m IH]; [by rewrite Nat.add_0_r|]. rewrite Nat.add_succ_r. cbn. by rewrite IH.
Qed.
Lemma bump_not_nan n x : is_nan x = false → is_nan (bump n x) = false.
Proof.
  intros Hx. induction n as [|n IH]; [done|]. cbn. apply fadd_not_nan; [done|done|by right].
Qed.

Definition token_match (lower token : string) : bool :=
  negb (bool_decide (token = "")) && Contains lower token.
Fixpoint count_matches (lower : string) (tokens : list string) : nat :=
  match tokens with
  | [] => 0
  | t :: r => ((if token_match lower t then 1 else 0) + count_matches lower r)%nat
  end.
(** The number of (field, token) matches of a card. *)
Definition total_matches (tokens : list string) (fields : list (string * string)) : nat :=
  sum_list_with (λ kv, count_matches (ToLower kv.2) tokens) fields.

Lemma score_tokens_ok value lower tokens sc fm best sc' fm' best' :
  score_tokens value lower tokens (sc, fm, best) = Ok (sc', fm', best') →
  sc' = bump (count_matches lower tokens) sc ∧
  fm' = fm || (0 <? count_matches lower tokens)%nat.
Proof.
  revert sc fm best. induction tokens as [|t tokens IH]; intros sc fm best; cbn.
  { intros [= <- <- <-]. by rewrite orb_false_r. }
  fold (token_match lower t). destruct (token_match lower t).
  - intros (b & _ & E)%result_bind_Ok. destruct (IH _ _ _ E) as [-> ->].
    split; [by rewrite (bump_add 1)|]. by rewrite orb_true_r.
  - intros E. destruct (IH _ _ _ E) as [-> ->]. done.
Qed.

Lemma total_matches_cons tokens f v fields :
  total_matches tokens ((f, v) :: fields)
  = (count_matches (ToLower v) tokens + total_matches tokens fields)%nat.
Proof. done. Qed.

Lemma score_fields_ok fields tokens sc ms best sc' ms' best' :
  score_fields fields tokens (sc, ms, best) = Ok (sc', ms', best') →
  sc' = bump (total_matches tokens fields) sc ∧
  (ms' = [] ↔ ms = [] ∧ total_matches tokens fields = 0%nat).
Proof.
  revert sc ms best. induction fields as [|[f v] fields IH]; intros sc ms best.
  { cbn. intros [= <- <- <-]. naive_solver. }
  rewrite total_matches_cons. cbn [score_fields].
  intros ([[sc1 fm1] b1] & E1 & E2)%result_bind_Ok.
  apply score_tokens_ok in E1 as [-> ->]. destruct (IH _ _ _ E2) as [-> ->].
  split; [by rewrite bump_add|]. unfold add_matched. cbn [orb].
  destruct (Nat.ltb_spec 0 (count_matches (ToLower v) tokens)).
  - split; [intros [? _]; by destruct ms|lia].
  - assert (count_matches (ToLower v) tokens = 0%nat) as -> by lia. done.
Qed.

(** The score of a card, as a function of its fields in any order. *)
Definition card_score (fields : list (string * string)) (card : Card) (query : string)
    (tokens : list string) : float64 :=
  if blank query then baseWeight (CardType card) else
  let n := total_matches tokens fields in
  if decide (n = 0%nat) then f0 else fadd (baseWeight (CardType card)) (bump n f0).

Lemma total_matches_Permutation tokens fields1 fields2 :
  fields1 ≡ₚ fields2 → total_matches tokens fields1 = total_matches tokens fields2.
Proof. unfold total_matches. induction 1; cbn; lia. Qed.

Lemma card_score_Permutation fields1 fields2 card query tokens :
  fields1 ≡ₚ fields2 → card_score fields1 card query tokens = card_score fields2 card query tokens.
Proof. intros H. unfold card_score. by rewrite (total_matches_Permutation _ _ _ H). Qed.

Lemma scoreCard_ok ord card query tokens sc ms sn :
  scoreCard ord card query tokens = Ok (sc, ms, sn) → sc = card_score ord card query tokens.
Proof.
  unfold scoreCard, card_score. destruct (blank query).
  { by intros (? & _ & [= <- _ _])%result_bind_Ok. }
  intros ([[sc1 ms1] b1] & E & Hk)%result_bind_Ok. apply score_fields_ok in E as [-> Hms].
  destruct (decide (ms1 = [])) as [He|He].
  - apply Hms in He as [_ ->]. rewrite decide_True by done. by injection Hk as <- _ _.
  - rewrite decide_False by naive_solver. by apply result_bind_Ok in Hk as (? & _ & [= <- _ _]).
Qed.

Lemma baseWeight_ok ty : is_nan (baseWeight ty) = false ∧ is_finite (baseWeight ty) = true.
Proof. unfold baseWeight. repeat case_decide; by vm_compute. Qed.

Lemma card_score_not_nan fields card query tokens : is_nan (card_score fields card query tokens) = false.
Proof.
  unfold card_score. destruct (baseWeight_ok (CardType card)). destruct (blank query); [done|].
  case_decide; [done|]. apply fadd_not_nan; [done|by apply bump_not_nan|by left].
Qed.

(** ** Hits *)

(** The source filter lets [source] through. *)
Definition allowed (filter : option (gset string)) (source : string) : bool :=
  match filter with Some f => bool_decide (source ∈ f) | None => true end.

(** Whether the loop keeps a card, given its score. *)
Definition keeps (fords : string → list (string * string)) (query : string) (tokens : list string)
    (filter : option (gset string)) (card : Card) : bool :=
  IsRecallEligibleStatus (Status card)
  && match sourceForCardType (CardType card) with Some source => allowed filter source | None => false end
  && (bool_decide (query = "") || negb (feq (card_score (fords (CardID card)) card query tokens) f0)).

(** The hit the loop builds for a card it keeps. *)
Definition hit_for (fords : string → list (string * string)) (query : string) (tokens : list string)
    (h : Hit) : Prop :=
  h_CardID h = CardID (h_Card h) ∧ h_CardType h = CardType (h_Card h) ∧
  sourceForCardType (h_CardType h) = Some (h_Source h) ∧
  h_Score h = card_score (fords (h_CardID h)) (h_Card h) query tokens.

Lemma hit_of_ok fords query tokens filter card o :
  hit_of fords query tokens filter card = Ok o →
  if keeps fords query tokens filter card
  then ∃ h, o = Some h ∧ h_Card h = card ∧ hit_for fords query tokens h
  else o = None.
Proof.
  unfold hit_of, keeps. destruct (IsRecallEligibleStatus _); [|by intros [= <-]]. cbn [negb andb].
  destruct (sourceForCardType (CardType card)) as [source|] eqn:Es; [|by intros [= <-]].
  assert ((match filter with Some f => negb (bool_decide (source ∈ f)) | None => false end)
          = negb (allowed filter source)) as -> by (by destruct filter).
  destruct (allowed filter source); [|by intros [= <-]]. cbn [negb andb].
  intros ([[sc ms] sn] & E%scoreCard_ok & Hk)%result_bind_Ok. subst sc.
  destruct (bool_decide (query = "")); cbn in *.
  - injection Hk as <-. eexists. done.
  - destruct (feq _ f0); injection Hk as <-; [done|]. eexists. done.
Qed.

Lemma collect_hits_ok fords query tokens flt cards hits :
  collect_hits (hit_of fords query tokens flt) cards = Ok hits →
  h_Card <$> hits = filter (λ c, keeps fords query tokens flt c = true) cards ∧
  Forall (hit_for fords query tokens) hits.
Proof.
  revert hits. induction cards as [|c cards IH]; intros hits; cbn [collect_hits]; [by intros [= <-]|].
  intros (o & E & (hs & E2 & [= <-])%result_bind_Ok)%result_bind_Ok.
  destruct (IH _ E2) as [Hc Hf]. apply hit_of_ok in E. rewrite filter_cons.
  destruct (keeps _ _ _ _ c).
  - destruct E as (h & -> & <- & Hh). rewrite decide_True by done. cbn [fmap list_fmap]. rewrite <- Hc. auto.
  - subst o. by rewrite decide_False.
Qed.

(** ** The order of the hits *)

Definition hit_nan (h : Hit) : Prop := is_nan (h_Score h) = false.

Lemma hit_less_key a b :
  hit_nan a → hit_nan b →
  hit_less a b = true ↔
    key_lt (fkey (h_Score b)) (fkey (h_Score a)) ∨
    (fkey (h_Score a) = fkey (h_Score b) ∧
      (CreatedAt (h_Card b) < CreatedAt (h_Card a) ∨
       (CreatedAt (h_Card a) = CreatedAt (h_Card b) ∧
        String.le (h_CardID a) (h_CardID b) ∧ h_CardID a ≠ h_CardID b))).
Proof.
  unfold hit_nan. intros Ha Hb. unfold hit_less.
  pose proof (feq_key _ _ Ha Hb) as He. pose proof (flt_key _ _ Hb Ha) as Hl.
  destruct (feq (h_Score a) (h_Score b)).
  - assert (fkey (h_Score a) = fkey (h_Score b)) as E by (by apply He). rewrite E.
    assert (¬ key_lt (fkey (h_Score b)) (fkey (h_Score b))) by (unfold key_lt; lia).
    case_decide; rewrite bool_decide_eq_true; naive_solver lia.
  - assert (fkey (h_Score a) ≠ fkey (h_Score b)) as E by (by intros E%He). rewrite Hl. naive_solver.
Qed.

Lemma key_total a b : key_lt a b ∨ a = b ∨ key_lt b a.
Proof.
  destruct a as [[x y] z], b as [[x' y'] z']. unfold key_lt; cbn.
  destruct (Z.lt_total x x') as [|[->|]], (Z.lt_total y y') as [|[->|]], (Z.lt_total z z') as [|[->|]]; auto; lia.
Qed.

Lemma hit_le_key a b :
  hit_nan a → hit_nan b →
  hit_le a b ↔
    key_lt (fkey (h_Score b)) (fkey (h_Score a)) ∨
    (fkey (h_Score a) = fkey (h_Score b) ∧
      (CreatedAt (h_Card b) < CreatedAt (h_Card a) ∨
       (CreatedAt (h_Card a) = CreatedAt (h_Card b) ∧ String.le (h_CardID a) (h_CardID b)))).
Proof.
  intros Ha Hb. unfold hit_le. rewrite <- not_true_iff_false, (hit_less_key b a Hb Ha).
  destruct (key_total (fkey (h_Score a)) (fkey (h_Score b))) as [H|[H|H]].
  - assert (¬ key_lt (fkey (h_Score b)) (fkey (h_Score a))) by (unfold key_lt in *; lia).
    split; [naive_solver|]. intros [?|[E _]]; [done|]. unfold key_lt in H. rewrite E in H. lia.
  - rewrite H. assert (¬ key_lt (fkey (h_Score b)) (fkey (h_Score b))) by (unfold key_lt; lia).
    split.
    + intros Hn. right. split; [done|].
      destruct (Z.lt_total (CreatedAt (h_Card a)) (CreatedAt (h_Card b))) as [|[E|]]; [|right|auto].
      { exfalso. apply Hn. auto. }
      split; [done|]. destruct (decide (h_CardID a = h_CardID b)) as [->|Hne]; [done|].
      destruct (total String.le (h_CardID a) (h_CardID b)) as [|Hle]; [done|].
      exfalso. apply Hn. right. split; [done|]. right. split_and!; congruence.
    + intros [?|(_ & Hc)]; [done|]. intros [?|(_ & Hc')]; [done|].
      destruct Hc as [?|[E Hle]], Hc' as [?|(E' & Hle' & Hne)]; try lia.
      apply Hne. by apply (anti_symm String.le).
  - assert (¬ key_lt (fkey (h_Score a)) (fkey (h_Score b))) by (unfold key_lt in *; lia).
    split; [by left|]. intros _ [?|[E _]]; [done|]. unfold key_lt in H. rewrite E in H. lia.
Qed.

#[export] Instance hit_le_total : Total hit_le.
Proof.
  intros a b. destruct (is_nan (h_Score a)) eqn:Ha; [|destruct (is_nan (h_Score b)) eqn:Hb].
  - left. unfold hit_le, hit_less. by destruct (h_Score a), (h_Score b).
  - left. unfold hit_le, hit_less. by destruct (h_Score a) as [|[]| |], (h_Score b) as [|[]| |].
  - rewrite (hit_le_key a b Ha Hb), (hit_le_key b a Hb Ha).
    destruct (key_total (fkey (h_Score a)) (fkey (h_Score b))) as [?|[E|?]]; auto. rewrite E.
    destruct (Z.lt_total (CreatedAt (h_Card a)) (CreatedAt (h_Card b))) as [|[|]]; auto 6.
    destruct (total String.le (h_CardID a) (h_CardID b)); auto 6.
Qed.

Lemma hit_le_trans a b c :
  hit_nan a → hit_nan b → hit_nan c → hit_le a b → hit_le b c → hit_le a c.
Proof.
  intros Ha Hb Hc. rewrite !hit_le_key by done.
  intros [H1|[E1 H1]] [H2|[E2 H2]].
  - left. unfold key_lt in *. lia.
  - left. by rewrite <- E2.
  - left. by rewrite E1.
  - right. split; [congruence|]. destruct H1 as [|[? ?]], H2 as [|[? ?]]; [left; lia..|].
    right. split; [congruence|]. by etrans.
Qed.

Lemma hit_for_not_nan fords query tokens h : hit_for fords query tokens h → hit_nan h.
Proof. intros (_ & _ & _ & H). unfold hit_nan. rewrite H. apply card_score_not_nan. Qed.

Lemma sorted_hits fords query tokens hits :
  Forall (hit_for fords query tokens) hits →
  StronglySorted hit_le (merge_sort hit_le hits) ∧ Forall (hit_for fords query tokens) (merge_sort hit_le hits).
Proof.
  intros Hf. assert (Forall (hit_for fords query tokens) (merge_sort hit_le hits)) as Hf'
    by (by rewrite merge_sort_Permutation).
  split; [|done]. apply (Sorted_StronglySorted_on hit_le hit_nan).
  - intros a b c. apply hit_le_trans.
  - eapply Forall_impl; [exact Hf'|]. intros h. apply hit_for_not_nan.
  - apply Sorted_merge_sort. apply _.
Qed.

(** What a call of [Recall] collects before ranking. *)
Definition recall_limit (req : RecallRequest) : nat :=
  if rr_Limit req <=? 0 then 10%nat else Z.to_nat (rr_Limit req).
Definition kept_cards (ord : list string) (fords : string → list (string * string))
    (req : RecallRequest) (s : Store) : list Card :=
  filter (λ c, keeps fords (TrimSpace (rr_Query req)) (splitQueryTokens (TrimSpace (rr_Query req)))
                 (normalizeSources (Sources req)) c = true) (LatestCards ord s).
Definition request_hit (fords : string → list (string * string)) (req : RecallRequest) : Hit → Prop :=
  hit_for fords (TrimSpace (rr_Query req)) (splitQueryTokens (TrimSpace (rr_Query req))).

Lemma Recall_run ord fords req s resp :
  Recall ord fords req s = Ok resp →
  ∃ hits, h_Card <$> hits = kept_cards ord fords req s ∧ Forall (request_hit fords req) hits ∧
    Hits resp = take (recall_limit req) (merge_sort hit_le hits).
Proof.
  unfold Recall. intros (hits & E & [= <-])%result_bind_Ok.
  exists hits. apply collect_hits_ok in E as [H1 H2]. done.
Qed.

Lemma Recall_length ord fords req s resp :
  Recall ord fords req s = Ok resp → (length (Hits resp) ≤ recall_limit req)%nat.
Proof. intros (hits & _ & _ & ->)%Recall_run. rewrite length_take. lia. Qed.

(** Where a hit comes from. *)
Lemma Recall_hit ord fords req s resp h :
  Recall ord fords req s = Ok resp → h ∈ Hits resp →
  request_hit fords req h ∧ h_Card h ∈ LatestCards ord s ∧
  IsRecallEligibleStatus (Status (h_Card h)) = true ∧
  allowed (normalizeSources (Sources req)) (h_Source h) = true.
Proof.
  intros (hits & Hc & Hf & ->)%Recall_run. destruct (sorted_hits _ _ _ _ Hf) as [_ Hf'].
  intros Hin%subseteq_take. rewrite Forall_forall in Hf'. pose proof (Hf' _ Hin) as Hh.
  split; [done|]. rewrite merge_sort_Permutation in Hin.
  assert (h_Card h ∈ kept_cards ord fords req s) as Hk by (rewrite <- Hc; by apply list_elem_of_fmap_2).
  unfold kept_cards in Hk. apply list_elem_of_filter in Hk as [Hk Hl]. split; [done|].
  unfold keeps in Hk. apply andb_true_iff in Hk as [[H1 H2]%andb_true_iff _]. split; [done|].
  destruct Hh as (_ & Ht & Hsrc & _). rewrite Ht in Hsrc. by rewrite Hsrc in H2.
Qed.

(** C14. What [Recall] returns: at most the limit, ranked by score, then
    recency, then card ID; each hit carries the latest version of an active
    card of an allowed source with its computed score, and a card the filters
    keep is left out only when the limit is reached and every returned hit
    ranks before it. *)
Theorem Recall_ranked ord fords req s resp :
  Recall ord fords req s = Ok resp →
  (length (Hits resp) ≤ recall_limit req)%nat ∧
  StronglySorted hit_le (Hits resp) ∧
  (∀ h, h ∈ Hits resp → request_hit fords req h ∧ h_Card h ∈ LatestCards ord s ∧
     IsRecallEligibleStatus (Status (h_Card h)) = true ∧
     allowed (normalizeSources (Sources req)) (h_Source h) = true) ∧
  (∀ c, c ∈ kept_cards ord fords req s →
     (∃ h, h ∈ Hits resp ∧ h_Card h = c) ∨
     length (Hits resp) = recall_limit req ∧
       ∃ h', h_Card h' = c ∧ request_hit fords req h' ∧ ∀ h, h ∈ Hits resp → hit_le h h').
Proof.
  intros E. pose proof E as (hits & Hc & Hf & Eh)%Recall_run.
  split; [by eapply Recall_length|]. destruct (sorted_hits _ _ _ _ Hf) as [Hs Hf'].
  split; [rewrite Eh; by apply StronglySorted_take|]. split; [|rewrite Eh].
  - intros h. by apply Recall_hit.
  - intros c Hin. rewrite <- Hc in Hin. apply list_elem_of_fmap in Hin as (h & -> & Hin).
    rewrite <- (merge_sort_Permutation hit_le) in Hin.
    rewrite <- (take_drop (recall_limit req) (merge_sort hit_le hits)) in Hin.
    apply elem_of_app in Hin as [Hin|Hin]; [left; eauto|right].
    assert (recall_limit req < length (merge_sort hit_le hits))%nat.
    { apply Nat.nle_gt. intros Hle. rewrite drop_ge in Hin by done. by apply elem_of_nil in Hin. }
    split; [rewrite length_take; lia|]. exists h. split_and!; [done| |].
    + rewrite Forall_forall in Hf'. apply Hf'. by eapply subseteq_drop.
    + intros h' Hin'. by eapply StronglySorted_take_drop.
Qed.

(** The rank of a hit, which the map orders cannot change. *)
Definition ranked (h : Hit) : Card * float64 := (h_Card h, h_Score h).
Definition rank_le (a b : Card * float64) : Prop :=
  hit_le (mkHit "" "" (CardID a.1) a.2 "" [] a.1) (mkHit "" "" (CardID b.1) b.2 "" [] b.1).

Lemma ranked_hits fords query tokens hits :
  Forall (hit_for fords query tokens) hits →
  ranked <$> hits = (λ c, (c, card_score (fords (CardID c)) c query tokens)) <$> (h_Card <$> hits).
Proof.
  intros Hf. rewrite <- list_fmap_compose. apply list_fmap_ext. intros i h Hi.
  destruct (Forall_lookup_1 _ _ _ _ Hf Hi) as (E & _ & _ & Hs). unfold ranked. cbn. by rewrite Hs, E.
Qed.

Lemma rank_le_hit fords query tokens a b :
  hit_for fords query tokens a → hit_for fords query tokens b → hit_le a b →
  rank_le (ranked a) (ranked b).
Proof. intros (Ha & _) (Hb & _). unfold rank_le, ranked, hit_le, hit_less. cbn. by rewrite <- Ha, <- Hb. Qed.

Lemma rank_le_antisym a b :
  is_nan a.2 = false → is_nan b.2 = false → rank_le a b → rank_le b a → CardID a.1 = CardID b.1.
Proof.
  intros Ha Hb. unfold rank_le. rewrite !hit_le_key by done. cbn. unfold key_lt.
  destruct (fkey a.2) as [[x y] z], (fkey b.2) as [[x' y'] z']. cbn.
  intros [H1|[E1 [H1|[K1 H1]]]] [H2|[E2 [H2|[K2 H2]]]]; try (simplify_eq; lia).
  by apply (anti_symm String.le).
Qed.

(** Field orders that visit the flattened content of every latest card. *)
Definition field_orders (ord : list string) (s : Store) (fords : string → list (string * string)) : Prop :=
  ∀ c, c ∈ LatestCards ord s → fords (CardID c) ≡ₚ map_to_list (flattenContent (card_Content c)).

Lemma filter_ext_in {A} (P Q : A → Prop) `{∀ x, Decision (P x)} `{∀ x, Decision (Q x)} (l : list A) :
  (∀ x, x ∈ l → P x ↔ Q x) → filter P l = filter Q l.
Proof.
  induction l as [|x l IH]; intros Hpq; [done|]. rewrite !filter_cons.
  rewrite IH by (intros; apply Hpq; by right).
  pose proof (Hpq x ltac:(left)). repeat case_decide; naive_solver.
Qed.

Lemma LatestCards_NoDup ord s : store_wf s → NoDup ord → NoDup (CardID <$> LatestCards ord s).
Proof.
  intros Hs Hn. unfold LatestCards. rewrite (merge_sort_Permutation newest_first).
  by apply latest_NoDup.
Qed.

(** Recall is deterministic: Go iterates maps in a random order, over the
    cards and over the content of each card, yet every order returns the same
    cards in the same ranking with the same scores. *)
Theorem Recall_deterministic ord1 ord2 fords1 fords2 req s resp1 resp2 :
  store_wf s → range_of (cards s) ord1 → range_of (cards s) ord2 →
  field_orders ord1 s fords1 → field_orders ord1 s fords2 →
  Recall ord1 fords1 req s = Ok resp1 → Recall ord2 fords2 req s = Ok resp2 →
  ranked <$> Hits resp1 = ranked <$> Hits resp2.
Proof.
  intros Hs Ho1 Ho2 Hf1 Hf2 (hits1 & Hc1 & Hh1 & ->)%Recall_run (hits2 & Hc2 & Hh2 & ->)%Recall_run.
  destruct (LatestCards_run ord1 ord2 s Hs Ho1 Ho2) as (Hl & _ & _).
  set (query := TrimSpace (rr_Query req)) in *. set (tokens := splitQueryTokens query) in *.
  assert (∀ c, c ∈ LatestCards ord1 s →
    card_score (fords1 (CardID c)) c query tokens = card_score (fords2 (CardID c)) c query tokens) as Hsc.
  { intros c Hc. apply card_score_Permutation. by rewrite (Hf1 c Hc), (Hf2 c Hc). }
  assert (kept_cards ord1 fords1 req s = kept_cards ord2 fords2 req s) as Hk.
  { unfold kept_cards. rewrite <- Hl. apply filter_ext_in. intros c Hc.
    fold query tokens. unfold keeps. by rewrite (Hsc c Hc). }
  assert (ranked <$> hits1 = ranked <$> hits2) as Hr.
  { rewrite (ranked_hits _ _ _ _ Hh1), (ranked_hits _ _ _ _ Hh2), Hc1, Hc2, <- Hk.
    apply list_fmap_ext. intros i c Hi. f_equal. apply Hsc.
    apply list_elem_of_lookup_2 in Hi. by apply list_elem_of_filter in Hi as [_ ?]. }
  rewrite !fmap_take. f_equal.
  destruct (sorted_hits _ _ _ _ Hh1) as [Hs1 Hm1]. destruct (sorted_hits _ _ _ _ Hh2) as [Hs2 Hm2].
  apply (StronglySorted_unique_strong rank_le).
  - intros a b Ha Hb Hab Hba. rewrite merge_sort_Permutation in Ha, Hb. rewrite <- Hr in Hb.
    rewrite (ranked_hits _ _ _ _ Hh1), Hc1 in Ha, Hb.
    apply list_elem_of_fmap in Ha as (ca & -> & Ha). apply list_elem_of_fmap in Hb as (cb & -> & Hb).
    apply rank_le_antisym in Hba; [|apply card_score_not_nan..|done]. cbn in Hba.
    unfold kept_cards in Ha, Hb. apply list_elem_of_filter in Ha as [_ Ha], Hb as [_ Hb].
    assert (cb = ca) as ->; [|done].
    eapply (NoDup_fmap_eq CardID); [|done..].
    by apply LatestCards_NoDup; [|apply Ho1].
  - eapply StronglySorted_map; [|exact Hs1]. rewrite Forall_forall in Hm1.
    intros a b Ha Hb. eapply rank_le_hit; auto.
  - eapply StronglySorted_map; [|exact Hs2]. rewrite Forall_forall in Hm2.
    intros a b Ha Hb. eapply rank_le_hit; auto.
  - by rewrite !merge_sort_Permutation, Hr.
Qed.

(** ** Panics *)

Lemma index_le sub s n : String.index 0 sub s = Some n → (n ≤ len s)%nat.
Proof.
  revert n. induction s as [|a s IH]; intros n; cbn.
  - destruct sub; [intros [= <-]; lia|done].
  - destruct (_ : bool); [intros [= <-]; lia|].
    destruct (String.index 0 sub s) as [m|]; [|done]. intros [= <-].
    specialize (IH m eq_refl). unfold len in *. cbn. lia.
Qed.

Lemma slice_ok text start stop :
  (start ≤ stop)%nat → (stop ≤ len text)%nat → is_ok (slice text start stop) = true.
Proof. intros H1 H2. unfold slice. by rewrite (proj2 (Nat.leb_le _ _) H1), (proj2 (Nat.leb_le _ _) H2). Qed.

Lemma clip_ok text max : (max < len text)%nat → is_ok (clip text max) = true.
Proof.
  intros H. unfold clip. destruct (max <=? 3)%nat; [apply slice_ok; lia|].
  pose proof (slice_ok text 0 (max - 3) ltac:(lia) ltac:(lia)) as Hok.
  by destruct (slice _ _ _).
Qed.

(** Lower-casing keeps the number of bytes, as on ASCII text. *)
Definition case_preserves_length : Prop := ∀ s, len (ToLower s) = len s.

Lemma snippet_ok text token max :
  case_preserves_length → is_ok (snippetAroundMatch text token max) = true.
Proof.
  intros Hlen. unfold snippetAroundMatch. set (t := TrimSpace _).
  destruct (Nat.leb_spec (len t) max); [done|]. case_decide; [by apply clip_ok|].
  destruct (String.index _ _ _) as [idx|] eqn:Ei; [|by apply clip_ok].
  apply index_le in Ei. rewrite Hlen in Ei.
  pose proof (slice_ok t (idx - max / 3) (Nat.min (idx - max / 3 + max) (len t)) ltac:(lia) ltac:(lia)) as Hok.
  by destruct (slice _ _ _).
Qed.

Lemma preview_ok fields card : case_preserves_length → is_ok (preview_key fields card) = true.
Proof.
  intros Hlen. induction fields as [|f fields IH]; [done|]. cbn -[snippetAroundMatch].
  destruct (content_string _ _); [|done]. destruct (blank _); [done|]. by apply snippet_ok.
Qed.

Lemma is_ok_bind {A B} (r : result A) (f : A → result B) :
  is_ok r = true → (∀ a, is_ok (f a) = true) → is_ok (r ≫= f) = true.
Proof. destruct r; cbn; auto. Qed.

Lemma score_tokens_safe value lower tokens st :
  case_preserves_length → is_ok (score_tokens value lower tokens st) = true.
Proof.
  intros Hlen. revert st. induction tokens as [|t tokens IH]; intros [[sc fm] b]; [done|].
  cbn -[snippetAroundMatch]. destruct (_ && _); [|apply IH]. apply is_ok_bind; [|intros; apply IH].
  case_decide; [by apply snippet_ok|done].
Qed.

Lemma score_fields_safe fields tokens st :
  case_preserves_length → is_ok (score_fields fields tokens st) = true.
Proof.
  intros Hlen. revert st. induction fields as [|[f v] fields IH]; intros [[sc ms] b]; [done|].
  cbn [score_fields]. apply is_ok_bind; [by apply score_tokens_safe|]. intros [[? ?] ?]. apply IH.
Qed.

(** Recall never panics as long as lower-casing keeps the length of a
    string: the offset of a match in the lower-cased text is then a valid
    offset of the text itself. *)
Theorem Recall_total ord fords req s :
  case_preserves_length → is_ok (Recall ord fords req s) = true.
Proof.
  intros Hlen. unfold Recall. apply is_ok_bind; [|done].
  generalize (LatestCards ord s) as cards. induction cards as [|c cards IH]; [done|].
  cbn [collect_hits]. apply is_ok_bind; [|intros; by apply is_ok_bind].
  unfold hit_of. destruct (negb _); [done|]. destruct (sourceForCardType _); [|done].
  destruct (match _ with Some _ => _ | None => _ end); [done|].
  apply is_ok_bind; [|intros [[? ?] ?]; by destruct (_ && _)].
  unfold scoreCard. destruct (blank _).
  - apply is_ok_bind; [by apply preview_ok|done].
  - apply is_ok_bind; [by apply score_fields_safe|]. intros [[? ?] ?]. case_decide; [done|].
    apply is_ok_bind; [by apply preview_ok|done].
Qed.
End recall.

(** *** Concrete runs *)

Lemma map_bytes_len f s : len (map_bytes f s) = len s.
Proof. unfold len. induction s; cbn; auto. Qed.
Lemma caseless_preserves_length : @case_preserves_length caseless_tables.
Proof. intros s. unfold ToLower, unicode_lower, caseless_tables. by destruct (is_ascii s); rewrite map_bytes_len. Qed.

(** Digits for the witnesses: no witness prints a float. *)
Definition no_digits : FloatFormat := λ _, "0".
#[local] Existing Instances caseless_tables no_digits.

Definition web_request (cardID title : string) : CreateCardRequest :=
  mkCreateCardRequest cardID "web_result" ScopeProject "" "" None None None
    (Some (<["title" := AStr title]> {["snippet" := AStr "Go release notes"]})) None no_provenance.
Definition web_build : M Store unit :=
  _ ← CreateCard (web_request "web:1" "Release of Go");
  _ ← CreateCard (web_request "web:2" "Weather");
  _ ← CreateCard (web_request "web:3" "release calendar");
  mret tt.
Definition web_store : Store := exec web_build NewStore world0.
Lemma web_store_wf : store_wf web_store.
Proof.
  apply (preserves_exec store_wf web_build); [|apply NewStore_wf]. unfold web_build. preserves_tac.
Qed.
Definition web_ord1 : list string := ["web:1"; "web:2"; "web:3"].
Definition web_ord2 : list string := ["web:3"; "web:1"; "web:2"].
Lemma web_range ord : ord ≡ₚ web_ord1 → range_of (cards web_store) ord.
Proof.
  intros Hp. split.
  - rewrite Hp. vm_compute; repeat constructor; rewrite ?elem_of_cons, ?elem_of_nil; naive_solver.
  - intros k. rewrite Hp. unfold web_ord1.
    replace (dom (cards web_store)) with ({["web:1"; "web:2"; "web:3"]} : gset string) by (by vm_compute).
    set_solver.
Qed.
Definition web_fields (s : Store) (rv : bool) (cardID : string) : list (string * string) :=
  let l := map_to_list (flattenContent (c ← last (versions_of s cardID); card_Content c)) in
  if rv then reverse l else l.
Definition web_query : RecallRequest := mkRecallRequest " release Go " [] 2.

Lemma web_field_orders ord rv : field_orders ord web_store (web_fields web_store rv).
Proof.
  intros c Hc. unfold LatestCards in Hc. rewrite merge_sort_Permutation in Hc.
  apply list_elem_of_omap in Hc as (id & _ & Hl). pose proof (resolve_CardID _ _ None _ web_store_wf Hl) as ->.
  unfold web_fields. cbn in Hl. rewrite Hl. cbn. destruct rv; [apply reverse_Permutation|done].
Qed.

Lemma Recall_ranked_witness :
  match Recall web_ord1 (web_fields web_store false) web_query web_store with
  | Ok resp => h_CardID <$> Hits resp = ["web:1"; "web:3"] ∧ StronglySorted hit_le (Hits resp)
  | Err _ => False
  end.
Proof.
  destruct (Recall _ _ _ _) as [resp|e] eqn:E.
  - split; [|apply (Recall_ranked _ _ _ _ _ E)].
    apply (f_equal (λ r, match r with Ok x => h_CardID <$> Hits x | Err _ => [] end)) in E.
    rewrite <- E. vm_compute. reflexivity.
  - apply (f_equal is_ok) in E. vm_compute in E. discriminate E.
Defined.

Lemma Recall_deterministic_witness :
  ∃ resp1 resp2, Recall web_ord1 (web_fields web_store false) web_query web_store = Ok resp1 ∧
    Recall web_ord2 (web_fields web_store true) web_query web_store = Ok resp2 ∧
    ranked <$> Hits resp1 = ranked <$> Hits resp2.
Proof.
  destruct (Recall web_ord1 (web_fields web_store false) web_query web_store) as [resp1|e] eqn:E1;
    [|apply (f_equal is_ok) in E1; vm_compute in E1; discriminate E1].
  destruct (Recall web_ord2 (web_fields web_store true) web_query web_store) as [resp2|e] eqn:E2;
    [|apply (f_equal is_ok) in E2; vm_compute in E2; discriminate E2].
  exists resp1, resp2. split_and!; [done..|].
  eapply (Recall_deterministic web_ord1 web_ord2 _ _ web_query web_store);
    [apply web_store_wf|apply web_range..|apply web_field_orders|apply web_field_orders|exact E1|exact E2].
  - done.
  - apply (Permutation_app_comm ["web:3"] ["web:1"; "web:2"]).
Defined.

Lemma Recall_total_witness :
  is_ok (Recall web_ord1 (web_fields web_store false) web_query web_store) = true.
Proof. apply Recall_total. exact caseless_preserves_length. Defined.

(** The lower case of U+023A takes three bytes where the letter takes two. *)
Definition stroke_upper : string := String (ascii_of_nat 200) (String (ascii_of_nat 186) "").
Definition stroke_lower : string :=
  String (ascii_of_nat 226) (String (ascii_of_nat 177) (String (ascii_of_nat 165) "")).
Definition stroke_tables : UnicodeTables :=
  λ s, map_bytes lower_byte (ReplaceAll s stroke_upper stroke_lower).
Fixpoint repeat_string (n : nat) (s : string) : string :=
  match n with O => "" | S n => s +:+ repeat_string n s end.

(** A match that follows enough such letters is sliced out of range: the call
    panics. *)
Lemma snippetAroundMatch_panics :
  @snippetAroundMatch stroke_tables (repeat_string 95 stroke_upper +:+ "x") "x" 180 = Err EPanic.
Proof. vm_compute. reflexivity. Qed.
