(* ===== verification/StatusDirs.v ===== *)
(** * Record stores with one directory per status

    The approval, task and action stores keep each record in the file
    [<status>/<id>.json].  This file holds what they share: finding a record,
    listing a directory, writing and moving a record, and the invariants that
    a file lies where its record says and that an ID has one file. *)
From S2P Require Import Prelude GoStrings GoNum.
Open Scope Z_scope.

(** What a record type promises to the store. *)
Class DirRecord (R : Type) := {
  rec_id : R → string;
  rec_status : R → string;
  rec_json_ok : R → bool;
  (** what a written record reads back as *)
  rec_norm : R → R;
  rec_norm_id r : rec_id (rec_norm r) = rec_id r;
  rec_norm_status r : rec_status (rec_norm r) = rec_status r }.

Abbreviation Dirs R := (gmap (string * string) (File R)).

Definition fileName (id : string) : string := id +:+ ".json".
Lemma fileName_inj a b : fileName a = fileName b → a = b.
Proof. apply string_app_inj_suffix. Qed.

Definition entry_le {A} (a b : string * A) : Prop := String.le a.1 b.1.
#[export] Instance entry_le_dec {A} : RelDecision (@entry_le A).
Proof. intros a b. unfold entry_le. apply _. Defined.

Section dirs.
Context {R : Type} `{DirRecord R}.

(** The loop of [findLocked]: the first directory that has the file decides. *)
Fixpoint find_record (notFound : error) (statuses : list string) (id : string) (m : Dirs R)
    : result (R * (string * string)) :=
  match statuses with
  | [] => Err notFound
  | status :: rest =>
      match m !! (status, fileName id) with
      | Some (Doc r) => Ok (r, (status, fileName id))
      | Some Torn => Err EJson
      | None => find_record notFound rest id m
      end
  end.

(** The [.json] entries of a directory, sorted by name. *)
Definition dir_entries (status : string) (m : Dirs R) : list (string * File R) :=
  merge_sort entry_le (omap (λ kv : string * string * File R,
      if decide (kv.1.1 = status ∧ HasSuffix kv.1.2 ".json" = true) then Some (kv.1.2, kv.2) else None)
    (map_to_list m)).

Fixpoint read_entries (entries : list (string * File R)) : result (list R) :=
  match entries with
  | [] => Ok []
  | (_, Torn) :: _ => Err EJson
  | (_, Doc r) :: rest => rs ← read_entries rest; mret (r :: rs)
  end.

Fixpoint read_dirs (statuses : list string) (m : Dirs R) : result (list R) :=
  match statuses with
  | [] => Ok []
  | status :: rest =>
      rs ← read_entries (dir_entries status m);
      rs' ← read_dirs rest m;
      mret (rs ++ rs')
  end.

(** ** Lookups *)

Lemma find_record_Ok nf statuses id m r p :
  find_record nf statuses id m = Ok (r, p) →
  m !! p = Some (Doc r) ∧ p.1 ∈ statuses ∧ p.2 = fileName id.
Proof.
  induction statuses as [|st sts IH]; cbn; [done|].
  destruct (m !! (st, fileName id)) as [[r'|]|] eqn:E; [|done|].
  - intros [= -> <-]. split_and!; [done|left|done].
  - intros (? & ? & ?)%IH. split_and!; [done|by right|done].
Qed.

Lemma dir_entries_elem status m n b :
  (n, b) ∈ dir_entries status m ↔ m !! (status, n) = Some b ∧ HasSuffix n ".json" = true.
Proof.
  unfold dir_entries. rewrite merge_sort_Permutation, list_elem_of_omap. split.
  - intros ([[d n'] b'] & Hin & He). cbn in He. case_decide as Hd; [|done].
    destruct Hd as [<- Hs]. injection He as <- <-. by apply elem_of_map_to_list in Hin.
  - intros [Hl Hs]. exists ((status, n), b). split; [by apply elem_of_map_to_list|].
    cbn. by rewrite decide_True.
Qed.

Lemma read_entries_elem entries rs r :
  read_entries entries = Ok rs → r ∈ rs ↔ ∃ n, (n, Doc r) ∈ entries.
Proof.
  revert rs. induction entries as [|[n [r'|]] entries IH]; intros rs; cbn; [|intros E|done].
  - intros [= <-]. split; [by intros ?%elem_of_nil|]. intros [? ?%elem_of_nil]. done.
  - apply result_bind_Ok in E as (rs' & E & [= <-]). rewrite elem_of_cons, (IH _ E).
    setoid_rewrite elem_of_cons. naive_solver.
Qed.

Lemma read_dirs_elem statuses m rs r :
  read_dirs statuses m = Ok rs →
  r ∈ rs ↔ ∃ st n, st ∈ statuses ∧ m !! (st, n) = Some (Doc r) ∧ HasSuffix n ".json" = true.
Proof.
  revert rs. induction statuses as [|st sts IH]; intros rs; cbn.
  - intros [= <-]. split; [by intros ?%elem_of_nil|]. by intros (? & ? & ?%elem_of_nil & _).
  - intros (rs1 & E1 & (rs2 & E2 & [= <-])%result_bind_Ok)%result_bind_Ok.
    rewrite elem_of_app, (read_entries_elem _ _ _ E1), (IH _ E2).
    setoid_rewrite dir_entries_elem. setoid_rewrite elem_of_cons. naive_solver.
Qed.

(** ** Writing *)

Context {S : Type} (dir : Lens S (Dirs R)).

(** [writeLocked]: marshal, then write the file. *)
Definition write_record (r : R) : M S unit :=
  if rec_json_ok r then WriteFile dir (rec_status r, fileName (rec_id r)) (rec_norm r)
  else throw EJson.

(** Remove the file a record was found at, then write the record. *)
Definition move_record (path : string * string) (r : R) : M S unit :=
  _ ← Remove dir path; write_record r.

(** The laws of a lens, as far as the invariants need them. *)
Definition lens_ok : Prop :=
  (∀ f s, view dir (over dir f s) = f (view dir s)) ∧
  (∀ f g s, over dir f (over dir g s) = over dir (λ m, f (g m)) s).

(** A file lies where its record says. *)
Definition dirs_wf (m : Dirs R) : Prop :=
  ∀ st n r, m !! (st, n) = Some (Doc r) → rec_status r = st ∧ fileName (rec_id r) = n.
(** An ID has one file. *)
Definition unique_ids (m : Dirs R) : Prop :=
  ∀ st1 st2 n, is_Some (m !! (st1, n)) → is_Some (m !! (st2, n)) → st1 = st2.

Lemma dirs_wf_insert m r : dirs_wf m → dirs_wf (<[(rec_status r, fileName (rec_id r)) := Doc (rec_norm r)]> m).
Proof.
  intros Hm st n r' [[[= <- <-] [= <-]]|[_ Hl]]%lookup_insert_Some; [|by apply Hm].
  by rewrite rec_norm_status, rec_norm_id.
Qed.
Lemma dirs_wf_torn m k : dirs_wf m → dirs_wf (<[k := Torn]> m).
Proof. intros Hm st n r' [[_ [=]]|[_ Hl]]%lookup_insert_Some. by apply Hm. Qed.
Lemma dirs_wf_delete m k : dirs_wf m → dirs_wf (delete k m).
Proof. intros Hm st n r' [_ Hl]%lookup_delete_Some. by apply Hm. Qed.

Lemma unique_delete m k : unique_ids m → unique_ids (delete k m).
Proof.
  intros Hu st1 st2 n [b1 [_ H1]%lookup_delete_Some] [b2 [_ H2]%lookup_delete_Some].
  apply (Hu _ _ n); eauto.
Qed.
Lemma unique_insert m st n b :
  unique_ids m → (∀ st', is_Some (m !! (st', n)) → st' = st) → unique_ids (<[(st, n) := b]> m).
Proof.
  intros Hu Hn st1 st2 n' [b1 H1] [b2 H2].
  apply lookup_insert_Some in H1 as [[E1 _]|[Hne1 H1]]; apply lookup_insert_Some in H2 as [[E2 _]|[Hne2 H2]];
    try (injection E1 as <- <-).
  - congruence.
  - symmetry. apply Hn. eauto.
  - injection E2 as <- <-. apply Hn. eauto.
  - apply (Hu _ _ n'); eauto.
Qed.

(** What writing leaves, whatever the fault: the old directories, or the new
    file on top of them. *)
Lemma write_record_run r s w :
  lens_ok → ∃ res s' w', write_record r s w = (res, s', w') ∧
    match res with
    | Ok _ => s' = over dir (insert (rec_status r, fileName (rec_id r)) (Doc (rec_norm r))) s
    | Err e => (e = EJson ∨ e = EIO) ∧
        (s' = s ∨ s' = over dir (insert (rec_status r, fileName (rec_id r)) Torn) s)
    end.
Proof.
  intros _. unfold write_record. destruct (rec_json_ok r); [|exists (Err EJson), s, w; split; [done|]; split; by left].
  unfold WriteFile. run. destruct (faults w (tick w)); eexists _, _, _; (split; [reflexivity|]).
  - done.
  - split; [by right|by left].
  - split; by right.
Qed.

Lemma move_record_run path r s w :
  lens_ok → ∃ res s' w', move_record path r s w = (res, s', w') ∧
    match res with
    | Ok _ => s' = over dir (insert (rec_status r, fileName (rec_id r)) (Doc (rec_norm r)) ∘ delete path) s
    | Err e => (e = EJson ∨ e = EIO) ∧ (s' = s ∨ s' = over dir (delete path) s ∨
        s' = over dir (insert (rec_status r, fileName (rec_id r)) Torn ∘ delete path) s)
    end.
Proof.
  intros Hl. unfold move_record, Remove. run.
  assert (∀ s', s' = over dir (delete path) s →
    ∃ res s2 w2, write_record r s' (advance w) = (res, s2, w2) ∧
    match res with
    | Ok _ => s2 = over dir (insert (rec_status r, fileName (rec_id r)) (Doc (rec_norm r)) ∘ delete path) s
    | Err e => (e = EJson ∨ e = EIO) ∧ (s2 = s ∨ s2 = over dir (delete path) s ∨
        s2 = over dir (insert (rec_status r, fileName (rec_id r)) Torn ∘ delete path) s)
    end) as Hw.
  { intros s' ->. destruct (write_record_run r (over dir (delete path) s) (advance w) Hl)
      as (res & s2 & w2 & E & Hres). exists res, s2, w2. split; [done|].
    destruct Hl as [_ Hl]. destruct res; [by rewrite Hres, Hl|].
    destruct Hres as [? [->| ->]]; [auto|]. rewrite Hl. auto. }
  destruct (faults w (tick w)); [by apply Hw|..]; eexists _, s, _; (split; [reflexivity|]).
  all: split; [by right|by left].
Qed.

Lemma write_record_reliable r s w :
  reliable w → rec_json_ok r = true →
  write_record r s w =
    (Ok tt, over dir (insert (rec_status r, fileName (rec_id r)) (Doc (rec_norm r))) s, advance w).
Proof. intros Hw Hj. unfold write_record. by rewrite Hj, WriteFile_reliable. Qed.
Lemma move_record_reliable path r s w :
  lens_ok → reliable w → rec_json_ok r = true →
  move_record path r s w =
    (Ok tt, over dir (insert (rec_status r, fileName (rec_id r)) (Doc (rec_norm r)) ∘ delete path) s,
     advance (advance w)).
Proof.
  intros [_ Hl] Hw Hj. unfold move_record. run. rewrite Remove_reliable by done.
  rewrite write_record_reliable by done. by rewrite Hl.
Qed.

(** Moving keeps both invariants, on every fault. *)
Definition view_inv (s : S) : Prop := dirs_wf (view dir s) ∧ unique_ids (view dir s).

Lemma move_record_inv path r s w :
  lens_ok → view_inv s → is_Some (view dir s !! path) → path.2 = fileName (rec_id r) →
  view_inv (exec (move_record path r) s w).
Proof.
  intros Hl [Hd Hu] Hp Hid. unfold exec.
  destruct (move_record_run path r s w Hl) as (res & s' & w' & -> & Hres). destruct Hl as [Hv _].
  assert (∀ b st, unique_ids (<[(st, fileName (rec_id r)) := b]> (delete path (view dir s)))) as Hun.
  { intros b st. apply unique_insert; [by apply unique_delete|].
    intros st' [x [Hne Hx]%lookup_delete_Some]. exfalso. apply Hne. destruct path as [st0 n]. cbn in Hid.
    subst n. f_equal. apply (Hu _ _ (fileName (rec_id r))); eauto. }
  unfold view_inv. destruct res as [[]|e].
  - subst s'. rewrite Hv. cbn. split; [by apply dirs_wf_insert, dirs_wf_delete|done].
  - destruct Hres as [_ [->|[->| ->]]]; rewrite ?Hv; cbn; [done|..].
    + split; [by apply dirs_wf_delete|by apply unique_delete].
    + split; [by apply dirs_wf_torn, dirs_wf_delete|done].
Qed.

Lemma write_record_inv r s w :
  lens_ok → view_inv s → (∀ st, is_Some (view dir s !! (st, fileName (rec_id r))) → st = rec_status r) →
  view_inv (exec (write_record r) s w).
Proof.
  intros Hl [Hd Hu] Hn. unfold exec.
  destruct (write_record_run r s w Hl) as (res & s' & w' & -> & Hres). destruct Hl as [Hv _].
  unfold view_inv. destruct res as [[]|e].
  - subst s'. rewrite Hv. split; [by apply dirs_wf_insert|by apply unique_insert].
  - destruct Hres as [_ [->| ->]]; rewrite ?Hv; [done|].
    split; [by apply dirs_wf_torn|by apply unique_insert].
Qed.
End dirs.
