(* ===== verification/Approval.v ===== *)
(** * Approvals ([internal/approval])

    Requests for privileged actions: pending, then approved or denied, an
    approved one consumed at most once, before it expires, with the token that
    was drawn when it was approved. *)
From S2P Require Import Prelude GoStrings GoNum StatusDirs.
Open Scope Z_scope.

(** ** Data *)

Definition StatusPending : string := "pending".
Definition StatusApproved : string := "approved".
Definition StatusDenied : string := "denied".
Definition StatusConsumed : string := "consumed".

Record Request := mkRequest {
  ApprovalID : string; TaskID : string; ExecutionProfile : string; ActionKind : string;
  Summary : string; RequestedBy : string; ApprovedBy : string; DeniedBy : string;
  DeniedReason : string; Status : string; ApprovalToken : string;
  Metadata : gmap string string;
  CreatedAt : Time; UpdatedAt : Time; ExpiresAt : option Time; UsedAt : option Time }.

Record CreateRequest := mkCreateRequest {
  cq_TaskID : string; cq_ExecutionProfile : string; cq_ActionKind : string;
  cq_Summary : string; cq_RequestedBy : string; cq_Metadata : gmap string string }.

Definition request_json_ok (r : Request) : bool :=
  json_time_ok (CreatedAt r) && json_time_ok (UpdatedAt r)
  && match ExpiresAt r with Some t => json_time_ok t | None => true end
  && match UsedAt r with Some t => json_time_ok t | None => true end.

#[export] Instance request_dir : DirRecord Request :=
  {| rec_id := ApprovalID; rec_status := Status; rec_json_ok := request_json_ok;
     rec_norm := id; rec_norm_id r := eq_refl; rec_norm_status r := eq_refl |}.

(** [rootDir/approvals], a directory per status, and the TTL of a token. An
    approval ID is a file name: IDs with a path separator are out of the model. *)
Record Store := mkStore { files : Dirs Request; defaultTTL : Z }.

Definition NewStore (ttl : Z) : Store := mkStore ∅ (if ttl <=? 0 then 10 * Minute else ttl).

Definition approvals : Lens Store (Dirs Request) :=
  mkLens files (λ f s, mkStore (f (files s)) (defaultTTL s)).
Lemma approvals_ok : lens_ok approvals.
Proof. done. Qed.

(** ** Operations *)

Definition statuses : list string := [StatusPending; StatusApproved; StatusDenied; StatusConsumed].

Definition findLocked (approvalID : string) : M Store (Request * (string * string)) :=
  s ← get; lift_result (find_record ErrApprovalNotFound statuses approvalID (files s)).

Definition writeLocked : Request → M Store unit := write_record approvals.

Definition newRequest (req : CreateRequest) (t : Time) : Request :=
  mkRequest ("approval-" +:+ Itoa t) (TrimSpace (cq_TaskID req))
    (TrimSpace (cq_ExecutionProfile req)) (TrimSpace (cq_ActionKind req))
    (TrimSpace (cq_Summary req)) (TrimSpace (cq_RequestedBy req)) "" "" "" StatusPending ""
    (cq_Metadata req) t t None None.

Definition Create (req : CreateRequest) : M Store Request :=
  if blank (cq_ExecutionProfile req) || blank (cq_ActionKind req) || blank (cq_Summary req)
  then throw ErrApprovalInvalidInput else
  t ← now;
  let record := newRequest req t in
  _ ← writeLocked record;
  mret record.

Definition Get (approvalID : string) : M Store Request :=
  x ← findLocked approvalID; mret x.1.

(** The order of [List]: newest first. *)
Definition newest (a b : Request) : Prop := CreatedAt b <= CreatedAt a.
#[export] Instance newest_dec : RelDecision newest.
Proof. intros a b. unfold newest. apply _. Defined.

Definition List (status : string) : M Store (list Request) :=
  s ← get;
  let names := if blank status then statuses else [TrimSpace status] in
  records ← lift_result (read_dirs names (files s));
  mret (merge_sort newest records).

(** [randomToken(24)] *)
Definition randomToken : M Store string := b ← rand; mret (HexEncode b).

Definition approvedRequest (r : Request) (token approvedBy : string) (t ttl : Z) : Request :=
  mkRequest (ApprovalID r) (TaskID r) (ExecutionProfile r) (ActionKind r) (Summary r)
    (RequestedBy r) (TrimSpace approvedBy) (DeniedBy r) (DeniedReason r) StatusApproved token
    (Metadata r) (CreatedAt r) t (Some (t + ttl)) (UsedAt r).

Definition Approve (approvalID approvedBy : string) : M Store Request :=
  '(record, path) ← findLocked approvalID;
  if negb (bool_decide (Status record = StatusPending)) then throw ErrApprovalDenied else
  token ← randomToken;
  t ← now;
  s ← get;
  let record := approvedRequest record token approvedBy t (defaultTTL s) in
  _ ← move_record approvals path record;
  mret record.

Definition deniedRequest (r : Request) (deniedBy reason : string) (t : Time) : Request :=
  mkRequest (ApprovalID r) (TaskID r) (ExecutionProfile r) (ActionKind r) (Summary r)
    (RequestedBy r) "" (TrimSpace deniedBy) (TrimSpace reason) StatusDenied ""
    (Metadata r) (CreatedAt r) t None (UsedAt r).

Definition Deny (approvalID deniedBy reason : string) : M Store Request :=
  '(record, path) ← findLocked approvalID;
  if negb (bool_decide (Status record = StatusPending)) && negb (bool_decide (Status record = StatusApproved))
  then throw ErrApprovalDenied else
  t ← now;
  let record := deniedRequest record deniedBy reason t in
  _ ← move_record approvals path record;
  mret record.

Definition consumedRequest (r : Request) (t : Time) : Request :=
  mkRequest (ApprovalID r) (TaskID r) (ExecutionProfile r) (ActionKind r) (Summary r)
    (RequestedBy r) (ApprovedBy r) (DeniedBy r) (DeniedReason r) StatusConsumed ""
    (Metadata r) (CreatedAt r) t (ExpiresAt r) (Some t).

(** The loop over the approved records. *)
Fixpoint consume_loop (profile token : string) (entries : list (string * File Request))
    : M Store Request :=
  match entries with
  | [] => throw ErrApprovalDenied
  | (_, Torn) :: _ => throw EJson
  | (name, Doc record) :: rest =>
      if negb (bool_decide (ExecutionProfile record = TrimSpace profile)) then consume_loop profile token rest
      else if negb (bool_decide (TrimSpace token = ApprovalToken record)) then consume_loop profile token rest
      else
        expired ← match ExpiresAt record with
          | Some e => t ← now; mret (After t e)
          | None => mret false
          end;
        if (expired : bool) then throw ErrApprovalDenied else
        t ← now;
        let record := consumedRequest record t in
        _ ← move_record approvals (StatusApproved, name) record;
        mret record
  end.

Definition Consume (profile token : string) : M Store Request :=
  if blank profile || blank token then throw ErrApprovalInvalidInput else
  s ← get;
  consume_loop profile token (dir_entries StatusApproved (files s)).

(** ** Invariants *)

(** A record fits its status: only an approved one has a token, with its
    expiry; only a consumed one was used. *)
Definition request_wf (r : Request) : Prop :=
  (Status r = StatusPending ∧ ApprovalToken r = "" ∧ ApprovedBy r = "" ∧ ExpiresAt r = None ∧ UsedAt r = None) ∨
  (Status r = StatusApproved ∧ is_Some (ExpiresAt r) ∧ UsedAt r = None) ∨
  (Status r = StatusDenied ∧ ApprovalToken r = "" ∧ ApprovedBy r = "" ∧ ExpiresAt r = None ∧ UsedAt r = None) ∨
  (Status r = StatusConsumed ∧ ApprovalToken r = "" ∧ is_Some (ExpiresAt r) ∧ UsedAt r = Some (UpdatedAt r)).

Definition store_wf (s : Store) : Prop :=
  dirs_wf (files s) ∧ ∀ k r, files s !! k = Some (Doc r) → request_wf r ∧ Status r ∈ statuses.

(** What a fault may leave of a write: the old files, the target torn, the
    source already gone. *)
Lemma move_wf path r s w :
  store_wf s → request_wf r → Status r ∈ statuses → store_wf (exec (move_record approvals path r) s w).
Proof.
  intros [Hd Hr] Hwf Hst. unfold exec.
  destruct (move_record_run approvals path r s w approvals_ok) as (res & s' & w' & -> & H).
  assert (∀ b, b = Torn ∨ b = Doc r →
    dirs_wf (<[(Status r, fileName (ApprovalID r)) := b]> (delete path (files s))) ∧
    ∀ k r', <[(Status r, fileName (ApprovalID r)) := b]> (delete path (files s)) !! k = Some (Doc r') →
      request_wf r' ∧ Status r' ∈ statuses) as Hins.
  { intros b Hb. split.
    - destruct Hb as [->| ->]; [by apply dirs_wf_torn, dirs_wf_delete|].
      exact (dirs_wf_insert _ r (dirs_wf_delete _ _ Hd)).
    - intros k r' [[_ ->]|[_ [_ Hl]%lookup_delete_Some]]%lookup_insert_Some; [|by eapply Hr].
      destruct Hb as [[=]|[= ->]]. done. }
  unfold store_wf. destruct res as [[]|e].
  - subst s'. apply Hins. by right.
  - destruct H as [_ [->|[->| ->]]]; [done| |apply Hins; by left].
    split; [by apply dirs_wf_delete|]. cbn. intros k r' [_ Hl]%lookup_delete_Some. by eapply Hr.
Qed.

Lemma exec_bind_ret {S A B} (m : M S A) (b : B) s w : exec (_ ← m; mret b) s w = exec m s w.
Proof. unfold exec. run. by destruct (m s w) as [[[]?]?]. Qed.

Lemma Create_preserves req : preserves store_wf (Create req).
Proof.
  intros s w [Hd Hr]. unfold Create, writeLocked. destruct (_ || _); [done|]. run.
  destruct (write_record_run approvals (newRequest req (clock w (tick w))) s (advance w) approvals_ok)
    as (res & s' & w' & -> & H). set (r := newRequest _ _) in *.
  assert (∀ b, b = Torn ∨ b = Doc r → store_wf (over approvals <[(Status r, fileName (ApprovalID r)) := b]> s)) as Hins.
  { intros b Hb. split.
    - destruct Hb as [->| ->]; [by apply dirs_wf_torn|exact (dirs_wf_insert _ r Hd)].
    - cbn. intros k r' [[_ ->]|[_ Hl]]%lookup_insert_Some; [|by eapply Hr].
      destruct Hb as [[=]|[= ->]]. split; [left; done|left]. }
  destruct res as [[]|e]; [subst s'; apply Hins; by right|].
  destruct H as [_ [->| ->]]; [done|apply Hins; by left].
Qed.

Lemma find_wf s id r p :
  store_wf s → find_record ErrApprovalNotFound statuses id (files s) = Ok (r, p) →
  files s !! p = Some (Doc r) ∧ request_wf r ∧ Status r = p.1 ∧ ApprovalID r = id ∧ p.2 = fileName id.
Proof.
  intros [Hd Hr] (Hl & Hst & Hn)%find_record_Ok. destruct (Hr _ _ Hl) as [? _].
  destruct p as [st n]. cbn in *. destruct (Hd _ _ _ Hl) as [? Hf].
  split_and!; try done. apply fileName_inj. exact (eq_trans Hf Hn).
Qed.

Lemma Approve_preserves id by_ : preserves store_wf (Approve id by_).
Proof.
  intros s w Hs. unfold Approve, findLocked, randomToken. run.
  destruct (find_record _ _ _ _) as [[r p]|e] eqn:E; [|done].
  destruct (find_wf _ _ _ _ Hs E) as (Hl & Hwf & Hst & Hid & Hp).
  case_bool_decide as Hpen; [|done]. cbn [negb]. destruct (entropy w (tick w)) as [b|]; [|done].
  set (r' := approvedRequest _ _ _ _ _).
  assert (store_wf (exec (move_record approvals p r') s (advance (advance w)))) as H.
  { apply move_wf; [done| |by right; left]. right; left. split; [done|]. split; [by eexists|].
    destruct Hwf as [(_ & _ & _ & _ & ?)|[(E1 & _)|[(E1 & _)|(E1 & _)]]]; [done|by rewrite E1 in Hpen..]. }
  unfold exec in H. by destruct (move_record _ _ _ _ _) as [[[]?]?].
Qed.

Lemma Deny_preserves id by_ reason : preserves store_wf (Deny id by_ reason).
Proof.
  intros s w Hs. unfold Deny, findLocked. run.
  destruct (find_record _ _ _ _) as [[r p]|e] eqn:E; [|done].
  destruct (find_wf _ _ _ _ Hs E) as (Hl & Hwf & Hst & Hid & Hp).
  destruct (_ && _) eqn:Hc; [done|].
  set (r' := deniedRequest _ _ _ _).
  assert (store_wf (exec (move_record approvals p r') s (advance w))) as H.
  { apply move_wf; [done| |by do 2 right; left]. right; right; left. split_and!; try done.
    destruct Hwf as [(_ & _ & _ & _ & ?)|[(_ & _ & ?)|[(_ & _ & _ & _ & ?)|(E1 & _)]]]; [done..|].
    by rewrite E1 in Hc. }
  unfold exec in H. by destruct (move_record _ _ _ _ _) as [[[]?]?].
Qed.

(** ** Consuming *)

(** The record that authorizes a consumption. *)
Definition usable (profile token : string) (r : Request) : Prop :=
  ExecutionProfile r = TrimSpace profile ∧ ApprovalToken r = TrimSpace token.

(** The loop stops at the first matching record; a successful run consumed it. *)
Lemma consume_loop_run profile token entries s w :
  ∃ res s' w', consume_loop profile token entries s w = (res, s', w') ∧
    ((∃ e, res = Err e ∧ s' = s) ∨
     ∃ name r t w1, (name, Doc r) ∈ entries ∧ usable profile token r ∧
       (∀ e, ExpiresAt r = Some e → clock w (tick w) <= e) ∧ (reliable w → reliable w1) ∧
       (res, s', w') = (_ ← move_record approvals (StatusApproved, name) (consumedRequest r t);
                        mret (consumedRequest r t)) s w1).
Proof.
  induction entries as [|[name [r|]] entries IH]; cbn [consume_loop].
  - eexists _, _, _. split; [reflexivity|]. eauto.
  - assert (∀ P : Prop, P → P) as _ by done.
    destruct (bool_decide (ExecutionProfile r = TrimSpace profile)) eqn:Hp; cbn [negb].
    2: { destruct IH as (res & s' & w' & E & [|(n & r' & t & w1 & Hin & Hrest)]);
           exists res, s', w'; (split; [done|]); [by left|right].
         exists n, r', t, w1. split; [by right|done]. }
    destruct (bool_decide (TrimSpace token = ApprovalToken r)) eqn:Ht; cbn [negb].
    2: { destruct IH as (res & s' & w' & E & [|(n & r' & t & w1 & Hin & Hrest)]);
           exists res, s', w'; (split; [done|]); [by left|right].
         exists n, r', t, w1. split; [by right|done]. }
    apply bool_decide_eq_true in Hp, Ht. destruct (ExpiresAt r) as [e|] eqn:He; run.
    + destruct (After (clock w (tick w)) e) eqn:Ha.
      { eexists _, _, _. split; [reflexivity|]. eauto. }
      set (t := clock (advance w) (tick (advance w))). set (w1 := advance (advance w)).
      destruct (move_record approvals (StatusApproved, name) (consumedRequest r t) s w1) as [[res s'] w'] eqn:Em.
      exists (match res with Ok _ => Ok (consumedRequest r t) | Err e => Err e end), s', w'.
      split; [by destruct res|]. right. exists name, r, t, w1. split; [left|]. split; [done|]. split.
      * intros e' He'. assert (e' = e) as -> by congruence. unfold After in Ha. lia.
      * split; [done|]. rewrite Em. by destruct res.
    + set (t := clock w (tick w)). set (w1 := advance w).
      destruct (move_record approvals (StatusApproved, name) (consumedRequest r t) s w1) as [[res s'] w'] eqn:Em.
      exists (match res with Ok _ => Ok (consumedRequest r t) | Err e => Err e end), s', w'.
      split; [by destruct res|]. right. exists name, r, t, w1. split; [left|]. split; [done|].
      split; [congruence|]. split; [done|]. rewrite Em. by destruct res.
  - eexists _, _, _. split; [reflexivity|]. eauto.
Qed.

Lemma Consume_preserves profile token : preserves store_wf (Consume profile token).
Proof.
  intros s w Hs. unfold Consume. destruct (_ || _); [done|]. run.
  destruct (consume_loop_run profile token (dir_entries StatusApproved (files s)) s w)
    as (res & s' & w' & -> & [(e & -> & ->)|(name & r & t & w1 & Hin & _ & _ & _ & E)]); [done|].
  apply dir_entries_elem in Hin as [Hl _]. destruct Hs as [Hd Hr].
  destruct (Hd _ _ _ Hl) as [Hst _]. change (Status r = StatusApproved) in Hst.
  destruct (Hr _ _ Hl) as [Hwf _].
  assert (store_wf (exec (_ ← move_record approvals (StatusApproved, name) (consumedRequest r t);
    mret (consumedRequest r t)) s w1)) as H.
  { rewrite exec_bind_ret. apply move_wf; [done| |by do 3 right; left].
    right; right; right. split_and!; try done. cbn.
    destruct Hwf as [(E1 & _)|[(_ & He & _)|[(E1 & _)|(E1 & _)]]]; [by rewrite E1 in Hst|done|by rewrite E1 in Hst..]. }
  unfold exec in H. by rewrite <- E in H.
Qed.
#[export] Hint Resolve Create_preserves Approve_preserves Deny_preserves Consume_preserves : hoare.

(** C4. A successful [Consume] is authorized: in any environment, it found an
    approved record of that profile holding exactly that nonblank token, not
    expired at the moment it looked; it took that record out of the approved
    directory, filed it as consumed with its token cleared, and touched no
    other record. *)
Theorem Consume_authorized profile token s w r s' w' :
  store_wf s → Consume profile token s w = (Ok r, s', w') →
  ∃ r0 t, files s !! (StatusApproved, fileName (ApprovalID r0)) = Some (Doc r0) ∧
    Status r0 = StatusApproved ∧
    ExecutionProfile r0 = TrimSpace profile ∧ ApprovalToken r0 = TrimSpace token ∧
    TrimSpace token ≠ "" ∧
    (∀ e, ExpiresAt r0 = Some e → clock w (tick w) <= e) ∧
    r = consumedRequest r0 t ∧ ApprovalToken r = "" ∧
    files s' = <[(StatusConsumed, fileName (ApprovalID r0)) := Doc r]>
                 (delete (StatusApproved, fileName (ApprovalID r0)) (files s)).
Proof.
  intros [Hd Hr]. unfold Consume. destruct (_ || _) eqn:Hb; [done|]. run. intros E.
  destruct (consume_loop_run profile token (dir_entries StatusApproved (files s)) s w)
    as (res & s1 & w1 & E1 & Hres). rewrite E in E1. injection E1 as <- <- <-.
  destruct Hres as [(e & [=] & _)|(name & r0 & t & w1 & Hin & [Hp Ht] & He & _ & Em)].
  apply dir_entries_elem in Hin as [Hl _].
  destruct (Hd _ _ _ Hl) as [Hst Hn]. change (fileName (ApprovalID r0) = name) in Hn. subst name.
  change (Status r0 = StatusApproved) in Hst.
  destruct (move_record_run approvals (StatusApproved, fileName (ApprovalID r0)) (consumedRequest r0 t) s w1 approvals_ok)
    as (res & s2 & w2 & Em' & Hm). run. rewrite Em' in Em. destruct res as [[]|]; [|done].
  injection Em as -> -> _. exists r0, t. split_and!; try done.
  - apply orb_false_iff in Hb as [_ Hb]. unfold blank in Hb. by apply bool_decide_eq_false in Hb.
  - by rewrite Hm.
Qed.

(** No approved record holds the token. *)
Definition no_token (token : string) (s : Store) : Prop :=
  ∀ k r, files s !! k = Some (Doc r) → Status r = StatusApproved → ApprovalToken r ≠ TrimSpace token.
Lemma Consume_no_token profile token s w :
  store_wf s → no_token token s → ¬ ∃ r s' w', Consume profile token s w = (Ok r, s', w').
Proof.
  intros [Hd Hr] Hno (r & s' & w' & E). revert E. unfold Consume. destruct (_ || _); [done|]. run. intros E.
  destruct (consume_loop_run profile token (dir_entries StatusApproved (files s)) s w)
    as (res & s1 & w1 & E1 & Hres). rewrite E in E1. injection E1 as <- <- <-.
  destruct Hres as [(e & [=] & _)|(name & r0 & t & w1 & Hin & [Hp Ht] & _)].
  apply dir_entries_elem in Hin as [Hl _]. destruct (Hd _ _ _ Hl) as [Hst _].
  by apply (Hno _ _ Hl Hst).
Qed.

(** ** The operations of the store *)

Inductive ApprovalOp :=
  | OpCreate (req : CreateRequest)
  | OpApprove (approvalID approvedBy : string)
  | OpDeny (approvalID deniedBy reason : string)
  | OpConsume (profile token : string).
Definition run_op (op : ApprovalOp) : M Store Request :=
  match op with
  | OpCreate req => Create req
  | OpApprove id by_ => Approve id by_
  | OpDeny id by_ reason => Deny id by_ reason
  | OpConsume profile token => Consume profile token
  end.

Lemma run_op_wf op s w : store_wf s → store_wf (exec (run_op op) s w).
Proof. apply preserves_exec. destruct op; cbn; auto with hoare. Qed.

(** A history: the operations one after the other, in one environment, each
    whether or not the ones before succeeded. *)
Fixpoint run_ops (ops : list ApprovalOp) : M Store unit :=
  match ops with
  | [] => mret tt
  | op :: rest => _ ← try (run_op op); run_ops rest
  end.

(** ** The life cycle *)

(** The identity of a request, which no operation changes. *)
Definition same_request (r r' : Request) : Prop :=
  ApprovalID r' = ApprovalID r ∧ TaskID r' = TaskID r ∧
  ExecutionProfile r' = ExecutionProfile r ∧ ActionKind r' = ActionKind r ∧
  Summary r' = Summary r ∧ RequestedBy r' = RequestedBy r ∧ Metadata r' = Metadata r ∧
  CreatedAt r' = CreatedAt r.

(** The moves of the life cycle: which operation, started in the environment
    [w] on a store whose tokens live for [ttl], may turn which request into
    which. Nothing leaves denied or consumed, and nothing becomes pending. *)
Inductive moves (w : World) (ttl : Z) : ApprovalOp → Request → Request → Prop :=
  | m_approve by_ b r r' :
      Status r = StatusPending → entropy w (tick w) = Some b →
      same_request r r' → Status r' = StatusApproved → ApprovalToken r' = HexEncode b →
      ApprovedBy r' = TrimSpace by_ → ExpiresAt r' = Some (UpdatedAt r' + ttl) → UsedAt r' = None →
      moves w ttl (OpApprove (ApprovalID r) by_) r r'
  | m_deny by_ reason r r' :
      Status r = StatusPending ∨ Status r = StatusApproved →
      same_request r r' → Status r' = StatusDenied → ApprovalToken r' = "" → ApprovedBy r' = "" →
      DeniedBy r' = TrimSpace by_ → DeniedReason r' = TrimSpace reason →
      ExpiresAt r' = None → UsedAt r' = None →
      moves w ttl (OpDeny (ApprovalID r) by_ reason) r r'
  | m_consume profile token r r' :
      Status r = StatusApproved → ExecutionProfile r = TrimSpace profile →
      TrimSpace token ≠ "" → ApprovalToken r = TrimSpace token →
      (∀ e, ExpiresAt r = Some e → clock w (tick w) <= e) →
      same_request r r' → Status r' = StatusConsumed → ApprovalToken r' = "" →
      UsedAt r' = Some (UpdatedAt r') →
      moves w ttl (OpConsume profile token) r r'.

Definition path_of (r : Request) : string * string := (Status r, fileName (ApprovalID r)).

(** A new request of [req]: pending, with no token, approver or expiry. *)
Definition created (w : World) (req : CreateRequest) (r : Request) : Prop :=
  r = newRequest req (clock w (tick w)) ∧ Status r = StatusPending ∧ ApprovalToken r = "" ∧
  ApprovedBy r = "" ∧ ExpiresAt r = None ∧ UsedAt r = None.

(** Storing [r] can fail only if a file operation does or its times do not
    marshal. *)
Definition may_fail (w : World) (r : Request) (e : error) : Prop :=
  (e = EIO ∨ e = EJson) ∧ (reliable w → request_json_ok r = false).

(** What an operation started on [s] in [w] answers and leaves in the
    directories: the directories it found and an error; a new file, or a torn
    one; one record removed and its successor filed, or, after a failure, the
    record removed and its successor missing or torn. *)
Inductive op_effect (w : World) (s : Store) (op : ApprovalOp) : result Request → Dirs Request → Prop :=
  | eff_refused e : op_effect w s op (Err e) (files s)
  | eff_created req r : op = OpCreate req → created w req r →
      op_effect w s op (Ok r) (<[path_of r := Doc r]> (files s))
  | eff_create_torn req r e : op = OpCreate req → created w req r → may_fail w r e →
      op_effect w s op (Err e) (<[path_of r := Torn]> (files s))
  | eff_moved r r' : files s !! path_of r = Some (Doc r) → moves w (defaultTTL s) op r r' →
      op_effect w s op (Ok r') (<[path_of r' := Doc r']> (delete (path_of r) (files s)))
  | eff_lost r r' e : files s !! path_of r = Some (Doc r) → moves w (defaultTTL s) op r r' →
      may_fail w r' e → op_effect w s op (Err e) (delete (path_of r) (files s))
  | eff_torn r r' e : files s !! path_of r = Some (Doc r) → moves w (defaultTTL s) op r r' →
      may_fail w r' e →
      op_effect w s op (Err e) (<[path_of r' := Torn]> (delete (path_of r) (files s))).

(** The outcome of an operation, as its result and the files it leaves. *)
Definition outcome (op : ApprovalOp) (s : Store) (w : World) : result Request * Dirs Request :=
  let '(res, s', _) := run_op op s w in (res, files s').

(** Moving the record found at its path to its successor. *)
Lemma move_effect w s op r r' w1 :
  files s !! path_of r = Some (Doc r) → moves w (defaultTTL s) op r r' →
  (reliable w → reliable w1) →
  ∃ res s' w', (_ ← move_record approvals (path_of r) r'; mret r') s w1 = (res, s', w') ∧
    op_effect w s op res (files s').
Proof.
  intros Hl Hm Hw1. run.
  destruct (move_record_run approvals (path_of r) r' s w1 approvals_ok) as (res & s' & w' & E & H).
  rewrite E. destruct res as [[]|e]; eexists _, _, _; (split; [reflexivity|]).
  - subst s'. cbn. by eapply eff_moved.
  - destruct H as [He H]. assert (may_fail w r' e) as Hf.
    { split; [tauto|]. intros Hw. destruct (request_json_ok r') eqn:Hj; [|done].
      rewrite move_record_reliable in E by auto using approvals_ok. done. }
    destruct H as [->|[->| ->]]; cbn; [apply eff_refused|by eapply eff_lost|by eapply eff_torn].
Qed.

Lemma Create_effect req s w : let '(res, s', _) := Create req s w in op_effect w s (OpCreate req) res (files s').
Proof.
  unfold Create, writeLocked. destruct (_ || _); [apply eff_refused|]. run. set (r := newRequest _ _).
  destruct (write_record_run approvals r s (advance w) approvals_ok) as (res & s' & w' & E & H).
  rewrite E. destruct res as [[]|e].
  - subst s'. by eapply eff_created.
  - destruct H as [He [->| ->]]; [apply eff_refused|]. eapply (eff_create_torn w s _ req r); [done..|].
    split; [tauto|]. intros Hw. destruct (request_json_ok r) eqn:Hj; [|done].
    rewrite write_record_reliable in E by done. done.
Qed.

(** A request that is neither denied nor consumed was not used. *)
Lemma unused_wf r : request_wf r → Status r = StatusPending ∨ Status r = StatusApproved → UsedAt r = None.
Proof.
  unfold StatusPending, StatusApproved.
  intros [(_ & _ & _ & _ & ?)|[(_ & _ & ?)|[(E & _)|(E & _)]]]; [done..| |]; rewrite E; by intros [[=]|[=]].
Qed.

Lemma Approve_effect id by_ s w : store_wf s →
  let '(res, s', _) := Approve id by_ s w in op_effect w s (OpApprove id by_) res (files s').
Proof.
  intros Hs. unfold Approve, findLocked, randomToken. run.
  destruct (find_record _ _ _ _) as [[r p]|e] eqn:E; [|apply eff_refused].
  destruct (find_wf _ _ _ _ Hs E) as (Hl & Hwf & Hst & <- & Hp).
  case_bool_decide as Hpen; [|apply eff_refused]. cbn [negb].
  destruct (entropy w (tick w)) as [b|] eqn:Eb; [|apply eff_refused].
  assert (p = path_of r) as -> by (destruct p; cbn in *; unfold path_of; congruence).
  pose proof (unused_wf r Hwf (or_introl Hpen)) as Hu.
  edestruct (move_effect w s (OpApprove (ApprovalID r) by_) r (approvedRequest r (HexEncode b) by_
    (clock (advance w) (tick (advance w))) (defaultTTL s)) (advance (advance w))) as (res & s' & w' & Em & Heff);
    [done|by eapply m_approve|done|].
  unfold mbind, M_bind, mret, M_ret in Em. by rewrite Em.
Qed.

Lemma Deny_effect id by_ reason s w : store_wf s →
  let '(res, s', _) := Deny id by_ reason s w in op_effect w s (OpDeny id by_ reason) res (files s').
Proof.
  intros Hs. unfold Deny, findLocked. run.
  destruct (find_record _ _ _ _) as [[r p]|e] eqn:E; [|apply eff_refused].
  destruct (find_wf _ _ _ _ Hs E) as (Hl & Hwf & Hst & <- & Hp).
  destruct (_ && _) eqn:Hc; [apply eff_refused|].
  assert (Status r = StatusPending ∨ Status r = StatusApproved) as Hpa.
  { apply andb_false_iff in Hc as [Hc|Hc]; apply negb_false_iff, bool_decide_eq_true in Hc; auto. }
  assert (p = path_of r) as -> by (destruct p; cbn in *; unfold path_of; congruence).
  pose proof (unused_wf r Hwf Hpa) as Hu.
  edestruct (move_effect w s (OpDeny (ApprovalID r) by_ reason) r (deniedRequest r by_ reason
    (clock w (tick w))) (advance w)) as (res & s' & w' & Em & Heff);
    [done|by eapply m_deny|done|].
  unfold mbind, M_bind, mret, M_ret in Em. by rewrite Em.
Qed.

Lemma Consume_effect profile token s w : store_wf s →
  let '(res, s', _) := Consume profile token s w in op_effect w s (OpConsume profile token) res (files s').
Proof.
  intros [Hd Hr]. unfold Consume. destruct (_ || _) eqn:Hb; [apply eff_refused|].
  change ((s0 ← get; consume_loop profile token (dir_entries StatusApproved (files s0))) s w)
    with (consume_loop profile token (dir_entries StatusApproved (files s)) s w).
  destruct (consume_loop_run profile token (dir_entries StatusApproved (files s)) s w)
    as (res & s' & w' & -> & [(e & -> & ->)|(name & r & t & w1 & Hin & [Hp Ht] & Hexp & Hrel & E)]); [apply eff_refused|].
  apply dir_entries_elem in Hin as [Hl _]. destruct (Hd _ _ _ Hl) as [Hst <-].
  change (Status r = StatusApproved) in Hst. change (rec_id r) with (ApprovalID r) in *.
  edestruct (move_effect w s (OpConsume profile token) r (consumedRequest r t) w1)
    as (res1 & s1 & w1' & Em & Heff); [| |exact Hrel|].
  - unfold path_of. by rewrite Hst.
  - eapply m_consume; try done. apply orb_false_iff in Hb as [_ Hb]. unfold blank in Hb.
    by apply bool_decide_eq_false in Hb.
  - unfold path_of in Em. rewrite Hst in Em. rewrite Em in E. injection E as -> -> ->. exact Heff.
Qed.

Lemma run_op_effect op s w : store_wf s →
  op_effect w s op (outcome op s w).1 (outcome op s w).2.
Proof.
  intros Hs. unfold outcome. destruct op as [req|id by_|id by_ reason|profile token]; cbn [run_op].
  - pose proof (Create_effect req s w) as H. by destruct (Create req s w) as [[? ?] ?].
  - pose proof (Approve_effect id by_ s w Hs) as H. by destruct (Approve id by_ s w) as [[? ?] ?].
  - pose proof (Deny_effect id by_ reason s w Hs) as H. by destruct (Deny id by_ reason s w) as [[? ?] ?].
  - pose proof (Consume_effect profile token s w Hs) as H. by destruct (Consume profile token s w) as [[? ?] ?].
Qed.

(** C10. The approval life cycle, under every fault and clock. An operation
    that fails before it stores anything changes nothing; [Create] files
    exactly one new request, pending and without a token; every other
    operation takes exactly one record out of the directory of its status and
    files its successor: pending to approved with the token drawn, pending or
    approved to denied, approved with the presented token, of that profile and
    not expired, to consumed. The successor is the same request; nothing
    leaves denied or consumed and nothing else is touched. Only if the disk
    fails, or a time does not marshal, is the record removed and its successor
    missing or torn. The records keep fitting their status. *)
Theorem run_op_lifecycle op s w :
  store_wf s →
  store_wf (exec (run_op op) s w) ∧
  op_effect w s op (run_op op s w).1.1 (files (exec (run_op op) s w)).
Proof.
  intros Hs. split; [by apply run_op_wf|]. pose proof (run_op_effect op s w Hs) as H.
  unfold outcome, exec in *. by destruct (run_op op s w) as [[res s'] w'].
Qed.

(** ** Tokens along a history *)

(** The draws of random bytes never repeat. *)
Definition fresh_draws (w : World) : Prop :=
  ∀ i j b, entropy w i = Some b → entropy w j = Some b → i = j.

(** Operations leave the random source as it is and only read on. *)
Definition reads_on {S A} (m : M S A) : Prop :=
  ∀ s w, entropy (m s w).2 = entropy w ∧ (tick w <= tick (m s w).2)%nat.

Lemma reads_on_bind {S A B} (m : M S A) (k : A → M S B) :
  reads_on m → (∀ a, reads_on (k a)) → reads_on (m ≫= k).
Proof.
  intros Hm Hk s w. rewrite bind_eq. specialize (Hm s w). destruct (m s w) as [[[a|e] s'] w']; [|done].
  destruct Hm as [H1 H2], (Hk a s' w') as [H3 H4]. cbn in *. split; [congruence|lia].
Qed.
Lemma reads_on_ret {S A} (a : A) : reads_on (mret a : M S A).
Proof. by split. Qed.
Lemma reads_on_move path (r : Request) : reads_on (move_record approvals path r).
Proof.
  intros s w. unfold move_record, Remove, write_record, WriteFile. run.
  destruct (faults w (tick w)), (rec_json_ok r); cbn; run; try (split; [done|cbn; lia]).
  destruct (faults _ _); cbn; split; (done || lia).
Qed.
Lemma reads_on_write (r : Request) : reads_on (writeLocked r).
Proof.
  intros s w. unfold writeLocked, write_record, WriteFile. destruct (rec_json_ok r); run; [|by split].
  destruct (faults _ _); cbn; split; (done || lia).
Qed.
Lemma reads_on_step {S A} (m : M S A) :
  (∀ s w, (m s w).2 = w ∨ (m s w).2 = advance w) → reads_on m.
Proof. intros H s w. destruct (H s w) as [->| ->]; cbn; split; (done || lia). Qed.

Lemma run_op_reads_on op : reads_on (run_op op).
Proof.
  assert (∀ id, reads_on (findLocked id)) as Hfind.
  { intros id. apply reads_on_step. intros s w. by left. }
  assert (reads_on (now (S:=Store))) as Hnow by (apply reads_on_step; by right).
  destruct op as [req|id by_|id by_ reason|profile token]; cbn [run_op].
  - unfold Create. destruct (_ || _); [by split|]. apply reads_on_bind; [done|]. intros t.
    apply reads_on_bind; [apply reads_on_write|]. intros ?. apply reads_on_ret.
  - unfold Approve. apply reads_on_bind; [done|]. intros [r p]. destruct (negb _); [by split|].
    apply reads_on_bind. { apply reads_on_step. intros s w. right. unfold randomToken. run. by destruct (entropy w (tick w)). }
    intros b. apply reads_on_bind; [done|]. intros t. apply reads_on_bind; [by split|]. intros s.
    apply reads_on_bind; [apply reads_on_move|]. intros ?. apply reads_on_ret.
  - unfold Deny. apply reads_on_bind; [done|]. intros [r p]. destruct (_ && _); [by split|].
    apply reads_on_bind; [done|]. intros t. apply reads_on_bind; [apply reads_on_move|]. intros ?. apply reads_on_ret.
  - unfold Consume. destruct (_ || _); [by split|]. intros s w. run.
    generalize (dir_entries StatusApproved (files s)). intros entries. revert s w.
    induction entries as [|[name [r|]] rest IH]; cbn [consume_loop]; [by split| |by split].
    destruct (negb _); [exact IH|]. destruct (negb _); [exact IH|].
    apply reads_on_bind. { destruct (ExpiresAt r); [|by split]. apply reads_on_bind; [done|]. intros ?. apply reads_on_ret. }
    intros []; [by split|]. apply reads_on_bind; [done|]. intros t.
    apply reads_on_bind; [apply reads_on_move|]. intros ?. apply reads_on_ret.
Qed.

(** An approval that changes anything has drawn its token. *)
Lemma Approve_draws id by_ s w :
  exec (Approve id by_) s w = s ∨ (tick w < tick (Approve id by_ s w).2)%nat.
Proof.
  unfold exec, Approve, findLocked, randomToken. run.
  destruct (find_record _ _ _ _) as [[r p]|e] eqn:E; [|by left]. destruct (negb _); [by left|].
  destruct (entropy w (tick w)) as [b|] eqn:Eb; [|by left]. right.
  match goal with |- context [move_record ?l ?p ?r ?s ?w1] =>
    pose proof (proj2 (reads_on_move p r s w1)) as H; destruct (move_record l p r s w1) as [[[]?]?] end;
  cbn in *; lia.
Qed.

(** Every approved record holds a token of its own, drawn in the past; so is
    each of the tokens [spent], and no approved record holds one. *)
Record token_inv (spent : string → Prop) (w : World) (s : Store) : Prop := {
  ti_wf : store_wf s;
  ti_drawn : ∀ k r, files s !! k = Some (Doc r) → Status r = StatusApproved →
    ∃ n b, (n < tick w)%nat ∧ entropy w n = Some b ∧ ApprovalToken r = HexEncode b;
  ti_distinct : ∀ k1 k2 r1 r2, files s !! k1 = Some (Doc r1) → files s !! k2 = Some (Doc r2) →
    Status r1 = StatusApproved → Status r2 = StatusApproved →
    ApprovalToken r1 = ApprovalToken r2 → k1 = k2;
  ti_spent : ∀ token, spent token →
    (∃ n b, (n < tick w)%nat ∧ entropy w n = Some b ∧ token = HexEncode b) ∧
    ∀ k r, files s !! k = Some (Doc r) → Status r = StatusApproved → ApprovalToken r ≠ token }.

(** The approved records after an operation: those before, and at most one
    that holds the token just drawn. *)
Lemma run_op_approved op s w k r :
  store_wf s → files (exec (run_op op) s w) !! k = Some (Doc r) → Status r = StatusApproved →
  files s !! k = Some (Doc r) ∨
  ∃ id by_ b, op = OpApprove id by_ ∧ k = (StatusApproved, fileName id) ∧ entropy w (tick w) = Some b ∧
    ApprovalToken r = HexEncode b ∧ (tick w < tick (run_op op s w).2)%nat.
Proof.
  intros Hs Hl Hst. pose proof (run_op_effect op s w Hs) as H.
  assert (files (exec (run_op op) s w) = (outcome op s w).2) as Hf.
  { unfold exec, outcome. by destruct (run_op op s w) as [[? ?] ?]. }
  rewrite Hf in Hl. revert Hl. destruct H as [e|req x -> (-> & _)|req x e _ _ _|x x' Hx Hm|x x' e _ _ _|x x' e _ _ _].
  - by left.
  - intros [[_ [= <-]]|[_ Hl]]%lookup_insert_Some; [done|by left].
  - intros [[_ [=]]|[_ Hl]]%lookup_insert_Some. by left.
  - intros [[<- [= <-]]|[_ [_ Hl]%lookup_delete_Some]]%lookup_insert_Some; [|by left].
    destruct Hm as [by_ b y y' Hpen Hb Hsame _ Htok|? ? y y' _ _ Hd|? ? y y' _ _ _ _ _ _ Hd];
      [|by rewrite Hd in Hst..]. right.
    exists (ApprovalID y), by_, b. split_and!; try done.
    + unfold path_of. rewrite Hst. by destruct Hsame as [-> _].
    + destruct (Approve_draws (ApprovalID y) by_ s w) as [Heq|]; [|done]. exfalso.
      cbn [run_op] in Hf. rewrite Heq in Hf.
      assert (files s !! path_of y = None) as Hno.
      { rewrite Hf, lookup_insert_ne; [apply lookup_delete_eq|]. unfold path_of. rewrite Hst, Hpen. by intros [=]. }
      congruence.
  - intros [_ Hl]%lookup_delete_Some. by left.
  - intros [[_ [=]]|[_ [_ Hl]%lookup_delete_Some]]%lookup_insert_Some. by left.
Qed.

Lemma run_op_token_inv spent op s w :
  fresh_draws w → token_inv spent w s →
  token_inv spent (run_op op s w).2 (exec (run_op op) s w).
Proof.
  intros Hf [Hwf Hdr Hdi Hsp]. destruct (run_op_reads_on op s w) as [Hent Htick].
  pose proof (λ k r, run_op_approved op s w k r Hwf) as Happ.
  assert (∀ n b, (n < tick w)%nat → entropy w n = Some b → entropy w (tick w) ≠ Some b) as Hnew.
  { intros n b Hn H1 H2. specialize (Hf _ _ _ H1 H2). lia. }
  split.
  - by apply run_op_wf.
  - intros k r Hl Hst. rewrite Hent. destruct (Happ k r Hl Hst) as [H|(id & by_ & b & -> & -> & Hb & Ht & Hlt)].
    + destruct (Hdr _ _ H Hst) as (n & b & Hn & ? & ?). exists n, b. split_and!; [lia|done..].
    + eexists _, b. split_and!; [exact Hlt|done..].
  - intros k1 k2 r1 r2 H1 H2 Hs1 Hs2 Heq.
    destruct (Happ _ _ H1 Hs1) as [H1'|(id1 & by1 & b1 & -> & -> & Hb1 & Ht1 & _)],
      (Happ _ _ H2 Hs2) as [H2'|(id2 & by2 & b2 & Hop & -> & Hb2 & Ht2 & _)].
    + by eapply Hdi.
    + exfalso. destruct (Hdr _ _ H1' Hs1) as (n & b & Hn & Hb & Ht). apply (Hnew n b Hn Hb).
      rewrite Hb2. f_equal. apply HexEncode_inj. congruence.
    + exfalso. destruct (Hdr _ _ H2' Hs2) as (n & b & Hn & Hb & Ht). apply (Hnew n b Hn Hb).
      rewrite Hb1. f_equal. apply HexEncode_inj. congruence.
    + by injection Hop as -> ->.
  - intros token Htok. destruct (Hsp token Htok) as [(n & b & Hn & Hb & ->) Hno]. split.
    { exists n, b. rewrite Hent. split_and!; [lia|done..]. }
    intros k r Hl Hst. destruct (Happ k r Hl Hst) as [H|(id & by_ & b' & _ & _ & Hb' & Ht & _)]; [by eapply Hno|].
    rewrite Ht. intros <-%HexEncode_inj. by apply (Hnew n b' Hn Hb).
Qed.

Lemma run_ops_token_inv spent ops s w :
  fresh_draws w → token_inv spent w s →
  fresh_draws (run_ops ops s w).2 ∧ token_inv spent (run_ops ops s w).2 (exec (run_ops ops) s w).
Proof.
  revert s w. induction ops as [|op ops IH]; intros s w Hf Hi; [done|].
  pose proof (run_op_token_inv spent op s w Hf Hi) as H.
  destruct (run_op_reads_on op s w) as [Hent _]. unfold exec in *. cbn [run_ops]. run.
  destruct (run_op op s w) as [[res s'] w']. cbn in *. apply IH; [|done].
  intros i j b. rewrite Hent. apply Hf.
Qed.

Lemma NewStore_token_inv ttl w : token_inv (λ _, False) w (NewStore ttl).
Proof. split; [split; [by intros ? ? ?|by intros ? ?]|by intros ? ?..|done]. Qed.

(** A consumption spends its token. *)
Lemma Consume_spends profile token s w r s' w' :
  fresh_draws w → token_inv (λ _, False) w s → Consume profile token s w = (Ok r, s', w') →
  fresh_draws w' ∧ token_inv (λ t, t = TrimSpace token) w' s'.
Proof.
  intros Hf Hi E. pose proof (run_op_token_inv _ (OpConsume profile token) s w Hf Hi) as Hi'.
  destruct (run_op_reads_on (OpConsume profile token) s w) as [Hent Htick].
  pose proof (Consume_effect profile token s w (ti_wf _ _ _ Hi)) as Heff.
  unfold exec in Hi'. cbn [run_op] in *. rewrite E in Hi', Hent, Htick, Heff. cbn in *.
  split; [intros i j b; rewrite Hent; apply Hf|]. destruct Hi' as [Hwf Hdr Hdi _].
  split; [done..|]. intros ? ->. inversion Heff as [|? ? [=]| |x x' Hx Hm Hok Hfiles| |]; subst.
  inversion Hm as [| |? ? ? ? Hst _ _ Htok _ Hsame Hst' Ht']; subst.
  destruct Hi as [_ Hdr0 Hdi0 _]. split.
  - destruct (Hdr0 _ _ Hx Hst) as (n & b & ? & ? & ?). exists n, b. rewrite Hent.
    split_and!; [lia|done|congruence].
  - intros k y [[_ [= <-]]|[_ [Hne Hl]%lookup_delete_Some]]%lookup_insert_Some Hy; [by rewrite Hst' in Hy|].
    intros Heq. apply Hne. eapply Hdi0; [exact Hx|exact Hl|done|done|congruence].
Qed.

(** C5. A token works once. Take any history of operations from an empty
    store, a successful [Consume] in it, and any operations after that, with
    any clock and any faults: whenever the same token (up to surrounding
    blanks) is presented again, for any profile, [Consume] is refused. The one
    assumption is that the random draws of the process never repeat. *)
Theorem Consume_single_use ttl before profile token r after profile' token' w s0 w0 s1 w1 s2 w2 :
  fresh_draws w →
  run_ops before (NewStore ttl) w = (Ok tt, s0, w0) →
  Consume profile token s0 w0 = (Ok r, s1, w1) →
  run_ops after s1 w1 = (Ok tt, s2, w2) →
  TrimSpace token' = TrimSpace token →
  is_ok (Consume profile' token' s2 w2).1.1 = false.
Proof.
  intros Hf E0 E1 E2 Heq.
  destruct (run_ops_token_inv _ before _ _ Hf (NewStore_token_inv ttl w)) as [Hf0 Hi0].
  unfold exec in Hi0. rewrite E0 in Hf0, Hi0. cbn in Hf0, Hi0.
  destruct (Consume_spends _ _ _ _ _ _ _ Hf0 Hi0 E1) as [Hf1 Hi1].
  destruct (run_ops_token_inv _ after _ _ Hf1 Hi1) as [Hf2 Hi2].
  unfold exec in Hi2. rewrite E2 in Hf2, Hi2. cbn in Hf2, Hi2. destruct Hi2 as [Hwf _ _ Hsp].
  destruct (Consume profile' token' s2 w2) as [[[r2|e] s3] w3] eqn:E3; [|done]. exfalso.
  apply (Consume_no_token profile' token' s2 w2 Hwf); [|eauto].
  intros k x Hl Hst. rewrite Heq. by apply (proj2 (Hsp _ eq_refl) k x).
Qed.

(** A history runs to its end. *)
Lemma run_ops_ends ops s w : (run_ops ops s w).1.1 = Ok tt.
Proof.
  revert s w. induction ops as [|op ops IH]; intros s w; [done|]. cbn [run_ops]. run.
  destruct (run_op op s w) as [[res s'] w']. apply IH.
Qed.

(** [Approve] on every branch, with a working disk: an unknown request and
    a request that is not pending are refused and nothing changes; a pending
    one gets a token of 48 hexadecimal digits for 24 bytes of entropy and an
    expiry one TTL after the approval, and moves to the approved directory. *)
Theorem Approve_outcome approvalID approvedBy s w :
  reliable w →
  let t := clock w (S (tick w)) in
  match find_record ErrApprovalNotFound statuses approvalID (files s) with
  | Err e => Approve approvalID approvedBy s w = (Err e, s, w)
  | Ok (r, path) =>
      if decide (Status r = StatusPending) then
        match entropy w (tick w) with
        | None => Approve approvalID approvedBy s w = (Err EIO, s, advance w)
        | Some b =>
            let r' := approvedRequest r (HexEncode b) approvedBy t (defaultTTL s) in
            len (ApprovalToken r') = (2 * len b)%nat ∧
            (request_json_ok r' = true →
             Approve approvalID approvedBy s w =
               (Ok r', mkStore (<[(StatusApproved, fileName (ApprovalID r)) := Doc r']> (delete path (files s)))
                         (defaultTTL s), advance (advance (advance (advance w)))))
        end
      else Approve approvalID approvedBy s w = (Err ErrApprovalDenied, s, w)
  end.
Proof.
  intros Hw t. unfold Approve, findLocked, randomToken. run.
  destruct (find_record _ _ _ _) as [[r p]|e]; [|done].
  case_decide as Hst; [|by rewrite bool_decide_false]. rewrite bool_decide_true by done. cbn [negb].
  destruct (entropy w (tick w)) as [b|]; [|done]. split.
  - cbn. unfold len. induction b as [|a b IH]; [done|]. cbn [HexEncode String.length]. lia.
  - intros Hj. rewrite move_record_reliable; [done|done|done|exact Hj].
Qed.

(** *** A concrete history *)

Definition root_request : CreateRequest :=
  mkCreateRequest "task-1" " root " "shell" "restart the service" "chat" ∅.
Definition root_id : string := "approval-1700000000000000000".
Definition pending_store : Store := exec (Create root_request) (NewStore 0) world0.
Definition world1 : World := advance (advance world0).
Definition approved_store : Store := exec (Approve root_id "alice") pending_store world1.
Definition root_token : string := HexEncode "centropy".

Lemma NewApprovals_wf ttl : store_wf (NewStore ttl).
Proof. split; [by intros ? ? ? ?|by intros ? ? ?]. Qed.
Lemma approved_store_wf : store_wf approved_store.
Proof.
  apply (run_op_wf (OpApprove root_id "alice")), (run_op_wf (OpCreate root_request)), NewApprovals_wf.
Qed.
(** The only approved record of the store is the one of [root_id]. *)
Lemma approved_store_files :
  map_to_list (files approved_store) =
    [((StatusApproved, fileName root_id),
      Doc (approvedRequest (newRequest root_request (1700000000 * Second)) root_token "alice"
             (1700000003 * Second) (10 * Minute)))].
Proof. vm_compute. reflexivity. Qed.

Lemma Consume_authorized_witness :
  ∃ r s' w' r0 t, Consume "root" (" " +:+ root_token) approved_store world1 = (Ok r, s', w') ∧
    r = consumedRequest r0 t ∧ ApprovalToken r = "" ∧ Status r0 = StatusApproved.
Proof.
  destruct (Consume "root" (" " +:+ root_token) approved_store world1) as [[[r|e] s'] w'] eqn:E;
    [|apply (f_equal (λ x, is_ok x.1.1)) in E; vm_compute in E; discriminate E].
  destruct (Consume_authorized _ _ _ _ _ _ _ approved_store_wf E)
    as (r0 & t & _ & Hst & _ & _ & _ & _ & Hr & Ht & _).
  exists r, s', w', r0, t. auto.
Defined.

(** The history behind [approved_store], with the token used and, later,
    presented again. *)
Definition history_before : list ApprovalOp := [OpCreate root_request; OpApprove root_id "alice"].
Definition history_after : list ApprovalOp := [OpDeny root_id "bob" "too late"; OpCreate root_request].
Definition draws_world : World :=
  mkWorld (clock world0) (faults world0) (λ n, if (n <? 100)%nat then entropy world0 n else None) 0.
Lemma draws_world_fresh : fresh_draws draws_world.
Proof.
  intros i j b. unfold draws_world, world0. cbn [entropy].
  destruct (Nat.ltb_spec i 100) as [Hi|]; [|by intros]. destruct (Nat.ltb_spec j 100) as [Hj|]; [|by intros].
  intros H1 H2. assert (Ascii.ascii_of_nat (97 + i) = Ascii.ascii_of_nat (97 + j)) as H by congruence.
  apply (f_equal Ascii.nat_of_ascii) in H. rewrite !Ascii.nat_ascii_embedding in H by lia. lia.
Qed.

Lemma Consume_single_use_witness :
  let s0 := exec (run_ops history_before) (NewStore 0) draws_world in
  let w0 := (run_ops history_before (NewStore 0) draws_world).2 in
  let s1 := exec (Consume "root" root_token) s0 w0 in
  let w1 := (Consume "root" root_token s0 w0).2 in
  let s2 := exec (run_ops history_after) s1 w1 in
  let w2 := (run_ops history_after s1 w1).2 in
  is_ok (Consume "root" root_token s0 w0).1.1 = true ∧
  is_ok (Consume "root" (" " +:+ root_token) s2 w2).1.1 = false.
Proof.
  cbv zeta. split; [vm_compute; reflexivity|]. unfold exec.
  destruct (run_ops history_before (NewStore 0) draws_world) as [[[[]|?] s0] w0] eqn:E0;
    [|by pose proof (run_ops_ends history_before (NewStore 0) draws_world) as H; rewrite E0 in H].
  cbn [fst snd].
  destruct (Consume "root" root_token s0 w0) as [[[r|e] s1] w1] eqn:E1.
  2: { exfalso. assert (is_ok (Consume "root" root_token
         (exec (run_ops history_before) (NewStore 0) draws_world)
         (run_ops history_before (NewStore 0) draws_world).2).1.1 = true) as H by (vm_compute; reflexivity).
       unfold exec in H. rewrite E0 in H. cbn [fst snd] in H. by rewrite E1 in H. }
  cbn [fst snd].
  destruct (run_ops history_after s1 w1) as [[[[]|?] s2] w2] eqn:E2;
    [|by pose proof (run_ops_ends history_after s1 w1) as H; rewrite E2 in H].
  cbn [fst snd].
  eapply (Consume_single_use 0 history_before "root" root_token r history_after "root" (" " +:+ root_token)
    draws_world); [exact draws_world_fresh|exact E0|exact E1|exact E2|vm_compute; reflexivity].
Defined.

Lemma run_op_lifecycle_witness :
  op_effect world1 pending_store (OpApprove root_id "alice")
    (run_op (OpApprove root_id "alice") pending_store world1).1.1 (files approved_store) ∧
  store_wf approved_store.
Proof.
  destruct (run_op_lifecycle (OpApprove root_id "alice") pending_store world1) as [H1 H2].
  - apply (run_op_wf (OpCreate root_request)), NewApprovals_wf.
  - split; [exact H2|exact H1].
Defined.

Lemma Approve_outcome_witness :
  (Approve root_id "alice" approved_store world1).1.1 = Err ErrApprovalDenied.
Proof.
  pose proof (Approve_outcome root_id "alice" approved_store world1 (λ n, eq_refl)) as H.
  destruct (find_record _ _ _ _) as [[r p]|e] eqn:E.
  - case_decide as Hst; [|by rewrite H].
    apply (f_equal (λ x, match x with Ok y => Status y.1 | Err _ => "" end)) in E.
    match type of E with ?l = _ => change (l = Status r) in E end.
    rewrite Hst in E. vm_compute in E. discriminate E.
  - apply (f_equal is_ok) in E. vm_compute in E. discriminate E.
Defined.

(** A crash between the removal and the write loses the request. *)
Definition failing_write : World :=
  mkWorld (clock world1) (λ n, if decide (n = 5)%nat then FailEarly else NoFault) (entropy world1) (tick world1).
Lemma Approve_can_lose_request :
  let '(res, s', _) := Approve root_id "alice" pending_store failing_write in
  res = Err EIO ∧ files s' = ∅.
Proof. vm_compute. done. Qed.
