(* ===== verification/FsAccess.v ===== *)
(** * File-system policy ([internal/fsaccess], and [path/filepath] on Unix)

    Lexical path cleaning, relative paths, the workspace containment check
    with its symlink resolution, and the roots the policy allows. *)
From S2P Require Import Prelude GoStrings GoNum.

(** ** [path/filepath] *)

(** The elements of a path: what lies between slashes, empty ones dropped. *)
Fixpoint split_go (cur : string) (s : string) : list string :=
  match s with
  | EmptyString => if decide (cur = "") then [] else [String.rev cur]
  | String a r =>
      if decide (a = "/"%char) then
        (if decide (cur = "") then [] else [String.rev cur]) ++ split_go "" r
      else split_go (String a cur) r
  end.
Definition split_path (s : string) : list string := split_go "" s.

Definition IsAbs (path : string) : bool := HasPrefix path "/".

(** [Clean] on elements: [acc] holds the elements kept so far, last one first. *)
Fixpoint clean_go (rooted : bool) (acc elems : list string) : list string :=
  match elems with
  | [] => reverse acc
  | e :: rest =>
      if decide (e = ".") then clean_go rooted acc rest
      else if decide (e = "..") then
        match acc with
        | a :: acc' => if decide (a = "..") then clean_go rooted (".." :: acc) rest
                       else clean_go rooted acc' rest
        | [] => if rooted then clean_go rooted [] rest else clean_go rooted [".."] rest
        end
      else clean_go rooted (e :: acc) rest
  end.
(** The elements of the cleaned path. *)
Definition comps (path : string) : list string := clean_go (IsAbs path) [] (split_path path).

Definition Clean (path : string) : string :=
  if IsAbs path then "/" +:+ Join (comps path) "/"
  else if decide (comps path = []) then "." else Join (comps path) "/".

(** [filepath.Join] of two elements *)
Definition Join2 (a b : string) : string :=
  if decide (a = "") then (if decide (b = "") then "" else Clean b)
  else if decide (b = "") then Clean a else Clean (a +:+ "/" +:+ b).

(** The parent of a cleaned path. *)
Definition Dir (path : string) : string :=
  let up := Join (take (length (split_path path) - 1) (split_path path)) "/" in
  if IsAbs path then Clean ("/" +:+ up) else if decide (up = "") then "." else Clean up.

(** The elements left after a common prefix. *)
Fixpoint strip_common (b t : list string) : list string * list string :=
  match b, t with
  | x :: b', y :: t' => if decide (x = y) then strip_common b' t' else (b, t)
  | _, _ => (b, t)
  end.
(** [Rel] fails when only one path is absolute, or when the base goes up. *)
Definition Rel (basepath targpath : string) : option string :=
  if negb (bool_decide (IsAbs basepath = IsAbs targpath)) then None else
  match strip_common (comps basepath) (comps targpath) with
  | ([], []) => Some "."
  | (b, t) => if decide (head b = Some "..") then None
              else Some (Join (replicate (length b) ".." ++ t) "/")
  end.

(** [filepath.SplitList] on Unix *)
Fixpoint split_list_go (cur s : string) : list string :=
  match s with
  | EmptyString => [String.rev cur]
  | String a r => if decide (a = ":"%char) then String.rev cur :: split_list_go "" r
                  else split_list_go (String a cur) r
  end.
Definition SplitList (s : string) : list string := if decide (s = "") then [] else split_list_go "" s.

(** ** The policy *)

(** The process environment and the file system the policy reads. *)
Record Env := mkEnv {
  Getenv : string → string;
  UserHomeDir : option string;
  TempDir : string;
  Getwd : string;
  EvalSymlinks : string → option string }.

Section policy.
Context {tables : UnicodeTables}.
Variable env : Env.

Definition Abs (path : string) : string := if IsAbs path then Clean path else Join2 (Getwd env) path.

(** [strings.TrimLeft(trim, "/\")] *)
Fixpoint trim_slashes (s : string) : string :=
  match s with
  | String a r => if decide (a = "/"%char ∨ a = "\"%char) then trim_slashes r else s
  | EmptyString => s
  end.

Definition ExpandHomeDir (path : string) : option string :=
  let path := TrimSpace path in
  match path with
  | String "~" rest =>
      match rest with
      | String c _ =>
          if decide (c = "/"%char) then
            home ← UserHomeDir env; Some (Join2 home (trim_slashes rest))
          else None
      | EmptyString => UserHomeDir env
      end
  | _ => Some path
  end.

Definition env_flag (name : string) : bool :=
  bool_decide (ToLower (TrimSpace (Getenv env name)) ∈ ["1"; "true"; "yes"; "on"]).
Definition UnrestrictedFromEnv : bool := env_flag "MNEMOSYNE_FILESYSTEM_UNRESTRICTED".
Definition readOnlyStrictFromEnv : bool := env_flag "MNEMOSYNE_FILESYSTEM_READONLY_STRICT".

(** One turn of the loop: the root an entry adds, if any. *)
Definition extra_root (p : string) : option string :=
  let p := TrimSpace p in
  if decide (p = "") then None else
  expanded ← ExpandHomeDir p;
  if negb (IsAbs expanded) then None else
  let abs := Abs expanded in
  Some (default abs (EvalSymlinks env abs)).
Definition ExtraRootsFromEnv : list string :=
  let raw := TrimSpace (Getenv env "MNEMOSYNE_FILESYSTEM_EXTRA_ROOTS") in
  if decide (raw = "") then [] else
  foldl (λ out p, match extra_root p with
    | Some abs => if decide (abs ∈ out) then out else out ++ [abs]
    | None => out
    end) [] (SplitList raw).

(** The loop over the parents of [path]; one unit of fuel per element and one
    for the root is enough. *)
Fixpoint eval_prefix (fuel : nat) (p path : string) : string :=
  match fuel with
  | O => Clean path
  | S fuel =>
      match EvalSymlinks env p with
      | Some resolved =>
          if decide (p = path) then resolved else
          match Rel p path with
          | None => Clean path
          | Some rel => if decide (rel = ".") then resolved else Join2 resolved rel
          end
      | None =>
          let parent := Dir p in
          if decide (parent = p) then Clean path else eval_prefix fuel parent path
      end
  end.
Definition evalSymlinksInExistingPrefix (path : string) : string :=
  let path := Clean path in
  if decide (path = "" ∨ path = ".") then path
  else eval_prefix (S (length (comps path))) path path.

Definition PathUnderRoot (path root : string) : bool :=
  let root := TrimSpace root in
  if decide (root = "") then false else
  let absRoot := Abs root in
  let absRoot := default absRoot (EvalSymlinks env absRoot) in
  let checkPath := evalSymlinksInExistingPrefix (Abs path) in
  match Rel absRoot checkPath with
  | None => false
  | Some rel => bool_decide (rel = ".") || (negb (HasPrefix rel "../") && negb (bool_decide (rel = "..")))
  end.

Definition IsPathAllowed (resolvedPath workspaceRoot runtimeRoot : string) : bool :=
  UnrestrictedFromEnv
  || existsb (PathUnderRoot resolvedPath) [workspaceRoot; runtimeRoot; TempDir env]
  || existsb (PathUnderRoot resolvedPath) ExtraRootsFromEnv.

Definition IsReadPathAllowed (resolvedPath workspaceRoot runtimeRoot : string) : bool :=
  if IsPathAllowed resolvedPath workspaceRoot runtimeRoot then true
  else if readOnlyStrictFromEnv then false
  else IsAbs resolvedPath.
End policy.

(** ** Elements *)

(** An element of a cleaned absolute path: a proper file name. *)
Fixpoint no_slash (s : string) : bool :=
  match s with EmptyString => true | String a r => negb (bool_decide (a = "/"%char)) && no_slash r end.
Definition proper (e : string) : Prop := e ≠ "" ∧ no_slash e = true ∧ e ≠ "." ∧ e ≠ "..".

Lemma no_slash_app a b : no_slash (a +:+ b) = no_slash a && no_slash b.
Proof. induction a as [|c a IH]; [done|]. rewrite string_cons_app. cbn. by rewrite IH, andb_assoc. Qed.
Lemma no_slash_rev s : no_slash (String.rev s) = no_slash s.
Proof.
  induction s as [|a s IH]; [done|].
  change (String a s) with (String a "" +:+ s). rewrite rev_app_distr, !no_slash_app, IH.
  cbn. by rewrite andb_comm.
Qed.

Lemma split_go_elems cur s e :
  no_slash cur = true → e ∈ split_go cur s → e ≠ "" ∧ no_slash e = true.
Proof.
  revert cur. induction s as [|a s IH]; intros cur Hc; cbn.
  - case_decide as Hcur; [by intros ?%elem_of_nil|]. intros ->%list_elem_of_singleton.
    rewrite no_slash_rev. split; [|done]. intros H. apply Hcur.
    rewrite <- (string_rev_rev cur), H. done.
  - case_decide as Ha.
    + intros [H|H]%elem_of_app; [|by eapply (IH "")]. revert H.
      case_decide as Hcur; [by intros ?%elem_of_nil|]. intros ->%list_elem_of_singleton.
      rewrite no_slash_rev. split; [|done]. intros H. apply Hcur.
      rewrite <- (string_rev_rev cur), H. done.
    + apply IH. cbn. rewrite bool_decide_false by done. done.
Qed.

Lemma clean_go_proper acc elems :
  Forall proper acc → (∀ e, e ∈ elems → e ≠ "" ∧ no_slash e = true) →
  Forall proper (clean_go true acc elems).
Proof.
  revert acc. induction elems as [|e elems IH]; intros acc Hacc He; cbn.
  { by apply Forall_reverse. }
  assert (∀ e, e ∈ elems → e ≠ "" ∧ no_slash e = true) as He' by (intros; apply He; by right).
  destruct (He e ltac:(left)) as [Hne Hns].
  case_decide; [by apply IH|]. case_decide.
  - destruct acc as [|a acc]; [by apply IH|]. apply Forall_cons in Hacc as [Ha Hacc].
    rewrite decide_False by (by destruct Ha as (_ & _ & _ & ?)). by apply IH.
  - apply IH; [|done]. by constructor.
Qed.

(** The elements of a cleaned absolute path contain no [..]. *)
Lemma comps_proper path : IsAbs path = true → Forall proper (comps path).
Proof.
  intros Ha. unfold comps. rewrite Ha. apply clean_go_proper; [constructor|].
  intros e. by apply split_go_elems.
Qed.

Lemma strip_common_spec b t b' t' :
  strip_common b t = (b', t') → ∃ p, b = p ++ b' ∧ t = p ++ t' ∧ (b' = [] ∨ head b' ≠ head t').
Proof.
  revert t. induction b as [|x b IH]; intros t; cbn.
  - intros [= <- <-]. exists []. auto.
  - destruct t as [|y t]; [intros [= <- <-]; exists []; auto|]. case_decide as Hxy.
    + intros (p & -> & -> & H)%IH. exists (x :: p). subst. auto.
    + intros [= <- <-]. exists []. cbn. split_and!; [done..|right; congruence].
Qed.

Lemma Join_cons e l : Join (e :: l) "/" = match l with [] => e | _ => e +:+ "/" +:+ Join l "/" end.
Proof. by destruct l. Qed.

(** A proper element does not start with [../]. *)
Lemma proper_prefix e rest : proper e → HasPrefix (e +:+ rest) "../" = false.
Proof.
  intros (Hne & Hns & Hd & Hdd). apply not_true_iff_false. intros [r Hr]%HasPrefix_spec.
  destruct e as [|c1 [|c2 [|c3 e]]]; [done|..]; rewrite ?string_cons_app in Hr.
  - by injection Hr as -> _.
  - by injection Hr as -> -> _.
  - injection Hr as -> -> -> _. done.
Qed.

Lemma Rel_under absRoot target :
  IsAbs absRoot = true → IsAbs target = true →
  match Rel absRoot target with
  | None => false
  | Some rel => bool_decide (rel = ".") || (negb (HasPrefix rel "../") && negb (bool_decide (rel = "..")))
  end = true ↔ comps absRoot `prefix_of` comps target.
Proof.
  intros Hr Ht. unfold Rel. rewrite Hr, Ht. cbn [negb bool_decide decide].
  rewrite bool_decide_true by done. cbn [negb].
  destruct (strip_common (comps absRoot) (comps target)) as [b t] eqn:E.
  destruct (strip_common_spec _ _ _ _ E) as (p & Hb & Htt & Hd).
  pose proof (comps_proper _ Hr) as Pb. pose proof (comps_proper _ Ht) as Pt.
  rewrite Hb in Pb. rewrite Htt in Pt. apply Forall_app in Pb as [_ Pb], Pt as [_ Pt].
  rewrite Hb, Htt. split.
  - intros H. destruct b as [|x b]; [rewrite app_nil_r; by exists t|]. exfalso. revert H.
    assert (Join (replicate (length (x :: b)) ".." ++ t) "/" = ".." ∨
      ∃ r, Join (replicate (length (x :: b)) ".." ++ t) "/" = "../" +:+ r) as Hj.
    { cbn [length replicate app]. rewrite Join_cons. destruct (replicate (length b) ".." ++ t); [by left|].
      right. eexists. reflexivity. }
    apply Forall_cons in Pb as [Px _]. destruct Px as (_ & _ & _ & Hx).
    assert (head (x :: b) ≠ Some "..") as Hh by (cbn; congruence).
    rewrite decide_False by done.
    destruct Hj as [-> | [r ->]]; [by vm_compute|].
    rewrite HasPrefix_app. cbn. rewrite bool_decide_false; [done|]. by destruct r.
  - intros [l Hl]. rewrite <- app_assoc in Hl. apply app_inv_head in Hl.
    destruct b as [|x b]; [|exfalso; destruct Hd as [[=]|Hd]; apply Hd; by rewrite Hl].
    destruct t as [|y t]; [done|]. apply Forall_cons in Pt as [Py _].
    cbn [length replicate app]. rewrite Join_cons.
    assert (∀ rest, HasPrefix (y +:+ rest) "../" = false ∧ (rest = "" → y +:+ rest ≠ "..")
      ) as Hy.
    { intros rest. split; [by apply proper_prefix|]. intros ->. rewrite string_app_nil_r. apply Py. }
    apply orb_true_iff. right. destruct t as [|z t].
    + destruct (Hy "") as [H1 H2]. specialize (H2 eq_refl). rewrite string_app_nil_r in H1, H2.
      rewrite H1, bool_decide_false by done. done.
    + rewrite (proper_prefix y _ Py). rewrite bool_decide_false; [done|].
      intros Heq. apply (f_equal no_slash) in Heq. rewrite !no_slash_app in Heq.
      cbn in Heq. by rewrite andb_false_r in Heq.
Qed.

(** ** Rendering and reading back *)

Lemma split_go_app_proper e cur s :
  no_slash e = true → split_go cur (e +:+ s) = split_go (String.rev e +:+ cur) s.
Proof.
  revert cur. induction e as [|a e IH]; intros cur Hn; [done|].
  cbn in Hn. apply andb_true_iff in Hn as [Ha Hn]. apply negb_true_iff, bool_decide_eq_false in Ha.
  rewrite string_cons_app. cbn [split_go]. rewrite decide_False by done. rewrite IH by done.
  change (String a e) with (String a "" +:+ e). rewrite rev_app_distr. f_equal.
  generalize (String.rev e) as u. induction u as [|c u IHu]; [done|].
  rewrite !string_cons_app. by rewrite IHu.
Qed.

Lemma split_Join es : Forall proper es → split_path (Join es "/") = es.
Proof.
  unfold split_path. induction es as [|e es IH]; intros Hp; [done|].
  apply Forall_cons in Hp as [(Hne & Hns & _ & _) Hp]. rewrite Join_cons.
  assert (String.rev e ≠ "") as Hrev.
  { intros H. apply Hne. by rewrite <- (string_rev_rev e), H. }
  destruct es as [|e2 es].
  - rewrite <- (string_app_nil_r e) at 1. rewrite split_go_app_proper by done.
    rewrite string_app_nil_r. cbn. rewrite decide_False by done. by rewrite string_rev_rev.
  - rewrite split_go_app_proper by done. rewrite string_app_nil_r.
    change ("/" +:+ Join (e2 :: es) "/") with (String "/" (Join (e2 :: es) "/")).
    cbn [split_go]. rewrite decide_True, decide_False by done.
    rewrite string_rev_rev, IH by done. done.
Qed.

Lemma clean_go_id acc es : Forall proper es → clean_go true acc es = reverse acc ++ es.
Proof.
  revert acc. induction es as [|e es IH]; intros acc Hp; cbn; [by rewrite app_nil_r|].
  apply Forall_cons in Hp as [(_ & _ & Hd & Hdd) Hp]. rewrite !decide_False by done.
  rewrite IH by done. by rewrite reverse_cons, <- app_assoc.
Qed.

Lemma split_slash s : split_path ("/" +:+ s) = split_path s.
Proof. done. Qed.

Definition render (es : list string) : string := "/" +:+ Join es "/".
Lemma IsAbs_render es : IsAbs (render es) = true.
Proof. apply (HasPrefix_app "/"). Qed.
Lemma comps_render es : Forall proper es → comps (render es) = es.
Proof.
  intros Hp. unfold comps. rewrite IsAbs_render. unfold render. rewrite split_slash, split_Join by done.
  by rewrite clean_go_id.
Qed.
Lemma Clean_render path : IsAbs path = true → Clean path = render (comps path).
Proof. intros Ha. unfold Clean. by rewrite Ha. Qed.
Lemma IsAbs_Clean path : IsAbs path = true → IsAbs (Clean path) = true.
Proof. intros Ha. rewrite Clean_render by done. apply IsAbs_render. Qed.

(** Cleaning an absolute path is idempotent, and keeps its elements. *)
Lemma comps_Clean path : IsAbs path = true → comps (Clean path) = comps path.
Proof. intros Ha. rewrite Clean_render by done. apply comps_render, comps_proper, Ha. Qed.

Lemma Dir_render es : Forall proper es → Dir (render es) = render (take (length es - 1) es).
Proof.
  intros Hp. unfold Dir. rewrite IsAbs_render. unfold render at 1 2. rewrite split_slash, split_Join by done.
  assert (Forall proper (take (length es - 1) es)) as Hp' by (by apply Forall_take).
  fold (render (take (length es - 1) es)). rewrite Clean_render by apply IsAbs_render.
  by rewrite comps_render.
Qed.

Lemma IsAbs_Join2 a b : IsAbs a = true → IsAbs (Join2 a b) = true.
Proof.
  intros Ha. unfold Join2. rewrite (decide_False (P := a = "")) by (by intros ->).
  case_decide; [by apply IsAbs_Clean|]. apply IsAbs_Clean. unfold IsAbs in *.
  apply HasPrefix_spec in Ha as [r ->]. change ("/" +:+ r) with (String "/" r).
  rewrite string_cons_app. apply (HasPrefix_app "/").
Qed.

(** *** Joining *)

Lemma split_go_slash cur a b : split_go cur (a +:+ "/" +:+ b) = split_go cur a ++ split_go "" b.
Proof.
  revert cur. induction a as [|x a IH]; intros cur; [done|]. rewrite string_cons_app. cbn [split_go].
  case_decide; [by rewrite IH, app_assoc|apply IH].
Qed.
Lemma split_path_slash a b : split_path (a +:+ "/" +:+ b) = split_path a ++ split_path b.
Proof. apply split_go_slash. Qed.
Lemma clean_go_app acc l1 l2 : clean_go true acc (l1 ++ l2) = clean_go true (reverse (clean_go true acc l1)) l2.
Proof.
  revert acc. induction l1 as [|e l1 IH]; intros acc; cbn [app clean_go]; [by rewrite reverse_involutive|].
  repeat case_decide; try apply IH. destruct acc as [|a acc]; [apply IH|]. case_decide; apply IH.
Qed.
Lemma IsAbs_app a b : IsAbs a = true → IsAbs (a +:+ b) = true.
Proof. unfold IsAbs. intros [x ->]%HasPrefix_spec. rewrite <- string_app_assoc. apply HasPrefix_app. Qed.
Lemma Join2_comps a b : IsAbs a = true → b ≠ "" →
  comps (Join2 a b) = clean_go true (reverse (comps a)) (split_path b) ∧ Join2 a b = render (comps (Join2 a b)).
Proof.
  intros Ha Hb. assert (Join2 a b = Clean (a +:+ "/" +:+ b)) as ->.
  { unfold Join2. rewrite decide_False by (by intros ->). by rewrite decide_False. }
  pose proof (IsAbs_app a ("/" +:+ b) Ha) as Hab. rewrite comps_Clean by done. split; [|by apply Clean_render].
  unfold comps at 1. rewrite Hab, split_path_slash, clean_go_app. unfold comps. by rewrite Ha.
Qed.
Lemma split_proper e : proper e → split_path e = [e].
Proof. intros H. apply (split_Join [e]). by constructor. Qed.
Lemma Join2_proper a e : IsAbs a = true → proper e → comps (Join2 a e) = comps a ++ [e].
Proof.
  intros Ha He. destruct (Join2_comps a e Ha) as [-> _]; [by destruct He|]. rewrite split_proper by done.
  rewrite clean_go_id by (by constructor). by rewrite reverse_involutive.
Qed.

Section containment.
Context {tables : UnicodeTables}.
Variable env : Env.
(** The working directory is absolute, and resolving an absolute path yields
    an absolute one, as the operating system documents. *)
Hypothesis wd_abs : IsAbs (Getwd env) = true.
Hypothesis eval_abs : ∀ p r, IsAbs p = true → EvalSymlinks env p = Some r → IsAbs r = true.

Lemma IsAbs_Abs path : IsAbs (Abs env path) = true.
Proof.
  unfold Abs. destruct (IsAbs path) eqn:E; [by apply IsAbs_Clean|by apply IsAbs_Join2].
Qed.

Lemma IsAbs_eval_prefix fuel p path :
  IsAbs p = true → IsAbs path = true → IsAbs (eval_prefix env fuel p path) = true.
Proof.
  revert p. induction fuel as [|fuel IH]; intros p Hp Hpath; cbn; [by apply IsAbs_Clean|].
  destruct (EvalSymlinks env p) as [r|] eqn:E.
  - pose proof (eval_abs _ _ Hp E) as Hr. case_decide; [done|].
    destruct (Rel p path); [|by apply IsAbs_Clean]. case_decide; [done|]. by apply IsAbs_Join2.
  - case_decide; [by apply IsAbs_Clean|]. apply IH; [|done].
    unfold Dir. rewrite Hp. apply IsAbs_Clean, (HasPrefix_app "/").
Qed.

Lemma IsAbs_check path : IsAbs path = true → IsAbs (evalSymlinksInExistingPrefix env path) = true.
Proof.
  intros Ha. unfold evalSymlinksInExistingPrefix. pose proof (IsAbs_Clean path Ha) as Hc.
  case_decide; [done|]. by apply IsAbs_eval_prefix.
Qed.

(** The root a check compares against, after symlink resolution. *)
Definition resolved_root (root : string) : string :=
  default (Abs env (TrimSpace root)) (EvalSymlinks env (Abs env (TrimSpace root))).
(** The path it compares, its longest existing prefix resolved. *)
Definition checked_path (path : string) : string := evalSymlinksInExistingPrefix env (Abs env path).

Lemma PathUnderRoot_run path root :
  PathUnderRoot env path root = true ↔
  TrimSpace root ≠ "" ∧ comps (resolved_root root) `prefix_of` comps (checked_path path).
Proof.
  unfold PathUnderRoot. case_decide as Hr; [by split; [|intros []]|].
  fold (resolved_root root). fold (checked_path path). rewrite Rel_under.
  - by split; [|intros []].
  - unfold resolved_root. destruct (EvalSymlinks env _) eqn:E; cbn; [|apply IsAbs_Abs].
    by eapply eval_abs; [apply IsAbs_Abs|].
  - apply IsAbs_check, IsAbs_Abs.
Qed.

(** C9. Containment is element-wise: [PathUnderRoot] accepts exactly the paths
    whose resolved, cleaned elements begin with those of the resolved root. In
    particular [..] cannot climb out of the root, and a sibling whose name
    merely starts like the root is outside. *)
Theorem PathUnderRoot_exact path root :
  PathUnderRoot env path root = true ↔
  TrimSpace root ≠ "" ∧ comps (resolved_root root) `prefix_of` comps (checked_path path).
Proof. apply PathUnderRoot_run. Qed.

(** The policy confines: unless the operator lifted the restriction, a
    path that [IsPathAllowed] accepts lies under the workspace, the runtime
    directory, the temporary directory or a configured extra root, and a path
    that [IsReadPathAllowed] accepts is absolute or lies there too. *)
Theorem IsPathAllowed_confines path workspaceRoot runtimeRoot :
  UnrestrictedFromEnv env = false →
  (IsPathAllowed env path workspaceRoot runtimeRoot = true ↔
   ∃ root, root ∈ [workspaceRoot; runtimeRoot; TempDir env] ++ ExtraRootsFromEnv env ∧
     TrimSpace root ≠ "" ∧ comps (resolved_root root) `prefix_of` comps (checked_path path)) ∧
  (IsReadPathAllowed env path workspaceRoot runtimeRoot = true →
   IsAbs path = true ∧ readOnlyStrictFromEnv env = false ∨
   IsPathAllowed env path workspaceRoot runtimeRoot = true).
Proof.
  intros Hu. split.
  - unfold IsPathAllowed. rewrite Hu. cbn [orb].
    rewrite <- existsb_app, existsb_exists. split.
    + intros (root & Hin & Hp%PathUnderRoot_run). exists root. by rewrite list_elem_of_In.
    + intros (root & Hin & Hp). exists root. rewrite <- list_elem_of_In. by rewrite PathUnderRoot_run.
  - unfold IsReadPathAllowed. destruct (IsPathAllowed _ _ _ _); [by right|].
    destruct (readOnlyStrictFromEnv env); [done|]. by left.
Qed.

(** The fuel of the symlink loop is enough: more of it changes nothing. *)
Lemma eval_prefix_fuel es path fuel fuel' :
  Forall proper es → (S (length es) ≤ fuel)%nat → (S (length es) ≤ fuel')%nat →
  eval_prefix env fuel (render es) path = eval_prefix env fuel' (render es) path.
Proof.
  revert es fuel'. induction fuel as [|fuel IH]; intros es fuel' Hp H1 H2; [lia|].
  destruct fuel' as [|fuel']; [lia|]. cbn [eval_prefix].
  destruct (EvalSymlinks env (render es)); [done|].
  rewrite Dir_render by done. case_decide as Hd; [done|].
  assert (es ≠ []) by (by intros ->). assert (length es ≠ 0)%nat by (by destruct es).
  apply IH; [by apply Forall_take|rewrite length_take; lia..].
Qed.
End containment.

(** *** A concrete file system without symbolic links *)

#[local] Existing Instance caseless_tables.

Definition plain_env : Env :=
  mkEnv (λ name, if decide (name = "MNEMOSYNE_FILESYSTEM_EXTRA_ROOTS") then "/data/a: ~/notes" else "")
    (Some "/home/u") "/tmp" "/work"
    (λ p, if decide (p ∈ ["/"; "/ws"; "/tmp"; "/data"; "/data/a"; "/home"; "/home/u"; "/home/u/notes"]) then Some p else None).
Lemma plain_eval p r : IsAbs p = true → EvalSymlinks plain_env p = Some r → IsAbs r = true.
Proof. cbn. case_decide; [|done]. by intros ? [= <-]. Qed.

Lemma PathUnderRoot_exact_witness :
  PathUnderRoot plain_env "/ws/new/../report.txt" "/ws" = true ∧
  ¬ comps (resolved_root plain_env "/ws") `prefix_of` comps (checked_path plain_env "/ws/../etc/passwd") ∧
  PathUnderRoot plain_env "/wsx/file" "/ws" = false.
Proof.
  split; [vm_compute; reflexivity|]. split; [|vm_compute; reflexivity].
  intros Hp. assert (PathUnderRoot plain_env "/ws/../etc/passwd" "/ws" = true) as H.
  { apply (PathUnderRoot_exact plain_env eq_refl plain_eval). done. }
  vm_compute in H. discriminate H.
Defined.

Lemma IsPathAllowed_confines_witness :
  ExtraRootsFromEnv plain_env = ["/data/a"; "/home/u/notes"] ∧
  IsPathAllowed plain_env "/home/u/notes/../notes/x" "/ws" "" = true ∧
  ∃ root, root ∈ ["/ws"; ""; "/tmp"] ++ ExtraRootsFromEnv plain_env ∧
    comps (resolved_root plain_env root) `prefix_of` comps (checked_path plain_env "/home/u/notes/../notes/x").
Proof.
  split; [vm_compute; reflexivity|].
  assert (IsPathAllowed plain_env "/home/u/notes/../notes/x" "/ws" "" = true) as H by (vm_compute; reflexivity).
  split; [exact H|].
  destruct (IsPathAllowed_confines plain_env eq_refl plain_eval "/home/u/notes/../notes/x" "/ws" ""
    ltac:(vm_compute; reflexivity)) as [Hiff _].
  apply (proj1 Hiff) in H.
  destruct H as (root & Hin & _ & Hp). exists root. split; [exact Hin|exact Hp].
Defined.
