(* ===== verification/GoTime.v ===== *)
(** * Calendar dates ([time.Time.Format] at [time.RFC3339], in UTC)

    The proleptic Gregorian calendar on days since the Unix epoch, and the
    layout [2006-01-02T15:04:05Z] the program stamps its metadata with. *)
From S2P Require Import Prelude GoStrings GoNum.
Open Scope Z_scope.

(** Year, month and day of a day number, by the 400-year era of its March-based
    year. *)
Definition civil_of_days (days : Z) : Z * Z * Z :=
  let z := days + 719468 in
  let era := z / 146097 in
  let doe := z mod 146097 in
  let yoe := (doe - doe / 1460 + doe / 36524 - doe / 146096) / 365 in
  let doy := doe - (365 * yoe + yoe / 4 - yoe / 100) in
  let mp := (5 * doy + 2) / 153 in
  let d := doy - (153 * mp + 2) / 5 + 1 in
  let m := if mp <? 10 then mp + 3 else mp - 9 in
  (yoe + era * 400 + (if m <=? 2 then 1 else 0), m, d).

(** Decimal digits, padded with zeros to [width]. *)
Fixpoint pad_zeros (n : nat) (s : string) : string :=
  match n with O => s | S n => pad_zeros n (String "0" s) end.
Definition digits (width : nat) (z : Z) : string :=
  let s := Itoa z in pad_zeros (width - len s) s.

Definition RFC3339 (t : Time) : string :=
  let secs := t / Second in
  let '(y, m, d) := civil_of_days (secs / 86400) in
  let s := secs mod 86400 in
  digits 4 y +:+ "-" +:+ digits 2 m +:+ "-" +:+ digits 2 d +:+ "T"
  +:+ digits 2 (s / 3600) +:+ ":" +:+ digits 2 (s / 60 mod 60) +:+ ":" +:+ digits 2 (s mod 60) +:+ "Z".

Example RFC3339_epoch : RFC3339 0 = "1970-01-01T00:00:00Z".
Proof. reflexivity. Qed.
Example RFC3339_2023 : RFC3339 (1700000000 * Second) = "2023-11-14T22:13:20Z".
Proof. reflexivity. Qed.
Example RFC3339_leap : RFC3339 (1709164800 * Second - 1) = "2024-02-28T23:59:59Z"
  ∧ RFC3339 (1709164800 * Second) = "2024-02-29T00:00:00Z" ∧ RFC3339 zeroTime = "0001-01-01T00:00:00Z".
Proof. done. Qed.
