(* ===== verification/Execution.v ===== *)
(** * The action executor ([internal/execution])

    Shell commands and file operations run on behalf of tasks: who may run
    them (the profile check with approval tokens), where (the path policy),
    how often (retries with backoff), and what is kept (action records, replay
    by idempotency key). *)
From S2P Require Import Prelude GoStrings GoNum Sha1 StatusDirs FsAccess.
From S2P Require Approval.
Open Scope Z_scope.

(** ** Data *)

Definition ActionKindShell : string := "shell".
Definition ActionKindFileRead : string := "file-read".
Definition ActionKindFileWrite : string := "file-write".
Definition ActionStatusPending : string := "pending".
Definition ActionStatusRunning : string := "running".
Definition ActionStatusCompleted : string := "completed".
Definition ActionStatusFailed : string := "failed".
Definition ActionFailureTimeout : string := "timeout".
Definition ActionFailureProcessExit : string := "process_exit".
Definition ActionFailureIO : string := "io_error".
Definition ActionFailureExecution : string := "execution_error".

Record ActionAttempt := mkActionAttempt {
  at_Attempt : Z; at_Status : string; at_FailureCategory : string; at_Retryable : bool;
  at_ExitCode : Z; at_Error : string; at_StartedAt : Time; at_FinishedAt : option Time }.

Record ActionRecord := mkActionRecord {
  ActionID : string; TaskID : string; Kind : string; Status : string;
  ExecutionProfile : string; Command : string; Args : list string; Path : string;
  Workdir : string; ChangedFiles : list string; Metadata : gmap string string;
  Attempt : Z; AttemptHistory : list ActionAttempt; IdempotencyKey : string;
  Replayed : bool; ReplayOfActionID : string; Retryable : bool; FailureCategory : string;
  Stdout : string; Stderr : string; ExitCode : Z; Error : string;
  StartedAt : Time; FinishedAt : option Time }.

Record ShellActionRequest := mkShellRequest {
  sr_TaskID : string; sr_Command : string; sr_Args : list string; sr_Workdir : string;
  sr_TimeoutMS : Z; sr_Attempt : Z; sr_MaxAttempts : Z; sr_IdempotencyKey : string;
  sr_ExecutionProfile : string; sr_ApprovalToken : string; sr_Metadata : gmap string string }.
Record FileReadActionRequest := mkReadRequest {
  fr_TaskID : string; fr_Path : string; fr_Attempt : Z; fr_MaxAttempts : Z;
  fr_IdempotencyKey : string; fr_ExecutionProfile : string; fr_ApprovalToken : string;
  fr_Metadata : gmap string string }.
Record FileWriteActionRequest := mkWriteRequest {
  fw_TaskID : string; fw_Path : string; fw_Content : string; fw_CreateParents : bool;
  fw_Attempt : Z; fw_MaxAttempts : Z; fw_IdempotencyKey : string;
  fw_ExecutionProfile : string; fw_ApprovalToken : string; fw_Metadata : gmap string string }.

Definition opt_ok (t : option Time) : bool := match t with Some t => json_time_ok t | None => true end.
Definition attempt_json_ok (a : ActionAttempt) : bool :=
  json_time_ok (at_StartedAt a) && opt_ok (at_FinishedAt a).
Definition action_json_ok (r : ActionRecord) : bool :=
  json_time_ok (StartedAt r) && opt_ok (FinishedAt r) && forallb attempt_json_ok (AttemptHistory r).

#[export] Instance action_dir : DirRecord ActionRecord :=
  {| rec_id := ActionID; rec_status := Status; rec_json_ok := action_json_ok; rec_norm := id;
     rec_norm_id r := eq_refl; rec_norm_status r := eq_refl |}.

(** [record] with another status. *)
Definition with_status (r : ActionRecord) (status : string) : ActionRecord :=
  mkActionRecord (ActionID r) (TaskID r) (Kind r) status (ExecutionProfile r) (Command r) (Args r)
    (Path r) (Workdir r) (ChangedFiles r) (Metadata r) (Attempt r) (AttemptHistory r)
    (IdempotencyKey r) (Replayed r) (ReplayOfActionID r) (Retryable r) (FailureCategory r)
    (Stdout r) (Stderr r) (ExitCode r) (Error r) (StartedAt r) (FinishedAt r).
Definition with_started (r : ActionRecord) (t : Time) : ActionRecord :=
  mkActionRecord (ActionID r) (TaskID r) (Kind r) (Status r) (ExecutionProfile r) (Command r) (Args r)
    (Path r) (Workdir r) (ChangedFiles r) (Metadata r) (Attempt r) (AttemptHistory r)
    (IdempotencyKey r) (Replayed r) (ReplayOfActionID r) (Retryable r) (FailureCategory r)
    (Stdout r) (Stderr r) (ExitCode r) (Error r) t (FinishedAt r).
(** [record] after an attempt: its number and history, and the outcome fields. *)
Definition with_outcome (r : ActionRecord) (attempt : Z) (history : list ActionAttempt)
    (status : string) (retryable : bool) (category stdout stderr : string) (exitCode : Z)
    (err : string) (finished : option Time) : ActionRecord :=
  mkActionRecord (ActionID r) (TaskID r) (Kind r) status (ExecutionProfile r) (Command r) (Args r)
    (Path r) (Workdir r) (ChangedFiles r) (Metadata r) attempt history
    (IdempotencyKey r) (Replayed r) (ReplayOfActionID r) retryable category
    stdout stderr exitCode err (StartedAt r) finished.

(** ** State and environment *)

(** An error of the file system, as [isRetryableIOError] inspects it. *)
Record IOErr := mkIOErr {
  io_msg : string; io_missing_or_denied : bool; io_timeout : bool; io_temporary : bool }.
(** How a command ended: the error of [cmd.Run], if any, with whether the
    deadline passed and the exit code of an [ExitError]. *)
Record ShellErr := mkShellErr { sh_msg : string; sh_deadline : bool; sh_exit : option Z }.
Record ShellOutcome := mkShellOutcome { so_stdout : string; so_stderr : string; so_err : option ShellErr }.

(** The operating system: what the [n]-th command, read or write does. *)
Record Os := mkOs {
  run_command : nat → string → list string → string → Z → ShellOutcome;
  file_fault : nat → option IOErr;
  LookPath : string → option string;
  (** [os.Stat] of a command path: missing, or its executable bits *)
  executable : string → option bool }.

(** [actions]: the record store; [workspace]: the files actions read and
    write; [slept] and [spawned]: the backoff sleeps and the commands started, in
    order. *)
Record ExecState := mkExecState {
  actions : Dirs ActionRecord; approvals : Approval.Store;
  workspace : gmap string string; slept : list Z;
  spawned : list (string * list string * string) }.

Definition actions_dir : Lens ExecState (Dirs ActionRecord) :=
  mkLens actions (λ f s, mkExecState (f (actions s)) (approvals s) (workspace s) (slept s) (spawned s)).
Lemma actions_dir_ok : lens_ok actions_dir.
Proof. done. Qed.
Definition set_workspace (f : gmap string string → gmap string string) (s : ExecState) : ExecState :=
  mkExecState (actions s) (approvals s) (f (workspace s)) (slept s) (spawned s).

(** Run an operation of the approval store. *)
Definition with_approvals {A} (m : M Approval.Store A) : M ExecState A := λ s w,
  match m (approvals s) w with
  | (r, a, w') => (r, mkExecState (actions s) a (workspace s) (slept s) (spawned s), w')
  end.

(** ** The record store *)

Definition action_statuses : list string :=
  [ActionStatusPending; ActionStatusRunning; ActionStatusCompleted; ActionStatusFailed].

Definition findLocked (actionID : string) : M ExecState (ActionRecord * (string * string)) :=
  s ← get; lift_result (find_record ErrActionNotFound action_statuses actionID (actions s)).

Definition Save : ActionRecord → M ExecState unit := write_record actions_dir.
Definition Get (actionID : string) : M ExecState ActionRecord := x ← findLocked actionID; mret x.1.

Definition Move (record : ActionRecord) (nextStatus : string) : M ExecState unit :=
  res ← try (findLocked (ActionID record));
  match res with
  | Ok (existing, path) =>
      _ ← Remove actions_dir path;
      write_record actions_dir (with_status (with_started record (StartedAt existing)) nextStatus)
  | Err _ => write_record actions_dir (with_status record nextStatus)
  end.

(** Newest first; the order of equal times is left open by [sort.Slice]. *)
Definition newest (a b : ActionRecord) : Prop := StartedAt b <= StartedAt a.
#[export] Instance newest_dec : RelDecision newest.
Proof. intros a b. unfold newest. apply _. Defined.

Definition List (limit : Z) : M ExecState (list ActionRecord) :=
  s ← get;
  let limit := if limit <=? 0 then 20 else limit in
  records ← lift_result (read_dirs action_statuses (actions s));
  mret (take (Z.to_nat limit) (merge_sort newest records)).

Definition replayable (kind executionProfile idempotencyKey fingerprint : string)
    (record : ActionRecord) : bool :=
  bool_decide (Kind record = kind)
  && bool_decide (ExecutionProfile record = executionProfile)
  && bool_decide (TrimSpace (IdempotencyKey record) = idempotencyKey)
  && (bool_decide (fingerprint = "")
      || bool_decide (TrimSpace (default "" (Metadata record !! "request_fingerprint")) = fingerprint)).

Definition FindCompletedByIdempotency (kind executionProfile idempotencyKey fingerprint : string)
    : M ExecState ActionRecord :=
  s ← get;
  let idempotencyKey := TrimSpace idempotencyKey in
  if decide (idempotencyKey = "") then throw ErrActionNotFound else
  all ← lift_result (read_entries (dir_entries ActionStatusCompleted (actions s)));
  let records := filter (λ r, replayable kind executionProfile idempotencyKey fingerprint r = true) all in
  match merge_sort newest records with
  | r :: _ => mret r
  | [] => throw ErrActionNotFound
  end.

(** ** Helpers of the executor *)

Definition normalizeAttempt (explicit : Z) (metadata : gmap string string) : Z :=
  if 0 <? explicit then explicit else
  let value := TrimSpace (default "" (metadata !! "attempt")) in
  if decide (value = "") then 1 else
  match Sscanf_d value with
  | Some parsed => if 0 <? parsed then parsed else 1
  | None => 1
  end.

Definition normalizeMaxAttempts (explicit attempt : Z) : Z :=
  if 0 <? explicit then (if explicit <? attempt then attempt else explicit)
  else if attempt <=? 0 then 1 else attempt.

(** The sleep of [performBackoff], in nanoseconds: a shift count of 64 or more
    gives zero, and the product wraps. *)
Definition backoff (attempt : Z) : Z :=
  let ms := wrap64 (100 * wrap64 (Z.shiftl 1 (attempt - 1))) in
  let ms := if 5000 <? ms then 5000 else ms in
  wrap64 (ms * Millisecond).
Definition performBackoff (attempt : Z) : M ExecState unit :=
  if attempt <=? 1 then mret tt
  else modify (λ s, mkExecState (actions s) (approvals s) (workspace s) (slept s ++ [backoff attempt]) (spawned s)).

Definition shouldRetry (actionKind failureCategory : string) (attempt maxAttempts : Z) : bool :=
  if maxAttempts <=? attempt then false
  else if decide (actionKind = ActionKindShell) then bool_decide (failureCategory = ActionFailureTimeout)
  else if decide (actionKind = ActionKindFileRead ∨ actionKind = ActionKindFileWrite)
  then bool_decide (failureCategory = ActionFailureIO)
  else false.

Definition isRetryableIOError (err : IOErr) : bool :=
  if io_missing_or_denied err then false else io_timeout err || io_temporary err.

Definition unit_separator : string := String (ascii_of_nat 31) "".
Definition executionFingerprint (parts : list string) : string :=
  hex_bytes (Sum (Join parts unit_separator)).

Definition firstNonEmptySlice {A} (primary fallback : list A) : list A :=
  match primary with [] => fallback | _ => primary end.

Definition allowedCommands : list string :=
  ["cat"; "echo"; "git"; "ls"; "pwd"; "python3"; "rg"; "sed"].

Section executor.
Context {tables : UnicodeTables}.
Variables (os : Os) (env : Env).
(** The fields of the [Executor]: the workspace root, the root token, whether
    an approval store is configured, and [MNEMOSYNE_RUNTIME_ROOT]. *)
Variables (workspaceRoot rootAuthToken : string) (hasApprovals : bool).

(** [subtleConstantCompare]: the lengths, then the differences of all bytes. *)
Definition subtleConstantCompare (left right : string) : bool :=
  if negb (len left =? len right)%nat then false
  else foldl (λ acc xy, Z.lor acc (Z.lxor xy.1 xy.2)) 0 (zip (bytes_of left) (bytes_of right)) =? 0.

Definition authorizeProfile (profile approvalToken : string) : M ExecState unit :=
  if decide (profile = "user") then mret tt
  else if decide (profile = "root") then
    if bool_decide (rootAuthToken = "") && negb hasApprovals then throw ErrExecutionDenied
    else if blank approvalToken then throw ErrExecutionDenied
    else
      consumed ← (if hasApprovals then
                    res ← try (with_approvals (Approval.Consume profile approvalToken));
                    mret (is_ok res)
                  else mret false);
      if (consumed : bool) then mret tt
      else if subtleConstantCompare (TrimSpace approvalToken) rootAuthToken then mret tt
      else throw ErrExecutionDenied
  else throw ErrExecutionDenied.

Definition resolveAllowedPath (path : string) : result string :=
  match ExpandHomeDir env (TrimSpace path) with
  | None => Err EIO
  | Some path =>
      let absPath := if IsAbs path then Clean path else Join2 workspaceRoot path in
      let absPath := Abs env absPath in
      let runtimeRoot := TrimSpace (Getenv env "MNEMOSYNE_RUNTIME_ROOT") in
      let runtimeRoot := if decide (runtimeRoot = "") then "" else Abs env runtimeRoot in
      if IsPathAllowed env absPath workspaceRoot runtimeRoot then Ok absPath else Err ErrExecutionDenied
  end.

Definition resolveCommand (command : string) : result string :=
  let command := TrimSpace command in
  if Contains command "/" then
    path ← resolveAllowedPath command;
    match executable os path with
    | None => Err ENotExist
    | Some false => Err ErrExecutionDenied
    | Some true => Ok path
    end
  else if negb (bool_decide (command ∈ allowedCommands)) then Err ErrExecutionDenied
  else match LookPath os command with Some path => Ok path | None => Err ENotExist end.

Definition resolveWorkdir (workdir : string) : result string :=
  if blank workdir then Ok workspaceRoot else resolveAllowedPath workdir.

(** The completed record of a replay. *)
Definition replayed_record (record existing : ActionRecord) (finishedAt startedAt : Time) : ActionRecord :=
  mkActionRecord (ActionID record) (TaskID record) (Kind record) ActionStatusCompleted
    (ExecutionProfile record) (firstNonEmpty [Command record; Command existing])
    (firstNonEmptySlice (Args record) (Args existing)) (firstNonEmpty [Path record; Path existing])
    (firstNonEmpty [Workdir record; Workdir existing])
    (firstNonEmptySlice (ChangedFiles record) (ChangedFiles existing)) (Metadata record)
    (Attempt record)
    [mkActionAttempt (Attempt record) ActionStatusCompleted "" false 0 "" startedAt (Some finishedAt)]
    (IdempotencyKey record) true (ActionID existing) (Retryable record) (FailureCategory record)
    (Stdout existing) (Stderr existing) (ExitCode existing) (Error record) startedAt (Some finishedAt).

(** [None]: nothing to replay. *)
Definition tryReplay (record : ActionRecord) (fingerprint : string) : M ExecState (option ActionRecord) :=
  if blank (IdempotencyKey record) then mret None else
  res ← try (FindCompletedByIdempotency (Kind record) (ExecutionProfile record) (IdempotencyKey record) fingerprint);
  match res with
  | Err ErrActionNotFound => mret None
  | Err e => throw e
  | Ok existing =>
      finishedAt ← now;
      startedAt ← now;
      let replayed := replayed_record record existing finishedAt startedAt in
      _ ← Save replayed;
      mret (Some replayed)
  end.

(** ** Shell commands *)

Record shellAttemptResult := mkShellAttempt {
  res_stdout : string; res_stderr : string; res_exitCode : Z; res_err : option string;
  res_category : string; res_retryable : bool; res_startedAt : Time; res_finishedAt : Time }.

(** [cmd.Run()] under the deadline. *)
Definition spawn (commandPath : string) (args : list string) (workdir : string) (timeout : Z)
    : M ExecState ShellOutcome := λ s w,
  (Ok (run_command os (tick w) commandPath args workdir timeout),
   mkExecState (actions s) (approvals s) (workspace s) (slept s)
     (spawned s ++ [(commandPath, args, workdir)]), advance w).
Definition runShellAttempt (commandPath : string) (args : list string) (workdir : string)
    (timeout : Z) : M ExecState shellAttemptResult :=
  startedAt ← now;
  outcome ← spawn commandPath args workdir timeout;
  finishedAt ← now;
  let result exitCode category retryable := mkShellAttempt (so_stdout outcome) (so_stderr outcome)
    exitCode (sh_msg <$> so_err outcome) category retryable startedAt finishedAt in
  mret match so_err outcome with
  | None => result 0 "" false
  | Some e =>
      if sh_deadline e then result 0 ActionFailureTimeout true
      else match sh_exit e with
      | Some code => result code ActionFailureProcessExit false
      | None => result 0 ActionFailureExecution false
      end
  end.

Definition attemptStatus (err : option string) : string :=
  match err with None => ActionStatusCompleted | Some _ => ActionStatusFailed end.
Definition errorString (err : option string) : string := default "" err.

(** [record] after a shell attempt. *)
Definition shell_attempted (record : ActionRecord) (attempt : Z) (r : shellAttemptResult) : ActionRecord :=
  with_outcome record attempt
    (AttemptHistory record ++ [mkActionAttempt attempt (attemptStatus (res_err r)) (res_category r)
       (res_retryable r) (res_exitCode r) (errorString (res_err r)) (res_startedAt r)
       (Some (res_finishedAt r))])
    (Status record) (res_retryable r) (res_category r) (res_stdout r) (res_stderr r)
    (res_exitCode r) (errorString (res_err r)) (Some (res_finishedAt r)).
Definition succeeded (r : ActionRecord) (stdout : string) : ActionRecord :=
  with_outcome r (Attempt r) (AttemptHistory r) ActionStatusCompleted false "" stdout (Stderr r)
    (ExitCode r) "" (FinishedAt r).

(** The attempts of a command, [fuel] bounding their number. *)
Fixpoint shell_loop (fuel : nat) (record : ActionRecord) (attempt maxAttempts : Z)
    (commandPath : string) (args : list string) (workdir : string) (timeout : Z)
    : M ExecState ActionRecord :=
  match fuel with
  | O =>
      let record := with_status record ActionStatusFailed in
      _ ← Move record ActionStatusFailed; mret record
  | S fuel =>
      result ← runShellAttempt commandPath args workdir timeout;
      let record := shell_attempted record attempt result in
      match res_err result with
      | None =>
          let record := succeeded record (Stdout record) in
          _ ← Move record ActionStatusCompleted; mret record
      | Some _ =>
          if shouldRetry ActionKindShell (res_category result) attempt maxAttempts
          then shell_loop fuel record (attempt + 1) maxAttempts commandPath args workdir timeout
          else
            let record := with_status record ActionStatusFailed in
            _ ← Move record ActionStatusFailed; mret record
      end
  end.

(** The running record of a new action. *)
Definition newRecord (id started : Time) (taskID kind profile command : string)
    (args : list string) (path workdir : string) (changed : list string)
    (metadata : gmap string string) (attempt : Z) (key : string) : ActionRecord :=
  mkActionRecord ("action-" +:+ Itoa id) (TrimSpace taskID) kind ActionStatusRunning profile
    command args path workdir changed metadata attempt [] key false "" false "" "" "" 0 "" started None.

Definition shell_timeout (req : ShellActionRequest) : Z :=
  if 0 <? sr_TimeoutMS req then wrap64 (sr_TimeoutMS req * Millisecond) else 30 * Second.

Definition nul : string := String (ascii_of_nat 0) "".

Definition executeShellInner (req : ShellActionRequest) : M ExecState ActionRecord :=
  if blank (sr_Command req) then throw ErrExecutionInvalidInput else
  let profile := firstNonEmpty [sr_ExecutionProfile req; "user"] in
  _ ← authorizeProfile profile (sr_ApprovalToken req);
  commandPath ← lift_result (resolveCommand (sr_Command req));
  workdir ← lift_result (resolveWorkdir (sr_Workdir req));
  let fingerprint := executionFingerprint [ActionKindShell; profile; commandPath; workdir;
    Itoa (sr_TimeoutMS req); Join (sr_Args req) nul] in
  let metadata := <["request_fingerprint" := fingerprint]> (sr_Metadata req) in
  id ← now;
  started ← now;
  let record := newRecord id started (sr_TaskID req) ActionKindShell profile commandPath
    (sr_Args req) "" workdir [] metadata (normalizeAttempt (sr_Attempt req) (sr_Metadata req))
    (firstNonEmpty [sr_IdempotencyKey req; default "" (sr_Metadata req !! "idempotency_key")]) in
  replay ← tryReplay record fingerprint;
  match replay with
  | Some replayed => mret replayed
  | None =>
      let maxAttempts := normalizeMaxAttempts (sr_MaxAttempts req) (Attempt record) in
      _ ← Save record;
      shell_loop (Z.to_nat (maxAttempts - Attempt record + 1)) record (Attempt record) maxAttempts
        commandPath (sr_Args req) workdir (shell_timeout req)
  end.

(** ** File operations *)

(** [os.ReadFile(path)] *)
Definition read_file (path : string) : M ExecState (string + IOErr) := λ s w,
  (Ok match file_fault os (tick w) with
   | Some e => inr e
   | None => match workspace s !! path with
             | Some data => inl data
             | None => inr (mkIOErr "no such file or directory" true false false)
             end
   end, s, advance w).

(** [os.WriteFile(path, content, 0o644)]; a fault may come before or after the
    file was truncated. *)
Definition write_file (path content : string) : M ExecState (string + IOErr) :=
  e ← (λ s w, (Ok (file_fault os (tick w)), s, advance w));
  torn ← io;
  match e with
  | Some e =>
      _ ← (match torn with FailTorn => modify (set_workspace (insert path "")) | _ => mret tt end);
      mret (inr e)
  | None =>
      _ ← modify (set_workspace (insert path content));
      mret (inl ("wrote " +:+ Itoa (Z.of_nat (len content)) +:+ " bytes"))
  end.
(** [os.MkdirAll(filepath.Dir(path), 0o755)] *)
Definition mkdir_all : M ExecState (option IOErr) :=
  λ s w, (Ok (file_fault os (tick w)), s, advance w).

(** [record] after a file attempt that failed or succeeded. *)
Definition file_attempted (record : ActionRecord) (attempt : Z) (err : option IOErr)
    (retryable : bool) (finishedAt : Time) : ActionRecord :=
  with_outcome record attempt
    (AttemptHistory record ++ [mkActionAttempt attempt (attemptStatus (io_msg <$> err))
       (match err with Some _ => ActionFailureIO | None => "" end) retryable 0
       (errorString (io_msg <$> err)) (StartedAt record) (Some finishedAt)])
    (Status record) (Retryable record) (FailureCategory record) (Stdout record) (Stderr record)
    (ExitCode record) (Error record) (Some finishedAt).
Definition file_failed (record : ActionRecord) (err : IOErr) (retryable : bool) : ActionRecord :=
  with_outcome record (Attempt record) (AttemptHistory record) ActionStatusFailed retryable
    ActionFailureIO (Stdout record) (Stderr record) (ExitCode record) (io_msg err) (FinishedAt record).
(** [record.Retryable = false], also on the last attempt. *)
Definition not_retryable (record : ActionRecord) : ActionRecord :=
  with_outcome record (Attempt record)
    (alter (λ a, mkActionAttempt (at_Attempt a) (at_Status a) (at_FailureCategory a) false
                   (at_ExitCode a) (at_Error a) (at_StartedAt a) (at_FinishedAt a))
       (length (AttemptHistory record) - 1)%nat (AttemptHistory record))
    (Status record) false (FailureCategory record) (Stdout record) (Stderr record)
    (ExitCode record) (Error record) (FinishedAt record).

(** The attempts of a file operation [op], which yields the new [Stdout]. *)
Fixpoint file_loop (kind : string) (op : M ExecState (string + IOErr)) (fuel : nat)
    (record : ActionRecord) (attempt maxAttempts : Z) : M ExecState ActionRecord :=
  match fuel with
  | O =>
      let record := with_outcome record (Attempt record) (AttemptHistory record) ActionStatusFailed
        false (FailureCategory record) (Stdout record) (Stderr record) (ExitCode record)
        (Error record) (FinishedAt record) in
      _ ← Move record ActionStatusFailed; mret record
  | S fuel =>
      _ ← (if 1 <? attempt then performBackoff attempt else mret tt);
      res ← op;
      finishedAt ← now;
      match res with
      | inl stdout =>
          let record := succeeded (file_attempted record attempt None false finishedAt) stdout in
          _ ← Move record ActionStatusCompleted; mret record
      | inr err =>
          let retryable := isRetryableIOError err in
          let record := file_failed (file_attempted record attempt (Some err) retryable finishedAt) err retryable in
          if negb retryable || negb (shouldRetry kind ActionFailureIO attempt maxAttempts) then
            let record := not_retryable record in
            _ ← Move record ActionStatusFailed; mret record
          else file_loop kind op fuel record (attempt + 1) maxAttempts
      end
  end.

(** From the resolved request to the final record. *)
Definition run_file_action (kind : string) (op : M ExecState (string + IOErr)) (profile path : string)
    (fingerprint : string) (taskID : string) (changed : list string) (attempt maxAttempts : Z)
    (key : string) (metadata : gmap string string) : M ExecState ActionRecord :=
  id ← now;
  started ← now;
  let record := newRecord id started taskID kind profile "" [] path "" changed
    (<["request_fingerprint" := fingerprint]> metadata) (normalizeAttempt attempt metadata)
    (firstNonEmpty [key; default "" (metadata !! "idempotency_key")]) in
  replay ← tryReplay record fingerprint;
  match replay with
  | Some replayed => mret replayed
  | None =>
      let maxAttempts := normalizeMaxAttempts maxAttempts (Attempt record) in
      _ ← Save record;
      file_loop kind op (Z.to_nat (maxAttempts - Attempt record + 1)) record (Attempt record) maxAttempts
  end.

Definition executeFileReadInner (req : FileReadActionRequest) : M ExecState ActionRecord :=
  if blank (fr_Path req) then throw ErrExecutionInvalidInput else
  let profile := firstNonEmpty [fr_ExecutionProfile req; "user"] in
  _ ← authorizeProfile profile (fr_ApprovalToken req);
  path ← lift_result (resolveAllowedPath (fr_Path req));
  run_file_action ActionKindFileRead (read_file path) profile path
    (executionFingerprint [ActionKindFileRead; profile; path])
    (fr_TaskID req) [] (fr_Attempt req) (fr_MaxAttempts req) (fr_IdempotencyKey req) (fr_Metadata req).

Definition write_op (req : FileWriteActionRequest) (path : string) : M ExecState (string + IOErr) :=
  mkdirErr ← (if fw_CreateParents req then mkdir_all else mret None);
  match mkdirErr with
  | Some e => mret (inr e)
  | None => write_file path (fw_Content req)
  end.

Definition executeFileWriteInner (req : FileWriteActionRequest) : M ExecState ActionRecord :=
  if blank (fw_Path req) then throw ErrExecutionInvalidInput else
  let profile := firstNonEmpty [fw_ExecutionProfile req; "user"] in
  _ ← authorizeProfile profile (fw_ApprovalToken req);
  path ← lift_result (resolveAllowedPath (fw_Path req));
  run_file_action ActionKindFileWrite (write_op req path) profile path
    (executionFingerprint [ActionKindFileWrite; profile; path; fw_Content req;
       if fw_CreateParents req then "true" else "false"])
    (fw_TaskID req) [path] (fw_Attempt req) (fw_MaxAttempts req) (fw_IdempotencyKey req) (fw_Metadata req).

(** The zero record, and the record a recovered panic returns. *)
Definition zero_record (kind status : string) : ActionRecord :=
  mkActionRecord "" "" kind status "" "" [] "" "" [] ∅ 0 [] "" false "" false "" "" "" 0 "" zeroTime None.
(** [defer func() { if r := recover(); r != nil {..} }()] around a call. *)
Definition recovering (kind : string) (m : M ExecState ActionRecord)
    : M ExecState (ActionRecord * option error) :=
  res ← try m;
  mret match res with
  | Ok record => (record, None)
  | Err EPanic => (zero_record kind ActionStatusFailed, Some EPanic)
  | Err e => (zero_record "" "", Some e)
  end.
Definition ExecuteShell (req : ShellActionRequest) := recovering ActionKindShell (executeShellInner req).
Definition ExecuteFileRead (req : FileReadActionRequest) := recovering ActionKindFileRead (executeFileReadInner req).
Definition ExecuteFileWrite (req : FileWriteActionRequest) := recovering ActionKindFileWrite (executeFileWriteInner req).
End executor.
