(* ===== verification/Executor.v ===== *)
(** * What the executor guarantees (theorems on [Execution.v])

    Authorization, confinement, bounded retries, backoff and replay. *)
From S2P Require Import Prelude GoStrings GoNum Sha1 StatusDirs FsAccess Execution.
From S2P Require Approval.
Open Scope Z_scope.

(** ** Frames *)

(** The files other than [path] are untouched. *)
Definition ws_frame (s0 : ExecState) (path : string) (s : ExecState) : Prop :=
  ∀ p, p ≠ path → workspace s !! p = workspace s0 !! p.
Definition ws_same (s0 : ExecState) (s : ExecState) : Prop := workspace s = workspace s0.

(** [I] only reads the workspace. *)
Definition ws_only (I : ExecState → Prop) : Prop :=
  ∀ s s', workspace s' = workspace s → I s → I s'.
Lemma ws_only_frame s0 path : ws_only (ws_frame s0 path).
Proof. intros s s' H Hs p Hp. rewrite H. by apply Hs. Qed.
Lemma ws_only_same s0 : ws_only (ws_same s0).
Proof. intros s s' H Hs. unfold ws_same. by rewrite H. Qed.

Section frames.
Variable I : ExecState → Prop.
Hypothesis HI : ws_only I.

Lemma over_actions_ws s f : I s → I (over actions_dir f s).
Proof. by apply HI. Qed.
#[local] Hint Resolve over_actions_ws preserves_WriteFile preserves_Remove : hoare.

Lemma Save_ws r : preserves I (Save r).
Proof. unfold Save, write_record. preserves_tac. Qed.
Lemma findLocked_ws id : preserves I (findLocked id).
Proof. unfold findLocked. preserves_tac. Qed.
#[local] Hint Resolve Save_ws findLocked_ws : hoare.
Lemma Move_ws r st : preserves I (Move r st).
Proof. unfold Move, write_record. preserves_tac. Qed.
Lemma with_approvals_ws {A} (m : M Approval.Store A) : preserves I (with_approvals m).
Proof.
  intros s w Hs. unfold with_approvals. destruct (m (approvals s) w) as [[r a] w']. by apply (HI s).
Qed.
Lemma performBackoff_ws n : preserves I (performBackoff n).
Proof. unfold performBackoff. preserves_tac. apply preserves_modify. intros s. by apply HI. Qed.
#[local] Hint Resolve Move_ws with_approvals_ws performBackoff_ws : hoare.
Lemma authorizeProfile_ws rootAuthToken hasApprovals profile token :
  preserves I (authorizeProfile rootAuthToken hasApprovals profile token).
Proof. unfold authorizeProfile. preserves_tac. Qed.
Lemma tryReplay_ws r fp : preserves I (tryReplay r fp).
Proof. unfold tryReplay, FindCompletedByIdempotency. preserves_tac. Qed.
#[local] Hint Resolve tryReplay_ws : hoare.
Lemma file_loop_ws kind op fuel r a m : preserves I op → preserves I (file_loop kind op fuel r a m).
Proof.
  intros Hop. revert r a. induction fuel as [|fuel IH]; intros r a; cbn [file_loop]; preserves_tac.
Qed.
#[local] Hint Resolve file_loop_ws : hoare.
Lemma run_file_action_ws kind op profile path fp taskID changed a m key md :
  preserves I op → preserves I (run_file_action kind op profile path fp taskID changed a m key md).
Proof. intros Hop. unfold run_file_action. preserves_tac. Qed.

Lemma runShellAttempt_ws os p args wd t : preserves I (runShellAttempt os p args wd t).
Proof.
  unfold runShellAttempt. apply preserves_bind; [apply preserves_now|]. intros.
  apply preserves_bind; [intros s w; by apply HI|]. intros. preserves_tac.
Qed.
#[local] Hint Resolve runShellAttempt_ws : hoare.
Lemma shell_loop_ws os fuel r a m p args wd t : preserves I (shell_loop os fuel r a m p args wd t).
Proof. revert r a. induction fuel as [|fuel IH]; intros r a; cbn [shell_loop]; preserves_tac. Qed.
#[local] Hint Resolve authorizeProfile_ws shell_loop_ws run_file_action_ws : hoare.

Lemma read_file_ws os path : preserves I (read_file os path).
Proof. by intros s w. Qed.
Lemma executeFileReadInner_ws `{UnicodeTables} os env root tok ap req :
  preserves I (executeFileReadInner os env root tok ap req).
Proof. unfold executeFileReadInner. preserves_tac. apply run_file_action_ws, read_file_ws. Qed.
Lemma executeShellInner_ws `{UnicodeTables} os env root tok ap req :
  preserves I (executeShellInner os env root tok ap req).
Proof. unfold executeShellInner. preserves_tac. Qed.
End frames.

Lemma write_op_frame os s0 req path : preserves (ws_frame s0 path) (write_op os req path).
Proof.
  unfold write_op, write_file, mkdir_all. apply preserves_bind; [destruct (fw_CreateParents req); by intros s w|].
  intros [e|]; [apply preserves_ret|]. apply preserves_bind; [by intros s w|]. intros o.
  apply preserves_bind; [apply preserves_io|]. intros f.
  assert (∀ c, preserves (ws_frame s0 path) (modify (set_workspace (insert path c)))) as Hm.
  { intros c. apply preserves_modify. intros s Hs p Hp. cbn. rewrite lookup_insert_ne by done. by apply Hs. }
  destruct o; preserves_tac; apply Hm.
Qed.

Lemma executeFileWriteInner_preserves `{UnicodeTables} (I : ExecState → Prop) os env root tok ap req :
  ws_only I →
  (∀ path, resolveAllowedPath env root (fw_Path req) = Ok path → preserves I (write_op os req path)) →
  preserves I (executeFileWriteInner os env root tok ap req).
Proof.
  intros HI Hop. unfold executeFileWriteInner. destruct (blank _); [apply preserves_throw|]. cbv zeta.
  apply preserves_bind; [by apply authorizeProfile_ws|]. intros [].
  apply preserves_lift_bind. intros path Hp. apply run_file_action_ws; [done|by apply Hop].
Qed.

(** The roots the policy knows: the workspace, the runtime root of the
    environment (none if unset), the temporary directory and the extra roots. *)
Definition configured_roots `{UnicodeTables} (env : Env) (root : string) : list string :=
  let runtimeRoot := TrimSpace (Getenv env "MNEMOSYNE_RUNTIME_ROOT") in
  [root; if decide (runtimeRoot = "") then "" else Abs env runtimeRoot; TempDir env] ++ ExtraRootsFromEnv env.

Lemma resolveAllowedPath_allowed `{UnicodeTables} env root path p :
  resolveAllowedPath env root path = Ok p → UnrestrictedFromEnv env = false →
  ∃ r, r ∈ configured_roots env root ∧ PathUnderRoot env p r = true.
Proof.
  unfold resolveAllowedPath, configured_roots. destruct (ExpandHomeDir env _) as [q|]; [|done]. cbv zeta.
  match goal with |- context [IsPathAllowed env ?a root ?rt] => destruct (IsPathAllowed env a root rt) eqn:E end; [|done].
  intros [= <-] Hu. unfold IsPathAllowed in E. rewrite Hu in E. cbn [orb] in E.
  rewrite <- existsb_app, existsb_exists in E. destruct E as (r & Hin & Hr). exists r.
  by rewrite list_elem_of_In.
Qed.

(** ** Authorization *)

Lemma with_approvals_run {A} (m : M Approval.Store A) s w :
  with_approvals m s w =
    match m (approvals s) w with
    | (r, a, w') => (r, mkExecState (actions s) a (workspace s) (slept s) (spawned s), w')
    end.
Proof. done. Qed.

(** The byte loop of [subtleConstantCompare] tests equality. *)
Lemma diff_bytes_acc l acc :
  0 <= acc → Forall (λ xy : Z * Z, 0 <= xy.1 ∧ 0 <= xy.2) l →
  foldl (λ acc xy, Z.lor acc (Z.lxor xy.1 xy.2)) acc l = 0 ↔ acc = 0 ∧ Forall (λ xy : Z * Z, xy.1 = xy.2) l.
Proof.
  revert acc. induction l as [|[x y] l IH]; intros acc Hacc Hl; cbn; [rewrite Forall_nil; tauto|].
  apply Forall_cons in Hl as [[Hx Hy] Hl]. cbn in Hx, Hy.
  rewrite IH; [|by apply Z.lor_nonneg; split; [|apply Z.lxor_nonneg]|done].
  rewrite Z.lor_eq_0_iff, Forall_cons, Z.lxor_eq_0_iff. cbn. tauto.
Qed.
Lemma bytes_of_nonneg s : Forall (λ x, 0 <= x) (bytes_of s).
Proof. induction s as [|a s IH]; cbn; constructor; [lia|done]. Qed.
Lemma bytes_of_zip_inj s t :
  len s = len t → Forall (λ xy : Z * Z, xy.1 = xy.2) (zip (bytes_of s) (bytes_of t)) → s = t.
Proof.
  revert t. induction s as [|a s IH]; intros [|b t]; cbn; try done.
  intros [= Hl] [Hab Ht]%Forall_cons. cbn in Hab. apply Nat2Z.inj in Hab.
  rewrite (IH t Hl Ht). f_equal. by rewrite <- (ascii_nat_embedding a), Hab, ascii_nat_embedding.
Qed.
Lemma subtleConstantCompare_spec l r : subtleConstantCompare l r = true ↔ l = r.
Proof.
  assert (Forall (λ xy : Z * Z, 0 <= xy.1 ∧ 0 <= xy.2) (zip (bytes_of l) (bytes_of r))) as Hn.
  { apply Forall_forall. intros [x y] Hin. pose proof (bytes_of_nonneg l) as Hl. pose proof (bytes_of_nonneg r) as Hr.
    rewrite Forall_forall in Hl, Hr. split; [apply Hl|apply Hr]; cbn;
      [by eapply elem_of_zip_l|by eapply elem_of_zip_r]. }
  unfold subtleConstantCompare. destruct (Nat.eqb_spec (len l) (len r)) as [Hl|Hl]; cbn [negb]; [|split; [done|congruence]].
  rewrite Z.eqb_eq, diff_bytes_acc by done. split.
  - intros [_ Hz]. by apply bytes_of_zip_inj.
  - intros ->. split; [done|]. clear. induction (bytes_of r); cbn; constructor; done.
Qed.

(** No file was written, no sleep taken, no command started. *)
Definition quiet (s s' : ExecState) : Prop :=
  workspace s' = workspace s ∧ slept s' = slept s ∧ spawned s' = spawned s.
(** ... and no record written either. *)
Definition no_action (s s' : ExecState) : Prop := actions s' = actions s ∧ quiet s s'.

Lemma authorizeProfile_no_action rootAuthToken hasApprovals profile token s :
  preserves (no_action s) (authorizeProfile rootAuthToken hasApprovals profile token).
Proof.
  unfold authorizeProfile. preserves_tac.
  intros s1 w1 H. rewrite with_approvals_run. by destruct (Approval.Consume _ _ _ _) as [[? ?] ?].
Qed.
Lemma tryReplay_quiet r fp s : preserves (quiet s) (tryReplay r fp).
Proof.
  unfold tryReplay, FindCompletedByIdempotency, Save, write_record. preserves_tac.
  by apply preserves_WriteFile.
Qed.

(** C8. Nothing runs as root unauthorized: [authorizeProfile] lets through the
    user profile, and the root profile only with a nonblank token that either
    consumed an approval of that profile or equals the configured root token;
    a blank root token in the configuration never authorizes. *)
Theorem authorizeProfile_sound rootAuthToken hasApprovals profile token s w s' w' :
  authorizeProfile rootAuthToken hasApprovals profile token s w = (Ok tt, s', w') →
  (profile = "user" ∧ s' = s) ∨
  (profile = "root" ∧ TrimSpace token ≠ "" ∧
   no_action s s' ∧
   ((hasApprovals = true ∧ ∃ r w1, Approval.Consume profile token (approvals s) w = (Ok r, approvals s', w1)) ∨
    (rootAuthToken ≠ "" ∧ TrimSpace token = rootAuthToken))).
Proof.
  intros E. pose proof (authorizeProfile_no_action rootAuthToken hasApprovals profile token s s w
    (conj eq_refl (conj eq_refl (conj eq_refl eq_refl)))) as Hn. rewrite E in Hn. revert E.
  unfold authorizeProfile. case_decide as Hu; [intros [= <- <-]; by left|].
  case_decide as Hr; [|done]. destruct (_ && _); [done|].
  destruct (blank token) eqn:Hb; [done|]. unfold blank in Hb. apply bool_decide_eq_false in Hb.
  intros E. right. split; [done|]. split; [done|]. split; [exact Hn|]. clear Hn. revert E. run.
  assert (∀ s1 w1, (if subtleConstantCompare (TrimSpace token) rootAuthToken
     then λ s w, (Ok (), s, w) else λ s w, (Err ErrExecutionDenied, s, w)) s1 w1 = (Ok tt, s', w') →
    rootAuthToken ≠ "" ∧ TrimSpace token = rootAuthToken) as Hcmp.
  { intros s1 w1. destruct (subtleConstantCompare _ _) eqn:Hc; [|done].
    intros _. apply subtleConstantCompare_spec in Hc. split; [by rewrite <- Hc|done]. }
  destruct hasApprovals.
  - rewrite with_approvals_run.
    destruct (Approval.Consume profile token (approvals s) w) as [[[r|e] a] w1] eqn:Ec; cbn.
    + intros [= <- <-]. left. split; [done|]. cbn. eauto.
    + intros E. right. exact (Hcmp _ _ E).
  - intros E. right. exact (Hcmp _ _ E).
Qed.

(** *** The three actions as one operation *)

Inductive Action :=
  | AShell (req : ShellActionRequest)
  | ARead (req : FileReadActionRequest)
  | AWrite (req : FileWriteActionRequest).

Definition run_action `{UnicodeTables} os env root tok ap (a : Action) : M ExecState ActionRecord :=
  match a with
  | AShell req => executeShellInner os env root tok ap req
  | ARead req => executeFileReadInner os env root tok ap req
  | AWrite req => executeFileWriteInner os env root tok ap req
  end.
Definition action_kind (a : Action) : string :=
  match a with AShell _ => ActionKindShell | ARead _ => ActionKindFileRead | AWrite _ => ActionKindFileWrite end.
(** The command or path, the profile and the token of the request. *)
Definition action_subject (a : Action) : string :=
  match a with AShell r => sr_Command r | ARead r => fr_Path r | AWrite r => fw_Path r end.
Definition action_profile (a : Action) : string :=
  firstNonEmpty [match a with
    | AShell r => sr_ExecutionProfile r | ARead r => fr_ExecutionProfile r | AWrite r => fw_ExecutionProfile r
    end; "user"].
Definition action_token (a : Action) : string :=
  match a with AShell r => sr_ApprovalToken r | ARead r => fr_ApprovalToken r | AWrite r => fw_ApprovalToken r end.
Definition action_metadata (a : Action) : gmap string string :=
  match a with AShell r => sr_Metadata r | ARead r => fr_Metadata r | AWrite r => fw_Metadata r end.
(** The first attempt number, the last one, and the idempotency key. *)
Definition action_first (a : Action) : Z :=
  normalizeAttempt (match a with AShell r => sr_Attempt r | ARead r => fr_Attempt r | AWrite r => fw_Attempt r end)
    (action_metadata a).
Definition action_max (a : Action) : Z :=
  normalizeMaxAttempts
    (match a with AShell r => sr_MaxAttempts r | ARead r => fr_MaxAttempts r | AWrite r => fw_MaxAttempts r end)
    (action_first a).
Definition action_key (a : Action) : string :=
  firstNonEmpty [match a with
    | AShell r => sr_IdempotencyKey r | ARead r => fr_IdempotencyKey r | AWrite r => fw_IdempotencyKey r
    end; default "" (action_metadata a !! "idempotency_key")].

(** C6. Actions are confined: whatever happens, an action of the executor
    itself changes at most one file, the one a write request resolves to, and
    unless the operator has lifted the restriction that file lies, symbolic
    links resolved, under the workspace, the configured runtime root, the
    temporary directory or one of the configured extra roots.  (What a command
    does to files is not part of the model.) *)
Theorem writes_confined `{UnicodeTables} os env root tok ap a s w p :
  workspace (exec (run_action os env root tok ap a) s w) !! p ≠ workspace s !! p →
  ∃ req, a = AWrite req ∧ resolveAllowedPath env root (fw_Path req) = Ok p ∧
    (UnrestrictedFromEnv env = false → ∃ r, r ∈ configured_roots env root ∧ PathUnderRoot env p r = true).
Proof.
  intros Hne. destruct a as [req|req|req]; cbn [run_action] in Hne.
  { pose proof (preserves_exec (ws_same s) _ s w (executeShellInner_ws _ (ws_only_same s) os env root tok ap req) eq_refl) as Hf.
    destruct Hne. by rewrite Hf. }
  { pose proof (preserves_exec (ws_same s) _ s w (executeFileReadInner_ws _ (ws_only_same s) os env root tok ap req) eq_refl) as Hf.
    destruct Hne. by rewrite Hf. }
  exists req. split; [done|].
  assert (resolveAllowedPath env root (fw_Path req) = Ok p) as Hp.
  { destruct (resolveAllowedPath env root (fw_Path req)) as [path|e] eqn:Er.
    - pose proof (preserves_exec (ws_frame s path) _ s w (executeFileWriteInner_preserves _ os env root tok ap req
        (ws_only_frame s path) ltac:(intros ? [= <-]%(eq_trans (eq_sym Er)); apply write_op_frame)) (λ p _, eq_refl)) as Hf.
      destruct (decide (p = path)) as [->|Hp]; [done|]. destruct Hne. by apply Hf.
    - pose proof (preserves_exec (ws_same s) _ s w (executeFileWriteInner_preserves _ os env root tok ap req
        (ws_only_same s) ltac:(intros ? [=]%(eq_trans (eq_sym Er)))) eq_refl) as Hf.
      destruct Hne. by rewrite Hf. }
  split; [done|]. by eapply resolveAllowedPath_allowed.
Qed.

(** A denied action has no effect: if the profile check refuses, the
    action returns that refusal, records nothing, starts no command, writes no
    file and does not sleep. *)
Theorem denied_no_effect `{UnicodeTables} os env root tok ap a s w e :
  (authorizeProfile tok ap (action_profile a) (action_token a) s w).1.1 = Err e →
  blank (action_subject a) = false →
  (run_action os env root tok ap a s w).1.1 = Err e ∧ no_action s (run_action os env root tok ap a s w).1.2.
Proof.
  intros Ha Hb.
  pose proof (authorizeProfile_no_action tok ap (action_profile a) (action_token a) s s w
    (conj eq_refl (conj eq_refl (conj eq_refl eq_refl)))) as Hn.
  destruct a as [req|req|req]; cbn [run_action action_subject action_token] in *;
    unfold executeShellInner, executeFileReadInner, executeFileWriteInner; rewrite Hb; run;
    change (firstNonEmpty [_; "user"]) with (action_profile (AShell req)) ||
    change (firstNonEmpty [_; "user"]) with (action_profile (ARead req)) ||
    change (firstNonEmpty [_; "user"]) with (action_profile (AWrite req));
    destruct (authorizeProfile tok ap _ _ s w) as [[[[]|e'] s'] w']; try discriminate Ha;
    injection Ha as ->; exact (conj eq_refl Hn).
Qed.

(** ** Backoff *)

(** The documented schedule: 200 ms before the second attempt, doubling, capped
    at five seconds. *)
Definition backoff_schedule (attempt : Z) : Z :=
  Z.min (5 * Second) (200 * Millisecond * 2 ^ (attempt - 2)).

(** The backoff doubles from 200 milliseconds and is capped at five
    seconds, without overflow, for every attempt up to the 57th. *)
Theorem backoff_bounds attempt :
  2 <= attempt <= 57 →
  backoff attempt = backoff_schedule attempt ∧
  200 * Millisecond <= backoff attempt <= 5 * Second.
Proof.
  intros Ha. unfold backoff, backoff_schedule. rewrite Z.shiftl_1_l.
  replace (attempt - 1) with (Z.succ (attempt - 2)) by lia. rewrite Z.pow_succ_r by lia.
  assert (2 ^ 0 <= 2 ^ (attempt - 2) <= 2 ^ 55) as [Hlo Hhi] by (split; apply Z.pow_le_mono_r; lia).
  rewrite (wrap64_small (2 * _)) by (unfold int64_range; lia).
  rewrite (wrap64_small (100 * _)) by (unfold int64_range; lia).
  unfold Second, Millisecond in *.
  destruct (Z.ltb_spec 5000 (100 * (2 * 2 ^ (attempt - 2)))); rewrite wrap64_small by (unfold int64_range; lia); lia.
Qed.

Lemma backoff_bounds_witness : backoff 3 = 400 * Millisecond ∧ backoff 57 = 5 * Second.
Proof.
  split.
  - destruct (backoff_bounds 3) as [-> _]; [lia|]. reflexivity.
  - destruct (backoff_bounds 57) as [-> _]; [lia|]. reflexivity.
Defined.

(** From the 58th attempt on the product overflows and the sleep disappears
    for most attempts. *)
Lemma backoff_overflow : backoff 58 = 0 ∧ backoff 60 = 5 * Second ∧ backoff 62 = 0 ∧ backoff 1000 = 0.
Proof. vm_compute. done. Qed.

(** ** Attempts *)

(** What an action record keeps from its creation on. *)
Definition identity (r : ActionRecord) : string * string * string * string * gmap string string :=
  (ActionID r, Kind r, ExecutionProfile r, IdempotencyKey r, Metadata r).
(** The failure that is worth another attempt. *)
Definition retry_category (kind : string) : string :=
  if decide (kind = ActionKindShell) then ActionFailureTimeout else ActionFailureIO.
Definition retried (kind : string) (a : ActionAttempt) : Prop :=
  at_Status a = ActionStatusFailed ∧ at_FailureCategory a = retry_category kind ∧ at_Retryable a = true.
(** Attempts are numbered from [first] on. *)
Definition numbered (first : Z) (h : list ActionAttempt) : Prop :=
  ∀ i a, h !! i = Some a → at_Attempt a = first + Z.of_nat i.
(** The record after [h] failed attempts, before attempt [attempt]. *)
Definition before_attempt (kind : string) (first max attempt : Z) (r : ActionRecord) : Prop :=
  numbered first (AttemptHistory r) ∧ Forall (retried kind) (AttemptHistory r) ∧
  attempt = first + Z.of_nat (length (AttemptHistory r)) ∧ attempt <= max.
(** The record of a finished action: attempts [first], [first+1], ... up to at
    most [max], all but the last failed in a way that is retried, and the
    record agrees with the last one. *)
Definition well_tried (kind : string) (first max : Z) (r : ActionRecord) : Prop :=
  ∃ h a, AttemptHistory r = h ++ [a] ∧ numbered first (h ++ [a]) ∧ Forall (retried kind) h ∧
    Z.of_nat (length (h ++ [a])) <= max - first + 1 ∧ Attempt r = at_Attempt a ∧ Status r = at_Status a ∧
    ((Status r = ActionStatusCompleted ∧ Error r = "" ∧ FailureCategory r = "") ∨ Status r = ActionStatusFailed).
(** The record lies in the store, up to the start time, which [Move] takes
    from the record it replaces. *)
Definition stored (m : Dirs ActionRecord) (r : ActionRecord) : Prop :=
  ∃ t, m !! (Status r, fileName (ActionID r)) = Some (Doc (with_started r t)).

Lemma numbered_snoc first h a :
  numbered first h → at_Attempt a = first + Z.of_nat (length h) → numbered first (h ++ [a]).
Proof.
  intros Hn Ha i b [Hb|[Hi Hb]]%lookup_app_Some; [by apply Hn|].
  apply list_lookup_singleton_Some in Hb as [Hi' <-]. rewrite Ha. f_equal. f_equal. lia.
Qed.

Lemma with_status_same r st : Status r = st → with_status r st = r.
Proof. intros <-. by destruct r. Qed.
Lemma with_started_same r : with_started r (StartedAt r) = r.
Proof. by destruct r. Qed.

Lemma write_stored (r : ActionRecord) s w s' w' :
  write_record actions_dir r s w = (Ok tt, s', w') →
  actions s' !! (Status r, fileName (ActionID r)) = Some (Doc r).
Proof.
  destruct (write_record_run actions_dir r s w actions_dir_ok) as (res & s1 & w1 & -> & H).
  intros [= -> -> ->]. rewrite H. apply lookup_insert_eq.
Qed.

Lemma Move_stored r s w s' w' :
  Move r (Status r) s w = (Ok tt, s', w') → stored (actions s') r.
Proof.
  unfold Move. run. destruct (findLocked (ActionID r) s w) as [[[[existing path]|e] s1] w1].
  - destruct (Remove actions_dir path s1 w1) as [[[[]|e] s2] w2]; [|done].
    intros H%write_stored. exists (StartedAt existing). rewrite with_status_same in H by done. exact H.
  - intros H%write_stored. exists (StartedAt r). rewrite with_status_same in H by done.
    by rewrite with_started_same.
Qed.

Lemma finish_Ok r st s w r' s' w' :
  Status r = st → (_ ← Move r st; mret r) s w = (Ok r', s', w') → r' = r ∧ stored (actions s') r.
Proof.
  intros <-. run. destruct (Move r (Status r) s w) as [[[[]|e] s1] w1] eqn:E; [|done].
  intros [= <- <- <-]. split; [done|]. by eapply Move_stored.
Qed.

(** What both loops establish. *)
Definition loop_post (kind : string) (first max : Z) (r r' : ActionRecord) (s' : ExecState) : Prop :=
  well_tried kind first max r' ∧ identity r' = identity r ∧ stored (actions s') r'.

Lemma before_attempt_next kind first max r attempt h' a r' :
  before_attempt kind first max attempt r → AttemptHistory r' = AttemptHistory r ++ [a] →
  at_Attempt a = attempt → retried kind a → attempt < max →
  h' = AttemptHistory r' → before_attempt kind first max (attempt + 1) r'.
Proof.
  intros (Hn & Hr & Ha & Hm) Hh Hat Hret Hlt _. unfold before_attempt. rewrite Hh, length_app. split_and!.
  - apply numbered_snoc; [done|lia].
  - apply Forall_app. split; [done|]. by constructor.
  - cbn. lia.
  - lia.
Qed.
Lemma before_attempt_last kind first max r attempt a r' :
  before_attempt kind first max attempt r → AttemptHistory r' = AttemptHistory r ++ [a] →
  at_Attempt a = attempt → Attempt r' = attempt → Status r' = at_Status a →
  (Status r' = ActionStatusCompleted ∧ Error r' = "" ∧ FailureCategory r' = "") ∨ Status r' = ActionStatusFailed →
  well_tried kind first max r'.
Proof.
  intros (Hn & Hr & Ha & Hm) Hh Hat Hatt Hst Hs. exists (AttemptHistory r), a. rewrite length_app. cbn. split_and!; try done.
  - apply numbered_snoc; [done|lia].
  - lia.
  - by rewrite Hatt.
Qed.

Lemma shell_loop_post os fuel r first attempt max p args wd t s w r' s' w' :
  before_attempt ActionKindShell first max attempt r → (Z.to_nat (max - attempt + 1) <= fuel)%nat →
  shell_loop os fuel r attempt max p args wd t s w = (Ok r', s', w') →
  loop_post ActionKindShell first max r r' s'.
Proof.
  revert r attempt s w. induction fuel as [|fuel IH]; intros r attempt s w Hb Hf.
  { destruct Hb as (_ & _ & _ & ?). lia. }
  cbn [shell_loop]. unfold mbind at 1, M_bind at 1.
  destruct (runShellAttempt os p args wd t s w) as [[[res|e] s1] w1] eqn:Er; [|done].
  assert (res_category res = ActionFailureTimeout → res_retryable res = true) as Hcat.
  { revert Er. unfold runShellAttempt. run. intros [= <- _ _].
    destruct (so_err _) as [e|]; [|done]. destruct (sh_deadline e); [done|]. by destruct (sh_exit e). }
  destruct (res_err res) as [e|] eqn:Ee.
  - destruct (shouldRetry ActionKindShell (res_category res) attempt max) eqn:Es.
    + unfold shouldRetry in Es. destruct (Z.leb_spec max attempt); [done|].
      rewrite decide_True in Es by done. apply bool_decide_eq_true in Es.
      intros E. apply IH in E; [exact E| |lia].
      eapply (before_attempt_next _ _ _ r); [done|reflexivity|done| |lia|reflexivity].
      rewrite Ee. unfold retried. cbn. by auto.
    + intros [-> Hst]%finish_Ok; [|done]. split; [|done].
      eapply (before_attempt_last _ _ _ r _ _ _ Hb); [reflexivity|done|done|..].
      * cbn. by rewrite Ee.
      * by right.
  - intros [-> Hst]%finish_Ok; [|done]. split; [|done].
    eapply (before_attempt_last _ _ _ r _ _ _ Hb); [reflexivity|done|done|..].
    + cbn. by rewrite Ee.
    + left. done.
Qed.

Lemma last_alter {A} (f : A → A) (l : list A) x :
  alter f (length (l ++ [x]) - 1)%nat (l ++ [x]) = l ++ [f x].
Proof.
  rewrite length_app. cbn. replace (length l + 1 - 1)%nat with (length l + 0)%nat by lia.
  induction l as [|y l IH]; [done|]. cbn. f_equal. exact IH.
Qed.

Lemma file_loop_post kind op fuel r first attempt max s w r' s' w' :
  kind = ActionKindFileRead ∨ kind = ActionKindFileWrite →
  before_attempt kind first max attempt r → (Z.to_nat (max - attempt + 1) <= fuel)%nat →
  file_loop kind op fuel r attempt max s w = (Ok r', s', w') →
  loop_post kind first max r r' s'.
Proof.
  intros Hk. assert (retry_category kind = ActionFailureIO) as Hcat by (by destruct Hk as [->| ->]).
  revert r attempt s w. induction fuel as [|fuel IH]; intros r attempt s w Hb Hf.
  { destruct Hb as (_ & _ & _ & ?). lia. }
  cbn [file_loop]. unfold mbind at 1, M_bind at 1.
  destruct ((if 1 <? attempt then performBackoff attempt else mret ()) s w) as [[[[]|e] s1] w1]; [|done].
  unfold mbind at 1, M_bind at 1. destruct (op s1 w1) as [[[res|e] s2] w2]; [|done].
  unfold mbind at 1, M_bind at 1. cbn [now]. set (t := clock w2 (tick w2)).
  destruct res as [out|err].
  - intros [-> Hst]%finish_Ok; [|done]. split; [|done].
    eapply (before_attempt_last _ _ _ r _ _ _ Hb); [reflexivity|done|done|done|by left].
  - destruct (negb (isRetryableIOError err) || _) eqn:Ec.
    + intros [-> Hst]%finish_Ok; [|done]. split; [|done].
      eapply (before_attempt_last _ _ _ r _ _ _ Hb); [cbn; rewrite last_alter; reflexivity|done|done|done|by right].
    + apply orb_false_iff in Ec as [Er%negb_false_iff Es%negb_false_iff].
      unfold shouldRetry in Es. destruct (Z.leb_spec max attempt); [done|].
      intros E. apply IH in E; [exact E| |lia].
      eapply (before_attempt_next _ _ _ r); [done|reflexivity|done| |lia|reflexivity].
      unfold retried. rewrite Hcat. cbn. auto.
Qed.

(** ** From the request to the record *)

Lemma normalizeAttempt_pos explicit metadata : 1 <= normalizeAttempt explicit metadata.
Proof.
  unfold normalizeAttempt. destruct (Z.ltb_spec 0 explicit); [lia|]. cbv zeta.
  case_decide; [lia|]. destruct (Sscanf_d _) as [n|]; [|lia]. destruct (Z.ltb_spec 0 n); lia.
Qed.
Lemma normalizeMaxAttempts_le explicit attempt : attempt <= normalizeMaxAttempts explicit attempt.
Proof.
  unfold normalizeMaxAttempts. destruct (Z.ltb_spec 0 explicit).
  - destruct (Z.ltb_spec explicit attempt); lia.
  - destruct (Z.leb_spec attempt 0); lia.
Qed.

Section plans.
Context `{UnicodeTables} (os : Os) (env : Env) (root tok : string) (ap : bool).

(** The fingerprint of an action whose command and paths resolve. *)
Definition action_fingerprint (a : Action) : result string :=
  match a with
  | AShell req =>
      commandPath ← resolveCommand os env root (sr_Command req);
      workdir ← resolveWorkdir env root (sr_Workdir req);
      mret (executionFingerprint [ActionKindShell; action_profile a; commandPath; workdir;
              Itoa (sr_TimeoutMS req); Join (sr_Args req) nul])
  | ARead req =>
      path ← resolveAllowedPath env root (fr_Path req);
      mret (executionFingerprint [ActionKindFileRead; action_profile a; path])
  | AWrite req =>
      path ← resolveAllowedPath env root (fw_Path req);
      mret (executionFingerprint [ActionKindFileWrite; action_profile a; path; fw_Content req;
              if fw_CreateParents req then "true" else "false"])
  end.

(** The record an action starts with. *)
Definition initial (a : Action) (fp : string) (r : ActionRecord) : Prop :=
  Kind r = action_kind a ∧ ExecutionProfile r = action_profile a ∧ IdempotencyKey r = action_key a ∧
  Metadata r = <["request_fingerprint" := fp]> (action_metadata a) ∧
  Attempt r = action_first a ∧ AttemptHistory r = [].

Lemma initial_before a fp r : initial a fp r → before_attempt (action_kind a) (action_first a) (action_max a) (Attempt r) r.
Proof.
  intros (_ & _ & _ & _ & Ha & Hh). unfold before_attempt. rewrite Hh, Ha. split_and!.
  - by intros i x.
  - constructor.
  - cbn. lia.
  - apply normalizeMaxAttempts_le.
Qed.

Lemma run_action_cases a s w :
  blank (action_subject a) = false →
  match authorizeProfile tok ap (action_profile a) (action_token a) s w with
  | (Err e, s1, w1) => run_action os env root tok ap a s w = (Err e, s1, w1)
  | (Ok _, s1, w1) =>
      match action_fingerprint a with
      | Err e => run_action os env root tok ap a s w = (Err e, s1, w1)
      | Ok fp =>
          ∃ record rest w2, initial a fp record ∧
            run_action os env root tok ap a s w =
              (replay ← tryReplay record fp;
               match replay with Some x => mret x | None => rest end) s1 w2 ∧
            ∀ s2 w3 r s' w', rest s2 w3 = (Ok r, s', w') →
              loop_post (action_kind a) (action_first a) (action_max a) record r s'
      end
  end.
Proof.
  intros Hb. destruct a as [req|req|req]; cbn [run_action action_subject action_token action_fingerprint] in *.
  - unfold executeShellInner. rewrite Hb. cbv zeta. rewrite bind_eq.
    change (firstNonEmpty [_; "user"]) with (action_profile (AShell req)).
    destruct (authorizeProfile _ _ _ _ s w) as [[[[]|e] s1] w1]; [|exact eq_refl].
    destruct (resolveCommand _ _ _ _) as [commandPath|e]; [|exact eq_refl].
    destruct (resolveWorkdir _ _ _) as [workdir|e]; [|exact eq_refl].
    eexists (newRecord _ _ _ _ _ _ _ _ _ _ _ _ _), (_ ← Save _; shell_loop _ _ _ _ _ _ _ _ _), _.
    split; [|split; [reflexivity|]]; [split_and!; reflexivity|].
    intros s2 w3 r s' w'. rewrite bind_eq. destruct (Save _ s2 w3) as [[[[]|e] s3] w4]; [|done].
    apply shell_loop_post; [by eapply (initial_before (AShell req))|done].
  - unfold executeFileReadInner. rewrite Hb. cbv zeta. rewrite bind_eq.
    change (firstNonEmpty [_; "user"]) with (action_profile (ARead req)).
    destruct (authorizeProfile _ _ _ _ s w) as [[[[]|e] s1] w1]; [|exact eq_refl].
    destruct (resolveAllowedPath _ _ _) as [path|e]; [|exact eq_refl].
    eexists (newRecord _ _ _ _ _ _ _ _ _ _ _ _ _), (_ ← Save _; file_loop _ _ _ _ _ _), _.
    split; [|split; [reflexivity|]]; [split_and!; reflexivity|].
    intros s2 w3 r s' w'. rewrite bind_eq. destruct (Save _ s2 w3) as [[[[]|e] s3] w4]; [|done].
    apply file_loop_post; [by left|by eapply (initial_before (ARead req))|done].
  - unfold executeFileWriteInner. rewrite Hb. cbv zeta. rewrite bind_eq.
    change (firstNonEmpty [_; "user"]) with (action_profile (AWrite req)).
    destruct (authorizeProfile _ _ _ _ s w) as [[[[]|e] s1] w1]; [|exact eq_refl].
    destruct (resolveAllowedPath _ _ _) as [path|e]; [|exact eq_refl].
    eexists (newRecord _ _ _ _ _ _ _ _ _ _ _ _ _), (_ ← Save _; file_loop _ _ _ _ _ _), _.
    split; [|split; [reflexivity|]]; [split_and!; reflexivity|].
    intros s2 w3 r s' w'. rewrite bind_eq. destruct (Save _ s2 w3) as [[[[]|e] s3] w4]; [|done].
    apply file_loop_post; [by right|by eapply (initial_before (AWrite req))|done].
Qed.

(** ** Replay *)

(** [existing] is a completed record of the store that answers a request of
    this kind, profile, key and fingerprint. *)
Definition answers (m : Dirs ActionRecord) (kind profile key fp : string) (existing : ActionRecord) : Prop :=
  ∃ n, m !! (ActionStatusCompleted, n) = Some (Doc existing) ∧ HasSuffix n ".json" = true ∧
    replayable kind profile (TrimSpace key) fp existing = true.

Lemma Find_answers kind profile key fp s w x s' w' :
  FindCompletedByIdempotency kind profile key fp s w = (Ok x, s', w') →
  s' = s ∧ answers (actions s) kind profile key fp x.
Proof.
  unfold FindCompletedByIdempotency. run. case_decide; [done|].
  destruct (read_entries _) as [all|e] eqn:Er; [|done].
  destruct (merge_sort _ _) as [|y rest] eqn:Em; [done|]. intros [= -> <- _]. split; [done|].
  assert (x ∈ merge_sort newest (filter (λ r, replayable kind profile (TrimSpace key) fp r = true) all)) as Hx
    by (rewrite Em; left).
  rewrite merge_sort_Permutation in Hx. apply list_elem_of_filter in Hx as [Hr Hx].
  apply (read_entries_elem _ _ _ Er) in Hx as [n Hn%dir_entries_elem]. exists n. tauto.
Qed.

Lemma Find_complete kind profile key fp s w x e s' w' :
  answers (actions s) kind profile key fp x → TrimSpace key ≠ "" →
  FindCompletedByIdempotency kind profile key fp s w = (Err e, s', w') → s' = s ∧ e = EJson.
Proof.
  intros (n & Hl & Hsuf & Hr) Hk. unfold FindCompletedByIdempotency. run. rewrite decide_False by done.
  destruct (read_entries _) as [all|e'] eqn:Er.
  - destruct (merge_sort _ _) as [|y rest] eqn:Em; [|done].
    assert (x ∈ all) as Hx.
    { apply (read_entries_elem _ _ _ Er). exists n. by apply dir_entries_elem. }
    assert (x ∈ merge_sort newest (filter (λ r, replayable kind profile (TrimSpace key) fp r = true) all)) as Hin.
    { rewrite merge_sort_Permutation. by apply list_elem_of_filter. }
    rewrite Em in Hin. by apply elem_of_nil in Hin.
  - intros [= <- <- _]. split; [done|]. revert Er. generalize (dir_entries ActionStatusCompleted (actions s)).
    induction l as [|[k [r|]] l IH]; cbn; [done| |by intros [= <-]].
    destruct (read_entries l); [done|]. intros [= ->]. by apply IH.
Qed.

(** What a replay returns. *)
Definition replays (existing r : ActionRecord) : Prop :=
  Replayed r = true ∧ Status r = ActionStatusCompleted ∧ ReplayOfActionID r = ActionID existing ∧
  Stdout r = Stdout existing ∧ Stderr r = Stderr existing ∧ ExitCode r = ExitCode existing.

Lemma tryReplay_Some r fp s w x s' w' :
  tryReplay r fp s w = (Ok (Some x), s', w') →
  identity x = identity r ∧ stored (actions s') x ∧
  ∃ existing, answers (actions s) (Kind r) (ExecutionProfile r) (IdempotencyKey r) fp existing ∧ replays existing x.
Proof.
  unfold tryReplay. destruct (blank _); [done|]. rewrite bind_eq. unfold try at 1.
  destruct (FindCompletedByIdempotency _ _ _ _ s w) as [[[existing|e] s1] w1] eqn:Ef;
    [|by destruct e].
  apply Find_answers in Ef as [-> Ha]. run.
  destruct (Save _ _ _) as [[[[]|e] s2] w2] eqn:Es; [|done]. intros [= <- <- _].
  split; [done|]. split.
  - exists (StartedAt (replayed_record r existing (clock w1 (tick w1)) (clock (advance w1) (tick (advance w1))))).
    rewrite with_started_same. by apply write_stored in Es.
  - exists existing. split; [exact Ha|]. split_and!; reflexivity.
Qed.

Lemma tryReplay_None r fp s w x s' w' :
  answers (actions s) (Kind r) (ExecutionProfile r) (IdempotencyKey r) fp x → blank (IdempotencyKey r) = false →
  tryReplay r fp s w ≠ (Ok None, s', w').
Proof.
  intros Ha Hb. unfold tryReplay. rewrite Hb, bind_eq. unfold try at 1.
  destruct (FindCompletedByIdempotency _ _ _ _ s w) as [[[existing|e] s1] w1] eqn:Ef.
  - run. destruct (Save _ _ _) as [[[[]|e] s2] w2]; intros [=].
  - eapply Find_complete in Ef as [-> ->]; [|done|]; [intros [=]|].
    unfold blank in Hb. by apply bool_decide_eq_false in Hb.
Qed.

(** *** What an action leaves *)

Lemma fingerprint_plain a fp : action_fingerprint a = Ok fp → TrimSpace fp = fp.
Proof.
  intros E. apply TrimSpace_plain. revert E. destruct a; cbn [action_fingerprint]; intros E.
  1: apply result_bind_Ok in E as (? & _ & E).
  all: apply result_bind_Ok in E as (? & _ & [= <-]); apply HexEncode_plain.
Qed.
Lemma action_key_trimmed a : TrimSpace (action_key a) = action_key a.
Proof. apply firstNonEmpty_trimmed. Qed.

(** A record of this action that is stored as completed answers the next
    request of the action. *)
Lemma stored_answers a fp record x m :
  initial a fp record → identity x = identity record → TrimSpace fp = fp →
  stored m x → Status x = ActionStatusCompleted →
  ∃ y, answers m (action_kind a) (action_profile a) (action_key a) fp y.
Proof.
  intros (Hk & Hp & Hi & Hm & _) Hid Hfp [t Hst] Hs. injection Hid as _ Ek Ep Ei Em.
  exists (with_started x t), (fileName (ActionID x)). rewrite Hs in Hst.
  split_and!; [exact Hst|apply HasSuffix_app|]. unfold replayable.
  cbn [Kind ExecutionProfile IdempotencyKey Metadata with_started].
  rewrite Ek, Ep, Ei, Em, Hk, Hp, Hi, Hm, lookup_insert_eq. cbn [default from_option id].
  rewrite Hfp, !bool_decide_true by done.
  by rewrite (bool_decide_true (fp = fp)), orb_true_r.
Qed.

Lemma run_action_Ok a s w r s' w' :
  run_action os env root tok ap a s w = (Ok r, s', w') →
  stored (actions s') r ∧ Kind r = action_kind a ∧ IdempotencyKey r = action_key a ∧
  ((∃ existing, replays existing r) ∨ well_tried (action_kind a) (action_first a) (action_max a) r) ∧
  ∃ fp, action_fingerprint a = Ok fp ∧
    (Status r = ActionStatusCompleted →
     ∃ y, answers (actions s') (action_kind a) (action_profile a) (action_key a) fp y).
Proof.
  destruct (blank (action_subject a)) eqn:Hb.
  { destruct a; cbn [run_action action_subject] in *;
      unfold executeShellInner, executeFileReadInner, executeFileWriteInner; by rewrite Hb. }
  pose proof (run_action_cases a s w Hb) as Hc.
  destruct (authorizeProfile _ _ _ _ s w) as [[[[]|e] s1] w1]; [|by rewrite Hc].
  destruct (action_fingerprint a) as [fp|e] eqn:Efp; [|by rewrite Hc].
  destruct Hc as (record & rest & w2 & Hini & -> & Hrest). rewrite bind_eq.
  assert (∀ x m, identity x = identity record → stored m x →
    Kind x = action_kind a ∧ IdempotencyKey x = action_key a ∧
    ∃ fp0, Ok fp = Ok fp0 ∧ (Status x = ActionStatusCompleted →
     ∃ y, answers m (action_kind a) (action_profile a) (action_key a) fp0 y)) as Hfin.
  { intros x m Hid Hst. pose proof Hini as (Hk & _ & Hi & _). pose proof Hid as Hid'.
    injection Hid' as _ -> _ -> _. split; [done|]. split; [done|]. exists fp. split; [done|].
    intros Hs. eapply stored_answers; eauto using fingerprint_plain. }
  destruct (tryReplay record fp s1 w2) as [[[[x|]|e] s2] w3] eqn:Et; [| |done].
  - intros [= <- <- _]. apply tryReplay_Some in Et as (Hid & Hst & existing & _ & Hre).
    destruct (Hfin x (actions s2) Hid Hst) as (Hk & Hi & Hf). split_and!; [done..|left; eauto|exact Hf].
  - intros E. apply Hrest in E as (Hw & Hid & Hst).
    destruct (Hfin r (actions s') Hid Hst) as (Hk & Hi & Hf). split_and!; [done..|by right|exact Hf].
Qed.
End plans.

(** C7. Bounded retries: an action that returns a record stored it, and unless
    it replayed an earlier one it made attempts numbered from the request's
    first attempt without gaps, at least one and at most [max - first + 1];
    every attempt but the last failed with the failure that kind of action
    retries, and the record's status, number and error are the last one's. *)
Theorem attempts_bounded `{UnicodeTables} os env root tok ap a s w r s' w' :
  run_action os env root tok ap a s w = (Ok r, s', w') →
  stored (actions s') r ∧
  ((∃ existing, replays existing r) ∨
   1 <= action_first a <= action_max a ∧ well_tried (action_kind a) (action_first a) (action_max a) r).
Proof.
  intros E. apply run_action_Ok in E as (Hst & _ & _ & Hor & _). split; [done|].
  destruct Hor as [?|?]; [by left|]. right. split; [|done]. split; [apply normalizeAttempt_pos|apply normalizeMaxAttempts_le].
Qed.

(** C2. An idempotency key makes an action run at most once: after a run with
    a key that completed, running the action again, in any later state that
    still has the completed records and whatever fails, starts no command,
    writes no file and does not sleep; a record it returns is a replay of a
    completed record of this kind, profile, key and fingerprint, with its
    output. *)
Theorem runs_at_most_once `{UnicodeTables} os env root tok ap a s w r s1 w1 s2 w2 :
  action_key a ≠ "" →
  run_action os env root tok ap a s w = (Ok r, s1, w1) → Status r = ActionStatusCompleted →
  (∀ n b, actions s1 !! (ActionStatusCompleted, n) = Some b → actions s2 !! (ActionStatusCompleted, n) = Some b) →
  let '(res, s3, _) := run_action os env root tok ap a s2 w2 in
  quiet s2 s3 ∧
  ∀ r2, res = Ok r2 → ∃ fp existing, action_fingerprint os env root a = Ok fp ∧
    answers (actions s2) (action_kind a) (action_profile a) (action_key a) fp existing ∧ replays existing r2.
Proof.
  intros Hkey E Hs Hkept. apply run_action_Ok in E as (_ & _ & _ & _ & fp & Hfp & Ha).
  destruct (Ha Hs) as (y & n & Hl & Hsuf & Hr). apply Hkept in Hl.
  assert (answers (actions s2) (action_kind a) (action_profile a) (action_key a) fp y) as Hy by (by exists n).
  destruct (blank (action_subject a)) eqn:Hb.
  { destruct a; cbn [run_action action_subject] in *;
      unfold executeShellInner, executeFileReadInner, executeFileWriteInner; by rewrite Hb. }
  pose proof (run_action_cases os env root tok ap a s2 w2 Hb) as Hc.
  pose proof (authorizeProfile_no_action tok ap (action_profile a) (action_token a) s2 s2 w2
    (conj eq_refl (conj eq_refl (conj eq_refl eq_refl)))) as Hn.
  destruct (authorizeProfile _ _ _ _ s2 w2) as [[[[]|e] s3] w3]; [|rewrite Hc; by destruct Hn].
  rewrite Hfp in Hc. destruct Hc as (record & rest & w4 & (Hk & Hp & Hi & Hm & _) & -> & _).
  destruct Hn as [Hact Hq]. rewrite bind_eq. rewrite <- Hact in Hy |- *.
  pose proof (tryReplay_quiet record fp s2 s3 w4 Hq) as Hq'. rewrite <- Hk, <- Hp, <- Hi in Hy |- *.
  destruct (tryReplay record fp s3 w4) as [[[[x|]|e] s4] w5] eqn:Et.
  - split; [exact Hq'|]. intros r2 [= <-]. apply tryReplay_Some in Et as (_ & _ & existing & Hex & Hre).
    exists fp, existing. done.
  - exfalso. eapply tryReplay_None; [exact Hy| |exact Et]. rewrite Hi. unfold blank.
    rewrite action_key_trimmed. by apply bool_decide_eq_false.
  - by split.
Qed.

(** Running out of fuel is leaving the Go loop by its condition: once the fuel
    covers the remaining attempts, more of it changes nothing. *)
Lemma shell_loop_fuel os fuel fuel' r attempt max p args wd t s w :
  (Z.to_nat (max - attempt + 1) <= fuel)%nat → (Z.to_nat (max - attempt + 1) <= fuel')%nat → attempt <= max →
  shell_loop os fuel r attempt max p args wd t s w = shell_loop os fuel' r attempt max p args wd t s w.
Proof.
  revert fuel' r attempt s w. induction fuel as [|fuel IH]; intros [|fuel'] r attempt s w Hf Hf' Hm; [lia..|].
  cbn [shell_loop]. rewrite !bind_eq. destruct (runShellAttempt _ _ _ _ _ s w) as [[[res|e] s1] w1]; [|done].
  destruct (res_err res); [|done]. destruct (shouldRetry _ _ _ _) eqn:Es; [|done].
  unfold shouldRetry in Es. destruct (Z.leb_spec max attempt); [done|]. apply IH; lia.
Qed.
Lemma file_loop_fuel kind op fuel fuel' r attempt max s w :
  (Z.to_nat (max - attempt + 1) <= fuel)%nat → (Z.to_nat (max - attempt + 1) <= fuel')%nat → attempt <= max →
  file_loop kind op fuel r attempt max s w = file_loop kind op fuel' r attempt max s w.
Proof.
  revert fuel' r attempt s w. induction fuel as [|fuel IH]; intros [|fuel'] r attempt s w Hf Hf' Hm; [lia..|].
  cbn [file_loop]. rewrite !bind_eq.
  destruct ((if 1 <? attempt then performBackoff attempt else mret ()) s w) as [[[[]|e] s1] w1]; [|done].
  rewrite !bind_eq. destruct (op s1 w1) as [[[res|e] s2] w2]; [|done]. rewrite !bind_eq. cbn [now].
  destruct res as [out|err]; [done|]. destruct (negb (isRetryableIOError err) || _) eqn:Es; [done|].
  apply orb_false_iff in Es as [_ Es%negb_false_iff].
  unfold shouldRetry in Es. destruct (Z.leb_spec max attempt); [done|]. apply IH; lia.
Qed.

(** ** A concrete history *)

#[local] Existing Instance caseless_tables.

(** The first write fails for a moment. *)
Definition flaky_os : Os :=
  mkOs (λ _ _ _ _ _, mkShellOutcome "" "" None)
    (λ n, if decide (n = 3)%nat then Some (mkIOErr "resource temporarily unavailable" false false true) else None)
    (λ c, Some ("/bin/" +:+ c)) (λ _, Some true).
Definition ws_env : Env :=
  mkEnv (λ _, "") (Some "/home/u") "/tmp" "/ws"
    (λ p, if decide (p ∈ ["/"; "/ws"; "/tmp"; "/home"; "/home/u"]) then Some p else None).
Definition empty_state : ExecState := mkExecState ∅ (Approval.NewStore 0) ∅ [] [].
Definition report_write : FileWriteActionRequest :=
  mkWriteRequest "task-1" "report.txt" "hello" false 0 3 "key-1" "" "" ∅.
Definition report_run (s : ExecState) (w : World) :=
  run_action flaky_os ws_env "/ws" "" true (AWrite report_write) s w.

Lemma writes_confined_witness :
  ∃ p, p = "/ws/report.txt" ∧ resolveAllowedPath ws_env "/ws" "report.txt" = Ok p ∧
    ∃ r, r ∈ ["/ws"; ""; "/tmp"] ∧ PathUnderRoot ws_env p r = true.
Proof.
  exists "/ws/report.txt". split; [reflexivity|].
  destruct (writes_confined flaky_os ws_env "/ws" "" true (AWrite report_write) empty_state world0 "/ws/report.txt")
    as (req & Ha & H); [intros H; vm_compute in H; discriminate H|].
  injection Ha as <-. destruct H as [Hp Hr]. split; [exact Hp|]. exact (Hr eq_refl).
Defined.

Lemma denied_no_effect_witness :
  let read := ARead (mkReadRequest "t" "report.txt" 0 0 "" "root" "guess" ∅) in
  let run := run_action flaky_os ws_env "/ws" "secret" true read empty_state world0 in
  run.1.1 = Err ErrExecutionDenied ∧ no_action empty_state run.1.2.
Proof.
  cbv zeta. apply denied_no_effect; vm_compute; reflexivity.
Defined.

Lemma authorizeProfile_sound_witness :
  ∃ s' w', authorizeProfile "secret" false "root" " secret " empty_state world0 = (Ok tt, s', w') ∧
    "secret" ≠ "" ∧ TrimSpace " secret " = "secret".
Proof.
  assert (authorizeProfile "secret" false "root" " secret " empty_state world0 = (Ok tt, empty_state, world0)) as E
    by exact eq_refl.
  exists empty_state, world0. split; [exact E|].
  destruct (authorizeProfile_sound _ _ _ _ _ _ _ _ E)
    as [[Hu _]|(_ & _ & _ & [[Hap _]|H])]; [discriminate Hu|discriminate Hap|exact H].
Defined.

Lemma attempts_bounded_witness :
  ∃ r s' w', report_run empty_state world0 = (Ok r, s', w') ∧ length (AttemptHistory r) = 2%nat ∧
    stored (actions s') r.
Proof.
  destruct (report_run empty_state world0) as [[[r|e] s'] w'] eqn:E;
    [|apply (f_equal (λ x, is_ok x.1.1)) in E; vm_compute in E; discriminate E].
  exists r, s', w'. split; [reflexivity|]. split.
  - apply (f_equal (λ x, match x.1.1 with Ok r => length (AttemptHistory r) | Err _ => 0%nat end)) in E.
    vm_compute in E. symmetry. exact E.
  - destruct (attempts_bounded _ _ _ _ _ _ _ _ _ _ _ E) as [H _]. exact H.
Defined.

Lemma runs_at_most_once_witness :
  let s1 := exec report_run empty_state world0 in
  let '(res, s3, _) := report_run s1 (advance world0) in
  quiet s1 s3 ∧ is_ok res = true.
Proof.
  cbv zeta. unfold exec.
  destruct (report_run empty_state world0) as [[[r|e] s1] w1] eqn:E;
    [|apply (f_equal (λ x, is_ok x.1.1)) in E; vm_compute in E; discriminate E].
  assert (Status r = ActionStatusCompleted) as Hs.
  { apply (f_equal (λ x, match x.1.1 with Ok r => Status r | Err _ => "" end)) in E.
    vm_compute in E. symmetry. exact E. }
  pose proof (runs_at_most_once flaky_os ws_env "/ws" "" true (AWrite report_write) empty_state world0 r s1 w1
    s1 (advance world0) ltac:(vm_compute; discriminate) E Hs ltac:(auto)) as H.
  assert (is_ok (report_run (exec report_run empty_state world0) (advance world0)).1.1 = true) as Hok
    by (vm_compute; reflexivity).
  unfold exec in Hok. rewrite E in Hok. unfold report_run in *.
  destruct (run_action _ _ _ _ _ _ s1 (advance world0)) as [[res s3] w3]. destruct H as [Hq _].
  exact (conj Hq Hok).
Defined.
