(* ===== verification/Runtime.v ===== *)
(** * The task runtime ([internal/airuntime])

    Tasks kept in one directory per state, the runtime state file naming the
    active task, and the orchestrator that plans, activates, requeues, denies
    and recovers them. *)
From S2P Require Import Prelude GoStrings GoNum GoTime StatusDirs.
Open Scope Z_scope.

(** ** Data *)

Definition TaskStateInbox : string := "inbox".
Definition TaskStatePlanned : string := "planned".
Definition TaskStateActive : string := "active".
Definition TaskStateBlocked : string := "blocked".
Definition TaskStateAwaitingApproval : string := "awaiting_approval".
Definition TaskStateDone : string := "done".
Definition TaskStateFailed : string := "failed".
Definition TaskStateArchived : string := "archived".

Record RuntimeState := mkRuntimeState {
  RuntimeID : string; ActiveUserID : string; SessionID : option string;
  rs_Status : string; ActiveTaskID : option string; rs_ExecutionProfile : string;
  rs_UpdatedAt : Time }.

(** [Metadata = None] is the nil map, which a write to panics on. *)
Record Task := mkTask {
  TaskID : string; Title : string; Goal : string; State : string;
  CreatedAt : Time; UpdatedAt : Time; RequestedBy : string; Source : string;
  ExecutionProfile : string; RequiresApproval : bool; SelectedSkill : string;
  NextAction : string; FailureReason : string;
  Metadata : option (gmap string string) }.

Record CreateTaskRequest := mkCreateTaskRequest {
  ct_Title : string; ct_Goal : string; ct_RequestedBy : string; ct_Source : string;
  ct_ExecutionProfile : string; ct_RequiresApproval : bool; ct_SelectedSkill : string;
  ct_Metadata : option (gmap string string) }.

Definition task_json_ok (t : Task) : bool :=
  json_time_ok (CreatedAt t) && json_time_ok (UpdatedAt t).
(** [json:",omitempty"] drops an empty map: it reads back as nil. *)
Definition omit_empty_map (m : option (gmap string string)) : option (gmap string string) :=
  match m with Some m => if decide (m = ∅) then None else Some m | None => None end.
Definition task_norm (t : Task) : Task :=
  mkTask (TaskID t) (Title t) (Goal t) (State t) (CreatedAt t) (UpdatedAt t) (RequestedBy t)
    (Source t) (ExecutionProfile t) (RequiresApproval t) (SelectedSkill t) (NextAction t)
    (FailureReason t) (omit_empty_map (Metadata t)).

#[export] Instance task_dir : DirRecord Task :=
  {| rec_id := TaskID; rec_status := State; rec_json_ok := task_json_ok; rec_norm := task_norm;
     rec_norm_id r := eq_refl; rec_norm_status r := eq_refl |}.

(** [rootDir/tasks] and [rootDir/state/runtime.json]. *)
Record Store := mkStore { task_files : Dirs Task; state_file : gmap unit (File RuntimeState) }.
Definition tasks_dir : Lens Store (Dirs Task) :=
  mkLens task_files (λ f s, mkStore (f (task_files s)) (state_file s)).
Definition state_dir : Lens Store (gmap unit (File RuntimeState)) :=
  mkLens state_file (λ f s, mkStore (task_files s) (f (state_file s))).
Lemma tasks_dir_ok : lens_ok tasks_dir.
Proof. done. Qed.

(** ** The store *)

Definition LoadState : M Store RuntimeState := ReadJSON state_dir tt.

Definition SaveState (state : RuntimeState) : M Store unit :=
  t ← now;
  if negb (json_time_ok t) then throw EJson else
  WriteFile state_dir tt (mkRuntimeState (RuntimeID state) (ActiveUserID state) (SessionID state)
    (rs_Status state) (ActiveTaskID state) (rs_ExecutionProfile state) t).

Definition find_states : list string :=
  [TaskStateInbox; TaskStatePlanned; TaskStateActive; TaskStateBlocked;
   TaskStateAwaitingApproval; TaskStateDone; TaskStateFailed; TaskStateArchived].
Definition list_states : list string :=
  [TaskStateInbox; TaskStatePlanned; TaskStateActive; TaskStateBlocked;
   TaskStateAwaitingApproval; TaskStateDone; TaskStateFailed].

Definition findTaskLocked (taskID : string) : M Store (Task * (string * string)) :=
  s ← get; lift_result (find_record ErrTaskNotFound find_states taskID (task_files s)).
Definition writeTaskLocked : Task → M Store unit := write_record tasks_dir.

Definition newTask (req : CreateTaskRequest) (t : Time) : Task :=
  mkTask ("task-" +:+ Itoa t) (TrimSpace (ct_Title req)) (TrimSpace (ct_Goal req)) TaskStateInbox
    t t (TrimSpace (ct_RequestedBy req)) (TrimSpace (ct_Source req))
    (firstNonEmpty [ct_ExecutionProfile req; "user"]) (ct_RequiresApproval req)
    (TrimSpace (ct_SelectedSkill req)) "" ""
    (match ct_Metadata req with None => Some ∅ | m => m end).

Definition CreateTask (req : CreateTaskRequest) : M Store Task :=
  if blank (ct_Title req) || blank (ct_Goal req) then throw ErrRuntimeInvalidInput else
  t ← now;
  let task := newTask req t in
  _ ← writeTaskLocked task;
  mret task.

Definition GetTask (taskID : string) : M Store Task := x ← findTaskLocked taskID; mret x.1.

(** Newest first; [sort.Slice] leaves the order of equal times open. *)
Definition newest (a b : Task) : Prop := CreatedAt b <= CreatedAt a.
#[export] Instance newest_dec : RelDecision newest.
Proof. intros a b. unfold newest. apply _. Defined.

Definition ListTasks : M Store (list Task) :=
  s ← get;
  tasks ← lift_result (read_dirs list_states (task_files s));
  mret (merge_sort newest tasks).

(** [task.State = nextState; task.UpdatedAt = now] *)
Definition stamped (task : Task) (nextState : string) (t : Time) : Task :=
  mkTask (TaskID task) (Title task) (Goal task) nextState (CreatedAt task) t (RequestedBy task)
    (Source task) (ExecutionProfile task) (RequiresApproval task) (SelectedSkill task)
    (NextAction task) (FailureReason task) (Metadata task).

(** [mutate] may read the clock and may panic. *)
Definition MoveTask (taskID nextState : string) (mutate : Task → M Store Task) : M Store Task :=
  '(task, path) ← findTaskLocked taskID;
  task ← mutate task;
  t ← now;
  let task := stamped task nextState t in
  _ ← move_record tasks_dir path task;
  mret task.

(** ** The orchestrator *)

(** A task with other routing fields. *)
Definition with_fields (t : Task) (skill nextAction failure : string) (approval : bool)
    (metadata : option (gmap string string)) : Task :=
  mkTask (TaskID t) (Title t) (Goal t) (State t) (CreatedAt t) (UpdatedAt t) (RequestedBy t)
    (Source t) (ExecutionProfile t) approval skill nextAction failure metadata.

(** [t.Metadata[key] = value] *)
Definition set_metadata (key value : string) (t : Task) : M Store Task :=
  match Metadata t with
  | None => throw EPanic
  | Some m => mret (with_fields t (SelectedSkill t) (NextAction t) (FailureReason t)
                      (RequiresApproval t) (Some (<[key := value]> m)))
  end.
Definition set_next_action (nextAction : string) (t : Task) : Task :=
  with_fields t (SelectedSkill t) nextAction (FailureReason t) (RequiresApproval t) (Metadata t).
(** [if t.Metadata == nil { t.Metadata = map[string]string{} }] *)
Definition make_metadata (t : Task) : Task :=
  with_fields t (SelectedSkill t) (NextAction t) (FailureReason t) (RequiresApproval t)
    (Some (default ∅ (Metadata t))).
(** The idle runtime state. *)
Definition idle (state : RuntimeState) : RuntimeState :=
  mkRuntimeState (RuntimeID state) (ActiveUserID state) (SessionID state) "idle" None
    (rs_ExecutionProfile state) (rs_UpdatedAt state).

Definition Recover : M Store unit :=
  state ← LoadState;
  match ActiveTaskID state with
  | None =>
      if decide (rs_Status state = "idle") then mret tt
      else SaveState (mkRuntimeState (RuntimeID state) (ActiveUserID state) (SessionID state)
             "idle" None (rs_ExecutionProfile state) (rs_UpdatedAt state))
  | Some taskID =>
      res ← try (GetTask taskID);
      match res with
      | Err ErrTaskNotFound => SaveState (idle state)
      | Err e => throw e
      | Ok task =>
          _ ← (if decide (State task = TaskStateActive) then
                 _ ← MoveTask taskID TaskStatePlanned (λ t,
                   t ← set_metadata "recovered_from_active" "true" (make_metadata t);
                   at_ ← now;
                   t ← set_metadata "recovered_at" (RFC3339 at_) t;
                   mret (set_next_action "recovered for re-execution" t));
                 mret tt
               else mret tt);
          SaveState (idle state)
      end
  end.

Section skills.
Context {tables : UnicodeTables}.

Definition containsWord (text word : string) : bool := Contains (ToLower text) (ToLower word).
Definition containsAny (text : string) (values : list string) : bool :=
  existsb (containsWord text) values.

Definition referencesFileObject (text : string) : bool :=
  containsWord text "file" || containsWord text "document" || containsWord text "doc"
  || containsWord text "readme" || containsWord text "note"
  || Contains text "文件" || Contains text "文档" || Contains text "笔记".

Definition looksLikeCreateDirectoryRequest (goal : string) : bool :=
  let goal := TrimSpace goal in
  if Contains goal "文件" then false else
  if negb (Contains goal "目录") && negb (Contains goal "文件夹") then false
  else containsAny goal ["创建"; "新建"; "建立"].

Definition suggestSkill (task : Task) : string :=
  let goal := Goal task in
  if containsAny goal ["搜索"; "查一下"; "查找"; "联网"; "网页"; "网站"; "资料"] then "web-search"
  else if containsAny goal ["github"; "GitHub"] && containsAny goal ["issue"; "issues"; "问题"; "工单"]
  then "github-issue-search"
  else if containsAny goal ["邮件"; "邮箱"; "收件箱"] then "email-inbox"
  else if containsWord goal "email" || containsWord goal "mail" || containsWord goal "inbox" then "email-inbox"
  else if containsWord goal "github" && containsWord goal "issue" then "github-issue-search"
  else if containsWord goal "search" || containsWord goal "web" then "web-search"
  else if containsWord goal "shell" || containsWord goal "command" || containsWord goal "run" then "shell-command"
  else if containsWord goal "memory" || containsWord goal "recall" then "memory-consolidate"
  else if looksLikeCreateDirectoryRequest goal then "shell-command"
  else if containsWord goal "read" && referencesFileObject goal then "file-read"
  else if referencesFileObject goal && (containsWord goal "edit" || containsWord goal "write"
            || containsWord goal "update" || containsAny goal ["创建"; "新建"; "生成"]) then "file-edit"
  else "task-plan".

Definition planTask (taskID : string) : M Store Task :=
  _ ← GetTask taskID;
  MoveTask taskID TaskStatePlanned (λ t,
    mret (with_fields t (if blank (SelectedSkill t) then suggestSkill t else SelectedSkill t)
            "ready for execution" (FailureReason t) (RequiresApproval t) (Metadata t))).

Definition activateTask (taskID : string) : M Store Task :=
  task ← MoveTask taskID TaskStateActive (λ t, mret (set_next_action "execute via selected skill" t));
  state ← LoadState;
  _ ← SaveState (mkRuntimeState (RuntimeID state) (ActiveUserID state) (SessionID state) "busy"
        (Some (TaskID task)) (rs_ExecutionProfile state) (rs_UpdatedAt state));
  mret task.

(** The first listed task that is waiting, planned or already running. *)
Fixpoint advance_loop (tasks : list Task) : M Store Task :=
  match tasks with
  | [] => throw ErrTaskNotFound
  | task :: rest =>
      if decide (State task = TaskStateInbox) then
        plannedTask ← planTask (TaskID task);
        if decide (State plannedTask = TaskStatePlanned) then activateTask (TaskID plannedTask)
        else mret plannedTask
      else if decide (State task = TaskStatePlanned) then activateTask (TaskID task)
      else if decide (State task = TaskStateAwaitingApproval ∨ State task = TaskStateActive) then mret task
      else advance_loop rest
  end.

Definition Advance : M Store Task :=
  state ← LoadState;
  running ← match ActiveTaskID state with
    | None => mret None
    | Some activeID =>
        res ← try (GetTask activeID);
        match res with
        | Ok activeTask =>
            if decide (State activeTask = TaskStateActive) then mret (Some activeTask)
            else _ ← SaveState (idle state); mret None
        | Err ErrTaskNotFound => _ ← SaveState (idle state); mret None
        | Err e => throw e
        end
    end;
  match running with
  | Some activeTask => mret activeTask
  | None => tasks ← ListTasks; advance_loop tasks
  end.

Definition SubmitTask (req : CreateTaskRequest) : M Store Task :=
  _ ← CreateTask req; Advance.

Definition incrementStringCounter (raw : string) : string :=
  let raw := TrimSpace raw in
  if decide (raw = "") then "1" else
  match Sscanf_d raw with
  | None => "1"
  | Some value => if value <? 0 then "1" else Itoa (wrap64 (value + 1))
  end.

(** The mutation of [RequeueTask], before the caller's own. *)
Definition requeued (fromState trigger : string) (at_ : Time) (t : Task) : Task :=
  let m := default ∅ (Metadata t) in
  let m := delete "last_action_id" (delete "approval_token" m) in
  let m := <["rerun_count" := incrementStringCounter (default "" (m !! "rerun_count"))]> m in
  let m := <["last_rerun_trigger" := firstNonEmpty [trigger; "manual"]]> m in
  let m := <["last_rerun_from_state" := fromState]> m in
  let m := <["last_rerun_at" := RFC3339 at_]> m in
  with_fields t (SelectedSkill t) "rerun requested" "" (RequiresApproval t) (Some m).
Definition requeue_mutation (fromState trigger : string) (t : Task) : M Store Task :=
  at_ ← now; mret (requeued fromState trigger at_ t).

Definition requeue_states : list string :=
  [TaskStatePlanned; TaskStateActive; TaskStateBlocked; TaskStateFailed; TaskStateAwaitingApproval].

Definition RequeueTask (taskID trigger : string) (mutate : Task → M Store Task) : M Store Task :=
  task ← GetTask taskID;
  if negb (bool_decide (State task ∈ requeue_states)) then throw ErrRequeueState else
  state ← LoadState;
  _ ← (if decide (ActiveTaskID state = Some taskID) then SaveState (idle state) else mret tt);
  MoveTask taskID TaskStatePlanned (λ t, t ← requeue_mutation (State task) trigger t; mutate t).

Definition ApproveTask (taskID approvedBy : string) : M Store Task :=
  task ← RequeueTask taskID "approval_granted" (λ t,
    t ← set_metadata "approved_by" approvedBy
          (with_fields t (SelectedSkill t) (NextAction t) (FailureReason t) false (Metadata t));
    mret (set_next_action "approved for execution" t));
  activateTask (TaskID task).

Definition DenyTask (taskID deniedBy reason : string) : M Store Task :=
  MoveTask taskID TaskStateFailed (λ t,
    set_metadata "denied_by" deniedBy
      (with_fields t (SelectedSkill t) "task denied" (firstNonEmpty [reason; "denied"])
         (RequiresApproval t) (Metadata t))).
End skills.

(** ** Moving a task *)

(** A mutation of [MoveTask]: it touches neither the store nor the task's ID
    or creation time; it may read the clock and may panic. *)
Definition benign (mutate : Task → M Store Task) : Prop :=
  ∀ t s w, let '(r, s', w') := mutate t s w in
    s' = s ∧ same_env w w' ∧
    match r with Ok t' => TaskID t' = TaskID t ∧ CreatedAt t' = CreatedAt t | Err e => e = EPanic end.

Lemma benign_ret f : (∀ t, TaskID (f t) = TaskID t ∧ CreatedAt (f t) = CreatedAt t) → benign (λ t, mret (f t)).
Proof. intros Hf t s w. split; [done|]. split; [done|apply Hf]. Qed.
Lemma benign_bind m k : benign m → benign k → benign (λ t, t' ← m t; k t').
Proof.
  intros Hm Hk t s w. specialize (Hm t s w). run. destruct (m t s w) as [[[t'|e] s1] w1]; [|done].
  destruct Hm as (-> & [H1 H2] & Hid). specialize (Hk t' s w1). destruct (k t' s w1) as [[r s2] w2].
  destruct Hk as (-> & [H3 H4] & Hk). split; [done|]. split; [split; congruence|].
  destruct r; [|done]. destruct Hid as [<- <-], Hk as [<- <-]. done.
Qed.
Lemma benign_set k v : benign (set_metadata k v).
Proof. intros t s w. unfold set_metadata. by destruct (Metadata t). Qed.
Lemma benign_fields k v f :
  (∀ t, TaskID (f t) = TaskID t ∧ CreatedAt (f t) = CreatedAt t) → benign (λ t, set_metadata k v (f t)).
Proof.
  intros Hf t s w. pose proof (benign_set k v (f t) s w) as H. destruct (Hf t) as [<- <-]. exact H.
Qed.
Lemma benign_now (f : Z → Task → M Store Task) :
  (∀ z, benign (f z)) → benign (λ t, z ← now; f z t).
Proof.
  intros Hf t s w. run. specialize (Hf (clock w (tick w)) t s (advance w)).
  by destruct (f _ t s (advance w)) as [[? ?] ?].
Qed.
Lemma benign_requeue st tr : benign (requeue_mutation st tr).
Proof. by intros t s w. Qed.
#[export] Hint Resolve benign_ret benign_bind benign_set benign_fields benign_now benign_requeue : hoare.

Definition tasks_inv (s : Store) : Prop := view_inv tasks_dir s.

Lemma MoveTask_inv id next mutate : benign mutate → preserves tasks_inv (MoveTask id next mutate).
Proof.
  intros Hb s w Hs. unfold MoveTask, findTaskLocked. run.
  destruct (find_record _ _ _ _) as [[task path]|e] eqn:E; [|done].
  apply find_record_Ok in E as (Hl & _ & Hp). destruct path as [st n]. cbn in Hp. subst n.
  destruct (proj1 Hs _ _ _ Hl) as [_ Hid]. apply fileName_inj in Hid. change (TaskID task = id) in Hid.
  specialize (Hb task s w). destruct (mutate task s w) as [[[t|e] s1] w1]; destruct Hb as (-> & _ & Ht); [|done].
  destruct Ht as [Ht _].
  assert (tasks_inv (exec (move_record tasks_dir (st, fileName id) (stamped t next (clock w1 (tick w1)))) s (advance w1))) as H.
  { apply move_record_inv; [apply tasks_dir_ok|done|eauto|]. cbn. by rewrite Ht, Hid. }
  unfold exec in H. by destruct (move_record _ _ _ _ _) as [[[]?]?].
Qed.

Lemma SaveState_inv state : preserves tasks_inv (SaveState state).
Proof.
  unfold SaveState. preserves_tac. apply preserves_WriteFile. intros s f H. exact H.
Qed.
Lemma findTaskLocked_inv id : preserves tasks_inv (findTaskLocked id).
Proof. unfold findTaskLocked. preserves_tac. Qed.
Lemma GetTask_inv id : preserves tasks_inv (GetTask id).
Proof. unfold GetTask. preserves_tac. apply findTaskLocked_inv. Qed.
Lemma LoadState_inv : preserves tasks_inv LoadState.
Proof. unfold LoadState, ReadJSON. preserves_tac. Qed.
#[export] Hint Resolve MoveTask_inv SaveState_inv GetTask_inv LoadState_inv : hoare.

Section orchestrator.
Context {tables : UnicodeTables}.

Lemma recover_benign : benign (λ t,
  t ← set_metadata "recovered_from_active" "true" (make_metadata t);
  at_ ← now;
  t ← set_metadata "recovered_at" (RFC3339 at_) t;
  mret (set_next_action "recovered for re-execution" t)).
Proof.
  apply (benign_bind (λ t, set_metadata _ _ (make_metadata t)) (λ t, at_ ← now; t ← set_metadata _ (RFC3339 at_) t; mret _));
    [by apply benign_fields|].
  apply (benign_now (λ at_ t, t ← set_metadata _ (RFC3339 at_) t; mret _)). intros z.
  apply (benign_bind (set_metadata _ _) (λ t, mret (set_next_action _ t))); [apply benign_set|by apply benign_ret].
Qed.
Lemma Recover_inv : preserves tasks_inv Recover.
Proof. unfold Recover. preserves_tac. apply MoveTask_inv, recover_benign. Qed.

Lemma planTask_inv id : preserves tasks_inv (planTask id).
Proof. unfold planTask. preserves_tac. by apply MoveTask_inv, benign_ret. Qed.
Lemma activateTask_inv id : preserves tasks_inv (activateTask id).
Proof. unfold activateTask. preserves_tac. by apply MoveTask_inv, benign_ret. Qed.
#[local] Hint Resolve planTask_inv activateTask_inv : hoare.

Lemma advance_loop_inv tasks : preserves tasks_inv (advance_loop tasks).
Proof. induction tasks as [|t tasks IH]; cbn; preserves_tac. Qed.
#[local] Hint Resolve advance_loop_inv : hoare.

Lemma Advance_inv : preserves tasks_inv Advance.
Proof. unfold Advance, ListTasks. preserves_tac. Qed.

Lemma RequeueTask_inv id trigger mutate : benign mutate → preserves tasks_inv (RequeueTask id trigger mutate).
Proof. intros Hm. unfold RequeueTask. preserves_tac. Qed.
Lemma approve_benign approvedBy : benign (λ t,
  t ← set_metadata "approved_by" approvedBy
        (with_fields t (SelectedSkill t) (NextAction t) (FailureReason t) false (Metadata t));
  mret (set_next_action "approved for execution" t)).
Proof.
  apply (benign_bind (λ t, set_metadata _ _ (with_fields t _ _ _ _ _)) (λ t, mret (set_next_action _ t)));
    [by apply benign_fields|by apply benign_ret].
Qed.
Lemma ApproveTask_inv id approvedBy : preserves tasks_inv (ApproveTask id approvedBy).
Proof. unfold ApproveTask. preserves_tac. apply RequeueTask_inv, approve_benign. Qed.
Lemma DenyTask_inv id deniedBy reason : preserves tasks_inv (DenyTask id deniedBy reason).
Proof. unfold DenyTask. by apply MoveTask_inv, benign_fields. Qed.

(** No task has the ID a creation at time [t] would draw. *)
Definition fresh_id (t : Time) (s : Store) : Prop :=
  ∀ st, task_files s !! (st, fileName ("task-" +:+ Itoa t)) = None.

Lemma CreateTask_inv req s w :
  tasks_inv s → fresh_id (clock w (tick w)) s → tasks_inv (exec (CreateTask req) s w).
Proof.
  intros Hs Hf. unfold exec, CreateTask. destruct (_ || _); [done|]. run.
  assert (tasks_inv (exec (writeTaskLocked (newTask req (clock w (tick w)))) s (advance w))) as H.
  { apply write_record_inv; [apply tasks_dir_ok|done|]. intros st [x Hx].
    exfalso. assert (Some x = None) as [=]. rewrite <- Hx. apply Hf. }
  unfold exec in H. by destruct (writeTaskLocked _ _ _) as [[[]?]?].
Qed.

(** The operations of the orchestrator on tasks that exist. *)
Inductive RuntimeOp :=
  | OpRecover | OpAdvance
  | OpApprove (taskID approvedBy : string)
  | OpDeny (taskID deniedBy reason : string)
  | OpRequeue (taskID trigger : string).
Definition run_op (op : RuntimeOp) : M Store unit :=
  match op with
  | OpRecover => Recover
  | OpAdvance => _ ← Advance; mret tt
  | OpApprove id by_ => _ ← ApproveTask id by_; mret tt
  | OpDeny id by_ reason => _ ← DenyTask id by_ reason; mret tt
  | OpRequeue id trigger => _ ← RequeueTask id trigger (λ t, mret t); mret tt
  end.

Lemma run_op_inv op : preserves tasks_inv (run_op op).
Proof.
  destruct op; unfold run_op.
  - apply Recover_inv.
  - preserves_tac. apply Advance_inv.
  - preserves_tac. apply ApproveTask_inv.
  - preserves_tac. apply DenyTask_inv.
  - preserves_tac. apply RequeueTask_inv. by apply benign_ret.
Qed.

(** ** A working disk loses no task *)

(** A clock in the years JSON can write. *)
Definition sane_clock (w : World) : Prop := ∀ n, json_time_ok (clock w n) = true.
Definition calm (w : World) : Prop := reliable w ∧ sane_clock w.
Lemma calm_env w w' : same_env w w' → calm w → calm w'.
Proof. unfold calm, reliable, sane_clock. by intros [-> ->]. Qed.

(** The creation times in the files can be written again: they were read. *)
Definition docs_ok (s : Store) : Prop :=
  ∀ k t, task_files s !! k = Some (Doc t) → json_time_ok (CreatedAt t) = true.
(** The task has a readable file, in the directory of its state. *)
Definition has_task (id : string) (s : Store) : Prop :=
  ∃ t, TaskID t = id ∧ task_files s !! (State t, fileName id) = Some (Doc t).

(** What a working disk keeps: the tasks [ids]. *)
Definition holds (ids : string → Prop) (s : Store) : Prop :=
  tasks_inv s ∧ docs_ok s ∧ ∀ id, ids id → has_task id s.

Definition keeps (I : Store → Prop) {A} (m : M Store A) : Prop :=
  ∀ s w, calm w → I s → calm (m s w).2 ∧ I (m s w).1.2.

Lemma keeps_bind {A B} I (m : M Store A) (k : A → M Store B) :
  keeps I m → (∀ a, keeps I (k a)) → keeps I (m ≫= k).
Proof.
  intros Hm Hk s w Hw Hs. rewrite bind_eq. specialize (Hm s w Hw Hs).
  destruct (m s w) as [[[a|e] s'] w']; [|done]. destruct Hm. by apply Hk.
Qed.
Lemma keeps_try {A} I (m : M Store A) : keeps I m → keeps I (try m).
Proof. intros H s w Hw Hs. specialize (H s w Hw Hs). unfold try. by destruct (m s w) as [[? ?] ?]. Qed.
Lemma keeps_ret {A} I (a : A) : keeps I (mret a). Proof. by intros s w. Qed.
Lemma keeps_throw {A} I e : keeps I (throw e : M Store A). Proof. by intros s w. Qed.
Lemma keeps_get I : keeps I get. Proof. by intros s w. Qed.
Lemma keeps_lift {A} I (r : result A) : keeps I (lift_result r). Proof. by intros s w. Qed.

(** Replacing the file of one task by a file of its own leaves no task out. *)
Lemma holds_move ids p t t' s :
  holds ids s → task_files s !! p = Some (Doc t) → TaskID t' = TaskID t → json_time_ok (CreatedAt t') = true →
  holds ids (over tasks_dir (insert (State t', fileName (TaskID t')) (Doc (task_norm t')) ∘ delete p) s).
Proof.
  intros ([Hd Hu] & Hok & Hids) Hl Hid Hj.
  destruct p as [st n]. destruct (Hd _ _ _ Hl) as [Hst Hn].
  change (State t = st) in Hst. change (fileName (TaskID t) = n) in Hn. subst st n. rewrite Hid.
  unfold holds, tasks_inv, view_inv. cbn [view tasks_dir task_files over compose].
  split_and!.
  - rewrite <- Hid. exact (dirs_wf_insert _ t' (dirs_wf_delete _ _ Hd)).
  - apply unique_insert; [by apply unique_delete|]. intros st' [x [Hne Hx]%lookup_delete_Some]. exfalso.
    apply Hne. f_equal. apply (Hu _ _ (fileName (TaskID t))); eauto.
  - intros k x Hk. cbn [task_files] in Hk.
    apply lookup_insert_Some in Hk as [[_ [= <-]]|[_ [_ H]%lookup_delete_Some]]; [exact Hj|by eapply Hok].
  - intros id (x & <- & Hx)%Hids. destruct (decide (TaskID x = TaskID t)) as [->|Hne].
    + exists (task_norm t'). split; [exact Hid|]. apply lookup_insert_eq.
    + exists x. split; [done|]. cbn [task_files]. rewrite lookup_insert_ne, lookup_delete_ne; [done| |];
        intros [= _ E%fileName_inj]; by apply Hne.
Qed.

Lemma MoveTask_keeps ids id next mutate : benign mutate → keeps (holds ids) (MoveTask id next mutate).
Proof.
  intros Hb s w Hw Hs. unfold MoveTask, findTaskLocked. run.
  destruct (find_record _ _ _ _) as [[task path]|e] eqn:E; [|done].
  apply find_record_Ok in E as (Hl & _ & _).
  specialize (Hb task s w). destruct (mutate task s w) as [[r s1] w1].
  destruct Hb as (-> & He & Ht). pose proof (calm_env _ _ He Hw) as Hw1. destruct r as [t|e]; [|done].
  destruct Ht as [Hid Hc]. set (t' := stamped t next (clock w1 (tick w1))).
  assert (json_time_ok (CreatedAt t') = true) as Hj.
  { cbn. rewrite Hc. by eapply (proj1 (proj2 Hs)). }
  assert (rec_json_ok t' = true) as Hj'.
  { change (task_json_ok t' = true). unfold task_json_ok. rewrite Hj. apply Hw1. }
  rewrite (move_record_reliable tasks_dir path t' s (advance w1) tasks_dir_ok (proj1 Hw1) Hj'). cbn [fst snd].
  split; [exact Hw1|]. exact (holds_move ids path task t' s Hs Hl Hid Hj).
Qed.

Lemma SaveState_keeps ids state : keeps (holds ids) (SaveState state).
Proof.
  intros s w Hw Hs. unfold SaveState. run. rewrite (proj2 Hw (tick w)). cbn [negb].
  rewrite WriteFile_reliable by apply Hw. done.
Qed.
#[local] Hint Resolve keeps_ret keeps_throw keeps_get keeps_lift MoveTask_keeps SaveState_keeps : hoare.
Ltac keeps_step :=
  match goal with
  | |- keeps _ (if ?b then _ else _) => destruct b
  | |- keeps _ (match ?x with _ => _ end) => destruct x
  | |- keeps _ (mbind _ _) => apply keeps_bind; [|intros]
  | |- keeps _ (try _) => apply keeps_try
  | |- keeps _ (let _ := _ in _) => cbv zeta
  | |- keeps _ _ => solve [eauto with hoare nocore]
  end.
Ltac keeps_tac := repeat keeps_step.

Lemma GetTask_keeps ids id : keeps (holds ids) (GetTask id).
Proof. unfold GetTask, findTaskLocked. keeps_tac. Qed.
Lemma LoadState_keeps ids : keeps (holds ids) LoadState.
Proof. unfold LoadState, ReadJSON. keeps_tac. Qed.
#[local] Hint Resolve GetTask_keeps LoadState_keeps : hoare.

Lemma activateTask_keeps ids id : keeps (holds ids) (activateTask id).
Proof. unfold activateTask. keeps_tac. by apply MoveTask_keeps, benign_ret. Qed.
#[local] Hint Resolve activateTask_keeps : hoare.
Lemma Advance_keeps ids : keeps (holds ids) Advance.
Proof.
  assert (∀ tasks, keeps (holds ids) (advance_loop tasks)) as Hloop.
  { induction tasks as [|t tasks IH]; cbn [advance_loop]; unfold planTask; keeps_tac; try done.
    by apply MoveTask_keeps, benign_ret. }
  unfold Advance, ListTasks. keeps_tac.
Qed.
Lemma RequeueTask_keeps ids id trigger mutate :
  benign mutate → keeps (holds ids) (RequeueTask id trigger mutate).
Proof. intros Hm. unfold RequeueTask. keeps_tac. Qed.

Lemma run_op_keeps ids op : keeps (holds ids) (run_op op).
Proof.
  destruct op; unfold run_op.
  - unfold Recover. keeps_tac. apply MoveTask_keeps, recover_benign.
  - keeps_tac. apply Advance_keeps.
  - unfold ApproveTask. keeps_tac. apply RequeueTask_keeps, approve_benign.
  - unfold DenyTask. keeps_tac. by apply MoveTask_keeps, benign_fields.
  - keeps_tac. apply RequeueTask_keeps. by apply benign_ret.
Qed.

Lemma CreateTask_keeps ids req s w :
  calm w → fresh_id (clock w (tick w)) s → blank (ct_Title req) = false → blank (ct_Goal req) = false →
  holds ids s →
  ∃ t s', CreateTask req s w = (Ok t, s', advance (advance w)) ∧
    holds (λ id, ids id ∨ id = "task-" +:+ Itoa (clock w (tick w))) s'.
Proof.
  intros Hw Hf H1 H2 ([Hd Hu] & Hok & Hids). unfold CreateTask, writeTaskLocked. rewrite H1, H2. cbn [orb]. run.
  set (t := newTask req (clock w (tick w))).
  assert (rec_json_ok t = true) as Hj.
  { change (task_json_ok t = true). unfold task_json_ok. cbn. by rewrite (proj2 Hw (tick w)). }
  rewrite (write_record_reliable tasks_dir t s (advance w) (proj1 Hw) Hj).
  eexists t, _. split; [reflexivity|]. unfold holds, tasks_inv, view_inv. cbn [view tasks_dir task_files over].
  split_and!.
  - exact (dirs_wf_insert _ t Hd).
  - apply unique_insert; [done|]. intros st' [x Hx].
    exfalso. assert (Some x = None) as [=]. rewrite <- Hx. apply Hf.
  - intros k x Hk. cbn [task_files] in Hk.
    apply lookup_insert_Some in Hk as [[_ [= <-]]|[_ H]]; [apply Hw|by eapply Hok].
  - intros id [(x & <- & Hx)%Hids| ->].
    + exists x. split; [done|]. cbn [task_files]. rewrite lookup_insert_ne; [done|].
      intros E. rewrite <- E in Hx.
      assert (Some (Doc x) = None) as [=]. rewrite <- Hx. apply Hf.
    + exists (task_norm t). split; [done|]. apply lookup_insert_eq.
Qed.

(** C13. Every task has one file, in the directory of its state, under its own
    ID. Whatever the clock and the faults of the disk, no operation of the
    orchestrator gives a task a second file or files one elsewhere, and neither
    does a submission whose ID (the time in nanoseconds) is not in use. On a
    working disk, with a clock JSON can write, no operation loses a task
    either, and a submission adds the file of its own task. (A failing write
    does lose the task: the code removes the old file first.) *)
Theorem tasks_one_file op req s w :
  tasks_inv s →
  tasks_inv (exec (run_op op) s w) ∧
  (fresh_id (clock w (tick w)) s → tasks_inv (exec (SubmitTask req) s w)) ∧
  (reliable w → sane_clock w → docs_ok s →
    docs_ok (exec (run_op op) s w) ∧
    (∀ id, has_task id s → has_task id (exec (run_op op) s w)) ∧
    (fresh_id (clock w (tick w)) s → blank (ct_Title req) = false → blank (ct_Goal req) = false →
      docs_ok (exec (SubmitTask req) s w) ∧
      (∀ id, has_task id s → has_task id (exec (SubmitTask req) s w)) ∧
      has_task ("task-" +:+ Itoa (clock w (tick w))) (exec (SubmitTask req) s w))).
Proof.
  intros Hs. split; [by apply preserves_exec; [apply run_op_inv|]|]. split.
  - intros Hf. pose proof (CreateTask_inv req s w Hs Hf) as Hc.
    unfold exec, SubmitTask in *. run. destruct (CreateTask req s w) as [[[t|e] s1] w1]; [|done].
    pose proof (Advance_inv s1 w1 Hc) as Ha. by destruct (Advance s1 w1) as [[? ?] ?].
  - intros Hw Hc Hok. assert (calm w) as Hcalm by done.
    assert (holds (λ id, has_task id s) s) as Hh by done.
    destruct (run_op_keeps _ op s w Hcalm Hh) as [_ (_ & H2 & H3)].
    split; [by rewrite exec_preserved|]. split; [by rewrite exec_preserved|].
    intros Hf Ht Hg. destruct (CreateTask_keeps _ req s w Hcalm Hf Ht Hg Hh) as (t & s1 & E & H1).
    destruct (Advance_keeps _ s1 _ (Hcalm : calm (advance (advance w))) H1) as [_ (_ & H4 & H5)].
    rewrite exec_preserved. unfold SubmitTask. rewrite bind_eq, E. auto.
Qed.
End orchestrator.

(** ** Settled tasks stay where they are *)

(** Every readable file lies where its record says. *)
Definition dirs_ok (s : Store) : Prop := dirs_wf (task_files s).

(** What a successful move leaves: the task it returns, in the directory of
    its new state. *)
Lemma MoveTask_files id next mutate s w : benign mutate → dirs_ok s →
  let '(res, s', _) := MoveTask id next mutate s w in
  dirs_ok s' ∧
  (∀ t, res = Ok t → TaskID t = id ∧ State t = next ∧
     task_files s' !! (next, fileName id) = Some (Doc (task_norm t))) ∧
  (∀ st n x, task_files s !! (st, n) = Some x → (st, n) ≠ (next, fileName id) →
     (∀ t p, find_record ErrTaskNotFound find_states id (task_files s) = Ok (t, p) → p ≠ (st, n)) →
     task_files s' !! (st, n) = Some x).
Proof.
  intros Hb Hs. unfold MoveTask, findTaskLocked. run.
  destruct (find_record _ _ _ _) as [[task path]|e] eqn:E; [|done].
  destruct (find_record_Ok _ _ _ _ _ _ E) as (Hl & _ & Hp). destruct path as [st0 n0]. cbn in Hp. subst n0.
  destruct (Hs _ _ _ Hl) as [_ Hid%fileName_inj]. change (TaskID task = id) in Hid.
  specialize (Hb task s w). destruct (mutate task s w) as [[[t|e] s1] w1]; destruct Hb as (-> & _ & Ht); [|done].
  destruct Ht as [Ht _]. set (t' := stamped t next _).
  assert (TaskID t' = id) as Hid' by (cbn; congruence).
  assert (∀ b st n x, task_files s !! (st, n) = Some x → (st, n) ≠ (next, fileName id) →
    (st0, fileName id) ≠ (st, n) →
    <[(State t', fileName (TaskID t')) := b]> (delete (st0, fileName id) (task_files s)) !! (st, n) = Some x) as Hrest.
  { intros b st n x Hx Hne Hne'. rewrite Hid'. rewrite lookup_insert_ne; [by rewrite lookup_delete_ne|].
    intros E'. apply Hne. by rewrite <- E'. }
  assert (∀ st n x, (∀ t p, Ok (task, (st0, fileName id)) = Ok (t, p) → p ≠ (st, n)) → (st0, fileName id) ≠ (st, n)) as Hfound
    by (intros st n x Hf; by apply (Hf task)).
  destruct (move_record_run tasks_dir (st0, fileName id) t' s (advance w1) tasks_dir_ok) as (res & s' & w' & -> & Hm).
  destruct res as [[]|e].
  - subst s'. cbn [task_files over tasks_dir compose]. split; [exact (dirs_wf_insert _ t' (dirs_wf_delete _ _ Hs))|]. split.
    + intros ? [= <-]. split; [done|]. split; [done|]. rewrite <- Hid'. apply lookup_insert_eq.
    + intros st n x Hx Hne Hf. by apply Hrest; [..|by eapply Hfound].
  - destruct Hm as [_ [->|[->| ->]]]; cbn [task_files over tasks_dir compose].
    + done.
    + split; [by apply dirs_wf_delete|]. split; [done|]. intros st n x Hx Hne Hf.
      rewrite lookup_delete_ne; [done|by eapply Hfound].
    + split; [by apply dirs_wf_torn, dirs_wf_delete|]. split; [done|].
      intros st n x Hx Hne Hf. by apply Hrest; [..|by eapply Hfound].
Qed.
Lemma MoveTask_dirs id next mutate : benign mutate → preserves dirs_ok (MoveTask id next mutate).
Proof.
  intros Hb s w Hs. pose proof (MoveTask_files id next mutate s w Hb Hs) as H.
  destruct (MoveTask id next mutate s w) as [[? ?] ?]. apply H.
Qed.

(** The file [x] at a place where no waiting or running task is. *)
Definition kept (st n : string) (x : File Task) (s : Store) : Prop :=
  dirs_ok s ∧ task_files s !! (st, n) = Some x.
(** A task that waits or is planned. *)
Definition waiting (id : string) (s : Store) : Prop :=
  is_Some (task_files s !! (TaskStateInbox, fileName id)) ∨ is_Some (task_files s !! (TaskStatePlanned, fileName id)).

Section advancing.
Context {tables : UnicodeTables}.
Variables (st n : string) (x : File Task).
Hypothesis at_rest : st ∉ [TaskStateInbox; TaskStatePlanned; TaskStateActive].

Lemma move_waiting id next mutate s w :
  benign mutate → next ∈ [TaskStatePlanned; TaskStateActive] → kept st n x s → waiting id s →
  let '(res, s', _) := MoveTask id next mutate s w in
  kept st n x s' ∧ ∀ t, res = Ok t → TaskID t = id ∧ State t = next ∧ is_Some (task_files s' !! (next, fileName id)).
Proof.
  intros Hb Hn [Hd Hx] Hw. pose proof (MoveTask_files id next mutate s w Hb Hd) as H.
  destruct (MoveTask id next mutate s w) as [[res s'] w']. destruct H as (H1 & H2 & H3). split.
  - split; [exact H1|]. apply H3; [exact Hx| |].
    + intros [= -> _]. apply at_rest. set_solver.
    + intros t p Hf Hp. subst p. revert Hf. unfold find_states. cbn [find_record].
      destruct (task_files s !! (TaskStateInbox, fileName id)) as [[?|]|] eqn:E1; [|done|].
      { intros [= _ <- _]. apply at_rest. set_solver. }
      destruct (task_files s !! (TaskStatePlanned, fileName id)) as [[?|]|] eqn:E2; [|done|].
      { intros [= _ <- _]. apply at_rest. set_solver. }
      intros _. destruct Hw as [[? Hw]|[? Hw]]; congruence.
  - intros t Ht. destruct (H2 t Ht) as (? & ? & ?). eauto.
Qed.

Lemma SaveState_kept state : preserves (kept st n x) (SaveState state).
Proof. unfold SaveState. preserves_tac. apply preserves_WriteFile. intros s f H. exact H. Qed.
Lemma LoadState_kept : preserves (kept st n x) LoadState.
Proof. unfold LoadState, ReadJSON. preserves_tac. Qed.
Lemma GetTask_kept id : preserves (kept st n x) (GetTask id).
Proof. unfold GetTask, findTaskLocked. preserves_tac. Qed.
#[local] Hint Resolve SaveState_kept LoadState_kept GetTask_kept : hoare.

Lemma activateTask_kept id s w : kept st n x s → waiting id s → kept st n x (exec (activateTask id) s w).
Proof.
  intros Hk Hw. unfold exec, activateTask. rewrite bind_eq.
  match goal with |- context [MoveTask id ?a ?b s w] =>
    pose proof (move_waiting id a b s w ltac:(by apply benign_ret) ltac:(set_solver) Hk Hw) as H;
    destruct (MoveTask id a b s w) as [[[t|e] s1] w1] end; destruct H as [H _]; [|exact H].
  match goal with |- context [?m s1 w1] => assert (preserves (kept st n x) m) as Hp by preserves_tac; specialize (Hp s1 w1 H);
    by destruct (m s1 w1) as [[? ?] ?] end.
Qed.

(** The tasks listed have their files. *)
Lemma advance_loop_kept tasks s w :
  kept st n x s → (∀ t, t ∈ tasks → is_Some (task_files s !! (State t, fileName (TaskID t)))) →
  kept st n x (exec (advance_loop tasks) s w).
Proof.
  intros Hk. induction tasks as [|t tasks IH]; intros Hin; [exact Hk|]. cbn [advance_loop].
  pose proof (Hin t ltac:(left)) as Ht. case_decide as H1; [|case_decide as H2; [|case_decide; [exact Hk|]]].
  - rewrite H1 in Ht. unfold exec. rewrite bind_eq. unfold planTask. rewrite bind_eq.
    unfold GetTask, findTaskLocked. rewrite !bind_eq. cbn [get]. unfold lift_result.
    destruct (find_record _ _ _ _) as [[t0 p0]|e]; [|exact Hk]. cbn [mret M_ret].
    match goal with |- context [MoveTask ?id ?a ?b s w] =>
      pose proof (move_waiting id a b s w ltac:(by apply benign_ret) ltac:(set_solver) Hk (or_introl Ht)) as H;
      destruct (MoveTask id a b s w) as [[[t1|e] s1] w1] end; destruct H as [H Ht1]; [|exact H].
    destruct (Ht1 t1 eq_refl) as (Hid & Hst & Hf). rewrite decide_True by done. rewrite Hid.
    fold (exec (activateTask (TaskID t)) s1 w1). apply activateTask_kept; [exact H|by right].
  - rewrite H2 in Ht. apply activateTask_kept; [exact Hk|by right].
  - apply IH. intros t' Ht'. apply Hin. by right.
Qed.

Lemma Advance_kept : preserves (kept st n x) Advance.
Proof.
  unfold Advance. apply preserves_bind; [apply LoadState_kept|]. intros state.
  apply preserves_bind; [preserves_tac|]. intros [t|]; [preserves_tac|].
  intros s w Hk. unfold ListTasks. rewrite !bind_eq. cbn [get]. rewrite bind_eq. unfold lift_result.
  destruct (read_dirs list_states (task_files s)) as [tasks|e] eqn:E; [|exact Hk]. cbn [mret M_ret].
  pose proof (advance_loop_kept (merge_sort newest tasks) s w Hk) as H. unfold exec in H.
  destruct (advance_loop (merge_sort newest tasks) s w) as [[? ?] ?]. apply H.
  intros t. rewrite merge_sort_Permutation. intros (st' & n' & _ & Hl & _)%(read_dirs_elem _ _ _ _ E).
  destruct (proj1 Hk _ _ _ Hl) as [<- <-]. eauto.
Qed.

Lemma SubmitTask_kept req : preserves (kept st n x) (SubmitTask req).
Proof.
  unfold SubmitTask. apply preserves_bind; [|intros _; apply Advance_kept].
  intros s w Hk. unfold CreateTask. destruct (_ || _); [exact Hk|]. run. set (t := newTask req _).
  destruct (write_record_run tasks_dir t s (advance w) tasks_dir_ok) as (res & s' & w' & E & H).
  unfold writeTaskLocked. rewrite E. destruct Hk as [Hd Hx].
  assert (∀ b, (b = Torn ∨ b = Doc (task_norm t)) → kept st n x (over tasks_dir <[(State t, fileName (TaskID t)) := b]> s)) as Hins.
  { intros b Hb. split.
    - destruct Hb as [->| ->]; [by apply (dirs_wf_torn (task_files s))|exact (dirs_wf_insert _ t Hd)].
    - cbn [task_files over tasks_dir]. rewrite lookup_insert_ne; [done|]. intros [= <- _]. apply at_rest. left. }
  destruct res as [[]|e]; [subst s'; apply Hins; by right|].
  destruct H as [_ [->| ->]]; [done|apply Hins; by left].
Qed.
End advancing.

Lemma SaveState_dirs state : preserves dirs_ok (SaveState state).
Proof. unfold SaveState. preserves_tac. apply preserves_WriteFile. intros s f H. exact H. Qed.
Lemma LoadState_dirs : preserves dirs_ok LoadState.
Proof. unfold LoadState, ReadJSON. preserves_tac. Qed.
Lemma ListTasks_dirs : preserves dirs_ok ListTasks.
Proof. unfold ListTasks. preserves_tac. Qed.
Lemma GetTask_dirs id : preserves dirs_ok (GetTask id).
Proof. unfold GetTask, findTaskLocked. preserves_tac. Qed.
#[export] Hint Resolve MoveTask_dirs SaveState_dirs LoadState_dirs ListTasks_dirs GetTask_dirs : hoare.
Lemma SubmitTask_dirs `{UnicodeTables} req : preserves dirs_ok (SubmitTask req).
Proof.
  assert (∀ id, preserves dirs_ok (activateTask id)) as Ha.
  { intros id. unfold activateTask. preserves_tac. by apply MoveTask_dirs, benign_ret. }
  assert (∀ tasks, preserves dirs_ok (advance_loop tasks)) as Hl.
  { induction tasks as [|t tasks IH]; cbn; unfold planTask; preserves_tac. by apply MoveTask_dirs, benign_ret. }
  unfold SubmitTask. apply preserves_bind; [|intros _; unfold Advance; preserves_tac].
  intros s w Hs. unfold CreateTask. destruct (_ || _); [exact Hs|]. run. set (t := newTask req _).
  destruct (write_record_run tasks_dir t s (advance w) tasks_dir_ok) as (res & s' & w' & E & Hm).
  unfold writeTaskLocked. rewrite E. destruct res as [[]|e].
  - subst s'. exact (dirs_wf_insert _ t Hs).
  - destruct Hm as [_ [->| ->]]; [exact Hs|]. by apply (dirs_wf_torn (task_files s)).
Qed.

(** ** Behaviour on a working disk *)

Definition find_task (s : Store) (id : string) : result (Task * (string * string)) :=
  find_record ErrTaskNotFound find_states id (task_files s).

#[global] Arguments find_task : simpl never.

Lemma find_task_wf s id t p :
  tasks_inv s → find_task s id = Ok (t, p) →
  task_files s !! p = Some (Doc t) ∧ p = (State t, fileName id) ∧ TaskID t = id.
Proof.
  intros [Hd _] (Hl & _ & Hp)%find_record_Ok. destruct p as [st n]. cbn in Hp. subst n.
  destruct (Hd _ _ _ Hl) as [Hst Hid]. split; [done|]. split; [by f_equal|]. by apply fileName_inj.
Qed.

Lemma MoveTask_reliable id next mutate s w t p t' w1 :
  find_task s id = Ok (t, p) → mutate t s w = (Ok t', s, w1) → reliable w1 →
  task_json_ok (stamped t' next (clock w1 (tick w1))) = true →
  MoveTask id next mutate s w =
    (Ok (stamped t' next (clock w1 (tick w1))),
     over tasks_dir (insert (next, fileName (TaskID t'))
       (Doc (task_norm (stamped t' next (clock w1 (tick w1))))) ∘ delete p) s,
     advance (advance (advance w1))).
Proof.
  intros Hf Hm Hw Hj. unfold MoveTask, findTaskLocked. run. unfold find_task in Hf. rewrite Hf, Hm.
  by rewrite (move_record_reliable tasks_dir p _ s (advance w1) tasks_dir_ok).
Qed.

Lemma SaveState_reliable state s w :
  reliable w → json_time_ok (clock w (tick w)) = true →
  ∃ w', SaveState state s w = (Ok tt, over state_dir (insert tt (Doc (mkRuntimeState (RuntimeID state)
    (ActiveUserID state) (SessionID state) (rs_Status state) (ActiveTaskID state)
    (rs_ExecutionProfile state) (clock w (tick w))))) s, w') ∧ reliable w' ∧ clock w' = clock w.
Proof.
  intros Hw Ht. unfold SaveState. run. rewrite Ht. cbn [negb]. rewrite WriteFile_reliable by done.
  eexists. split; [reflexivity|]. done.
Qed.

Section behaviour.
Context {tables : UnicodeTables}.

(** A task created without metadata can never be denied: the store drops
    the empty map, so [DenyTask] writes to a nil map and panics, every time,
    leaving the task where it was. *)
Theorem DenyTask_panics req s w :
  reliable w → sane_clock w → fresh_id (clock w (tick w)) s → tasks_inv s →
  blank (ct_Title req) = false → blank (ct_Goal req) = false →
  default ∅ (ct_Metadata req) = ∅ →
  ∃ task s' w', CreateTask req s w = (Ok task, s', w') ∧
    ∀ deniedBy reason w2, DenyTask (TaskID task) deniedBy reason s' w2 = (Err EPanic, s', w2).
Proof.
  intros Hw Hc Hf Hs H1 H2 Hm. unfold CreateTask. rewrite H1, H2. cbn [orb]. run.
  set (task := newTask req (clock w (tick w))).
  assert (task_json_ok task = true) as Hj by (unfold task_json_ok; cbn; by rewrite (Hc (tick w))).
  assert (Metadata (task_norm task) = None) as Hnone.
  { cbn. destruct (ct_Metadata req); cbn in Hm; [subst|]; done. }
  unfold writeTaskLocked. assert (rec_json_ok task = true) as Hj' by exact Hj.
  rewrite (write_record_reliable tasks_dir task s (advance w) Hw Hj').
  eexists task, _, _. split; [reflexivity|]. intros deniedBy reason w2.
  unfold DenyTask, MoveTask, findTaskLocked. run.
  assert (find_record ErrTaskNotFound find_states (TaskID task)
    (task_files (over tasks_dir <[(rec_status task, fileName (rec_id task)) := Doc (rec_norm task)]> s))
    = Ok (task_norm task, (TaskStateInbox, fileName (TaskID task)))) as ->.
  { unfold find_states. cbn [find_record task_files over tasks_dir].
    rewrite (lookup_insert_eq (task_files s) (TaskStateInbox, fileName (TaskID task))). done. }
  unfold set_metadata. cbn [Metadata with_fields]. by rewrite Hnone.
Qed.

(** Recovery after a crash: with a readable state file, [Recover] always
    ends idle with no active task, and the task that was running is planned
    again, marked as recovered, and no longer among the active ones. *)
Theorem Recover_idle s w st :
  reliable w → sane_clock w → tasks_inv s → state_file s !! tt = Some (Doc st) →
  (∀ id, ActiveTaskID st = Some id →
     match find_task s id with Ok (t, _) => task_json_ok t = true | Err e => e = ErrTaskNotFound end) →
  ∃ s' w' st', Recover s w = (Ok tt, s', w') ∧
    state_file s' !! tt = Some (Doc st') ∧ ActiveTaskID st' = None ∧ rs_Status st' = "idle" ∧
    ∀ id t p, ActiveTaskID st = Some id → find_task s id = Ok (t, p) → State t = TaskStateActive →
      task_files s' !! (TaskStateActive, fileName id) = None ∧
      ∃ t' m, task_files s' !! (TaskStatePlanned, fileName id) = Some (Doc t') ∧ Metadata t' = Some m ∧
        m !! "recovered_from_active" = Some "true" ∧ NextAction t' = "recovered for re-execution".
Proof.
  intros Hw Hc Hs Hst Hact. unfold Recover, LoadState, ReadJSON. run. cbn [view state_dir]. rewrite Hst.
  destruct (ActiveTaskID st) as [id|] eqn:Ha.
  2: { case_decide as Hidle.
       - exists s, w, st. split_and!; try done.
       - destruct (SaveState_reliable (idle st) s w Hw (Hc _)) as (w' & E & _).
         unfold idle in E. rewrite E. eexists _, _, _. split; [reflexivity|]. cbn.
         rewrite lookup_insert_eq. split_and!; try done. }
  specialize (Hact id eq_refl). unfold GetTask, findTaskLocked. run.
  change (find_record ErrTaskNotFound find_states id (task_files s)) with (find_task s id).
  destruct (find_task s id) as [[t p]|e] eqn:Ef.
  2: { subst e. destruct (SaveState_reliable (idle st) s w Hw (Hc _)) as (w' & E & _).
       rewrite E. eexists _, _, _. split; [reflexivity|]. cbn.
       rewrite lookup_insert_eq. split_and!; try done. intros id' t p E1 E2.
       assert (id' = id) as -> by congruence. by rewrite Ef in E2. }
  destruct (find_task_wf _ _ _ _ Hs Ef) as (Hl & -> & Hid). cbn [fst].
  case_decide as Hact'.
  - set (mut := λ t0 : Task, _). set (w1 := advance w).
    set (m := <["recovered_at" := RFC3339 (clock w (tick w))]>
              (<["recovered_from_active" := "true"]> (default ∅ (Metadata t)))).
    set (t' := set_next_action "recovered for re-execution"
      (with_fields t (SelectedSkill t) (NextAction t) (FailureReason t) (RequiresApproval t) (Some m))).
    assert (mut t s w = (Ok t', s, w1)) as Hmut by done.
    assert (task_json_ok (stamped t' TaskStatePlanned (clock w1 (tick w1))) = true) as Hj.
    { unfold task_json_ok in *. cbn. apply andb_true_iff in Hact as [-> _]. apply Hc. }
    pose proof (MoveTask_reliable id TaskStatePlanned mut s w t _ t' w1 Ef Hmut Hw Hj) as E.
    unfold MoveTask, findTaskLocked in *. run. rewrite E. clear E. cbn [TaskID t' set_next_action with_fields].
    match goal with |- context [SaveState (idle st) ?s1 ?w2] =>
      destruct (SaveState_reliable (idle st) s1 w2 Hw (Hc _)) as (w' & E & _) end.
    rewrite E. eexists _, _, _. split; [reflexivity|].
    split; [cbn; by rewrite lookup_insert_eq|]. split; [done|]. split; [done|].
    intros id' t0 p0 E1 E0 _. assert (id' = id) as -> by congruence. rewrite Ef in E0. injection E0 as <- <-.
    rewrite Hid, Hact'. cbn. split.
    + rewrite lookup_insert_ne by (by intros [=]). apply lookup_delete_eq.
    + eexists _, m. rewrite lookup_insert_eq. split; [reflexivity|]. cbn. split_and!; [| |done].
      2: { unfold m. rewrite lookup_insert_ne by done. apply lookup_insert_eq. }
      rewrite decide_False; [done|]. intros Hm. apply (f_equal (lookup "recovered_at")) in Hm.
      unfold m in Hm. by rewrite lookup_insert_eq in Hm.
  - destruct (SaveState_reliable (idle st) s w Hw (Hc _)) as (w' & E & _).
    rewrite E. eexists _, _, _. split; [reflexivity|]. cbn. rewrite lookup_insert_eq.
    split_and!; try done. intros id' t0 p0 E1 E0 Hc'. assert (id' = id) as -> by congruence. rewrite Ef in E0. injection E0 as <- <-. done.
Qed.

(** Requeueing: a task that is done, archived or still in the inbox is
    refused; any other is planned again under the same ID, its failure reason
    cleared, its approval token and last action forgotten, and the state it
    left on record; if it was the active task, none is active afterwards. *)
Theorem RequeueTask_outcome id trigger s w t p st :
  reliable w → sane_clock w → tasks_inv s →
  find_task s id = Ok (t, p) → state_file s !! tt = Some (Doc st) → task_json_ok t = true →
  let '(r, s', _) := RequeueTask id trigger (λ t, mret t) s w in
  if decide (State t ∈ requeue_states) then
    ∃ t' m, r = Ok t' ∧ State t' = TaskStatePlanned ∧ TaskID t' = id ∧ FailureReason t' = "" ∧
      Metadata t' = Some m ∧ m !! "approval_token" = None ∧ m !! "last_action_id" = None ∧
      m !! "last_rerun_from_state" = Some (State t) ∧
      m !! "rerun_count" = Some (incrementStringCounter
        (default "" (default ∅ (Metadata t) !! "rerun_count"))) ∧
      task_files s' !! (TaskStatePlanned, fileName id) = Some (Doc (task_norm t')) ∧
      (State t ≠ TaskStatePlanned → task_files s' !! (State t, fileName id) = None) ∧
      (ActiveTaskID st = Some id → ∃ st', state_file s' !! tt = Some (Doc st') ∧ ActiveTaskID st' = None)
  else r = Err ErrRequeueState ∧ s' = s.
Proof.
  intros Hw Hc Hs Hf Hst Hj. destruct (find_task_wf _ _ _ _ Hs Hf) as (Hl & -> & Hid).
  unfold RequeueTask, GetTask, findTaskLocked, LoadState, ReadJSON. run.
  change (find_record ErrTaskNotFound find_states id (task_files s)) with (find_task s id).
  rewrite Hf. cbn [fst]. case_decide as Hq; [|by rewrite bool_decide_false].
  rewrite bool_decide_true by done. cbn [negb view state_dir]. rewrite Hst.
  match goal with |- context [MoveTask id TaskStatePlanned ?f] => set (mut := f) end.
  assert (∀ s1 w1, task_files s1 = task_files s → reliable w1 → sane_clock w1 → ∃ t' s2 w2 m,
    MoveTask id TaskStatePlanned mut s1 w1 = (Ok t', s2, w2) ∧
    State t' = TaskStatePlanned ∧ TaskID t' = id ∧ FailureReason t' = "" ∧ Metadata t' = Some m ∧
    m !! "approval_token" = None ∧ m !! "last_action_id" = None ∧
    m !! "last_rerun_from_state" = Some (State t) ∧
    m !! "rerun_count" = Some (incrementStringCounter (default "" (default ∅ (Metadata t) !! "rerun_count"))) ∧
    task_files s2 = <[(TaskStatePlanned, fileName id) := Doc (task_norm t')]> (delete (State t, fileName id) (task_files s)) ∧
    state_file s2 = state_file s1) as Hmove.
  { intros s1 w1 Hsf Hw1 Hc1.
    assert (find_task s1 id = Ok (t, (State t, fileName id))) as Hf1 by (unfold find_task; by rewrite Hsf).
    set (t' := requeued (State t) trigger (clock w1 (tick w1)) t).
    assert (mut t s1 w1 = (Ok t', s1, advance w1)) as Hmut by done.
    assert (TaskID t' = id) as Hid' by exact Hid.
    eexists _, _, _, _. split.
    { apply (MoveTask_reliable _ _ _ _ _ _ _ _ _ Hf1 Hmut Hw1).
      unfold task_json_ok in *. cbn. apply andb_true_iff in Hj as [-> _]. apply Hc1. }
    rewrite Hid'. cbn [stamped State TaskID FailureReason Metadata task_files state_file over tasks_dir].
    unfold t', requeued. cbn [FailureReason Metadata with_fields]. split_and!; try done.
    all: rewrite ?lookup_insert_ne by done.
    - by rewrite lookup_delete_ne, lookup_delete_eq by done.
    - apply lookup_delete_eq.
    - apply lookup_insert_eq.
    - rewrite lookup_insert_eq. by rewrite !lookup_delete_ne by done.
    - by rewrite Hsf. }
  case_decide as Hact.
  - destruct (SaveState_reliable (idle st) s w Hw (Hc _)) as (w1 & E & Hw1 & Hck). rewrite E.
    match goal with |- context [MoveTask id _ mut ?s1 w1] =>
      destruct (Hmove s1 w1 eq_refl Hw1) as (t' & s2 & w2 & m & -> & H1 & H2 & H3 & H4 & H5 & H6 & H7 & H8 & H9 & H10) end.
    { intros n. rewrite Hck. apply Hc. }
    exists t', m. rewrite H9. split_and!; try done; [by rewrite lookup_insert_eq| |].
    + intros Hne. rewrite lookup_insert_ne by congruence. apply lookup_delete_eq.
    + intros _. rewrite H10. cbn. rewrite lookup_insert_eq. eauto.
  - destruct (Hmove s w eq_refl Hw Hc) as (t' & s2 & w2 & m & -> & H1 & H2 & H3 & H4 & H5 & H6 & H7 & H8 & H9 & H10).
    exists t', m. rewrite H9. split_and!; try done; [by rewrite lookup_insert_eq|].
    intros Hne. rewrite lookup_insert_ne by congruence. apply lookup_delete_eq.
Qed.
End behaviour.

(** *** Concrete runs *)

#[local] Existing Instance caseless_tables.

Definition boot_state : RuntimeState := mkRuntimeState "rt" "user" None "idle" None "user" 0.
Definition boot_store : Store := mkStore ∅ {[tt := Doc boot_state]}.
Definition task_request (goal : string) (metadata : option (gmap string string)) : CreateTaskRequest :=
  mkCreateTaskRequest "a task" goal "" "chat" "" false "" metadata.
Lemma boot_store_inv : tasks_inv boot_store.
Proof. split; [by intros ? ? ? ?|]. by intros ? ? ? [? ?]. Qed.
(** A clock that stands still. *)
Definition still_world (t : Time) : World := mkWorld (λ _, t) (λ _, NoFault) (λ _, None) 0.
Lemma sane_still t : json_time_ok t = true → sane_clock (still_world t).
Proof. intros H n. exact H. Qed.
Lemma still_reliable t : reliable (still_world t).
Proof. intros n. reflexivity. Qed.
Definition noon : Time := 1700000000 * Second.

(** A store whose only task, of the boot second, is active. *)
Definition busy_store : Store := exec (SubmitTask (task_request "search the web" None)) boot_store (still_world noon).
Definition busy_id : string := "task-1700000000000000000".
Lemma busy_store_inv : tasks_inv busy_store.
Proof.
  pose proof (CreateTask_inv (task_request "search the web" None) boot_store (still_world noon) boot_store_inv
    (λ st, lookup_empty _)) as Hc.
  unfold busy_store, exec, SubmitTask in *. run. destruct (CreateTask _ _ _) as [[[t|e] s1] w1]; [|exact Hc].
  pose proof (Advance_inv s1 w1 Hc) as Ha. by destruct (Advance s1 w1) as [[? ?] ?].
Qed.

Definition day_world : World := mkWorld (λ n, noon + (1 + Z.of_nat n mod 1000) * Second) (λ _, NoFault) (λ _, None) 0.
Lemma sane_day : sane_clock day_world.
Proof.
  intros n. unfold day_world, json_time_ok. cbn [clock].
  pose proof (Z.mod_pos_bound (Z.of_nat n) 1000 ltac:(lia)).
  apply andb_true_iff. unfold noon, Second in *. split; [apply Z.leb_le|apply Z.ltb_lt]; lia.
Qed.
Lemma busy_docs_ok : docs_ok busy_store.
Proof.
  intros k t H%elem_of_map_to_list%list_elem_of_In.
  assert (forallb (λ kt : string * string * File Task,
    match kt.2 with Doc t => json_time_ok (CreatedAt t) | Torn => true end)
    (map_to_list (task_files busy_store)) = true) as Hall by (vm_compute; reflexivity).
  rewrite forallb_forall in Hall. exact (Hall _ H).
Qed.

Lemma busy_has_task : has_task busy_id busy_store.
Proof.
  destruct (task_files busy_store !! (TaskStateActive, fileName busy_id)) as [[t|]|] eqn:E;
    [|apply (f_equal (λ x, match x with Some (Doc _) => true | _ => false end)) in E; vm_compute in E; discriminate E..].
  destruct (proj1 busy_store_inv _ _ _ E) as [Hst Hid%fileName_inj].
  change (State t = TaskStateActive) in Hst. change (TaskID t = busy_id) in Hid.
  exists t. split; [exact Hid|]. rewrite Hst. exact E.
Qed.

Lemma tasks_one_file_witness :
  has_task busy_id (exec (run_op (OpDeny busy_id "bob" "no")) busy_store day_world) ∧
  has_task "task-1700000001000000000"
    (exec (SubmitTask (task_request "read the file" None)) busy_store day_world) ∧
  tasks_inv (exec (run_op (OpDeny busy_id "bob" "no")) busy_store world0).
Proof.
  destruct (tasks_one_file (OpDeny busy_id "bob" "no") (task_request "read the file" None) busy_store day_world
    busy_store_inv) as (_ & _ & H).
  destruct (H (λ n, eq_refl) sane_day busy_docs_ok) as (_ & H1 & H2). split.
  { exact (H1 _ busy_has_task). }
  split; [|exact (proj1 (tasks_one_file (OpDeny busy_id "bob" "no") (task_request "" None) busy_store world0 busy_store_inv))].
  refine (proj2 (proj2 (H2 _ _ _))); [|reflexivity|reflexivity].
  intros st. apply eq_None_not_Some. intros [x Hx%elem_of_map_to_list].
  vm_compute in Hx. apply list_elem_of_singleton in Hx. discriminate Hx.
Defined.

Lemma DenyTask_panics_witness :
  ∃ task s' w', CreateTask (task_request "write a note" None) boot_store (still_world noon) = (Ok task, s', w') ∧
    ∀ deniedBy reason w2, DenyTask (TaskID task) deniedBy reason s' w2 = (Err EPanic, s', w2).
Proof.
  apply (DenyTask_panics (task_request "write a note" None) boot_store (still_world noon)).
  - done.
  - by apply sane_still.
  - intros st. apply lookup_empty.
  - apply boot_store_inv.
  - reflexivity.
  - reflexivity.
  - reflexivity.
Defined.

(** The runtime state of a store, as a boolean-friendly projection. *)
Definition state_of (s : Store) : option RuntimeState :=
  match state_file s !! tt with Some (Doc st) => Some st | _ => None end.

Lemma state_of_Some s st : state_of s = Some st → state_file s !! tt = Some (Doc st).
Proof. unfold state_of. by destruct (state_file s !! tt) as [[]|]; intros [= ->]. Qed.

Lemma busy_state : ∃ st, state_file busy_store !! tt = Some (Doc st) ∧ ActiveTaskID st = Some busy_id.
Proof.
  assert (ActiveTaskID <$> state_of busy_store = Some (Some busy_id)) as H by (vm_compute; reflexivity).
  destruct (state_of busy_store) as [st|] eqn:E; [|done]. exists st. split; [by apply state_of_Some|].
  by injection H.
Qed.
Lemma busy_task : ∃ t p, find_task busy_store busy_id = Ok (t, p) ∧ State t = TaskStateActive ∧ task_json_ok t = true.
Proof.
  assert ((λ r, match r with Ok x => Some (State x.1, task_json_ok x.1) | Err _ => None end)
    (find_task busy_store busy_id) = Some (TaskStateActive, true)) as H by (vm_compute; reflexivity).
  destruct (find_task busy_store busy_id) as [[t p]|e]; [|done]. exists t, p. by injection H.
Qed.

Lemma Recover_idle_witness :
  ∃ s' w' st', Recover busy_store (still_world noon) = (Ok tt, s', w') ∧
    state_file s' !! tt = Some (Doc st') ∧ rs_Status st' = "idle" ∧
    task_files s' !! (TaskStateActive, fileName busy_id) = None.
Proof.
  destruct busy_state as (st & Hst & Ha). destruct busy_task as (t & p & Hf & Hs & Hj).
  destruct (Recover_idle busy_store (still_world noon) st) as (s' & w' & st' & E & H1 & _ & H2 & H3).
  - exact (still_reliable noon).
  - exact (sane_still noon eq_refl).
  - exact busy_store_inv.
  - exact Hst.
  - intros id Hid. rewrite Ha in Hid. apply Some_inj in Hid. subst id. rewrite Hf. exact Hj.
  - exists s', w', st'. split; [exact E|]. split; [exact H1|]. split; [exact H2|].
    exact (proj1 (H3 busy_id t p Ha Hf Hs)).
Defined.

Lemma RequeueTask_outcome_witness :
  ∃ t', (RequeueTask busy_id "" (λ t, mret t) busy_store (still_world noon)).1.1 = Ok t' ∧
    State t' = TaskStatePlanned ∧ (default ∅ (Metadata t')) !! "rerun_count" = Some "1".
Proof.
  destruct busy_state as (st & Hst & Ha). destruct busy_task as (t & p & Hf & Hs & Hj).
  assert (State t ∈ requeue_states) as Hin by (clear -Hs; rewrite Hs; unfold requeue_states; set_solver).
  pose proof (RequeueTask_outcome busy_id "" busy_store (still_world noon) t p st (still_reliable noon)
    (sane_still noon eq_refl) busy_store_inv Hf Hst Hj) as H.
  destruct (RequeueTask busy_id "" (λ t, mret t) busy_store (still_world noon)) as [[r s'] w'].
  rewrite (decide_True _ _ Hin) in H.
  destruct H as (t' & m & -> & H1 & _ & _ & Hm & _ & _ & _ & Hc & _).
  exists t'. split; [reflexivity|]. split; [exact H1|]. rewrite Hm. cbn [default from_option id]. rewrite Hc.
  assert (Metadata <$> (match find_task busy_store busy_id with Ok x => Some x.1 | Err _ => None end) = Some None) as Hn
      by (vm_compute; reflexivity).
  rewrite Hf in Hn. cbn in Hn. apply Some_inj in Hn. rewrite Hn. reflexivity.
Defined.

(** Approving a task while another one runs leaves both in the active
    directory: the state file forgets the first. *)
Definition second_store : Store :=
  exec (CreateTask (task_request "edit the doc" None)) busy_store (still_world (noon + Second)).
Definition both_store : Store :=
  exec (_ ← planTask "task-1700000001000000000"; ApproveTask "task-1700000001000000000" "alice")
    second_store (still_world (noon + 2 * Second)).
Lemma ApproveTask_two_active :
  is_ok (find_task both_store busy_id) = true ∧
  ((λ r, match r with Ok x => State x.1 | Err _ => "" end) <$>
     [find_task both_store busy_id; find_task both_store "task-1700000001000000000"])
    = [TaskStateActive; TaskStateActive] ∧
  ActiveTaskID <$> state_of both_store = Some (Some "task-1700000001000000000").
Proof. vm_compute. done. Qed.

(** [SubmitTask] answers with the running task, not with the one it created. *)
Lemma SubmitTask_returns_other :
  (λ r, match r with Ok t => TaskID t | Err _ => "" end)
    (SubmitTask (task_request "edit the doc" None) busy_store (still_world (noon + Second))).1.1 = busy_id.
Proof. vm_compute. reflexivity. Qed.
