(* ===== verification/MemorySystem.v ===== *)
(** * The memory as a whole ([internal/memory/scheduler.go] and all operations)

    The governance scheduler, and the step relation of a memory store under
    every operation the program performs on it: requests, recall feedback,
    consolidation, upgrade, decay and the scheduler's tick.  The theorem is
    that the history of a card is append-only along every run. *)
From S2P Require Import Prelude GoStrings GoNum MemoryTypes MemoryStore Journal.
From S2P Require Import Governance Consolidator Upgrade Recall.
Open Scope Z_scope.

(** ** The governance scheduler *)

Record GovernanceSchedulerConfig := mkSchedulerConfig {
  gc_Interval : Z; gc_BaseDecayRate : float64; gc_StaleThreshold : float64;
  gc_ArchiveThreshold : float64 }.

Definition defaultSchedulerConfig : GovernanceSchedulerConfig :=
  mkSchedulerConfig (1 * Hour) (lit 5 100) (lit 5 10) (lit 1 10).

(** The scheduler without its store, channel and [Once]. *)
Record GovernanceScheduler := mkScheduler { interval : Z; opts : GovernanceOptions }.

Definition NewGovernanceScheduler (cfg : option GovernanceSchedulerConfig) : GovernanceScheduler :=
  let positive (x d : float64) := if flt f0 x then x else d in
  let d := defaultSchedulerConfig in
  let c := match cfg with
    | None => d
    | Some cfg => mkSchedulerConfig
        (if 0 <? gc_Interval cfg then gc_Interval cfg else gc_Interval d)
        (positive (gc_BaseDecayRate cfg) (gc_BaseDecayRate d))
        (positive (gc_StaleThreshold cfg) (gc_StaleThreshold d))
        (positive (gc_ArchiveThreshold cfg) (gc_ArchiveThreshold d))
    end in
  mkScheduler (gc_Interval c)
    (mkGovernanceOptions (gc_BaseDecayRate c) (gc_StaleThreshold c) (gc_ArchiveThreshold c) zeroTime).

(** The orders in which one tick visits the maps. *)
Record TickOrders := mkTickOrders {
  decay_ord : list string;
  session_ords : list string * list string;
  project_ords : list string * list string;
  conflict_ords : string → list string * list string * list string }.

(** What a tick logs. *)
Record TickReport := mkTickReport {
  t_decay : GarbageCollectionResult * option error;
  t_session : UpgradeResult * option error;
  t_project : UpgradeResult * option error;
  t_conflicts : list (string * ConflictDetectionResult) }.

Section system.
Context {tables : UnicodeTables}.

Definition tick_upgrade (scope : string) : UpgradeRequest := mkUpgradeRequest scope 2 (lit 5 10) false.

(** One round: the errors of its parts are logged, never returned. *)
Definition tick (gs : GovernanceScheduler) (ords : TickOrders) : M Store TickReport :=
  t ← now;
  let o := opts gs in
  let o := mkGovernanceOptions (BaseDecayRate o) (StaleThreshold o) (ArchiveThreshold o) t in
  decay ← DecayAndCompact (decay_ord ords) o;
  session ← UpgradeEventsToFacts (session_ords ords).1 (session_ords ords).2 (tick_upgrade ScopeSession);
  project ← UpgradeEventsToFacts (project_ords ords).1 (project_ords ords).2 (tick_upgrade ScopeProject);
  s ← get;
  mret (mkTickReport decay session project
    (map (λ scope, let '(o1, o2, o3) := conflict_ords ords scope in
        (scope, DetectConflicts o1 o2 o3 (mkConflictRequest scope "") s))
       [ScopeSession; ScopeProject; ScopeUser])).

(** What the goroutine receives: a tick of its ticker, or the closed channel. *)
Inductive SchedulerEvent := Ticked (ords : TickOrders) | Stopped.
Fixpoint loop (gs : GovernanceScheduler) (events : list SchedulerEvent) : M Store unit :=
  match events with
  | [] | Stopped :: _ => mret tt
  | Ticked ords :: rest => _ ← tick gs ords; loop gs rest
  end.

(** ** All operations on a memory *)

Inductive MemoryOp :=
  | MStore (op : StoreOp)
  | MDecay (ord : list string) (o : GovernanceOptions)
  | MPromote (ord : list string) (req : ConsolidateRequest)
  | MUpgrade (ord tord : list string) (req : UpgradeRequest)
  | MFeedback (ord : list string) (feedback : list UsageFeedback)
  | MTick (gs : GovernanceScheduler) (ords : TickOrders).

Definition run_memory (op : MemoryOp) : M Store unit :=
  match op with
  | MStore op => run_op op
  | MDecay ord o => _ ← DecayAndCompact ord o; mret tt
  | MPromote ord req => _ ← PromoteCandidates ord req; mret tt
  | MUpgrade ord tord req => _ ← UpgradeEventsToFacts ord tord req; mret tt
  | MFeedback ord feedback => ApplyFeedback ord feedback
  | MTick gs ords => _ ← tick gs ords; mret tt
  end.

(** An operation in any environment, failures of the disk included. *)
Definition memory_step (s s' : Store) : Prop := ∃ op w, s' = exec (run_memory op) s w.

Lemma exec_then_ret {S A B} (m : M S A) (b : B) s w : exec (_ ← m; mret b) s w = exec m s w.
Proof. unfold exec. rewrite bind_eq. by destruct (m s w) as [[[]?]?]. Qed.

(** ** What the primitive operations maintain, all of them maintain *)

Class Maintained (I : Store → Prop) := {
  m_create req : preserves I (CreateCard req);
  m_update id req : preserves I (UpdateCard id req);
  m_touch id da dc : preserves I (TouchCard id da dc);
  m_edge req : preserves I (CreateEdge req);
  (** appending the version a decay calls for *)
  m_decay o id latest c s w :
    I s → last (versions_of s id) = Some latest → decay_card o latest = Some c →
    I (exec (appendVersion "decay_applied" id c) s w) }.
#[local] Hint Resolve m_create m_update m_touch m_edge : hoare.

Section maintained.
Context (I : Store → Prop) `{!Maintained I}.

Lemma decay_loop_maintained o r ids : preserves I (decay_loop o r ids).
Proof.
  revert r. induction ids as [|id ids IH]; intros r; [apply preserves_ret|]. cbn.
  intros s w Hs. run. destruct (last (versions_of s id)) as [latest|] eqn:El; [|by apply IH].
  destruct (skipped latest); [by apply IH|].
  destruct (decay_card o latest) as [c|] eqn:Ed; [|by apply IH].
  pose proof (m_decay o id latest c s w Hs El Ed) as Hs1. unfold exec in Hs1.
  destruct (appendVersion "decay_applied" id c s w) as [[[?|e] s1] w1]; [by apply IH|exact Hs1].
Qed.
Lemma DecayAndCompact_maintained ord o : preserves I (DecayAndCompact ord o).
Proof.
  unfold DecayAndCompact. apply preserves_bind; [destruct (IsZero _); auto with hoare|].
  intros. apply decay_loop_maintained.
Qed.
Lemma UpgradeEventsToFacts_maintained ord tord req : preserves I (UpgradeEventsToFacts ord tord req).
Proof.
  unfold UpgradeEventsToFacts. apply preserves_bind; [apply preserves_get|]. intros s. cbv zeta.
  destruct (_ <? _); [apply preserves_ret|]. generalize (clusterEventCards (upgrade_events ord req s)) as clusters.
  intros clusters. generalize (mkUpgradeResult (Z.of_nat (length (upgrade_events ord req s))) (Z.of_nat (size clusters)) 0 0 []).
  induction tord as [|t tord IH]; intros r; cbn; [apply preserves_ret|].
  apply preserves_bind; [|intros [? []]; [apply preserves_ret|apply IH]].
  unfold upgrade_cluster. preserves_tac. apply archive_sources_upgraded. auto with hoare.
Qed.
Lemma ApplyFeedback_maintained ord feedback : preserves I (ApplyFeedback ord feedback).
Proof. unfold ApplyFeedback. preserves_tac. Qed.
Lemma tick_maintained gs ords : preserves I (tick gs ords).
Proof.
  unfold tick. preserves_tac;
    [apply DecayAndCompact_maintained|apply UpgradeEventsToFacts_maintained..].
Qed.

Lemma run_memory_maintained op : preserves I (run_memory op).
Proof.
  destruct op as [[]|ord o|ord req|ord tord req|ord fb|gs ords]; cbn [run_memory run_op];
    [preserves_tac..| | | | |].
  - preserves_tac. apply DecayAndCompact_maintained.
  - preserves_tac. apply PromoteCandidates_invariant. auto with hoare.
  - preserves_tac. apply UpgradeEventsToFacts_maintained.
  - apply ApplyFeedback_maintained.
  - preserves_tac. apply tick_maintained.
Qed.
End maintained.

#[export] Instance wf_maintained : Maintained store_wf.
Proof.
  split; auto with hoare. intros o id latest c s w Hs El Ed. unfold exec.
  destruct (appendVersion_run "decay_applied" id c s w) as (res & s1 & w1 & -> & Hm & _).
  unfold store_wf. rewrite Hm. destruct (versions_of_last _ _ _ Hs El) as (_ & _ & ? & ? & _).
  eapply append_version_wf; [done..|]. by eapply decay_card_next.
Qed.

(** Every operation of the memory is a sequence of the mutations of which
    [Journal] shows that the journal records them. *)
#[export] Instance mutations_maintained s0 : Maintained (λ s, store_wf s ∧ rtc mutation_step s0 s).
Proof.
  assert (∀ A (m : M Store A) op, (∀ s w, exec m s w = exec (run_op op) s w) →
    preserves (λ s, store_wf s ∧ rtc mutation_step s0 s) m) as Hreq.
  { intros A m op Hm s w [Hs Hr]. specialize (Hm s w). unfold exec at 1 in Hm.
    destruct (m s w) as [[? s'] ?]. cbn in Hm |- *. subst s'. split.
    - by apply preserves_exec; [apply run_op_preserves|].
    - eapply rtc_r; [exact Hr|]. exists (ByRequest op), w. by split. }
  split.
  - intros req. apply (Hreq _ _ (OpCreate req)). intros s w. symmetry. apply exec_then_ret.
  - intros id req. apply (Hreq _ _ (OpUpdate id req)). intros s w. symmetry. apply exec_then_ret.
  - intros id da dc. apply (Hreq _ _ (OpTouch id da dc)). intros s w. symmetry. apply exec_then_ret.
  - intros req. apply (Hreq _ _ (OpEdge req)). intros s w. symmetry. apply exec_then_ret.
  - intros o id latest c s w [Hs Hr] El Ed. split; [by eapply (m_decay (I:=store_wf))|].
    eapply rtc_r; [exact Hr|]. exists (ByDecay id c), w. split.
    + exists latest. split; [done|]. destruct (versions_of_last _ _ _ Hs El) as (_ & _ & ? & ? & _).
      by eapply decay_card_next.
    + symmetry. apply exec_then_ret.
Qed.
Lemma run_memory_mutations op s w : store_wf s → rtc mutation_step s (exec (run_memory op) s w).
Proof.
  intros Hs. apply (preserves_exec (λ s', store_wf s' ∧ rtc mutation_step s s') (run_memory op)).
  - apply run_memory_maintained, _.
  - split; [done|apply rtc_refl].
Qed.
End system.

(** ** Append-only history *)

(** [s] has everything [s0] has: the versions of every card in the same
    places, every edge unchanged, every index entry in the same place. *)
Definition extends (s0 s : Store) : Prop :=
  (∀ id, versions_of s0 id `prefix_of` versions_of s id) ∧
  (∀ eid e, edges s0 !! eid = Some e → edges s !! eid = Some e) ∧
  (∀ id, default [] (edgesByCard s0 !! id) `prefix_of` default [] (edgesByCard s !! id)).

Lemma extends_refl s : extends s s.
Proof. split; [|split]; intros; [reflexivity|done|reflexivity]. Qed.
Lemma extends_trans s1 s2 s3 : extends s1 s2 → extends s2 s3 → extends s1 s3.
Proof.
  intros (H1 & H2 & H3) (K1 & K2 & K3). split; [|split]; [|by auto|].
  - intros id. etrans; [apply H1|apply K1].
  - intros id. etrans; [apply H3|apply K3].
Qed.
(** [extends] looks at the memory only. *)
Lemma extends_mem s s' : mem s' = mem s → extends s s'.
Proof. intros [= Hc He Hx]. unfold extends, versions_of. by rewrite Hc, He, Hx. Qed.
Lemma extends_versions s s' id c :
  mem s' = mem_cards s id (versions_of s id ++ [c]) → extends s s'.
Proof.
  intros [= Hc He Hx]. unfold extends. rewrite He, Hx. split; [|by split].
  intros id'. unfold versions_of at 2. rewrite Hc. destruct (decide (id' = id)) as [->|Hne].
  - rewrite lookup_insert_eq. cbn. by apply prefix_app_r.
  - by rewrite lookup_insert_ne by done.
Qed.
Lemma index_edge_prefix id eid ix id' :
  default [] (ix !! id') `prefix_of` default [] (index_edge id eid ix !! id').
Proof.
  unfold index_edge. destruct (decide (id' = id)) as [->|Hne].
  - rewrite lookup_insert_eq. cbn. by apply prefix_app_r.
  - by rewrite lookup_insert_ne by done.
Qed.
Lemma extends_edge s s' e : edges s !! EdgeID e = None → mem s' = mem (add_edge e s) → extends s s'.
Proof.
  intros Hn [= Hc He Hx]. unfold extends, versions_of. rewrite Hc, He, Hx. split; [done|]. split.
  - intros eid e' Hl. destruct (decide (eid = EdgeID e)) as [->|Hne]; [congruence|].
    by rewrite lookup_insert_ne.
  - intros id. etrans; apply index_edge_prefix.
Qed.

#[export] Instance extends_maintained s0 : Maintained (extends s0).
Proof.
  split.
  - intros req s w Hs. edestruct (CreateCard_run req s w) as (r & s' & w' & -> & H).
    destruct (create_ok req); cbn in H; [|by destruct H as [_ ->]].
    destruct (cards s !! cc_CardID req) eqn:Ec; [by destruct H as [_ ->]|].
    destruct H as (Hm & _). apply (extends_trans _ s); [done|]. eapply extends_versions.
    unfold versions_of. rewrite Ec. exact Hm.
  - intros id req s w Hs. edestruct (UpdateCard_run id req s w) as (r & s' & w' & -> & H).
    destruct (update_ok id req); cbn in H; [|by destruct H as [_ ->]].
    destruct (last (versions_of s id)); [|by destruct H as [_ ->]].
    destruct H as (Hm & _). apply (extends_trans _ s); [done|]. by eapply extends_versions.
  - intros id da dc s w Hs. edestruct (TouchCard_run id da dc s w) as (r & s' & w' & -> & H).
    destruct (blank id); [by destruct H as [_ ->]|].
    destruct (last (versions_of s id)); [|by destruct H as [_ ->]].
    destruct H as (Hm & _). apply (extends_trans _ s); [done|]. by eapply extends_versions.
  - intros req s w Hs. edestruct (CreateEdge_run req s w) as (r & s' & w' & -> & H).
    destruct (edge_ok req); cbn in H; [|by destruct H as [_ ->]].
    destruct (edges s !! ce_EdgeID req) eqn:Ee; [by destruct H as [_ ->]|].
    case_decide; [|by destruct H as [_ ->]].
    destruct H as (Hm & _). apply (extends_trans _ s); [done|]. by eapply extends_edge; [|exact Hm].
  - intros o id latest c s w Hs _ _. unfold exec.
    destruct (appendVersion_run "decay_applied" id c s w) as (res & s1 & w1 & -> & Hm & _).
    apply (extends_trans _ s); [done|]. by eapply extends_versions.
Qed.

(** C15. History is append-only. Along every run of the memory - any sequence
    of requests, feedback, consolidation, upgrade, decay and scheduler ticks,
    with any disk faults and clocks - the store stays well-formed, a version
    once written stays at its place in its card's history, and an edge once
    created never changes or disappears. *)
Theorem history_append_only `{UnicodeTables} s s' :
  store_wf s → rtc memory_step s s' →
  store_wf s' ∧
  (∀ id i c, versions_of s id !! i = Some c → versions_of s' id !! i = Some c) ∧
  (∀ eid e, edges s !! eid = Some e → edges s' !! eid = Some e).
Proof.
  intros Hwf Hrun. assert (store_wf s' ∧ extends s s') as (Hwf' & Hv & He & _).
  { revert Hwf. induction Hrun as [s|s s1 s' (op & w & ->) _ IH]; intros Hwf; [by split; [|apply extends_refl]|].
    destruct IH as [IH1 IH2].
    { apply preserves_exec; [apply (run_memory_maintained store_wf)|done]. }
    split; [done|]. eapply extends_trans; [|exact IH2].
    apply preserves_exec; [apply (run_memory_maintained (extends s))|apply extends_refl]. }
  split; [done|]. split; [|done]. intros id i c Hi. by eapply prefix_lookup_Some.
Qed.

(** The scheduler's options are in force as they are: every tunable of a
    constructed scheduler is positive, so the defaults that [DecayAndCompact]
    substitutes for missing options never replace them. *)
Theorem scheduler_options_effective cfg t :
  let gs := NewGovernanceScheduler cfg in
  let o := mkGovernanceOptions (BaseDecayRate (opts gs)) (StaleThreshold (opts gs)) (ArchiveThreshold (opts gs)) t in
  0 < interval gs ∧ with_defaults o t = o.
Proof.
  cbv zeta. assert (∀ x d, or_default d d = d → or_default (if flt f0 x then x else d) d =
    if flt f0 x then x else d) as Hpos.
  { intros x d Hd. destruct (flt f0 x) eqn:E; [|done]. unfold or_default. by rewrite flt_not_fle. }
  destruct cfg as [cfg|]; cbn [NewGovernanceScheduler interval opts]; split.
  - cbn. destruct (Z.ltb_spec 0 (gc_Interval cfg)); [lia|done].
  - unfold with_defaults. cbn. rewrite !Hpos by (vm_compute; reflexivity). done.
  - done.
  - vm_compute. done.
Qed.

(** A tick a day later, and its result. *)
Definition tick_orders : TickOrders :=
  mkTickOrders ["card:a"; "card:b"] (["card:a"; "card:b"], []) (["card:a"; "card:b"], [])
    (λ _, (["card:a"; "card:b"], ["card:a"; "card:b"], [])).
Definition next_day : World :=
  mkWorld (λ n, clock world0 n + 24 * Hour) (faults world0) (entropy world0) 0.
Definition ticked_store : Store :=
  exec (run_memory (tables := caseless_tables) (MTick (NewGovernanceScheduler None) tick_orders)) demo_store next_day.

Lemma history_append_only_witness :
  (length (versions_of demo_store "card:a"), length (versions_of ticked_store "card:a")) = (1%nat, 2%nat) ∧
  versions_of ticked_store "card:a" !! 0%nat = versions_of demo_store "card:a" !! 0%nat ∧
  versions_of demo_store "card:a" !! 0%nat ≠ None.
Proof.
  split; [vm_compute; reflexivity|].
  destruct (history_append_only (H := caseless_tables) demo_store ticked_store demo_store_wf) as (_ & Hv & _).
  { apply rtc_once. exists (MTick (NewGovernanceScheduler None) tick_orders), next_day. exact eq_refl. }
  destruct (versions_of demo_store "card:a" !! 0%nat) as [c|] eqn:E.
  - split; [exact (Hv _ _ _ E)|discriminate].
  - exfalso. apply (f_equal (λ x, match x with Some _ => true | None => false end)) in E.
    vm_compute in E. discriminate E.
Defined.
