(* ===== verification/Procedural.v ===== *)
(** * Extraction of procedures from finished tasks ([internal/memory/procedural.go])

    Finished tasks with the same class, skill, steps and guardrails are grouped
    by a signature; a group that is large enough becomes a candidate card. *)
From S2P Require Import Prelude GoStrings GoNum MemoryTypes Sha1.
From S2P Require Runtime.
Open Scope Z_scope.
Import Runtime (Task, TaskID, State, SelectedSkill, Metadata, TaskStateDone).

Record ProcedureEvidence := mkEvidence {
  Steps : string; Guardrails : string; Summary : string; SuccessSignal : string;
  ArtifactPath : string; ObservationPath : string }.

(** A resolver is a function the caller passes, or nil. *)
Record ProcedureExtractionRequest := mkExtractionRequest {
  Tasks : list Task; TaskClass : string; pe_SelectedSkill : string; pe_Scope : string;
  MinRuns : Z; EvidenceResolver : option (Task → ProcedureEvidence) }.

Record ProcedureExtractionResult := mkExtractionResult {
  Examined : Z; Matched : Z; Candidates : Z; CandidateCards : list string }.

(** [task.Metadata[key]], also of the nil map *)
Definition metadata_at (task : Task) (key : string) : string :=
  default "" (default ∅ (Metadata task) !! key).

Definition resolveProcedureEvidence (task : Task) (resolver : option (Task → ProcedureEvidence))
    : ProcedureEvidence :=
  let own := mkEvidence (TrimSpace (metadata_at task "procedure_steps"))
    (TrimSpace (metadata_at task "procedure_guardrails"))
    (TrimSpace (metadata_at task "procedure_summary"))
    (TrimSpace (metadata_at task "procedure_success_signal")) "" "" in
  match resolver with
  | Some resolve => if blank (Steps (resolve task)) then own else resolve task
  | None => own
  end.

Definition taskProcedureClass (task : Task) : string :=
  match Metadata task with
  | None => ""
  | Some _ => firstNonEmpty [TrimSpace (metadata_at task "procedure_task_class");
                             TrimSpace (metadata_at task "task_class")]
  end.

Definition procedureConfidence (matches : Z) : float64 :=
  let confidence := fadd (lit 65 100) (fmul (of_int (wrap64 (matches - 2))) (lit 1 10)) in
  let confidence := if flt (lit 95 100) confidence then lit 95 100 else confidence in
  if flt confidence (lit 65 100) then lit 65 100 else confidence.

Definition procedureName (taskClass selectedSkill : string) : string :=
  let class := ReplaceAll taskClass " " "_" in
  let skill := ReplaceAll selectedSkill "-" "_" in
  if decide (taskClass ≠ "" ∧ selectedSkill ≠ "") then class +:+ "_" +:+ skill
  else if decide (taskClass ≠ "") then class
  else if decide (selectedSkill ≠ "") then skill
  else "procedure".

Definition proceduralSignature (taskClass selectedSkill steps guardrails : string) : string :=
  Join [TrimSpace taskClass; TrimSpace selectedSkill; TrimSpace steps; TrimSpace guardrails] "|".

Section procedural.
Context {tables : UnicodeTables}.

Definition sanitizeToken (value : string) : string :=
  let value := ToLower (TrimSpace value) in
  if decide (value = "") then "generic" else
  TrimByte (ReplaceBytes (λ a, if decide (a ∈ [" "; "/"; "_"; ":"; "."]%char) then "-" else String a "") value)
    "-"%char.

Definition proceduralCardID (taskClass selectedSkill signature : string) : string :=
  "procedure:" +:+ sanitizeToken (firstNonEmpty [taskClass; selectedSkill; "generic"]) +:+ ":"
  +:+ hex_bytes (take 6 (Sum signature)).

(** [tasks[0]] of a group, which is never empty. *)
Definition buildProcedureCandidate (signature scope : string) (first : Task) (tasks : list Task)
    (resolver : option (Task → ProcedureEvidence)) : CreateCardRequest :=
  let taskClass := taskProcedureClass first in
  let selectedSkill := TrimSpace (SelectedSkill first) in
  let evidence := resolveProcedureEvidence first resolver in
  let steps := TrimSpace (Steps evidence) in
  let guardrails := TrimSpace (Guardrails evidence) in
  let summary := if blank (Summary evidence)
    then "Recommended procedure for " +:+ taskClass +:+ " using "
         +:+ firstNonEmpty [selectedSkill; "runtime"] +:+ "."
    else TrimSpace (Summary evidence) in
  let successSignal := if blank (SuccessSignal evidence)
    then Itoa (Z.of_nat (length tasks)) +:+ " successful runs matched this procedure"
    else TrimSpace (SuccessSignal evidence) in
  let content : gmap string Any := list_to_map [
    ("name", AStr (procedureName taskClass selectedSkill));
    ("task_class", AStr taskClass);
    ("selected_skill", AStr selectedSkill);
    ("summary", AStr summary);
    ("steps", AStr steps);
    ("guardrails", AStr guardrails);
    ("success_signal", AStr successSignal);
    ("supporting_runs", AStrs (TaskID <$> tasks));
    ("artifact_path", AStr (TrimSpace (ArtifactPath evidence)));
    ("observation_path", AStr (TrimSpace (ObservationPath evidence)))] in
  mkCreateCardRequest (proceduralCardID taskClass selectedSkill signature) "procedure" scope
    CardStatusCandidate "" None None None (Some content) None
    (mkProvenance "" "procedure-extractor" (procedureConfidence (Z.of_nat (length tasks)))).

(** The body of the first loop: the signature of a task that takes part. *)
Definition task_signature (req : ProcedureExtractionRequest) (task : Task) : option string :=
  if negb (bool_decide (State task = TaskStateDone)) then None else
  let taskClass := taskProcedureClass task in
  if decide (taskClass = "") then None else
  if negb (blank (TaskClass req)) && negb (bool_decide (taskClass = TrimSpace (TaskClass req))) then None else
  let selectedSkill := TrimSpace (SelectedSkill task) in
  if negb (blank (pe_SelectedSkill req)) && negb (bool_decide (selectedSkill = TrimSpace (pe_SelectedSkill req)))
  then None else
  let evidence := resolveProcedureEvidence task (EvidenceResolver req) in
  let steps := TrimSpace (Steps evidence) in
  if decide (steps = "") then None else
  Some (proceduralSignature taskClass selectedSkill steps (TrimSpace (Guardrails evidence))).

Definition signature_groups (req : ProcedureExtractionRequest) : gmap string (list Task) :=
  foldl (group_add (task_signature req)) ∅ (Tasks req).
Definition min_runs (req : ProcedureExtractionRequest) : Z := if MinRuns req <=? 0 then 2 else MinRuns req.
Definition extraction_scope (req : ProcedureExtractionRequest) : string :=
  if blank (pe_Scope req) then ScopeProject else TrimSpace (pe_Scope req).

(** The body of the second loop: the card of a group, if it is large enough. *)
Definition group_candidate (req : ProcedureExtractionRequest) (signature : string) : option CreateCardRequest :=
  let tasks := default [] (signature_groups req !! signature) in
  if Z.of_nat (length tasks) <? min_runs req then None else
  match tasks with
  | first :: _ => Some (buildProcedureCandidate signature (extraction_scope req) first tasks (EvidenceResolver req))
  | [] => None
  end.

(** [ord] is the order in which the groups are visited. *)
Definition BuildProcedureCandidates (ord : list string) (req : ProcedureExtractionRequest)
    : list CreateCardRequest * ProcedureExtractionResult :=
  let out := omap (group_candidate req) ord in
  (out, mkExtractionResult (Z.of_nat (length (Tasks req)))
    (Z.of_nat (length (filter (λ t, is_Some (task_signature req t)) (Tasks req))))
    (Z.of_nat (length out)) (cc_CardID <$> out)).

(** ** What is extracted *)

Definition card_Content_of (req : CreateCardRequest) : gmap string Any := default ∅ (cc_Content req).

Lemma signature_groups_lookup req k :
  default [] (signature_groups req !! k) = filter (λ t, task_signature req t = Some k) (Tasks req).
Proof. apply group_by_lookup. Qed.

Lemma task_signature_done req t k : task_signature req t = Some k → State t = TaskStateDone.
Proof. unfold task_signature. by case_bool_decide. Qed.

Lemma group_candidate_Some req k card :
  group_candidate req k = Some card ↔
  ∃ first runs, filter (λ t, task_signature req t = Some k) (Tasks req) = first :: runs ∧
    min_runs req <= Z.of_nat (length (first :: runs)) ∧
    card = buildProcedureCandidate k (extraction_scope req) first (first :: runs) (EvidenceResolver req).
Proof.
  unfold group_candidate. rewrite signature_groups_lookup.
  destruct (Z.ltb_spec (Z.of_nat (length (filter (λ t, task_signature req t = Some k) (Tasks req)))) (min_runs req)) as [Hlt|Hge].
  - split; [done|]. intros (first & runs & E & H & _). rewrite E in Hlt. lia.
  - destruct (filter _ _) as [|first runs]; [split; [done|by intros (? & ? & ? & _)]|]. split.
    + intros [= <-]. eauto.
    + intros (f & r & [= <- <-] & _ & ->). done.
Qed.

Lemma candidate_dom req ord k card :
  range_of (signature_groups req) ord → group_candidate req k = Some card → k ∈ ord.
Proof.
  intros [_ Ho] (first & runs & E & _)%group_candidate_Some. apply Ho, elem_of_dom, group_by_dom.
  exists first. assert (first ∈ filter (λ t, task_signature req t = Some k) (Tasks req)) as Hin by (rewrite E; left).
  by apply list_elem_of_filter in Hin as [? ?].
Qed.

(** Extraction is exact: whatever order the groups are visited in, the
    cards are those of the signatures shared by at least the minimum number of
    finished tasks, one per signature; a card is built from its whole group in
    task order and lists the IDs of precisely those runs; the counters agree. *)
Theorem BuildProcedureCandidates_exact ord req :
  range_of (signature_groups req) ord →
  let '(cards, r) := BuildProcedureCandidates ord req in
  (∀ card, card ∈ cards ↔ ∃ k first runs,
     filter (λ t, task_signature req t = Some k) (Tasks req) = first :: runs ∧
     min_runs req <= Z.of_nat (length (first :: runs)) ∧
     card = buildProcedureCandidate k (extraction_scope req) first (first :: runs) (EvidenceResolver req)) ∧
  (∀ ord2, range_of (signature_groups req) ord2 → (BuildProcedureCandidates ord2 req).1 ≡ₚ cards) ∧
  (∀ card, card ∈ cards → ∃ runs, runs ⊆ Tasks req ∧ Forall (λ t, State t = TaskStateDone) runs ∧
     card_Content_of card !! "supporting_runs" = Some (AStrs (TaskID <$> runs)) ∧
     cc_Status card = CardStatusCandidate) ∧
  Candidates r = Z.of_nat (length cards) ∧ CandidateCards r = (cc_CardID <$> cards) ∧
  Examined r = Z.of_nat (length (Tasks req)) ∧
  Matched r = Z.of_nat (length (filter (λ t, is_Some (task_signature req t)) (Tasks req))).
Proof.
  intros Hord. cbn.
  assert (∀ card, card ∈ omap (group_candidate req) ord ↔ ∃ k first runs,
     filter (λ t, task_signature req t = Some k) (Tasks req) = first :: runs ∧
     min_runs req <= Z.of_nat (length (first :: runs)) ∧
     card = buildProcedureCandidate k (extraction_scope req) first (first :: runs) (EvidenceResolver req)) as Hin.
  { intros card. rewrite list_elem_of_omap. split.
    - intros (k & _ & Hk). exists k. by apply group_candidate_Some.
    - intros [k Hk%group_candidate_Some]. exists k. split; [by eapply candidate_dom|done]. }
  split; [exact Hin|]. split; [|split; [|done]].
  - intros ord2 Hord2. apply omap_Permutation. by eapply range_of_Permutation.
  - intros card (k & first & runs & E & _ & ->)%Hin. exists (first :: runs). rewrite <- E.
    split; [intros t; rewrite list_elem_of_filter; tauto|]. split; [|done].
    apply Forall_forall. intros t [Ht _]%list_elem_of_filter. by eapply task_signature_done.
Qed.

(** The confidence of an extracted procedure lies between 0.65 and 0.95
    whatever the number of runs. *)
Theorem procedureConfidence_bounds matches :
  fle (lit 65 100) (procedureConfidence matches) = true ∧
  fle (procedureConfidence matches) (lit 95 100) = true.
Proof.
  unfold procedureConfidence. set (x := fadd _ _).
  assert (is_nan x = false) as Hx.
  { apply fadd_not_nan; [reflexivity| |left; reflexivity].
    destruct (lit 1 10) as [?|?| |s m e] eqn:E; try (vm_compute in E; discriminate E).
    apply fmul_not_nan, of_int_not_nan. }
  destruct (flt (lit 95 100) x) eqn:Hhi; [by vm_compute|].
  destruct (flt x (lit 65 100)) eqn:Hlo; [by vm_compute|].
  split; by apply not_flt_fle.
Qed.

(** The separator of the signature may occur in its parts: two different
    procedures can share a signature and are then merged. *)
Lemma proceduralSignature_ambiguous :
  proceduralSignature "deploy" "shell" "a|b" "" = proceduralSignature "deploy" "shell" "a" "b|".
Proof. reflexivity. Qed.
End procedural.

(** Two finished runs of one procedure, and a failed one. *)
Definition deploy_run (id state : string) : Task :=
  Runtime.mkTask id "deploy" "deploy the service" state 0 0 "" "" "user" false "shell-command" "" ""
    (Some {["task_class" := "deploy"; "procedure_steps" := "build; push"]}).
Definition deploy_request : ProcedureExtractionRequest :=
  mkExtractionRequest [deploy_run "task-1" "done"; deploy_run "task-2" "failed"; deploy_run "task-3" "done"]
    "" "" "" 0 None.
Definition deploy_ord : list string := ["deploy|shell-command|build; push|"].

Lemma BuildProcedureCandidates_exact_witness :
  let '(cards, r) := BuildProcedureCandidates (tables := caseless_tables) deploy_ord deploy_request in
  (∃ card, cards = [card]) ∧ Candidates r = 1 ∧ Matched r = 2 ∧
  ∀ card, card ∈ cards → cc_Status card = CardStatusCandidate.
Proof.
  assert (range_of (signature_groups deploy_request) deploy_ord) as Ho
    by (apply range_of_bool; vm_compute; reflexivity).
  assert (length (BuildProcedureCandidates (tables := caseless_tables) deploy_ord deploy_request).1 = 1%nat) as Hl
    by (vm_compute; reflexivity).
  assert (Matched (BuildProcedureCandidates (tables := caseless_tables) deploy_ord deploy_request).2 = 2) as Hm
    by (vm_compute; reflexivity).
  pose proof (BuildProcedureCandidates_exact (tables := caseless_tables) deploy_ord deploy_request Ho) as H.
  destruct (BuildProcedureCandidates _ _) as [cards r]. destruct H as (_ & _ & Hst & Hc & _ & _ & _).
  cbn in Hl, Hm. split; [|split; [|split]].
  - destruct cards as [|card [|]]; [discriminate Hl|by exists card|discriminate Hl].
  - rewrite Hc, Hl. reflexivity.
  - exact Hm.
  - intros card Hin. destruct (Hst card Hin) as (runs & _ & _ & _ & H). exact H.
Defined.
