(* ===== verification/MemScheduler.v ===== *)
(** * The memory scheduler ([internal/memoryscheduler])

    Decides, after a decay run, whether to submit a memory consolidation task:
    enough candidates, no cooldown running, an idle runtime and no such task
    open.  It spans the memory store, the task runtime and its own state file. *)
From S2P Require Import Prelude GoStrings GoNum MemoryTypes MemoryStore StatusDirs.
From S2P Require Governance Runtime.
Open Scope Z_scope.

(** ** Data *)

Record Config := mkConfig {
  cf_Scope : string; Cooldown : Z; MinCandidates : Z; AllowedCardTypes : list string;
  ExtractProcedures : bool; ProcedureMinRuns : Z }.

Record SchedulerState := mkSchedulerState {
  LastTriggeredAt : option Time; LastReason : string; LastTaskID : string;
  LastCandidateCount : Z; LastSkipReason : string }.

Record Decision := mkDecision {
  Triggered : bool; d_TaskID : string; TaskState : string; d_SelectedSkill : string;
  CandidateCount : Z; SkipReason : string }.

(** The defaults of [New]. *)
Definition New (config : Config) : Config :=
  mkConfig (if blank (cf_Scope config) then ScopeProject else cf_Scope config)
    (if Cooldown config <=? 0 then 5 * Minute else Cooldown config)
    (if MinCandidates config <=? 0 then 1 else MinCandidates config)
    (AllowedCardTypes config) (ExtractProcedures config)
    (if ProcedureMinRuns config <=? 0 then 2 else ProcedureMinRuns config).

(** The two stores, and [state/memory_scheduler.json]. *)
Record System := mkSystem {
  runtime : Runtime.Store; memory : Store; sched_file : gmap unit (File SchedulerState) }.
Definition sched_dir : Lens System (gmap unit (File SchedulerState)) :=
  mkLens sched_file (λ f s, mkSystem (runtime s) (memory s) (f (sched_file s))).

(** Run an operation of one of the stores. *)
Definition with_runtime {A} (m : M Runtime.Store A) : M System A := λ s w,
  match m (runtime s) w with (r, x, w') => (r, mkSystem x (memory s) (sched_file s), w') end.
Definition with_memory {A} (m : M Store A) : M System A := λ s w,
  match m (memory s) w with (r, x, w') => (r, mkSystem (runtime s) x (sched_file s), w') end.

(** ** Operations *)

Definition boolString (value : bool) : string := if value then "true" else "false".
Definition intString (value : Z) : string := if value <=? 0 then "0" else Itoa value.

(** An unreadable state file counts as the zero state. *)
Definition loadState : M System SchedulerState :=
  res ← try (ReadJSON sched_dir tt);
  mret (match res with Ok st => st | Err _ => mkSchedulerState None "" "" 0 "" end).
Definition saveState (state : SchedulerState) : M System unit :=
  if match LastTriggeredAt state with Some t => json_time_ok t | None => true end
  then WriteFile sched_dir tt state else throw EJson.

(** [s.memoryStore.Query(Scope, candidate).Cards] *)
Definition candidate_query (ord : list string) (config : Config) (s : Store) : list Card :=
  Cards (Query ord (mkQueryRequest "" "" (TrimSpace (cf_Scope config)) CardStatusCandidate None) s).

Definition eligibleCandidates (ord : list string) (config : Config) (s : Store) : list Card :=
  let cards := candidate_query ord config s in
  match AllowedCardTypes config with
  | [] => cards
  | types =>
      let allowed := filter (λ t, t ≠ "") (TrimSpace <$> types) in
      filter (λ c, TrimSpace (CardType c) ∈ allowed) cards
  end.

Definition hydrateDecisionFromTaskID (d : Decision) (taskID : string) : M System Decision :=
  if blank taskID then mret d else
  res ← try (with_runtime (Runtime.GetTask (TrimSpace taskID)));
  mret (match res with
    | Ok t => mkDecision (Triggered d) (Runtime.TaskID t) (Runtime.State t) (Runtime.SelectedSkill t)
                (CandidateCount d) (SkipReason d)
    | Err _ => d
    end).

(** A decision not to trigger, with the state that is saved if it can be. *)
Definition skip (d : Decision) (state : SchedulerState) : M System (Decision * option error) :=
  _ ← try (saveState state); mret (d, None).

Definition consolidate_skill : string := "memory-consolidate".
Definition open_states : list string :=
  [Runtime.TaskStateInbox; Runtime.TaskStatePlanned; Runtime.TaskStateActive;
   Runtime.TaskStateAwaitingApproval; Runtime.TaskStateBlocked].
Definition open_consolidation (task : Runtime.Task) : bool :=
  bool_decide (Runtime.SelectedSkill task = consolidate_skill)
  && bool_decide (Runtime.State task ∈ open_states).

Definition consolidation_request (config : Config) (reason : string) : Runtime.CreateTaskRequest :=
  Runtime.mkCreateTaskRequest "Consolidate memory maintenance"
    "Consolidate candidate memory into durable runtime state" "memory-scheduler" "memory-scheduler"
    "" false consolidate_skill
    (Some (list_to_map [
      ("scope", cf_Scope config);
      ("extract_procedures", boolString (ExtractProcedures config));
      ("min_runs", intString (ProcedureMinRuns config));
      ("scheduled_reason", reason)])).

Section scheduler.
Context {tables : UnicodeTables}.
Variables (config : Config).

(** From the task list to the submitted task. *)
Definition submit (d : Decision) (reason : string) : M System (Decision * option error) :=
  tasks ← try (with_runtime Runtime.ListTasks);
  match tasks with
  | Err e => mret (d, Some e)
  | Ok tasks =>
      match List.find open_consolidation tasks with
      | Some task =>
          let reason' := "existing_consolidation_task" in
          skip (mkDecision false (Runtime.TaskID task) (Runtime.State task) (Runtime.SelectedSkill task)
                  (CandidateCount d) reason')
            (mkSchedulerState None reason (Runtime.TaskID task) (CandidateCount d) reason')
      | None =>
          res ← try (with_runtime (Runtime.SubmitTask (consolidation_request config reason)));
          match res with
          | Err e => mret (d, Some e)
          | Ok task =>
              t ← now;
              let d := mkDecision true (Runtime.TaskID task) (Runtime.State task)
                         (Runtime.SelectedSkill task) (CandidateCount d) "" in
              saved ← try (saveState (mkSchedulerState (Some t) reason (Runtime.TaskID task) (CandidateCount d) ""));
              mret (d, match saved with Ok _ => None | Err e => Some e end)
          end
      end
  end.

(** Whether less than the cooldown has passed since the last trigger, if any. *)
Definition cooling_down (state : SchedulerState) : M System bool :=
  match LastTriggeredAt state with
  | None => mret false
  | Some last => t ← now; mret (Sub t last <? Cooldown config)
  end.

(** [gc_ord], [ord] and [ord2] are the orders of the decay run and of the two
    queries. *)
Definition EvaluateAndSchedule (configured : bool) (gc_ord ord ord2 : list string) (reason : string)
    : M System (Decision * option error) :=
  if negb configured then mret (mkDecision false "" "" "" 0 "not_configured", None) else
  _ ← try (with_memory (Governance.DecayAndCompact gc_ord (Governance.mkGovernanceOptions f0 f0 f0 zeroTime)));
  let reason := if blank reason then "manual" else TrimSpace reason in
  s ← get;
  let count := Z.of_nat (length (eligibleCandidates ord config (memory s))) in
  let decision := mkDecision false "" "" "" count in
  if count =? 0 then
    skip (decision "no_eligible_candidates") (mkSchedulerState None reason "" 0 "no_eligible_candidates")
  else if count <? MinCandidates config then
    skip (decision "candidate_threshold") (mkSchedulerState None reason "" count "candidate_threshold")
  else if (length (candidate_query ord2 config (memory s)) =? 0)%nat then
    skip (decision "no_candidates") (mkSchedulerState None reason "" 0 "no_candidates")
  else
  state ← loadState;
  cooling ← cooling_down state;
  if (cooling : bool) then
    d ← hydrateDecisionFromTaskID (decision "cooldown") (LastTaskID state);
    skip d (mkSchedulerState (LastTriggeredAt state) reason (LastTaskID state) count "cooldown")
  else
  runtimeState ← try (with_runtime Runtime.LoadState);
  match runtimeState with
  | Err e => mret (decision "", Some e)
  | Ok rs =>
      match Runtime.ActiveTaskID rs with
      | Some _ => skip (decision "runtime_busy") (mkSchedulerState None reason "" count "runtime_busy")
      | None => submit (decision "") reason
      end
  end.
End scheduler.

(** ** When a task is submitted *)

Lemma skip_run d st s w :
  ∃ s' w', skip d st s w = (Ok (d, None), s', w') ∧ runtime s' = runtime s ∧ memory s' = memory s.
Proof.
  unfold skip, saveState. destruct (match LastTriggeredAt st with Some t => json_time_ok t | None => true end).
  - unfold WriteFile. run. destruct (faults w (tick w)); eexists _, _; split_and!; reflexivity.
  - run. eexists _, _. split_and!; reflexivity.
Qed.

Lemma loadState_run s w :
  ∃ st, loadState s w = (Ok st, s, w) ∧
    ∀ st', sched_file s !! tt = Some (Doc st') → st = st'.
Proof.
  unfold loadState, ReadJSON. run. cbn [view sched_dir].
  destruct (sched_file s !! tt) as [[st|]|]; eexists; (split; [reflexivity|]); intros st'; congruence.
Qed.

Lemma cooling_run config st s w :
  ∃ b w', cooling_down config st s w = (Ok b, s, w') ∧
    (b = false → ∀ last, LastTriggeredAt st = Some last → Cooldown config <= Sub (clock w (tick w)) last).
Proof.
  unfold cooling_down. destruct (LastTriggeredAt st) as [last|]; eexists _, _; (split; [reflexivity|]); [|done].
  intros Hl last' [= <-]. by apply Z.ltb_ge in Hl.
Qed.

Lemma hydrate_run d id s w :
  ∃ d' w', hydrateDecisionFromTaskID d id s w = (Ok d', s, w') ∧ Triggered d' = Triggered d.
Proof.
  unfold hydrateDecisionFromTaskID. destruct (blank id); [by eexists _, _|].
  unfold with_runtime, Runtime.GetTask, Runtime.findTaskLocked. run.
  destruct (find_record _ _ _ _) as [[t p]|e]; eexists _, _; (split; [by destruct s|done]).
Qed.

Lemma ListTasks_run s w :
  ∃ res, Runtime.ListTasks s w = (res, s, w) ∧
    ∀ tasks task, res = Ok tasks →
      task ∈ tasks ↔ ∃ st n, st ∈ Runtime.list_states ∧
        Runtime.task_files s !! (st, n) = Some (Doc task) ∧ HasSuffix n ".json" = true.
Proof.
  unfold Runtime.ListTasks. rewrite !bind_eq. cbn [get]. rewrite bind_eq. unfold lift_result.
  match goal with |- context [read_dirs ?a ?b] => destruct (read_dirs a b) as [ts|e] eqn:Er end.
  - eexists. split; [reflexivity|]. intros tasks task [= <-].
    rewrite merge_sort_Permutation. by apply read_dirs_elem.
  - eexists. split; [reflexivity|]. intros tasks task [=].
Qed.

(** No consolidation task is open in the task store. *)
Definition no_open_consolidation (s : Runtime.Store) : Prop :=
  ∀ st n task, st ∈ Runtime.list_states → Runtime.task_files s !! (st, n) = Some (Doc task) →
    HasSuffix n ".json" = true → open_consolidation task = false.

Lemma submit_run `{UnicodeTables} config d reason s w res s' w' :
  Triggered d = false → submit config d reason s w = (res, s', w') →
  ∃ d' err, res = Ok (d', err) ∧
    (Triggered d' = false → err = None → runtime s' = runtime s) ∧
    (Triggered d' = true → no_open_consolidation (runtime s)).
Proof.
  intros Hd. unfold submit. rewrite bind_eq. unfold try at 1, with_runtime at 1.
  destruct (ListTasks_run (runtime s) w) as (res0 & -> & Hts).
  destruct res0 as [tasks|e]; [|by intros [= <- <- <-]; eexists _, _; rewrite Hd].
  destruct (List.find open_consolidation _) as [task|] eqn:Ef.
  - match goal with |- skip ?d ?st ?x ?y = _ → _ => destruct (skip_run d st x y) as (s1 & w1 & -> & Hr & _) end.
    intros [= <- <- <-]. eexists _, _. split; [done|]. by split.
  - assert (no_open_consolidation (runtime s)) as Hopen.
    { intros st n task Hst Hl Hn. apply (List.find_none _ _ Ef), list_elem_of_In.
      apply (Hts _ _ eq_refl). eauto. }
    rewrite bind_eq. unfold try at 1, with_runtime at 1. cbn [runtime].
    destruct (Runtime.SubmitTask _ _ _) as [[[task|e] rt] w1]; [|by intros [= <- <- <-]; eexists _, _; rewrite Hd].
    rewrite !bind_eq. cbn [now]. rewrite bind_eq. unfold try at 1.
    destruct (saveState _ _ _) as [[saved s2] w2]. intros [= <- <- <-]. eexists _, _.
    split; [done|]. by split.
Qed.

(** C16. The scheduler submits a consolidation task only when one is due: it
    saw at least the configured number of eligible candidates after the decay
    run, no cooldown recorded in its state file was still running, the runtime
    had no active task, and no consolidation task was open.  When it decides
    not to, and reports no error, the task store is exactly as before. *)
Theorem triggers_only_when_due `{UnicodeTables} config configured gc_ord ord ord2 reason s w d err s' w' :
  EvaluateAndSchedule config configured gc_ord ord ord2 reason s w = (Ok (d, err), s', w') →
  (Triggered d = false → err = None → runtime s' = runtime s) ∧
  (Triggered d = true →
   let '(_, mem1, w1) := Governance.DecayAndCompact gc_ord
                           (Governance.mkGovernanceOptions f0 f0 f0 zeroTime) (memory s) w in
   let count := Z.of_nat (length (eligibleCandidates ord config mem1)) in
   0 < count ∧ MinCandidates config <= count ∧
   (∀ st last, sched_file s !! tt = Some (Doc st) → LastTriggeredAt st = Some last →
      Cooldown config <= Sub (clock w1 (tick w1)) last) ∧
   (∃ rs, Runtime.state_file (runtime s) !! tt = Some (Doc rs) ∧ Runtime.ActiveTaskID rs = None) ∧
   no_open_consolidation (runtime s)).
Proof.
  unfold EvaluateAndSchedule. destruct configured; cbn [negb]; [|by intros [= <- <- <- <-]].
  unfold with_memory at 1. run.
  destruct (Governance.DecayAndCompact _ _ _ _) as [[gc mem1] w1]. cbn [memory].
  set (s1 := mkSystem (runtime s) mem1 (sched_file s)). set (count := Z.of_nat _).
  set (rsn := if blank reason then _ else _).
  assert (∀ d0 st0, Triggered d0 = false → skip d0 st0 s1 w1 = (Ok (d, err), s', w') →
    (Triggered d = false → err = None → runtime s' = runtime s) ∧ Triggered d ≠ true) as Hskip.
  { intros d0 st0 H0. destruct (skip_run d0 st0 s1 w1) as (s2 & w2 & -> & Hr & _).
    intros [= <- <- <- <-]. rewrite H0. split; [by intros _ _; rewrite Hr|done]. }
  destruct (Z.eqb_spec count 0) as [Hc0|Hc0]; [intros [Hs Hf]%Hskip; [split; [done|by intros ?%Hf]|done]|].
  destruct (Z.ltb_spec count (MinCandidates config)) as [Hm|Hm]; [intros [Hs Hf]%Hskip; [split; [done|by intros ?%Hf]|done]|].
  destruct (_ =? 0)%nat; [intros [Hs Hf]%Hskip; [split; [done|by intros ?%Hf]|done]|].
  destruct (loadState_run s1 w1) as (st & -> & Hst).
  destruct (cooling_run config st s1 w1) as (cooling & w2 & -> & Hcool). destruct cooling.
  { match goal with |- context [hydrateDecisionFromTaskID ?d0 ?id s1 w2] =>
      destruct (hydrate_run d0 id s1 w2) as (d1 & w3 & -> & Hd1) end.
    destruct (skip_run d1 (mkSchedulerState (LastTriggeredAt st) rsn (LastTaskID st) count "cooldown") s1 w3)
      as (s2 & w4 & -> & Hr & _).
    intros [= <- <- <- <-]. rewrite Hd1. split; [by intros _ _; rewrite Hr|done]. }
  unfold with_runtime at 1, Runtime.LoadState, ReadJSON. run. cbn [view Runtime.state_dir runtime s1].
  destruct (Runtime.state_file (runtime s) !! tt) as [[rs|]|] eqn:Ers; [|by intros [= <- <- <- <-]..].
  destruct (Runtime.ActiveTaskID rs) eqn:Eact.
  { match goal with |- skip ?d0 ?st0 ?x ?y = _ → _ => destruct (skip_run d0 st0 x y) as (s2 & w3 & -> & Hr & _) end.
    intros [= <- <- <- <-]. split; [by intros _ _; rewrite Hr|done]. }
  intros Esub. apply submit_run in Esub as (d' & err' & [= <- <-] & H1 & H2); [|done].
  split; [exact H1|]. intros Ht. split; [lia|]. split; [done|]. split; [|split; [by exists rs|exact (H2 Ht)]].
  intros st' last Hst' Hlast. rewrite (Hst st' Hst') in Hcool. by apply Hcool.
Qed.

(** *** A concrete system *)

#[local] Existing Instance caseless_tables.

Definition one_scope : Config := New (mkConfig "" 0 0 [] true 0).
Definition idle_runtime : Runtime.Store :=
  Runtime.mkStore ∅ {[tt := Doc (Runtime.mkRuntimeState "rt" "u" None "idle" None "user" 0)]}.
Definition triggered_now : SchedulerState := mkSchedulerState (Some (clock world0 0)) "manual" "task-1" 3 "".
(** [demo_store] holds one candidate, of the project scope. *)
Definition due_system : System := mkSystem idle_runtime demo_store ∅.
Definition due_run := EvaluateAndSchedule one_scope true ["card:a"; "card:b"] ["card:a"; "card:b"] ["card:b"; "card:a"].

Lemma triggers_only_when_due_witness :
  ∃ d err s' w', due_run "test" due_system world0 = (Ok (d, err), s', w') ∧
    Triggered d = true ∧ no_open_consolidation (runtime due_system).
Proof.
  destruct (due_run "test" due_system world0) as [[[[d err]|e] s'] w'] eqn:E;
    [|apply (f_equal (λ x, is_ok x.1.1)) in E; vm_compute in E; discriminate E].
  assert (Triggered d = true) as Ht.
  { apply (f_equal (λ x, match x.1.1 with Ok r => Triggered r.1 | Err _ => false end)) in E.
    vm_compute in E. symmetry. exact E. }
  exists d, err, s', w'. split; [reflexivity|]. split; [exact Ht|].
  destruct (triggers_only_when_due _ _ _ _ _ _ _ _ _ _ _ _ E) as [_ H]. specialize (H Ht).
  destruct (Governance.DecayAndCompact _ _ _ _) as [[gc mem1] w1].
  destruct H as (_ & _ & _ & _ & H). exact H.
Defined.

(** A skip for want of candidates forgets when the last task was triggered: a
    second evaluation, two seconds later and far inside the cooldown, submits
    a task as soon as a candidate has turned up. *)
Lemma skip_forgets_cooldown :
  let s1 := mkSystem idle_runtime NewStore {[tt := Doc triggered_now]} in
  let s2 := exec (EvaluateAndSchedule one_scope true [] [] [] "") s1 world0 in
  let s3 := mkSystem (runtime s2) demo_store (sched_file s2) in
  (λ f, match f with Doc st => LastTriggeredAt st | Torn => None end) <$> (sched_file s2 !! tt) = Some None ∧
  match (due_run "test" s3 world0).1.1 with Ok (d, _) => Triggered d | Err _ => false end = true ∧
  match (due_run "test" (mkSystem idle_runtime demo_store {[tt := Doc triggered_now]}) world0).1.1 with
  | Ok (d, _) => SkipReason d | Err _ => "" end = "cooldown".
Proof. vm_compute. done. Qed.
