(* ===== verification/MemOrchestrator.v ===== *)
(** * Memory packets ([internal/memoryorchestrator])

    The bounded packet of notes, tasks and recalled cards a model call is
    given, and the feedback its use sends back to the cards. *)
From S2P Require Import Prelude GoStrings GoNum MemoryTypes MemoryStore Recall.
From S2P Require Runtime.
Open Scope Z_scope.

(** ** Data *)

Record SessionView := mkSessionView {
  sv_Topic : string; FocusTaskID : string; PendingQuestion : string; PendingAction : string;
  LastAssistantAct : string; WorkingRecallIDs : list string; WorkingSources : list string;
  FocusPaths : list string }.
Record TaskRef := mkTaskRef {
  tr_TaskID : string; tr_Title : string; tr_State : string; tr_SelectedSkill : string }.
Record RecallRef := mkRecallRef {
  rf_Source : string; rf_CardID : string; rf_CardType : string; rf_Snippet : string }.
Record Packet := mkPacket {
  RecentTasks : list TaskRef; WorkingNotes : list string; SemanticHits : list RecallRef;
  ProcedureHits : list RecallRef; RecallHits : list RecallRef }.
Record UsageContext := mkUsage { us_TaskClass : string; Outcome : string }.
Record SourcePolicy := mkSourcePolicy { SemanticSources : list string; ProcedureSource : bool }.
Record Quota := mkQuota {
  MaxRecentTasks : Z; MaxWorkingNotes : Z; MaxProcedureHits : Z; MaxSemanticHits : Z;
  MaxWorkingRecallHits : Z; MaxFallbackRecallHits : Z }.

(** [p.IsEmpty()] of a packet that is not nil *)
Definition IsEmpty (p : Packet) : bool :=
  match RecentTasks p, WorkingNotes p, SemanticHits p, ProcedureHits p, RecallHits p with
  | [], [], [], [], [] => true
  | _, _, _, _, _ => false
  end.

Definition DefaultQuota : Quota := mkQuota 3 4 1 3 2 4.
Definition normalizeQuota (q : Quota) : Quota :=
  let d := DefaultQuota in
  let positive (x d : Z) := if x <=? 0 then d else x in
  mkQuota (positive (MaxRecentTasks q) (MaxRecentTasks d))
    (positive (MaxWorkingNotes q) (MaxWorkingNotes d))
    (positive (MaxProcedureHits q) (MaxProcedureHits d))
    (positive (MaxSemanticHits q) (MaxSemanticHits d))
    (positive (MaxWorkingRecallHits q) (MaxWorkingRecallHits d))
    (positive (MaxFallbackRecallHits q) (MaxFallbackRecallHits d)).

(** ** Helpers *)

(** [clipStrings] and [clipTasks] *)
Definition clip_list {A} (values : list A) (limit : Z) : list A :=
  if (limit <=? 0) || (Z.of_nat (length values) <=? limit) then values
  else take (Z.to_nat limit) values.

(** [dedupeStrings], with the strings already emitted. *)
Fixpoint dedupe_go (seen : list string) (values : list string) : list string :=
  match values with
  | [] => []
  | value :: rest =>
      let value := TrimSpace value in
      if decide (value = "" ∨ value ∈ seen) then dedupe_go seen rest
      else value :: dedupe_go (value :: seen) rest
  end.
Definition dedupeStrings : list string → list string := dedupe_go [].

(** [aggregateRecallRefs], on the concatenated groups. *)
Fixpoint aggregate_go (seen : list string) (refs : list RecallRef) : list RecallRef :=
  match refs with
  | [] => []
  | ref :: rest =>
      let key := TrimSpace (rf_CardID ref) in
      if decide (key = "" ∨ key ∈ seen) then aggregate_go seen rest
      else ref :: aggregate_go (key :: seen) rest
  end.
Definition aggregateRecallRefs (groups : list (list RecallRef)) : list RecallRef :=
  aggregate_go [] (mjoin groups).

Definition containsTaskRef (tasks : list TaskRef) (taskID : string) : bool :=
  existsb (λ t, bool_decide (tr_TaskID t = taskID)) tasks.
Definition containsString (values : list string) (needle : string) : bool :=
  existsb (λ v, bool_decide (TrimSpace v = TrimSpace needle)) values.

Definition note (label value : string) : list string :=
  if blank value then [] else [label +:+ TrimSpace value].
Definition workingNotes (state : SessionView) : list string :=
  note "topic: " (sv_Topic state) ++ note "pending question: " (PendingQuestion state)
  ++ note "pending action: " (PendingAction state) ++ note "last assistant act: " (LastAssistantAct state)
  ++ mbind (note "focus path: ") (FocusPaths state).

(** [parts] with [value] trimmed at its end, unless blank or already there. *)
Definition add_cue (parts : list string) (value : string) : list string :=
  let value := TrimSpace value in
  if negb (bool_decide (value = "")) && negb (containsString parts value) then parts ++ [value] else parts.
Definition cueQuery (query : string) (state : SessionView) : string :=
  let parts := if blank query then [] else [TrimSpace query] in
  Join (add_cue (add_cue parts (sv_Topic state)) (PendingQuestion state)) newline.

Fixpoint working_set_go (limit : Z) (ids sources : list string) : list RecallRef :=
  match ids with
  | [] => []
  | cardID :: rest =>
      if limit <=? 0 then [] else
      mkRecallRef (match sources with s :: _ => s | [] => "" end) cardID "" ""
      :: working_set_go (limit - 1) rest (match sources with _ :: r => r | [] => [] end)
  end.
Definition workingSetHits (state : SessionView) (limit : Z) : list RecallRef :=
  working_set_go limit (WorkingRecallIDs state) (WorkingSources state).

(** [None]: no runtime store, a blank ID, or a task that cannot be read. *)
Definition focusTask (tasks : option Runtime.Store) (taskID : string) : option TaskRef :=
  match tasks with
  | Some s =>
      if blank taskID then None else
      match Runtime.find_task s taskID with
      | Ok (t, _) => Some (mkTaskRef (Runtime.TaskID t) (Runtime.Title t) (Runtime.State t) (Runtime.SelectedSkill t))
      | Err _ => None
      end
  | None => None
  end.

(** ** Packets *)

Section packets.
Context {tables : UnicodeTables} {digits : FloatFormat}.

(** What the packet builder reads: the memory, in the orders the calls to
    [Recall] visit its maps (the index is the number of the call), and the
    task store.  [None] is a nil service. *)
Record Sources := mkSources {
  memory : option Store;
  card_ords : nat → list string;
  field_ords : nat → string → list (string * string);
  tasks : option Runtime.Store }.

Definition to_ref (h : Hit) : RecallRef := mkRecallRef (h_Source h) (h_CardID h) (h_CardType h) (h_Snippet h).

(** The [call]-th call of [o.recallHits]; a panic of [Recall] is an error. *)
Definition recallHits (src : Sources) (call : nat) (query : string) (sources : list string) (limit : Z)
    : result (list RecallRef) :=
  match memory src with
  | None => Ok []
  | Some s =>
      if blank query || (limit <=? 0) then Ok [] else
      resp ← Recall (card_ords src call) (field_ords src call) (mkRecallRequest query sources limit) s;
      mret (to_ref <$> Hits resp)
  end.

Definition sourcePolicyForSkill (skill : string) : SourcePolicy :=
  let skill := TrimSpace skill in
  if decide (skill = "web-search") then mkSourcePolicy ["web"] true
  else if decide (skill = "email-inbox") then mkSourcePolicy ["email"] true
  else if decide (skill = "github-issue-search") then mkSourcePolicy ["github"] true
  else mkSourcePolicy ["web"; "email"; "github"] true.

(** [if packet.IsEmpty() { return nil }] *)
Definition nonempty_packet (p : Packet) : option Packet := if IsEmpty p then None else Some p.

Definition BuildFastPacket (quota : Quota) (src : Sources) (state : SessionView) : result (option Packet) :=
  let recent := match focusTask (tasks src) (FocusTaskID state) with
    | Some task => if 0 <? MaxRecentTasks quota then [task] else []
    | None => []
    end in
  procedures ← recallHits src 0 (cueQuery "" state) ["procedure"] (MaxProcedureHits quota);
  semantic ← recallHits src 1 (cueQuery "" state) ["web"; "email"; "github"] (Z.min (MaxSemanticHits quota) 2);
  let working := workingSetHits state (MaxWorkingRecallHits quota) in
  let recalled := match semantic, procedures with
    | [], [] => working
    | _, _ => aggregateRecallRefs [procedures; semantic; working]
    end in
  mret (nonempty_packet (mkPacket recent (clip_list (workingNotes state) (MaxWorkingNotes quota))
                           semantic procedures recalled)).

(** The recent tasks of a task packet: the focus task first, unless listed. *)
Definition recent_tasks (quota : Quota) (focus : option TaskRef) (recentTasks : list TaskRef) : list TaskRef :=
  let recent := clip_list recentTasks (MaxRecentTasks quota) in
  match focus with
  | Some task =>
      if (0 <? MaxRecentTasks quota) && negb (containsTaskRef recent (tr_TaskID task))
      then clip_list (task :: recent) (MaxRecentTasks quota) else recent
  | None => recent
  end.

Definition BuildTaskPacket (quota : Quota) (src : Sources) (query selectedSkill : string)
    (state : SessionView) (recentTasks : list TaskRef) : result (option Packet) :=
  let notes := clip_list (dedupeStrings (workingNotes state)) (MaxWorkingNotes quota) in
  let recent := recent_tasks quota (focusTask (tasks src) (FocusTaskID state)) recentTasks in
  let cue := cueQuery query state in
  let policy := sourcePolicyForSkill selectedSkill in
  procedures ← (if ProcedureSource policy
                then recallHits src 0 cue ["procedure"] (MaxProcedureHits quota) else Ok []);
  semantic ← recallHits src 1 cue (SemanticSources policy) (MaxSemanticHits quota);
  let aggregated := aggregateRecallRefs
    [procedures; semantic; workingSetHits state (MaxWorkingRecallHits quota)] in
  recalled ← match aggregated with
    | [] => recallHits src 2 cue [] (MaxFallbackRecallHits quota)
    | _ => Ok aggregated
    end;
  mret (nonempty_packet (mkPacket recent notes semantic procedures recalled)).

(** ** Feedback *)

Definition normalizeUsageContext (usage : UsageContext) : UsageContext :=
  mkUsage (TrimSpace (ToLower (us_TaskClass usage))) (TrimSpace (ToLower (Outcome usage))).

Definition outcomeFeedbackWeights (outcome : string) : float64 * float64 :=
  let o := TrimSpace (ToLower outcome) in
  if decide (o = Runtime.TaskStateAwaitingApproval ∨ o = Runtime.TaskStateBlocked)
  then (lit 6 10, lit 25 100)
  else if decide (o = Runtime.TaskStateFailed) then (lit 2 10, f0)
  else (f1, f1).

Definition plan_classes : list string := ["task-plan"; "memory-consolidate"].
Definition reply_classes : list string := ["direct_reply"; "followup_reply"].

Definition procedureFeedbackDelta (usage : UsageContext) : float64 * float64 :=
  let '(activationBase, confidenceBase) :=
    if decide (us_TaskClass usage ∈ plan_classes) then (lit 10 100, lit 3 100)
    else if decide (us_TaskClass usage ∈ reply_classes) then (lit 6 100, lit 1 100)
    else (lit 8 100, lit 2 100) in
  let '(activationWeight, confidenceWeight) := outcomeFeedbackWeights (Outcome usage) in
  (fmul activationBase activationWeight, fmul confidenceBase confidenceWeight).

Definition semanticConfidenceDelta (hit : RecallRef) : float64 :=
  if decide (rf_Source hit ∈ ["web"; "email"; "github"]) then lit 1 100 else f0.

Definition semanticFeedbackDelta (hit : RecallRef) (usage : UsageContext) : float64 * float64 :=
  let activationBase :=
    if decide (us_TaskClass usage ∈ plan_classes) then lit 5 100
    else if decide (us_TaskClass usage ∈ reply_classes) then lit 3 100 else lit 4 100 in
  let confidenceBase := semanticConfidenceDelta hit in
  let confidenceBase := if decide (us_TaskClass usage ∈ reply_classes)
    then fmul confidenceBase (lit 5 10) else confidenceBase in
  let '(activationWeight, confidenceWeight) := outcomeFeedbackWeights (Outcome usage) in
  (fmul activationBase activationWeight, fmul confidenceBase confidenceWeight).

(** The feedback of a packet: its procedure hits, then its semantic hits. *)
Definition packet_feedback (packet : Packet) (usage : UsageContext) : list UsageFeedback :=
  let item (delta : RecallRef → float64 * float64) (hit : RecallRef) :=
    if blank (rf_CardID hit) then None
    else Some (mkFeedback (rf_CardID hit) (delta hit).1 (delta hit).2) in
  omap (item (λ _, procedureFeedbackDelta usage)) (ProcedureHits packet)
  ++ omap (item (λ hit, semanticFeedbackDelta hit usage)) (SemanticHits packet).

(** [ord]: the order in which [ApplyFeedback] visits the merged feedback. *)
Definition RecordPacketUse (ord : list string) (packet : option Packet) (usage : UsageContext) : M Store unit :=
  match packet with
  | None => mret tt
  | Some packet => ApplyFeedback ord (packet_feedback packet (normalizeUsageContext usage))
  end.
End packets.

Lemma RecordPacketUse_preserves `{UnicodeTables} ord packet usage : preserves MemoryStore.store_wf (RecordPacketUse ord packet usage).
Proof. unfold RecordPacketUse, ApplyFeedback. preserves_tac. Qed.

(** ** Bounds of a packet *)

Lemma clip_list_length {A} (l : list A) n : 0 < n → Z.of_nat (length (clip_list l n)) <= n.
Proof.
  intros Hn. unfold clip_list. destruct (Z.leb_spec n 0); [lia|]. cbn [orb].
  destruct (Z.leb_spec (Z.of_nat (length l)) n); [done|]. rewrite length_take. lia.
Qed.
Lemma working_set_length limit ids sources :
  Z.of_nat (length (working_set_go limit ids sources)) <= Z.max 0 limit.
Proof.
  revert limit sources. induction ids as [|i ids IH]; intros limit sources; cbn [working_set_go length]; [lia|].
  destruct (Z.leb_spec limit 0); [cbn; lia|]. cbn [length]. specialize (IH (limit - 1)).
  match goal with |- context [working_set_go _ ids ?r] => specialize (IH r) end. lia.
Qed.

Lemma aggregate_go_spec seen refs :
  NoDup (TrimSpace ∘ rf_CardID <$> aggregate_go seen refs) ∧
  Forall (λ r, TrimSpace (rf_CardID r) ≠ "" ∧ TrimSpace (rf_CardID r) ∉ seen) (aggregate_go seen refs) ∧
  aggregate_go seen refs ⊆ refs ∧ (length (aggregate_go seen refs) ≤ length refs)%nat.
Proof.
  revert seen. induction refs as [|r refs IH]; intros seen; cbn [aggregate_go].
  { split; [constructor|]. split; [constructor|]. split; [done|lia]. }
  case_decide as Hd.
  - destruct (IH seen) as (H1 & H2 & H3 & H4). split; [done|]. split; [done|].
    split; [intros x Hx; right; by apply H3|cbn; lia].
  - destruct (IH (TrimSpace (rf_CardID r) :: seen)) as (H1 & H2 & H3 & H4).
    rewrite Forall_forall in H2. split; [|split; [|split]].
    + rewrite fmap_cons. constructor; [|done]. intros (x & Hx & Hin)%list_elem_of_fmap.
      destruct (H2 x Hin) as [_ Hn]. apply Hn. cbn in Hx. rewrite Hx. left.
    + constructor; [tauto|]. apply Forall_forall. intros x Hx. destruct (H2 x Hx) as [? Hn].
      split; [done|]. intros ?. apply Hn. by right.
    + intros x [->|Hx]%elem_of_cons; [left|right; by apply H3].
    + cbn. lia.
Qed.

(** The references of a packet, one per card. *)
Definition distinct_refs (refs : list RecallRef) : Prop :=
  NoDup (TrimSpace ∘ rf_CardID <$> refs) ∧ Forall (λ r, blank (rf_CardID r) = false) refs.
Lemma aggregate_distinct groups : distinct_refs (aggregateRecallRefs groups).
Proof.
  destruct (aggregate_go_spec [] (mjoin groups)) as (H1 & H2 & _). split; [exact H1|].
  eapply Forall_impl; [exact H2|]. intros r [Hr _]. by apply bool_decide_eq_false.
Qed.
Lemma aggregate_length groups :
  Z.of_nat (length (aggregateRecallRefs groups)) <= Z.of_nat (sum_list_with length groups).
Proof.
  unfold aggregateRecallRefs. destruct (aggregate_go_spec [] (mjoin groups)) as (_ & _ & _ & Hl).
  assert (length (mjoin groups) = sum_list_with length groups) as <-; [|lia].
  clear Hl. induction groups as [|g gs IH]; [done|]. cbn. rewrite length_app. by f_equal.
Qed.

Section packet_bounds.
Context {tables : UnicodeTables} {digits : FloatFormat}.

(** Source names as the program writes them. *)
Definition canonical (s : string) : Prop := TrimSpace (ToLower s) = s ∧ s ≠ "".
Lemma canonical_allowed l source :
  l ≠ [] → Forall canonical l → allowed (normalizeSources l) source = true → source ∈ l.
Proof.
  intros Hne Hl. unfold normalizeSources.
  assert (filter (λ s, s ≠ "") ((λ s, TrimSpace (ToLower s)) <$> l) = l) as ->.
  { clear Hne. induction Hl as [|s l [Hs Hn] Hl IH]; [done|]. cbn [fmap list_fmap].
    rewrite Hs, filter_cons, decide_True by done. by f_equal. }
  case_decide as He.
  - exfalso. apply Hne. destruct l as [|s l]; [done|]. cbn in He. set_solver.
  - intros H%bool_decide_eq_true. by apply elem_of_list_to_set in H.
Qed.
Lemma policy_canonical skill :
  SemanticSources (sourcePolicyForSkill skill) ≠ [] ∧ Forall canonical (SemanticSources (sourcePolicyForSkill skill)) ∧
  "procedure" ∉ SemanticSources (sourcePolicyForSkill skill).
Proof.
  unfold sourcePolicyForSkill. repeat case_decide; cbn; (split; [done|]); (split; [|set_solver]);
    repeat (constructor; [by split|]); constructor.
Qed.

Lemma recallHits_ok src call query sources limit refs :
  recallHits src call query sources limit = Ok refs →
  Z.of_nat (length refs) <= Z.max 0 limit ∧
  (sources ≠ [] → Forall canonical sources → Forall (λ r, rf_Source r ∈ sources) refs).
Proof.
  unfold recallHits. destruct (memory src) as [s|]; [|by intros [= <-]; split; [cbn; lia|constructor]].
  destruct (blank query || (limit <=? 0)) eqn:Hb; [by intros [= <-]; split; [cbn; lia|constructor]|].
  apply orb_false_iff in Hb as [_ Hlim%Z.leb_gt].
  intros (resp & E & [= <-])%result_bind_Ok. rewrite length_fmap. split.
  - apply Recall_length in E. revert E. unfold recall_limit. cbn [rr_Limit].
    destruct (Z.leb_spec limit 0); lia.
  - intros Hne Hcan. apply Forall_fmap, Forall_forall. intros h Hh. cbn.
    destruct (Recall_hit _ _ _ _ _ _ E Hh) as (_ & _ & _ & Ha). by apply canonical_allowed in Ha.
Qed.

(** The bounds every packet obeys, for the semantic sources [sem]. *)
Definition packet_ok (q : Quota) (sem : list string) (p : Packet) : Prop :=
  IsEmpty p = false ∧
  Z.of_nat (length (RecentTasks p)) <= MaxRecentTasks q ∧
  Z.of_nat (length (WorkingNotes p)) <= MaxWorkingNotes q ∧
  Z.of_nat (length (ProcedureHits p)) <= MaxProcedureHits q ∧
  Z.of_nat (length (SemanticHits p)) <= MaxSemanticHits q ∧
  Forall (λ r, rf_Source r = "procedure") (ProcedureHits p) ∧
  Forall (λ r, rf_Source r ∈ sem) (SemanticHits p).
Definition quota_ok (q : Quota) : Prop :=
  0 < MaxRecentTasks q ∧ 0 < MaxWorkingNotes q ∧ 0 < MaxProcedureHits q ∧ 0 < MaxSemanticHits q ∧
  0 < MaxWorkingRecallHits q ∧ 0 < MaxFallbackRecallHits q.

Lemma normalizeQuota_ok q : quota_ok (normalizeQuota q).
Proof.
  unfold quota_ok, normalizeQuota. cbn.
  repeat match goal with |- context [?x <=? 0] => destruct (Z.leb_spec x 0) end; lia.
Qed.

Lemma nonempty_packet_Some p p' : nonempty_packet p = Some p' → p' = p ∧ IsEmpty p = false.
Proof. unfold nonempty_packet. destruct (IsEmpty p) eqn:E; [done|]. by intros [= <-]. Qed.
Lemma procedure_sources refs : Forall (λ r, rf_Source r ∈ ["procedure"]) refs → Forall (λ r, rf_Source r = "procedure") refs.
Proof. intros H. eapply Forall_impl; [exact H|]. by intros r ?%list_elem_of_singleton. Qed.
Lemma canonical_names : Forall canonical ["procedure"] ∧ Forall canonical ["web"; "email"; "github"].
Proof. split; repeat (constructor; [by split|]); constructor. Qed.

Lemma recent_tasks_length q focus recent :
  0 < MaxRecentTasks q → Z.of_nat (length (recent_tasks q focus recent)) <= MaxRecentTasks q.
Proof.
  intros Hq. unfold recent_tasks. destruct focus; [|by apply clip_list_length].
  destruct (_ && _); by apply clip_list_length.
Qed.

Lemma task_packet_bounded q src query skill state recent p :
  quota_ok q → BuildTaskPacket q src query skill state recent = Ok (Some p) →
  packet_ok q (SemanticSources (sourcePolicyForSkill skill)) p ∧
  ((distinct_refs (RecallHits p) ∧
    Z.of_nat (length (RecallHits p)) <= MaxProcedureHits q + MaxSemanticHits q + MaxWorkingRecallHits q) ∨
   Z.of_nat (length (RecallHits p)) <= MaxFallbackRecallHits q).
Proof.
  intros (Q1 & Q2 & Q3 & Q4 & Q5 & Q6). unfold BuildTaskPacket. cbv zeta.
  destruct (policy_canonical skill) as (Hne & Hcan & _). destruct canonical_names as [Hproc _].
  assert (ProcedureSource (sourcePolicyForSkill skill) = true) as ->
    by (unfold sourcePolicyForSkill; by repeat case_decide).
  intros (ps & Ep & (ss & Es & (rs & Er & Hp)%result_bind_Ok)%result_bind_Ok)%result_bind_Ok.
  injection Hp as Hp. apply nonempty_packet_Some in Hp as [-> He].
  apply recallHits_ok in Ep as [P1 P2], Es as [S1 S2].
  specialize (P2 ltac:(done) Hproc). specialize (S2 Hne Hcan). split.
  - unfold packet_ok. cbn. split; [exact He|]. split; [by apply recent_tasks_length|].
    split; [by apply clip_list_length|]. split; [lia|]. split; [lia|]. split; [by apply procedure_sources|done].
  - pose proof (aggregate_distinct [ps; ss; workingSetHits state (MaxWorkingRecallHits q)]) as Hd.
    pose proof (aggregate_length [ps; ss; workingSetHits state (MaxWorkingRecallHits q)]) as Hl.
    pose proof (working_set_length (MaxWorkingRecallHits q) (WorkingRecallIDs state) (WorkingSources state)) as Hw.
    cbn [sum_list_with] in Hl. unfold workingSetHits in *. cbn [RecallHits].
    destruct (aggregateRecallRefs _) as [|r refs] eqn:Ea.
    + right. apply recallHits_ok in Er as [R1 _]. lia.
    + left. injection Er as <-. split; [exact Hd|lia].
Qed.

Lemma fast_packet_bounded q src state p :
  quota_ok q → BuildFastPacket q src state = Ok (Some p) →
  packet_ok q ["web"; "email"; "github"] p ∧
  Z.of_nat (length (RecallHits p)) <= MaxProcedureHits q + MaxSemanticHits q + MaxWorkingRecallHits q.
Proof.
  intros (Q1 & Q2 & Q3 & Q4 & Q5 & Q6). unfold BuildFastPacket. cbv zeta. destruct canonical_names as [Hproc Hsem].
  intros (ps & Ep & (ss & Es & Hp)%result_bind_Ok)%result_bind_Ok.
  injection Hp as Hp. apply nonempty_packet_Some in Hp as [-> He].
  apply recallHits_ok in Ep as [P1 P2], Es as [S1 S2].
  specialize (P2 ltac:(done) Hproc). specialize (S2 ltac:(done) Hsem). split.
  - unfold packet_ok. cbn. split; [exact He|]. split.
    { destruct (focusTask _ _); [|cbn; lia]. destruct (0 <? _); cbn; lia. }
    split; [by apply clip_list_length|]. split; [lia|]. split; [lia|]. split; [by apply procedure_sources|done].
  - pose proof (aggregate_length [ps; ss; workingSetHits state (MaxWorkingRecallHits q)]) as Hl.
    pose proof (working_set_length (MaxWorkingRecallHits q) (WorkingRecallIDs state) (WorkingSources state)) as Hw.
    cbn [sum_list_with] in Hl. unfold workingSetHits in *. cbn [RecallHits].
    destruct ss as [|x ss]; [destruct ps as [|y ps]|]; lia.
Qed.

(** C17. Memory packets are bounded: with the normalized quota a packet holds at
    most its quota of tasks, notes, procedure and semantic hits; procedure hits
    come from procedures and semantic hits from the sources of the skill's
    policy, which never include procedures; the combined hits name each card
    once and number at most the sum of the quotas, or are the fallback. *)
Theorem packets_bounded q0 src query skill state recent p :
  let q := normalizeQuota q0 in
  (BuildTaskPacket q src query skill state recent = Ok (Some p) →
   packet_ok q (SemanticSources (sourcePolicyForSkill skill)) p ∧
   "procedure" ∉ SemanticSources (sourcePolicyForSkill skill) ∧
   ((distinct_refs (RecallHits p) ∧
     Z.of_nat (length (RecallHits p)) <= MaxProcedureHits q + MaxSemanticHits q + MaxWorkingRecallHits q) ∨
    Z.of_nat (length (RecallHits p)) <= MaxFallbackRecallHits q)) ∧
  (BuildFastPacket q src state = Ok (Some p) →
   packet_ok q ["web"; "email"; "github"] p ∧
   Z.of_nat (length (RecallHits p)) <= MaxProcedureHits q + MaxSemanticHits q + MaxWorkingRecallHits q).
Proof.
  cbv zeta. pose proof (normalizeQuota_ok q0) as Hq. split.
  - intros E. destruct (task_packet_bounded _ _ _ _ _ _ _ Hq E) as [H1 H2].
    split; [done|]. split; [apply policy_canonical|done].
  - by apply fast_packet_bounded.
Qed.
End packet_bounds.

(** ** Bounds of the feedback *)

Definition within (lo hi x : float64) : Prop := fle lo x = true ∧ fle x hi = true.

Section feedback.
Context {tables : UnicodeTables}.

Lemma procedure_delta_within usage :
  within f0 (lit 1 10) (procedureFeedbackDelta usage).1 ∧ within f0 (lit 3 100) (procedureFeedbackDelta usage).2.
Proof.
  unfold procedureFeedbackDelta, outcomeFeedbackWeights.
  repeat case_decide; cbn [fst snd]; vm_compute; done.
Qed.
Lemma semantic_delta_within hit usage :
  within f0 (lit 1 10) (semanticFeedbackDelta hit usage).1 ∧ within f0 (lit 3 100) (semanticFeedbackDelta hit usage).2.
Proof.
  unfold semanticFeedbackDelta, semanticConfidenceDelta, outcomeFeedbackWeights.
  repeat case_decide; cbn [fst snd]; vm_compute; done.
Qed.

(** The cards a packet names. *)
Definition packet_cards (p : Packet) : list string :=
  (TrimSpace ∘ rf_CardID) <$> (ProcedureHits p ++ SemanticHits p).

Lemma packet_feedback_elem p usage item :
  item ∈ packet_feedback p usage →
  TrimSpace (fb_CardID item) ∈ packet_cards p ∧ TrimSpace (fb_CardID item) ≠ "" ∧
  within f0 (lit 1 10) (ActivationDelta item) ∧ within f0 (lit 3 100) (ConfidenceDelta item).
Proof.
  unfold packet_feedback, packet_cards. rewrite elem_of_app, !list_elem_of_omap.
  intros [(hit & Hin & E)|(hit & Hin & E)]; destruct (blank (rf_CardID hit)) eqn:Hb; try done;
    injection E as <-; cbn; (split; [apply list_elem_of_fmap; exists hit; split; [done|]; apply elem_of_app; tauto|]);
    (split; [by unfold blank in Hb; apply bool_decide_eq_false in Hb|]).
  - apply procedure_delta_within.
  - apply semantic_delta_within.
Qed.

Lemma merged_keys fb k item :
  foldl merge_feedback ∅ fb !! k = Some item → fb_CardID item = k ∧ ∃ x, x ∈ fb ∧ TrimSpace (fb_CardID x) = k.
Proof.
  induction fb as [|x fb IH] using rev_ind; cbn; [done|]. rewrite foldl_app. cbn. unfold merge_feedback at 1.
  cbv zeta. setoid_rewrite elem_of_app. case_decide; [intros (H1 & y & H2 & H3)%IH; eauto|].
  intros [[<- <-]|[_ (H1 & y & H2 & H3)%IH]]%lookup_insert_Some; [|eauto].
  split; [done|]. exists x. split; [right; by apply list_elem_of_singleton|done].
Qed.

Lemma TouchCard_other id' id da dc s0 :
  id' ≠ id → preserves (λ s, versions_of s id = versions_of s0 id) (TouchCard id' da dc).
Proof.
  intros Hne s w Hs. edestruct (TouchCard_run id' da dc s w) as (r & s' & w' & -> & H).
  destruct (blank id'); [by destruct H as [_ ->]|].
  destruct (last (versions_of s id')); [|by destruct H as [_ ->]].
  destruct H as (Hm & _). injection Hm as Hc _ _. unfold versions_of in *. rewrite Hc.
  by rewrite lookup_insert_ne.
Qed.

(** Feedback is bounded and local: using a packet raises the activation of
    a card by at most 0.1 and its confidence by at most 0.03 per hit, never
    lowers them, and touches no card the packet does not name; a packet that
    was not built has no effect. *)
Theorem feedback_bounded ord packet usage s w :
  (∀ p item, packet = Some p → item ∈ packet_feedback p (normalizeUsageContext usage) →
     TrimSpace (fb_CardID item) ∈ packet_cards p ∧
     within f0 (lit 1 10) (ActivationDelta item) ∧ within f0 (lit 3 100) (ConfidenceDelta item)) ∧
  (∀ id, (∀ p, packet = Some p → id ∉ packet_cards p) →
     versions_of (exec (RecordPacketUse ord packet usage) s w) id = versions_of s id).
Proof.
  split.
  - intros p item _ (H1 & _ & H2 & H3)%packet_feedback_elem. done.
  - intros id Hid. apply (preserves_exec (λ s', versions_of s' id = versions_of s id)); [|done].
    destruct packet as [p|]; cbn [RecordPacketUse]; [|apply preserves_ret].
    unfold ApplyFeedback. cbv zeta. apply preserves_forM. intros k.
    destruct (foldl merge_feedback _ _ !! k) as [item|] eqn:E; [|apply preserves_ret].
    apply merged_keys in E as (Hk & x & Hx & Hkx).
    apply preserves_bind; [|intros; apply preserves_ret]. apply TouchCard_other. rewrite Hk, <- Hkx.
    intros <-. apply (Hid p eq_refl). by apply packet_feedback_elem in Hx as [? _].
Qed.
End feedback.

(** ** Packets of a small memory *)

#[local] Existing Instances caseless_tables no_digits.

Definition packet_src : Sources :=
  mkSources (Some web_store) (λ _, web_ord1) (λ _, web_fields web_store false) None.
Definition packet_state : SessionView :=
  mkSessionView "golang release" "" "" "" "" ["web:1"; "web:9"] ["web"] [].
Definition packet_task : Packet :=
  match BuildTaskPacket DefaultQuota packet_src "golang" "web-search" packet_state [] with
  | Ok (Some p) => p
  | _ => mkPacket [] [] [] [] []
  end.
Lemma packet_task_built :
  BuildTaskPacket (normalizeQuota DefaultQuota) packet_src "golang" "web-search" packet_state [] = Ok (Some packet_task).
Proof. vm_compute. reflexivity. Qed.

Lemma packets_bounded_witness :
  IsEmpty packet_task = false ∧ Z.of_nat (length (SemanticHits packet_task)) <= 3.
Proof.
  destruct (packets_bounded DefaultQuota packet_src "golang" "web-search" packet_state [] packet_task) as [H _].
  destruct (H packet_task_built) as ((He & _ & _ & _ & Hs & _) & _). split; [exact He|exact Hs].
Defined.
Lemma packet_task_cards : "web:none" ∉ packet_cards packet_task.
Proof. apply (bool_decide_eq_true_1 ("web:none" ∉ packet_cards packet_task)). vm_compute. reflexivity. Qed.

Lemma feedback_bounded_witness :
  versions_of (exec (RecordPacketUse [] (Some packet_task) (mkUsage "task-plan" "")) web_store world0) "web:none"
  = versions_of web_store "web:none".
Proof.
  destruct (feedback_bounded [] (Some packet_task) (mkUsage "task-plan" "") web_store world0) as [_ H].
  apply H. intros p Hp. rewrite <- (Some_inj _ _ Hp). exact packet_task_cards.
Defined.
