(* ===== verification/GoText.v ===== *)
(** * Go text: runes, regular expressions, splitting

    What the chat, skill and harness components use of [unicode/utf8],
    [regexp] and [strings] beyond [GoStrings]: conversion between bytes and
    runes, full matches of regular expressions over runes, cutting and
    splitting. *)
From S2P Require Import Prelude GoStrings.
Open Scope Z_scope.

(** ** Runes *)

Definition RuneError : Z := 65533.

Definition bz (a : ascii) : Z := Z.of_nat (nat_of_ascii a).
Definition cont (a : ascii) : bool := (128 <=? bz a) && (bz a <=? 191).
Definition low6 (a : ascii) : Z := bz a - 128.
(** The bytes that may start a sequence of 2, 3, 4 bytes. *)
Definition lead2 (a b : ascii) : bool := (194 <=? bz a) && (bz a <=? 223) && cont b.
Definition lead3 (a b : ascii) : bool :=
  (224 <=? bz a) && (bz a <=? 239) && cont b
  && (if bz a =? 224 then 160 <=? bz b else true) && (if bz a =? 237 then bz b <=? 159 else true).
Definition lead4 (a b : ascii) : bool :=
  (240 <=? bz a) && (bz a <=? 244) && cont b
  && (if bz a =? 240 then 144 <=? bz b else true) && (if bz a =? 244 then bz b <=? 143 else true).

(** [[]rune(s)]: a byte that starts no valid sequence is [RuneError]. *)
Fixpoint runes (s : string) : list Z :=
  match s with
  | "" => []
  | String a s1 =>
      let n := bz a in
      if n <? 128 then n :: runes s1 else
      match s1 with
      | "" => [RuneError]
      | String b s2 =>
          if lead2 a b then ((n - 192) * 64 + low6 b) :: runes s2 else
          match s2 with
          | "" => RuneError :: runes s1
          | String c s3 =>
              if lead3 a b && cont c then (((n - 224) * 64 + low6 b) * 64 + low6 c) :: runes s3 else
              match s3 with
              | "" => RuneError :: runes s1
              | String d s4 =>
                  if lead4 a b && cont c && cont d
                  then ((((n - 240) * 64 + low6 b) * 64 + low6 c) * 64 + low6 d) :: runes s4
                  else RuneError :: runes s1
              end
          end
      end
  end.

Definition rune_ok (r : Z) : bool :=
  ((0 <=? r) && (r <? 55296)) || ((57344 <=? r) && (r <? 1114112)).
Definition zbyte (z : Z) : ascii := ascii_of_nat (Z.to_nat z).
(** The UTF-8 encoding of a rune that is a Unicode scalar value. *)
Definition encode_rune (r : Z) : string :=
  let tail (x : Z) := zbyte (128 + x mod 64) in
  if r <? 128 then String (zbyte r) ""
  else if r <? 2048 then String (zbyte (192 + r / 64)) (String (tail r) "")
  else if r <? 65536 then
    String (zbyte (224 + r / 64 / 64)) (String (tail (r / 64)) (String (tail r) ""))
  else String (zbyte (240 + r / 64 / 64 / 64)) (String (tail (r / 64 / 64))
    (String (tail (r / 64)) (String (tail r) ""))).
(** [string(rs)] *)
Definition of_runes (rs : list Z) : string :=
  foldr (λ r s, encode_rune (if rune_ok r then r else RuneError) +:+ s) "" rs.

(** [len([]rune(s))] *)
Definition RuneCount (s : string) : Z := Z.of_nat (length (runes s)).
(** [strings.ContainsAny] *)
Definition ContainsAny (s chars : string) : bool := existsb (λ r, bool_decide (r ∈ runes chars)) (runes s).

(** ** Substrings *)

(** [strings.TrimPrefix], [strings.TrimSuffix] *)
Definition TrimPrefix (s pre : string) : string := if HasPrefix s pre then drop_bytes (len pre) s else s.
Definition TrimSuffix (s suf : string) : string := if HasSuffix s suf then take_bytes (len s - len suf) s else s.
(** [strings.Count(s, c)] for a one-byte [c] *)
Fixpoint CountByte (s : string) (c : ascii) : Z :=
  match s with "" => 0 | String a r => (if decide (a = c) then 1 else 0) + CountByte r c end.
(** [strings.Index], -1 when absent *)
Definition Index (s sub : string) : Z :=
  match String.index 0 sub s with Some n => Z.of_nat n | None => -1 end.
(** [strings.Cut(s, sep)] *)
Definition Cut (s sep : string) : option (string * string) :=
  match String.index 0 sep s with
  | Some n => Some (take_bytes n s, drop_bytes (n + len sep) s)
  | None => None
  end.
(** [strings.Split(s, c)] for a one-byte separator *)
Fixpoint SplitByte (c : ascii) (s : string) : list string :=
  match s with
  | "" => [""]
  | String a r =>
      if decide (a = c) then "" :: SplitByte c r
      else match SplitByte c r with [] => [String a ""] | p :: ps => String a p :: ps end
  end.
(** [strings.Replace(s, old, new, 1)] for a nonempty [old] *)
Definition Replace1 (s old new : string) : string :=
  match Cut s old with Some (p, q) => p +:+ new +:+ q | None => s end.
(** [strings.Trim], [strings.TrimLeft], [strings.TrimRight] for an ASCII cutset *)
Fixpoint TrimLeftSet (s : string) (cutset : list ascii) : string :=
  match s with
  | "" => ""
  | String a r => if decide (a ∈ cutset) then TrimLeftSet r cutset else s
  end.
Definition TrimRightSet (s : string) (cutset : list ascii) : string :=
  String.rev (TrimLeftSet (String.rev s) cutset).
Definition TrimSet (s : string) (cutset : list ascii) : string := TrimRightSet (TrimLeftSet s cutset) cutset.

(** [strings.EqualFold(s, t)] where [t] is ASCII without [k] and [s], the
    letters that fold to a rune outside ASCII. *)
Definition EqualFold (s t : string) : bool := bool_decide (map_bytes lower_byte s = map_bytes lower_byte t).

Definition newline : string := String (byte 10) "".
Definition dquote : string := String (byte 34) "".

(** [filepath.Ext] of a name without slashes: from the last dot on. *)
Definition Ext (name : string) : string :=
  match String.index 0 "." (String.rev name) with
  | Some n => drop_bytes (len name - n - 1) name
  | None => ""
  end.

(** ** Regular expressions

    The expressions the program anchors at both ends, so that [MatchString]
    asks for a match of the whole text; over runes, with classes as lists of
    ranges. *)
Inductive re :=
  | REmpty | REps | RClass (ranges : list (Z * Z)) | RCat (r1 r2 : re) | RAlt (r1 r2 : re) | RStar (r : re).

Definition in_class (ranges : list (Z * Z)) (c : Z) : bool := existsb (λ p, (p.1 <=? c) && (c <=? p.2)) ranges.

Inductive re_lang : re → list Z → Prop :=
  | lang_eps : re_lang REps []
  | lang_class ranges c : in_class ranges c = true → re_lang (RClass ranges) [c]
  | lang_cat r1 r2 l1 l2 : re_lang r1 l1 → re_lang r2 l2 → re_lang (RCat r1 r2) (l1 ++ l2)
  | lang_left r1 r2 l : re_lang r1 l → re_lang (RAlt r1 r2) l
  | lang_right r1 r2 l : re_lang r2 l → re_lang (RAlt r1 r2) l
  | lang_nil r : re_lang (RStar r) []
  | lang_more r l1 l2 : re_lang r l1 → re_lang (RStar r) l2 → re_lang (RStar r) (l1 ++ l2).

Fixpoint nullable (r : re) : bool :=
  match r with
  | REmpty | RClass _ => false
  | REps | RStar _ => true
  | RCat r1 r2 => nullable r1 && nullable r2
  | RAlt r1 r2 => nullable r1 || nullable r2
  end.
Fixpoint deriv (c : Z) (r : re) : re :=
  match r with
  | REmpty | REps => REmpty
  | RClass ranges => if in_class ranges c then REps else REmpty
  | RCat r1 r2 =>
      if nullable r1 then RAlt (RCat (deriv c r1) r2) (deriv c r2) else RCat (deriv c r1) r2
  | RAlt r1 r2 => RAlt (deriv c r1) (deriv c r2)
  | RStar r1 => RCat (deriv c r1) (RStar r1)
  end.
Fixpoint re_match (r : re) (l : list Z) : bool :=
  match l with [] => nullable r | c :: l => re_match (deriv c r) l end.

(** Notations of the expressions: a literal, [r?], [r+], [r{0,n}]. *)
Definition RLit (s : string) : re := foldr (λ c r, RCat (RClass [(c, c)]) r) REps (runes s).
Definition RLits (l : list string) : re := foldr (λ s r, RAlt (RLit s) r) REmpty l.
Definition ROpt (r : re) : re := RAlt REps r.
Definition RPlus (r : re) : re := RCat r (RStar r).
Fixpoint RUpTo (n : nat) (r : re) : re := match n with O => REps | S n => ROpt (RCat r (RUpTo n r)) end.

(** ** Lemmas *)

Lemma bz_zbyte z : 0 <= z < 256 → bz (zbyte z) = z.
Proof. intros H. unfold bz, zbyte. rewrite nat_ascii_embedding by lia. lia. Qed.
Lemma bz_range a : 0 <= bz a < 256.
Proof. unfold bz. pose proof (nat_ascii_bounded a). lia. Qed.

(** The byte tests on the bytes an encoding is made of. *)
Lemma lead2_high a b : 224 <= bz a → lead2 a b = false.
Proof. intros H. unfold lead2. rewrite (proj2 (Z.leb_gt (bz a) 223)) by lia. by rewrite andb_false_r. Qed.
Lemma lead3_high a b : 240 <= bz a → lead3 a b = false.
Proof. intros H. unfold lead3. rewrite (proj2 (Z.leb_gt (bz a) 239)) by lia. by rewrite andb_false_r. Qed.
Lemma cont_tail m : 0 <= m < 64 → cont (zbyte (128 + m)) = true ∧ low6 (zbyte (128 + m)) = m ∧ bz (zbyte (128 + m)) = 128 + m.
Proof.
  intros H. unfold cont, low6. rewrite !bz_zbyte by lia. split; [|lia].
  by rewrite (proj2 (Z.leb_le 128 _)), (proj2 (Z.leb_le _ 191)) by lia.
Qed.
Lemma lead2_intro a b : 194 <= bz a <= 223 → cont b = true → lead2 a b = true.
Proof. intros H Hb. unfold lead2. rewrite Hb. by rewrite !(proj2 (Z.leb_le _ _)) by lia. Qed.
Lemma lead3_intro a b :
  224 <= bz a <= 239 → cont b = true → (bz a = 224 → 160 <= bz b) → (bz a = 237 → bz b <= 159) → lead3 a b = true.
Proof.
  intros H Hb H1 H2. unfold lead3. rewrite Hb. rewrite (proj2 (Z.leb_le 224 _)), (proj2 (Z.leb_le _ 239)) by lia.
  destruct (Z.eqb_spec (bz a) 224); destruct (Z.eqb_spec (bz a) 237); try lia; cbn [andb]; rewrite ?andb_true_r;
    first [done|apply Z.leb_le; lia].
Qed.
Lemma lead4_intro a b :
  240 <= bz a <= 244 → cont b = true → (bz a = 240 → 144 <= bz b) → (bz a = 244 → bz b <= 143) → lead4 a b = true.
Proof.
  intros H Hb H1 H2. unfold lead4. rewrite Hb. rewrite (proj2 (Z.leb_le 240 _)), (proj2 (Z.leb_le _ 244)) by lia.
  destruct (Z.eqb_spec (bz a) 240); destruct (Z.eqb_spec (bz a) 244); try lia; cbn [andb]; rewrite ?andb_true_r;
    first [done|apply Z.leb_le; lia].
Qed.

(** Decoding reads an encoded rune back. *)
Lemma runes_encode r s : rune_ok r = true → runes (encode_rune r +:+ s) = r :: runes s.
Proof.
  unfold rune_ok. intros H%orb_true_iff. rewrite !andb_true_iff, !Z.leb_le, !Z.ltb_lt in H.
  unfold encode_rune. cbv zeta.
  pose proof (Z.div_mod r 64 ltac:(done)) as E1. pose proof (Z.mod_pos_bound r 64 ltac:(done)) as B1.
  set (q1 := r / 64) in *. set (m1 := r mod 64) in *. clearbody q1 m1.
  pose proof (Z.div_mod q1 64 ltac:(done)) as E2. pose proof (Z.mod_pos_bound q1 64 ltac:(done)) as B2.
  set (q2 := q1 / 64) in *. set (m2 := q1 mod 64) in *. clearbody q2 m2.
  pose proof (Z.div_mod q2 64 ltac:(done)) as E3. pose proof (Z.mod_pos_bound q2 64 ltac:(done)) as B3.
  set (q3 := q2 / 64) in *. set (m3 := q2 mod 64) in *. clearbody q3 m3.
  destruct (cont_tail m1 B1) as (T1 & L1 & Z1). destruct (cont_tail m2 B2) as (T2 & L2 & Z2).
  destruct (cont_tail m3 B3) as (T3 & L3 & Z3).
  destruct (Z.ltb_spec r 128); [|destruct (Z.ltb_spec r 2048); [|destruct (Z.ltb_spec r 65536)]];
    rewrite ?string_cons_app; change ("" +:+ s) with s; cbn [runes].
  - rewrite bz_zbyte by lia. by rewrite (proj2 (Z.ltb_lt r 128)) by lia.
  - assert (bz (zbyte (192 + q1)) = 192 + q1) as Z0 by (apply bz_zbyte; lia).
    rewrite (lead2_intro (zbyte (192 + q1))) by (rewrite ?Z0; first [lia|done]).
    rewrite L1, Z0, (proj2 (Z.ltb_ge _ 128)) by lia. f_equal. lia.
  - assert (bz (zbyte (224 + q2)) = 224 + q2) as Z0 by (apply bz_zbyte; lia).
    rewrite (lead2_high (zbyte (224 + q2))) by lia.
    rewrite (lead3_intro (zbyte (224 + q2))) by (rewrite ?Z0, ?Z2; first [done|intros; lia]).
    rewrite T1, L1, L2, Z0, (proj2 (Z.ltb_ge _ 128)) by lia. cbn [andb]. f_equal. lia.
  - assert (bz (zbyte (240 + q3)) = 240 + q3) as Z0 by (apply bz_zbyte; lia).
    rewrite (lead2_high (zbyte (240 + q3))), (lead3_high (zbyte (240 + q3))) by lia.
    rewrite (lead4_intro (zbyte (240 + q3))) by (rewrite ?Z0, ?Z3; first [done|intros; lia]).
    rewrite T1, T2, L1, L2, L3, Z0, (proj2 (Z.ltb_ge _ 128)) by lia. cbn [andb]. f_equal. lia.
Qed.

(** A comparison of a hypothesis, as a proposition. *)
Ltac reflect_z :=
  repeat match goal with
  | H : (_ && _) = true |- _ => apply andb_true_iff in H as [? ?]
  | H : (if ?x =? ?y then _ else _) = true |- _ => destruct (Z.eqb_spec x y)
  | H : (_ <=? _) = true |- _ => apply Z.leb_le in H
  | H : (_ <? _) = true |- _ => apply Z.ltb_lt in H
  | H : (_ <? _) = false |- _ => apply Z.ltb_ge in H
  end.
Lemma rune_ok_low n : 0 <= n < 55296 → rune_ok n = true.
Proof. intros. unfold rune_ok. by rewrite (proj2 (Z.leb_le 0 n)), (proj2 (Z.ltb_lt n _)) by lia. Qed.
Lemma lead2_ok a b : lead2 a b = true → rune_ok ((bz a - 192) * 64 + low6 b) = true.
Proof. unfold lead2, cont, low6. intros H. reflect_z. apply rune_ok_low. lia. Qed.
Lemma lead3_ok a b c :
  lead3 a b = true → cont c = true → rune_ok (((bz a - 224) * 64 + low6 b) * 64 + low6 c) = true.
Proof.
  unfold lead3, cont, low6, rune_ok. intros H H'. reflect_z;
    apply orb_true_iff; rewrite !andb_true_iff, !Z.leb_le, !Z.ltb_lt; lia.
Qed.
Lemma lead4_ok a b c d :
  lead4 a b = true → cont c = true → cont d = true →
  rune_ok ((((bz a - 240) * 64 + low6 b) * 64 + low6 c) * 64 + low6 d) = true.
Proof.
  unfold lead4, cont, low6, rune_ok. intros H H' H''. reflect_z;
    apply orb_true_iff; rewrite !andb_true_iff, !Z.leb_le, !Z.ltb_lt; lia.
Qed.

(** Every decoded rune is a Unicode scalar value. *)
Lemma runes_ok s : Forall (λ r, rune_ok r = true) (runes s).
Proof.
  assert (∀ n s, (len s < n)%nat → Forall (λ r, rune_ok r = true) (runes s)) as Hn; [|apply (Hn (S (len s))); lia].
  clear s. induction n as [|n IH]; [lia|]. unfold len in *. intros [|a s1] Hlen; cbn in Hlen; [constructor|].
  assert (∀ r, rune_ok r = true → Forall (λ r, rune_ok r = true) (r :: runes s1)) as H1.
  { intros r Hr. constructor; [done|]. apply IH. lia. }
  cbn [runes]. destruct (bz a <? 128) eqn:Ea.
  { apply H1, rune_ok_low. pose proof (bz_range a). reflect_z. lia. }
  destruct s1 as [|b s2]; [by repeat constructor|].
  destruct (lead2 a b) eqn:E2; [constructor; [by apply lead2_ok|apply IH; cbn in Hlen; lia]|].
  destruct s2 as [|c s3]; [by apply H1|].
  destruct (lead3 a b && cont c) eqn:E3.
  { apply andb_true_iff in E3 as [? ?]. constructor; [by apply lead3_ok|apply IH; cbn in Hlen; lia]. }
  destruct s3 as [|d s4]; [by apply H1|].
  destruct (lead4 a b && cont c && cont d) eqn:E4; [|by apply H1].
  apply andb_true_iff in E4 as [[? ?]%andb_true_iff ?]. constructor; [by apply lead4_ok|apply IH; cbn in Hlen; lia].
Qed.

(** Encoding runes and decoding them again is the identity; so re-encoding the
    runes of a string, which replaces its invalid bytes, is idempotent. *)
Lemma runes_of_runes rs : Forall (λ r, rune_ok r = true) rs → runes (of_runes rs) = rs.
Proof.
  induction 1 as [|r rs Hr _ IH]; [done|]. change (of_runes (r :: rs)) with
    (encode_rune (if rune_ok r then r else RuneError) +:+ of_runes rs). by rewrite Hr, runes_encode, IH.
Qed.
Definition valid_utf8 (s : string) : string := of_runes (runes s).
Arguments valid_utf8 : simpl never.
Lemma valid_utf8_idemp s : valid_utf8 (valid_utf8 s) = valid_utf8 s.
Proof. unfold valid_utf8. by rewrite runes_of_runes by apply runes_ok. Qed.
Lemma of_runes_app l k : of_runes (l ++ k) = of_runes l +:+ of_runes k.
Proof.
  unfold of_runes. induction l as [|r l IH]; [done|]. cbn [app foldr]. by rewrite IH, string_app_assoc.
Qed.
Lemma runes_ascii_app s t : is_ascii s = true → runes (s +:+ t) = runes s ++ runes t.
Proof.
  induction s as [|a s IH]; cbn; [done|]. intros [Ha Hs]%andb_true_iff. rewrite string_cons_app. cbn [runes].
  assert (bz a < 128) by (apply Nat.leb_le in Ha; unfold bz; lia).
  rewrite (proj2 (Z.ltb_lt _ 128)) by lia. cbn. by rewrite IH.
Qed.

Lemma nullable_spec r : nullable r = true ↔ re_lang r [].
Proof.
  split.
  - induction r; cbn; intros H; try discriminate.
    + constructor.
    + apply andb_true_iff in H as [? ?]. apply (lang_cat _ _ [] []); auto.
    + apply orb_true_iff in H as [?|?]; [apply lang_left|apply lang_right]; auto.
    + constructor.
  - intros H. remember [] as l eqn:E. induction H; cbn; try done.
    + apply app_eq_nil in E as [-> ->]. by rewrite IHre_lang1, IHre_lang2.
    + by rewrite IHre_lang.
    + rewrite IHre_lang by done. apply orb_true_r.
Qed.

(** A nonempty word of [r*] starts with a nonempty word of [r]. *)
Lemma star_cons r c l :
  re_lang (RStar r) (c :: l) → ∃ l1 l2, l = l1 ++ l2 ∧ re_lang r (c :: l1) ∧ re_lang (RStar r) l2.
Proof.
  intros H. remember (RStar r) as r' eqn:Er. remember (c :: l) as w eqn:Ew. revert c l Ew.
  induction H as [| | | | | |r0 l1 l2 H1 _ H2 IH]; try discriminate; injection Er as ->. intros c l Ew.
  destruct l1 as [|d l1]; cbn in Ew; [by apply IH|].
  injection Ew as -> <-. by exists l1, l2.
Qed.

Lemma deriv_spec c r l : re_lang (deriv c r) l ↔ re_lang r (c :: l).
Proof.
  revert l. induction r as [| |ranges|r1 IH1 r2 IH2|r1 IH1 r2 IH2|r IH]; intros l; cbn.
  - split; intros H; inversion H.
  - split; intros H; inversion H.
  - destruct (in_class ranges c) eqn:E.
    + split; intros H; inversion H; subst; by constructor.
    + split; intros H; inversion H; subst; congruence.
  - assert (re_lang (RCat (deriv c r1) r2) l ↔ ∃ l1 l2, l = l1 ++ l2 ∧ re_lang r1 (c :: l1) ∧ re_lang r2 l2) as Hcat.
    { split; [intros H; inversion H; subst|intros (l1 & l2 & -> & H1 & H2)].
      - eexists _, _. split; [done|]. by rewrite <- IH1.
      - constructor; [by apply IH1|done]. }
    split.
    + destruct (nullable r1) eqn:En; [intros H; inversion H; subst; clear H|intros H].
      * apply Hcat in H3 as (l1 & l2 & -> & H1 & H2). by apply (lang_cat _ _ (c :: l1) l2).
      * apply (lang_cat _ _ [] (c :: l)); [by apply nullable_spec|by apply IH2].
      * apply Hcat in H as (l1 & l2 & -> & H1 & H2). by apply (lang_cat _ _ (c :: l1) l2).
    + intros H. inversion H as [| |? ? l1 l2 H1 H2 E1 E| | | |]; subst.
      destruct l1 as [|d l1]; cbn in E.
      * apply nullable_spec in H1. rewrite H1. apply lang_right, IH2. by subst l2.
      * injection E as -> <-. assert (re_lang (RCat (deriv c r1) r2) (l1 ++ l2)) as H' by (apply Hcat; eauto).
        destruct (nullable r1); [by apply lang_left|done].
  - split; intros H; inversion H; subst.
    + apply lang_left. by apply IH1.
    + apply lang_right. by apply IH2.
    + apply lang_left. by apply IH1.
    + apply lang_right. by apply IH2.
  - split.
    + intros H. inversion H; subst. apply (lang_more r (c :: l1) l2); [by apply IH|done].
    + intros (l1 & l2 & -> & H1 & H2)%star_cons. constructor; [by apply IH|done].
Qed.

(** The matcher decides the language of the expression. *)
Lemma re_match_spec r l : re_match r l = true ↔ re_lang r l.
Proof.
  revert r. induction l as [|c l IH]; intros r; cbn; [apply nullable_spec|].
  by rewrite IH, deriv_spec.
Qed.
