(* ===== verification/GoJson.v ===== *)
(** * JSON text ([encoding/json] as the program uses it)

    The documents the program reads into [any] and [map[string]any] and writes
    back: values, the decoder ([json.Unmarshal] into [any]; its nesting limit
    of 10000 is left out) and the encoder ([json.Marshal], which sorts the
    keys and escapes HTML), with decimal conversion of numbers. *)
From S2P Require Import Prelude GoStrings GoNum GoText.
From Stdlib Require Import SpecFloat OrderedTypeEx.
Open Scope Z_scope.

(** A Go [map[string]any] is the list of its entries, sorted by key. *)
#[warnings="-register-all"]
Inductive json :=
  | JNull | JBool (b : bool) | JNum (f : float64) | JStr (s : string)
  | JArr (l : list json) | JObj (m : list (string * json)).
Abbreviation object := (list (string * json)).

Fixpoint obj_set (k : string) (v : json) (m : object) : object :=
  match m with
  | [] => [(k, v)]
  | (k', v') :: r =>
      match String.compare k k' with
      | Eq => (k, v) :: r
      | Lt => (k, v) :: m
      | Gt => (k', v') :: obj_set k v r
      end
  end.
Fixpoint obj_get (k : string) (m : object) : option json :=
  match m with [] => None | (k', v) :: r => if decide (k = k') then Some v else obj_get k r end.

(** ** Numbers *)

(** The double nearest to [m / k] ([strconv.ParseFloat]): the quotient to at
    least 65 bits, and a last bit that tells whether anything is left. *)
Definition of_ratio (neg : bool) (m k : Z) : float64 :=
  if m =? 0 then S754_zero neg else
  let s := 66 + Z.log2 k in
  let q := 2 * (m * 2 ^ s / k) + (if (m * 2 ^ s) mod k =? 0 then 0 else 1) in
  binary_normalize 53 1024 (if neg then - q else q) (- s - 1) neg.
Definition of_decimal (neg : bool) (m e : Z) : float64 :=
  if 0 <=? e then of_ratio neg (m * 10 ^ e) 1 else of_ratio neg m (10 ^ (- e)).

(** The digits at the front: their value after [acc], how many, the rest. *)
Fixpoint span_digits (acc : Z) (n : nat) (s : string) : Z * nat * string :=
  match s with
  | String a r => match digit_of a with
      | Some d => span_digits (acc * 10 + d) (S n) r
      | None => (acc, n, s)
      end
  | "" => (acc, n, "")
  end.
(** [strconv.Atoi] *)
Definition Atoi (s : string) : option Z :=
  let '(neg, body) := match s with String "-" r => (true, r) | String "+" r => (false, r) | _ => (false, s) end in
  match span_digits 0 0 body with
  | (_, O, _) => None
  | (v, _, "") => let v := if (neg : bool) then - v else v in if bool_decide (int64_range v) then Some v else None
  | _ => None
  end.
Definition parse_exponent (s : string) : option (Z * string) :=
  match s with
  | String a r =>
      if decide (a = "e"%char ∨ a = "E"%char) then
        let '(neg, r) := match r with
          | String "-" r' => (true, r') | String "+" r' => (false, r') | _ => (false, r) end in
        let '(e, n, r) := span_digits 0 0 r in
        if decide (n = 0%nat) then None else Some (if (neg : bool) then - e else e, r)
      else Some (0, s)
  | "" => Some (0, "")
  end.
Definition parse_fraction (m : Z) (s : string) : option (Z * Z * string) :=
  match s with
  | String "." r =>
      let '(m', n, r') := span_digits m 0 r in
      if decide (n = 0%nat) then None else Some (m', - Z.of_nat n, r')
  | _ => Some (m, 0, s)
  end.
Definition parse_sign (s : string) : bool * string :=
  match s with String "-" r => (true, r) | _ => (false, s) end.
Definition leading_zero (s : string) : bool := match s with String "0" _ => true | _ => false end.
Definition parse_number (s : string) : option (float64 * string) :=
  let '(neg, s) := parse_sign s in
  let '(m, n, r) := span_digits 0 0 s in
  if decide (n = 0%nat) then None else
  if leading_zero s && (1 <? n)%nat then None else
  '(m, e1, r) ← parse_fraction m r;
  '(e2, r) ← parse_exponent r;
  let f := of_decimal neg m (e1 + e2) in
  if is_finite f then Some (f, r) else None.

(** The shortest decimal [d * 10 ^ p] that reads back as [num / den], the
    nearer of two of the same length ([strconv.FormatFloat] with precision -1). *)
Fixpoint scale_up (fuel : nat) (num den j : Z) : Z :=
  match fuel with
  | O => j
  | S fuel => if den <=? num then j else scale_up fuel (num * 10) den (j - 1)
  end.
Definition magnitude (num den : Z) : Z :=
  if den <=? num then Z.of_nat (len (Itoa (num / den))) - 1 else scale_up 400 num den 0.
Fixpoint strip_zeros (fuel : nat) (d p : Z) : Z * Z :=
  match fuel with
  | O => (d, p)
  | S fuel => if (d mod 10 =? 0) && (0 <? d) then strip_zeros fuel (d / 10) (p + 1) else (d, p)
  end.
Fixpoint shortest_go (fuel : nat) (f : float64) (num den p : Z) : Z * Z :=
  let a := if 0 <=? p then num else num * 10 ^ (- p) in
  let b := if 0 <=? p then den * 10 ^ p else den in
  let d := a / b in
  let ok c := feq (of_decimal false c p) f in
  match fuel with
  | O => (d, p)
  | S fuel =>
      if ok d && ok (d + 1) then
        ((if 2 * (a mod b) <? b then d else if b <? 2 * (a mod b) then d + 1
          else if Z.even d then d else d + 1), p)
      else if ok d then (d, p) else if ok (d + 1) then (d + 1, p)
      else shortest_go fuel f num den (p - 1)
  end.
Definition shortest (m : positive) (e : Z) : Z * Z :=
  let num := if 0 <=? e then Zpos m * 2 ^ e else Zpos m in
  let den := if 0 <=? e then 1 else 2 ^ (- e) in
  let '(d, p) := shortest_go 17 (S754_finite false m e) num den (magnitude num den) in
  strip_zeros 18 d p.

Definition zeros (n : Z) : string := Join (replicate (Z.to_nat n) "0") "".
(** ['f'] and ['e'] layouts of the digits [d] with the point after [dp] of them *)
Definition layout_f (d : string) (dp : Z) : string :=
  let nd := Z.of_nat (len d) in
  if dp <=? 0 then "0." +:+ zeros (- dp) +:+ d
  else if nd <=? dp then d +:+ zeros (dp - nd)
  else take_bytes (Z.to_nat dp) d +:+ "." +:+ drop_bytes (Z.to_nat dp) d.
Definition layout_e (d : string) (dp : Z) : string :=
  let x := dp - 1 in
  take_bytes 1 d +:+ (if decide (drop_bytes 1 d = "") then "" else "." +:+ drop_bytes 1 d)
  +:+ "e" +:+ (if x <? 0 then "-" else "+") +:+ (Itoa (Z.abs x)).
Definition format_number (f : float64) : string :=
  match f with
  | S754_zero neg => if neg then "-0" else "0"
  | S754_finite neg m e =>
      let '(d, p) := shortest m e in
      let ds := Itoa d in
      let dp := Z.of_nat (len ds) + p in
      let abs := S754_finite false m e in
      (if neg then "-" else "") +:+
      (if flt abs (of_decimal false 1 (-6)) || fle (of_decimal false 1 21) abs then layout_e ds dp else layout_f ds dp)
  | _ => ""
  end.

Example format_numbers :
  map format_number [of_int 5; lit 1 10; lit 1 3; of_int (-120); fdiv (of_int 1) (of_int 1000000000);
    of_decimal false 1 21; of_decimal false 17976931348623157 292; of_decimal false 5 (-324)] =
  ["5"; "0.1"; "0.3333333333333333"; "-120"; "1e-9"; "1e+21"; "1.7976931348623157e+308"; "5e-324"].
Proof. vm_compute. reflexivity. Qed.
Example parse_numbers :
  map parse_number ["0.1"; "-0"; "012"; "1e400"; "1E+2x"; "2."; "123456789012345678901"] =
  [Some (lit 1 10, ""); Some (S754_zero true, ""); None; None; Some (of_int 100, "x"); None;
   Some (of_int 123456789012345678901, "")].
Proof. vm_compute. reflexivity. Qed.

(** ** Strings *)

Definition simple_escape (a : ascii) : option ascii :=
  if decide (a = "\"%char) then Some a else if decide (a = "/"%char) then Some a
  else if decide (a = byte 34) then Some a
  else if decide (a = "b"%char) then Some (byte 8) else if decide (a = "f"%char) then Some (byte 12)
  else if decide (a = "n"%char) then Some (byte 10) else if decide (a = "r"%char) then Some (byte 13)
  else if decide (a = "t"%char) then Some (byte 9) else None.
Definition hex_value (a : ascii) : option Z :=
  let n := bz a in
  if (48 <=? n) && (n <=? 57) then Some (n - 48)
  else if (97 <=? n) && (n <=? 102) then Some (n - 87)
  else if (65 <=? n) && (n <=? 70) then Some (n - 55) else None.
(** the four digits of a [\u] escape *)
Definition getu4 (a b c d : ascii) : option Z :=
  x ← hex_value a; y ← hex_value b; z ← hex_value c; t ← hex_value d;
  Some (((x * 16 + y) * 16 + z) * 16 + t).
Definition surrogate (r : Z) : bool := (55296 <=? r) && (r <? 57344).
(** [utf16.DecodeRune] of a proper pair *)
Definition decode_pair (r1 r2 : Z) : option Z :=
  if (55296 <=? r1) && (r1 <? 56320) && (56320 <=? r2) && (r2 <? 57344)
  then Some ((r1 - 55296) * 1024 + (r2 - 56320) + 65536) else None.

(** The text up to the closing quote, with its escapes resolved, and the rest. *)
Fixpoint unescape (s : string) : option (string * string) :=
  match s with
  | "" => None
  | String c r =>
      if decide (c = byte 34) then Some ("", r)
      else if decide (c = "\"%char) then
        match r with
        | "" => None
        | String e r1 =>
            match simple_escape e with
            | Some b => '(u, t) ← unescape r1; Some (String b u, t)
            | None =>
                if decide (e = "u"%char) then
                  match r1 with
                  | String a1 (String a2 (String a3 (String a4 r2))) =>
                      x ← getu4 a1 a2 a3 a4;
                      if surrogate x then
                        match r2 with
                        | String "\" (String "u" (String b1 (String b2 (String b3 (String b4 r3))))) =>
                            match getu4 b1 b2 b3 b4 ≫= decode_pair x with
                            | Some y => '(u, t) ← unescape r3; Some (encode_rune y +:+ u, t)
                            | None => '(u, t) ← unescape r2; Some (encode_rune RuneError +:+ u, t)
                            end
                        | _ => '(u, t) ← unescape r2; Some (encode_rune RuneError +:+ u, t)
                        end
                      else '(u, t) ← unescape r2; Some (encode_rune x +:+ u, t)
                  | _ => None
                  end
                else None
            end
        end
      else if bz c <? 32 then None
      else '(u, t) ← unescape r; Some (String c u, t)
  end.
(** After the opening quote; bytes that are not UTF-8 are replaced. *)
Definition parse_string (s : string) : option (string * string) :=
  '(u, t) ← unescape s; Some (valid_utf8 u, t).

(** [appendString] with HTML escaping *)
Definition hex4 (r : Z) : string :=
  let h x := hex_digit (Z.to_nat (x mod 16)) in
  String "\" (String "u" (String (h (r / 16 / 16 / 16)) (String (h (r / 16 / 16)) (String (h (r / 16)) (String (h r) ""))))).
Definition escape_rune (r : option Z) : string :=
  match r with
  | None => hex4 RuneError
  | Some r =>
      if (r =? 34) || (r =? 92) then String "\" (String (zbyte r) "")
      else if r =? 8 then "\b" else if r =? 12 then "\f" else if r =? 10 then "\n"
      else if r =? 13 then "\r" else if r =? 9 then "\t"
      else if (r <? 32) || (r =? 60) || (r =? 62) || (r =? 38) || (r =? 8232) || (r =? 8233) then hex4 r
      else encode_rune r
  end.
(** [utf8.DecodeRuneInString] repeated; [None] is an invalid byte. *)
Fixpoint runes_opt (s : string) : list (option Z) :=
  match s with
  | "" => []
  | String a s1 =>
      let n := bz a in
      if n <? 128 then Some n :: runes_opt s1 else
      match s1 with
      | "" => [None]
      | String b s2 =>
          if lead2 a b then Some ((n - 192) * 64 + low6 b) :: runes_opt s2 else
          match s2 with
          | "" => None :: runes_opt s1
          | String c s3 =>
              if lead3 a b && cont c then Some (((n - 224) * 64 + low6 b) * 64 + low6 c) :: runes_opt s3 else
              match s3 with
              | "" => None :: runes_opt s1
              | String d s4 =>
                  if lead4 a b && cont c && cont d
                  then Some ((((n - 240) * 64 + low6 b) * 64 + low6 c) * 64 + low6 d) :: runes_opt s4
                  else None :: runes_opt s1
              end
          end
      end
  end.
Definition quote (s : string) : string := dquote +:+ Join (escape_rune <$> runes_opt s) "" +:+ dquote.

(** ** Values *)

Definition json_space (a : ascii) : bool := bool_decide (a ∈ [byte 32; byte 9; byte 10; byte 13]).
Fixpoint skip_ws (s : string) : string :=
  match s with String a r => if json_space a then skip_ws r else s | "" => "" end.
Definition literal (word : string) (v : json) (s : string) : option (json * string) :=
  if HasPrefix s word then Some (v, drop_bytes (len word) s) else None.

Fixpoint parse_value (fuel : nat) (s : string) : option (json * string) :=
  match fuel with
  | O => None
  | S fuel =>
      match skip_ws s with
      | "" => None
      | String c r as s =>
          if decide (c = "{"%char) then
            match skip_ws r with
            | String "}" r => Some (JObj [], r)
            | _ => '(m, r) ← parse_members fuel [] r; Some (JObj m, r)
            end
          else if decide (c = "["%char) then
            match skip_ws r with
            | String "]" r => Some (JArr [], r)
            | _ => '(l, r) ← parse_elements fuel r; Some (JArr l, r)
            end
          else if decide (c = byte 34) then '(t, r) ← parse_string r; Some (JStr t, r)
          else if decide (c = "t"%char) then literal "true" (JBool true) s
          else if decide (c = "f"%char) then literal "false" (JBool false) s
          else if decide (c = "n"%char) then literal "null" JNull s
          else '(f, r) ← parse_number s; Some (JNum f, r)
      end
  end
with parse_elements (fuel : nat) (s : string) : option (list json * string) :=
  match fuel with
  | O => None
  | S fuel =>
      '(v, r) ← parse_value fuel s;
      match skip_ws r with
      | String "," r => '(l, r) ← parse_elements fuel r; Some (v :: l, r)
      | String "]" r => Some ([v], r)
      | _ => None
      end
  end
with parse_members (fuel : nat) (m : object) (s : string) : option (object * string) :=
  match fuel with
  | O => None
  | S fuel =>
      match skip_ws s with
      | String c r =>
          if decide (c = byte 34) then
            '(k, r) ← parse_string r;
            match skip_ws r with
            | String ":" r =>
                '(v, r) ← parse_value fuel r;
                let m := obj_set k v m in
                match skip_ws r with
                | String "," r => parse_members fuel m r
                | String "}" r => Some (m, r)
                | _ => None
                end
            | _ => None
            end
          else None
      | "" => None
      end
  end.

(** [json.Unmarshal] into an [any]: one value, then only white space. *)
Definition decode_fuel (s : string) : nat := 2 * len s + 2.
Definition decode (s : string) : option json :=
  '(v, r) ← parse_value (decode_fuel s) s;
  if decide (skip_ws r = "") then Some v else None.
(** into a [map[string]any]: [null] leaves the map nil *)
Definition decode_object (s : string) : option (option object) :=
  v ← decode s; match v with JObj m => Some (Some m) | JNull => Some None | _ => None end.

(** [json.Marshal]; only a number that is not finite is refused. *)
Fixpoint encodable (v : json) : bool :=
  match v with
  | JNum f => is_finite f
  | JArr l => forallb encodable l
  | JObj m => forallb (λ p, encodable p.2) m
  | _ => true
  end.
Fixpoint print (v : json) : string :=
  match v with
  | JNull => "null" | JBool true => "true" | JBool false => "false"
  | JNum f => format_number f
  | JStr s => quote s
  | JArr l => "[" +:+ Join (print <$> l) "," +:+ "]"
  | JObj m => "{" +:+ Join ((λ p, quote p.1 +:+ ":" +:+ print p.2) <$> m) "," +:+ "}"
  end.
Definition encode (v : json) : option string := if encodable v then Some (print v) else None.

(** Single quotes read as double ones, for literals. *)
Definition dq (s : string) : string := map_bytes (λ a, if decide (a = "'"%char) then byte 34 else a) s.
Example decode_sample :
  decode (dq " {'b' : [1, -2.5e1, null], 'a':'x\u00e9\ud83d\ude00\n', 'b':true} ") =
  Some (JObj [("a", JStr ("xé😀" +:+ newline)); ("b", JBool true)]).
Proof. vm_compute. reflexivity. Qed.
Example encode_sample :
  print (JObj [("a", JArr [JNum (lit 1 2); JNull]); ("b", JStr ("<é>" +:+ newline +:+ dquote))]) =
  dq "{'a':[0.5,null],'b':'\u003cé\u003e\n\" +:+ dq "''}".
Proof. vm_compute. reflexivity. Qed.

(** ** The keys of an object *)

Definition key_lt (k k' : string) : Prop := String.compare k k' = Lt.
Lemma key_lt_trans k1 k2 k3 : key_lt k1 k2 → key_lt k2 k3 → key_lt k1 k3.
Proof.
  unfold key_lt. change String.compare with String_as_OT.cmp.
  rewrite !String_as_OT.cmp_lt. apply String_as_OT.lt_trans.
Qed.
Lemma compare_refl k : String.compare k k = Eq.
Proof. by apply String_as_OT.cmp_eq. Qed.
Lemma compare_gt k k' : String.compare k k' = Gt → key_lt k' k.
Proof. intros H. unfold key_lt. by rewrite String.compare_antisym, H. Qed.
Definition sorted_keys (m : object) : Prop := StronglySorted key_lt m.*1.

Lemma obj_set_keys k v m : ∀ k', k' ∈ (obj_set k v m).*1 → k' = k ∨ k' ∈ m.*1.
Proof.
  induction m as [|[k1 v1] m IH]; intros k'; cbn; [intros ->%list_elem_of_singleton; by left|].
  destruct (String.compare k k1) eqn:E; cbn; rewrite ?elem_of_cons; [|tauto|].
  - intros [->|H]; auto.
  - intros [->|H]; [auto|]. apply IH in H as [->|H]; auto.
Qed.
Lemma obj_set_sorted k v m : sorted_keys m → sorted_keys (obj_set k v m).
Proof.
  unfold sorted_keys. induction m as [|[k1 v1] m IH]; cbn; intros H; [by repeat constructor|].
  apply StronglySorted_inv in H as [Hs Hf]. destruct (String.compare k k1) eqn:E; cbn.
  - apply String_as_OT.cmp_eq in E as ->. by constructor.
  - constructor; [by constructor|]. constructor; [done|].
    eapply Forall_impl; [done|]. intros k2. by apply key_lt_trans.
  - constructor; [by apply IH|]. apply Forall_forall. intros k2 [->|H2]%obj_set_keys.
    + by apply compare_gt.
    + by eapply Forall_forall in Hf.
Qed.
Lemma obj_get_set k v m : obj_get k (obj_set k v m) = Some v.
Proof.
  induction m as [|[k1 v1] m IH]; cbn; [by rewrite decide_True|].
  destruct (String.compare k k1) eqn:E; cbn; [by rewrite decide_True..|].
  rewrite decide_False; [done|]. intros ->. by rewrite compare_refl in E.
Qed.
Lemma obj_get_set_ne k k' v m : k ≠ k' → obj_get k' (obj_set k v m) = obj_get k' m.
Proof.
  intros Hk. induction m as [|[k1 v1] m IH]; cbn; [by rewrite decide_False|].
  destruct (String.compare k k1) eqn:E; cbn.
  - apply String_as_OT.cmp_eq in E as ->. by rewrite !(decide_False (P := k' = k1)).
  - by rewrite decide_False.
  - by rewrite IH.
Qed.
(** A key above all others goes to the end. *)
Lemma obj_set_last k v m : Forall (λ k', key_lt k' k) m.*1 → obj_set k v m = m ++ [(k, v)].
Proof.
  induction m as [|[k1 v1] m IH]; cbn; [done|]. intros [H1 H]%Forall_cons.
  by rewrite String.compare_antisym, H1, IH.
Qed.

(** ** Reading back what was written: strings *)

Lemma runes_runes_opt s : runes s = default RuneError <$> runes_opt s.
Proof.
  assert (∀ n s, (len s < n)%nat → runes s = default RuneError <$> runes_opt s) as Hn; [|apply (Hn (S (len s))); lia].
  clear s. induction n as [|n IH]; [lia|]. unfold len in *. intros [|a s1] Hlen; cbn in Hlen; [done|].
  cbn [runes runes_opt]. destruct (bz a <? 128); [by rewrite fmap_cons, <- IH by lia|].
  destruct s1 as [|b s2]; [done|]. cbn in Hlen.
  destruct (lead2 a b); [by rewrite fmap_cons, <- IH by lia|]. destruct s2 as [|c s3]; [by rewrite fmap_cons, <- IH by (cbn; lia)|].
  cbn in Hlen. destruct (lead3 a b && cont c); [by rewrite fmap_cons, <- IH by lia|].
  destruct s3 as [|d s4]; [by rewrite fmap_cons, <- IH by (cbn; lia)|]. cbn in Hlen.
  destruct (lead4 a b && cont c && cont d); by rewrite fmap_cons, <- IH by (cbn; lia).
Qed.
Definition opt_ok (o : option Z) : Prop := rune_ok (default RuneError o) = true.
Lemma runes_opt_ok s : Forall opt_ok (runes_opt s).
Proof. pose proof (runes_ok s) as H. rewrite runes_runes_opt, Forall_fmap in H. exact H. Qed.

Fixpoint high (s : string) : bool := match s with "" => true | String a r => (128 <=? bz a) && high r end.
Lemma unescape_high s t : high s = true →
  unescape (s +:+ t) = ('(u, r) ← unescape t; Some (s +:+ u, r)).
Proof.
  induction s as [|a s IH]; cbn [high].
  { intros _. change ("" +:+ t) with t. by destruct (unescape t) as [[u r]|]. }
  intros [Ha%Z.leb_le Hs]%andb_true_iff. rewrite string_cons_app. cbn [unescape].
  rewrite !decide_False by (intros ->; vm_compute in Ha; done).
  rewrite (proj2 (Z.ltb_ge _ _)) by lia. rewrite IH by done. by destruct (unescape t) as [[u r]|].
Qed.
Lemma encode_rune_high r : 128 <= r → rune_ok r = true → high (encode_rune r) = true.
Proof.
  unfold rune_ok. intros Hr H%orb_true_iff. rewrite !andb_true_iff, !Z.leb_le, !Z.ltb_lt in H.
  assert (∀ x, 128 <= x → x < 256 → (128 <=? bz (zbyte x)) = true) as Hz.
  { intros x ? ?. rewrite bz_zbyte by lia. by apply Z.leb_le. }
  unfold encode_rune. cbv zeta.
  pose proof (Z.div_mod r 64 ltac:(done)). pose proof (Z.mod_pos_bound r 64 ltac:(done)).
  set (q1 := r / 64) in *. set (m1 := r mod 64) in *. clearbody q1 m1.
  pose proof (Z.div_mod q1 64 ltac:(done)). pose proof (Z.mod_pos_bound q1 64 ltac:(done)).
  set (q2 := q1 / 64) in *. set (m2 := q1 mod 64) in *. clearbody q2 m2.
  pose proof (Z.div_mod q2 64 ltac:(done)). pose proof (Z.mod_pos_bound q2 64 ltac:(done)).
  set (q3 := q2 / 64) in *. set (m3 := q2 mod 64) in *. clearbody q3 m3.
  rewrite (proj2 (Z.ltb_ge r 128)) by lia.
  destruct (Z.ltb_spec r 2048); [|destruct (Z.ltb_spec r 65536)]; cbn [high]; by rewrite !Hz by lia.
Qed.

Definition small_rune_ok (r : Z) : Prop := ∀ t,
  unescape (escape_rune (Some r) +:+ t) = ('(u, q) ← unescape t; Some (encode_rune r +:+ u, q)).
(** Both sides by computation, for a rune given as a numeral. *)
Ltac unescape_step t :=
  change (hex4 RuneError) with (escape_rune None);
  vm_compute (escape_rune _); vm_compute (encode_rune _);
  rewrite ?string_cons_app; change ("" +:+ t) with t; cbn; by destruct (unescape t) as [[? ?]|].
Lemma unescape_small : Forall small_rune_ok (Z.of_nat <$> seq 0 128).
Proof.
  cbn [seq fmap list_fmap].
  repeat (apply Forall_cons; split; [intros t; unescape_step t|]). by apply Forall_nil.
Qed.
Lemma unescape_rune o t : opt_ok o →
  unescape (escape_rune o +:+ t) = ('(u, q) ← unescape t; Some (encode_rune (default RuneError o) +:+ u, q)).
Proof.
  intros Ho. destruct o as [r|]; cbn [default].
  2: unescape_step t.
  unfold opt_ok in Ho. cbn in Ho. destruct (Z.ltb_spec r 128) as [Hr|Hr].
  { assert (0 <= r) by (unfold rune_ok in Ho; apply orb_true_iff in Ho; rewrite !andb_true_iff, !Z.leb_le in Ho; lia).
    pose proof unescape_small as H1. eapply Forall_forall in H1; [apply H1|].
    apply list_elem_of_fmap. exists (Z.to_nat r). split; [lia|]. apply elem_of_seq. lia. }
  destruct (decide (r = 8232)) as [->|]; [unescape_step t|].
  destruct (decide (r = 8233)) as [->|]; [unescape_step t|].
  unfold escape_rune. rewrite !(proj2 (Z.eqb_neq r _)) by lia. rewrite (proj2 (Z.ltb_ge r 32)) by lia. cbn [orb].
  by apply unescape_high, encode_rune_high.
Qed.
Lemma Join_nil_cons x l : Join (x :: l) "" = x +:+ Join l "".
Proof. unfold Join. destruct l as [|y l]; cbn; [by rewrite string_app_nil_r|done]. Qed.
Lemma parse_quoted s t : ∀ r, quote s +:+ t = String (byte 34) r → parse_string r = Some (valid_utf8 s, t).
Proof.
  intros r. unfold quote, dquote. rewrite !string_cons_app. intros [= <-]. unfold parse_string.
  assert (∀ l, Forall opt_ok l →
    unescape (("" +:+ Join (escape_rune <$> l) "" +:+ String (byte 34) "") +:+ t) = Some (of_runes (default RuneError <$> l), t)) as H.
  { induction 1 as [|o l Ho Hl IH]; [done|]. cbn [fmap list_fmap]. rewrite Join_nil_cons.
    change ("" +:+ ?x) with x in *. rewrite <- !string_app_assoc, unescape_rune by done.
    rewrite <- !string_app_assoc in IH. rewrite IH. cbn [mbind option_bind].
    change (of_runes (?x :: ?y)) with (encode_rune (if rune_ok x then x else RuneError) +:+ of_runes y).
    unfold opt_ok in Ho. by rewrite Ho. }
  rewrite H by apply runes_opt_ok. rewrite <- runes_runes_opt. cbn [mbind option_bind].
  fold (valid_utf8 s). by rewrite valid_utf8_idemp.
Qed.

(** ** Numbers *)

(** What may follow a number in a document the encoder writes. *)
Definition ends_number (t : string) : Prop :=
  match t with "" => True | String a _ => a = ","%char ∨ a = "]"%char ∨ a = "}"%char end.

Lemma span_digits_app acc n s m k r t : ends_number t →
  span_digits acc n s = (m, k, r) → span_digits acc n (s +:+ t) = (m, k, r +:+ t).
Proof.
  intros Ht. revert acc n. induction s as [|a s IH]; intros acc n; cbn [span_digits].
  - intros [= <- <- <-]. change ("" +:+ t) with t. destruct t as [|a t]; [done|].
    by destruct Ht as [->| [->| ->]].
  - rewrite string_cons_app. cbn [span_digits]. destruct (digit_of a); [apply IH|]. by intros [= <- <- <-].
Qed.
Lemma parse_exponent_app s e r t : ends_number t →
  parse_exponent s = Some (e, r) → parse_exponent (s +:+ t) = Some (e, r +:+ t).
Proof.
  intros Ht. destruct s as [|a s]; cbn [parse_exponent].
  { intros [= <- <-]. change ("" +:+ t) with t. destruct t as [|a t]; [done|]. by destruct Ht as [->| [->| ->]]. }
  rewrite string_cons_app. cbn [parse_exponent]. case_decide; [|by intros [= <- <-]].
  destruct s as [|b s].
  { cbn. done. }
  rewrite string_cons_app.
  assert (∀ neg s', (let '(e0, n, r0) := span_digits 0 0 s' in
      if decide (n = 0%nat) then None else Some (if (neg : bool) then - e0 else e0, r0)) = Some (e, r) →
    (let '(e0, n, r0) := span_digits 0 0 (s' +:+ t) in
      if decide (n = 0%nat) then None else Some (if (neg : bool) then - e0 else e0, r0)) = Some (e, r +:+ t)) as H1.
  { intros neg s'. destruct (span_digits 0 0 s') as [[m k] q] eqn:E. rewrite (span_digits_app _ _ _ _ _ _ t Ht E).
    case_decide; [done|]. by intros [= <- <-]. }
  destruct (decide (b = "-"%char)) as [->|Hm]; [exact (H1 true s)|].
  destruct (decide (b = "+"%char)) as [->|Hp]; [exact (H1 false s)|].
  specialize (H1 false (String b s)). rewrite string_cons_app in H1.
  destruct b as [[] [] [] [] [] [] [] []]; first [exact H1|done].
Qed.
Lemma parse_fraction_app m s m' e r t : ends_number t →
  parse_fraction m s = Some (m', e, r) → parse_fraction m (s +:+ t) = Some (m', e, r +:+ t).
Proof.
  intros Ht. destruct s as [|a s].
  { intros [= <- <- <-]. change ("" +:+ t) with t. destruct t as [|a t]; [done|]. by destruct Ht as [->| [->| ->]]. }
  rewrite string_cons_app. destruct (decide (a = "."%char)) as [->|Hd].
  - cbn. destruct (span_digits m 0 s) as [[m1 k] q] eqn:E. rewrite (span_digits_app _ _ _ _ _ _ t Ht E).
    case_decide; [done|]. by intros [= <- <- <-].
  - destruct a as [[] [] [] [] [] [] [] []]; first [by intros [= <- <- <-]|done].
Qed.
Lemma parse_number_app s f t : ends_number t →
  parse_number s = Some (f, "") → parse_number (s +:+ t) = Some (f, t).
Proof.
  intros Ht. unfold parse_number.
  assert (parse_sign s = ((parse_sign s).1, (parse_sign s).2)) as E0 by by destruct (parse_sign s).
  assert (s ≠ "" → parse_sign (s +:+ t) = ((parse_sign s).1, (parse_sign s).2 +:+ t)) as E1.
  { destruct s as [|a s]; [done|]. intros _. rewrite string_cons_app.
    by destruct a as [[] [] [] [] [] [] [] []]. }
  destruct (decide (s = "")) as [->|Hs]; [done|]. rewrite E1 by done. rewrite E0.
  generalize (parse_sign s).1 (parse_sign s).2. clear s E0 E1 Hs. intros neg s. cbn [fst snd].
  destruct (span_digits 0 0 s) as [[m k] q] eqn:E. rewrite (span_digits_app _ _ _ _ _ _ t Ht E).
  case_decide as Hk; [done|].
  assert (leading_zero (s +:+ t) = leading_zero s) as ->.
  { destruct s as [|a s]; [cbn in E; congruence|]. rewrite string_cons_app. by destruct a as [[] [] [] [] [] [] [] []]. }
  destruct (_ && _); [done|].
  destruct (parse_fraction m q) as [[[m1 e1] r1]|] eqn:E1; [|done].
  rewrite (parse_fraction_app _ _ _ _ _ t Ht E1). cbn [mbind option_bind].
  destruct (parse_exponent r1) as [[e2 r2]|] eqn:E2; [|done].
  rewrite (parse_exponent_app _ _ _ t Ht E2). cbn [mbind option_bind].
  destruct (is_finite _); [|done]. by intros [= <- ->].
Qed.
(** A number starts with a sign or a digit. *)
Lemma parse_number_head s f r : parse_number s = Some (f, r) →
  ∃ a s', s = String a s' ∧ (a = "-"%char ∨ is_Some (digit_of a)).
Proof.
  unfold parse_number. destruct s as [|a s]; [done|]. intros H. exists a, s. split; [done|].
  destruct (decide (a = "-"%char)) as [->|Ha]; [by left|]. right.
  assert (parse_sign (String a s) = (false, String a s)) as E by by destruct a as [[] [] [] [] [] [] [] []].
  rewrite E in H. cbn [span_digits] in H. destruct (digit_of a) eqn:Ed; [done|].
  by rewrite decide_True in H.
Qed.

(** ** Values *)

Section json_induction.
Variable P : json → Prop.
Hypotheses (Hnull : P JNull) (Hbool : ∀ b, P (JBool b)) (Hnum : ∀ f, P (JNum f)) (Hstr : ∀ s, P (JStr s))
  (Harr : ∀ l, Forall P l → P (JArr l)) (Hobj : ∀ m, Forall (λ p, P p.2) m → P (JObj m)).
Fixpoint json_tree_ind (v : json) : P v :=
  match v with
  | JNull => Hnull | JBool b => Hbool b | JNum f => Hnum f | JStr s => Hstr s
  | JArr l => Harr l ((fix go l := match l return Forall P l with
      | [] => List.Forall_nil _ | v :: l => List.Forall_cons _ v l (json_tree_ind v) (go l) end) l)
  | JObj m => Hobj m ((fix go (m : object) := match m return Forall (λ p, P p.2) m with
      | [] => List.Forall_nil _ | (k, v) :: m => @List.Forall_cons _ (λ p, P p.2) (k, v) m (json_tree_ind v) (go m) end) m)
  end.
End json_induction.

(** The values that survive a round trip: valid text, numbers whose shortest
    decimal reads back (every finite double, tested by evaluation), and
    objects as the decoder builds them. *)
Definition number_ok (f : float64) : Prop := parse_number (format_number f) = Some (f, "").
Inductive canonical : json → Prop :=
  | canon_null : canonical JNull
  | canon_bool b : canonical (JBool b)
  | canon_num f : number_ok f → canonical (JNum f)
  | canon_str s : valid_utf8 s = s → canonical (JStr s)
  | canon_arr l : Forall canonical l → canonical (JArr l)
  | canon_obj m : sorted_keys m → Forall (λ p, valid_utf8 p.1 = p.1) m → Forall (λ p, canonical p.2) m → canonical (JObj m).

(** Enough fuel to read a value back. *)
Fixpoint jsize (v : json) : nat :=
  match v with
  | JArr l => S (foldr (λ v n, S (jsize v) + n) 0 l)
  | JObj m => S (foldr (λ p n, S (jsize p.2) + n) 0 m)
  | _ => 1
  end%nat.
Definition value_head (a : ascii) : Prop := json_space a = false ∧ a ≠ "]"%char ∧ a ≠ "}"%char.
Lemma print_head v : canonical v → ∃ a s, print v = String a s ∧ value_head a.
Proof.
  destruct 1 as [|[]|f Hf|s Hs|l Hl|m Hm]; try by (eexists _, _; split; [reflexivity|split_and!; [vm_compute; reflexivity|done..]]).
  apply parse_number_head in Hf as (a & s' & E & Ha). exists a, s'. split; [exact E|].
  destruct Ha as [->| [d Hd]]; [by split_and!|].
  split_and!; try by intros ->. unfold json_space. apply bool_decide_eq_false. intros Hi.
  repeat (apply elem_of_cons in Hi as [->|Hi]; [done|]). by apply elem_of_nil in Hi.
Qed.
Lemma skip_ws_head a s : json_space a = false → skip_ws (String a s) = String a s.
Proof. intros H. cbn. by rewrite H. Qed.

Ltac ends := first [by left|by right; left|by right; right].
Lemma app_nil_string t : "" +:+ t = t.
Proof. done. Qed.
(** What follows the first of several elements, in front of [t]. *)
Definition sep_tail (l : list string) (sep t : string) : string :=
  match l with [] => t | _ => sep +:+ Join l sep +:+ t end.
Definition print_member (p : string * json) : string := quote p.1 +:+ ":" +:+ print p.2.
Lemma Join_cons_sep x l sep t : Join (x :: l) sep +:+ t = x +:+ sep_tail l sep t.
Proof. destruct l as [|y l]; [done|]. unfold Join. cbn. by rewrite <- !string_app_assoc. Qed.

(** Reading a value back, in front of what may follow it. *)
Definition reads_back (v : json) : Prop := canonical v →
  ∀ fuel t, (jsize v <= fuel)%nat → ends_number t → parse_value fuel (print v +:+ t) = Some (v, t).
Definition elements_size (l : list json) : nat := foldr (λ v n, S (jsize v) + n)%nat 0%nat l.
Definition members_size (m : object) : nat := foldr (λ p n, S (jsize p.2) + n)%nat 0%nat m.

Lemma parse_elements_back l : l ≠ [] → Forall reads_back l → Forall canonical l → ∀ fuel t,
  (elements_size l <= fuel)%nat → parse_elements fuel (Join (print <$> l) "," +:+ "]" +:+ t) = Some (l, t).
Proof.
  intros Hne Hl. induction Hl as [|v l Hv Hl IH]; [done|]. intros [Cv Cl]%Forall_cons fuel t Hf.
  cbn [elements_size foldr] in Hf. fold (elements_size l) in Hf. destruct fuel as [|fuel]; [lia|].
  cbn [fmap list_fmap parse_elements]. rewrite Join_cons_sep. rewrite Hv; [|done|lia|].
  2: by destruct l; ends.
  destruct l as [|v2 l]; [done|]. unfold sep_tail. cbn [fmap list_fmap]. cbn [mbind option_bind].
  change ("," +:+ ?x) with (String "," x).
  rewrite skip_ws_head by done. cbv beta iota. change (print v2 :: (print <$> l)) with (print <$> v2 :: l). rewrite IH; [done..|lia].
Qed.
Lemma parse_members_back m : m ≠ [] → Forall (λ p, reads_back p.2) m → ∀ acc,
  sorted_keys (acc ++ m) → Forall (λ p, valid_utf8 p.1 = p.1) m → Forall (λ p, canonical p.2) m → ∀ fuel t,
  (members_size m <= fuel)%nat →
  parse_members fuel acc (Join (print_member <$> m) "," +:+ "}" +:+ t) = Some (acc ++ m, t).
Proof.
  intros Hne Hm. induction Hm as [|[k v] m Hv Hm IH]; [done|].
  intros acc Hs [Uk Um]%Forall_cons [Cv Cm]%Forall_cons fuel t Hf. cbn in Hv, Uk, Cv.
  cbn [members_size foldr] in Hf. fold (members_size m) in Hf. cbn [snd] in Hf. destruct fuel as [|fuel]; [lia|].
  rewrite fmap_cons, Join_cons_sep. unfold print_member at 1. cbn [fst snd].
  set (tl := sep_tail _ _ _). rewrite <- !string_app_assoc. destruct (quote k +:+ ":" +:+ print v +:+ tl) as [|c r] eqn:E; [done|].
  assert (c = byte 34) as -> by (unfold quote in E; by injection E). cbn [parse_members].
  rewrite skip_ws_head by done. rewrite decide_True by done. rewrite (parse_quoted _ _ r E), Uk.
  cbn [mbind option_bind]. change (":" +:+ ?x) with (String ":" x). rewrite skip_ws_head by done. cbv beta iota.
  rewrite Hv; [|done|lia|]. 2: by subst tl; destruct m; ends.
  assert (obj_set k v acc = acc ++ [(k, v)]) as Hset.
  { apply obj_set_last. unfold sorted_keys in Hs. rewrite fmap_app in Hs.
    apply Forall_forall. intros k' Hk'. eapply StronglySorted_app_1_elem_of; [exact Hs|done|left]. }
  cbn [mbind option_bind]. rewrite Hset. subst tl. destruct m as [|p2 m]; [done|].
  unfold sep_tail. cbn [fmap list_fmap]. change ("," +:+ ?x) with (String "," x).
  rewrite skip_ws_head by done. cbv beta iota.
  change (print_member p2 :: (print_member <$> m)) with (print_member <$> p2 :: m).
  rewrite (IH ltac:(done) (acc ++ [(k, v)])); [by rewrite <- app_assoc|by rewrite <- app_assoc|done..|lia].
Qed.

Lemma literal_app word v t : literal word v (word +:+ t) = Some (v, t).
Proof. unfold literal. rewrite HasPrefix_app. do 2 f_equal. by induction word. Qed.
Lemma parse_print v : reads_back v.
Proof.
  induction v as [|b|f|s|l IH|m IH] using json_tree_ind; intros C fuel t Hf Ht;
    destruct fuel as [|fuel]; try (cbn in Hf; lia); inversion C; subst.
  - exact (literal_app "null" JNull t).
  - destruct b; [exact (literal_app "true" (JBool true) t)|exact (literal_app "false" (JBool false) t)].
  - destruct (parse_number_head _ _ _ H0) as (a & s' & E & Ha). cbn [print parse_value].
    destruct (print_head _ C) as (a2 & s2 & E2 & Hs & _). cbn [print] in E2. rewrite E in E2. injection E2 as <- <-.
    rewrite E, string_cons_app, skip_ws_head by done. pose proof (parse_number_app _ _ t Ht H0) as Hp.
    rewrite E, string_cons_app in Hp.
    rewrite !decide_False by (intros ->; destruct Ha as [Ha| [? Ha]]; done). by rewrite Hp.
  - cbn [print parse_value]. destruct (quote s +:+ t) as [|c r] eqn:E; [done|].
    assert (c = byte 34) as -> by (unfold quote in E; by injection E). rewrite skip_ws_head by done.
    rewrite !decide_False, decide_True by done. by rewrite (parse_quoted _ _ r E), H0.
  - cbn [print parse_value]. change ("[" +:+ ?x) with (String "[" x). rewrite string_cons_app, skip_ws_head by done.
    rewrite decide_False, decide_True by done. rewrite <- string_app_assoc. destruct l as [|v l]; [done|].
    destruct (print_head v) as (a & s & E & Hs & Ha & _); [by inversion H0|].
    rewrite (parse_elements_back (v :: l)); [|done..|cbn in Hf |- *; lia].
    rewrite fmap_cons, Join_cons_sep, E, string_cons_app, skip_ws_head by done.
    by destruct a as [[] [] [] [] [] [] [] []].
  - cbn [print parse_value]. change ("{" +:+ ?x) with (String "{" x). rewrite string_cons_app, skip_ws_head by done.
    rewrite decide_True by done. rewrite <- string_app_assoc. destruct m as [|p m]; [done|].
    change (λ p, quote p.1 +:+ ":" +:+ print p.2) with print_member.
    rewrite (parse_members_back (p :: m) ltac:(done) IH [] H0 H1 H2); [|cbn in Hf |- *; lia].
    rewrite fmap_cons, Join_cons_sep. done.
Qed.

Lemma print_size v : canonical v → (jsize v + 1 <= 2 * len (print v))%nat.
Proof.
  assert (∀ l sep, len (Join l sep) = foldr (λ s n, (len s + n)%nat) 0%nat l + len sep * pred (length l))%nat as HJ.
  { intros l sep. induction l as [|x [|y l] IH]; [change (pred (length [])) with 0%nat; cbn [foldr]; change (len (Join [] sep)) with 0%nat; lia|
      change (pred (length [x])) with 0%nat; cbn [foldr]; change (Join [x] sep) with x; lia|].
    change (Join (x :: y :: l) sep) with (x +:+ sep +:+ Join (y :: l) sep). rewrite !string_length_app, IH. cbn [foldr length pred]. lia. }
  induction v as [|b|f|s|l IH|m IH] using json_tree_ind; intros C.
  1-4: destruct (print_head _ C) as (a & s' & E & _); rewrite E; unfold len; cbn; lia.
  - cbn [print jsize]. rewrite !string_length_app, HJ, length_fmap. inversion C as [| | | |? Cl|]; subst.
    change (len "[") with 1%nat. change (len "]") with 1%nat. change (len ",") with 1%nat.
    enough (foldr (λ v n, S (jsize v) + n)%nat 0%nat l <= 2 * foldr (λ s n, (len s + n)%nat) 0%nat (print <$> l))%nat by lia.
    clear C. induction IH as [|v l Hv _ IHl]; [done|]. apply Forall_cons in Cl as [C1 C2]. specialize (IHl C2).
    specialize (Hv C1). rewrite fmap_cons. cbn [foldr]. lia.
  - cbn [print jsize]. change (λ p, quote p.1 +:+ ":" +:+ print p.2) with print_member.
    rewrite !string_length_app, HJ, length_fmap. inversion C as [| | | | |? _ _ Cm]; subst.
    change (len "{") with 1%nat. change (len "}") with 1%nat. change (len ",") with 1%nat.
    enough (foldr (λ p n, S (jsize p.2) + n)%nat 0%nat m <= 2 * foldr (λ s n, (len s + n)%nat) 0%nat (print_member <$> m))%nat by lia.
    clear C. induction IH as [|v m Hv _ IHm]; [done|]. apply Forall_cons in Cm as [C1 C2]. specialize (IHm C2).
    specialize (Hv C1). rewrite fmap_cons. cbn [foldr].
    assert (len (print v.2) <= len (print_member v))%nat by (unfold print_member; rewrite !string_length_app; lia). lia.
Qed.

(** Decoding what was encoded gives the value back. *)
Lemma decode_print v : canonical v → decode (print v) = Some v.
Proof.
  intros C. unfold decode. rewrite <- (string_app_nil_r (print v)) at 2.
  rewrite parse_print; [done|done| |done]. pose proof (print_size v C). unfold decode_fuel. lia.
Qed.
Lemma canonical_obj_set k v m :
  canonical (JObj m) → canonical v → valid_utf8 k = k → canonical (JObj (obj_set k v m)).
Proof.
  intros Hm Cv Ck. inversion Hm as [| | | | |? Hs Hu Hc]; subst. constructor; [by apply obj_set_sorted|..]; clear Hm Hs.
  - induction m as [|[k1 v1] m IH]; cbn; [by repeat constructor|]. apply Forall_cons in Hu as [? ?], Hc as [? ?].
    destruct (String.compare k k1); repeat (constructor; auto).
  - induction m as [|[k1 v1] m IH]; cbn; [by repeat constructor|]. apply Forall_cons in Hu as [? ?], Hc as [? ?].
    destruct (String.compare k k1); repeat (constructor; auto).
Qed.

(** ** The fuel of [decode] is enough

    Every parser leaves less than it was given, so that more fuel than
    [decode_fuel] changes nothing. *)

Lemma skip_ws_length s : (len (skip_ws s) <= len s)%nat.
Proof. induction s as [|a s IH]; [done|]. unfold len in *. cbn. destruct (json_space a); cbn; lia. Qed.
Lemma drop_bytes_length n s : (len (drop_bytes n s) <= len s)%nat.
Proof. revert s. induction n as [|n IH]; intros [|a s]; try (cbn; lia). specialize (IH s). unfold len in *. cbn. lia. Qed.
Lemma unescape_length s u t : unescape s = Some (u, t) → (len t < len s)%nat.
Proof.
  assert (∀ n s u t, (len s < n)%nat → unescape s = Some (u, t) → (len t < len s)%nat) as Hn; [|by eauto].
  clear s u t. unfold len. induction n as [|n IH]; [lia|]. intros [|c s] u t Hlen; [done|]. cbn [String.length] in *.
  assert (∀ s' v, (String.length s' <= String.length s)%nat → ('(u, t) ← unescape s'; Some (v +:+ u, t)) = Some (u, t) →
    (String.length t < S (String.length s))%nat) as IH'.
  { intros s' v Hs'. destruct (unescape s') as [[u' t']|] eqn:E; [|done]. cbn. intros [= <- <-]. apply IH in E; lia. }
  cbn [unescape]. case_decide; [intros [= <- <-]; lia|]. case_decide.
  - destruct s as [|e s]; [done|]. cbn [String.length] in *.
    destruct (simple_escape e) as [b|]; [apply (IH' s (String b "")); lia|]. case_decide; [|done].
    destruct s as [|a1 [|a2 [|a3 [|a4 s]]]]; try done. cbn [String.length] in *.
    destruct (getu4 a1 a2 a3 a4) as [x|]; [|done]. cbn [mbind option_bind].
    destruct (surrogate x); [|apply IH'; lia].
    repeat match goal with
    | |- context [match ?x with _ => _ end] => is_var x; destruct x; try (apply IH'; cbn [String.length]; lia)
    | |- context [match (?x ≫= ?y) with _ => _ end] => destruct (x ≫= y); try (apply IH'; cbn [String.length]; lia)
    end.
  - destruct (bz c <? 32); [done|]. apply (IH' s (String c "")). lia.
Qed.
Lemma parse_string_length s u t : parse_string s = Some (u, t) → (len t < len s)%nat.
Proof.
  unfold parse_string. destruct (unescape s) as [[u' t']|] eqn:E; [|done]. cbn. intros [= <- <-].
  by eapply unescape_length.
Qed.
Lemma span_digits_length acc n s m k r : span_digits acc n s = (m, k, r) → (len r + k = len s + n)%nat.
Proof.
  unfold len. revert acc n. induction s as [|a s IH]; intros acc n; cbn; [intros [= <- <- <-]; done|].
  destruct (digit_of a); [intros H; apply IH in H; lia|]. intros [= <- <- <-]. cbn. lia.
Qed.
Lemma parse_exponent_length s e r : parse_exponent s = Some (e, r) → (len r <= len s)%nat.
Proof.
  destruct s as [|a s]; cbn [parse_exponent]; [by intros [= <- <-]|]. case_decide; [|by intros [= <- <-]].
  assert (∀ neg s', (len s' <= len s)%nat → (let '(e0, n, r0) := span_digits 0 0 s' in
      if decide (n = 0%nat) then None else Some (if (neg : bool) then - e0 else e0, r0)) = Some (e, r) →
    (len r <= S (len s))%nat) as H1.
  { intros neg s' Hs'. destruct (span_digits 0 0 s') as [[m k] q] eqn:E. case_decide; [done|].
    apply span_digits_length in E. intros [= <- <-]. lia. }
  destruct s as [|b s]; [done|]. unfold len in *. cbn [String.length] in *.
  destruct b as [[] [] [] [] [] [] [] []]; solve [apply (H1 false); cbn; lia|apply (H1 true); lia|apply (H1 false s); lia].
Qed.
Lemma parse_fraction_length m s m' e r : parse_fraction m s = Some (m', e, r) → (len r <= len s)%nat.
Proof.
  destruct s as [|a s]; [by intros [= <- <- <-]|]. destruct (decide (a = "."%char)) as [->|Hd].
  - cbn. destruct (span_digits m 0 s) as [[m1 k] q] eqn:E. apply span_digits_length in E.
    case_decide; [done|]. intros [= <- <- <-]. unfold len in *. cbn. lia.
  - destruct a as [[] [] [] [] [] [] [] []]; first [by intros [= <- <- <-]|done].
Qed.
Lemma parse_number_length s f r : parse_number s = Some (f, r) → (len r < len s)%nat.
Proof.
  unfold parse_number. assert (len (parse_sign s).2 <= len s)%nat as Hs.
  { destruct s as [|a s]; [done|]. unfold len. destruct a as [[] [] [] [] [] [] [] []]; cbn; lia. }
  destruct (parse_sign s) as [neg s']. cbn [snd] in Hs.
  destruct (span_digits 0 0 s') as [[m k] q] eqn:E. apply span_digits_length in E. case_decide; [done|].
  destruct (_ && _); [done|]. destruct (parse_fraction m q) as [[[m1 e1] r1]|] eqn:E1; [|done].
  apply parse_fraction_length in E1. cbn [mbind option_bind].
  destruct (parse_exponent r1) as [[e2 r2]|] eqn:E2; [|done]. apply parse_exponent_length in E2.
  cbn [mbind option_bind]. destruct (is_finite _); [|done]. intros [= <- <-]. lia.
Qed.
Lemma literal_length c word v s v' r : literal (String c word) v s = Some (v', r) → (len r < len s)%nat.
Proof.
  unfold literal. destruct (HasPrefix s _) eqn:E; [|done]. apply HasPrefix_spec in E as [q ->]. intros [= <- <-].
  change (len (String c word)) with (S (len word)). rewrite string_cons_app. cbn [drop_bytes].
  pose proof (drop_bytes_length (len word) (word +:+ q)). unfold len in *. cbn [String.length]. lia.
Qed.

Lemma after_ws s c r : skip_ws s = String c r → (len r < len s)%nat.
Proof. intros H. pose proof (skip_ws_length s) as Hl. rewrite H in Hl. unfold len in *. cbn in Hl. lia. Qed.

Definition shrinks {A} (parse : string → option (A * string)) : Prop := ∀ s x r, parse s = Some (x, r) → (len r < len s)%nat.
Lemma parsers_shrink n :
  shrinks (parse_value n) ∧ shrinks (parse_elements n) ∧ ∀ m, shrinks (parse_members n m).
Proof.
  induction n as [|n (IHv & IHe & IHm)]; [by repeat split|]. split_and!.
  - intros s v r. cbn [parse_value]. destruct (skip_ws s) as [|c q] eqn:E; [done|]. pose proof (after_ws _ _ _ E) as Hq.
    pose proof (skip_ws_length s) as Hs. rewrite E in Hs.
    case_decide; [|case_decide; [|case_decide; [|repeat case_decide]]].
    + assert (('(m, r) ← parse_members n [] q; Some (JObj m, r)) = Some (v, r) → (len r < len s)%nat) as Hm.
      { destruct (parse_members n [] q) as [[m r']|] eqn:Em; [|done]. cbn. intros [= <- <-]. apply IHm in Em. lia. }
      destruct (skip_ws q) as [|[[] [] [] [] [] [] [] []] q'] eqn:Eq; try done.
      apply after_ws in Eq. intros [= <- <-]. lia.
    + assert (('(l, r) ← parse_elements n q; Some (JArr l, r)) = Some (v, r) → (len r < len s)%nat) as Hm.
      { destruct (parse_elements n q) as [[m r']|] eqn:Em; [|done]. cbn. intros [= <- <-]. apply IHe in Em. lia. }
      destruct (skip_ws q) as [|[[] [] [] [] [] [] [] []] q'] eqn:Eq; try done.
      apply after_ws in Eq. intros [= <- <-]. lia.
    + destruct (parse_string q) as [[t r']|] eqn:Et; [|done]. cbn. intros [= <- <-]. apply parse_string_length in Et. lia.
    + intros Hl%literal_length. unfold len in *. cbn in *. lia.
    + intros Hl%literal_length. unfold len in *. cbn in *. lia.
    + intros Hl%literal_length. unfold len in *. cbn in *. lia.
    + destruct (parse_number (String c q)) as [[t r']|] eqn:Et; [|done]. cbn. intros [= <- <-].
      apply parse_number_length in Et. unfold len in *. cbn in *. lia.
  - intros s l r. cbn [parse_elements]. destruct (parse_value n s) as [[v q]|] eqn:Ev; [|done]. apply IHv in Ev.
    cbn [mbind option_bind]. destruct (skip_ws q) as [|c q'] eqn:Eq; [done|]. apply after_ws in Eq.
    destruct c as [[] [] [] [] [] [] [] []]; try done; [intros [= <- <-]; lia|].
    destruct (parse_elements n q') as [[l' r']|] eqn:El; [|done]. apply IHe in El. cbn. intros [= <- <-]. lia.
  - intros m s m' r. cbn [parse_members]. destruct (skip_ws s) as [|c q] eqn:E; [done|]. apply after_ws in E.
    case_decide; [|done]. destruct (parse_string q) as [[k q1]|] eqn:Ek; [|done]. apply parse_string_length in Ek.
    cbn [mbind option_bind]. destruct (skip_ws q1) as [|c1 q2] eqn:E1; [done|]. apply after_ws in E1.
    destruct c1 as [[] [] [] [] [] [] [] []]; try done.
    destruct (parse_value n q2) as [[v q3]|] eqn:Ev; [|done]. apply IHv in Ev. cbn [mbind option_bind].
    destruct (skip_ws q3) as [|c3 q4] eqn:E3; [done|]. apply after_ws in E3.
    destruct c3 as [[] [] [] [] [] [] [] []]; try done; [intros [= <- <-]; lia|]. intros Hm%IHm. lia.
Qed.

Lemma parse_fuel n :
  (∀ s m, (2 * len s + 1 <= n)%nat → (n <= m)%nat → parse_value m s = parse_value n s) ∧
  (∀ s m, (2 * len s + 2 <= n)%nat → (n <= m)%nat → parse_elements m s = parse_elements n s) ∧
  (∀ o s m, (2 * len s + 2 <= n)%nat → (n <= m)%nat → parse_members m o s = parse_members n o s).
Proof.
  induction n as [|n (IHv & IHe & IHm)]; [split_and!; intros; lia|]. split_and!.
  - intros s [|m] Hn Hm; [lia|]. cbn [parse_value]. destruct (skip_ws s) as [|c q] eqn:E; [done|]. apply after_ws in E.
    by rewrite IHm, IHe by lia.
  - intros s [|m] Hn Hm; [lia|]. cbn [parse_elements]. rewrite IHv by lia.
    destruct (parse_value n s) as [[v q]|] eqn:Ev; [|done]. apply (parsers_shrink n) in Ev.
    cbn [mbind option_bind]. destruct (skip_ws q) as [|c q'] eqn:Eq; [done|]. apply after_ws in Eq.
    by rewrite IHe by lia.
  - intros o s [|m] Hn Hm; [lia|]. cbn [parse_members]. destruct (skip_ws s) as [|c q] eqn:E; [done|]. apply after_ws in E.
    case_decide; [|done]. destruct (parse_string q) as [[k q1]|] eqn:Ek; [|done]. apply parse_string_length in Ek.
    cbn [mbind option_bind]. destruct (skip_ws q1) as [|c1 q2] eqn:E1; [done|]. apply after_ws in E1.
    rewrite IHv by lia.
    destruct (parse_value n q2) as [[v q3]|] eqn:Ev; [|done]. apply (parsers_shrink n) in Ev. cbn [mbind option_bind].
    destruct (skip_ws q3) as [|c3 q4] eqn:E3; [done|]. apply after_ws in E3. by rewrite IHm by lia.
Qed.
Lemma decode_fuel_enough s fuel : (decode_fuel s <= fuel)%nat → parse_value fuel s = parse_value (decode_fuel s) s.
Proof. intros H. unfold decode_fuel in *. apply (parse_fuel (2 * len s + 2)); lia. Qed.

(** A canonical value is encoded; an object starts and ends with its braces. *)
Lemma canonical_encode v : canonical v → encode v = Some (print v).
Proof.
  intros C. unfold encode. assert (encodable v = true) as ->; [|done].
  induction v as [|b|f|s|l IH|m IH] using json_tree_ind; inversion C; subst; try done; cbn.
  - revert H0. unfold number_ok, parse_number. destruct (parse_sign _) as [neg s]. destruct (span_digits 0 0 s) as [[d n] q].
    case_decide; [done|]. destruct (_ && _); [done|]. destruct (parse_fraction d q) as [[[d1 e1] q1]|]; [|done].
    cbn [mbind option_bind]. destruct (parse_exponent q1) as [[e2 q2]|]; [|done]. cbn [mbind option_bind].
    destruct (is_finite _) eqn:E; [|done]. by intros [= <- _].
  - clear C. apply Is_true_eq_true, forallb_True. induction IH as [|v l Hv _ IHl]; [done|]. apply Forall_cons in H0 as [C1 C2].
    constructor; [by apply Is_true_eq_left, Hv|by apply IHl].
  - clear C H0 H1. apply Is_true_eq_true, forallb_True. induction IH as [|p m Hp _ IHm]; [done|]. apply Forall_cons in H2 as [C1 C2].
    constructor; [by apply Is_true_eq_left, Hp|by apply IHm].
Qed.
Lemma TrimLeftSpace_head a r : plain_byte a = true → TrimLeftSpace (String a r) = String a r.
Proof.
  intros Ha. apply trimmed_cons. split; [by apply andb_true_iff in Ha as [_ ?%negb_true_iff]|].
  destruct r as [|b r]; [done|]. split; [by apply plain_space2|]. destruct r; [done|by apply plain_space3].
Qed.
Lemma plain_space2_last a b : plain_byte b = true → space2 a b = false.
Proof.
  intros H%plain_byte_lt. unfold space2.
  destruct (Nat.eqb_spec (nat_of_ascii b) 133), (Nat.eqb_spec (nat_of_ascii b) 160); lia.
Qed.
Lemma plain_space3_last a b c : plain_byte c = true → space3 a b c = false.
Proof.
  intros H%plain_byte_lt. unfold space3. repeat match goal with
  | |- context [(?x =? ?y)%nat] => destruct (Nat.eqb_spec x y); try lia
  | |- context [(?x <=? ?y)%nat] => destruct (Nat.leb_spec x y); try lia
  end; done.
Qed.
Lemma TrimRightSpace_last s a : plain_byte a = true → TrimRightSpace (s +:+ String a "") = s +:+ String a "".
Proof.
  intros Ha. unfold TrimRightSpace. rewrite rev_app_distr. change (String.rev (String a "")) with (String a "").
  rewrite string_cons_app. change ("" +:+ ?x) with x.
  rewrite (proj2 (trimmed_cons (λ b a, space2 a b) (λ c b a, space3 a b c) a (String.rev s))).
  - change (String a (String.rev s)) with (String a "" +:+ String.rev s). rewrite rev_app_distr. by rewrite string_rev_rev.
  - split; [by apply andb_true_iff in Ha as [_ ?%negb_true_iff]|].
    destruct (String.rev s) as [|b [|c r]]; [done| |]; (split; [by apply plain_space2_last|]); [done|by apply plain_space3_last].
Qed.
Lemma TrimSpace_object m : TrimSpace (print (JObj m)) ≠ "".
Proof.
  cbn [print]. unfold TrimSpace. change ("{" +:+ ?x) with (String "{" x). rewrite TrimLeftSpace_head by done.
  change (String "{" (?x +:+ "}")) with (String "{" x +:+ "}"). by rewrite TrimRightSpace_last.
Qed.
