(* ===== verification/ChatStore.v ===== *)
(** * Conversations ([internal/chat/types.go], [internal/chat/store.go])

    Messages and session state, and the store that keeps each session in a
    transcript file, its state in another, and archived sessions in a third
    directory.  The second half shows what the operations do to a session and
    that archiving and restoring never lose one. *)
From S2P Require Import Prelude GoStrings GoText GoNum StatusDirs.
Open Scope Z_scope.

(** ** Data *)

Record Link := mkLink { Label : string; Href : string }.
Record Action := mkAction { act_Label : string; act_Href : string; Method : string }.
Record ToolTraceEntry := mkToolTrace {
  ToolName : string; Arguments : string; ResultPreview : string; tt_Error : string }.
Record TaskRef := mkTaskRef {
  tr_TaskID : string; tr_Title : string; tr_State : string; tr_SelectedSkill : string }.
Record RecallRef := mkRecallRef {
  rf_Source : string; rf_CardID : string; rf_CardType : string; rf_Snippet : string }.
(** [Context] of the source *)
Record ChatContext := mkContext {
  RecentTasks : list TaskRef; WorkingNotes : list string; SemanticHits : list RecallRef;
  ProcedureHits : list RecallRef; RecallHits : list RecallRef }.
Record Message := mkMessage {
  MessageID : string; msg_SessionID : string; Role : string; Content : string; DialogueAct : string;
  msg_IntentKind : string; IntentReason : string; IntentConfidence : float64; Stage : string;
  msg_TaskID : string; TaskState : string; SelectedSkill : string; ExecutionProfile : string;
  Links : list Link; Actions : list Action; Context_ : option ChatContext;
  ToolTrace : list ToolTraceEntry; msg_CreatedAt : Time }.
Record SessionWorkset := mkWorkset {
  ArtifactPaths : list string; RecallCardIDs : list string; SourceRefs : list string; FocusPaths : list string }.
Record SessionState := mkSessionState {
  st_SessionID : string; Topic : string; FocusTaskID : string; PendingQuestion : string;
  PendingAction : string; LastUserAct : string; LastAssistantAct : string;
  WorkingSet : SessionWorkset; st_UpdatedAt : Time }.
(** [transcript] *)
Record Transcript := mkTranscript {
  SessionID : string; Title : string; CreatedAt : Time; UpdatedAt : Time;
  ArchivedAt : option Time; Messages : list Message }.
Record SessionSummary := mkSummary {
  sum_SessionID : string; sum_Title : string; sum_CreatedAt : Time; sum_UpdatedAt : Time; MessageCount : Z }.

Definition empty_workset : SessionWorkset := mkWorkset [] [] [] [].
Definition empty_state (id : string) : SessionState := mkSessionState id "" "" "" "" "" "" empty_workset zeroTime.

(** [c.isEmpty()] *)
Definition isEmpty (c : option ChatContext) : bool :=
  match c with
  | None => true
  | Some c =>
      match RecentTasks c, WorkingNotes c, SemanticHits c, ProcedureHits c, RecallHits c with
      | [], [], [], [], [] => true
      | _, _, _, _, _ => false
      end
  end.

(** ** JSON

    What [json.Unmarshal] reads back of a marshalled value: invalid bytes of a
    string become U+FFFD, a zero confidence is omitted; marshalling fails on a
    confidence that is not finite and on a time outside the years 0 to 9999. *)
Definition link_norm (l : Link) : Link := mkLink (valid_utf8 (Label l)) (valid_utf8 (Href l)).
Definition action_norm (a : Action) : Action := mkAction (valid_utf8 (act_Label a)) (valid_utf8 (act_Href a)) (valid_utf8 (Method a)).
Definition trace_norm (t : ToolTraceEntry) : ToolTraceEntry :=
  mkToolTrace (valid_utf8 (ToolName t)) (valid_utf8 (Arguments t)) (valid_utf8 (ResultPreview t)) (valid_utf8 (tt_Error t)).
Definition taskref_norm (t : TaskRef) : TaskRef :=
  mkTaskRef (valid_utf8 (tr_TaskID t)) (valid_utf8 (tr_Title t)) (valid_utf8 (tr_State t)) (valid_utf8 (tr_SelectedSkill t)).
Definition recallref_norm (r : RecallRef) : RecallRef :=
  mkRecallRef (valid_utf8 (rf_Source r)) (valid_utf8 (rf_CardID r)) (valid_utf8 (rf_CardType r)) (valid_utf8 (rf_Snippet r)).
Definition context_norm (c : ChatContext) : ChatContext :=
  mkContext (taskref_norm <$> RecentTasks c) (valid_utf8 <$> WorkingNotes c) (recallref_norm <$> SemanticHits c)
    (recallref_norm <$> ProcedureHits c) (recallref_norm <$> RecallHits c).
Definition message_norm (m : Message) : Message :=
  mkMessage (valid_utf8 (MessageID m)) (valid_utf8 (msg_SessionID m)) (valid_utf8 (Role m)) (valid_utf8 (Content m)) (valid_utf8 (DialogueAct m))
    (valid_utf8 (msg_IntentKind m)) (valid_utf8 (IntentReason m)) (omit_zero (IntentConfidence m)) (valid_utf8 (Stage m))
    (valid_utf8 (msg_TaskID m)) (valid_utf8 (TaskState m)) (valid_utf8 (SelectedSkill m)) (valid_utf8 (ExecutionProfile m))
    (link_norm <$> Links m) (action_norm <$> Actions m) (context_norm <$> Context_ m)
    (trace_norm <$> ToolTrace m) (msg_CreatedAt m).
Definition message_json_ok (m : Message) : bool := is_finite (IntentConfidence m) && json_time_ok (msg_CreatedAt m).
Definition transcript_norm (d : Transcript) : Transcript :=
  mkTranscript (valid_utf8 (SessionID d)) (valid_utf8 (Title d)) (CreatedAt d) (UpdatedAt d) (ArchivedAt d)
    (message_norm <$> Messages d).
Definition transcript_json_ok (d : Transcript) : bool :=
  json_time_ok (CreatedAt d) && json_time_ok (UpdatedAt d)
  && match ArchivedAt d with Some t => json_time_ok t | None => true end
  && forallb message_json_ok (Messages d).
Definition workset_norm (w : SessionWorkset) : SessionWorkset :=
  mkWorkset (valid_utf8 <$> ArtifactPaths w) (valid_utf8 <$> RecallCardIDs w) (valid_utf8 <$> SourceRefs w)
    (valid_utf8 <$> FocusPaths w).
Definition state_norm (s : SessionState) : SessionState :=
  mkSessionState (valid_utf8 (st_SessionID s)) (valid_utf8 (Topic s)) (valid_utf8 (FocusTaskID s)) (valid_utf8 (PendingQuestion s))
    (valid_utf8 (PendingAction s)) (valid_utf8 (LastUserAct s)) (valid_utf8 (LastAssistantAct s)) (workset_norm (WorkingSet s)) (st_UpdatedAt s).
Definition state_json_ok (s : SessionState) : bool := json_time_ok (st_UpdatedAt s).

(** ** The store

    The three directories under [sessions], by file name.  [Doc None] is an
    empty file, which the store reads as a missing one; [Torn] is one that
    does not decode. *)
Abbreviation Dir A := (gmap string (File (option A))).
Record Store := mkStore { history : Dir Transcript; states : Dir SessionState; archive : Dir Transcript }.
Definition NewStore : Store := mkStore ∅ ∅ ∅.

Definition history_dir : Lens Store (Dir Transcript) :=
  mkLens history (λ f s, mkStore (f (history s)) (states s) (archive s)).
Definition states_dir : Lens Store (Dir SessionState) :=
  mkLens states (λ f s, mkStore (history s) (f (states s)) (archive s)).
Definition archive_dir : Lens Store (Dir Transcript) :=
  mkLens archive (λ f s, mkStore (history s) (states s) (f (archive s))).

(** [os.WriteFile] of a marshalled document: a write that fails after the
    truncation leaves an empty file or part of the document. *)
Definition writeDoc {A} (dir : Lens Store (Dir A)) (name : string) (data : A) : M Store unit :=
  f ← io;
  match f with
  | NoFault => modify (over dir (insert name (Doc (Some data))))
  | FailEarly => throw EIO
  | FailTorn =>
      n ← io;
      _ ← modify (over dir (insert name (match n with NoFault => Doc None | _ => Torn end)));
      throw EIO
  end.

Definition sessionPath (sessionID : string) : string := fileName sessionID.
Definition sessionStatePath (sessionID : string) : string := fileName sessionID.
Definition archivedSessionPath (sessionID : string) : string := fileName sessionID.

Definition new_transcript (sessionID : string) : Transcript :=
  mkTranscript sessionID "" zeroTime zeroTime None [].
Definition loadLocked (sessionID : string) : M Store Transcript :=
  s ← get;
  match history s !! sessionPath sessionID with
  | None | Some (Doc None) => mret (new_transcript sessionID)
  | Some Torn => throw EJson
  | Some (Doc (Some d)) =>
      mret (mkTranscript (if decide (SessionID d = "") then sessionID else SessionID d) (Title d) (CreatedAt d)
              (UpdatedAt d) (ArchivedAt d) (Messages d))
  end.
Definition saveLocked (d : Transcript) : M Store unit :=
  if transcript_json_ok d then writeDoc history_dir (sessionPath (SessionID d)) (transcript_norm d) else throw EJson.
Definition loadStateLocked (sessionID : string) : M Store SessionState :=
  s ← get;
  match states s !! sessionStatePath sessionID with
  | None | Some (Doc None) => mret (empty_state sessionID)
  | Some Torn => throw EJson
  | Some (Doc (Some st)) =>
      mret (if decide (st_SessionID st = "") then
              mkSessionState sessionID (Topic st) (FocusTaskID st) (PendingQuestion st) (PendingAction st)
                (LastUserAct st) (LastAssistantAct st) (WorkingSet st) (st_UpdatedAt st)
            else st)
  end.
Definition saveStateLocked (st : SessionState) : M Store unit :=
  if state_json_ok st then writeDoc states_dir (sessionStatePath (st_SessionID st)) (state_norm st) else throw EJson.
Definition sessionHistoryExistsLocked (sessionID : string) : M Store bool :=
  Stat history_dir (sessionPath sessionID).

(** [content[:56]] cuts bytes. *)
Definition deriveSessionTitle (content : string) : string :=
  let content := TrimSpace (ReplaceAll content newline " ") in
  if decide (content = "") then "New Session"
  else if (56 <? len content)%nat then take_bytes 56 content +:+ "..." else content.

Definition with_messages (d : Transcript) (messages : list Message) (at_ : Time) : Transcript :=
  mkTranscript (SessionID d) (Title d) (CreatedAt d) at_ (ArchivedAt d) messages.
(** [if data.SessionID == "" { ... }] *)
Definition fill_session (d : Transcript) (sessionID : string) (message : Message) : M Store Transcript :=
  if decide (SessionID d = "") then
    t ← now;
    mret (mkTranscript sessionID (deriveSessionTitle (Content message)) t (UpdatedAt d) (ArchivedAt d) (Messages d))
  else mret d.

Definition Append (sessionID : string) (message : Message) : M Store unit :=
  d ← loadLocked sessionID;
  d ← fill_session d sessionID message;
  let d := if blank (Title d)
    then mkTranscript (SessionID d) (deriveSessionTitle (Content message)) (CreatedAt d) (UpdatedAt d)
           (ArchivedAt d) (Messages d)
    else d in
  t ← now;
  saveLocked (with_messages d (Messages d ++ [message]) t).

(** Replace the first message with the ID, or append. *)
Fixpoint upsert_message (message : Message) (messages : list Message) : list Message :=
  match messages with
  | [] => [message]
  | m :: rest =>
      if decide (MessageID m = MessageID message) then message :: rest else m :: upsert_message message rest
  end.
Definition Upsert (sessionID : string) (message : Message) : M Store unit :=
  d ← loadLocked sessionID;
  d ← fill_session d sessionID message;
  t ← now;
  saveLocked (with_messages d (upsert_message message (Messages d)) t).

Definition last_messages (limit : Z) (messages : list Message) : list Message :=
  if (0 <? limit) && (limit <? Z.of_nat (length messages))
  then drop (length messages - Z.to_nat limit) messages else messages.
(** [Store.List] *)
Definition ListMessages (sessionID : string) (limit : Z) : M Store (list Message) :=
  d ← loadLocked sessionID;
  mret (last_messages limit (Messages d)).

(** [listSessionsLocked]: every document of the directory, newest first; an
    unreadable or empty document fails the listing. *)
Definition summary (d : Transcript) : SessionSummary :=
  mkSummary (SessionID d) (firstNonEmpty [Title d; SessionID d]) (CreatedAt d) (UpdatedAt d)
    (Z.of_nat (length (Messages d))).
Definition newer (a b : SessionSummary) : Prop :=
  if decide (sum_UpdatedAt a = sum_UpdatedAt b) then String.le (sum_SessionID b) (sum_SessionID a)
  else sum_UpdatedAt b < sum_UpdatedAt a.
#[export] Instance newer_dec : RelDecision newer.
Proof. intros a b. unfold newer. destruct (decide (sum_UpdatedAt a = sum_UpdatedAt b)); apply _. Defined.
Fixpoint read_summaries (entries : list (string * File (option Transcript))) : result (list SessionSummary) :=
  match entries with
  | [] => Ok []
  | (name, f) :: rest =>
      if decide (Ext name = ".json") then
        match f with
        | Doc (Some d) => l ← read_summaries rest; Ok (summary d :: l)
        | _ => Err EJson
        end
      else read_summaries rest
  end.
Definition listSessionsLocked (dir : Dir Transcript) (limit : Z) : result (list SessionSummary) :=
  l ← read_summaries (merge_sort entry_le (map_to_list dir));
  let l := merge_sort newer l in
  Ok (if (0 <? limit) && (limit <? Z.of_nat (length l)) then take (Z.to_nat limit) l else l).
Definition Sessions (limit : Z) : M Store (list SessionSummary) :=
  s ← get; lift_result (listSessionsLocked (history s) limit).
Definition ArchivedSessions (limit : Z) : M Store (list SessionSummary) :=
  s ← get; lift_result (listSessionsLocked (archive s) limit).

Definition EnsureSession (sessionID : string) : M Store unit :=
  ok ← sessionHistoryExistsLocked sessionID;
  if (ok : bool) then mret tt else
  t ← now;
  saveLocked (mkTranscript sessionID "New Session" t t None []).

Definition RenameSession (sessionID title : string) : M Store unit :=
  ok ← sessionHistoryExistsLocked sessionID;
  if negb ok then throw ENotExist else
  d ← loadLocked sessionID;
  let title := if blank title then "New Session" else TrimSpace title in
  t ← now;
  saveLocked (mkTranscript (SessionID d) title (CreatedAt d) t (ArchivedAt d) (Messages d)).

Definition ArchiveSession (sessionID : string) : M Store unit :=
  ok ← sessionHistoryExistsLocked sessionID;
  if negb ok then throw ENotExist else
  d ← loadLocked sessionID;
  t ← now;
  let d := mkTranscript (SessionID d) (Title d) (CreatedAt d) t (Some t) (Messages d) in
  if transcript_json_ok d then
    _ ← writeDoc archive_dir (archivedSessionPath sessionID) (transcript_norm d);
    _ ← RemoveIgnore states_dir (sessionStatePath sessionID);
    Remove history_dir (sessionPath sessionID)
  else throw EJson.

Definition RestoreSession (sessionID : string) : M Store unit :=
  s ← get;
  match archive s !! archivedSessionPath sessionID with
  | None => throw ENotExist
  | Some Torn | Some (Doc None) => throw EJson
  | Some (Doc (Some d)) =>
      t ← now;
      _ ← saveLocked (mkTranscript (SessionID d) (Title d) (CreatedAt d) t None (Messages d));
      Remove archive_dir (archivedSessionPath sessionID)
  end.

Definition DeleteSession (sessionID : string) : M Store unit :=
  s ← get;
  if bool_decide (is_Some (states s !! sessionStatePath sessionID))
     || bool_decide (is_Some (history s !! sessionPath sessionID))
     || bool_decide (is_Some (archive s !! archivedSessionPath sessionID))
  then
    _ ← Remove states_dir (sessionStatePath sessionID);
    _ ← Remove history_dir (sessionPath sessionID);
    Remove archive_dir (archivedSessionPath sessionID)
  else throw ENotExist.

Definition GetSessionState (sessionID : string) : M Store SessionState := loadStateLocked sessionID.
Definition SaveSessionState (st : SessionState) : M Store unit :=
  let id := TrimSpace (st_SessionID st) in
  if decide (id = "") then throw ErrInvalidArgument else
  t ← now;
  saveStateLocked (mkSessionState id (Topic st) (FocusTaskID st) (PendingQuestion st) (PendingAction st)
    (LastUserAct st) (LastAssistantAct st) (WorkingSet st) t).

(** ** Stored documents *)

Lemma omit_zero_idemp' x : omit_zero (omit_zero x) = omit_zero x.
Proof. by destruct x. Qed.
Lemma omit_zero_finite x : is_finite (omit_zero x) = is_finite x.
Proof. by destruct x. Qed.
Lemma fmap_idemp {A} (f : A → A) (l : list A) : (∀ x, f (f x) = f x) → f <$> (f <$> l) = f <$> l.
Proof. intros H. rewrite <- list_fmap_compose. apply list_fmap_ext. intros ? x _. apply H. Qed.

Lemma context_norm_idemp c : context_norm (context_norm c) = context_norm c.
Proof.
  unfold context_norm; cbn. f_equal; apply fmap_idemp; intros x; try apply valid_utf8_idemp;
    unfold taskref_norm, recallref_norm; cbn; by rewrite ?valid_utf8_idemp.
Qed.
Lemma message_norm_idemp m : message_norm (message_norm m) = message_norm m.
Proof.
  unfold message_norm; cbn. rewrite !valid_utf8_idemp, omit_zero_idemp'. f_equal.
  - apply fmap_idemp. intros []. unfold link_norm; cbn. by rewrite !valid_utf8_idemp.
  - apply fmap_idemp. intros []. unfold action_norm; cbn. by rewrite !valid_utf8_idemp.
  - destruct (Context_ m); cbn; [by rewrite context_norm_idemp|done].
  - apply fmap_idemp. intros []. unfold trace_norm; cbn. by rewrite !valid_utf8_idemp.
Qed.
Lemma transcript_norm_idemp d : transcript_norm (transcript_norm d) = transcript_norm d.
Proof.
  unfold transcript_norm; cbn. by rewrite !valid_utf8_idemp, fmap_idemp by apply message_norm_idemp.
Qed.
Lemma messages_json_ok l : forallb message_json_ok (message_norm <$> l) = forallb message_json_ok l.
Proof.
  induction l as [|m l IH]; cbn; [done|]. rewrite IH. f_equal.
  unfold message_json_ok; cbn. by rewrite omit_zero_finite.
Qed.

(** A transcript file as the store writes it. *)
Definition stored (name : string) (f : File (option Transcript)) : Prop :=
  ∃ d, f = Doc (Some d) ∧ name = fileName (SessionID d) ∧ SessionID d ≠ "" ∧
    transcript_norm d = d ∧ transcript_json_ok d = true.
Definition good (s : Store) : Prop := map_Forall stored (history s) ∧ map_Forall stored (archive s).
(** A session ID that JSON does not change. *)
Definition proper_id (id : string) : Prop := id ≠ "" ∧ valid_utf8 id = id.

Lemma stored_norm d :
  proper_id (SessionID d) → transcript_json_ok d = true →
  stored (fileName (SessionID d)) (Doc (Some (transcript_norm d))).
Proof.
  intros [Hne Hv] Hj. exists (transcript_norm d). split; [done|]. cbn. rewrite Hv.
  split; [done|]. split; [done|]. split; [apply transcript_norm_idemp|].
  unfold transcript_json_ok in *; cbn. by rewrite messages_json_ok.
Qed.
Lemma stored_at id d : proper_id id → stored (fileName id) (Doc (Some d)) →
  SessionID d = id ∧ transcript_norm d = d ∧ transcript_json_ok d = true.
Proof. intros [Hne _] (d' & [= <-] & Hn & _ & H1 & H2). apply fileName_inj in Hn. by subst. Qed.

(** ** The abstract conversation store

    What the store promises: the messages of the live and of the archived
    sessions, and which sessions have a saved state. *)
Record Spec := mkSpec {
  live : gmap string (list Message); archived : gmap string (list Message); stated : gset string }.

Definition file_messages (f : File (option Transcript)) : list Message :=
  match f with Doc (Some d) => Messages d | _ => [] end.
Definition abs (s : Store) : Spec :=
  mkSpec (file_messages <$> history s) (file_messages <$> archive s) (dom (states s)).

Inductive ChatOp :=
  | OAppend (id : string) (m : Message) | OUpsert (id : string) (m : Message)
  | OEnsure (id : string) | ORename (id title : string) | OArchive (id : string)
  | ORestore (id : string) | ODelete (id : string) | OSaveState (st : SessionState).

Definition run_op (op : ChatOp) : M Store unit :=
  match op with
  | OAppend id m => Append id m
  | OUpsert id m => Upsert id m
  | OEnsure id => EnsureSession id
  | ORename id title => RenameSession id title
  | OArchive id => ArchiveSession id
  | ORestore id => RestoreSession id
  | ODelete id => DeleteSession id
  | OSaveState st => SaveSessionState st
  end.

(** What an operation answers (success or an error) and does. *)
Definition set_live (a : Spec) (id : string) (l : list Message) : Spec :=
  mkSpec (<[fileName id := message_norm <$> l]> (live a)) (archived a) (stated a).
Definition spec_op (op : ChatOp) (a : Spec) : bool * Spec :=
  match op with
  | OAppend id m =>
      if message_json_ok m then (true, set_live a id (default [] (live a !! fileName id) ++ [m])) else (false, a)
  | OUpsert id m =>
      if message_json_ok m then (true, set_live a id (upsert_message m (default [] (live a !! fileName id))))
      else (false, a)
  | OEnsure id => (true, match live a !! fileName id with Some _ => a | None => set_live a id [] end)
  | ORename id _ => (bool_decide (is_Some (live a !! fileName id)), a)
  | OArchive id =>
      match live a !! fileName id with
      | Some l => (true, mkSpec (delete (fileName id) (live a)) (<[fileName id := l]> (archived a))
                           (stated a ∖ {[fileName id]}))
      | None => (false, a)
      end
  | ORestore id =>
      match archived a !! fileName id with
      | Some l => (true, mkSpec (<[fileName id := l]> (live a)) (delete (fileName id) (archived a)) (stated a))
      | None => (false, a)
      end
  | ODelete id =>
      if bool_decide (fileName id ∈ stated a) || bool_decide (is_Some (live a !! fileName id))
         || bool_decide (is_Some (archived a !! fileName id))
      then (true, mkSpec (delete (fileName id) (live a)) (delete (fileName id) (archived a))
                    (stated a ∖ {[fileName id]}))
      else (false, a)
  | OSaveState st =>
      let id := TrimSpace (st_SessionID st) in
      if decide (id = "") then (false, a)
      else (true, mkSpec (live a) (archived a) (stated a ∪ {[fileName id]}))
  end.

Definition op_id_ok (op : ChatOp) : Prop :=
  match op with
  | OAppend id _ | OUpsert id _ | OEnsure id | ORename id _ | OArchive id | ORestore id | ODelete id => proper_id id
  | OSaveState _ => True
  end.

(** A world whose files work and whose clock JSON can write. *)
Definition fine (w : World) : Prop := reliable w ∧ ∀ n, json_time_ok (clock w n) = true.
Lemma fine_advance w : fine w → fine (advance w).
Proof. done. Qed.

(** ** Simulation, operation by operation *)

Definition simulates (m : M Store unit) (f : Spec → bool * Spec) : Prop :=
  ∀ s w, good s → fine w → ∃ res s' w', m s w = (res, s', w') ∧ good s' ∧ fine w' ∧ (is_ok res, abs s') = f (abs s).

Lemma writeDoc_reliable {A} (dir : Lens Store (Dir A)) name data s w :
  reliable w → writeDoc dir name data s w = (Ok tt, over dir (insert name (Doc (Some data))) s, advance w).
Proof. intros Hw. unfold writeDoc. run. by rewrite Hw. Qed.

Lemma live_lookup s id : live (abs s) !! fileName id = file_messages <$> history s !! fileName id.
Proof. apply lookup_fmap. Qed.
Lemma loadLocked_good id s w :
  proper_id id → good s →
  ∃ d, loadLocked id s w = (Ok d, s, w) ∧ SessionID d = id ∧ transcript_norm d = d ∧ transcript_json_ok d = true ∧
    Messages d = default [] (live (abs s) !! fileName id).
Proof.
  intros Hid [Hh _]. rewrite live_lookup. destruct (history s !! fileName id) as [f|] eqn:E.
  - specialize (Hh _ _ E). destruct (Hh) as (d & -> & _). apply stored_at in Hh as (H1 & H2 & H3); [|done].
    exists d. split; [|done]. unfold loadLocked, sessionPath. rewrite bind_eq. cbn. rewrite E. cbn.
    rewrite decide_False by (rewrite H1; apply Hid). by destruct d.
  - exists (new_transcript id). destruct Hid as [Hne Hv]. split; [|split; [done|]].
    + unfold loadLocked, sessionPath. rewrite bind_eq. cbn. by rewrite E.
    + unfold transcript_norm; cbn. by rewrite Hv.
Qed.

(** A transcript with new messages: what saving it does. *)
Lemma save_simulates d l t s w :
  proper_id (SessionID d) → transcript_json_ok d = true → json_time_ok t = true → good s → fine w →
  ∃ res s' w', saveLocked (with_messages d l t) s w = (res, s', w') ∧ good s' ∧ fine w' ∧
    (is_ok res, abs s') = if forallb message_json_ok l then (true, set_live (abs s) (SessionID d) l) else (false, abs s).
Proof.
  intros Hid Hj Ht [Hh Ha] Hw. unfold saveLocked.
  assert (transcript_json_ok (with_messages d l t) = forallb message_json_ok l) as E.
  { unfold transcript_json_ok in *; cbn. apply andb_true_iff in Hj as [[[Hc _]%andb_true_iff Har]%andb_true_iff _].
    by rewrite Hc, Ht, Har. }
  rewrite E. destruct (forallb message_json_ok l) eqn:El.
  - rewrite writeDoc_reliable by apply Hw. eexists _, _, _. split; [reflexivity|].
    cbn. split; [split; [|done]|split; [by apply fine_advance|]].
    + cbn. apply map_Forall_insert_2; [|done].
      apply (stored_norm (with_messages d l t)); [done|]. by rewrite E.
    + unfold abs, set_live; cbn. by rewrite fmap_insert.
  - eexists _, _, _. split; [reflexivity|]. split; [done|]. split; [done|]. done.
Qed.

Lemma messages_good id s d :
  transcript_json_ok d = true → Messages d = default [] (live (abs s) !! fileName id) →
  forallb message_json_ok (default [] (live (abs s) !! fileName id)) = true.
Proof. intros Hj <-. unfold transcript_json_ok in Hj. by apply andb_true_iff in Hj as [_ ?]. Qed.
Lemma upsert_json_ok m l :
  forallb message_json_ok l = true → forallb message_json_ok (upsert_message m l) = message_json_ok m.
Proof.
  induction l as [|x l IH]; cbn; [by rewrite andb_true_r|]. intros [Hx Hl]%andb_true_iff.
  case_decide; cbn; [by rewrite Hl, andb_true_r|]. by rewrite Hx, IH.
Qed.

Lemma simulates_Append id m : proper_id id → simulates (Append id m) (spec_op (OAppend id m)).
Proof.
  intros Hid s w Hs Hw. destruct (loadLocked_good id s w Hid Hs) as (d & E & Hd & Hn & Hj & Hm).
  unfold Append. rewrite bind_eq, E, bind_eq. unfold fill_session.
  rewrite decide_False by (rewrite Hd; apply Hid). cbn. rewrite bind_eq. cbn. subst id.
  set (d' := if blank (Title d) then _ else d).
  destruct (save_simulates d' (Messages d' ++ [m]) (clock w (tick w)) s (advance w)) as (res & s' & w' & E' & H1 & H2 & H3);
    [by subst d'; destruct (blank _)|by subst d'; destruct (blank _)|apply Hw|done|by apply fine_advance|].
  exists res, s', w'. rewrite E'. do 3 (split; [done|]). rewrite H3, forallb_app.
  replace (Messages d') with (Messages d) by (subst d'; by destruct (blank _)).
  replace (SessionID d') with (SessionID d) by (subst d'; by destruct (blank _)).
  rewrite Hm, (messages_good _ _ _ Hj Hm). cbn. by rewrite andb_true_r.
Qed.
Lemma simulates_Upsert id m : proper_id id → simulates (Upsert id m) (spec_op (OUpsert id m)).
Proof.
  intros Hid s w Hs Hw. destruct (loadLocked_good id s w Hid Hs) as (d & E & Hd & Hn & Hj & Hm).
  unfold Upsert. rewrite bind_eq, E, bind_eq. unfold fill_session.
  rewrite decide_False by (rewrite Hd; apply Hid). cbn. rewrite bind_eq. cbn. subst id.
  destruct (save_simulates d (upsert_message m (Messages d)) (clock w (tick w)) s (advance w))
    as (res & s' & w' & E' & H1 & H2 & H3); [done|done|apply Hw|done|by apply fine_advance|].
  exists res, s', w'. rewrite E'. do 3 (split; [done|]). rewrite H3, Hm.
  by rewrite upsert_json_ok by apply (messages_good _ _ _ Hj Hm).
Qed.

Lemma exists_live s id w :
  sessionHistoryExistsLocked id s w = (Ok (bool_decide (is_Some (live (abs s) !! fileName id))), s, w).
Proof.
  unfold sessionHistoryExistsLocked, Stat. run. unfold sessionPath. do 3 f_equal. apply bool_decide_ext.
  rewrite live_lookup. by rewrite fmap_is_Some.
Qed.

Lemma simulates_Ensure id : proper_id id → simulates (EnsureSession id) (spec_op (OEnsure id)).
Proof.
  intros Hid s w Hs Hw. unfold EnsureSession. rewrite bind_eq, exists_live. cbn [spec_op].
  destruct (live (abs s) !! fileName id) as [l|] eqn:E.
  - rewrite bool_decide_eq_true_2 by eauto. eexists _, _, _. split; [reflexivity|]. done.
  - rewrite bool_decide_eq_false_2 by (by intros []). rewrite bind_eq. cbn.
    destruct (save_simulates (mkTranscript id "New Session" (clock w (tick w)) (clock w (tick w)) None [])
      [] (clock w (tick w)) s (advance w)) as (res & s' & w' & E' & H); [done| |apply Hw|done|by apply fine_advance|].
    { unfold transcript_json_ok; cbn. by rewrite (proj2 Hw). }
    exists res, s', w'. done.
Qed.
Lemma simulates_Rename id title : proper_id id → simulates (RenameSession id title) (spec_op (ORename id title)).
Proof.
  intros Hid s w Hs Hw. unfold RenameSession. rewrite bind_eq, exists_live. cbn [spec_op].
  destruct (live (abs s) !! fileName id) as [l|] eqn:E.
  - rewrite bool_decide_eq_true_2 by eauto. cbn [negb].
    destruct (loadLocked_good id s w Hid Hs) as (d & E1 & Hd & Hn & Hj & Hm). rewrite bind_eq, E1, bind_eq. cbn.
    subst id. set (title' := if blank title then _ else _).
    destruct (save_simulates (mkTranscript (SessionID d) title' (CreatedAt d) (UpdatedAt d) (ArchivedAt d) (Messages d))
      (Messages d) (clock w (tick w)) s (advance w)) as (res & s' & w' & E' & H1 & H2 & H3);
      [done..|apply Hw|done|by apply fine_advance|].
    exists res, s', w'. split; [exact E'|]. do 2 (split; [done|]). rewrite H3.
    rewrite Hm, (messages_good _ _ _ Hj Hm). rewrite E. cbn [SessionID default]. f_equal.
    unfold set_live. destruct (abs s) as [lv ar st] eqn:Ea. cbn in *. f_equal.
    apply insert_id. rewrite E. f_equal. rewrite E in Hm. cbn in Hm. subst l.
    apply (f_equal Messages) in Hn. by cbn in Hn.
  - rewrite bool_decide_eq_false_2 by (by intros []). eexists _, _, _. split; [reflexivity|]. done.
Qed.

Lemma fileName_in_stated s id :
  bool_decide (is_Some (states s !! fileName id)) = bool_decide (fileName id ∈ stated (abs s)).
Proof. apply bool_decide_ext. cbn. by rewrite elem_of_dom. Qed.
Lemma is_Some_messages (f : option (File (option Transcript))) :
  bool_decide (is_Some f) = bool_decide (is_Some (file_messages <$> f)).
Proof. apply bool_decide_ext. by rewrite fmap_is_Some. Qed.
Lemma archived_lookup s id : archived (abs s) !! fileName id = file_messages <$> archive s !! fileName id.
Proof. apply lookup_fmap. Qed.

Lemma simulates_Archive id : proper_id id → simulates (ArchiveSession id) (spec_op (OArchive id)).
Proof.
  intros Hid s w Hs Hw. unfold ArchiveSession. rewrite bind_eq, exists_live. cbn [spec_op].
  destruct (live (abs s) !! fileName id) as [l|] eqn:E.
  - rewrite bool_decide_eq_true_2 by eauto. cbn [negb].
    destruct (loadLocked_good id s w Hid Hs) as (d & E1 & Hd & Hn & Hj & Hm). rewrite bind_eq, E1, bind_eq. cbn.
    rewrite E in Hm. cbn in Hm. set (t := clock w (tick w)). assert (json_time_ok t = true) as Ht by apply Hw.
    set (d' := mkTranscript (SessionID d) (Title d) (CreatedAt d) t (Some t) (Messages d)).
    assert (transcript_json_ok d' = true) as Hj'.
    { unfold transcript_json_ok in *; cbn. apply andb_true_iff in Hj as [[[Hc _]%andb_true_iff _]%andb_true_iff Hms].
      by rewrite Hc, Hms, Ht. }
    rewrite Hj'. rewrite bind_eq, writeDoc_reliable by apply Hw. cbn beta iota.
    rewrite bind_eq, RemoveIgnore_reliable by apply Hw. cbn beta iota. rewrite Remove_reliable by apply Hw.
    eexists _, _, _. split; [reflexivity|]. destruct Hs as [Hh Ha]. cbn.
    split; [split; cbn; [by apply map_Forall_delete|]|split; [exact Hw|]].
    + apply map_Forall_insert_2; [|done]. unfold archivedSessionPath. rewrite <- Hd.
      apply (stored_norm d'); [by rewrite <- Hd in Hid|done].
    + f_equal. unfold abs; cbn. rewrite fmap_delete, fmap_insert, dom_delete_L. cbn.
      apply (f_equal Messages) in Hn. cbn in Hn. by rewrite Hn, Hm.
  - rewrite bool_decide_eq_false_2 by (by intros []). eexists _, _, _. split; [reflexivity|]. done.
Qed.

Lemma simulates_Restore id : proper_id id → simulates (RestoreSession id) (spec_op (ORestore id)).
Proof.
  intros Hid s w Hs Hw. unfold RestoreSession. rewrite bind_eq. cbn [get]. cbn [spec_op]. rewrite archived_lookup.
  unfold archivedSessionPath. destruct (archive s !! fileName id) as [f|] eqn:E; cbn.
  - destruct Hs as [Hh Ha]. pose proof (Ha _ _ E) as Hf. destruct (Hf) as (d & -> & _).
    apply stored_at in Hf as (Hd & Hn & Hj); [|done]. subst id. rewrite bind_eq. cbn.
    set (t := clock w (tick w)). assert (json_time_ok t = true) as Ht by apply Hw.
    set (d' := mkTranscript (SessionID d) (Title d) (CreatedAt d) t None (Messages d)).
    assert (transcript_json_ok d' = true) as Hj'.
    { unfold transcript_json_ok in *; cbn. apply andb_true_iff in Hj as [[[Hc _]%andb_true_iff _]%andb_true_iff Hms].
      by rewrite Hc, Hms, Ht. }
    unfold saveLocked. rewrite Hj', bind_eq, writeDoc_reliable by apply Hw. cbn beta iota.
    rewrite Remove_reliable by apply Hw. eexists _, _, _. split; [reflexivity|].
    split; [split; cbn; [|by apply map_Forall_delete]|split; [exact Hw|]].
    + apply map_Forall_insert_2; [|done]. by apply (stored_norm d').
    + f_equal. unfold abs; cbn. rewrite fmap_delete, fmap_insert. cbn.
      apply (f_equal Messages) in Hn. cbn in Hn. by rewrite Hn.
  - eexists _, _, _. split; [reflexivity|]. done.
Qed.

Lemma simulates_Delete id : simulates (DeleteSession id) (spec_op (ODelete id)).
Proof.
  intros s w Hs Hw. unfold DeleteSession. rewrite bind_eq. cbn [get spec_op].
  unfold sessionStatePath, sessionPath, archivedSessionPath.
  rewrite fileName_in_stated, !is_Some_messages, <- live_lookup, <- archived_lookup.
  destruct (_ || _).
  - rewrite bind_eq, Remove_reliable by apply Hw. cbn beta iota.
    rewrite bind_eq, Remove_reliable by apply Hw. cbn beta iota. rewrite Remove_reliable by apply Hw.
    eexists _, _, _. split; [reflexivity|]. destruct Hs as [Hh Ha].
    split; [split; cbn; by apply map_Forall_delete|split; [exact Hw|]].
    f_equal. unfold abs; cbn. by rewrite !fmap_delete, dom_delete_L.
  - eexists _, _, _. split; [reflexivity|]. done.
Qed.

Lemma simulates_SaveState st : simulates (SaveSessionState st) (spec_op (OSaveState st)).
Proof.
  intros s w Hs Hw. unfold SaveSessionState. cbn [spec_op]. cbv zeta. case_decide as Hd.
  { eexists _, _, _. split; [reflexivity|]. done. }
  rewrite bind_eq. cbn [now]. unfold saveStateLocked. set (st' := mkSessionState _ _ _ _ _ _ _ _ _).
  replace (state_json_ok st') with true by (symmetry; apply Hw).
  rewrite writeDoc_reliable by apply Hw. eexists _, _, _. split; [reflexivity|].
  split; [exact Hs|]. split; [exact Hw|]. f_equal. unfold abs; cbn. f_equal.
  rewrite dom_insert_L. set_solver.
Qed.

(** C18. The store of conversations refines its abstract specification: with
    working files, every operation answers and changes the live messages, the
    archived messages and the saved states exactly as [spec_op] says, and
    leaves a well-formed store. *)
Theorem conversations_refine op s w :
  good s → fine w → op_id_ok op →
  ∃ res s' w', run_op op s w = (res, s', w') ∧ good s' ∧ (is_ok res, abs s') = spec_op op (abs s).
Proof.
  intros Hs Hw Hop.
  assert (simulates (run_op op) (spec_op op)) as H.
  { destruct op; cbn [run_op op_id_ok] in *.
    - by apply simulates_Append.
    - by apply simulates_Upsert.
    - by apply simulates_Ensure.
    - by apply simulates_Rename.
    - by apply simulates_Archive.
    - by apply simulates_Restore.
    - apply simulates_Delete.
    - apply simulates_SaveState. }
  destruct (H s w Hs Hw) as (res & s' & w' & E & Hs' & _ & Ha). by exists res, s', w'.
Qed.

(** ** Faults: archiving and restoring never lose the conversation they move *)

(** The messages of a session are readable, live or archived. *)
Definition readable (s : Store) (id : string) (l : list Message) : Prop :=
  (∃ d, history s !! fileName id = Some (Doc (Some d)) ∧ Messages d = l) ∨
  (∃ d, archive s !! fileName id = Some (Doc (Some d)) ∧ Messages d = l).

Lemma writeDoc_run {A} (dir : Lens Store (Dir A)) name data s w :
  ∃ res s' w', writeDoc dir name data s w = (res, s', w') ∧
    (match res with Ok _ => s' = over dir (insert name (Doc (Some data))) s | Err _ => s' = s ∨ ∃ f, s' = over dir (insert name f) s end).
Proof.
  unfold writeDoc. rewrite bind_eq. cbn. destruct (faults w (tick w)); eexists _, _, _; (split; [reflexivity|]); cbn; eauto.
Qed.
Lemma Remove_run {A} (dir : Lens Store (Dir A)) name s w :
  ∃ res s' w', Remove dir name s w = (res, s', w') ∧
    (match res with Ok _ => s' = over dir (delete name) s | Err _ => s' = s end).
Proof.
  unfold Remove. rewrite bind_eq. cbn. destruct (faults w (tick w)); eexists _, _, _; (split; [reflexivity|]); done.
Qed.
Lemma RemoveIgnore_run {A} (dir : Lens Store (Dir A)) name s w :
  ∃ s' w', RemoveIgnore dir name s w = (Ok tt, s', w') ∧ (s' = over dir (delete name) s ∨ s' = s).
Proof.
  unfold RemoveIgnore. rewrite bind_eq. unfold try.
  destruct (Remove_run dir name s w) as ([[]|e] & s' & w' & -> & H); eexists _, _; (split; [reflexivity|]); auto.
Qed.

(** C19. Whatever fails, archiving a live session or restoring an archived one
    leaves its messages readable, in one of the two places or in both. *)
Theorem move_never_loses s id d w :
  good s → proper_id id →
  (history s !! fileName id = Some (Doc (Some d)) → readable (exec (ArchiveSession id) s w) id (Messages d)) ∧
  (archive s !! fileName id = Some (Doc (Some d)) → readable (exec (RestoreSession id) s w) id (Messages d)).
Proof.
  intros Hs Hid. split; intros E.
  - assert (readable s id (Messages d)) as Hr by (left; eauto).
    destruct (loadLocked_good id s w Hid Hs) as (d1 & E1 & _ & Hn & _ & Hm). rewrite live_lookup, E in Hm. cbn in Hm.
    apply (f_equal Messages) in Hn. cbn in Hn. unfold exec, ArchiveSession.
    rewrite bind_eq, exists_live, live_lookup, E, bool_decide_eq_true_2 by (cbn; eauto). cbn [negb].
    rewrite bind_eq, E1, bind_eq. cbn [now]. cbv zeta. destruct (transcript_json_ok _); [|exact Hr].
    rewrite bind_eq. match goal with |- context [writeDoc ?a ?b ?c ?d ?e] => destruct (writeDoc_run a b c d e) as ([[]|e1] & s1 & w1 & -> & H1) end.
    + rewrite bind_eq. destruct (RemoveIgnore_run states_dir (sessionStatePath id) s1 w1) as (s2 & w2 & -> & H2).
      destruct (Remove_run history_dir (sessionPath id) s2 w2) as (r3 & s3 & w3 & -> & H3).
      right. assert (archive s3 = archive s1) as -> by (destruct r3, H2; by subst).
      subst s1. cbn. eexists. rewrite lookup_insert_eq. split; [reflexivity|]. cbn. by rewrite Hn, Hm.
    + left. exists d. by destruct H1 as [->|[f ->]].
  - pose proof (proj2 Hs _ _ E) as Hf. apply stored_at in Hf as (Hd & Hn & _); [|done].
    apply (f_equal Messages) in Hn. cbn in Hn. unfold exec, RestoreSession. rewrite bind_eq. cbn [get].
    unfold archivedSessionPath. rewrite E, bind_eq. cbn [now]. rewrite bind_eq. unfold saveLocked.
    destruct (transcript_json_ok _); [|right; exists d; done].
    cbv beta iota. match goal with |- context [writeDoc ?a ?b ?c ?d ?e] => destruct (writeDoc_run a b c d e) as ([[]|e1] & s1 & w1 & -> & H1) end.
    + destruct (Remove_run archive_dir (fileName id) s1 w1) as (r3 & s3 & w3 & -> & H3).
      left. assert (history s3 = history s1) as -> by (destruct r3; by subst).
      subst s1. cbn. rewrite Hd. eexists. rewrite lookup_insert_eq. split; [reflexivity|]. cbn. by rewrite Hn.
    + right. exists d. by destruct H1 as [->|[f ->]].
Qed.

(** ** Two defects *)

Lemma loadLocked_absent id s w :
  history s !! fileName id = None → loadLocked id s w = (Ok (new_transcript id), s, w).
Proof. intros E. unfold loadLocked, sessionPath. rewrite bind_eq. cbn. by rewrite E. Qed.

(** A session that a message creates never gets a creation time: [loadLocked]
    fills in the session ID, so the branch that would set it is dead. *)
Lemma Append_without_creation_time id m s w :
  proper_id id → history s !! fileName id = None → fine w → message_json_ok m = true →
  ∃ d, history (exec (Append id m) s w) !! fileName id = Some (Doc (Some d)) ∧ CreatedAt d = zeroTime.
Proof.
  intros [Hne Hv] E [Hw Ht] Hm. unfold exec, Append. rewrite bind_eq, loadLocked_absent by done.
  rewrite bind_eq. unfold fill_session. rewrite decide_False by done. cbn beta iota. cbn [new_transcript mret M_ret].
  rewrite bind_eq. cbn [now]. unfold saveLocked.
  match goal with |- context [transcript_json_ok ?b] => assert (transcript_json_ok b = true) as -> end.
  - change (blank (Title (new_transcript id))) with true. unfold transcript_json_ok. cbn -[message_json_ok]. by rewrite Ht, Hm.
  - rewrite writeDoc_reliable by done. eexists. split; [apply lookup_insert_eq|done].
Qed.

(** Restoring a session overwrites a live one of the same name. *)
Lemma Restore_overwrites id s w l l' :
  good s → fine w → proper_id id →
  live (abs s) !! fileName id = Some l → archived (abs s) !! fileName id = Some l' →
  live (abs (exec (RestoreSession id) s w)) !! fileName id = Some l'.
Proof.
  intros Hs Hw Hid _ Ha. destruct (simulates_Restore id Hid s w Hs Hw) as (res & s' & w' & E & _ & _ & H).
  unfold exec. rewrite E. cbn [spec_op] in H. rewrite Ha in H.
  apply (f_equal snd) in H. cbn [snd] in H. rewrite H. apply lookup_insert_eq.
Qed.

(** ** Witnesses *)

Definition hello : Message :=
  mkMessage "msg-1" "s1" "user" "hello there" "" "" "" f0 "" "" "" "" "user" [] [] None [] (clock world0 0).
Lemma proper_s1 : proper_id "s1".
Proof. by split. Qed.

(** A world whose clock stands still. *)
Definition still : World := mkWorld (λ _, 1700000000000000000) (λ _, NoFault) (λ _, None) 0.
Lemma still_fine : fine still.
Proof. by split. Qed.
(** The disk fills up while the archive is written. *)
Definition full_disk : World := mkWorld (λ _, 1700000000000000000) (λ _, FailTorn) (λ _, None) 0.
Definition s1_transcript : Transcript :=
  mkTranscript "s1" "hello there" zeroTime 1700000000000000000 None [hello].
Definition one_session : Store := mkStore {[ "s1.json" := Doc (Some s1_transcript) ]} ∅ ∅.
Lemma one_session_good : good one_session.
Proof.
  split; [|done]. apply map_Forall_singleton. exists s1_transcript.
  split; [done|]. split; [done|]. split; [done|]. split; vm_compute; reflexivity.
Qed.

Lemma conversations_refine_witness :
  spec_op (OUpsert "s1" hello) (abs one_session) = (true, abs one_session) ∧
  is_ok (run_op (OUpsert "s1" hello) one_session still).1.1 = true.
Proof.
  destruct (conversations_refine (OUpsert "s1" hello) one_session still one_session_good still_fine proper_s1)
    as (res & s' & w' & E & _ & H).
  assert (spec_op (OUpsert "s1" hello) (abs one_session) = (true, abs one_session)) as Es by (vm_compute; reflexivity).
  split; [exact Es|]. rewrite Es in H. rewrite E. exact (f_equal fst H).
Defined.
Lemma move_never_loses_witness :
  readable (exec (ArchiveSession "s1") one_session full_disk) "s1" [hello].
Proof.
  destruct (move_never_loses one_session "s1" s1_transcript full_disk one_session_good proper_s1) as [H _].
  apply H. vm_compute. reflexivity.
Defined.
