(* ===== verification/ChatRoute.v ===== *)
(** * Routing a chat turn ([internal/chat]: [locale.go], [intent.go],
    [dialogue_agent.go], [skill_agent.go], [route_agent.go])

    Every turn of a user is classified: its dialogue act, whether it is
    answered in the chat or becomes a task, and the skill of the task.  Keyword
    heuristics decide, and a language model may overrule them within limits.
    What the model answers is a parameter: the decision its reply decodes to,
    or an error. *)
From S2P Require Import Prelude GoStrings GoText GoNum ChatStore.
Open Scope Z_scope.

Section routing.
Context {tables : UnicodeTables}.

(** [containsAny] and, with the markers in lower case, [containsAnyMarker] *)
Definition containsAny (text : string) (needles : list string) : bool := existsb (Contains text) needles.
Definition containsAnyMarker (text : string) (markers : list string) : bool :=
  existsb (λ m, Contains text (ToLower m)) markers.
Definition one_of (text : string) (values : list string) : bool := bool_decide (text ∈ values).

(** ** Locale *)

Definition localeZH : string := "zh".
Definition localeEN : string := "en".
Definition isEnglishLocale (locale : string) : bool := EqualFold (TrimSpace locale) localeEN.
Definition containsCJK (text : string) : bool := existsb (λ r, (19968 <=? r) && (r <=? 40959)) (runes text).
Definition looksMostlyASCII (text : string) : bool :=
  if decide (text = "") then false
  else
    let ascii := Z.of_nat (length (filter (λ r, r <= 127) (runes text))) in
    fle (lit 8 10) (fdiv (of_int ascii) (of_int (RuneCount text))).
Definition containsEnglishMarkers (text : string) : bool :=
  containsAny text [" the "; " what "; " where "; " how "; " please "; " can you "; "could you"; "would you"; "hello"; "hi "].
Definition detectTurnLocale (text : string) : string :=
  let trimmed := TrimSpace text in
  if decide (trimmed = "") then localeZH
  else if looksMostlyASCII trimmed && containsEnglishMarkers (ToLower trimmed) then localeEN
  else if containsCJK trimmed then localeZH
  else if looksMostlyASCII trimmed then localeEN
  else localeZH.
Definition localizedText (locale zh en : string) : string := if isEnglishLocale locale then en else zh.

(** ** Decisions *)

Definition IntentKindDirect : string := "direct_reply".
Definition IntentKindTask : string := "task_request".
Record IntentDecision := mkIntent { Kind : string; id_Reason : string; id_Confidence : float64 }.

Definition DialogueActChat : string := "chat".
Definition DialogueActNewTask : string := "new_task".
Definition DialogueActAnswer : string := "answer_question".
Definition DialogueActConfirm : string := "confirm".
Definition DialogueActDeny : string := "deny".
Definition DialogueActContinueTask : string := "continue_task".
Definition DialogueActClarify : string := "clarify".
Definition DialogueActSwitchTopic : string := "switch_topic".
Definition validDialogueActs : list string :=
  [DialogueActChat; DialogueActNewTask; DialogueActAnswer; DialogueActConfirm; DialogueActDeny;
   DialogueActContinueTask; DialogueActClarify; DialogueActSwitchTopic].
Record DialogueDecision := mkDialogue { Act : string; dd_Reason : string; dd_Confidence : float64 }.

Definition SkillTaskPlan : string := "task-plan".
Definition SkillWebSearch : string := "web-search".
Definition SkillGitHubIssueSearch : string := "github-issue-search".
Definition SkillEmailInbox : string := "email-inbox".
Definition SkillMemoryConsolidate : string := "memory-consolidate".
Definition SkillFileRead : string := "file-read".
Definition SkillFileEdit : string := "file-edit".
Definition SkillShellCommand : string := "shell-command".
Definition validSkills : list string :=
  [SkillTaskPlan; SkillWebSearch; SkillGitHubIssueSearch; SkillEmailInbox; SkillMemoryConsolidate;
   SkillFileRead; SkillFileEdit; SkillShellCommand].
Record SkillDecision := mkSkill { Skill : string; sd_Reason : string; sd_Confidence : float64 }.

Record RouteDecision := mkRoute {
  rd_DialogueAct : string; IntentKind : string; rd_Skill : string; Reason : string; Confidence : float64;
  TargetScope : string; RiskLevel : string; NeedsConfirmation : bool; CandidateSkills : list string }.
Definition no_intent : IntentDecision := mkIntent "" "" f0.
Definition no_dialogue : DialogueDecision := mkDialogue "" "" f0.
Definition no_skill : SkillDecision := mkSkill "" "" f0.
Definition no_route : RouteDecision := mkRoute "" "" "" "" f0 "" "" false [].

(** ** Intent heuristics *)

(** The anchored expression of a reply that picks an item of a list. *)
Definition digit : re := RClass [(48, 57)].
Definition space : re := RClass [(9, 10); (12, 13); (32, 32)].
Definition RFold (lower : string) : re :=
  foldr (λ c r, RCat (RClass [(c, c); (c - 32, c - 32)]) r) REps (runes lower).
Definition RAnyOf (s : string) : re := RClass ((λ c, (c, c)) <$> runes s).
Definition number : re := RCat (RClass [(49, 57)]) (RUpTo 2 digit).
Definition spaced (r1 r2 : re) : re := RCat r1 (RCat (RStar space) r2).
Definition listChoiceReplyRE : re :=
  RCat
    (RAlt (spaced (ROpt (RLit "第")) (spaced number (RLit "个")))
    (RAlt (RCat (RLit "第") (spaced (RPlus (RAnyOf "一二三四五六七八九十两百")) (RLit "个")))
    (RAlt (spaced (RLit "选项") number)
    (RAlt (spaced (RFold "option") number)
          number))))
    (ROpt (RLits ["吧"; "啊"; "呢"; "哦"; "呀"; "咯"; "的"; "这个"; "那个"])).

(** [stripPickerPathSuffixes]; every round but the last shortens the text. *)
Definition picker_suffixes : list string := ["这个吧"; "那个吧"; "这个"; "那个"; "吧"; "哦"; "啊"; "呢"; "呀"].
Fixpoint strip_go (fuel : nat) (out : string) : string :=
  match fuel with
  | O => out
  | S fuel =>
      match List.find (HasSuffix out) picker_suffixes with
      | Some suf =>
          let next := TrimSpace (TrimSuffix out suf) in
          if decide (next = out) then out else strip_go fuel next
      | None => out
      end
  end.
Definition stripPickerPathSuffixes (s : string) : string :=
  let out := TrimSpace s in strip_go (len out) out.

(** The loop over leading particles of [pathPickerFollowup]. *)
Definition picker_prefixes : list string := ["在"; "就"; "选"; "用"; "到"; "是"].
Fixpoint particles_go (fuel : nat) (s : string) : string :=
  match fuel with
  | O => s
  | S fuel =>
      match List.find (HasPrefix s) picker_prefixes with
      | Some p => particles_go fuel (TrimSpace (TrimPrefix s p))
      | None => s
      end
  end.
Definition pathPickerFollowup (raw : string) : bool :=
  let s0 := TrimSpace raw in
  if bool_decide (s0 = "") || (512 <? RuneCount s0) then false else
  let s := TrimSpace (stripPickerPathSuffixes s0) in
  let s := particles_go (len s) s in
  HasPrefix s "/" || HasPrefix s "~/" || bool_decide (s = "~").

Definition looksLikeListChoiceReply (msg : string) : bool :=
  let msg := TrimSpace msg in
  if bool_decide (msg = "") || (36 <? RuneCount msg) then false
  else re_match listChoiceReplyRE (runes msg).

Definition assistantOfferedEnumeratedChoice (context : string) : bool :=
  let c := TrimSpace context in
  if decide (c = "") then false else
  let lower := ToLower c in
  containsAny lower ["哪一个"; "which one"; "which of these"]
  || (Contains c "完整路径" && Contains c "|")
  || (4 <=? CountByte c "|")
  || (Contains c "1." && Contains c "2.").

Definition looksLikeReadOnlyFilesystemLookup (raw : string) : bool :=
  let s := TrimSpace raw in
  if decide (s = "") then false else
  let lower := ToLower s in
  let viewOps := containsAny s ["查看"; "显示"; "列出"; "找找"; "看一下"; "看下"] in
  let dirNoun := containsAny s ["目录"; "文件夹"] in
  pathPickerFollowup s
  || (containsAny lower ["where "; "which "; "location of"; "path to"]
      && containsAny lower ["directory"; "folder"; "file"])
  || (Contains lower "find " && containsAny lower ["folder"; "directory"])
  || (dirNoun && containsAny s ["在哪"; "在哪儿"; "位置"; "路径"])
  || (viewOps && dirNoun)
  || (viewOps && Contains s "文件" && containsAny s ["在哪"; "位置"; "路径"]).

Definition questionPatterns : list string := [
    "what "; "where "; "when "; "which "; "who "; "how "; "why "; "is it"; "is there"; "are there";
    "can you tell"; "do you know"; "could you tell"; "would you"; "什么"; "哪里"; "哪个"; "哪些"; "在哪";
    "怎么"; "怎样"; "为什么"; "如何"; "多少"; "几个"; "是什么"; "是哪"; "能不能"; "可不可以"; "有没有"; "是不是"; "告訴我"; "告诉我";
    "知道吗"; "对吗"; "吗"; "嗎"; "呢" ].
Definition looksLikeQuestion (text : string) : bool := ContainsAny text "?？" || containsAny text questionPatterns.

Definition looksLikeAffirmativeFollowup (text : string) : bool :=
  one_of text ["需要"; "要"; "好的"; "好"; "可以"; "行"; "继续"; "继续吧"; "是的"; "要的"; "嗯"; "嗯嗯"; "yes"; "ok"; "okay"; "sure"].
Definition suggestsAssistantOfferedContinuation (context : string) : bool :=
  if decide (context = "") then false
  else containsAnyMarker context
    ["需要我"; "要我"; "继续"; "总结"; "详细"; "展开"; "接着"; "是否"; "要不要"; "would you like"; "do you want"; "need me to"].

Definition greetings : list string := [
    "hi"; "hello"; "hey"; "你好"; "您好"; "嗨"; "哈喽"; "早上好"; "晚上好" ].
Definition social : list string := [
    "谢谢"; "thank you"; "thanks"; "好的"; "ok"; "okay"; "行"; "明白了" ].
Definition strongMarkers : list string := [
    "search"; "summarize"; "execute"; "install"; "configure"; "搜索"; "总结"; "执行"; "安装"; "配置"; "帮我搜";
    "帮我查"; "帮我找"; "帮我写"; "帮我读"; "帮我运行"; "帮我编辑"; "帮我修改"; "帮我修复"; "帮我创建"; "帮我打开"; "帮我检查"; "帮我分析";
    "帮我规划" ].
Definition actionVerbs : list string := [
    "plan"; "inspect"; "review"; "analyze"; "read"; "write"; "edit"; "update"; "fix"; "run";
    "create"; "open"; "check"; "规划"; "计划"; "检查"; "审查"; "分析"; "读取"; "写入"; "编辑"; "修改"; "修复"; "运行";
    "创建"; "打开"; "帮我"; "请你" ].
Definition topicNouns : list string := [
    "repo"; "repository"; "github"; "issue"; "email"; "mail"; "inbox"; "shell"; "command"; "memory";
    "recall"; "file"; "browser"; "task"; "web"; "仓库"; "项目"; "邮件"; "终端"; "命令"; "记忆"; "回忆"; "文件"; "任务" ].

Definition direct (reason : string) (confidence : Z) : option IntentDecision :=
  Some (mkIntent IntentKindDirect reason (lit confidence 100)).
Definition task (reason : string) (confidence : Z) : option IntentDecision :=
  Some (mkIntent IntentKindTask reason (lit confidence 100)).

(** [None]: [ok] is false. *)
Definition heuristicIntentDecision (message conversationContext : string) : option IntentDecision :=
  let text := ToLower (TrimSpace message) in
  let context := ToLower (TrimSpace conversationContext) in
  if looksLikeReadOnlyFilesystemLookup message
  then direct "read-only filesystem lookup (answer with workspace tools, not task-plan)" 93
  else if looksLikeListChoiceReply message && assistantOfferedEnumeratedChoice conversationContext
  then direct "short list/table choice after assistant enumerated options" 92
  else if looksLikeAffirmativeFollowup text && suggestsAssistantOfferedContinuation context
  then direct "short affirmative follow-up to assistant continuation question" 90
  else if one_of text greetings then direct "greeting-only message" 99
  else if one_of text social then direct "short conversational acknowledgement" 95
  else
    let isQuestion := looksLikeQuestion text in
    match List.find (Contains text) strongMarkers with
    | Some marker => task ("contains strong operational marker: " +:+ marker) 92
    | None =>
        match (if isQuestion then None else List.find (Contains text) actionVerbs) with
        | Some verb => task ("contains action verb in non-question context: " +:+ verb) 88
        | None =>
            match (if isQuestion then None else List.find (Contains text) topicNouns) with
            | Some noun => task ("contains topic noun in imperative context: " +:+ noun) 78
            | None =>
                if ContainsAny text "/\" && negb isQuestion then task "contains filesystem-like path marker" 82
                else if RuneCount text <=? 8 then direct "very short non-operational message" 72
                else if isQuestion then direct "informational question without strong action marker" 85
                else None
            end
        end
    end.

(** ** Model answers

    A gateway answers a prompt with the decision its reply decodes to, or
    fails.  An answer outside the vocabulary decodes to the zero decision with
    a nil error. *)
Definition Gateway (A : Type) : Type := string → result A.

Definition user_prompt (message conversationContext sessionSummary : string) : string :=
  "User message:" +:+ newline +:+ message
  +:+ (if blank conversationContext then ""
       else newline +:+ newline +:+ "Recent conversation context:" +:+ newline +:+ conversationContext)
  +:+ (if blank sessionSummary then "" else newline +:+ newline +:+ "Session state:" +:+ newline +:+ sessionSummary).

Definition modelIntentDecision (model : Gateway IntentDecision) (message conversationContext : string)
    : result IntentDecision :=
  d ← model (user_prompt message conversationContext "");
  mret (if one_of (Kind d) [IntentKindDirect; IntentKindTask] then d else no_intent).

Definition IntentDecideWithContext (model : option (Gateway IntentDecision)) (message conversationContext : string)
    : IntentDecision :=
  let message := TrimSpace message in
  if decide (message = "") then mkIntent IntentKindDirect "empty message" f1 else
  let fallback := default (mkIntent IntentKindDirect
      "classifier unavailable and heuristic ambiguous, defaulting to conversation" (lit 5 10))
    (heuristicIntentDecision message conversationContext) in
  match model with
  | Some m =>
      match modelIntentDecision m message conversationContext with
      | Ok d => if decide (Kind d = "") then fallback else d
      | Err _ => fallback
      end
  | None => fallback
  end.

(** ** Dialogue acts *)

Definition state_line (label value : string) : list string := if decide (value = "") then [] else [label +:+ value].
Definition summarizeSessionState (st : SessionState) : string :=
  Join (state_line "topic=" (Topic st) ++ state_line "focus_task_id=" (FocusTaskID st)
    ++ state_line "pending_question=" (PendingQuestion st) ++ state_line "pending_action=" (PendingAction st)
    ++ state_line "last_user_act=" (LastUserAct st) ++ state_line "last_assistant_act=" (LastAssistantAct st)) newline.

Definition looksLikeNegativeFollowup (text : string) : bool :=
  one_of text ["不用"; "不需要"; "不了"; "不是"; "别"; "no"; "nope"; "not now"].
Definition social_replies : list string := [
    "hi"; "hello"; "hey"; "你好"; "您好"; "嗨"; "哈喽"; "早上好"; "晚上好"; "谢谢"; "thank you"; "thanks" ].
Definition looksLikeSocialReply (text : string) : bool := one_of text social_replies.
Definition operational_markers : list string := [
    "search"; "web"; "plan"; "summarize"; "inspect"; "check"; "review"; "analyze"; "read"; "write";
    "edit"; "update"; "fix"; "run"; "execute"; "create"; "open"; "task"; "repo"; "repository";
    "github"; "issue"; "email"; "mail"; "inbox"; "shell"; "command"; "memory"; "recall"; "file";
    "install"; "configure"; "搜索"; "查"; "总结"; "规划"; "计划"; "检查"; "审查"; "分析"; "读取"; "写入"; "编辑"; "修改";
    "修复"; "运行"; "执行"; "创建"; "打开"; "任务"; "仓库"; "项目"; "邮件"; "终端"; "命令"; "记忆"; "回忆"; "文件"; "安装"; "配置";
    "帮我"; "请你" ].
Definition containsOperationalMarker (text : string) : bool := containsAnyMarker text operational_markers.

Definition heuristicDialogueDecision (message conversationContext : string) (st : SessionState)
    : option DialogueDecision :=
  let text := ToLower (TrimSpace message) in
  let act (a reason : string) (confidence : Z) := Some (mkDialogue a reason (lit confidence 100)) in
  let pending := negb (blank (PendingQuestion st)) in
  if decide (text = "") then Some (mkDialogue DialogueActChat "empty message" f1)
  else if looksLikeListChoiceReply message && assistantOfferedEnumeratedChoice conversationContext
  then act DialogueActAnswer "list choice after assistant enumerated options" 91
  else if looksLikeAffirmativeFollowup text && pending
  then act DialogueActConfirm "affirmative reply to pending question" 92
  else if looksLikeNegativeFollowup text && pending
  then act DialogueActDeny "negative reply to pending question" 90
  else if containsAnyMarker text ["继续"; "继续吧"; "接着"; "继续做"; "go on"; "continue"] && negb (blank (FocusTaskID st))
  then act DialogueActContinueTask "continue marker with focused task" 90
  else if looksLikeSocialReply text then act DialogueActChat "social conversational reply" 88
  else if pending && (RuneCount text <=? 32)
  then act DialogueActAnswer "short answer while assistant question is pending" 75
  else if negb (blank conversationContext) && containsAnyMarker text ["换个"; "改成"; "不要这个"; "instead"; "switch"]
  then act DialogueActSwitchTopic "explicit topic switch marker" 80
  else if containsOperationalMarker text then act DialogueActNewTask "contains operational marker" 85
  else None.

Definition modelDialogueDecision (model : Gateway DialogueDecision) (message conversationContext : string)
    (st : SessionState) : result DialogueDecision :=
  let summary := if blank (PendingQuestion st) && blank (FocusTaskID st) then "" else summarizeSessionState st in
  d ← model (user_prompt message conversationContext summary);
  mret (if one_of (Act d) validDialogueActs then d else no_dialogue).

Definition DialogueDecide (model : option (Gateway DialogueDecision)) (message conversationContext : string)
    (st : SessionState) : DialogueDecision :=
  let message := TrimSpace message in
  if decide (message = "") then mkDialogue DialogueActChat "empty message" f1 else
  let fallback := default (mkDialogue DialogueActNewTask "fallback to new task after ambiguity" (lit 55 100))
    (heuristicDialogueDecision message conversationContext st) in
  match model with
  | Some m =>
      match modelDialogueDecision m message conversationContext st with
      | Ok d => if decide (Act d = "") then fallback else d
      | Err _ => fallback
      end
  | None => fallback
  end.

(** ** Skills *)

Definition web_markers : list string := ["搜索"; "查一下"; "查找"; "research"; "search"; "web"; "look up"; "google"].
Definition github_markers : list string := ["github"; "issue"; "issues"; "仓库问题"; "工单"; "议题"].
Definition email_markers : list string := ["email"; "mail"; "inbox"; "邮件"; "邮箱"; "收件箱"].
Definition file_markers : list string := ["file"; "readme"; "文件"; "文档"; "note"].
Definition edit_markers : list string :=
  ["edit"; "write"; "update"; "修改"; "编辑"; "写入"; "更新"; "创建"; "新建"; "生成"].
Definition read_markers : list string := ["read"; "读取"; "查看"].
Definition shell_markers : list string := ["shell"; "command"; "run"; "execute"; "终端"; "命令"; "运行"; "执行"].
(** The guard of the directory case of both switches. *)
Definition create_directory (message text : string) : bool :=
  containsAny message ["目录"; "文件夹"] && negb (Contains message "文件")
  && containsAnyMarker text ["创建"; "新建"; "建立"].

Definition heuristicSkillDecision (message conversationContext : string) : option SkillDecision :=
  let text := ToLower (TrimSpace message) in
  let context := ToLower (TrimSpace conversationContext) in
  let pick (skill reason : string) (confidence : Z) := Some (mkSkill skill reason (lit confidence 100)) in
  if looksLikeAffirmativeFollowup text
     && containsAnyMarker context ["搜索"; "search"; "资料"; "sources"; "总结"; "summary"; "memory design"]
  then pick SkillWebSearch "follow-up accepted on recent search/research thread" 82
  else if containsAnyMarker text web_markers then pick SkillWebSearch "contains search or research marker" 92
  else if containsAnyMarker text github_markers then pick SkillGitHubIssueSearch "contains GitHub issue marker" 90
  else if containsAnyMarker text email_markers then pick SkillEmailInbox "contains email marker" 90
  else if containsAnyMarker text ["consolidate memory"; "memory consolidate"; "记忆整理"; "整合记忆"; "memory summary"]
  then pick SkillMemoryConsolidate "explicit memory consolidation request" 88
  else if create_directory message text then pick SkillShellCommand "create directory request" 84
  else if containsAnyMarker text edit_markers && containsAnyMarker text file_markers
  then pick SkillFileEdit "contains file create/edit marker" 86
  else if containsAnyMarker text read_markers && containsAnyMarker text file_markers
  then pick SkillFileRead "contains file read marker" 86
  else if containsAnyMarker text shell_markers then pick SkillShellCommand "contains shell command marker" 84
  else None.

Definition add_candidate (candidates : list string) (skill : string) : list string :=
  if decide (skill ∈ candidates) then candidates else candidates ++ [skill].
Definition prefilterCandidateSkills (message conversationContext : string) (st : SessionState) : list string :=
  let text := ToLower (TrimSpace (message +:+ newline +:+ conversationContext)) in
  let candidates :=
    if negb (blank (FocusTaskID st))
       && containsAnyMarker text ["continue"; "继续"; "展开"; "接着"; "follow up"; "summarize"]
    then foldl add_candidate [] [SkillWebSearch; SkillEmailInbox; SkillGitHubIssueSearch; SkillTaskPlan]
    else [] in
  let candidates :=
    if containsAnyMarker text web_markers then add_candidate candidates SkillWebSearch
    else if containsAnyMarker text github_markers then add_candidate candidates SkillGitHubIssueSearch
    else if containsAnyMarker text email_markers then add_candidate candidates SkillEmailInbox
    else if create_directory message text then add_candidate candidates SkillShellCommand
    else if containsAnyMarker text edit_markers && containsAnyMarker text file_markers
    then add_candidate candidates SkillFileEdit
    else if containsAnyMarker text read_markers && containsAnyMarker text file_markers
    then add_candidate candidates SkillFileRead
    else if containsAnyMarker text shell_markers then add_candidate candidates SkillShellCommand
    else candidates in
  add_candidate candidates SkillTaskPlan.

Definition heuristicSkillDecisionWithCandidates (message conversationContext : string) (candidates : list string)
    : option SkillDecision :=
  match heuristicSkillDecision message conversationContext with
  | None => None
  | Some d =>
      match candidates with
      | [] => Some d
      | c :: _ =>
          if decide (Skill d ∈ candidates) then Some d
          else Some (mkSkill c "prefiltered candidate fallback" (lit 6 10))
      end
  end.

Definition modelSkillDecision (model : Gateway SkillDecision) (message conversationContext : string)
    : result SkillDecision :=
  d ← model (user_prompt message conversationContext "");
  mret (if one_of (Skill d) validSkills then d else no_skill).
Definition SkillDecideWithContext (model : option (Gateway SkillDecision)) (message conversationContext : string)
    : SkillDecision :=
  let message := TrimSpace message in
  if decide (message = "") then mkSkill SkillTaskPlan "empty message" f1 else
  let fallback := default (mkSkill SkillTaskPlan
      "fallback to task planning after model/heuristic ambiguity" (lit 55 100))
    (heuristicSkillDecision message conversationContext) in
  match model with
  | Some m =>
      match modelSkillDecision m message conversationContext with
      | Ok d => if decide (Skill d = "") then fallback else d
      | Err _ => fallback
      end
  | None => fallback
  end.

(** ** Routes *)

Definition isFollowupDialogueAct (act : string) : bool :=
  one_of act [DialogueActConfirm; DialogueActAnswer; DialogueActContinueTask].

Definition inferTargetScope (dialogueAct intentKind : string) (st : SessionState) : string :=
  if isFollowupDialogueAct dialogueAct && negb (blank (FocusTaskID st)) then "focused_task"
  else if decide (intentKind = IntentKindDirect) then "session"
  else "new_task".

Definition inferRiskLevel (skill intentKind : string) : string :=
  if negb (bool_decide (intentKind = IntentKindTask)) then "low" else
  let skill := TrimSpace skill in
  if one_of skill [SkillFileEdit; SkillShellCommand] then "high"
  else if one_of skill [SkillWebSearch; SkillGitHubIssueSearch; SkillEmailInbox; SkillFileRead] then "medium"
  else "low".

Definition looksLikeExplicitConcreteTask (msg : string) : bool :=
  let msg := TrimSpace msg in
  if decide (msg = "") then false else
  let lower := ToLower msg in
  (HasPrefix lower "touch " && (6 <? len msg)%nat)
  || (HasPrefix lower "mkdir " && (6 <? len msg)%nat)
  || (containsAny lower ["create"; "make"] && Contains lower "file")
  || (Contains lower "write " && Contains lower " to ")
  || (Contains msg "文件" && (containsAny msg ["创建"; "新建"; "生成"; "写入"; "删除"; "删掉"]
                              || containsAny msg ["名叫"; "名为"; "叫做"]))
  || (negb (pathPickerFollowup msg) && Contains msg "/" && (4 <=? RuneCount msg)).

Definition inferNeedsConfirmation (message dialogueAct intentKind skill riskLevel : string) (st : SessionState) : bool :=
  let text := TrimSpace message in
  if negb (bool_decide (intentKind = IntentKindTask)) then false
  else if isFollowupDialogueAct dialogueAct then false
  else if bool_decide (TrimSpace (PendingAction st) = "confirm_task_intent") then false
  else if bool_decide (riskLevel = "high")
          && negb (bool_decide (TrimSpace skill = SkillFileEdit) && looksLikeExplicitConcreteTask text) then true
  else if looksLikeExplicitConcreteTask text then false
  else if bool_decide (detectTurnLocale text = localeEN) && (RuneCount text <=? 16)
          && containsAny (ToLower text) ["this"; "that"; "it"; "something"] then true
  else bool_decide (TrimSpace skill = SkillTaskPlan) && (RuneCount text <=? 10).

Definition maxFloat (values : list float64) : float64 := foldl (λ out v, if flt out v then v else out) f0 values.

Definition heuristicRouteDecision (message conversationContext : string) (st : SessionState) : RouteDecision :=
  let dialogue := default no_dialogue (heuristicDialogueDecision message conversationContext st) in
  let intent := default no_intent (heuristicIntentDecision message conversationContext) in
  let candidates := prefilterCandidateSkills message conversationContext st in
  let skill := default no_skill (heuristicSkillDecisionWithCandidates message conversationContext candidates) in
  let dialogue := if decide (Act dialogue = "")
    then mkDialogue DialogueActNewTask "default new task heuristic" (lit 55 100) else dialogue in
  let intent := if decide (Kind intent = "") then
      if isFollowupDialogueAct (Act dialogue) || bool_decide (Act dialogue = DialogueActChat)
      then mkIntent IntentKindDirect "dialogue act implies direct reply" (dd_Confidence dialogue)
      else mkIntent IntentKindTask "dialogue act implies task request" (dd_Confidence dialogue)
    else intent in
  let skill := if decide (Kind intent = IntentKindDirect) then no_skill else skill in
  let skill := if bool_decide (Kind intent = IntentKindTask) && bool_decide (Skill skill = "")
    then mkSkill SkillTaskPlan "default planning skill" (lit 55 100) else skill in
  let riskLevel := inferRiskLevel (Skill skill) (Kind intent) in
  mkRoute (Act dialogue) (Kind intent) (Skill skill)
    (firstNonEmpty [dd_Reason dialogue; id_Reason intent; sd_Reason skill])
    (maxFloat [dd_Confidence dialogue; id_Confidence intent; sd_Confidence skill])
    (inferTargetScope (Act dialogue) (Kind intent) st) riskLevel
    (inferNeedsConfirmation message (Act dialogue) (Kind intent) (Skill skill) riskLevel st)
    candidates.

Definition modelRouteDecision (model : Gateway RouteDecision) (message conversationContext : string)
    (st : SessionState) : result RouteDecision :=
  d ← model (user_prompt message conversationContext (summarizeSessionState st));
  mret (if one_of (rd_DialogueAct d) validDialogueActs && one_of (IntentKind d) [IntentKindDirect; IntentKindTask]
           && (bool_decide (rd_Skill d = "") || one_of (rd_Skill d) validSkills)
           && forallb (λ s, one_of s validSkills) (CandidateSkills d)
        then mkRoute (rd_DialogueAct d) (IntentKind d) (rd_Skill d) (Reason d) (Confidence d)
               (if decide (TargetScope d = "") then "session" else TargetScope d)
               (if decide (RiskLevel d = "") then "low" else RiskLevel d) (NeedsConfirmation d) (CandidateSkills d)
        else no_route).

Definition without_confirmation (d : RouteDecision) : RouteDecision :=
  mkRoute (rd_DialogueAct d) (IntentKind d) (rd_Skill d) (Reason d) (Confidence d) (TargetScope d) (RiskLevel d)
    false (CandidateSkills d).

(** [RouteAgent.Decide]; [None] is a missing model. *)
Definition Decide (model : option (Gateway RouteDecision)) (message conversationContext : string) (st : SessionState)
    : RouteDecision :=
  let message := TrimSpace message in
  if decide (message = "") then
    mkRoute DialogueActChat IntentKindDirect "" "empty message" f1 "session" "low" false []
  else
  let heuristic := heuristicRouteDecision message conversationContext st in
  match model with
  | None => heuristic
  | Some m =>
      match modelRouteDecision m message conversationContext st with
      | Err _ => heuristic
      | Ok d =>
          let overruled := bool_decide (IntentKind heuristic = IntentKindDirect) && bool_decide (IntentKind d = IntentKindTask) in
          if bool_decide (rd_DialogueAct d = "") || bool_decide (IntentKind d = "") then heuristic
          else if overruled && fle (lit 85 100) (Confidence heuristic) && flt (Confidence d) (lit 85 100) then heuristic
          else if bool_decide (TargetScope heuristic = "focused_task")
                  && one_of (rd_DialogueAct heuristic) [DialogueActContinueTask; DialogueActAnswer; DialogueActConfirm]
                  && negb (bool_decide (TargetScope d = "focused_task")) then heuristic
          else if looksLikeReadOnlyFilesystemLookup message && overruled then heuristic
          else if looksLikeListChoiceReply message && assistantOfferedEnumeratedChoice conversationContext && overruled
          then heuristic
          else if looksLikeExplicitConcreteTask message
                  && negb (bool_decide (inferRiskLevel (rd_Skill d) (IntentKind d) = "high"))
          then without_confirmation d
          else d
      end
  end.

(** ** The vocabulary of a route *)

Definition valid_route (d : RouteDecision) : Prop :=
  rd_DialogueAct d ∈ validDialogueActs ∧ IntentKind d ∈ [IntentKindDirect; IntentKindTask] ∧
  (rd_Skill d = "" ∨ rd_Skill d ∈ validSkills) ∧ Forall (.∈ validSkills) (CandidateSkills d).

Lemma in_list_bool (x : string) l : one_of x l = true → x ∈ l.
Proof. apply bool_decide_eq_true. Qed.
(** Membership in a list of literals. *)
Ltac listed := apply in_list_bool; vm_compute; reflexivity.

Lemma dialogue_act_valid message ctx st d : heuristicDialogueDecision message ctx st = Some d → Act d ∈ validDialogueActs.
Proof.
  unfold heuristicDialogueDecision. cbv zeta.
  repeat match goal with |- context [if ?b then _ else _] => destruct b end; intros [= <-]; listed.
Qed.
Lemma intent_kind_valid message ctx d :
  heuristicIntentDecision message ctx = Some d → Kind d ∈ [IntentKindDirect; IntentKindTask].
Proof.
  unfold heuristicIntentDecision, direct, task. cbv zeta.
  repeat match goal with
  | |- context [if ?b then _ else _] => destruct b
  | |- context [match ?o with Some _ => _ | None => _ end] => destruct o
  end; intros [= <-]; listed.
Qed.
Lemma skill_valid message ctx d : heuristicSkillDecision message ctx = Some d → Skill d ∈ validSkills.
Proof.
  unfold heuristicSkillDecision. cbv zeta.
  repeat match goal with |- context [if ?b then _ else _] => destruct b end; intros [= <-]; listed.
Qed.

Lemma add_candidate_valid l s : Forall (.∈ validSkills) l → s ∈ validSkills → Forall (.∈ validSkills) (add_candidate l s).
Proof. intros Hl Hs. unfold add_candidate. case_decide; [done|]. apply Forall_app. by split; [|constructor]. Qed.
Lemma add_candidates_valid l k :
  Forall (.∈ validSkills) l → Forall (.∈ validSkills) k → Forall (.∈ validSkills) (foldl add_candidate l k).
Proof. intros Hl Hk. revert l Hl. induction Hk as [|s k Hs _ IH]; intros l Hl; cbn; [done|]. by apply IH, add_candidate_valid. Qed.
Lemma candidates_valid message ctx st : Forall (.∈ validSkills) (prefilterCandidateSkills message ctx st).
Proof.
  unfold prefilterCandidateSkills. cbv zeta. apply add_candidate_valid; [|listed].
  assert (∀ b, Forall (.∈ validSkills) (if b : bool then foldl add_candidate []
    [SkillWebSearch; SkillEmailInbox; SkillGitHubIssueSearch; SkillTaskPlan] else [])) as H.
  { intros []; [|constructor]. apply add_candidates_valid; [constructor|]. repeat (constructor; [listed|]). constructor. }
  repeat match goal with |- context [if containsAnyMarker ?a ?b then _ else _] => destruct (containsAnyMarker a b) end;
    repeat match goal with |- context [if ?b then add_candidate _ _ else _] => destruct b end;
    first [apply H|apply add_candidate_valid; [apply H|listed]|idtac].
Qed.
Lemma skill_with_candidates_valid message ctx l d :
  Forall (.∈ validSkills) l → heuristicSkillDecisionWithCandidates message ctx l = Some d → Skill d ∈ validSkills.
Proof.
  intros Hl. unfold heuristicSkillDecisionWithCandidates. destruct (heuristicSkillDecision message ctx) as [d'|] eqn:E; [|done].
  apply skill_valid in E. destruct l as [|c l]; [by intros [= <-]|]. case_decide; intros [= <-]; [done|].
  by apply Forall_cons in Hl as [? _].
Qed.
Lemma heuristic_valid message ctx st : valid_route (heuristicRouteDecision message ctx st).
Proof.
  unfold heuristicRouteDecision, valid_route. cbv zeta. cbn [rd_DialogueAct IntentKind rd_Skill CandidateSkills].
  split; [|split; [|split]].
  - destruct (heuristicDialogueDecision message ctx st) as [d|] eqn:E; cbn; [|listed].
    apply dialogue_act_valid in E. by case_decide; [listed|].
  - destruct (heuristicIntentDecision message ctx) as [d|] eqn:E; cbn.
    + apply intent_kind_valid in E. case_decide; [|done]. destruct (_ || _); listed.
    + destruct (_ || _); listed.
  - match goal with |- context [Kind ?i] => generalize i end. intros i.
    destruct (_ && _); [right; listed|]. case_decide; [by left|].
    destruct (heuristicSkillDecisionWithCandidates _ _ _) as [d|] eqn:E; [|by left].
    right. eapply skill_with_candidates_valid; [apply candidates_valid|exact E].
  - apply candidates_valid.
Qed.
Lemma model_valid m message ctx st d :
  modelRouteDecision m message ctx st = Ok d → rd_DialogueAct d ≠ "" → valid_route d.
Proof.
  unfold modelRouteDecision. intros (d' & _ & H)%result_bind_Ok. injection H as <-.
  destruct (_ && _) eqn:E; [|done]. intros _.
  apply andb_true_iff in E as [[[H1 H2]%andb_true_iff H3]%andb_true_iff H4]. unfold valid_route. cbn.
  split; [by apply in_list_bool|]. split; [by apply in_list_bool|]. split.
  - apply orb_true_iff in H3 as [H3|H3]; [left; by apply bool_decide_eq_true in H3|right; by apply in_list_bool].
  - apply Forall_forall. intros s Hs%list_elem_of_In. eapply forallb_forall in H4; [|exact Hs]. by apply in_list_bool.
Qed.

(** C20. Whatever the language model answers, a route stays in the vocabulary:
    its dialogue act, its intent kind, its skill (when it names one) and its
    candidate skills are among the declared ones.  The scope and the risk level
    it names are not checked by the code and nothing is said of them. *)
Theorem Decide_valid model message ctx st : valid_route (Decide model message ctx st).
Proof.
  unfold Decide. cbv zeta. case_decide.
  { split; [listed|]. split; [listed|]. split; [by left|constructor]. }
  set (h := heuristicRouteDecision _ _ _). assert (valid_route h) as Hh by apply heuristic_valid.
  destruct model as [m|]; [|done]. destruct (modelRouteDecision m _ ctx st) as [d|e] eqn:E; [|done].
  destruct (bool_decide (rd_DialogueAct d = "")) eqn:Ed; [done|]. cbn [orb]. apply bool_decide_eq_false in Ed.
  apply model_valid in E; [|done]. clearbody h.
  repeat match goal with |- context [if ?b then _ else _] => destruct b end; done.
Qed.

(** ** What the model cannot force *)

Lemma guarded_direct message ctx st :
  looksLikeReadOnlyFilesystemLookup message = true ∨
  looksLikeListChoiceReply message && assistantOfferedEnumeratedChoice ctx = true →
  IntentKind (heuristicRouteDecision message ctx st) = IntentKindDirect.
Proof.
  intros H. unfold heuristicRouteDecision. cbv zeta. cbn [IntentKind].
  assert (∃ d, heuristicIntentDecision message ctx = Some d ∧ Kind d = IntentKindDirect) as (d & -> & Hd).
  { unfold heuristicIntentDecision. cbv zeta. destruct (looksLikeReadOnlyFilesystemLookup message); [by eexists|].
    destruct H as [?| ->]; [done|]. by eexists. }
  cbn. rewrite decide_False by (by rewrite Hd). done.
Qed.

(** A turn is routed to a task only with a reason.  If the keyword
    heuristics see no task, the model has answered that there is one, it was
    confident or the heuristics were not, and the turn is neither a read-only
    question about files nor a choice from a list the assistant offered; those
    two are never routed to a task. *)
Theorem tasks_are_warranted model message ctx st :
  let msg := TrimSpace message in
  let h := heuristicRouteDecision msg ctx st in
  IntentKind (Decide model message ctx st) = IntentKindTask →
  looksLikeReadOnlyFilesystemLookup msg = false ∧
  looksLikeListChoiceReply msg && assistantOfferedEnumeratedChoice ctx = false ∧
  (IntentKind h = IntentKindTask ∨
   ∃ m d, model = Some m ∧ modelRouteDecision m msg ctx st = Ok d ∧ IntentKind d = IntentKindTask ∧
     (fle (lit 85 100) (Confidence h) = false ∨ flt (Confidence d) (lit 85 100) = false)).
Proof.
  cbv zeta. unfold Decide. cbv zeta. case_decide; [done|]. set (msg := TrimSpace message) in *.
  destruct (heuristic_valid msg ctx st) as (_ & Hk & _). pose proof (guarded_direct msg ctx st) as Hg.
  set (h := heuristicRouteDecision msg ctx st) in *. clearbody h.
  assert (IntentKind h = IntentKindDirect ∨ IntentKind h = IntentKindTask) as [Hd|Ht] by set_solver; clear Hk.
  2:{ intros _. assert (∀ b, (b = true → IntentKind h = IntentKindDirect) → b = false) as Hb.
      { intros [] Hb; [|done]. rewrite Hb in Ht by done. done. }
      split; [apply Hb; auto|]. split; [apply Hb; auto|]. by left. }
  destruct model as [m|]; [|rewrite Hd; done].
  destruct (modelRouteDecision m msg ctx st) as [d|e] eqn:E; [|rewrite Hd; done].
  destruct (_ || _); [rewrite Hd; done|]. rewrite Hd, (bool_decide_eq_true_2 (IntentKindDirect = IntentKindDirect)) by done.
  cbn [andb]. destruct (bool_decide_reflect (IntentKind d = IntentKindTask)) as [Hdt|Hdt].
  2:{ rewrite !andb_false_r, !andb_false_l. destruct (_ && _ && _); [rewrite Hd; done|].
      intros Hx. destruct Hdt. by destruct (looksLikeExplicitConcreteTask msg && _). }
  rewrite !andb_true_r, andb_true_l.
  destruct (fle (lit 85 100) (Confidence h) && flt (Confidence d) (lit 85 100)) eqn:Ec; [rewrite Hd; done|].
  destruct (_ && _ && _); [rewrite Hd; done|].
  destruct (looksLikeReadOnlyFilesystemLookup msg); [rewrite Hd; done|].
  destruct (looksLikeListChoiceReply msg && assistantOfferedEnumeratedChoice ctx); [rewrite Hd; done|].
  intros _. split; [done|]. split; [done|]. right. exists m, d. do 3 (split; [done|]).
  by apply andb_false_iff in Ec.
Qed.

(** ** Loops and a dead branch *)

Lemma take_bytes_length n s : (len (take_bytes n s) <= n)%nat.
Proof.
  unfold len, take_bytes. revert n. induction s as [|a s IH]; intros [|n]; cbn; try lia. specialize (IH n). lia.
Qed.
Lemma rev_app_length s t : String.length (String.rev_app s t) = (String.length s + String.length t)%nat.
Proof. revert t. induction s as [|a s IH]; intros t; cbn; [done|]. rewrite IH. cbn. lia. Qed.
Lemma string_rev_length s : String.length (String.rev s) = String.length s.
Proof. unfold String.rev. rewrite rev_app_length. cbn. lia. Qed.
Lemma TrimSpace_length s : (len (TrimSpace s) <= len s)%nat.
Proof.
  unfold TrimSpace, TrimRightSpace, TrimLeftSpace, len. rewrite !string_rev_length.
  etrans; [apply trim_with_length|]. unfold len. rewrite string_rev_length. apply trim_with_length.
Qed.
(** Stripping the suffixes goes on until none is left. *)
Lemma strip_done fuel out :
  (len out <= fuel)%nat → List.find (HasSuffix (strip_go fuel out)) picker_suffixes = None.
Proof.
  revert out. induction fuel as [|fuel IH]; intros out Hl; cbn [strip_go].
  { destruct out; [done|cbn in Hl; lia]. }
  destruct (List.find (HasSuffix out) picker_suffixes) as [suf|] eqn:E; [|done].
  pose proof (List.find_some _ _ E) as [Hin Hs].
  assert ((1 <= len suf)%nat) as H1 by (repeat (destruct Hin as [<-|Hin]; [by apply Nat.leb_le|]); done).
  assert ((len (TrimSpace (TrimSuffix out suf)) < len out)%nat) as H2.
  { eapply Nat.le_lt_trans; [apply TrimSpace_length|]. unfold TrimSuffix. rewrite Hs.
    pose proof (take_bytes_length (len out - len suf) out). destruct out as [|a out]; [by destruct suf|].
    unfold len in *. cbn [String.length] in *. lia. }
  case_decide as Hd; [rewrite Hd in H2; lia|]. apply IH. lia.
Qed.

Lemma Contains_cons a s sub : Contains (String a s) sub = HasPrefix (String a s) sub || Contains s sub.
Proof.
  unfold Contains, HasPrefix. cbn [String.index]. destruct (String.prefix sub (String a s)); [done|].
  by destruct (String.index 0 sub s).
Qed.
Lemma Contains_prefix s p q : Contains s (p +:+ q) = true → Contains s p = true.
Proof.
  induction s as [|a s IH].
  - destruct p; [done|]. unfold Contains. by rewrite string_cons_app.
  - rewrite !Contains_cons, !orb_true_iff, !HasPrefix_spec. intros [(r & E)|H]; [left|right; by apply IH].
    exists (q +:+ r). by rewrite E, string_app_assoc.
Qed.

(** A text with the word for folder contains the word for file, which the
    directory case excludes: folder requests never reach it. *)
Lemma folder_is_never_a_directory message text : Contains message "文件夹" = true → create_directory message text = false.
Proof.
  intros H. unfold create_directory. rewrite (Contains_prefix message "文件" "夹" H). cbn [negb].
  by rewrite andb_false_r.
Qed.
End routing.

(** ** A task request *)

#[local] Existing Instance caseless_tables.

Definition eager : Gateway RouteDecision := λ _,
  Ok (mkRoute DialogueActNewTask IntentKindTask SkillShellCommand "" (lit 9 10) "new_task" "high" true [SkillShellCommand]).
Lemma tasks_are_warranted_witness :
  IntentKind (Decide (Some eager) "let us begin" "" (empty_state "s")) = IntentKindTask ∧
  looksLikeReadOnlyFilesystemLookup (TrimSpace "let us begin") = false.
Proof.
  assert (IntentKind (Decide (Some eager) "let us begin" "" (empty_state "s")) = IntentKindTask) as H
    by (vm_compute; reflexivity).
  split; [exact H|]. exact (proj1 (tasks_are_warranted (Some eager) "let us begin" "" (empty_state "s") H)).
Defined.

(** The model cannot turn a question about a directory into a task. *)
Example where_is_lab : IntentKind (Decide (Some eager) "where is the lab folder" "" (empty_state "s")) = IntentKindDirect.
Proof. vm_compute. reflexivity. Qed.
Example second_one : looksLikeListChoiceReply " 第2个吧" = true ∧ looksLikeListChoiceReply "Option 12" = true
  ∧ looksLikeListChoiceReply "20000" = false.
Proof. vm_compute. done. Qed.
Example picked_path : pathPickerFollowup "就 /Users/me/lab 这个吧" = true.
Proof. vm_compute. reflexivity. Qed.
