(* ===== verification/AgentLoop.v ===== *)
(** * The function-calling loop

    The skill registry ([skills/agent_skills.go], [AgentSkillRegistry]) and the
    loop that lets a language model call skills ([chat/agent_loop.go]).  The
    state [S] is whatever the skills and the gateway act on; the model gateway
    and the handlers are functions over it.  Deadlines show as errors of the
    gateway or the handler. *)
From S2P Require Import Prelude GoStrings GoNum GoText GoJson ChatStore ChatRoute.
Open Scope Z_scope.

(** ** The registry *)

(** A handler returns a text and an error, or panics. *)
Inductive HandlerResult := Returns (text : string) (err : option string) | Panics (value : string).
Definition AgentSkillHandler (S : Type) : Type := object → S → HandlerResult * S.
Record AgentSkill (S : Type) := mkAgentSkill {
  Name : string; Description : string; Parameters : json; Handler : AgentSkillHandler S }.
Arguments mkAgentSkill {S} _ _ _ _.
Arguments Name {S} _.
Arguments Description {S} _.
Arguments Parameters {S} _.
Arguments Handler {S} _.
Record AgentSkillRegistry (S : Type) := mkRegistry {
  skills : list (AgentSkill S); index : gmap string (AgentSkillHandler S) }.
Arguments mkRegistry {S} _ _.
Arguments skills {S} _.
Arguments index {S} _.
Definition NewAgentSkillRegistry {S} : AgentSkillRegistry S := mkRegistry [] ∅.

Record ToolDefinition := mkToolDefinition { tool_Name : string; tool_Description : string; tool_Parameters : json }.
Record ToolCall := mkToolCall { tc_ID : string; tc_Type : string; fn_Name : string; fn_Arguments : string }.
Record ChatMessage := mkChatMessage {
  Role : string; Content : string; ToolCalls : list ToolCall; ToolCallID : string }.
Record TextRequest := mkTextRequest {
  Messages : list ChatMessage; Tools : list ToolDefinition; MaxTokens : Z; Temperature : float64; Profile : string }.
(** of an answer, what the loop reads *)
Record TextResponse := mkTextResponse { resp_Text : string; resp_ToolCalls : list ToolCall }.
Record AgentLoopEvent := mkEvent {
  ev_Kind : string; ev_ToolName : string; ev_ToolArgs : string; ev_Result : string; ev_Text : string }.

Section loop.
Context {tables : UnicodeTables} {S : Type}.
(** the message of a [json.Unmarshal] error *)
Variable json_error : string → string.

Definition Register (r : AgentSkillRegistry S) (skill : AgentSkill S) : AgentSkillRegistry S :=
  mkRegistry (skills r ++ [skill]) (<[Name skill := Handler skill]> (index r)).
Definition ToolDefinitions (r : option (AgentSkillRegistry S)) : list ToolDefinition :=
  match r with
  | None => []
  | Some r => (λ s, mkToolDefinition (Name s) (Description s) (Parameters s)) <$> skills r
  end.
(** the text and the error of a call *)
Definition Execute (r : option (AgentSkillRegistry S)) (name rawArgs : string) (s : S) : (string * option string) * S :=
  match r with
  | None => (("", Some "agent skill registry is nil"), s)
  | Some r =>
      match index r !! name with
      | None => (("", Some ("unknown agent skill: " +:+ name)), s)
      | Some handler =>
          let args := if decide (TrimSpace rawArgs = "") then Some None else decode_object rawArgs in
          match args with
          | None => (("", Some ("invalid arguments for " +:+ name +:+ ": " +:+ json_error rawArgs)), s)
          | Some args =>
              match handler (default [] args) s with
              | (Returns text err, s') => ((text, err), s')
              | (Panics v, s') => (("", Some ("skill " +:+ name +:+ " panicked: " +:+ v)), s')
              end
          end
      end
  end.

(** ** The loop *)

Definition maxAgentTurns : nat := 6.

Definition withTurnLocale (rawArgs locale : string) : string :=
  let rawArgs := TrimSpace rawArgs in
  if decide (rawArgs = "") then default "" (encode (JObj [("_locale", JStr locale)])) else
  match decode_object rawArgs with
  | None => rawArgs
  | Some parsed => default rawArgs (encode (JObj (obj_set "_locale" (JStr locale) (default [] parsed))))
  end.
Definition truncateResult (s : string) (max : nat) : string :=
  if (len s <=? max)%nat then s else take_bytes max s +:+ newline +:+ "...(truncated)".

(** The state of a run: what the skills act on, the conversation so far, the
    events shown to the caller, the requests sent to the model. *)
Record LoopState := mkLoop {
  sys : S; messages : list ChatMessage; events : list AgentLoopEvent; requests : list TextRequest }.
Definition emit (e : AgentLoopEvent) (st : LoopState) : LoopState :=
  mkLoop (sys st) (messages st) (events st ++ [e]) (requests st).

Definition run_tool (r : option (AgentSkillRegistry S)) (loc : string) (st : LoopState) (tc : ToolCall) : LoopState :=
  let st := emit (mkEvent "tool_call" (fn_Name tc) (fn_Arguments tc) "" "") st in
  let toolArgs := withTurnLocale (fn_Arguments tc) loc in
  let '((text, err), s') := Execute r (fn_Name tc) toolArgs (sys st) in
  let result := match err with Some e => "Error: " +:+ e | None => text end in
  let st := mkLoop s' (messages st) (events st) (requests st) in
  let st := emit (mkEvent "tool_result" (fn_Name tc) "" (truncateResult result 1500) "") st in
  mkLoop (sys st) (messages st ++ [mkChatMessage "tool" result [] (tc_ID tc)]) (events st) (requests st).

Definition TextGateway : Type := TextRequest → S → (string + TextResponse) * S.

(** The reply, or the message of the error. *)
Inductive Reply := Text (text : string) | Failed (message : string).

Fixpoint turns (n : nat) (gateway : TextGateway) (r : option (AgentSkillRegistry S)) (loc : string)
    (st : LoopState) : Reply * LoopState :=
  match n with
  | O => (Text "我已经使用了多个工具来处理你的请求。如果还需要更多信息，请继续告诉我。",
          emit (mkEvent "turn_limit" "" "" "" "达到了最大工具调用轮次。") st)
  | Datatypes.S n =>
      let req := mkTextRequest (messages st) (ToolDefinitions r) 2048 (lit 2 10) "conversation" in
      let '(resp, s') := gateway req (sys st) in
      let st := mkLoop s' (messages st) (events st) (requests st ++ [req]) in
      match resp with
      | inl e => (Failed ("agent loop LLM call failed: " +:+ e), st)
      | inr resp =>
          match resp_ToolCalls resp with
          | [] =>
              let text := TrimSpace (resp_Text resp) in
              let text := if decide (text = "") then "我已完成处理，但没有产生文本回复。" else text in
              (Text text, emit (mkEvent "final_reply" "" "" "" text) st)
          | calls =>
              let assistantMsg := mkChatMessage "assistant" (resp_Text resp) calls "" in
              let st := mkLoop (sys st) (messages st ++ [assistantMsg]) (events st) (requests st) in
              turns n gateway r loc (foldl (run_tool r loc) st calls)
          end
      end
  end.
Definition Run (gateway : option TextGateway) (r : option (AgentSkillRegistry S))
    (systemPrompt userMessage turnLocale : string) (s : S) : Reply * LoopState :=
  match gateway with
  | None => (Failed "agent loop is not configured", mkLoop s [] [] [])
  | Some gateway =>
      let loc := TrimSpace turnLocale in
      let loc := if decide (loc = "") then detectTurnLocale userMessage else loc in
      turns maxAgentTurns gateway r loc
        (mkLoop s [mkChatMessage "system" systemPrompt [] ""; mkChatMessage "user" userMessage [] ""] [] [])
  end.
End loop.

(** ** The protocol

    What a function-calling model expects of the conversation it is sent: the
    system and the user message, then exchanges, each an assistant message
    with calls followed by one tool message per call, in order, that carries
    the identifier of its call. *)
Definition answers (tc : ToolCall) (m : ChatMessage) : Prop :=
  Role m = "tool" ∧ ToolCallID m = tc_ID tc ∧ ToolCalls m = [].
Inductive conversation (system user : string) : nat → list ChatMessage → Prop :=
  | conv_start : conversation system user 0
      [mkChatMessage "system" system [] ""; mkChatMessage "user" user [] ""]
  | conv_exchange k ms a results :
      conversation system user k ms → Role a = "assistant" → ToolCalls a ≠ [] →
      Forall2 answers (ToolCalls a) results →
      conversation system user (S k) (ms ++ a :: results).

Section loop_facts.
Context {tables : UnicodeTables} {S : Type} (json_error : string → string).
Implicit Types (st : @LoopState S) (r : option (AgentSkillRegistry S)).

(** Running the calls of one answer appends their results, in order. *)
Lemma run_tools_messages r loc calls st :
  ∃ results, Forall2 answers calls results ∧
    messages (foldl (run_tool json_error r loc) st calls) = messages st ++ results ∧
    requests (foldl (run_tool json_error r loc) st calls) = requests st.
Proof.
  revert st. induction calls as [|tc calls IH]; intros st; [by exists []; rewrite app_nil_r|].
  cbn [foldl]. destruct (IH (run_tool json_error r loc st tc)) as (results & Hr & Hm & Hq). rewrite Hm, Hq.
  unfold run_tool. destruct (Execute _ _ _ _ _) as [[text err] s'].
  exists (mkChatMessage "tool" (match err with Some e => "Error: " +:+ e | None => text end) [] (tc_ID tc) :: results).
  split; [by constructor|]. cbn [messages requests emit]. by rewrite <- app_assoc.
Qed.

Lemma turns_protocol gateway r loc system user n k st :
  conversation system user k (messages st) → length (requests st) = k →
  (∀ i q, requests st !! i = Some q → conversation system user i (Messages q)) →
  let '(reply, st') := turns json_error n gateway r loc st in
  (length (requests st') <= n + k)%nat ∧
  (∀ i q, requests st' !! i = Some q → conversation system user i (Messages q)) ∧
  (∀ text, reply = Text text → text ≠ "").
Proof.
  revert k st. induction n as [|n IH]; intros k st Hc Hk Hq; cbn [turns].
  { split_and!; [cbn; lia|done|]. by intros text [= <-]. }
  destruct (gateway _ (sys st)) as [resp s'].
  assert (∀ i q, (requests st ++ [mkTextRequest (messages st) (ToolDefinitions r) 2048 (lit 2 10) "conversation"]) !! i =
    Some q → conversation system user i (Messages q)) as Hq'.
  { intros i q. rewrite lookup_app_Some. intros [?|[Hi Hl]]; [by apply Hq|].
    apply list_lookup_singleton_Some in Hl as [Hz <-]. by replace i with k by lia. }
  assert (length (requests st ++ [mkTextRequest (messages st) (ToolDefinitions r) 2048 (lit 2 10) "conversation"]) =
    Datatypes.S k) as Hl by (rewrite length_app; cbn; lia).
  destruct resp as [e|resp]; [split_and!; [cbn [requests]; lia|done|done]|].
  destruct (resp_ToolCalls resp) as [|tc calls] eqn:Ec.
  { split_and!; [cbn [emit requests]; lia|done|]. intros text [= <-]. case_decide; [done|done]. }
  match goal with |- context [foldl _ ?st1 (tc :: calls)] =>
    destruct (run_tools_messages r loc (tc :: calls) st1) as (results & Hr & Hm & Hrq) end.
  cbn [messages requests] in Hm, Hrq. rewrite <- app_assoc in Hm.
  specialize (IH (Datatypes.S k) (foldl (run_tool json_error r loc)
    (mkLoop s' (messages st ++ [mkChatMessage "assistant" (resp_Text resp) (tc :: calls) ""]) (events st)
      (requests st ++ [mkTextRequest (messages st) (ToolDefinitions r) 2048 (lit 2 10) "conversation"])) (tc :: calls))).
  cbn [sys messages events requests] in *. rewrite Hm, Hrq in IH.
  destruct (turns _ _ _ _ _ _) as [reply st'].
  destruct IH as (H1 & H2 & H3); [by apply conv_exchange|done|done|]. split_and!; [lia|done|done].
Qed.

(** C22. The agent loop always returns, after at most six requests to the
    model; the [i]-th request holds exactly [i] exchanges, each a message of
    the model with calls followed by the result of every call, in order and
    under its identifier, as the function-calling protocol requires; and a
    reply is never empty.  Whatever the model answers and the skills do. *)
Theorem Run_protocol gateway r systemPrompt userMessage turnLocale s :
  let '(reply, st) := Run json_error (Some gateway) r systemPrompt userMessage turnLocale s in
  (length (requests st) <= maxAgentTurns)%nat ∧
  (∀ i q, requests st !! i = Some q → conversation systemPrompt userMessage i (Messages q)) ∧
  (∀ text, reply = Text text → text ≠ "").
Proof.
  unfold Run. set (loc := if decide _ then _ else _). clearbody loc.
  pose proof (turns_protocol gateway r loc systemPrompt userMessage maxAgentTurns 0
    (mkLoop s [mkChatMessage "system" systemPrompt [] ""; mkChatMessage "user" userMessage [] ""] [] [])) as H.
  destruct (turns _ _ _ _ _ _) as [reply st']. apply H; [constructor|done|done].
Qed.

(** Arguments reach the skill as the model wrote them, plus the locale of
    the turn: for arguments that are absent or a JSON object whose numbers are
    printed faithfully, the loop's re-encoded text decodes, in the registry,
    to the same object with [_locale] set, and the handler of the name is
    called with it. *)
Theorem tool_arguments_roundtrip (r : AgentSkillRegistry S) name handler raw parsed loc s :
  index r !! name = Some handler →
  (TrimSpace raw = "" ∧ parsed = None ∨ TrimSpace raw ≠ "" ∧ decode_object (TrimSpace raw) = Some parsed) →
  canonical (JObj (default [] parsed)) → valid_utf8 loc = loc →
  Execute json_error (Some r) name (withTurnLocale raw loc) s =
  match handler (obj_set "_locale" (JStr loc) (default [] parsed)) s with
  | (Returns text err, s') => ((text, err), s')
  | (Panics v, s') => (("", Some ("skill " +:+ name +:+ " panicked: " +:+ v)), s')
  end.
Proof.
  intros Hi Hraw Hc Hl.
  set (m := obj_set "_locale" (JStr loc) (default [] parsed)).
  assert (canonical (JObj m)) as Cm by (apply canonical_obj_set; [done|by constructor|reflexivity]).
  assert (withTurnLocale raw loc = print (JObj m)) as ->.
  { unfold withTurnLocale. destruct Hraw as [[-> ->]|[Hne Hd]].
    - rewrite decide_True by done. change [("_locale", JStr loc)] with m. by rewrite (canonical_encode _ Cm).
    - rewrite decide_False, Hd by done. fold m. by rewrite (canonical_encode _ Cm). }
  unfold Execute. rewrite Hi, decide_False by apply TrimSpace_object.
  unfold decode_object. by rewrite (decode_print _ Cm).
Qed.
End loop_facts.

(** ** A skill that echoes its path *)

Definition echo : AgentSkillHandler nat := λ args s,
  (Returns (match obj_get "path" args with Some (JStr p) => p | _ => "" end) None, Datatypes.S s).
Definition one_skill : AgentSkillRegistry nat := Register NewAgentSkillRegistry (mkAgentSkill "echo" "" JNull echo).
Lemma tool_arguments_roundtrip_witness :
  Execute (λ _, "") (Some one_skill) "echo" (withTurnLocale (dq " {'path': 'notes/plan', 'n': 0.5}") "en") 0%nat =
  (("notes/plan", None), 1%nat).
Proof.
  rewrite (tool_arguments_roundtrip (λ _, "") one_skill "echo" echo _ (Some [("n", JNum (lit 1 2)); ("path", JStr "notes/plan")])).
  - reflexivity.
  - reflexivity.
  - right. split; [by vm_compute|]. vm_compute. reflexivity.
  - repeat constructor; vm_compute; reflexivity.
  - reflexivity.
Defined.
