(* ===== verification/AgentSkills.v ===== *)
(** * The built-in agent skills ([skills/agent_skills.go])

    The handlers a language model reaches through [AgentLoop]: reading and
    listing files, searching a tree, recalling memory, listing tasks, running
    a command.  [write_file] and [append_file] are registered by the source
    but their handlers are not in it. *)
From S2P Require Import Prelude GoStrings GoNum GoText GoTime GoJson MemoryTypes FsAccess AgentLoop.
From S2P Require Recall Runtime.
Open Scope Z_scope.

(** ** The machine the skills see

    [fs] gives what is found at a path without symbolic links; a file or a
    directory that cannot be read holds [None].  Entries are sorted by name,
    as [os.ReadDir] returns them. *)
#[warnings="-register-all"]
Inductive Node := File (content : option string) | Directory (entries : option (list (string * Node))).
Record Machine := mkMachine {
  env : Env;
  fs : string → option Node;
  recall_store : option MemoryStore.Store;
  runtime_store : option Runtime.Store;
  map_order : list string; field_order : string → list (string * string) }.
Record BuiltinSkillOpts := mkOpts { WorkspaceRoot : string; RuntimeRoot : string }.

(** ** Arguments *)

Definition stringArg (args : object) (key : string) : string :=
  match obj_get key args with Some (JStr s) => TrimSpace s | _ => "" end.
(** [int(n)] of a double, as amd64 converts it *)
Definition int_of_float (f : float64) : Z :=
  match f with
  | S754_finite neg m e =>
      let a := if 0 <=? e then Zpos m * 2 ^ e else Zpos m / 2 ^ (- e) in
      let z := if (neg : bool) then - a else a in
      if (- 2 ^ 63 <=? z) && (z <? 2 ^ 63) then z else - 2 ^ 63
  | S754_zero _ => 0
  | _ => - 2 ^ 63
  end.
Definition intArg (args : object) (key : string) (fallback : Z) : Z :=
  match obj_get key args with Some (JNum n) => int_of_float n | _ => fallback end.
Definition localize (locale zh en : string) : string := if EqualFold (TrimSpace locale) "en" then en else zh.
Definition localeFromArgs (args : object) : string := if EqualFold (stringArg args "_locale") "en" then "en" else "zh".

(** ** [filepath.Match]

    A pattern for a name without slashes, as an expression over runes; a
    malformed pattern matches nothing. *)
Definition any_rune : re := RClass [(0, 1114111)].
(** one member of a class, perhaps escaped *)
Definition class_char (p : list Z) : option (Z * list Z) :=
  match p with
  | [] => None
  | c :: p' =>
      if (c =? 45) || (c =? 93) then None
      else if c =? 92 then
        match p' with [] => None | c' :: [] => None | c' :: p'' => Some (c', p'') end
      else match p' with [] => None | _ => Some (c, p') end
  end.
Fixpoint class_ranges (fuel : nat) (first : bool) (p : list Z) : option (list (Z * Z) * list Z) :=
  match fuel with
  | O => None
  | S fuel =>
      match p with
      | 93 :: p' => if first then None else Some ([], p')
      | _ =>
          '(lo, p1) ← class_char p;
          '(hi, p2) ← (match p1 with 45 :: p' => class_char p' | _ => Some (lo, p1) end);
          '(rs, p3) ← class_ranges fuel false p2;
          Some ((lo, hi) :: rs, p3)
      end
  end.
(** the runes outside the given ranges *)
Definition subtract (r : Z * Z) (p : Z * Z) : list (Z * Z) :=
  if r.2 <? r.1 then [p] else [(p.1, Z.min p.2 (r.1 - 1)); (Z.max p.1 (r.2 + 1), p.2)].
Definition complement (ranges : list (Z * Z)) : list (Z * Z) :=
  foldl (λ acc r, acc ≫= subtract r) [(0, 1114111)] ranges.
Fixpoint glob (fuel : nat) (p : list Z) : option re :=
  match fuel with
  | O => None
  | S fuel =>
      match p with
      | [] => Some REps
      | 42 :: p' => RCat (RStar any_rune) <$> glob fuel p'
      | 63 :: p' => RCat any_rune <$> glob fuel p'
      | 91 :: p' =>
          let negated := match p' with 94 :: _ => true | _ => false end in
          '(rs, p2) ← class_ranges (S (length p')) true (if negated then tail p' else p');
          RCat (RClass (if negated then complement rs else rs)) <$> glob fuel p2
      | 92 :: c :: p' => RCat (RClass [(c, c)]) <$> glob fuel p'
      | 92 :: [] => None
      | c :: p' => RCat (RClass [(c, c)]) <$> glob fuel p'
      end
  end.
Definition Match (pattern name : string) : bool :=
  match glob (S (length (runes pattern))) (runes pattern) with
  | Some r => re_match r (runes name)
  | None => false
  end.
Example match_samples :
  map (λ p, Match p.1 p.2) [("*.go", "a.go"); ("*.go", "a.god"); ("[a-c]?z", "bxz"); ("[^a-c]", "b"); ("[]a]", "a"); ("\*", "*")] =
  [true; false; true; false; false; true].
Proof. vm_compute. reflexivity. Qed.

Section handlers.
Context {tables : UnicodeTables} {digits : Recall.FloatFormat}.
(** the texts of operating-system errors for a path, and [%q] *)
Variables (open_error list_error eval_error home_error : string → string) (Quote : string → string).
Variable opts : BuiltinSkillOpts.

(** ** Paths *)

Definition resolveAgentPathWithPolicy (e : Env) (path : string) (readOnly : bool) : string + string :=
  let path := TrimSpace path in
  let path := if decide (path = "") then WorkspaceRoot opts else path in
  match ExpandHomeDir e path with
  | None => inl (home_error path)
  | Some path =>
      let path := if IsAbs path then path else Join2 (WorkspaceRoot opts) path in
      let resolved := Abs e path in
      let check resolved :=
        let allowed := IsPathAllowed e resolved (WorkspaceRoot opts) (RuntimeRoot opts) in
        let allowed := if negb allowed && readOnly
          then IsReadPathAllowed e resolved (WorkspaceRoot opts) (RuntimeRoot opts) else allowed in
        if allowed then inr resolved else inl ("path " +:+ resolved +:+ " is outside allowed roots") in
      match EvalSymlinks e resolved with
      | Some eval => check eval
      | None => if readOnly then check resolved else inl (eval_error resolved)
      end
  end.
Definition resolveAgentPath (e : Env) (path : string) : string + string := resolveAgentPathWithPolicy e path false.
Definition resolveAgentReadPath (e : Env) (path : string) : string + string := resolveAgentPathWithPolicy e path true.

Definition fails (message : string) : HandlerResult := Returns "" (Some message).
Definition says (text : string) : HandlerResult := Returns text None.

(** ** Files *)

Definition makeReadFileHandler : AgentSkillHandler Machine := λ args m,
  let path := stringArg args "path" in
  (if decide (path = "") then fails "path is required" else
   match resolveAgentReadPath (env m) path with
   | inl e => fails e
   | inr resolved =>
       match fs m resolved with
       | Some (File (Some content)) =>
           says (if 8000 <? Z.of_nat (len content)
                 then take_bytes (Z.to_nat 8000) content +:+ newline +:+ newline +:+ "... (truncated, file is larger)" else content)
       | _ => fails ("cannot read " +:+ resolved +:+ ": " +:+ open_error resolved)
       end
   end, m).

Definition entry_line (p : string * Node) : string :=
  p.1 +:+ (match p.2 with Directory _ => "/" | File _ => "" end) +:+ newline.
Definition makeListDirectoryHandler : AgentSkillHandler Machine := λ args m,
  let path := stringArg args "path" in
  let path := if decide (path = "") then WorkspaceRoot opts else path in
  (match resolveAgentReadPath (env m) path with
   | inl e => fails e
   | inr resolved =>
       match fs m resolved with
       | Some (Directory (Some entries)) => says (TrimSpace (Join (entry_line <$> entries) ""))
       | _ => fails ("cannot list " +:+ resolved +:+ ": " +:+ list_error resolved)
       end
   end, m).

(** ** Searching a tree *)

Definition maxResults : nat := 30.
Definition skipped_dirs : list string := [".git"; "node_modules"; "__pycache__"; ".venv"].
Definition name_matches (pattern name : string) : bool :=
  Match pattern name || Contains (ToLower name) (ToLower pattern).
(** The walk from a node at [depth] below the root: the matches so far, and
    whether the limit stopped it.  [path] is the path of the node. *)
Fixpoint walk (pattern : string) (maxDepth depth : Z) (path name : string) (node : Node)
    (matches : list string) : list string * bool :=
  match node with
  | File _ =>
      if name_matches pattern name then
        let matches := matches ++ [path] in (matches, (maxResults <=? length matches)%nat)
      else (matches, false)
  | Directory entries =>
      if (maxDepth <? depth) || bool_decide (name ∈ skipped_dirs) then (matches, false) else
      match entries with
      | None => (matches, false)
      | Some entries =>
          (fix go (entries : list (string * Node)) (matches : list string) : list string * bool :=
             match entries with
             | [] => (matches, false)
             | (name, node) :: rest =>
                 let '(matches, stop) := walk pattern maxDepth (depth + 1) (Join2 path name) name node matches in
                 if (stop : bool) then (matches, true) else go rest matches
             end) entries matches
      end
  end.
(** The last element of a path: the name of the root of the walk. *)
Definition Base (path : string) : string := default "/" (last (comps path)).
Definition clamp_depth (d : Z) : Z := if d <? 1 then 1 else if 10 <? d then 10 else d.
Definition search (m : Machine) (pattern resolvedDir : string) (maxDepth : Z) : list string :=
  match fs m resolvedDir with
  | None => []
  | Some node => (walk pattern maxDepth 0 resolvedDir (Base resolvedDir) node []).1
  end.
Fixpoint numbered (i : Z) (l : list string) : string :=
  match l with [] => "" | x :: l => Itoa i +:+ ". " +:+ x +:+ newline +:+ numbered (i + 1) l end.
Definition makeSearchFilesHandler : AgentSkillHandler Machine := λ args m,
  let locale := localeFromArgs args in
  let pattern := stringArg args "pattern" in
  (if decide (pattern = "") then fails "pattern is required" else
   let dir := stringArg args "directory" in
   let dir := if decide (dir = "") then WorkspaceRoot opts else dir in
   match resolveAgentReadPath (env m) dir with
   | inl e => fails e
   | inr resolvedDir =>
       let maxDepth := clamp_depth (intArg args "max_depth" 5) in
       let matches := search m pattern resolvedDir maxDepth in
       if decide (matches = []) then
         says (localize locale
           ("在 " +:+ resolvedDir +:+ " 下没有找到匹配 " +:+ dquote +:+ pattern +:+ dquote +:+ " 的文件（搜索深度 " +:+ Itoa maxDepth +:+ " 层）。")
           ("No files matching " +:+ Quote pattern +:+ " were found under " +:+ resolvedDir +:+ " (max depth: " +:+ Itoa maxDepth +:+ ")."))
       else
         let n := Itoa (Z.of_nat (length matches)) in
         says (localize locale ("找到 " +:+ n +:+ " 个匹配文件：" +:+ newline +:+ newline) ("Found " +:+ n +:+ " matching files:" +:+ newline +:+ newline)
           +:+ numbered 1 matches
           +:+ (if (maxResults <=? length matches)%nat
                then localize locale (newline +:+ "（结果已截断，可能还有更多匹配）") (newline +:+ "(Results truncated; more matches may exist.)") else ""))
   end, m).

(** ** Memory and tasks *)

Fixpoint hit_lines (i : Z) (l : list Recall.Hit) : string :=
  match l with
  | [] => ""
  | h :: l => Itoa i +:+ ". [" +:+ Recall.h_CardType h +:+ "] " +:+ Recall.h_CardID h +:+ newline +:+ "   "
              +:+ Recall.h_Snippet h +:+ newline +:+ newline +:+ hit_lines (i + 1) l
  end.
Definition makeRecallMemoryHandler : AgentSkillHandler Machine := λ args m,
  let locale := localeFromArgs args in
  let query := stringArg args "query" in
  (if decide (query = "") then fails "query is required" else
   match recall_store m with
   | None => says (localize locale "记忆系统暂未就绪，目前还没有可检索的记忆内容。你可以先正常使用，系统会自动积累记忆。"
       "Memory is not ready yet, so there is nothing to recall. Keep using the system and memories will accumulate.")
   | Some s =>
       match Recall.Recall (map_order m) (field_order m) (Recall.mkRecallRequest query [] 5) s with
       | Err _ => Panics "runtime error: slice bounds out of range"
       | Ok resp =>
           if decide (length (Recall.Hits resp) = 0%nat) then says (localize locale "没有找到相关记忆。" "No relevant memories found.")
           else says (TrimSpace (hit_lines 1 (Recall.Hits resp)))
       end
   end, m).

Fixpoint task_lines (i : Z) (l : list Runtime.Task) : string :=
  match l with
  | [] => ""
  | t :: l => Itoa i +:+ ". [" +:+ Runtime.State t +:+ "] " +:+ Runtime.Title t +:+ " (skill: "
              +:+ firstNonEmpty [Runtime.SelectedSkill t; "none"] +:+ ", id: " +:+ Runtime.TaskID t +:+ ")" +:+ newline
              +:+ task_lines (i + 1) l
  end.
Definition makeListTasksHandler : AgentSkillHandler Machine := λ args m,
  let locale := localeFromArgs args in
  (match runtime_store m with
   | None => says (localize locale "任务系统暂未就绪。" "Task runtime is not ready.")
   | Some s =>
       let limit := intArg args "limit" 10 in
       match Runtime.ListTasks s world0 with
       | (Err _, _, _) => says (localize locale ("任务列表读取失败：" +:+ list_error "tasks") ("Failed to list tasks: " +:+ list_error "tasks"))
       | (Ok tasks, _, _) =>
           if decide (tasks = []) then says (localize locale "当前没有任务。" "No tasks found.") else
           let tasks := if (0 <? limit) && (limit <? Z.of_nat (length tasks)) then take (Z.to_nat limit) tasks else tasks in
           says (TrimSpace (task_lines 1 tasks))
       end
   end, m).

(** ** The web

    [connectors.Runtime.Search]: results, no connector, or an error. *)
Inductive SearchOutcome := Found (results : list (string * string * string)) | Unavailable | SearchError (message : string).
Variables (web : option (string → Z → SearchOutcome)) (not_configured_zh not_configured_en : string).
Definition webSearchNotConfiguredMessage (locale : string) : string := localize locale not_configured_zh not_configured_en.
Fixpoint result_lines (i : Z) (l : list (string * string * string)) : string :=
  match l with
  | [] => ""
  | (title, url, snippet) :: l =>
      Itoa i +:+ ". " +:+ title +:+ newline +:+ "   URL: " +:+ url +:+ newline
      +:+ (if decide (snippet = "") then "" else
           "   " +:+ (if (300 <? len snippet)%nat then take_bytes 300 snippet +:+ "..." else snippet) +:+ newline)
      +:+ newline +:+ result_lines (i + 1) l
  end.
Definition makeWebSearchHandler : AgentSkillHandler Machine := λ args m,
  let locale := localeFromArgs args in
  let query := stringArg args "query" in
  (if decide (query = "") then fails "query is required" else
   match web with
   | None => says (webSearchNotConfiguredMessage locale)
   | Some search =>
       match search query 5 with
       | Unavailable => says (webSearchNotConfiguredMessage locale)
       | SearchError e => says (localize locale ("搜索出错: " +:+ e) ("Search failed: " +:+ e))
       | Found [] => says (localize locale "没有找到相关结果。" "No relevant results found.")
       | Found results => says (TrimSpace (result_lines 1 results))
       end
   end, m).

(** ** Commands *)

(** [sh -c command] in a directory: its output, the text of its error. *)
Variable run_shell : string → string → Machine → (string * option string) * Machine.
Definition makeRunCommandHandler : AgentSkillHandler Machine := λ args m,
  let command := stringArg args "command" in
  if decide (command = "") then (fails "command is required", m) else
  let workdir := stringArg args "workdir" in
  let workdir := if decide (workdir = "") then WorkspaceRoot opts else workdir in
  match resolveAgentPath (env m) workdir with
  | inl e => (fails e, m)
  | inr resolvedWorkdir =>
      let '((output, err), m') := run_shell resolvedWorkdir command m in
      let result := TrimSpace output in
      let result := if 4000 <? Z.of_nat (len result) then take_bytes (Z.to_nat 4000) result +:+ newline +:+ newline +:+ "... (truncated)" else result in
      (match err with
       | Some e => says ("Exit error: " +:+ e +:+ newline +:+ "Output:" +:+ newline +:+ result)
       | None => says result
       end, m')
  end.
End handlers.

(** ** Facts *)

Section node_induction.
Variable P : Node → Prop.
Hypotheses (Hfile : ∀ c, P (File c)) (Hclosed : P (Directory None))
  (Hdir : ∀ l, Forall (λ p, P p.2) l → P (Directory (Some l))).
Fixpoint node_tree_ind (n : Node) : P n :=
  match n with
  | File c => Hfile c
  | Directory None => Hclosed
  | Directory (Some l) => Hdir l ((fix go (l : list (string * Node)) := match l return Forall (λ p, P p.2) l with
      | [] => List.Forall_nil _ | (k, v) :: l => @List.Forall_cons _ (λ p, P p.2) (k, v) l (node_tree_ind v) (go l) end) l)
  end.
End node_induction.

Section search_facts.
Context {tables : UnicodeTables}.

(** All the files below a node that a search is for, in the order of the
    walk: the reference for [walk], without its limit. *)
Fixpoint all_matches (pattern : string) (maxDepth depth : Z) (path name : string) (node : Node) : list string :=
  match node with
  | File _ => if name_matches pattern name then [path] else []
  | Directory entries =>
      if (maxDepth <? depth) || bool_decide (name ∈ skipped_dirs) then [] else
      match entries with
      | None => []
      | Some entries => concat ((λ p, all_matches pattern maxDepth (depth + 1) (Join2 path p.1) p.1 p.2) <$> entries)
      end
  end.
Lemma walk_spec pattern maxDepth node : ∀ depth path name ms, (length ms < maxResults)%nat →
  let all := ms ++ all_matches pattern maxDepth depth path name node in
  walk pattern maxDepth depth path name node ms = (take maxResults all, (maxResults <=? length all)%nat).
Proof.
  induction node as [c| |l IH] using node_tree_ind; intros depth path name ms Hms; cbv zeta; cbn [walk all_matches].
  - destruct (name_matches pattern name).
    + rewrite take_ge; [done|]. rewrite length_app. cbn. lia.
    + rewrite app_nil_r, take_ge, (proj2 (Nat.leb_gt _ _)) by lia. done.
  - destruct (_ || _); rewrite app_nil_r, take_ge, (proj2 (Nat.leb_gt _ _)) by lia; done.
  - destruct (_ || _); [rewrite app_nil_r, take_ge, (proj2 (Nat.leb_gt _ _)) by lia; done|].
    revert ms Hms. induction IH as [|[n nd] l Hn _ IHl]; intros ms Hms; cbn [fmap list_fmap concat].
    + rewrite app_nil_r, take_ge, (proj2 (Nat.leb_gt _ _)) by lia. done.
    + cbn [snd fst] in *. rewrite Hn by done.
      set (found := all_matches _ _ _ _ _ nd). rewrite app_assoc.
      destruct (Nat.leb_spec maxResults (length (ms ++ found))) as [Hl|Hl].
      * rewrite (take_app_le (ms ++ found)) by done. f_equal. symmetry. apply Nat.leb_le. rewrite length_app. lia.
      * rewrite take_ge by lia. rewrite IHl by done. done.
Qed.

(** [search_files] finds exactly what it is asked for: the first thirty, in
    the order of the walk, of all the files below the directory whose name
    matches the pattern (as a glob or as part of the name), within the depth
    and outside the skipped directories. *)
Theorem search_complete m pattern dir maxDepth :
  search m pattern dir maxDepth =
  take maxResults (match fs m dir with
    | Some node => all_matches pattern maxDepth 0 dir (Base dir) node
    | None => [] end).
Proof.
  unfold search. destruct (fs m dir) as [node|]; [|done].
  rewrite (walk_spec pattern maxDepth node 0 dir (Base dir) []); [done|unfold maxResults; cbn; lia].
Qed.
End search_facts.

Section confinement.
Context {tables : UnicodeTables}.
Variables (open_error list_error eval_error home_error : string → string) (Quote : string → string).
Variable opts : BuiltinSkillOpts.

Definition readable (e : Env) (p : string) : Prop := IsReadPathAllowed e p (WorkspaceRoot opts) (RuntimeRoot opts) = true.
Definition workable (e : Env) (p : string) : Prop := IsPathAllowed e p (WorkspaceRoot opts) (RuntimeRoot opts) = true.

Lemma resolve_allowed e path readOnly p :
  resolveAgentPathWithPolicy eval_error home_error opts e path readOnly = inr p →
  if readOnly then readable e p else workable e p.
Proof.
  unfold resolveAgentPathWithPolicy, readable, workable. cbv zeta. destruct (ExpandHomeDir e _) as [q|]; [|done].
  set (resolved := Abs e _). clearbody resolved.
  assert (∀ r, (if (if negb (IsPathAllowed e r (WorkspaceRoot opts) (RuntimeRoot opts)) && readOnly
      then IsReadPathAllowed e r (WorkspaceRoot opts) (RuntimeRoot opts)
      else IsPathAllowed e r (WorkspaceRoot opts) (RuntimeRoot opts)) then inr r
      else inl ("path " +:+ r +:+ " is outside allowed roots")) = inr p →
    if readOnly then IsReadPathAllowed e p (WorkspaceRoot opts) (RuntimeRoot opts) = true
    else IsPathAllowed e p (WorkspaceRoot opts) (RuntimeRoot opts) = true) as H.
  { intros r. unfold IsReadPathAllowed. destruct (IsPathAllowed e r _ _) eqn:E; cbn [negb andb].
    - intros [= <-]. rewrite E. by destruct readOnly.
    - destruct readOnly; [|done]. destruct (readOnlyStrictFromEnv e); [done|]. destruct (IsAbs r) eqn:Ea; [|done].
      intros [= <-]. by rewrite E. }
  destruct (EvalSymlinks e resolved); [apply H|]. destruct readOnly; [apply H|done].
Qed.

(** C23. The agent's tools stay within the policy.  What [read_file],
    [list_directory] and [search_files] answer does not depend on the contents
    of files and directories at paths the read policy refuses: they agree on
    two machines with one environment that differ only in what is stored
    there; and [run_command] starts a shell only in a directory that the strict
    policy allows, whatever shells would do elsewhere.  The environment holds
    the settings and where symbolic links lead, at refused paths too: the error
    of a refused path names what it resolves to
    ([refused_link_names_its_target] below). *)
Theorem tools_confined m m' args run run' :
  env m = env m' → (∀ p, readable (env m) p → fs m p = fs m' p) →
  (∀ dir command, workable (env m) dir → run dir command m = run' dir command m) →
  (makeReadFileHandler open_error eval_error home_error opts args m).1 =
    (makeReadFileHandler open_error eval_error home_error opts args m').1 ∧
  (makeListDirectoryHandler list_error eval_error home_error opts args m).1 =
    (makeListDirectoryHandler list_error eval_error home_error opts args m').1 ∧
  (makeSearchFilesHandler eval_error home_error Quote opts args m).1 =
    (makeSearchFilesHandler eval_error home_error Quote opts args m').1 ∧
  makeRunCommandHandler eval_error home_error opts run args m =
    makeRunCommandHandler eval_error home_error opts run' args m.
Proof.
  intros He Hf Hr. pose proof (λ path p, resolve_allowed (env m) path true p) as Hread.
  pose proof (λ path p, resolve_allowed (env m) path false p) as Hwork.
  unfold makeReadFileHandler, makeListDirectoryHandler, makeSearchFilesHandler, makeRunCommandHandler,
    resolveAgentReadPath, resolveAgentPath, search. rewrite <- He. cbv zeta. cbn [fst].
  split_and!;
    match goal with |- context [resolveAgentPathWithPolicy ?a ?b ?o ?e ?p ?r] =>
      destruct (resolveAgentPathWithPolicy a b o e p r) as [msg|q] eqn:E; [done|] end;
    first [rewrite <- (Hf q) by by apply (Hread _ _ E)|rewrite (Hr q) by by apply (Hwork _ _ E)]; done.
Qed.
End confinement.

(** ** A strict machine *)

Definition strict_env : Env := mkEnv
  (λ name, if decide (name = "MNEMOSYNE_FILESYSTEM_READONLY_STRICT") then "1" else "")
  (Some "/home/u") "/tmp" "/" Some.
Definition strict_machine (secret : string) : Machine := mkMachine strict_env
  (λ p, if decide (p = "/ws/a.txt") then Some (File (Some "hello")) else
        if decide (p = "/etc/secret") then Some (File (Some secret)) else None) None None [] (λ _, []).
Definition strict_opts : BuiltinSkillOpts := mkOpts "/ws" "/rt".
#[local] Existing Instance caseless_tables.
(** A link in the workspace, to a path outside. *)
Definition linked_machine (target : string) : Machine :=
  mkMachine (mkEnv (FsAccess.Getenv strict_env) (Some "/home/u") "/tmp" "/" (λ p, if decide (p = "/ws/link") then Some target else Some p))
    (λ _, None) None None [] (λ _, []).
Lemma refused_link_names_its_target :
  (makeReadFileHandler id id id strict_opts [("path", JStr "link")] (linked_machine "/srv/a")).1 = fails "path /srv/a is outside allowed roots" ∧
  (makeReadFileHandler id id id strict_opts [("path", JStr "link")] (linked_machine "/srv/b")).1 = fails "path /srv/b is outside allowed roots".
Proof. split; vm_compute; reflexivity. Qed.
Lemma tools_confined_witness :
  (makeReadFileHandler id id id strict_opts [("path", JStr "../etc/secret")] (strict_machine "a")).1 =
  (makeReadFileHandler id id id strict_opts [("path", JStr "../etc/secret")] (strict_machine "b")).1.
Proof.
  refine (proj1 (tools_confined id id id id id strict_opts (strict_machine "a") (strict_machine "b")
    [("path", JStr "../etc/secret")] (λ _ _ m, (("", None), m)) (λ _ _ m, (("", None), m)) eq_refl _ (λ _ _ _, eq_refl))).
  intros p Hp. unfold strict_machine, fs. case_decide; [done|]. case_decide; [|done]. subst. by vm_compute in Hp.
Defined.
