(* ===== verification/ChatText.v ===== *)
(** * What a conversation turn says ([chat/service.go], the pure part)

    Paths mentioned in a conversation, previews, working sets, the texts shown
    for a task, the confirmation question, and the prompts for the model. *)
From S2P Require Import Prelude GoStrings GoNum GoText StatusDirs FsAccess ChatStore ChatRoute.
From S2P Require Runtime MemOrchestrator.
Open Scope Z_scope.

(** ** Data *)

(** [skills.RunResult], what the service reads of it *)
Record RunResult := mkRunResult {
  rr_Task : Runtime.Task; rr_ArtifactPaths : list string; rr_ObservationPaths : list string }.
Record ProgressEvent := mkProgress { pe_Stage : string; pe_Message : string }.
Record TaskResultEnvelope := mkEnvelope {
  Outcome : string; Headline : string; NextAction : string; FailureReason : string;
  en_ArtifactPaths : list string; en_ObservationPaths : list string }.
Record SystemInfo := mkSystemInfo { RuntimeRoot : string; WorkspaceRoot : string; Version : string; Addr : string }.
Record SendRequest := mkSendRequest {
  rq_SessionID : string; rq_Message : string; rq_RequestedBy : string; rq_Source : string;
  rq_ExecutionProfile : string; Async : bool }.
Record SendResponse := mkSendResponse { UserMessage : Message; AssistantMessage : Message }.

Definition metadata (t : Runtime.Task) (key : string) : string :=
  default "" (default ∅ (Runtime.Metadata t) !! key).
Definition lines (l : list string) : string := Join l newline.
Definition quoted (s : string) : string := dquote +:+ s +:+ dquote.
(** [filepath.Base] *)
Definition Base (path : string) : string :=
  if decide (path = "") then "." else default "/" (last (split_path path)).

Section text.
Context {tables : UnicodeTables}.

(** ** Paths in a conversation *)

Definition c1 (a : ascii) : bool :=
  let n := bz a in
  ((65 <=? n) && (n <=? 90)) || ((97 <=? n) && (n <=? 122)) || ((48 <=? n) && (n <=? 57))
  || bool_decide (a ∈ ["_"%char; "."%char; "+"%char; "~"%char; "-"%char]).
Definition c2 (a : ascii) : bool := c1 a || bool_decide (a ∈ ["/"%char; "@"%char]).
Fixpoint span (p : ascii → bool) (s : string) : string * string :=
  match s with
  | String a r => if p a then let '(x, y) := span p r in (String a x, y) else ("", s)
  | "" => ("", "")
  end.
(** A match of [chatAbsoluteUnixPathRE] at the start of the text.  A slash is
    in the second class only, so the first run extends to a slash and the
    second one takes everything it can. *)
Definition path_at (s : string) : option (string * string) :=
  match s with
  | String "/" r =>
      let '(x, r1) := span c1 r in
      match r1 with
      | String "/" r2 =>
          let '(y, r3) := span c2 r2 in
          if decide (x = "") then None else if decide (y = "") then None
          else Some (String "/" (x +:+ String "/" y), r3)
      | _ => None
      end
  | _ => None
  end.
(** [FindAllString]; the length of the text is enough fuel *)
Fixpoint find_paths (fuel : nat) (s : string) : list string :=
  match fuel with
  | O => []
  | S fuel =>
      match s with
      | "" => []
      | String _ r => match path_at s with Some (m, rest) => m :: find_paths fuel rest | None => find_paths fuel r end
      end
  end.

(** [seen] and [out] of the Go loops: the values kept, in order. *)
Definition add_new (out : list string) (s : string) : list string := if decide (s ∈ out) then out else out ++ [s].
(** the trailing punctuation that is ASCII, as every matched path is *)
Definition path_punctuation : list ascii :=
  ["."%char; ","%char; ";"%char; ":"%char; "!"%char; "?"%char; byte 34; "'"%char].
Definition extractChatFilesystemPaths (text : string) : list string :=
  let text := TrimSpace text in
  foldl (λ out s,
    let s := TrimRightSet (TrimSpace s) path_punctuation in
    if decide (s = "") then out else if negb (IsAbs s) then out else add_new out (Clean s))
    [] (find_paths (len text) text).

Definition add_path (out : list string) (p : string) : list string :=
  let p := TrimSpace p in
  if decide (p = "") then out else if negb (IsAbs p) then out else add_new out (Clean p).
(** the last [n] of a list *)
Definition last_n {A} (n : Z) (l : list A) : list A :=
  if n <? Z.of_nat (length l) then drop (length l - Z.to_nat n) l else l.
Definition mergeFocusPaths (existing discovered : list string) (maxKeep : Z) : list string :=
  let maxKeep := if maxKeep <=? 0 then 24 else maxKeep in
  last_n maxKeep (foldl add_path [] (existing ++ discovered)).

Definition dedupeStrings (values : list string) : list string :=
  foldl (λ out v, let v := TrimSpace v in if decide (v = "") then out else add_new out v) [] values.

Definition formatFocusPathsForAgent (paths : list string) (locale : string) : string :=
  match dedupeStrings paths with
  | [] => ""
  | paths =>
      (if isEnglishLocale locale
       then "Session working memory (absolute paths surfaced earlier in this chat; align with transcript when resolving " +:+ quoted "this directory" +:+ "):"
       else "会话工作记忆（本会话中已出现过的绝对路径；与「这个目录」等指代对齐）：") +:+ newline +:+ lines paths
  end.
Definition agentDirectReplyUserContent (locale userText structuredFocus transcript : string) : string :=
  let userText := TrimSpace userText in
  let structuredFocus := TrimSpace structuredFocus in
  let transcript := TrimSpace transcript in
  if decide (structuredFocus = "" ∧ transcript = "") then userText else
  let blocks := filter (λ b, b ≠ "") [structuredFocus; transcript] in
  let combined := Join blocks (newline +:+ newline) in
  if isEnglishLocale locale then
    "You are given (1) optional session working-memory paths and (2) a recent transcript. Resolve phrases like "
    +:+ quoted "this directory" +:+ " using BOTH — when listing files you MUST pass the correct absolute path as list_directory.path. Omitting path lists only the configured project workspace."
    +:+ newline +:+ newline +:+ combined +:+ newline +:+ newline +:+ "Current user message:" +:+ newline +:+ userText
  else
    "下面可能包含两类信息：（1）会话工作记忆中的绝对路径；（2）近期对话摘要。用户说「这个目录」「该文件夹」等时，请同时结合二者，并在调用 list_directory 时传入正确的 path；省略 path 只会列出当前项目工作区根目录。"
    +:+ newline +:+ newline +:+ combined +:+ newline +:+ newline +:+ "当前用户消息：" +:+ newline +:+ userText.

(** ** Previews *)

Definition summarizeToolResult (result : string) : string :=
  let result := TrimSpace result in
  let clip s := if 280 <? Z.of_nat (len s) then take_bytes 279 s +:+ "…" else s in
  if decide (result = "") then "" else
  match Cut result newline with
  | Some (head, rest) =>
      if (0 <? Z.of_nat (len head)) && (Z.of_nat (len head) <? 280) then
        let rest := match Cut rest newline with Some (line, _) => line | None => rest end in
        clip (if decide (TrimSpace rest = "") then head else head +:+ " | " +:+ TrimSpace rest)
      else clip result
  | None => clip result
  end.

Definition previewString (input : string) (max : Z) : string :=
  if Z.of_nat (len input) <=? max then input
  else if max <=? 3 then take_bytes (Z.to_nat max) input
  else take_bytes (Z.to_nat (max - 3)) input +:+ "...".
Definition previewStringRunes (input : string) (maxRunes : Z) : string :=
  if maxRunes <=? 0 then "" else
  let rs := runes input in
  if Z.of_nat (length rs) <=? maxRunes then input
  else if maxRunes <=? 3 then of_runes (take (Z.to_nat maxRunes) rs)
  else of_runes (take (Z.to_nat (maxRunes - 3)) rs) +:+ "...".
Definition previewStringRunesHeadTail (input : string) (maxRunes : Z) : string :=
  if maxRunes <=? 32 then previewStringRunes input maxRunes else
  let rs := runes (TrimSpace input) in
  let n := Z.of_nat (length rs) in
  if n <=? maxRunes then of_runes rs else
  let sep := runes (newline +:+ "..." +:+ newline) in
  let avail := maxRunes - Z.of_nat (length sep) in
  if avail <? 8 then previewStringRunes input maxRunes else
  let head := avail / 2 in
  let tail := avail - head in
  let '(head, tail) := if head <? 1 then (1, avail - 1) else (head, tail) in
  let '(head, tail) := if tail <? 1 then (avail - 1, 1) else (head, tail) in
  of_runes (take (Z.to_nat head) rs) +:+ of_runes sep +:+ of_runes (drop (Z.to_nat (n - tail)) rs).
Definition previewForTranscriptLine (content : string) (previewRunes : Z) : string :=
  if previewRunes <? 512 then previewStringRunes content previewRunes
  else previewStringRunesHeadTail content previewRunes.

Definition expandQueryWithConversation (message conversationContext : string) : string :=
  let message := TrimSpace message in
  if (10 <? RuneCount message) || blank conversationContext then message
  else TrimSpace (message +:+ newline +:+ conversationContext).

Definition normalize_line (line : string) : string :=
  let trimmed := TrimSpace line in
  if HasPrefix trimmed "* " then Replace1 line "* " "• "
  else if HasPrefix trimmed "- " then Replace1 line "- " "• " else line.
Definition markdown : list string := ["```"; "**"; "__"; "`"; "### "; "## "; "# "].
Definition normalizeAssistantText (input : string) : string :=
  let input := ReplaceAll input (String (byte 13) newline) newline in
  let input := foldl (λ s old, ReplaceAll s old "") input markdown in
  TrimSpace (lines (normalize_line <$> SplitByte (byte 10) input)).

(** ** Token budgets *)

Definition directReplyMaxTokens (userText : string) : Z :=
  let text := ToLower (TrimSpace userText) in
  if containsAny text ["详细"; "完整"; "展开"; "深入"; "具体"; "架构"; "说明";
    "detail"; "detailed"; "complete"; "architecture"; "explain"; "deep dive"] then 1600
  else if containsAny text ["总结"; "概述"; "对比"; "compare"; "summary"; "summarize"; "overview"] then 900
  else 240.
Definition followupMaxTokens (userText : string) : Z :=
  let text := ToLower (TrimSpace userText) in
  if containsAny text ["详细"; "完整"; "展开"; "继续"; "深入"; "具体"; "架构"; "说明";
    "detail"; "detailed"; "complete"; "continue"; "architecture"; "explain"; "deep dive"] then 2200
  else if containsAny text ["总结"; "概述"; "对比"; "compare"; "summary"; "summarize"; "overview"] then 1200
  else 420.

(** ** The stages of a task *)

Definition finalStage (task : Runtime.Task) : string :=
  let st := Runtime.State task in
  if decide (st = Runtime.TaskStateDone) then "done"
  else if decide (st = Runtime.TaskStateAwaitingApproval) then "awaiting_approval"
  else if decide (st = Runtime.TaskStateBlocked) then "blocked"
  else if decide (st = Runtime.TaskStateFailed) then "failed" else "responded".
(** the value of the first key that is equal *)
Fixpoint pick (key : string) (cases : list (string * string)) (dflt : string) : string :=
  match cases with [] => dflt | (k, v) :: r => if decide (key = k) then v else pick key r dflt end.
Definition activeTaskStage (task : Runtime.Task) : string :=
  pick (TrimSpace (Runtime.SelectedSkill task))
    [("web-search", "searching"); ("task-plan", "planning"); ("file-read", "reading"); ("file-edit", "writing");
     ("shell-command", "executing"); ("email-inbox", "triaging_email"); ("github-issue-search", "searching_github");
     ("memory-consolidate", "consolidating")] "running".
Definition normalizeProgressStage (task : Runtime.Task) (stage : string) : string :=
  let stage := TrimSpace stage in
  pick stage
    [("planning.generate", "planning"); ("planning.persist", "persisting"); ("persist.artifacts", "persisting");
     ("connector.request", pick (TrimSpace (Runtime.SelectedSkill task))
        [("web-search", "searching"); ("github-issue-search", "searching_github"); ("email-inbox", "triaging_email")] "running");
     ("persist.memory", "writing_memory"); ("execution.dispatch", activeTaskStage task);
     ("execution.persist", "persisting"); ("consolidate.generate", "consolidating")]
    (if decide (stage = "") then activeTaskStage task else stage).
Definition stageMessage (task : Runtime.Task) (stage locale : string) : string :=
  let skill := TrimSpace (Runtime.SelectedSkill task) in
  let zh := negb (isEnglishLocale locale) in
  pick stage
    [("routing", if zh then "正在路由请求并选择执行路径..." else "Routing the request and selecting the runtime path...");
     ("queued", pick skill
        [("web-search", "Queued. Preparing search query and recall context.");
         ("github-issue-search", "Queued. Preparing GitHub issue search.");
         ("email-inbox", "Queued. Preparing inbox scan."); ("file-read", "Queued. Preparing file read.");
         ("file-edit", "Queued. Preparing file update."); ("shell-command", "Queued. Preparing command execution.");
         ("memory-consolidate", "Queued. Preparing memory consolidation.")]
        "Queued. Classifying and preparing the request.");
     ("searching", "Searching the web and collecting sources...");
     ("planning", "Planning the task and drafting the next steps...");
     ("reading", "Reading file content and extracting the relevant parts...");
     ("writing", "Writing file changes and persisting the update...");
     ("executing", "Running command and waiting for execution output...");
     ("triaging_email", "Reading inbox messages and grouping threads...");
     ("searching_github", "Searching GitHub issues and collecting matches...");
     ("consolidating", "Consolidating memory and building the summary...");
     ("summarizing", "Summarizing the result for the conversation...");
     ("running", pick skill
        [("web-search", "Searching the web and collecting sources...");
         ("github-issue-search", "Searching GitHub issues and collecting matches...");
         ("email-inbox", "Reading inbox messages and grouping threads..."); ("file-read", "Reading file content...");
         ("file-edit", "Writing file changes..."); ("shell-command", "Running command and waiting for output...");
         ("memory-consolidate", "Consolidating memory and building summary...");
         ("task-plan", "Planning the task and drafting the next steps...")]
        "Running task...")]
    (if zh then "正在处理中..." else "Working on it...").

Definition buildTaskResultEnvelope (task : Runtime.Task) (runResult : option RunResult) : TaskResultEnvelope :=
  let artifacts := match runResult with Some r => rr_ArtifactPaths r | None => [] end in
  let observations := match runResult with Some r => rr_ObservationPaths r | None => [] end in
  let st := Runtime.State task in
  let headline :=
    if decide (st = Runtime.TaskStateDone) then
      match artifacts with
      | [] => "Completed and persisted to the runtime."
      | _ => "Completed with " +:+ Itoa (Z.of_nat (length artifacts)) +:+ " artifact(s) ready for review."
      end
    else if decide (st = Runtime.TaskStateAwaitingApproval) then "Waiting for approval before execution can continue."
    else if decide (st = Runtime.TaskStateBlocked) then "Blocked and waiting for intervention."
    else if decide (st = Runtime.TaskStateFailed) then "Failed during execution and needs review."
    else stageMessage task (finalStage task) localeEN in
  mkEnvelope st headline (TrimSpace (Runtime.NextAction task)) (TrimSpace (Runtime.FailureReason task)) artifacts observations.

(** ** Links and actions *)

(** [url.QueryEscape] *)
Definition upper_hex (n : nat) : ascii := if (n <? 10)%nat then ascii_of_nat (48 + n) else ascii_of_nat (55 + n).
Definition QueryEscape : string → string := ReplaceBytes (λ a,
  let n := bz a in
  if ((65 <=? n) && (n <=? 90)) || ((97 <=? n) && (n <=? 122)) || ((48 <=? n) && (n <=? 57))
     || bool_decide (a ∈ ["-"%char; "_"%char; "."%char; "~"%char]) then String a ""
  else if n =? 32 then "+"
  else String "%" (String (upper_hex (nat_of_ascii a / 16)) (String (upper_hex (nat_of_ascii a mod 16)) ""))).
(** The artifact paths a task records, in some order. *)
Definition metadata_artifacts (task : Runtime.Task) : list string :=
  omap (λ kv : string * string, if HasSuffix kv.1 "_artifact" && negb (blank kv.2) then Some kv.2 else None)
    (map_to_list (default ∅ (Runtime.Metadata task))).
Definition sort_strings (l : list string) : list string := merge_sort String.le l.
Definition buildLinks (task : Runtime.Task) (runResult : option RunResult) : list Link :=
  let approvalID := TrimSpace (metadata task "root_approval_id") in
  let artifactPaths := match runResult with Some r => rr_ArtifactPaths r | None => [] end ++ metadata_artifacts task in
  [mkLink "Task" ("/ui/tasks?task_id=" +:+ Runtime.TaskID task)]
  ++ (if decide (approvalID = "") then [] else [mkLink "Approval" ("/ui/approvals?approval_id=" +:+ approvalID)])
  ++ ((λ path, mkLink ("Artifact: " +:+ Base path) ("/ui/artifacts/view?path=" +:+ QueryEscape path))
       <$> foldl add_new [] (sort_strings artifactPaths)).
Definition buildActions (task : Runtime.Task) : list Action :=
  let st := Runtime.State task in
  if decide (st = Runtime.TaskStateAwaitingApproval) then
    let approvalID := TrimSpace (metadata task "root_approval_id") in
    [mkAction "Approve and Continue"
       (if decide (approvalID = "") then "/ui/chat/tasks/" +:+ Runtime.TaskID task +:+ "/approve-run"
        else "/ui/chat/approvals/" +:+ approvalID +:+ "/approve-run") "post"]
  else if decide (st = Runtime.TaskStatePlanned ∨ st = Runtime.TaskStateBlocked ∨ st = Runtime.TaskStateFailed) then
    [mkAction "Run Task" ("/ui/chat/tasks/" +:+ Runtime.TaskID task +:+ "/run") "post"]
  else [].

(** [summarizeRunResult], [focusArtifactExcerpts]: the start of the artifacts
    that can be read. *)
Definition excerpt (maxChars : Z) (content : string) : string :=
  if maxChars <? Z.of_nat (len content) then take_bytes (Z.to_nat maxChars) content +:+ "..." else content.
Definition summarizeRunResult (read : string → option string) (runResult : option RunResult) (artifactLimit maxChars : Z)
    : list string :=
  match runResult with
  | None => []
  | Some r =>
      let n := Z.of_nat (length (rr_ArtifactPaths r)) in
      let limit := if (artifactLimit <=? 0) || (n <? artifactLimit) then n else artifactLimit in
      omap (λ p : nat * string,
        let path := TrimSpace p.2 in
        if decide (path = "") then None else
        raw ← read path;
        let content := TrimSpace raw in
        if decide (content = "") then None else
        Some ("Artifact " +:+ Itoa (Z.of_nat p.1 + 1) +:+ " (" +:+ Base path +:+ "):" +:+ newline +:+ excerpt maxChars content))
        (imap pair (take (Z.to_nat limit) (rr_ArtifactPaths r)))
  end.
Fixpoint excerpts_go (read : string → option string) (limit : nat) (maxChars : Z) (seen paths : list string) : list string :=
  match paths with
  | [] => []
  | path :: rest =>
      if decide (path ∈ seen) then excerpts_go read limit maxChars seen rest else
      match TrimSpace <$> read path with
      | None | Some "" => excerpts_go read limit maxChars (path :: seen) rest
      | Some content =>
          (Base path +:+ ":" +:+ newline +:+ excerpt maxChars content)
          :: match limit with S (S n) => excerpts_go read (S n) maxChars (path :: seen) rest | _ => [] end
      end
  end.
Definition focusArtifactExcerpts (read : string → option string) (task : Runtime.Task) (st : SessionState)
    (limit : nat) (maxChars : Z) : list string :=
  excerpts_go read limit maxChars [] (sort_strings (ArtifactPaths (WorkingSet st) ++ metadata_artifacts task)).

(** ** Replies without a model *)

Definition composeAssistantReply (read : string → option string) (task : Runtime.Task) (runResult : option RunResult)
    (contextSnapshot : option ChatContext) (locale : string) : string :=
  let contents := omap (λ p, raw ← read p;
    if decide (raw = "") then None else
    let content := TrimSpace raw in
    let content := if 2000 <? Z.of_nat (len content)
      then take_bytes (Z.to_nat 2000) content +:+ newline +:+ newline +:+ "(truncated)" else content in
    if decide (content = "") then None else Some content)
    (match runResult with Some r => rr_ArtifactPaths r | None => [] end) in
  match contents with
  | content :: _ => content
  | [] =>
      let skill := firstNonEmpty [Runtime.SelectedSkill task; "task-plan"] in
      let st := Runtime.State task in
      lines (
        [localizedText locale ("任务 " +:+ Runtime.TaskID task +:+ " 已由技能 " +:+ skill +:+ " 执行。")
           ("Task " +:+ Runtime.TaskID task +:+ " completed with skill " +:+ skill +:+ ".")]
        ++ (if blank (Runtime.NextAction task) then [] else ["Next: " +:+ Runtime.NextAction task +:+ "."])
        ++ (if blank (Runtime.FailureReason task) then [] else ["Failure: " +:+ Runtime.FailureReason task +:+ "."])
        ++ [if decide (st = Runtime.TaskStateDone) then "Work completed."
            else if decide (st = Runtime.TaskStateAwaitingApproval) then "Work is waiting for approval before execution."
            else if decide (st = Runtime.TaskStateBlocked) then "Work is blocked and needs intervention."
            else if decide (st = Runtime.TaskStateFailed) then "Work failed and needs review."
            else "Work is queued in the runtime."]
        ++ match contextSnapshot with
           | Some c => match RecallHits c with
               | [] => []
               | hits => ["Relevant memory: " +:+ Join ((λ h, rf_Source h +:+ ":" +:+ rf_CardID h) <$> hits) ", " +:+ "."]
               end
           | None => []
           end)
  end.
Definition composeFollowupFallback (task : Runtime.Task) (excerpts : list string) (locale : string) : string :=
  match excerpts with
  | [] => localizedText locale "我可以继续，但当前会话里没有可复用的任务产出。你可以明确告诉我下一步要我做什么。"
      "I can continue, but this session does not yet have reusable task output. Tell me exactly what to do next."
  | _ => if decide (Runtime.SelectedSkill task = SkillWebSearch)
      then localizedText locale "基于刚才搜索到的资料，OpenClaw 的 memory 设计核心是把记忆沉淀为可持久化内容，再通过检索层按相关性和时间性召回。"
        "Based on the previous search results, OpenClaw memory focuses on persistent memory artifacts plus relevance- and time-aware retrieval."
      else localizedText locale "我可以继续基于上一轮任务结果展开，当前会话已经保留了相关 artifact，可继续总结或细化。"
        "I can continue from the previous task result. This session already has artifacts we can summarize or refine."
  end.
Definition fallbackDirectReply (userText locale : string) : string :=
  let text := TrimSpace (ToLower userText) in
  if one_of text ["hi"; "hello"; "hey"; "你好"; "您好"; "嗨"] then
    localizedText locale "你好！有什么我能帮你的吗？你可以问我任何问题，也可以让我帮你搜索、查看邮件、执行命令等。"
      "Hi! How can I help? You can ask questions or ask me to search, check email, or run tasks."
  else if Contains text "thank" || Contains text "谢谢" then
    localizedText locale "不客气！还需要什么尽管说。" "You're welcome. Let me know what else you need."
  else localizedText locale "收到你的消息。你可以继续问我问题，或者告诉我你需要我做什么。"
    "Got your message. Ask me anything, or tell me what you want me to do.".
Definition tlsFailureExtraHint (locale reason : string) : string :=
  let low := ToLower reason in
  if negb (Contains low "tls:") && negb (Contains low "certificate") && negb (Contains reason "SecPolicy")
     && negb (Contains low "x509") then ""
  else newline +:+ newline +:+
    (if isEnglishLocale locale
     then "TLS: If a proxy/VPN intercepts HTTPS, install its root CA or fix the system trust store. For local debugging only, set MNEMOSYNE_TLS_INSECURE=true in the daemon environment (disables verification — insecure)."
     else "TLS/证书：常见于代理、VPN 或本机钥匙串问题；可安装根证书或修复系统信任。仅为本机排障时，可在运行 daemon 的环境里设置 MNEMOSYNE_TLS_INSECURE=true（跳过校验，不安全，勿用于生产）。").
(** for an error whose text is [reason] *)
Definition modelReplyFailureMessage (locale : string) (err : option string) : string :=
  match err with
  | None => localizedText locale "模型没有返回可用内容。" "The model did not return usable text."
  | Some reason =>
      let reason := TrimSpace reason in
      let reason := if decide (reason = "") then localizedText locale "未知错误" "unknown error" else reason in
      let tlsHint := tlsFailureExtraHint locale reason in
      if isEnglishLocale locale then
        "The language model could not answer this turn." +:+ newline +:+ "Reason: " +:+ reason +:+ newline +:+ newline
        +:+ "Check API key, model id, and base URL in runtime/model/config.json, then run: mnemosynectl doctor --test-model" +:+ tlsHint
      else
        "大模型这一轮流调用失败，所以你看不到正常对话回复。" +:+ newline +:+ "原因：" +:+ reason +:+ newline +:+ newline
        +:+ "请检查 runtime/model/config.json 里的 API Key、模型名、Base URL（SiliconFlow 等需与供应商一致），或运行：mnemosynectl doctor --test-model" +:+ tlsHint
  end.

(** ** The state of a session *)

Definition with_focus_paths (w : SessionWorkset) (paths : list string) : SessionWorkset :=
  mkWorkset (ArtifactPaths w) (RecallCardIDs w) (SourceRefs w) paths.
Definition with_source_refs (w : SessionWorkset) (refs : list string) : SessionWorkset :=
  mkWorkset (ArtifactPaths w) (RecallCardIDs w) refs (FocusPaths w).
Definition with_workset (st : SessionState) (w : SessionWorkset) : SessionState :=
  mkSessionState (st_SessionID st) (Topic st) (FocusTaskID st) (PendingQuestion st) (PendingAction st) (LastUserAct st)
    (LastAssistantAct st) w (st_UpdatedAt st).
Definition with_pending (st : SessionState) (question action : string) : SessionState :=
  mkSessionState (st_SessionID st) (Topic st) (FocusTaskID st) question action (LastUserAct st)
    (LastAssistantAct st) (WorkingSet st) (st_UpdatedAt st).
Definition with_acts (st : SessionState) (userAct assistantAct : string) : SessionState :=
  mkSessionState (st_SessionID st) (Topic st) (FocusTaskID st) (PendingQuestion st) (PendingAction st) userAct
    assistantAct (WorkingSet st) (st_UpdatedAt st).
Definition with_focus_task (st : SessionState) (taskID : string) : SessionState :=
  mkSessionState (st_SessionID st) (Topic st) taskID (PendingQuestion st) (PendingAction st) (LastUserAct st)
    (LastAssistantAct st) (WorkingSet st) (st_UpdatedAt st).

Definition workingSetFromContext (ctx : option ChatContext) : SessionWorkset :=
  match ctx with
  | None => empty_workset
  | Some c => mkWorkset [] (rf_CardID <$> RecallHits c) (rf_Source <$> RecallHits c) []
  end.
Definition dedupeWorkingSet (w : SessionWorkset) : SessionWorkset :=
  mkWorkset (dedupeStrings (ArtifactPaths w)) (dedupeStrings (RecallCardIDs w)) (dedupeStrings (SourceRefs w))
    (dedupeStrings (FocusPaths w)).
Definition workingSetFromRunResult (runResult : option RunResult) (ctx : option ChatContext) : SessionWorkset :=
  let out := workingSetFromContext ctx in
  dedupeWorkingSet (match runResult with
    | Some r => mkWorkset (ArtifactPaths out ++ rr_ArtifactPaths r) (RecallCardIDs out) (SourceRefs out) (FocusPaths out)
    | None => out
    end).
Definition mergeWorkingSet (left right : SessionWorkset) : SessionWorkset :=
  dedupeWorkingSet (mkWorkset (ArtifactPaths left ++ ArtifactPaths right) (RecallCardIDs left ++ RecallCardIDs right)
    (SourceRefs left ++ SourceRefs right) (mergeFocusPaths (FocusPaths left) (FocusPaths right) 24)).

Definition updateStateForTaskStart (st : SessionState) (task : Runtime.Task) (ctx : option ChatContext)
    (dialogue : DialogueDecision) : SessionState :=
  let w := match ctx with Some _ => workingSetFromContext ctx | None => WorkingSet st end in
  mkSessionState (firstNonEmpty [st_SessionID st; metadata task "chat_session_id"])
    (firstNonEmpty [Runtime.Title task; Topic st]) (Runtime.TaskID task) "" "" (Act dialogue) "task_started"
    (with_focus_paths w (mergeFocusPaths (FocusPaths w) (FocusPaths (WorkingSet st)) 24)) (st_UpdatedAt st).

(** the last line with a question mark *)
Definition extractPendingQuestion (content : string) : string :=
  let content := TrimSpace content in
  if decide (content = "") then "" else
  default "" (List.find (λ line, Contains line "?" || Contains line "？") (reverse (TrimSpace <$> SplitByte (byte 10) content))).
Definition inferPendingAction (task : Runtime.Task) (pendingQuestion : string) : string :=
  if decide (pendingQuestion = "") then "" else
  if one_of (Runtime.SelectedSkill task) [SkillWebSearch; SkillEmailInbox] then "summarize_focus_task" else "".

Definition sessionViewFromState (st : SessionState) : MemOrchestrator.SessionView :=
  MemOrchestrator.mkSessionView (Topic st) (FocusTaskID st) (PendingQuestion st) (PendingAction st) (LastAssistantAct st)
    (RecallCardIDs (WorkingSet st)) (SourceRefs (WorkingSet st)) (FocusPaths (WorkingSet st)).
Definition taskRefsToPacketRefs (l : list TaskRef) : list MemOrchestrator.TaskRef :=
  (λ t, MemOrchestrator.mkTaskRef (tr_TaskID t) (tr_Title t) (tr_State t) (tr_SelectedSkill t)) <$> l.
Definition packetTaskRefsToContext (l : list MemOrchestrator.TaskRef) : list TaskRef :=
  (λ t, mkTaskRef (MemOrchestrator.tr_TaskID t) (MemOrchestrator.tr_Title t) (MemOrchestrator.tr_State t)
          (MemOrchestrator.tr_SelectedSkill t)) <$> l.
Definition packetRecallRefsToContext (l : list MemOrchestrator.RecallRef) : list RecallRef :=
  (λ h, mkRecallRef (MemOrchestrator.rf_Source h) (MemOrchestrator.rf_CardID h) (MemOrchestrator.rf_CardType h)
          (MemOrchestrator.rf_Snippet h)) <$> l.
Definition contextRecallRefsToPacket (l : list RecallRef) : list MemOrchestrator.RecallRef :=
  (λ h, MemOrchestrator.mkRecallRef (rf_Source h) (rf_CardID h) (rf_CardType h) (rf_Snippet h)) <$> l.
Definition contextFromPacket (packet : option MemOrchestrator.Packet) : option ChatContext :=
  p ← packet;
  if MemOrchestrator.IsEmpty p then None else
  Some (mkContext (packetTaskRefsToContext (MemOrchestrator.RecentTasks p)) (MemOrchestrator.WorkingNotes p)
    (packetRecallRefsToContext (MemOrchestrator.SemanticHits p)) (packetRecallRefsToContext (MemOrchestrator.ProcedureHits p))
    (packetRecallRefsToContext (MemOrchestrator.RecallHits p))).

(** ** Confirmation *)

Definition shouldConfirmTaskIntent (route : RouteDecision) (text source dialogueAct executionProfile : string) : bool :=
  if negb (bool_decide (IntentKind route = IntentKindTask)) then false
  else if one_of dialogueAct [DialogueActContinueTask; DialogueActConfirm; DialogueActAnswer] then false
  else if EqualFold (TrimSpace source) "intent-confirmation" then false
  else if EqualFold (TrimSpace executionProfile) "root" then false
  else negb (blank text).
Definition buildTaskConfirmationMessage (locale goal : string) (route : RouteDecision) (executionProfile : string) : string :=
  let goalPreview := previewStringRunes (TrimSpace goal) 200 in
  let goalPreview := if decide (goalPreview = "") then TrimSpace goal else goalPreview in
  let skillLabel := firstNonEmpty [rd_Skill route; "task-plan"] in
  let profile := firstNonEmpty [executionProfile; "user"] in
  if isEnglishLocale locale then
    lines ["Task ready. Please confirm before I start:"; "• Goal: " +:+ goalPreview; "• Skill: " +:+ skillLabel;
           "• Profile: " +:+ profile; "";
           "Reply " +:+ quoted "start" +:+ " to begin, " +:+ quoted "cancel" +:+ " to abandon, or send a refined goal."]
  else
    lines ["任务已准备好，开始前先跟你确认一下："; "• 目标: " +:+ goalPreview; "• Skill: " +:+ skillLabel;
           "• 执行权限: " +:+ profile; ""; "回复「开始」开始执行，「取消」放弃，或直接告诉我更具体的目标。"].
Definition parseConfirmationFromState (st : SessionState) (key : string) : string :=
  default "" ((λ ref, TrimPrefix ref (key +:+ ":")) <$> List.find (λ ref, HasPrefix ref (key +:+ ":")) (SourceRefs (WorkingSet st))).
Definition isAffirmativeConfirmation (text : string) : bool :=
  one_of (ToLower (TrimSpace text))
    ["是"; "是的"; "要"; "好的"; "好"; "可以"; "确认"; "确定"; "开始"; "执行"; "开始执行"; "开始吧"; "继续"; "跑"; "干";
     "yes"; "y"; "ok"; "okay"; "sure"; "confirm"; "start"; "go"; "run"; "proceed"; "do it"].
Definition isNegativeConfirmation (text : string) : bool :=
  one_of (ToLower (TrimSpace text))
    ["不"; "不是"; "不要"; "否"; "算了"; "不用"; "不用了"; "取消"; "停"; "停下"; "别";
     "no"; "n"; "cancel"; "stop"; "abort"; "nope"; "nvm"; "nevermind"].
(** What the confirmation question stores for the reply. *)
Definition confirmation_refs (text : string) (route : RouteDecision) (req : SendRequest) : list string :=
  ["confirm_goal:" +:+ text; "confirm_skill:" +:+ rd_Skill route; "confirm_scope:" +:+ TargetScope route;
   "confirm_profile:" +:+ firstNonEmpty [rq_ExecutionProfile req; "user"];
   "confirm_requested_by:" +:+ firstNonEmpty [rq_RequestedBy req; "web-chat"];
   "confirm_source:" +:+ firstNonEmpty [rq_Source req; "web-chat"]].

(** ** The task a turn submits *)

Definition summarizeTitle (message : string) : string :=
  let message := TrimSpace message in
  if decide (message = "") then "Chat task" else
  let message := ReplaceAll message newline " " in
  if 72 <? Z.of_nat (len message) then TrimSpace (take_bytes 72 message) +:+ "..." else message.
Definition applyChatContextMetadata (meta : gmap string string) (ctx : option ChatContext) : gmap string string :=
  match ctx with
  | None => meta
  | Some c =>
      let meta := match RecentTasks c with [] => meta | l => <["chat_recent_tasks" := Join (tr_TaskID <$> l) ","]> meta end in
      match RecallHits c with [] => meta | l => <["chat_recall_cards" := Join (rf_CardID <$> l) ","]> meta end
  end.
(** [fmt.Sprintf("%.2f", f)], rounded to even *)
Definition hundredths (m : positive) (e : Z) : Z :=
  if 0 <=? e then Zpos m * 2 ^ e * 100 else
  let den := 2 ^ (- e) in
  let q := Zpos m * 100 / den in
  let r := (Zpos m * 100) mod den in
  if 2 * r <? den then q else if den <? 2 * r then q + 1 else if Z.even q then q else q + 1.
Definition format_fixed2 (f : float64) : string :=
  match f with
  | S754_zero neg => (if (neg : bool) then "-" else "") +:+ "0.00"
  | S754_finite neg m e =>
      let h := hundredths m e in
      (if (neg : bool) then "-" else "") +:+ Itoa (h / 100) +:+ "." +:+ Itoa (h / 10 mod 10) +:+ Itoa (h mod 10)
  | S754_infinity neg => if (neg : bool) then "-Inf" else "+Inf"
  | S754_nan => "NaN"
  end.

(** ** Prompts *)

Definition bullet (s : string) : string := "- " +:+ s.
Definition section {A} (title : string) (item : A → string) (l : list A) : list string :=
  match l with [] => [] | _ => title :: (item <$> l) end.
Definition counted (label : string) (l : list string) : list string :=
  match l with [] => [] | _ => [label +:+ Itoa (Z.of_nat (length l))] end.
Definition labelled (zh : bool) (cn en value : string) : list string :=
  if blank value then [] else if zh then [cn +:+ value; en +:+ value] else [en +:+ value].
Definition assistantPrompt (task : Runtime.Task) (e : TaskResultEnvelope) (contextSnapshot : option ChatContext)
    (fallback locale : string) : string :=
  let zh := negb (isEnglishLocale locale) in
  let skill := firstNonEmpty [Runtime.SelectedSkill task; "task-plan"] in
  let profile := firstNonEmpty [Runtime.ExecutionProfile task; "user"] in
  let cn := ["任务执行摘要："; "任务 ID: " +:+ Runtime.TaskID task; "任务标题: " +:+ Runtime.Title task;
             "任务状态: " +:+ Runtime.State task; "选择技能: " +:+ skill; "执行权限: " +:+ profile] in
  let en := ["User request execution summary:"; "Task ID: " +:+ Runtime.TaskID task; "Task title: " +:+ Runtime.Title task;
             "Task state: " +:+ Runtime.State task; "Selected skill: " +:+ skill; "Execution profile: " +:+ profile] in
  let outcome :=
    labelled zh "结果概览: " "Outcome headline: " (Headline e) ++ labelled zh "下一步: " "Next action: " (NextAction e)
    ++ labelled zh "失败原因: " "Failure reason: " (FailureReason e)
    ++ counted "Artifacts: " (en_ArtifactPaths e) ++ counted "Observations: " (en_ObservationPaths e) in
  let hit h := bullet (rf_Source h +:+ " / " +:+ rf_CardType h +:+ " / " +:+ rf_Snippet h) in
  if zh then lines (cn ++ en ++ outcome ++ ["回退摘要："; fallback; "Deterministic fallback summary:"; fallback])
  else lines (en ++ outcome
    ++ match contextSnapshot with
       | None => []
       | Some c =>
           section "Working memory:" bullet (WorkingNotes c)
           ++ section "Relevant procedure guidance:" (λ h, bullet (rf_CardID h +:+ " / " +:+ rf_Snippet h)) (ProcedureHits c)
           ++ section "Relevant long-term facts:" hit (SemanticHits c)
           ++ section "Relevant episodic fallback:" hit (RecallHits c)
           ++ section "Recent tasks:" (λ t, bullet (tr_TaskID t +:+ " / " +:+ tr_State t +:+ " / " +:+ tr_Title t)) (RecentTasks c)
       end
    ++ ["Deterministic fallback summary:"; fallback]).
Definition directReplyPrompt (userText : string) (contextSnapshot : option ChatContext)
    (conversationContext fallback locale : string) : string :=
  if negb (isEnglishLocale locale) then
    lines (["用户消息："; userText; "User message:"; userText]
      ++ (if blank conversationContext then []
          else ["最近对话上下文："; conversationContext; "Recent conversation context:"; conversationContext])
      ++ ["回退回复："; fallback; "Fallback reply:"; fallback])
  else
    let hit h := bullet (firstNonEmpty [TrimSpace (rf_Snippet h); rf_CardID h]) in
    lines (["User message:"; userText]
      ++ (if blank conversationContext then [] else ["Recent conversation context:"; conversationContext])
      ++ ["Fallback reply:"; fallback]
      ++ match contextSnapshot with
         | None => []
         | Some c =>
             section "Working memory:" id (WorkingNotes c)
             ++ section "Relevant long-term facts:" hit (SemanticHits c)
             ++ section "Relevant procedure guidance:" hit (ProcedureHits c)
             ++ match RecentTasks c with
                | [] => []
                | _ => ["Recent runtime context is available, but only mention it if directly relevant."]
                end
         end).
Definition system_lines (title : string) (labels : string * string * string * string) (info : SystemInfo) : string :=
  let '(l1, l2, l3, l4) := labels in
  let line label v := if decide (v = "") then "" else newline +:+ label +:+ v in
  if decide (WorkspaceRoot info = "" ∧ RuntimeRoot info = "") then "" else
  newline +:+ newline +:+ title +:+ line l1 (WorkspaceRoot info) +:+ line l2 (RuntimeRoot info)
    +:+ line l3 (Addr info) +:+ line l4 (Version info).
Definition directReplySystemPrompt (info : SystemInfo) (locale : string) : string :=
  if negb (isEnglishLocale locale) then
    "你是 MnemosyneOS，一个运行在用户电脑上的 Agent OS。" +:+ newline +:+ newline
    +:+ "在普通对话中，请自然、简洁、友好地回答。对于系统信息问题可直接回答。除非用户明确要求执行动作，否则不要创建任务。仅输出纯文本。"
  else
    "You are MnemosyneOS, an Agent OS that runs as a background service on the user's computer. You can observe, plan, act, remember, and resume work across sessions."
    +:+ newline +:+ newline +:+ "For ordinary conversation, respond naturally and helpfully. Answer questions about yourself and the system directly using the system info below. Do not create tasks unless the user explicitly asks for an action. Output plain text only."
    +:+ system_lines "System info:" ("- Project/workspace location: ", "- Runtime data location: ", "- Server address: ", "- Version: ") info.
Definition followup_prompt (userText : string) (task : Runtime.Task) (excerpts : list string) (fallback : string) : string :=
  lines ["User follow-up:"; userText; "Focused task:"; "Task ID: " +:+ Runtime.TaskID task; "Title: " +:+ Runtime.Title task;
         "Skill: " +:+ Runtime.SelectedSkill task; "Artifact excerpts:"; Join excerpts (newline +:+ newline);
         "Fallback answer:"; fallback].

(** Backquotes stand for double quotes in the two prompts. *)
Definition bq (s : string) : string := map_bytes (λ a, if decide (a = "`"%char) then byte 34 else a) s.
Definition agent_prompt_en : string := bq "You are MnemosyneOS, an Agent OS running on the user's computer. You can use tools to help with real tasks.

Core rules:
1. Reply directly for simple greetings and casual conversation.
2. Use get_system_info/list_directory for real system or workspace facts.
2b. The user turn may include `Session working memory` paths plus a recent transcript. When they say `this directory` or similar, resolve the path from BOTH blocks and call list_directory with that absolute path. Omitting path lists the configured project workspace only — do not use that default when the user clearly meant another directory.
3. Use web_search for web information requests.
4. Use read_file for file reading requests.
5. When the user asks to FIND or LOCATE a file or directory by name (e.g. `where is lab?`, `find my notes folder`), you MUST call search_files. Never answer `not found` from memory. If the first search (workspace) returns 0 matches, call search_files again with directory=`~` before giving up. Only claim `not found` after BOTH the project workspace and the home directory have been searched.
6. Do not execute file edits/commands directly in this loop; explain these requests should go through the task runtime and approval/execution plane.
7. Use list_tasks for runtime task history.
8. Use recall_memory for remembered facts/procedures/events.
9. If a tool returns `[功能未配置]`, clearly pass the setup steps to the user instead of bypassing it.

Always reply in the user's current message language. Keep it concise and practical.".
Definition agent_prompt_zh : string := bq "你是 MnemosyneOS，一个运行在用户电脑上的 Agent OS（智能操作系统管家）。你可以通过工具来帮助用户完成各种任务。

核心原则：
1. 对于简单的问候和闲聊，直接回复，不需要调用任何工具。
2. 当用户询问关于系统、文件、项目位置等信息时，使用 get_system_info 或 list_directory 等工具获取真实数据后再回答。
2b. 用户消息中可能同时带有「会话工作记忆」里的绝对路径和「近期对话」摘要。用户说「这个目录」等而未写路径时，必须结合这两块信息解析路径，并在 list_directory 中传入 path；省略 path 只会列出当前项目工作区根目录。
3. 当用户要求搜索信息时，使用 web_search 工具。
4. 当用户要求查看文件时，使用 read_file 工具。
5. 当用户要求`查找/定位/locate/find`某个文件或目录时（例如「帮我查找一个名叫 lab 的目录」「where is my notes folder」），必须调用 search_files，不能凭记忆回答。如果第一次在项目工作区（workspace）下返回 0 个匹配，必须再调用一次 search_files 并把 directory 设成 `~` 搜用户 home。只有在**工作区和 home 都**搜过之后，才能告诉用户`没找到`。
6. 当用户要求执行命令、修改文件或创建任务时，不要直接执行；说明这类请求会通过 MnemosyneOS task runtime 和 approval/execution plane 处理。
7. 当用户询问历史任务时，使用 list_tasks 工具。
8. 当用户询问以前记住的内容时，使用 recall_memory 工具。
9. 如果工具返回`[功能未配置]`的提示，请把配置方法直接转达给用户，不要试图绕过或忽略。用友好的语气说明哪个功能需要配置、具体步骤是什么。

回复时使用用户使用的语言。保持简洁、自然、有帮助。".
Definition agentSystemPrompt (info : SystemInfo) (locale : string) : string :=
  if isEnglishLocale locale then agent_prompt_en
  else agent_prompt_zh
    +:+ system_lines "系统信息：" ("- 项目/工作区位置: ", "- 运行时数据位置: ", "- 服务器地址: ", "- 版本: ") info.
End text.

(** ** Facts *)

Section facts.
Context {tables : UnicodeTables}.

Lemma add_new_NoDup out s : NoDup out → NoDup (add_new out s).
Proof.
  intros H. unfold add_new. case_decide; [done|]. apply NoDup_app. split; [done|]. split; [set_solver|]. apply NoDup_singleton.
Qed.
Lemma Clean_idemp p : IsAbs p = true → Clean (Clean p) = Clean p.
Proof.
  intros H. pose proof (IsAbs_Clean p H) as H2. rewrite (Clean_render (Clean p)), (comps_Clean p), (Clean_render p) by done. done.
Qed.

(** What the paths of a session are: absolute, cleaned, each once. *)
Definition clean_path (p : string) : Prop := IsAbs p = true ∧ Clean p = p.
Lemma add_path_spec out p :
  NoDup out → Forall clean_path out →
  NoDup (add_path out p) ∧ Forall clean_path (add_path out p) ∧ out `prefix_of` add_path out p ∧
  (∀ q, q ∈ add_path out p ↔ q ∈ out ∨ IsAbs (TrimSpace p) = true ∧ q = Clean (TrimSpace p)).
Proof.
  intros Hn Hf. unfold add_path. case_decide as Hp.
  { rewrite Hp. cbn. split_and!; [done..|]. intros q. split; [by left|]. by intros [?|[??]]. }
  destruct (IsAbs (TrimSpace p)) eqn:Ha; cbn [negb].
  2: { split_and!; [done..|]. intros q. split; [by left|]. by intros [?|[??]]. }
  split; [by apply add_new_NoDup|]. unfold add_new. case_decide as Hin.
  - split_and!; [done..|]. intros q. split; [by left|]. intros [?|[_ ->]]; done.
  - split; [|split; [by eexists|]].
    + apply Forall_app. split; [done|]. repeat constructor; [by apply IsAbs_Clean|by apply Clean_idemp].
    + intros q. rewrite elem_of_app, list_elem_of_singleton. naive_solver.
Qed.
Lemma add_paths_spec l out :
  NoDup out → Forall clean_path out →
  NoDup (foldl add_path out l) ∧ Forall clean_path (foldl add_path out l) ∧
  (∀ q, q ∈ foldl add_path out l ↔ q ∈ out ∨ ∃ p, p ∈ l ∧ IsAbs (TrimSpace p) = true ∧ q = Clean (TrimSpace p)).
Proof.
  revert out. induction l as [|p l IH]; intros out Hn Hf; cbn [foldl].
  { split_and!; [done..|]. intros q. split; [by left|]. intros [?|(? & []%elem_of_nil & _)]; done. }
  destruct (add_path_spec out p Hn Hf) as (H1 & H2 & _ & H3). destruct (IH _ H1 H2) as (H4 & H5 & H6).
  split_and!; [done..|]. intros q. rewrite H6, H3. setoid_rewrite elem_of_cons. naive_solver.
Qed.
Lemma last_n_spec {A} n (l : list A) :
  0 < n → Z.of_nat (length (last_n n l)) <= n ∧ (∃ k, l = k ++ last_n n l) ∧
  (Z.of_nat (length l) <= n → last_n n l = l).
Proof.
  intros Hn. unfold last_n. destruct (Z.ltb_spec n (Z.of_nat (length l))) as [H|H].
  - split_and!; [rewrite length_drop; lia| |lia]. exists (take (length l - Z.to_nat n) l). by rewrite take_drop.
  - split_and!; [done|by exists []|done].
Qed.

(** The paths a session remembers are well formed and complete:
    [mergeFocusPaths] yields at most [maxKeep] (24 by default) absolute, cleaned
    paths without repetition, all of them named by its arguments; and when the
    arguments name no more than that, every one of them is kept. *)
Theorem mergeFocusPaths_exact existing discovered maxKeep :
  let keep := if maxKeep <=? 0 then 24 else maxKeep in
  let out := mergeFocusPaths existing discovered maxKeep in
  let named q := ∃ p, p ∈ existing ++ discovered ∧ IsAbs (TrimSpace p) = true ∧ q = Clean (TrimSpace p) in
  NoDup out ∧ Forall clean_path out ∧ Z.of_nat (length out) <= keep ∧
  (∀ q, q ∈ out → named q) ∧
  (∀ k, (∀ q, named q → q ∈ k) → Z.of_nat (length k) <= keep → ∀ q, named q → q ∈ out).
Proof.
  cbv zeta. set (named := λ q, ∃ p, _). unfold mergeFocusPaths.
  set (keep := if maxKeep <=? 0 then 24 else maxKeep). cbv zeta.
  assert (0 < keep) as Hk by (unfold keep; destruct (Z.leb_spec maxKeep 0); lia). clearbody keep.
  destruct (add_paths_spec (existing ++ discovered) [] ltac:(constructor) ltac:(constructor)) as (H1 & H2 & H3).
  set (all := foldl add_path [] _) in *.
  destruct (last_n_spec keep all Hk) as (H4 & (pre & H5) & H6).
  assert (∀ q, q ∈ all ↔ named q) as Hall.
  { intros q. rewrite H3. split; [|by right]. intros [[]%elem_of_nil|?]; done. }
  rewrite H5 in H1, H2. apply NoDup_app in H1 as (_ & _ & H1). apply Forall_app in H2 as [_ H2].
  split_and!; [done|done|done| |].
  - intros q Hq. apply Hall. rewrite H5. apply elem_of_app. by right.
  - intros k Hin Hlen q Hq. rewrite H6; [by apply Hall|].
    destruct (add_paths_spec (existing ++ discovered) [] ltac:(constructor) ltac:(constructor)) as (Hn & _ & _).
    fold all in Hn. assert (all ⊆ k) as Hs by (intros x Hx; apply Hin, Hall, Hx).
    pose proof (submseteq_length _ _ (NoDup_submseteq _ _ Hn Hs)). lia.
Qed.

(** Counting the runes of texts made of runes. *)
Lemma RuneCount_of_runes rs : Forall (λ r, rune_ok r = true) rs → RuneCount (of_runes rs) = Z.of_nat (length rs).
Proof. intros H. unfold RuneCount. by rewrite runes_of_runes. Qed.
Lemma previewStringRunes_bound input n : 0 <= n → RuneCount (previewStringRunes input n) <= n.
Proof.
  intros Hn. unfold previewStringRunes. destruct (Z.leb_spec n 0); [done|]. cbv zeta.
  destruct (Z.leb_spec (Z.of_nat (length (runes input))) n); [done|]. pose proof (runes_ok input) as Hok.
  destruct (Z.leb_spec n 3).
  - rewrite RuneCount_of_runes by by apply Forall_take. rewrite length_take. lia.
  - change "..." with (of_runes (runes "...")). rewrite <- of_runes_app, RuneCount_of_runes.
    + rewrite length_app, length_take. change (length (runes "...")) with 3%nat. lia.
    + apply Forall_app. split; [by apply Forall_take|apply runes_ok].
Qed.

(** No line of the transcript shown to a model is longer than its limit:
    in runes, for every text and every limit, with the ellipsis counted, whether
    the head alone or the head and the tail of the text are kept. *)
Theorem preview_bounded content previewRunes :
  RuneCount (previewForTranscriptLine content previewRunes) <= Z.max 0 previewRunes.
Proof.
  unfold previewForTranscriptLine. destruct (Z.ltb_spec previewRunes 512) as [H|H].
  { destruct (Z.leb_spec previewRunes 0) as [H0|H0].
    - unfold previewStringRunes. rewrite (proj2 (Z.leb_le _ _)) by lia. change (RuneCount "") with 0. lia.
    - etrans; [apply previewStringRunes_bound; lia|lia]. }
  unfold previewStringRunesHeadTail. rewrite (proj2 (Z.leb_gt _ _)) by lia. cbv zeta.
  pose proof (runes_ok (TrimSpace content)) as Hok. set (rs := runes (TrimSpace content)) in *.
  destruct (Z.leb_spec (Z.of_nat (length rs)) previewRunes); [rewrite RuneCount_of_runes by done; lia|].
  change (length (runes (newline +:+ "..." +:+ newline))) with 5%nat.
  pose proof (Z.div_mod (previewRunes - Z.of_nat 5) 2 ltac:(done)) as Hd.
  pose proof (Z.mod_pos_bound (previewRunes - Z.of_nat 5) 2 ltac:(done)) as Hb.
  set (h := (previewRunes - Z.of_nat 5) / 2) in *. clearbody h.
  rewrite (proj2 (Z.ltb_ge _ 8)) by lia. rewrite (proj2 (Z.ltb_ge h 1)) by lia.
  rewrite (proj2 (Z.ltb_ge (_ - h) 1)) by lia. rewrite <- !of_runes_app, RuneCount_of_runes.
  - rewrite !length_app, length_take, length_drop. change (length (runes (newline +:+ "..." +:+ newline))) with 5%nat. lia.
  - apply Forall_app. split; [by apply Forall_take|]. apply Forall_app. split; [apply runes_ok|by apply Forall_drop].
Qed.
End facts.
