(* ===== verification/ChatService.v ===== *)
(** * Conversation turns ([chat/service.go])

    [Service.Send]: from a message of the user to a reply, a confirmation
    question or a task, over the conversation store, the task runtime and the
    memory.  Background completions ([go s.completeTaskReply]) are jobs of the
    state that a later step runs.  The theorems show when a turn may start a
    task and that a turn ends. *)
From S2P Require Import Prelude GoStrings GoNum GoText GoTime StatusDirs ChatStore ChatRoute ChatText.
From S2P Require MemoryTypes MemoryStore Recall Runtime MemOrchestrator AgentLoop.
Open Scope Z_scope.

(** ** The system a turn acts on *)

(** What the agent's tools act on: everything but the conversations. *)
Record Backend (T : Type) := mkBackend { runtime : Runtime.Store; memory : MemoryStore.Store; machine : T }.
Arguments mkBackend {T} _ _ _.
Arguments runtime {T} _.
Arguments memory {T} _.
Arguments machine {T} _.
(** [observations/os/<message>-intent.json] *)
Record IntentObservation := mkIntentObservation {
  ob_SessionID : string; ob_MessageID : string; ob_Message : string; ob_Decision : IntentDecision; ob_CreatedAt : string }.
(** the arguments of a [completeTaskReply] that has been started *)
Record Job := mkJob {
  job_SessionID : string; job_Message : Message; job_Task : Runtime.Task; job_Context : option ChatContext;
  job_Intent : IntentDecision }.
Record System (T : Type) := mkSystem {
  chat : ChatStore.Store; backend : Backend T; observations : gmap string (File IntentObservation); jobs : list Job }.
Arguments mkSystem {T} _ _ _ _.
Arguments chat {T} _.
Arguments backend {T} _.
Arguments observations {T} _.
Arguments jobs {T} _.

(** A prompt for a text model, and what the model answers at the [n]-th reading
    of the environment: the decoded route of a routing prompt, a stream of
    deltas with its end, a text; errors as their message. *)
Record TextReq := mkTextReq { SystemPrompt : string; UserPrompt : string; tq_MaxTokens : Z; tq_Temperature : float64; tq_Profile : string }.
Record TextModel := mkTextModel {
  RouteAnswer : nat → Gateway RouteDecision;
  StreamText : nat → TextReq → list string * (string + string);
  GenerateText : nat → TextReq → string + string }.

Section service.
Context {tables : UnicodeTables} {digits : Recall.FloatFormat} {T : Type}.

(** The service: which parts are configured, and what it calls. *)
Record Service := mkService {
  textModel : option TextModel;
  agentLoop : option (AgentLoop.TextGateway (S := Backend T) * AgentLoop.AgentSkillRegistry (Backend T));
  has_memory : bool; has_recall : bool;
  systemInfo : SystemInfo;
  readFile : string → option string;
  RunTaskWithProgress : string → (ProgressEvent → M (System T) unit) → M (System T) RunResult;
  error_text : error → string; json_error : string → string;
  card_ords : MemoryStore.Store → nat → list string;
  field_ords : MemoryStore.Store → nat → string → list (string * string);
  feedback_ord : MemoryStore.Store → list string }.
Variable svc : Service.

(** Run an operation of one of the parts. *)
Definition with_chat {A} (m : M ChatStore.Store A) : M (System T) A := λ s w,
  match m (chat s) w with (r, x, w') => (r, mkSystem x (backend s) (observations s) (jobs s), w') end.
Definition with_runtime {A} (m : M Runtime.Store A) : M (System T) A := λ s w,
  match m (runtime (backend s)) w with (r, x, w') =>
    (r, mkSystem (chat s) (mkBackend x (memory (backend s)) (machine (backend s))) (observations s) (jobs s), w') end.
Definition with_memory {A} (m : M MemoryStore.Store A) : M (System T) A := λ s w,
  match m (memory (backend s)) w with (r, x, w') =>
    (r, mkSystem (chat s) (mkBackend (runtime (backend s)) x (machine (backend s))) (observations s) (jobs s), w') end.
Definition observations_dir : Lens (System T) (gmap string (File IntentObservation)) :=
  mkLens observations (λ f s, mkSystem (chat s) (backend s) (f (observations s)) (jobs s)).
(** [_ = op]: the error is dropped *)
Definition ignore {A} (m : M (System T) A) : M (System T) unit := _ ← try m; mret tt.
(** [res, err := op]: the error is a value, but a panic unwinds the caller *)
Definition catch {A} (m : M (System T) A) : M (System T) (result A) :=
  res ← try m; match res with Err EPanic => throw EPanic | _ => mret res end.
(** a call of a model *)
Definition ask {A} (f : nat → A) : M (System T) A := λ s w, (Ok (f (tick w)), s, advance w).

(** ** Sessions and context *)

Definition normalizeSessionID (sessionID : string) : string :=
  let id := TrimSpace sessionID in if decide (id = "") then "default" else id.
Definition loadSessionState (sessionID : string) : M (System T) SessionState :=
  res ← try (with_chat (GetSessionState sessionID));
  mret (match res with Ok st => st | Err _ => empty_state sessionID end).
Definition transcript_line (previewRunes : Z) (m : Message) : option string :=
  let content := TrimSpace (Content m) in
  if decide (content = "") then None else Some (Role m +:+ ": " +:+ previewForTranscriptLine content previewRunes).
Definition recentConversationContextWithPreview (sessionID : string) (limit previewRunes : Z) : M (System T) string :=
  if limit <=? 0 then mret "" else
  let previewRunes := if previewRunes <=? 0 then 240 else previewRunes in
  res ← try (with_chat (ListMessages sessionID limit));
  mret (match res with Ok messages => lines (omap (transcript_line previewRunes) messages) | Err _ => "" end).
Definition recentConversationContext (sessionID : string) (limit : Z) : M (System T) string :=
  recentConversationContextWithPreview sessionID limit 240.

Definition packet_sources (b : Backend T) : MemOrchestrator.Sources :=
  MemOrchestrator.mkSources (if has_recall svc then Some (memory b) else None)
    (card_ords svc (memory b)) (field_ords svc (memory b)) (Some (runtime b)).
Definition recentTasks (limit : Z) : M (System T) (list TaskRef) :=
  if limit <=? 0 then mret [] else
  res ← try (with_runtime Runtime.ListTasks);
  mret (match res with
    | Err _ => []
    | Ok tasks => (λ t, mkTaskRef (Runtime.TaskID t) (Runtime.Title t) (Runtime.State t) (Runtime.SelectedSkill t))
                    <$> take (Z.to_nat limit) tasks
    end).
Definition buildFastContextSnapshot (st : SessionState) : M (System T) (option ChatContext) :=
  s ← get;
  packet ← lift_result (MemOrchestrator.BuildFastPacket MemOrchestrator.DefaultQuota (packet_sources (backend s)) (sessionViewFromState st));
  mret (contextFromPacket packet).
Definition buildTaskContextSnapshot (query : string) (st : SessionState) (selectedSkill : string)
    : M (System T) (option ChatContext) :=
  tasks ← recentTasks 3;
  s ← get;
  packet ← lift_result (MemOrchestrator.BuildTaskPacket MemOrchestrator.DefaultQuota (packet_sources (backend s)) query
    selectedSkill (sessionViewFromState st) (taskRefsToPacketRefs tasks));
  mret (contextFromPacket packet).

(** ** Messages *)

Definition message_id (t : Time) : string := "msg-" +:+ Itoa t.
Definition profile_of (req : SendRequest) : string := firstNonEmpty [rq_ExecutionProfile req; "user"].
Definition with_stage (m : Message) (stage content : string) : Message :=
  mkMessage (MessageID m) (msg_SessionID m) (Role m) content (DialogueAct m) (msg_IntentKind m) (IntentReason m)
    (IntentConfidence m) stage (msg_TaskID m) (TaskState m) (SelectedSkill m) (ExecutionProfile m) (Links m) (Actions m)
    (Context_ m) (ToolTrace m) (msg_CreatedAt m).
Definition with_trace (m : Message) (trace : list ToolTraceEntry) : Message :=
  mkMessage (MessageID m) (msg_SessionID m) (Role m) (Content m) (DialogueAct m) (msg_IntentKind m) (IntentReason m)
    (IntentConfidence m) (Stage m) (msg_TaskID m) (TaskState m) (SelectedSkill m) (ExecutionProfile m) (Links m) (Actions m)
    (Context_ m) trace (msg_CreatedAt m).
Definition with_task (m : Message) (task : Runtime.Task) (runResult : option RunResult) : Message :=
  mkMessage (MessageID m) (msg_SessionID m) (Role m) (Content m) (DialogueAct m) (msg_IntentKind m) (IntentReason m)
    (IntentConfidence m) (Stage m) (msg_TaskID m) (Runtime.State task) (Runtime.SelectedSkill task)
    (Runtime.ExecutionProfile task) (buildLinks task runResult) (buildActions task) (Context_ m) (ToolTrace m) (msg_CreatedAt m).
Definition with_context (m : Message) (ctx : option ChatContext) : Message :=
  mkMessage (MessageID m) (msg_SessionID m) (Role m) (Content m) (DialogueAct m) (msg_IntentKind m) (IntentReason m)
    (IntentConfidence m) (Stage m) (msg_TaskID m) (TaskState m) (SelectedSkill m) (ExecutionProfile m) (Links m) (Actions m)
    ctx (ToolTrace m) (msg_CreatedAt m).
(** An assistant message as a turn creates it; the identifier and the creation
    time are two readings of the clock. *)
Definition assistant_message (sessionID content act : string) (intent : IntentDecision) (stage profile : string)
    (ctx : option ChatContext) : M (System T) Message :=
  t ← now;
  t2 ← now;
  mret (mkMessage (message_id t) sessionID "assistant" content act (Kind intent) (id_Reason intent) (id_Confidence intent)
    stage "" "" "" profile [] [] ctx [] t2).

Definition upsert (sessionID : string) (m : Message) : M (System T) unit := with_chat (Upsert sessionID m).
Definition append (sessionID : string) (m : Message) : M (System T) unit := with_chat (ChatStore.Append sessionID m).
Definition save_state (st : SessionState) : M (System T) unit := ignore (with_chat (SaveSessionState st)).

Definition writeIntentObservation (sessionID messageID message : string) (decision : IntentDecision) : M (System T) unit :=
  f ← io;
  match f with
  | NoFault =>
      t ← now;
      if is_finite (id_Confidence decision)
      then WriteFile observations_dir (messageID +:+ "-intent.json")
             (mkIntentObservation sessionID messageID message decision (RFC3339 t))
      else throw EJson
  | _ => throw EIO
  end.

Definition recordChatEvent (sessionID userText assistantText intentKind skill : string) : M (System T) unit :=
  if negb (has_memory svc) then mret tt else
  let userText := TrimSpace userText in
  let assistantText := TrimSpace assistantText in
  if (len userText <? 10)%nat || (len assistantText <? 20)%nat then mret tt else
  if one_of (ToLower userText) ["hi"; "hello"; "hey"; "你好"; "谢谢"; "thanks"; "ok"; "好的"] then mret tt else
  t ← now;
  let content : gmap string MemoryTypes.Any := list_to_map (
    [("topic", MemoryTypes.AStr (previewString userText 120)); ("summary", MemoryTypes.AStr (previewString assistantText 300));
     ("user_query", MemoryTypes.AStr (previewString userText 500)); ("session_id", MemoryTypes.AStr sessionID)]
    ++ (if decide (skill = "") then [] else [("skill", MemoryTypes.AStr skill)])) in
  ignore (with_memory (MemoryStore.CreateCard (MemoryTypes.mkCreateCardRequest
    ("chat:event:" +:+ sessionID +:+ ":" +:+ Itoa t) "event" MemoryTypes.ScopeSession MemoryTypes.CardStatusActive "" None None
    (Some (MemoryTypes.mkActivation (lit 9 10) None None "session_use")) (Some content) None
    (MemoryTypes.mkProvenance "" ("chat-" +:+ firstNonEmpty [intentKind; "direct"]) (lit 7 10))))).
Definition recordMemoryUse (ctx : option ChatContext) (taskClass outcome : string) : M (System T) unit :=
  match ctx with
  | None => mret tt
  | Some c =>
      if negb (has_recall svc) then mret tt else
      s ← get;
      ignore (with_memory (MemOrchestrator.RecordPacketUse (feedback_ord svc (memory (backend s)))
        (Some (MemOrchestrator.mkPacket [] [] (contextRecallRefsToPacket (SemanticHits c)) (contextRecallRefsToPacket (ProcedureHits c)) []))
        (MemOrchestrator.mkUsage taskClass outcome)))
  end.

(** ** Replies of the model *)

(** The callback of a stream: the text so far, flushed when the last flush is
    old enough or the text long enough.  A failing flush ends the stream. *)
Fixpoint stream_deltas (interval : Z) (flush : string → M (System T) unit) (deltas : list string) (builder : string)
    (lastFlush : Time) : M (System T) (string * option error) :=
  match deltas with
  | [] => mret (builder, None)
  | d :: rest =>
      let builder := builder +:+ d in
      let current := normalizeAssistantText (TrimSpace builder) in
      if decide (current = "") then stream_deltas interval flush rest builder lastFlush else
      t ← now;
      if (Sub t lastFlush <? interval) && (Z.of_nat (len current) <? 120)
      then stream_deltas interval flush rest builder lastFlush else
      lastFlush ← now;
      res ← try (flush current);
      match res with
      | Err e => mret (builder, Some e)
      | Ok _ => stream_deltas interval flush rest builder lastFlush
      end
  end.
(** The text of a stream, or the message of its error. *)
Definition stream (model : TextModel) (req : TextReq) (interval : Z) (flush : string → M (System T) unit)
    : M (System T) (string * (string + string)) :=
  t ← now;
  ans ← ask (λ n, StreamText model n req);
  r ← stream_deltas interval flush ans.1 "" t;
  mret (r.1, match r.2 with Some e => inl (error_text svc e) | None => ans.2 end).

Definition responded (m : Message) (content : string) : M (System T) Message :=
  let m := with_stage m "responded" (normalizeAssistantText content) in
  _ ← ignore (upsert (msg_SessionID m) m); mret m.
Definition streamConversationReply (model : TextModel) (m : Message) (req : TextReq) (fallback locale : string)
    : M (System T) Message :=
  r ← stream model req (120 * Millisecond) (λ current, upsert (msg_SessionID m) (with_stage m "running" current));
  let '(builder, res) := r in
  let streamed := match res with
    | inl _ => ""
    | inr text =>
        let text := normalizeAssistantText (TrimSpace text) in
        if decide (text = "") then normalizeAssistantText (TrimSpace builder) else text
    end in
  if negb (bool_decide (streamed = "")) then
    let m := with_stage m "responded" streamed in
    _ ← ignore (upsert (msg_SessionID m) m); mret m
  else
    gen ← ask (λ n, GenerateText model n req);
    match gen with
    | inr text =>
        if negb (blank text) then responded m (TrimSpace text)
        else responded m (modelReplyFailureMessage locale
               (Some (match res with inl e => e | inr _ => "model returned empty content" end)))
    | inl e => responded m (modelReplyFailureMessage locale (Some e))
    end.

Definition composeDirectReply (userText : string) (ctx : option ChatContext) (conversationContext : string)
    (m : Message) (locale : string) : M (System T) Message :=
  let fallback := fallbackDirectReply userText locale in
  match textModel svc with
  | None => responded m fallback
  | Some model =>
      streamConversationReply model m
        (mkTextReq (directReplySystemPrompt (systemInfo svc) locale) (directReplyPrompt userText ctx conversationContext fallback locale)
           (directReplyMaxTokens userText) (lit 3 10) "conversation") fallback locale
  end.

(** One event of the agent loop: the message and the trace so far. *)
Definition fill_last (trace : list ToolTraceEntry) (preview : string) : list ToolTraceEntry :=
  match last trace with
  | Some e => take (length trace - 1) trace ++ [mkToolTrace (ToolName e) (Arguments e) preview (tt_Error e)]
  | None => trace
  end.
Definition agent_event (sessionID locale : string) (acc : Message * list ToolTraceEntry) (e : AgentLoop.AgentLoopEvent)
    : M (System T) (Message * list ToolTraceEntry) :=
  let '(m, trace) := acc in
  let name := AgentLoop.ev_ToolName e in
  if decide (AgentLoop.ev_Kind e = "tool_call") then
    let trace := trace ++ [mkToolTrace name (AgentLoop.ev_ToolArgs e) "" ""] in
    let m := with_trace (with_stage m "tool_call" (localizedText locale ("正在调用 " +:+ name +:+ " ...") ("Calling " +:+ name +:+ " ..."))) trace in
    _ ← ignore (upsert sessionID m); mret (m, trace)
  else if decide (AgentLoop.ev_Kind e = "tool_result") then
    let trace := fill_last trace (summarizeToolResult (AgentLoop.ev_Result e)) in
    let m := with_trace (with_stage m "tool_result" (localizedText locale (name +:+ " 完成。") (name +:+ " finished."))) trace in
    _ ← ignore (upsert sessionID m); mret (m, trace)
  else mret (m, trace).
(** The tools do not touch the conversations, so their effects and the events
    shown while they run commute. *)
Definition composeAgentDirectReply (gateway : AgentLoop.TextGateway (S := Backend T)) (skills : AgentLoop.AgentSkillRegistry (Backend T))
    (sessionID text : string) (fastContext : option ChatContext) (conversationContext : string) (m : Message) (locale : string)
    : M (System T) Message :=
  st ← loadSessionState sessionID;
  let focusBlock := formatFocusPathsForAgent (FocusPaths (WorkingSet st)) locale in
  agentTranscript ← recentConversationContextWithPreview sessionID 16 2500;
  let userTurn := agentDirectReplyUserContent locale text focusBlock agentTranscript in
  s ← get;
  let '(reply, ls) := AgentLoop.Run (json_error svc) (Some gateway) (Some skills)
    (agentSystemPrompt (systemInfo svc) locale) userTurn locale (backend s) in
  _ ← modify (λ s, mkSystem (chat s) (AgentLoop.sys ls) (observations s) (jobs s));
  acc ← foldM (agent_event sessionID locale) (m, []) (AgentLoop.events ls);
  let '(m, trace) := acc in
  match reply with
  | AgentLoop.Failed _ => composeDirectReply text fastContext conversationContext m locale
  | AgentLoop.Text replyText =>
      let content := normalizeAssistantText (TrimSpace replyText) in
      let content := if decide (content = "") then normalizeAssistantText (fallbackDirectReply text locale) else content in
      let m := with_stage m "responded" content in
      let m := match trace with [] => m | _ => with_trace m trace end in
      _ ← ignore (upsert sessionID m); mret m
  end.

(** ** Follow-ups on a finished task *)

Definition composeFollowupArtifactReply (userText : string) (task : Runtime.Task) (st : SessionState) (m : Message)
    (locale : string) : M (System T) Message :=
  let excerpts := focusArtifactExcerpts (readFile svc) task st 2 1600 in
  let fallback := composeFollowupFallback task excerpts locale in
  match textModel svc with
  | None => responded m fallback
  | Some model =>
      streamConversationReply model m
        (mkTextReq "You are the follow-up layer of MnemosyneOS. The user is continuing a prior thread. Answer directly from the prior task artifacts and do not claim to perform a new search unless one actually happened. Output plain text only. Do not use Markdown syntax like headings, bold markers, code fences, or bullet stars."
           (followup_prompt userText task excerpts fallback) (followupMaxTokens userText) (lit 2 10) "conversation") fallback locale
  end.
(** The two tests return the task the reply is about, if the turn is handled. *)
Definition tryHandleSessionFollowup (dialogue : DialogueDecision) (st : SessionState) : M (System T) (option Runtime.Task) :=
  if negb (isFollowupDialogueAct (Act dialogue)) then mret None
  else if blank (FocusTaskID st) || blank (PendingAction st) then mret None else
  res ← try (with_runtime (Runtime.GetTask (FocusTaskID st)));
  mret (match res with
    | Err _ => None
    | Ok task => if decide (PendingAction st = "summarize_focus_task") then Some task else None
    end).
Definition tryHandleFocusedTaskContinuation (route : RouteDecision) (st : SessionState) : M (System T) (option Runtime.Task) :=
  if negb (bool_decide (TrimSpace (TargetScope route) = "focused_task")) || blank (FocusTaskID st) then mret None
  else if negb (one_of (rd_DialogueAct route) [DialogueActContinueTask; DialogueActAnswer; DialogueActConfirm]) then mret None else
  res ← try (with_runtime (Runtime.GetTask (FocusTaskID st)));
  mret (match res with
    | Err _ => None
    | Ok task =>
        if negb (bool_decide (Runtime.State task = Runtime.TaskStateDone)) then None
        else if one_of (Runtime.SelectedSkill task) [SkillWebSearch; SkillEmailInbox; SkillGitHubIssueSearch; SkillTaskPlan]
        then Some task else None
    end).

(** ** Completing a task *)

Definition composeAssistantMessage (task : Runtime.Task) (runResult : option RunResult) (ctx : option ChatContext)
    (intent : IntentDecision) (sessionID messageID : string) (createdAt : Time) (locale : string) : M (System T) string :=
  let envelope := buildTaskResultEnvelope task runResult in
  let fallback := composeAssistantReply (readFile svc) task runResult ctx locale in
  match textModel svc with
  | None => mret (normalizeAssistantText fallback)
  | Some model =>
      let req := mkTextReq
        (localizedText locale "你是 MnemosyneOS 的聊天结果层。请基于真实运行状态，用简洁自然的中文回复。需要时说明审批、阻塞、产物和下一步，不要杜撰。仅输出纯文本。" "You are the chat surface of MnemosyneOS. Reply like an operator-facing assistant: concise, conversational, and grounded in the actual runtime state. Mention approvals, blockers, artifacts, or next actions when they matter. Do not invent actions or results. Output plain text only.")
        (assistantPrompt task envelope ctx fallback locale) 420 (lit 2 10) "skills" in
      r ← stream model req (150 * Millisecond) (λ current, upsert sessionID
        (mkMessage messageID sessionID "assistant" current "" (Kind intent) (id_Reason intent) (id_Confidence intent) "running"
          (Runtime.TaskID task) (Runtime.State task) (Runtime.SelectedSkill task) (Runtime.ExecutionProfile task)
          (buildLinks task runResult) (buildActions task) ctx [] createdAt));
      let '(builder, res) := r in
      match res with
      | inl _ => mret (normalizeAssistantText fallback)
      | inr text =>
          let text := normalizeAssistantText (TrimSpace text) in
          let text := if decide (text = "") then normalizeAssistantText (TrimSpace builder) else text in
          if negb (bool_decide (text = "")) then mret text else
          gen ← ask (λ n, GenerateText model n req);
          mret (match gen with
            | inr t => if negb (blank t) then normalizeAssistantText (TrimSpace t) else normalizeAssistantText fallback
            | inl _ => normalizeAssistantText fallback
            end)
      end
  end.
Definition finalizeSessionState (sessionID : string) (task : Runtime.Task) (runResult : option RunResult)
    (assistantContent userAct : string) (ctx : option ChatContext) : M (System T) unit :=
  st ← loadSessionState sessionID;
  let question := extractPendingQuestion assistantContent in
  let st := mkSessionState sessionID (firstNonEmpty [Runtime.Title task; Topic st]) (Runtime.TaskID task) question
    (inferPendingAction task question) (firstNonEmpty [userAct; LastUserAct st]) (finalStage task)
    (mergeWorkingSet (WorkingSet st) (workingSetFromRunResult runResult ctx)) (st_UpdatedAt st) in
  _ ← recordMemoryUse ctx (Runtime.SelectedSkill task) (Runtime.State task);
  save_state st.

Definition runnable (task : Runtime.Task) : bool :=
  bool_decide (Runtime.State task = Runtime.TaskStateActive) || bool_decide (Runtime.State task = Runtime.TaskStatePlanned).
(** A run with its progress shown in the message: the result, or the error and
    the task as it is then, if it can be read. *)
Definition run_task (sessionID : string) (m : Message) (task : Runtime.Task) (locale : string)
    : M (System T) (RunResult + error * option Runtime.Task) :=
  res ← catch (RunTaskWithProgress svc (Runtime.TaskID task) (λ event,
    let stage := normalizeProgressStage task (pe_Stage event) in
    ignore (upsert sessionID (with_stage m stage (firstNonEmpty [TrimSpace (pe_Message event); stageMessage task stage locale])))));
  match res with
  | Ok r => mret (inl r)
  | Err e =>
      latest ← try (with_runtime (Runtime.GetTask (Runtime.TaskID task)));
      mret (inr (e, match latest with Ok t => Some t | Err _ => None end))
  end.

(** (The message a run leaves is its last progress event; it is overwritten
    unless it starts as a failure, which no event of the runner does.) *)
Definition completeTaskReply (job : Job) : M (System T) unit :=
  let '(mkJob sessionID m task ctx intent) := job in
  let locale := detectTurnLocale (Runtime.Goal task) in
  let m := with_stage m (activeTaskStage task) (stageMessage task (activeTaskStage task) locale) in
  _ ← ignore (upsert sessionID m);
  out ← (if runnable task then
           r ← run_task sessionID m task locale;
           mret (match r with
             | inl r => (with_stage m (Stage m) (Content m), rr_Task r, Some r)
             | inr (e, latest) =>
                 (with_stage m "failed" ("Task execution failed: " +:+ error_text svc e), default task latest, None)
             end)
         else mret (m, task, None));
  let '(m, task, runResult) := out in
  let m := with_context (with_task m task runResult) ctx in
  m ← (if HasPrefix (Content m) "Task execution failed: " then mret m else
       let m := with_stage m "summarizing" (stageMessage task "summarizing" locale) in
       _ ← ignore (upsert sessionID m);
       content ← composeAssistantMessage task runResult ctx intent sessionID (MessageID m) (msg_CreatedAt m) locale;
       mret (with_stage m (finalStage task) content));
  _ ← ignore (upsert sessionID m);
  _ ← finalizeSessionState sessionID task runResult (Content m) (DialogueAct m) ctx;
  recordChatEvent sessionID (Runtime.Goal task) (Content m) (Kind intent) (Runtime.SelectedSkill task).

(** ** Reading a session *)

Definition hydrateMessage (m : Message) : M (System T) Message :=
  if blank (msg_TaskID m) then mret m else
  res ← try (with_runtime (Runtime.GetTask (msg_TaskID m)));
  mret (match res with
    | Err _ => m
    | Ok task =>
        let m := with_task m task None in
        if EqualFold (Role m) "assistant" && blank (Content m)
        then with_stage m (Stage m) (composeAssistantReply (readFile svc) task None (Context_ m) (detectTurnLocale (Runtime.Goal task)))
        else m
    end).
Definition hydrate_all (messages : list Message) : M (System T) (list Message) :=
  foldM (λ acc m, m ← hydrateMessage m; mret (acc ++ [m])) [] messages.
(** [Service.Messages] and the operations that pass through to the store *)
Definition ServiceMessages (sessionID : string) (limit : Z) : M (System T) (list Message) :=
  messages ← with_chat (ListMessages (normalizeSessionID sessionID) limit); hydrate_all messages.
Definition ServiceSessions (limit : Z) : M (System T) (list SessionSummary) := with_chat (Sessions limit).
Definition ServiceArchivedSessions (limit : Z) : M (System T) (list SessionSummary) := with_chat (ArchivedSessions limit).
Definition ServiceSessionState (sessionID : string) : M (System T) SessionState :=
  with_chat (GetSessionState (normalizeSessionID sessionID)).
Definition ServiceEnsureSession (sessionID : string) : M (System T) string :=
  _ ← with_chat (EnsureSession (normalizeSessionID sessionID)); mret (normalizeSessionID sessionID).
Definition ServiceRenameSession (sessionID title : string) : M (System T) unit := with_chat (RenameSession (normalizeSessionID sessionID) title).
Definition ServiceArchiveSession (sessionID : string) : M (System T) unit := with_chat (ArchiveSession (normalizeSessionID sessionID)).
Definition ServiceDeleteSession (sessionID : string) : M (System T) unit := with_chat (DeleteSession (normalizeSessionID sessionID)).
Definition ServiceRestoreSession (sessionID : string) : M (System T) unit := with_chat (RestoreSession (normalizeSessionID sessionID)).

(** ** A turn

    What a turn has worked out when it comes to its reply. *)
Record Turn := mkTurn {
  tn_req : SendRequest; tn_text : string; tn_locale : string; tn_session : string; tn_state : SessionState;
  tn_context : string; tn_route : RouteDecision; tn_user : Message; tn_fast : option ChatContext }.
Definition tn_intent (tn : Turn) : IntentDecision :=
  mkIntent (IntentKind (tn_route tn)) (Reason (tn_route tn)) (Confidence (tn_route tn)).
Definition tn_dialogue (tn : Turn) : DialogueDecision :=
  mkDialogue (rd_DialogueAct (tn_route tn)) (Reason (tn_route tn)) (Confidence (tn_route tn)).
Definition direct_intent (reason : string) (confidence : float64) : IntentDecision := mkIntent IntentKindDirect reason confidence.

(** A follow-up on the task [task]; [act] names the kind of follow-up, and
    [clear] whether it settles what was pending. *)
Definition followup_turn (tn : Turn) (task : Runtime.Task) (intent : IntentDecision) (act : string) (clear : bool)
    : M (System T) SendResponse :=
  m ← assistant_message (tn_session tn) "" (Act (tn_dialogue tn)) intent "running" (profile_of (tn_req tn)) (tn_fast tn);
  _ ← append (tn_session tn) m;
  m ← composeFollowupArtifactReply (tn_text tn) task (tn_state tn) m (tn_locale tn);
  let st := with_acts (tn_state tn) (Act (tn_dialogue tn)) act in
  let st := if clear then with_pending st "" "" else st in
  _ ← recordMemoryUse (tn_fast tn) act "responded";
  _ ← recordChatEvent (tn_session tn) (tn_text tn) (Content m) IntentKindDirect "";
  _ ← save_state st;
  mret (mkSendResponse (tn_user tn) m).

Definition direct_turn (tn : Turn) : M (System T) SendResponse :=
  m ← assistant_message (tn_session tn) "" (Act (tn_dialogue tn)) (tn_intent tn) "running" (profile_of (tn_req tn)) (tn_fast tn);
  _ ← append (tn_session tn) m;
  m ← match agentLoop svc, textModel svc with
      | Some (gateway, skills), Some _ =>
          composeAgentDirectReply gateway skills (tn_session tn) (tn_text tn) (tn_fast tn) (tn_context tn) m (tn_locale tn)
      | _, _ => composeDirectReply (tn_text tn) (tn_fast tn) (tn_context tn) m (tn_locale tn)
      end;
  let st := tn_state tn in
  let st := with_workset st (with_focus_paths (WorkingSet st)
    (mergeFocusPaths (FocusPaths (WorkingSet st)) (extractChatFilesystemPaths (Content m)) 24)) in
  let st := with_acts st (Act (tn_dialogue tn)) "direct_reply" in
  let question := extractPendingQuestion (Content m) in
  let st := if decide (question = "") then st else with_focus_task (with_pending st question "") "" in
  _ ← recordMemoryUse (tn_fast tn) "direct_reply" "responded";
  _ ← recordChatEvent (tn_session tn) (tn_text tn) (Content m) (Kind (tn_intent tn)) "";
  _ ← save_state st;
  mret (mkSendResponse (tn_user tn) m).

Definition confirm_turn (tn : Turn) : M (System T) SendResponse :=
  let question := buildTaskConfirmationMessage (tn_locale tn) (tn_text tn) (tn_route tn) (profile_of (tn_req tn)) in
  m ← assistant_message (tn_session tn) (normalizeAssistantText question) DialogueActClarify
        (direct_intent "task intent needs confirmation" (Confidence (tn_route tn))) "awaiting_confirmation"
        (profile_of (tn_req tn)) (tn_fast tn);
  _ ← append (tn_session tn) m;
  let st := with_pending (tn_state tn) question "confirm_task_intent" in
  let st := with_workset st (with_source_refs (WorkingSet st)
    (SourceRefs (WorkingSet st) ++ confirmation_refs (tn_text tn) (tn_route tn) (tn_req tn))) in
  _ ← save_state (with_acts st (Act (tn_dialogue tn)) "clarify");
  mret (mkSendResponse (tn_user tn) m).

(** The request for the task of a turn. *)
Definition create_request (tn : Turn) (contextSnapshot : option ChatContext) : Runtime.CreateTaskRequest :=
  let profile := profile_of (tn_req tn) in
  let skill := rd_Skill (tn_route tn) in
  let meta : gmap string string := {["chat_origin" := "true"]} in
  let meta := if blank (tn_context tn) then meta else <["chat_conversation_context" := tn_context tn]> meta in
  let meta := applyChatContextMetadata meta contextSnapshot in
  let meta := if blank skill then meta else
    <["skill_confidence" := format_fixed2 (Confidence (tn_route tn))]> (<["skill_reason" := Reason (tn_route tn)]> meta) in
  Runtime.mkCreateTaskRequest (summarizeTitle (tn_text tn)) (tn_text tn) (firstNonEmpty [rq_RequestedBy (tn_req tn); "web-chat"])
    (firstNonEmpty [rq_Source (tn_req tn); "web-chat"]) profile (bool_decide (profile = "root")) skill (Some meta).

Definition task_turn (tn : Turn) : M (System T) SendResponse :=
  let sessionID := tn_session tn in
  let locale := tn_locale tn in
  let intent := tn_intent tn in
  ctx ← buildTaskContextSnapshot (expandQueryWithConversation (tn_text tn) (tn_context tn)) (tn_state tn) (rd_Skill (tn_route tn));
  res ← try (with_runtime (Runtime.SubmitTask (create_request tn ctx)));
  match res with
  | Err e =>
      m ← assistant_message sessionID (normalizeAssistantText (localizedText locale
            ("我没能为这个请求创建任务：" +:+ error_text svc e) ("I could not create a task for that request: " +:+ error_text svc e)))
            "" no_intent "" "" None;
      _ ← ignore (append sessionID m);
      mret (mkSendResponse (tn_user tn) m)
  | Ok task =>
      m ← assistant_message sessionID (stageMessage task "queued" locale) (Act (tn_dialogue tn)) intent "queued" "" ctx;
      let m := with_task (mkMessage (MessageID m) sessionID (Role m) (Content m) (DialogueAct m) (msg_IntentKind m) (IntentReason m)
        (IntentConfidence m) (Stage m) (Runtime.TaskID task) "" "" "" [] [] ctx [] (msg_CreatedAt m)) task None in
      _ ← append sessionID m;
      _ ← save_state (updateStateForTaskStart (tn_state tn) task ctx (tn_dialogue tn));
      if Async (tn_req tn) then
        _ ← modify (λ s, mkSystem (chat s) (backend s) (observations s) (jobs s ++ [mkJob sessionID m task ctx intent]));
        mret (mkSendResponse (tn_user tn) m)
      else
        out ← (if runnable task then
                 let m := with_stage m (activeTaskStage task) (stageMessage task (activeTaskStage task) locale) in
                 _ ← ignore (upsert sessionID m);
                 r ← run_task sessionID m task locale;
                 mret (match r with inl r => (rr_Task r, Some r) | inr (_, latest) => (default task latest, None) end)
               else mret (task, None));
        let '(task, runResult) := out in
        let m := with_stage (with_context (with_task m task runResult) ctx) "summarizing" (stageMessage task "summarizing" locale) in
        _ ← ignore (upsert sessionID m);
        content ← composeAssistantMessage task runResult ctx intent sessionID (MessageID m) (msg_CreatedAt m) locale;
        let m := with_stage m (Stage m) content in
        _ ← upsert sessionID m;
        _ ← finalizeSessionState sessionID task runResult content (Act (tn_dialogue tn)) ctx;
        _ ← recordChatEvent sessionID (tn_text tn) content (Kind intent) (Runtime.SelectedSkill task);
        mret (mkSendResponse (tn_user tn) m)
  end.

(** The reply to a confirmation question, if one is open; [recur] is [Send]. *)
Definition with_message (req : SendRequest) (message source : string) : SendRequest :=
  mkSendRequest (rq_SessionID req) message (rq_RequestedBy req) source (rq_ExecutionProfile req) (Async req).
Definition settled (st : SessionState) : SessionState :=
  with_workset (with_pending st "" "") (with_source_refs (WorkingSet st) []).
Definition tryHandleIntentConfirmation (recur : SendRequest → M (System T) SendResponse) (tn : Turn)
    : M (System T) (option SendResponse) :=
  let st := tn_state tn in
  let req := tn_req tn in
  let text := tn_text tn in
  if negb (bool_decide (PendingAction st = "confirm_task_intent")) then mret None else
  m ← assistant_message (tn_session tn) "" (Act (tn_dialogue tn)) (direct_intent "intent confirmation follow-up" (lit 95 100)) ""
        (profile_of req) (tn_fast tn);
  let failed zh en e :=
    let m := with_stage m "failed" (localizedText (tn_locale tn) (zh +:+ error_text svc e) (en +:+ error_text svc e)) in
    _ ← ignore (append (tn_session tn) m); mret (Some (mkSendResponse (tn_user tn) m)) in
  if isAffirmativeConfirmation text then
    let goal := parseConfirmationFromState st "confirm_goal" in
    let goal := if blank goal then text else goal in
    _ ← save_state (settled st);
    res ← catch (recur (with_message req goal "intent-confirmation"));
    match res with
    | Ok resp => mret (Some resp)
    | Err e => failed "确认后创建任务失败：" "Failed to create task after confirmation: " e
    end
  else if isNegativeConfirmation text then
    let m := with_stage m "responded" (localizedText (tn_locale tn)
      "好的，这次不执行。你可以直接告诉我更具体的目标、范围或约束，我再确认一次。"
      "Understood, not running this one. Tell me a more specific goal, scope, or constraint and I will ask again before running.") in
    _ ← ignore (append (tn_session tn) m);
    _ ← save_state (settled st);
    mret (Some (mkSendResponse (tn_user tn) m))
  else
    _ ← save_state (with_acts (settled st) (LastUserAct st) "");
    res ← catch (recur (with_message req text (rq_Source req)));
    match res with
    | Ok resp => mret (Some (mkSendResponse (tn_user tn) (AssistantMessage resp)))
    | Err e => failed "收到，但我没能处理这条消息：" "Got it, but I could not process this message: " e
    end.

(** The front of a turn: route the message and record it. *)
Definition receive (req : SendRequest) : M (System T) Turn :=
  let text := TrimSpace (rq_Message req) in
  if decide (text = "") then throw ErrInvalidArgument else
  let sessionID := normalizeSessionID (rq_SessionID req) in
  st ← loadSessionState sessionID;
  context ← recentConversationContext sessionID 6;
  t ← now;
  n ← ask id;
  let route := Decide ((λ m, RouteAnswer m n) <$> textModel svc) text context st in
  let user intent := mkMessage (message_id t) sessionID "user" text (rd_DialogueAct route) (Kind intent) (id_Reason intent)
    (id_Confidence intent) "" "" "" "" (profile_of req) [] [] None [] t in
  _ ← append sessionID (user no_intent);
  let intent := mkIntent (IntentKind route) (Reason route) (Confidence route) in
  _ ← ignore (writeIntentObservation sessionID (message_id t) text intent);
  fast ← buildFastContextSnapshot st;
  mret (mkTurn req text (detectTurnLocale text) sessionID st context route (user intent) fast).

Definition send_body (recur : SendRequest → M (System T) SendResponse) (req : SendRequest) : M (System T) SendResponse :=
  tn ← receive req;
  followup ← tryHandleSessionFollowup (tn_dialogue tn) (tn_state tn);
  match followup with
  | Some task => followup_turn tn task (direct_intent "handled as session follow-up" (lit 95 100)) "followup_reply" true
  | None =>
      continued ← tryHandleFocusedTaskContinuation (tn_route tn) (tn_state tn);
      match continued with
      | Some task => followup_turn tn task (direct_intent "continued focused task context" (Confidence (tn_route tn)))
                       "focused_task_followup" false
      | None =>
          confirmed ← tryHandleIntentConfirmation recur tn;
          match confirmed with
          | Some resp => mret resp
          | None =>
              if negb (bool_decide (IntentKind (tn_route tn) = IntentKindTask)) then direct_turn tn
              else if shouldConfirmTaskIntent (tn_route tn) (tn_text tn) (rq_Source req) (rd_DialogueAct (tn_route tn)) (rq_ExecutionProfile req)
              then confirm_turn tn
              else task_turn tn
          end
      end
  end.
(** [Send] calls itself to handle the reply to a confirmation question; a
    stack that grows without bound is a panic. *)
Fixpoint Send (depth : nat) (req : SendRequest) : M (System T) SendResponse :=
  match depth with
  | O => throw EPanic
  | S depth => send_body (Send depth) req
  end.
End service.

(** ** A turn that nobody consented to starts nothing *)

Section gate.
Context {tables : UnicodeTables} {digits : Recall.FloatFormat} {T : Type}.
Variable svc : Service (T := T).

(** The tools of the agent loop and its model leave the tasks alone. *)
Definition tools_keep_tasks : Prop :=
  match agentLoop svc with
  | None => True
  | Some (gateway, skills) =>
      (∀ req b, runtime (gateway req b).2 = runtime b) ∧
      (∀ name h args b, AgentLoop.index skills !! name = Some h → runtime (h args b).2 = runtime b)
  end.

(** What counts as consent to run a task for a request: the root profile, whose
    approval the orchestrator asks for; the tag of a confirmed request; an
    affirmative answer to an open confirmation; or a follow-up act, as routed
    for this text in some context. *)
Definition consented (req : SendRequest) (s : System T) : Prop :=
  let text := TrimSpace (rq_Message req) in
  EqualFold (TrimSpace (rq_ExecutionProfile req)) "root" = true ∨
  EqualFold (TrimSpace (rq_Source req)) "intent-confirmation" = true ∨
  (isAffirmativeConfirmation text = true ∧
   ∃ w st s' w', loadSessionState (T := T) (normalizeSessionID (rq_SessionID req)) s w = (Ok st, s', w') ∧
     PendingAction st = "confirm_task_intent") ∨
  (∃ n context st, isFollowupDialogueAct (rd_DialogueAct (Decide ((λ m, RouteAnswer m n) <$> textModel svc) text context st)) = true).

(** *** What a turn leaves alone

    An invariant of the back end that the operations on the memory keep. *)
Section frames.
Variable J : Backend T → Prop.
Definition holds (s : System T) : Prop := J (backend s).
Hypothesis J_memory : ∀ A (m : M MemoryStore.Store A), preserves MemoryStore.store_wf m → preserves holds (with_memory m).
(** The tools of the agent loop and its model keep it. *)
Definition tools_keep : Prop :=
  match agentLoop svc with
  | None => True
  | Some (gateway, skills) =>
      (∀ req b, J b → J (gateway req b).2) ∧
      (∀ name h args b, AgentLoop.index skills !! name = Some h → J b → J (h args b).2)
  end.

Lemma with_chat_keeps {A} (m : M ChatStore.Store A) : preserves holds (with_chat m).
Proof. intros s w H. unfold with_chat. by destruct (m (chat s) w) as [[? ?] ?]. Qed.
Lemma CreateCard_keeps req : preserves holds (with_memory (MemoryStore.CreateCard req)).
Proof. apply J_memory, MemoryStore.CreateCard_preserves. Qed.
Lemma RecordPacketUse_keeps ord packet usage : preserves holds (with_memory (MemOrchestrator.RecordPacketUse ord packet usage)).
Proof. apply J_memory, MemOrchestrator.RecordPacketUse_preserves. Qed.
Lemma ask_keeps {A} (f : nat → A) : preserves holds (ask f).
Proof. by intros s w H. Qed.
Lemma read_runtime_keeps {A} (m : M Runtime.Store A) :
  (∀ s w, (m s w).1.2 = s) → preserves holds (with_runtime m).
Proof.
  intros Hm s w H. unfold with_runtime. specialize (Hm (runtime (backend s)) w).
  destruct (m (runtime (backend s)) w) as [[? ?] ?]. cbn in *. subst. unfold holds in *. cbn. by destruct (backend s).
Qed.
Lemma asked_task_keeps id : preserves holds (with_runtime (Runtime.GetTask id)).
Proof. apply read_runtime_keeps. intros s w. unfold Runtime.GetTask, Runtime.findTaskLocked. run. by destruct (find_record _ _ _ _). Qed.
Lemma ListTasks_keeps : preserves holds (with_runtime Runtime.ListTasks).
Proof. apply read_runtime_keeps. intros s w. unfold Runtime.ListTasks. run. by destruct (read_dirs _ _). Qed.
Lemma get_keeps : preserves holds (get : M (System T) _).
Proof. by intros s w. Qed.
Lemma WriteFile_keeps name data : preserves holds (WriteFile (observations_dir (T := T)) name data).
Proof. by apply preserves_WriteFile. Qed.

Create HintDb keeps discriminated.
#[local] Hint Resolve with_chat_keeps CreateCard_keeps RecordPacketUse_keeps ask_keeps asked_task_keeps ListTasks_keeps get_keeps WriteFile_keeps : keeps.
#[local] Ltac keeps_step :=
  match goal with
  | |- preserves _ (ignore _) => unfold ignore
  | |- preserves _ (catch _) => unfold catch
  | _ => preserves_step
  | |- preserves _ _ => solve [eauto with keeps]
  end.
#[local] Ltac keeps_tac := repeat keeps_step.

Lemma loadSessionState_keeps id : preserves holds (loadSessionState id).
Proof. unfold loadSessionState. keeps_tac. Qed.
Lemma context_keeps id limit n : preserves holds (recentConversationContextWithPreview id limit n).
Proof. unfold recentConversationContextWithPreview. keeps_tac. Qed.
Lemma fast_keeps st : preserves holds (buildFastContextSnapshot svc st).
Proof. unfold buildFastContextSnapshot. keeps_tac. Qed.
Lemma assistant_message_keeps id c a i st p ctx : preserves holds (assistant_message id c a i st p ctx).
Proof. unfold assistant_message. keeps_tac. Qed.
Lemma upsert_keeps id m : preserves holds (upsert id m).
Proof. apply with_chat_keeps. Qed.
Lemma append_keeps id m : preserves holds (append id m).
Proof. apply with_chat_keeps. Qed.
Lemma save_state_keeps st : preserves holds (save_state st).
Proof. unfold save_state. keeps_tac. Qed.
#[local] Hint Resolve loadSessionState_keeps context_keeps fast_keeps assistant_message_keeps upsert_keeps append_keeps save_state_keeps : keeps.
Lemma observation_keeps id mid text i : preserves holds (writeIntentObservation id mid text i).
Proof. unfold writeIntentObservation. keeps_tac. Qed.
Lemma recordChatEvent_keeps id u a k sk : preserves holds (recordChatEvent svc id u a k sk).
Proof. unfold recordChatEvent. keeps_tac. Qed.
Lemma recordMemoryUse_keeps c k o : preserves holds (recordMemoryUse svc c k o).
Proof. unfold recordMemoryUse. keeps_tac. Qed.
#[local] Hint Resolve observation_keeps recordChatEvent_keeps recordMemoryUse_keeps : keeps.

Lemma stream_keeps model req interval flush :
  (∀ c, preserves holds (flush c)) → preserves holds (stream svc model req interval flush).
Proof.
  intros Hf. unfold stream. do 2 (apply preserves_bind; [keeps_tac|intros]). apply preserves_bind; [|intros; keeps_tac].
  generalize "" as builder. revert a. generalize a0.1 as deltas.
  induction deltas as [|d deltas IH]; intros t builder; cbn [stream_deltas]; keeps_tac; auto.
Qed.
Lemma responded_keeps m c : preserves holds (responded (T := T) m c).
Proof. unfold responded. keeps_tac. Qed.
#[local] Hint Resolve stream_keeps responded_keeps : keeps.
Lemma streamReply_keeps model m req fallback locale :
  preserves holds (streamConversationReply svc model m req fallback locale).
Proof. unfold streamConversationReply. keeps_tac. Qed.
#[local] Hint Resolve streamReply_keeps : keeps.
Lemma composeDirectReply_keeps u c cc m l : preserves holds (composeDirectReply svc u c cc m l).
Proof. unfold composeDirectReply. keeps_tac. Qed.
#[local] Hint Resolve composeDirectReply_keeps : keeps.

Lemma agent_run_keeps gateway skills jerr sp u l b : 
  (∀ req b, J b → J (gateway req b).2) →
  (∀ name h args b, AgentLoop.index skills !! name = Some h → J b → J (h args b).2) →
  J b → J (AgentLoop.sys (AgentLoop.Run jerr (Some gateway) (Some skills) sp u l b).2).
Proof.
  intros Hg Hs. unfold AgentLoop.Run. set (loc := if decide _ then _ else _). clearbody loc.
  set (st := AgentLoop.mkLoop b _ _ _). change b with (AgentLoop.sys st) at 1. clearbody st.
  generalize AgentLoop.maxAgentTurns as n. intros n. revert st. induction n as [|n IH]; intros st Hst; cbn [AgentLoop.turns]; [done|].
  match goal with |- context [gateway ?q (AgentLoop.sys st)] => specialize (Hg q (AgentLoop.sys st) Hst); destruct (gateway q _) as [resp b'] end.
  cbn [snd] in Hg. destruct resp as [e|resp]; [done|].
  destruct (AgentLoop.resp_ToolCalls resp) as [|tc calls]; [done|]. apply IH.
  assert (∀ calls st, J (AgentLoop.sys st) → J (AgentLoop.sys (foldl (AgentLoop.run_tool jerr (Some skills) loc) st calls))) as Hfold.
  { clear -Hs. induction calls as [|tc calls IH]; intros st Hst; [done|]. cbn [foldl]. apply IH.
    unfold AgentLoop.run_tool, AgentLoop.Execute. cbn [AgentLoop.emit AgentLoop.sys].
    destruct (AgentLoop.index skills !! AgentLoop.fn_Name tc) as [h|] eqn:E; [|done].
    destruct (if decide _ then _ else _) as [args|]; [|done].
    specialize (Hs _ h (default [] args) (AgentLoop.sys st) E Hst). destruct (h _ _) as [[] b']; exact Hs. }
  apply Hfold. exact Hg.
Qed.
Lemma composeAgent_keeps gateway skills id t fc cc m l : tools_keep → agentLoop svc = Some (gateway, skills) →
  preserves holds (composeAgentDirectReply svc gateway skills id t fc cc m l).
Proof.
  unfold tools_keep. intros H E. rewrite E in H. destruct H as [Hg Hs]. unfold composeAgentDirectReply.
  apply preserves_bind; [keeps_tac|]. intros st. cbv zeta. apply preserves_bind; [keeps_tac|]. intros tr.
  apply preserves_get_bind. intros s0.
  pose proof (agent_run_keeps gateway skills (json_error svc) (agentSystemPrompt (systemInfo svc) l)
    (agentDirectReplyUserContent l t (formatFocusPathsForAgent (FocusPaths (WorkingSet st)) l) tr) l (backend s0) Hg Hs) as Hrun.
  destruct (AgentLoop.Run _ _ _ _ _ _ _) as [reply ls]. cbn [snd] in Hrun.
  apply (hoare_bind _ _ _ (λ _, holds)).
  - intros s w [-> Ht]. unfold holds in *. cbn. by apply Hrun.
  - intros _. apply preserves_bind.
    + apply preserves_foldM. intros [m' trace] e _. unfold agent_event. keeps_tac.
    + intros [m' trace]. keeps_tac.
Qed.
#[local] Hint Resolve composeAgent_keeps : keeps.

Lemma followup_turn_keeps tn task i act c : preserves holds (followup_turn svc tn task i act c).
Proof. unfold followup_turn, composeFollowupArtifactReply. keeps_tac. Qed.
Lemma direct_turn_keeps tn : tools_keep → preserves holds (direct_turn svc tn).
Proof. intros H. unfold direct_turn. keeps_tac. Qed.
Lemma confirm_turn_keeps tn : preserves holds (confirm_turn (T := T) tn).
Proof. unfold confirm_turn. keeps_tac. Qed.
Lemma followup_test_keeps d st : preserves holds (tryHandleSessionFollowup (T := T) d st).
Proof. unfold tryHandleSessionFollowup. keeps_tac. Qed.
Lemma continuation_test_keeps d st : preserves holds (tryHandleFocusedTaskContinuation (T := T) d st).
Proof. unfold tryHandleFocusedTaskContinuation. keeps_tac. Qed.
#[local] Hint Resolve followup_turn_keeps direct_turn_keeps confirm_turn_keeps followup_test_keeps continuation_test_keeps : keeps.

(** What [receive] hands on: the request, its text, the state it loaded and the
    route of the text. *)
Lemma receive_spec req s w : holds s →
  let '(res, s', _) := receive svc req s w in
  holds s' ∧ ∀ tn, res = Ok tn →
    tn_req tn = req ∧ (tn_text tn = TrimSpace (rq_Message req) ∧ tn_text tn ≠ "") ∧
    (∃ s1 w1, loadSessionState (normalizeSessionID (rq_SessionID req)) s w = (Ok (tn_state tn), s1, w1)) ∧
    (∃ n context, tn_route tn = Decide ((λ m, RouteAnswer m n) <$> textModel svc) (TrimSpace (rq_Message req)) context (tn_state tn)).
Proof.
  intros Hr.
  assert (preserves holds (receive svc req)) as Hk.
  { unfold receive, recentConversationContext. cbv zeta. keeps_tac. }
  specialize (Hk s w Hr). destruct (receive svc req s w) as [[res s'] w'] eqn:E. split; [exact Hk|].
  intros tn ->. revert E. unfold receive. cbv zeta. case_decide as Hne; [done|]. rewrite bind_eq.
  destruct (loadSessionState _ s w) as [[[st|e] s1] w1] eqn:El; [|done]. rewrite bind_eq.
  destruct (recentConversationContext _ 6 s1 w1) as [[[ctx|e] s2] w2]; [|done]. rewrite bind_eq. cbn [now].
  rewrite bind_eq. unfold ask at 1. rewrite bind_eq.
  destruct (append _ _ _ _) as [[[u|e] s3] w3]; [|done]. rewrite bind_eq.
  destruct (ignore _ _ _) as [[[u'|e] s4] w4]; [|done]. rewrite bind_eq.
  destruct (buildFastContextSnapshot _ _ _ _) as [[[fast|e] s5] w5]; [|done]. intros [= <- _ _].
  cbn [tn_req tn_text tn_state tn_route]. split_and!; [done|done|done|by eexists _, _|by eexists _, _].
Qed.

Lemma shouldConfirm_false route text source profile :
  IntentKind route = IntentKindTask → text ≠ "" → text = TrimSpace text →
  shouldConfirmTaskIntent route text source (rd_DialogueAct route) profile = false →
  isFollowupDialogueAct (rd_DialogueAct route) = true ∨
  EqualFold (TrimSpace source) "intent-confirmation" = true ∨ EqualFold (TrimSpace profile) "root" = true.
Proof.
  intros Hi Ht Htt. unfold shouldConfirmTaskIntent, isFollowupDialogueAct. rewrite bool_decide_true by done. cbn [negb].
  destruct (one_of (rd_DialogueAct route) [DialogueActContinueTask; _; _]) eqn:E.
  { intros _. left. unfold one_of in *. apply bool_decide_eq_true in E. apply bool_decide_eq_true. set_solver. }
  destruct (EqualFold (TrimSpace source) _); [auto|]. destruct (EqualFold (TrimSpace profile) _); [auto|].
  intros Hb%negb_false_iff. unfold blank in Hb. apply bool_decide_eq_true in Hb. congruence.
Qed.

(** A turn without consent keeps what its memory operations keep. *)
Lemma unconsented_keeps depth req s w :
  tools_keep → ¬ consented req s → holds s → holds (exec (Send svc depth req) s w).
Proof.
  intros Htools. revert req s w. induction depth as [|depth IH]; intros req s w Hno Hs; [done|].
  cbn [Send]. unfold send_body, exec. rewrite bind_eq.
  pose proof (receive_spec req s w Hs) as Hrec.
  destruct (receive svc req s w) as [[[tn|e] s1] w1]; [|exact (proj1 Hrec)].
  destruct Hrec as [H1 Htn]. destruct (Htn tn eq_refl) as (Ereq & [Etext Hne] & (s0 & w0 & Eload) & (n & context & Eroute)). clear Htn.
  assert (isFollowupDialogueAct (rd_DialogueAct (tn_route tn)) = false) as Hact.
  { apply not_true_iff_false. intros Ha. apply Hno. do 3 right. exists n, context, (tn_state tn). by rewrite <- Eroute. }
  match goal with |- context [mbind ?k ?m s1 w1] => apply (preserves_exec holds (mbind k m) s1 w1); [|exact H1] end.
  apply preserves_bind; [keeps_tac|]. intros [task|]; [keeps_tac|].
  apply preserves_bind; [keeps_tac|]. intros [task|]; [keeps_tac|].
  apply preserves_bind.
  - (* the reply to a confirmation question *)
    unfold tryHandleIntentConfirmation. cbv zeta. destruct (negb _) eqn:Ep; [keeps_tac|].
    apply negb_false_iff, bool_decide_eq_true in Ep.
    apply preserves_bind; [keeps_tac|]. intros m. rewrite Etext, Ereq.
    destruct (isAffirmativeConfirmation _) eqn:Ea.
    { exfalso. apply Hno. right. right. left. split; [exact Ea|]. by exists w, (tn_state tn), s0, w0. }
    destruct (isNegativeConfirmation _) eqn:En; [keeps_tac|].
    apply preserves_bind; [keeps_tac|]. intros _.
    assert (preserves holds (Send svc depth (with_message req (TrimSpace (rq_Message req)) (rq_Source req)))) as Hrec.
    { intros s2 w2 H2.
      assert (¬ consented (with_message req (TrimSpace (rq_Message req)) (rq_Source req)) s2) as Hno2.
      { unfold consented, with_message. cbn [rq_Message rq_Source rq_ExecutionProfile rq_SessionID]. rewrite TrimSpace_idemp.
        intros [Hc|[Hc|[[Hc _]|Hc]]]; [by apply Hno; left|by apply Hno; right; left|congruence|by apply Hno; do 3 right]. }
      pose proof (IH _ s2 w2 Hno2 H2) as Hr2. unfold exec in Hr2. by destruct (Send svc depth _ s2 w2) as [[? s3] w3]. }
    keeps_tac.
  - (* a direct reply, a question, or a task *)
    intros [resp|]; [keeps_tac|]. destruct (negb _) eqn:Ek; [by apply direct_turn_keeps|].
    apply negb_false_iff, bool_decide_eq_true in Ek.
    destruct (shouldConfirmTaskIntent _ _ _ _ _) eqn:Ec; [keeps_tac|]. exfalso.
    apply shouldConfirm_false in Ec as [Ec|[Ec|Ec]]; [congruence|by apply Hno; right; left|by apply Hno; left|done|done|].
    by rewrite Etext, TrimSpace_idemp.
Qed.

(** *** Turns that run tasks

    A turn and a background completion keep what submitting and running a task
    keep, given that the callback of the progress does. *)
Hypothesis J_submit : ∀ req, preserves holds (with_runtime (Runtime.SubmitTask req)).
Hypothesis J_run : ∀ id cb, (∀ e, preserves holds (cb e)) → preserves holds (RunTaskWithProgress svc id cb).
Lemma run_task_keeps id m task l : preserves holds (run_task svc id m task l).
Proof.
  unfold run_task. apply preserves_bind; [|intros; keeps_tac]. unfold catch. apply preserves_bind; [|intros; keeps_tac].
  apply preserves_try, J_run. intros e. cbv zeta. keeps_tac.
Qed.
Lemma taskContext_keeps q st sk : preserves holds (buildTaskContextSnapshot svc q st sk).
Proof. unfold buildTaskContextSnapshot, recentTasks. keeps_tac. Qed.
#[local] Hint Resolve run_task_keeps taskContext_keeps J_submit : keeps.
Lemma composeAssistant_keeps task rr ctx i id mid t l : preserves holds (composeAssistantMessage svc task rr ctx i id mid t l).
Proof. unfold composeAssistantMessage. keeps_tac. Qed.
Lemma finalize_keeps id task rr c u ctx : preserves holds (finalizeSessionState svc id task rr c u ctx).
Proof. unfold finalizeSessionState. keeps_tac. Qed.
#[local] Hint Resolve composeAssistant_keeps finalize_keeps : keeps.
Lemma task_turn_keeps tn : preserves holds (task_turn svc tn).
Proof. unfold task_turn. cbv zeta. keeps_tac. Qed.
#[local] Hint Resolve task_turn_keeps : keeps.
Lemma Send_keeps depth req : tools_keep → preserves holds (Send svc depth req).
Proof.
  intros Htools. revert req. induction depth as [|depth IH]; intros req; [apply preserves_throw|].
  cbn [Send]. unfold send_body. apply preserves_bind.
  { intros s w Hs. pose proof (receive_spec req s w Hs) as H. destruct (receive svc req s w) as [[? ?] ?]. exact (proj1 H). }
  intros tn. assert (preserves holds (direct_turn svc tn)) as Hd by by apply direct_turn_keeps.
  assert (∀ res, preserves holds (tryHandleIntentConfirmation svc (Send svc depth) tn) → preserves holds res →
    preserves holds (confirmed ← tryHandleIntentConfirmation svc (Send svc depth) tn;
      match confirmed with Some resp => mret resp | None => res end)) as Hc.
  { intros res H1 H2. apply preserves_bind; [done|]. intros [?|]; [keeps_tac|done]. }
  apply preserves_bind; [keeps_tac|]. intros [task|]; [keeps_tac|].
  apply preserves_bind; [keeps_tac|]. intros [task|]; [keeps_tac|]. apply Hc; [|keeps_tac; exact Hd].
  unfold tryHandleIntentConfirmation. cbv zeta. keeps_tac.
Qed.
Lemma completeTaskReply_keeps job : preserves holds (completeTaskReply svc job).
Proof. unfold completeTaskReply. cbv zeta. keeps_tac. Qed.
End frames.

(** Nothing runs that the user did not ask for.  Whatever the model answers
    and whatever fails, a message without consent (see [consented]) leaves the
    tasks of the runtime exactly as they are: it is answered, or turned into a
    confirmation question; provided the agent's own tools leave the tasks
    alone. *)
Theorem no_task_without_consent depth req s w :
  tools_keep_tasks → ¬ consented req s →
  runtime (backend (Send svc depth req s w).1.2) = runtime (backend s).
Proof.
  intros Htools Hno. enough (holds (λ b, runtime b = runtime (backend s)) (exec (Send svc depth req) s w)) as H.
  { unfold exec, holds in H. by destruct (Send svc depth req s w) as [[? ?] ?]. }
  apply unconsented_keeps; [|..|done|done].
  { intros A m _ s1 w1 H1. unfold with_memory. by destruct (m (memory (backend s1)) w1) as [[? ?] ?]. }
  unfold tools_keep. unfold tools_keep_tasks in Htools. destruct (agentLoop svc) as [[gateway skills]|]; [|done]. destruct Htools as [H1 H2]. split.
  - intros r b Hb. by rewrite H1.
  - intros name h args b Hh Hb. by rewrite (H2 name h args b Hh).
Qed.
End gate.

(** ** A turn ends

    [Send] calls itself on the reply to a confirmation question, after clearing
    the question in the stored state; it ends because that state is read back
    cleared. *)
Section termination.
Context {tables : UnicodeTables} {digits : Recall.FloatFormat} {T : Type}.
Variable svc : Service (T := T).

(** [m] leaves the environment and the session states as they are. *)
Definition states_are (ss : Dir SessionState) (s : System T) : Prop := states (chat s) = ss.
Definition steady {A} (ss : Dir SessionState) (m : M (System T) A) : Prop := timeless m ∧ preserves (states_are ss) m.

Lemma steady_run {A} ss (m : M (System T) A) s w : steady ss m → fine w → states (chat s) = ss →
  fine (m s w).2 ∧ states (chat (m s w).1.2) = ss.
Proof.
  intros [Ht Hp] [Hr Hc] Hs. specialize (Ht s w). specialize (Hp s w Hs). destruct (m s w) as [[r s'] w'].
  destruct Ht as [H1 H2]. cbn in *. split; [|exact Hp]. split; [intros n; by rewrite H2|intros n; by rewrite H1].
Qed.
Lemma steady_bind {A B} ss (m : M (System T) A) (k : A → M (System T) B) :
  steady ss m → (∀ a, steady ss (k a)) → steady ss (m ≫= k).
Proof.
  intros [? ?] Hk. split; [apply timeless_bind; [done|apply Hk]|apply preserves_bind; [done|apply Hk]].
Qed.
Lemma steady_try {A} ss (m : M (System T) A) : steady ss m → steady ss (try m).
Proof. intros [? ?]. split; [by apply timeless_try|by apply preserves_try]. Qed.
Lemma steady_ret {A} ss (a : A) : steady ss (mret a). Proof. by split; intros s w. Qed.
Lemma steady_throw {A} ss e : steady ss (throw e : M (System T) A). Proof. by split; intros s w. Qed.
Lemma steady_now ss : steady ss now. Proof. by split; intros s w. Qed.
Lemma steady_io ss : steady ss io. Proof. by split; intros s w. Qed.
Lemma steady_get ss : steady ss get. Proof. by split; intros s w. Qed.
Lemma steady_lift {A} ss (x : result A) : steady ss (lift_result x). Proof. by split; intros s w. Qed.
Lemma steady_ask {A} ss (f : nat → A) : steady ss (ask f). Proof. by split; intros s w. Qed.
Lemma steady_chat {A} ss (m : M ChatStore.Store A) :
  timeless m → preserves (λ c, states c = ss) m → steady ss (with_chat m).
Proof.
  intros Ht Hp. split; intros s w; unfold with_chat; [specialize (Ht (chat s) w)|intros Hs; specialize (Hp (chat s) w Hs)];
    by destruct (m (chat s) w) as [[? ?] ?].
Qed.
Lemma steady_runtime {A} ss (m : M Runtime.Store A) : timeless m → steady ss (with_runtime m).
Proof.
  intros Ht. split; intros s w; unfold with_runtime; specialize (Ht (runtime (backend s)) w);
    by destruct (m (runtime (backend s)) w) as [[? ?] ?].
Qed.
Create HintDb steady discriminated.
#[local] Hint Resolve steady_ret steady_throw steady_now steady_io steady_get steady_lift steady_ask : steady.
#[local] Ltac steady_step :=
  match goal with
  | |- steady _ (if ?b then _ else _) => destruct b
  | |- steady _ (match ?x with _ => _ end) => destruct x
  | |- steady _ (mbind _ _) => apply steady_bind; [|intros]
  | |- steady _ (try _) => apply steady_try
  | |- steady _ (ignore _) => unfold ignore
  | |- steady _ (let _ := _ in _) => cbv zeta
  | |- steady _ _ => solve [eauto with steady]
  end.
#[local] Ltac steady_tac := repeat steady_step.

Lemma steady_append ss id m : steady ss (append id m).
Proof.
  apply steady_chat; unfold ChatStore.Append, loadLocked, fill_session, saveLocked, writeDoc; [by timeless_tac|].
  preserves_tac; by apply preserves_modify.
Qed.
Lemma steady_load ss id : steady ss (loadSessionState id).
Proof.
  unfold loadSessionState. steady_tac. apply steady_chat; unfold GetSessionState, loadStateLocked; [by timeless_tac|by preserves_tac].
Qed.
Lemma steady_context ss id limit : steady ss (recentConversationContext id limit).
Proof.
  unfold recentConversationContext, recentConversationContextWithPreview. steady_tac.
  apply steady_chat; unfold ListMessages, loadLocked; [by timeless_tac|by preserves_tac].
Qed.
Lemma steady_GetTask ss id : steady ss (with_runtime (Runtime.GetTask id)).
Proof. apply steady_runtime. unfold Runtime.GetTask, Runtime.findTaskLocked. by timeless_tac. Qed.
Lemma steady_fast ss st : steady ss (buildFastContextSnapshot svc st).
Proof. unfold buildFastContextSnapshot. steady_tac. Qed.
Lemma steady_observation ss id mid text i : steady ss (writeIntentObservation id mid text i).
Proof.
  unfold writeIntentObservation. steady_tac. split; [unfold WriteFile; by timeless_tac|by apply preserves_WriteFile].
Qed.
Lemma steady_message ss id c a i st p ctx : steady ss (assistant_message id c a i st p ctx).
Proof. unfold assistant_message. steady_tac. Qed.
#[local] Hint Resolve steady_append steady_load steady_context steady_GetTask steady_fast steady_observation steady_message : steady.
Lemma steady_receive ss req : steady ss (receive svc req).
Proof. unfold receive. steady_tac. Qed.
Lemma steady_followup ss d st : steady ss (tryHandleSessionFollowup d st).
Proof. unfold tryHandleSessionFollowup. steady_tac. Qed.
Lemma steady_continuation ss d st : steady ss (tryHandleFocusedTaskContinuation d st).
Proof. unfold tryHandleFocusedTaskContinuation. steady_tac. Qed.

(** The state [loadSessionState] reads. *)
Definition loaded (id : string) (c : ChatStore.Store) : SessionState :=
  match states c !! sessionStatePath id with
  | Some (Doc (Some st)) =>
      if decide (st_SessionID st = "") then
        mkSessionState id (Topic st) (FocusTaskID st) (PendingQuestion st) (PendingAction st)
          (LastUserAct st) (LastAssistantAct st) (WorkingSet st) (st_UpdatedAt st)
      else st
  | _ => empty_state id
  end.
Lemma load_run id (s : System T) w : loadSessionState id s w = (Ok (loaded id (chat s)), s, w).
Proof.
  unfold loadSessionState, with_chat, GetSessionState, loadStateLocked, loaded. rewrite bind_eq. unfold try. rewrite bind_eq.
  cbn [get]. destruct s as [c b o j]. cbn [chat].
  destruct (states c !! sessionStatePath id) as [[[st|]|]|]; reflexivity.
Qed.
Lemma receive_state req s w tn s' w' : receive svc req s w = (Ok tn, s', w') →
  tn_req tn = req ∧ tn_session tn = normalizeSessionID (rq_SessionID req) ∧
  tn_state tn = loaded (normalizeSessionID (rq_SessionID req)) (chat s).
Proof.
  unfold receive. cbv zeta. case_decide as Hne; [done|]. rewrite bind_eq, load_run. rewrite bind_eq.
  destruct (recentConversationContext _ 6 _ _) as [[[ctx|e] s2] w2]; [|done]. rewrite bind_eq. cbn [now].
  rewrite bind_eq. unfold ask at 1. rewrite bind_eq.
  destruct (append _ _ _ _) as [[[u|e] s3] w3]; [|done]. rewrite bind_eq.
  destruct (ignore _ _ _) as [[[u'|e] s4] w4]; [|done]. rewrite bind_eq.
  destruct (buildFastContextSnapshot _ _ _ _) as [[[fast|e] s5] w5]; [|done]. by intros [= <- _ _].
Qed.

(** When no question is open, a turn does not call [Send]. *)
Lemma send_body_settled recur recur' req s w :
  PendingAction (loaded (normalizeSessionID (rq_SessionID req)) (chat s)) ≠ "confirm_task_intent" →
  send_body svc recur req s w = send_body svc recur' req s w.
Proof.
  intros Hp. unfold send_body. rewrite !bind_eq. destruct (receive svc req s w) as [[[tn|e] s1] w1] eqn:E; [|done].
  apply receive_state in E as (_ & _ & Est). rewrite !bind_eq.
  destruct (tryHandleSessionFollowup _ _ _ _) as [[[[task|]|e] s2] w2]; [done| |done]. rewrite !bind_eq.
  destruct (tryHandleFocusedTaskContinuation _ _ _ _) as [[[[task|]|e] s3] w3]; [done| |done]. rewrite !bind_eq.
  unfold tryHandleIntentConfirmation. cbv zeta. rewrite Est. by rewrite bool_decide_false.
Qed.

Lemma normalizeSessionID_trimmed id : TrimSpace (normalizeSessionID id) = normalizeSessionID id ∧ normalizeSessionID id ≠ "".
Proof.
  unfold normalizeSessionID. case_decide as H; [by split|]. split; [apply TrimSpace_idemp|done].
Qed.
Lemma SaveSessionState_run st c w : fine w → TrimSpace (st_SessionID st) ≠ "" →
  SaveSessionState st c w =
  (Ok tt,
   over states_dir <[sessionStatePath (TrimSpace (st_SessionID st)) := Doc (Some (state_norm
     (mkSessionState (TrimSpace (st_SessionID st)) (Topic st) (FocusTaskID st) (PendingQuestion st) (PendingAction st)
        (LastUserAct st) (LastAssistantAct st) (WorkingSet st) (clock w (tick w)))))]> c,
   advance (advance w)).
Proof.
  intros [Hr Hc] Hne. unfold SaveSessionState. cbv zeta. rewrite decide_False by done. rewrite bind_eq. cbn [now].
  unfold saveStateLocked, state_json_ok. cbn [st_UpdatedAt]. rewrite Hc. unfold writeDoc. rewrite bind_eq.
  unfold io. rewrite (Hr _ : faults (advance w) _ = NoFault). done.
Qed.
(** Saving a settled state closes the question. *)
Lemma save_settled id st (s : System T) w : fine w → TrimSpace (st_SessionID st) = id → id ≠ "" → PendingAction st = "" →
  ∃ (s' : System T) w', save_state st s w = (Ok tt, s', w') ∧ fine w' ∧ PendingAction (loaded id (chat s')) = "".
Proof.
  intros Hw Hid Hne Hp. unfold save_state, ignore, with_chat. rewrite bind_eq. unfold try.
  rewrite SaveSessionState_run by (try rewrite Hid; done). rewrite Hid.
  eexists _, _. split; [reflexivity|]. split; [by do 2 apply fine_advance|]. unfold loaded. cbn [chat over states_dir states].
  rewrite lookup_insert_eq. unfold state_norm. cbn [st_SessionID PendingAction].
  case_decide; cbn [PendingAction]; by rewrite Hp.
Qed.

(** The stored state of a session names that session. *)
Definition own_state (id : string) (s : System T) : Prop :=
  ∀ st, states (chat s) !! sessionStatePath id = Some (Doc (Some st)) → st_SessionID st = "" ∨ TrimSpace (st_SessionID st) = id.
Lemma loaded_id id (s : System T) : own_state id s → TrimSpace id = id → TrimSpace (st_SessionID (loaded id (chat s))) = id.
Proof.
  intros Ho Hid. unfold loaded. destruct (states (chat s) !! sessionStatePath id) as [[[st|]|]|] eqn:E; [|done..].
  case_decide as Hst; [done|]. destruct (Ho st E); [done|]. done.
Qed.

(** The inner call of a turn is settled. *)
Lemma Send_settles recur recur' req s w :
  fine w → own_state (normalizeSessionID (rq_SessionID req)) s →
  send_body svc (send_body svc recur) req s w = send_body svc (send_body svc recur') req s w.
Proof.
  intros Hw Ho. destruct (normalizeSessionID_trimmed (rq_SessionID req)) as [Htrim Hne].
  set (id := normalizeSessionID (rq_SessionID req)) in *.
  set (ra := send_body svc recur). set (rb := send_body svc recur'). unfold send_body. rewrite !bind_eq.
  destruct (steady_run (states (chat s)) (receive svc req) s w (steady_receive _ _) Hw eq_refl) as [Hw1 Hs1].
  destruct (receive svc req s w) as [[[tn|e] s1] w1] eqn:E; [|done]. cbn [fst snd] in Hw1, Hs1.
  apply receive_state in E as (Ereq & Esession & Est). fold id in Esession, Est. rewrite !bind_eq.
  destruct (steady_run (states (chat s)) _ s1 w1 (steady_followup _ (tn_dialogue tn) (tn_state tn)) Hw1 Hs1) as [Hw2 Hs2].
  destruct (tryHandleSessionFollowup _ _ _ _) as [[[[task|]|e] s2] w2]; [done| |done]. cbn [fst snd] in Hw2, Hs2. rewrite !bind_eq.
  destruct (steady_run (states (chat s)) _ s2 w2 (steady_continuation _ (tn_route tn) (tn_state tn)) Hw2 Hs2) as [Hw3 Hs3].
  destruct (tryHandleFocusedTaskContinuation _ _ _ _) as [[[[task|]|e] s3] w3]; [done| |done]. cbn [fst snd] in Hw3, Hs3.
  rewrite !bind_eq.
  enough (tryHandleIntentConfirmation svc ra tn s3 w3 = tryHandleIntentConfirmation svc rb tn s3 w3) as ->
    by done.
  assert (TrimSpace (st_SessionID (tn_state tn)) = id) as Hid by (rewrite Est; by apply loaded_id).
  assert (∀ st req' s4 w4, fine w4 → TrimSpace (st_SessionID st) = id → PendingAction st = "" → rq_SessionID req' = rq_SessionID req →
    ∃ s5 w5, save_state st s4 w4 = (Ok tt, s5, w5) ∧ ra req' s5 w5 = rb req' s5 w5) as Hinner.
  { intros st req' s4 w4 Hw4 Hst Hp Hr. destruct (save_settled id st s4 w4 Hw4 Hst Hne Hp) as (s5 & w5 & E5 & _ & Hp5).
    exists s5, w5. split; [exact E5|]. apply send_body_settled. rewrite Hr. fold id. by rewrite Hp5. }
  unfold tryHandleIntentConfirmation. cbv zeta. destruct (negb _); [done|]. rewrite !bind_eq.
  match goal with |- context [assistant_message ?a ?b ?c ?d ?e ?f ?g s3 w3] =>
    destruct (steady_run (states (chat s)) _ s3 w3 (steady_message _ a b c d e f g) Hw3 Hs3) as [Hw4 Hs4];
    destruct (assistant_message a b c d e f g s3 w3) as [[[m|err] s4] w4]; [|done] end. cbn [fst snd] in Hw4, Hs4.
  destruct (isAffirmativeConfirmation _); [|destruct (isNegativeConfirmation _); [done|]].
  - destruct (Hinner (settled (tn_state tn)) (with_message (tn_req tn) (if blank (parseConfirmationFromState (tn_state tn) "confirm_goal")
      then tn_text tn else parseConfirmationFromState (tn_state tn) "confirm_goal") "intent-confirmation") s4 w4 Hw4 Hid eq_refl)
      as (s5 & w5 & E5 & Eq5); [by rewrite Ereq|]. rewrite !bind_eq, E5. rewrite !bind_eq. unfold catch. rewrite !bind_eq. unfold try.
    by rewrite Eq5.
  - destruct (Hinner (with_acts (settled (tn_state tn)) (LastUserAct (tn_state tn)) "") (with_message (tn_req tn) (tn_text tn) (rq_Source (tn_req tn)))
      s4 w4 Hw4 Hid eq_refl) as (s5 & w5 & E5 & Eq5); [by rewrite Ereq|]. rewrite !bind_eq, E5. rewrite !bind_eq. unfold catch.
    rewrite !bind_eq. unfold try. by rewrite Eq5.
Qed.

Lemma Send_S2 depth : Send svc (2 + depth) = send_body svc (send_body svc (Send svc depth)).
Proof. reflexivity. Qed.

(** C21. A turn ends: on a disk without faults, for a session whose stored state
    names it, [Send] calls itself at most once.  Whatever the calls nested
    deeper would do, they are not reached: any two such calls give the same
    turn, and any stack that holds two of them is enough. *)
Theorem Send_terminates recur depth req s w :
  fine w → own_state (normalizeSessionID (rq_SessionID req)) s →
  send_body svc (send_body svc recur) req s w = Send svc 2 req s w ∧
  Send svc (2 + depth) req s w = Send svc 2 req s w.
Proof.
  intros Hw Ho. rewrite (Send_S2 depth). change (Send svc 2) with (Send svc (2 + 0)). rewrite (Send_S2 0). split; by apply Send_settles.
Qed.
End termination.

(** ** Statements are not follow-ups *)

Section statements.
Context {tables : UnicodeTables}.

(** A message of more than 32 runes with none of the markers of a follow-up. *)
Definition plain_statement (message : string) : bool :=
  let text := ToLower (TrimSpace message) in
  negb (looksLikeListChoiceReply message) && negb (looksLikeAffirmativeFollowup text) && (32 <? RuneCount text) &&
  negb (containsAnyMarker text ["继续"; "继续吧"; "接着"; "继续做"; "go on"; "continue"]).

Lemma plain_statement_act message ctx st : plain_statement message = true →
  isFollowupDialogueAct (rd_DialogueAct (heuristicRouteDecision message ctx st)) = false.
Proof.
  unfold plain_statement. cbv zeta. rewrite !andb_true_iff, !negb_true_iff, Z.ltb_lt. intros [[[Hc Ha] Hl] Hm].
  unfold heuristicRouteDecision. cbn [rd_DialogueAct].
  enough (∀ d, heuristicDialogueDecision message ctx st = Some d → isFollowupDialogueAct (Act d) = false) as Hact.
  { destruct (heuristicDialogueDecision _ _ _) as [d|]; [|reflexivity]. cbn [default]. case_decide; [reflexivity|by apply Hact]. }
  intros d. unfold heuristicDialogueDecision. cbv zeta. rewrite Hc, Ha, Hm. cbn [andb].
  case_decide; [by intros [= <-]|]. destruct (_ && _); [by intros [= <-]|].
  destruct (looksLikeSocialReply _); [by intros [= <-]|]. rewrite (proj2 (Z.leb_gt _ _) Hl), andb_false_r.
  destruct (_ && _); [by intros [= <-]|]. destruct (containsOperationalMarker _); [by intros [= <-]|done].
Qed.
(** A model may call it a new task; it is no follow-up either. *)
Lemma plain_statement_route model message ctx st :
  plain_statement (TrimSpace message) = true →
  (∀ m prompt d, model = Some m → m prompt = Ok d → isFollowupDialogueAct (rd_DialogueAct d) = false) →
  isFollowupDialogueAct (rd_DialogueAct (Decide model message ctx st)) = false.
Proof.
  intros Hp%(plain_statement_act _ ctx st) Hm. unfold Decide. cbv zeta. case_decide; [reflexivity|].
  destruct model as [m|]; [|exact Hp]. unfold modelRouteDecision. specialize (Hm m). run.
  destruct (m _) as [d|e] eqn:E; [|exact Hp]. specialize (Hm _ _ eq_refl E).
  assert (∀ a b, isFollowupDialogueAct (rd_DialogueAct a) = false → isFollowupDialogueAct (rd_DialogueAct b) = false →
    ∀ c : bool, isFollowupDialogueAct (rd_DialogueAct (if c then a else b)) = false) as Hif by (by intros ?? ?? []).
  repeat (apply Hif; [exact Hp|]). apply Hif; repeat (first [exact Hm | destruct (_ && _) | reflexivity | cbn; exact Hm]).
Qed.
End statements.

(** ** A session *)

#[local] Existing Instances caseless_tables Recall.no_digits.

(** A model that takes everything for a task, an agent whose model is out of
    reach, and a runner that fails. *)
Definition eager_model : TextModel :=
  mkTextModel (λ _, eager) (λ _ _, ([], inl "offline")) (λ _ _, inl "offline").
Definition demo_service : Service (T := unit) :=
  mkService (Some eager_model) (Some (λ _ b, (inl "offline", b), AgentLoop.mkRegistry [] ∅)) true true
    (mkSystemInfo "/srv/aios" "/srv/work" "dev" ":8080") (λ _, None) (λ _ _, throw ErrNotFound) (λ _, "error") (λ _, "{}")
    (λ _ _, []) (λ _ _ _, []) (λ _, []).
Definition demo_system (ss : Dir SessionState) : System unit :=
  mkSystem (ChatStore.mkStore ∅ ss ∅) (mkBackend Runtime.boot_store MemoryStore.NewStore tt) ∅ [].
Definition cleanup : SendRequest := mkSendRequest "s1" "delete every photograph on that old laptop of mine" "" "" "user" false.

Lemma demo_tools : tools_keep_tasks demo_service.
Proof. split; [done|]. intros name h args b H. cbn in H. by rewrite lookup_empty in H. Qed.
Lemma cleanup_no_consent : ¬ consented demo_service cleanup (demo_system ∅).
Proof.
  intros [H|[H|[[H _]|(n & ctx & st & H)]]].
  1-3: revert H; vm_compute; discriminate.
  rewrite plain_statement_route in H; [discriminate|vm_compute; reflexivity|].
  intros m prompt d [= <-] [= <-]. reflexivity.
Qed.
Lemma no_task_without_consent_witness :
  ¬ consented demo_service cleanup (demo_system ∅) ∧
  runtime (backend (Send demo_service 3 cleanup (demo_system ∅) still).1.2) = Runtime.boot_store.
Proof.
  split; [exact cleanup_no_consent|].
  exact (no_task_without_consent demo_service 3 cleanup (demo_system ∅) still demo_tools cleanup_no_consent).
Defined.

Definition stage_of (r : result SendResponse) : option string :=
  match r with Ok resp => Some (Stage (AssistantMessage resp)) | Err _ => None end.
Definition tasks_in (s : System unit) : nat :=
  match (Runtime.ListTasks (runtime (backend s)) still).1.1 with Ok l => length l | Err _ => 0 end.
(** It is asked about; and the affirmative answer creates the task. *)
Example cleanup_is_asked :
  let '(r, s, w) := Send demo_service 3 cleanup (demo_system ∅) still in
  stage_of r = Some "awaiting_confirmation" ∧
  PendingAction (loaded "s1" (chat s)) = "confirm_task_intent" ∧
  let '(r', s', _) := Send demo_service 3 (with_message cleanup "start" "") s w in
  stage_of r' = Some "summarizing" ∧ (tasks_in s, tasks_in s') = (0, 1)%nat.
Proof. vm_compute. done. Qed.

(** A session whose stored state names another one: the question is never
    closed, and the turn calls itself until the stack is full. *)
Definition asked (id : string) : SessionState :=
  mkSessionState id "" "" "" "confirm_task_intent" "" "" empty_workset 0.
Example foreign_state_overflows :
  match Send demo_service 40 (with_message cleanup "yes" "") (demo_system {["s1.json" := Doc (Some (asked "s2"))]}) still with
  | (Err EPanic, _, _) => True
  | _ => False
  end.
Proof. vm_compute. done. Qed.

Lemma asked_own id : TrimSpace id = id → own_state id (demo_system {[sessionStatePath id := Doc (Some (asked id))]}).
Proof. intros Hid st H. cbn in H. apply lookup_singleton_Some in H as [_ [= <-]]. by right. Qed.
Lemma Send_terminates_witness :
  Send demo_service 40 (with_message cleanup "yes" "") (demo_system {[sessionStatePath "s1" := Doc (Some (asked "s1"))]}) still =
  Send demo_service 2 (with_message cleanup "yes" "") (demo_system {[sessionStatePath "s1" := Doc (Some (asked "s1"))]}) still.
Proof.
  exact (proj2 (Send_terminates demo_service (Send demo_service 0) 38 (with_message cleanup "yes" "")
    (demo_system {[sessionStatePath "s1" := Doc (Some (asked "s1"))]}) still still_fine (asked_own "s1" eq_refl))).
Defined.

(** A profile spelled "Root" runs without anybody's consent: the
    confirmation is left to the approval of the root profile, and the request
    for the task does not ask for that approval, which it does for "root". *)
Theorem root_by_another_name route text source act sid msg by_ async_ text' locale session st context user fast ctx :
  let request profile := create_request
    (mkTurn (mkSendRequest sid msg by_ source profile async_) text' locale session st context route user fast) ctx in
  shouldConfirmTaskIntent route text source act "Root" = false ∧
  Runtime.ct_RequiresApproval (request "Root") = false ∧ Runtime.ct_RequiresApproval (request "root") = true.
Proof.
  cbv zeta. split; [|split; reflexivity]. unfold shouldConfirmTaskIntent.
  assert (EqualFold (TrimSpace "Root") "root" = true) as -> by (vm_compute; reflexivity).
  destruct (negb _); [done|]. destruct (one_of _ _); [done|]. by destruct (EqualFold _ _).
Qed.
