(* ===== verification/SkillText.v ===== *)
(** * Texts of the task runner ([skills/runner.go])

    What the runner writes and reads as text: command lines, artifacts and
    summaries of searches, issues and mail, the identifiers of the cards they
    become, mail threads, plans with their procedure, and the evidence read
    back from a plan.  The theorems: quoting round trips, threads partition
    the inbox, and what is read back of a plan. *)
From S2P Require Import Prelude GoStrings GoNum Sha1 GoText GoJson.
From S2P Require Runtime Procedural.
Open Scope Z_scope.
Import Runtime (Task, TaskID, Title, Goal, SelectedSkill).
Import Procedural (ProcedureEvidence, mkEvidence, Steps, Guardrails, Summary, SuccessSignal).

(** Lines of a text, each with its end. *)
Definition line (s : string) : string := s +:+ newline.
Definition concat (l : list string) : string := Join l "".

(** ** Command lines *)

Definition backslash : Z := 92.
Definition double_quote : Z := 34.
Definition single_quote : Z := 39.
Definition arg_space (r : Z) : bool := bool_decide (r ∈ [32; 9; 10]).

(** The variables of [splitArgs]; [quote] is zero when no quote is open. *)
Record Splitter := mkSplitter { args : list string; current : list Z; quoted : option Z; escaped : bool }.
Definition flush (st : Splitter) : list string :=
  match current st with [] => args st | rs => args st ++ [of_runes rs] end.
Definition put (rs : list Z) (st : Splitter) : Splitter :=
  mkSplitter (args st) (current st ++ rs) (quoted st) (escaped st).
Definition split_step (st : Splitter) (r : Z) : Splitter :=
  if escaped st then
    let rs := if bool_decide (r ∈ [backslash; double_quote; single_quote]) || arg_space r then [r] else [backslash; r] in
    mkSplitter (args st) (current st ++ rs) (quoted st) false
  else if (r =? backslash) && bool_decide (quoted st = Some single_quote) then put [r] st
  else if r =? backslash then mkSplitter (args st) (current st) (quoted st) true
  else match quoted st with
  | Some q => if r =? q then mkSplitter (args st) (current st) None false else put [r] st
  | None =>
      if (r =? single_quote) || (r =? double_quote) then mkSplitter (args st) (current st) (Some r) false
      else if arg_space r then mkSplitter (flush st) [] None false
      else put [r] st
  end.
Definition splitArgs (raw : string) : list string :=
  let raw := TrimSpace raw in
  if decide (raw = "") then [] else flush (foldl split_step (mkSplitter [] [] None false) (runes raw)).

(** ** Small helpers *)

(** Cuts bytes. *)
Definition previewText (input : string) (max : Z) : string :=
  if Z.of_nat (len input) <=? max then input
  else if max <=? 3 then take_bytes (Z.to_nat max) input
  else take_bytes (Z.to_nat (max - 3)) input +:+ "...".
Definition parseInt (raw : string) (fallback : Z) : Z :=
  let raw := TrimSpace raw in
  if decide (raw = "") then fallback else
  match Sscanf_d raw with
  | Some parsed => if parsed <=? 0 then fallback else parsed
  | None => fallback
  end.
(** [x] at the end, unless it is there. *)
Definition add_new (l : list string) (x : string) : list string := if decide (x ∈ l) then l else l ++ [x].
(** The entries of a list at their first places. *)
Definition firsts (l : list string) : list string := foldl add_new [] l.
Definition containsString (values : list string) (target : string) : bool := bool_decide (target ∈ values).

(** ** What the connectors answer *)

Record SearchResult := mkSearchResult { w_Title : string; w_URL : string; w_Snippet : string }.
Record GitHubIssue := mkGitHubIssue {
  g_Number : Z; g_Title : string; g_URL : string; g_State : string; g_Body : string; g_Repo : string }.
Record EmailMessage := mkEmailMessage {
  e_MessageID : string; e_Mailbox : string; e_From : string; e_Subject : string; e_Date : string;
  e_Snippet : string; e_Path : string; e_Unread : bool }.
(** [SearchResponse], [GitHubIssueResponse], [EmailResponse] *)
Record Response (A : Type) := mkResponse { Query : string; Provider : string; Results : list A }.
Arguments mkResponse {A} _ _ _.
Arguments Query {A} _.
Arguments Provider {A} _.
Arguments Results {A} _.
Abbreviation SearchResponse := (Response SearchResult).
Abbreviation GitHubIssueResponse := (Response GitHubIssue).
Abbreviation EmailResponse := (Response EmailMessage).

(** [net/url]: the parts the program touches, and the rest of a URL. *)
Record URL := mkURL { Scheme : string; Host : string; Fragment : string; url_rest : string }.
Class UrlPackage := mkUrlPackage { url_Parse : string → option URL; url_String : URL → string }.

Section texts.
Context {tables : UnicodeTables}.

Definition parseBool (raw : string) : bool :=
  bool_decide (ToLower (TrimSpace raw) ∈ ["1"; "true"; "yes"; "y"; "on"]).

(** ** Artifacts *)

Definition field (label value : string) : string := line (label +:+ ": " +:+ value) +:+ newline.
Definition unread_state (m : EmailMessage) : string := if e_Unread m then "unread" else "read".
Definition indented (s : string) (max : Z) : string :=
  if decide (s = "") then "" else line ("  " +:+ previewText s max).

Definition renderSearchArtifact (task : Task) (resp : SearchResponse) : string :=
  line "# Web Search Result" +:+ newline
  +:+ field "Task" (Title task) +:+ field "Goal" (Goal task) +:+ field "Query" (Query resp) +:+ field "Provider" (Provider resp)
  +:+ match Results resp with
      | [] => line "No results returned."
      | results => line "Results:" +:+ concat
          ((λ r, line ("- " +:+ w_Title r +:+ " (" +:+ w_URL r +:+ ")") +:+ indented (w_Snippet r) 300) <$> results)
      end.
Definition renderGitHubIssueArtifact (task : Task) (resp : GitHubIssueResponse) : string :=
  line "# GitHub Issue Search Result" +:+ newline
  +:+ field "Task" (Title task) +:+ field "Goal" (Goal task) +:+ field "Query" (Query resp) +:+ field "Provider" (Provider resp)
  +:+ match Results resp with
      | [] => line "No issues returned."
      | results => line "Issues:" +:+ concat
          ((λ r, line ("- #" +:+ Itoa (g_Number r) +:+ " " +:+ g_Title r +:+ " (" +:+ g_State r +:+ ")")
                 +:+ line ("  " +:+ g_URL r) +:+ indented (g_Body r) 240) <$> results)
      end.
Definition renderEmailArtifact (task : Task) (resp : EmailResponse) : string :=
  line "# Email Inbox Result" +:+ newline
  +:+ field "Task" (Title task) +:+ field "Goal" (Goal task)
  +:+ (if blank (Query resp) then "" else field "Query" (Query resp)) +:+ field "Provider" (Provider resp)
  +:+ match Results resp with
      | [] => line "No messages returned."
      | results => line "Messages:" +:+ concat
          ((λ m, line ("- " +:+ firstNonEmpty [e_Subject m; "(no subject)"] +:+ " [" +:+ unread_state m +:+ "]")
                 +:+ line ("  From: " +:+ firstNonEmpty [e_From m; "unknown"])
                 +:+ (if decide (e_Date m = "") then "" else line ("  Date: " +:+ e_Date m))
                 +:+ indented (e_Snippet m) 220) <$> results)
      end.

(** ** Summaries, and prompts for a model that writes better ones

    [numbered f limit l]: [f] of the first [limit] entries and their places,
    counted from one. *)
Definition numbered {A} (f : Z → A → string) (limit : nat) (l : list A) : list string :=
  imap (λ i x, f (Z.of_nat i + 1) x) (take limit l).
Definition heuristicSearchSummary (resp : SearchResponse) : string :=
  match Results resp with
  | [] => "No results returned."
  | results => Join (numbered (λ i r, Itoa i +:+ ". " +:+ firstNonEmpty [w_Title r; w_URL r] +:+ " - "
      +:+ previewText (firstNonEmpty [w_Snippet r; w_URL r]) 140) 3 results) newline
  end.
Definition heuristicEmailSummary (resp : EmailResponse) : string :=
  match Results resp with
  | [] => "No messages returned."
  | results => Join (numbered (λ i m, Itoa i +:+ ". " +:+ firstNonEmpty [e_Subject m; "(no subject)"]
      +:+ " [" +:+ unread_state m +:+ "] from " +:+ firstNonEmpty [e_From m; "unknown"] +:+ " - "
      +:+ previewText (firstNonEmpty [e_Snippet m; e_Path m]) 140) 3 results) newline
  end.
Definition heuristicGitHubIssueSummary (resp : GitHubIssueResponse) : string :=
  match Results resp with
  | [] => "No issues returned."
  | results => Join (numbered (λ i r, Itoa i +:+ ". #" +:+ Itoa (g_Number r) +:+ " " +:+ firstNonEmpty [g_Title r; g_URL r]
      +:+ " (" +:+ firstNonEmpty [g_State r; "unknown"] +:+ ") - "
      +:+ previewText (firstNonEmpty [g_Body r; g_URL r]) 140) 3 results) newline
  end.
Definition searchResultsPrompt (results : list SearchResult) : string :=
  concat (numbered (λ i r, line (Itoa i +:+ ". " +:+ w_Title r) +:+ line ("URL: " +:+ w_URL r)
    +:+ field "Snippet" (previewText (w_Snippet r) 240)) 5 results).
Definition emailResultsPrompt (results : list EmailMessage) : string :=
  concat (numbered (λ i m, line (Itoa i +:+ ". Subject: " +:+ firstNonEmpty [e_Subject m; "(no subject)"])
    +:+ line ("From: " +:+ firstNonEmpty [e_From m; "unknown"]) +:+ line ("State: " +:+ unread_state m)
    +:+ line ("Date: " +:+ e_Date m) +:+ field "Snippet" (previewText (e_Snippet m) 240)) 5 results).
Definition githubIssueResultsPrompt (results : list GitHubIssue) : string :=
  concat (numbered (λ i r, line (Itoa i +:+ ". Repo: " +:+ g_Repo r) +:+ line ("Number: " +:+ Itoa (g_Number r))
    +:+ line ("Title: " +:+ firstNonEmpty [g_Title r; "(no title)"])
    +:+ line ("State: " +:+ firstNonEmpty [g_State r; "unknown"])
    +:+ line ("URL: " +:+ g_URL r) +:+ field "Body" (previewText (g_Body r) 240)) 5 results).

(** ** Mail threads *)

(** One turn of the loop: [None] when no prefix is left. *)
Definition strip_reply (subject : string) : option string :=
  if HasPrefix subject "re:" then Some (TrimSpace (TrimPrefix subject "re:"))
  else if HasPrefix subject "fw:" then Some (TrimSpace (TrimPrefix subject "fw:"))
  else if HasPrefix subject "fwd:" then Some (TrimSpace (TrimPrefix subject "fwd:"))
  else None.
Fixpoint strip_replies (fuel : nat) (subject : string) : string :=
  match fuel with
  | O => subject
  | S fuel => match strip_reply subject with Some s => strip_replies fuel s | None => subject end
  end.
Definition normalizeEmailSubject (subject : string) : string :=
  let subject := TrimSpace (ToLower subject) in strip_replies (len subject) subject.

Definition canonicalEmailThreadKey (m : EmailMessage) : string :=
  let subject := normalizeEmailSubject (e_Subject m) in
  if decide (subject = "") then TrimSpace (firstNonEmpty [e_MessageID m; e_Path m; e_Date m]) else subject.

Record emailThreadGroup := mkGroup {
  key : string; subject : string; messages : list EmailMessage; unreadCount : Z; latestDate : string;
  participants : list string }.
Definition new_group (k : string) (m : EmailMessage) : emailThreadGroup :=
  mkGroup k (normalizeEmailSubject (e_Subject m)) [] 0 "" [].
(** [a > b] of Go strings *)
Definition string_gt (a b : string) : bool := bool_decide (¬ String.le a b).
Definition add_message (g : emailThreadGroup) (m : EmailMessage) : emailThreadGroup :=
  let sender := TrimSpace (e_From m) in
  mkGroup (key g) (if decide (subject g = "") then normalizeEmailSubject (e_Subject m) else subject g)
    (messages g ++ [m]) (if e_Unread m then unreadCount g + 1 else unreadCount g)
    (if string_gt (e_Date m) (latestDate g) then e_Date m else latestDate g)
    (if negb (bool_decide (sender = "")) && negb (containsString (participants g) sender)
     then participants g ++ [sender] else participants g).
(** The group of the message, created at the end when it is the first one. *)
Fixpoint file_message (gs : list emailThreadGroup) (m : EmailMessage) : list emailThreadGroup :=
  let k := canonicalEmailThreadKey m in
  match gs with
  | [] => [add_message (new_group k m) m]
  | g :: gs => if decide (key g = k) then add_message g m :: gs else g :: file_message gs m
  end.
Definition groupEmailThreads (l : list EmailMessage) : list emailThreadGroup := foldl file_message [] l.
Definition summarySnippet (g : emailThreadGroup) : string :=
  default "" (e_Snippet <$> List.find (λ m, negb (blank (e_Snippet m))) (messages g)).

(** ** Identifiers *)

Definition searchMemoryCardID (taskID : string) : string := "search:" +:+ taskID.
Definition searchSummaryCardID (taskID : string) : string := "search:" +:+ taskID +:+ ":summary".
Definition searchSummaryEdgeID (taskID : string) : string := "edge:search:" +:+ taskID +:+ ":summary".
Definition searchResultEdgeID (taskID : string) (index : Z) : string :=
  "edge:search:" +:+ taskID +:+ ":result:" +:+ Itoa (index + 1).
Definition emailMemoryCardID (taskID : string) : string := "email:" +:+ taskID.
Definition emailSummaryCardID (taskID : string) : string := "email:" +:+ taskID +:+ ":summary".
Definition emailSummaryEdgeID (taskID : string) : string := "edge:email:" +:+ taskID +:+ ":summary".
Definition emailThreadEdgeID (taskID threadKey : string) : string :=
  "edge:email:" +:+ taskID +:+ ":thread:" +:+ hex_bytes (take 6 (Sum threadKey)).
Definition emailMessageEdgeID (taskID : string) (index : Z) : string :=
  "edge:email:" +:+ taskID +:+ ":message:" +:+ Itoa (index + 1).
Definition emailThreadMessageEdgeID (taskID : string) (index : Z) : string :=
  "edge:email:" +:+ taskID +:+ ":thread-message:" +:+ Itoa (index + 1).
Definition githubIssueMemoryCardID (taskID : string) : string := "github:" +:+ taskID.
Definition githubIssueSummaryCardID (taskID : string) : string := "github:" +:+ taskID +:+ ":summary".
Definition githubIssueSummaryEdgeID (taskID : string) : string := "edge:github:" +:+ taskID +:+ ":summary".
Definition githubIssueEdgeID (taskID : string) (index : Z) : string :=
  "edge:github:" +:+ taskID +:+ ":issue:" +:+ Itoa (index + 1).

Definition digest8 (kind key : string) : string := kind +:+ ":" +:+ hex_bytes (take 8 (Sum key)).
Definition canonicalURL {url : UrlPackage} (raw : string) : string :=
  match url_Parse (TrimSpace raw) with
  | None => TrimSpace raw
  | Some u => url_String (mkURL (ToLower (Scheme u)) (ToLower (Host u)) "" (url_rest u))
  end.
Definition canonicalSearchResultCardID {url : UrlPackage} (rawURL : string) : string := digest8 "web_result" (canonicalURL rawURL).
Definition canonicalEmailMessageCardID (m : EmailMessage) : string :=
  digest8 "email_message" (TrimSpace (firstNonEmpty [e_MessageID m; e_Path m; e_Subject m +:+ "|" +:+ e_Date m])).
Definition canonicalEmailThreadCardID (threadKey : string) : string := digest8 "email_thread" threadKey.
Definition canonicalGitHubIssueCardID (issue : GitHubIssue) : string :=
  digest8 "github_issue" (TrimSpace (firstNonEmpty [g_Repo issue +:+ "#" +:+ Itoa (g_Number issue); g_URL issue; g_Title issue])).

(** ** Procedures in plans *)

Record procedureHints := mkHints {
  h_Steps : string; h_Guardrails : string; h_Summary : string; h_SuccessSignal : string }.
Definition procedureHintsFromMetadata (metadata : gmap string string) : procedureHints :=
  let value key := TrimSpace (default "" (metadata !! key)) in
  mkHints (value "procedure_steps") (value "procedure_guardrails") (value "procedure_summary") (value "procedure_success_signal").
Definition hasEvidence (h : procedureHints) : bool := negb (blank (h_Steps h)).

Definition split_lines : string → list string := SplitByte (byte 10).
(** The nonblank lines of a text, trimmed. *)
Definition entries (s : string) : list string := filter (λ l, l ≠ "") (TrimSpace <$> split_lines s).
Definition bullets (s : string) : string := concat ((λ l, line ("- " +:+ l)) <$> entries s).
Definition attachProcedureHintsToPlan (body : string) (metadata : gmap string string) : string :=
  let hints := procedureHintsFromMetadata metadata in
  if negb (hasEvidence hints) then body else
  TrimRightSet body [byte 10] +:+ newline +:+ newline +:+ line "## Procedure Candidate" +:+ newline
  +:+ (if blank (h_Summary hints) then "" else field "Summary" (h_Summary hints))
  +:+ line "Steps:" +:+ bullets (h_Steps hints)
  +:+ (if blank (h_Guardrails hints) then "" else newline +:+ line "Guardrails:" +:+ bullets (h_Guardrails hints))
  +:+ (if blank (h_SuccessSignal hints) then "" else newline +:+ line ("Success signal: " +:+ h_SuccessSignal hints))
  +:+ newline.

Definition markdownInlinePrefix (text prefix : string) : string :=
  default "" ((λ l, TrimSpace (TrimPrefix l prefix)) <$>
    List.find (λ l, HasPrefix l prefix) (TrimSpace <$> split_lines text)).
(** The [break] of the code leaves its [switch], not the loop over the lines:
    only a heading ends a section. *)
Fixpoint section_bullets (header : string) (inSection : bool) (collected : list string) (lines : list string)
    : list string :=
  match lines with
  | [] => collected
  | l :: lines =>
      let trimmed := TrimSpace l in
      if decide (trimmed = header) then section_bullets header true collected lines
      else if negb inSection then section_bullets header inSection collected lines
      else if decide (trimmed = "") then section_bullets header inSection collected lines
      else if HasPrefix trimmed "## " then collected
      else if HasPrefix trimmed "- "
      then section_bullets header inSection (collected ++ [TrimSpace (TrimPrefix trimmed "- ")]) lines
      else section_bullets header inSection collected lines
  end.
Definition markdownSectionBullets (text header : string) : string :=
  Join (section_bullets header false [] (split_lines text)) newline.

(** ** Evidence of a task *)

Definition no_evidence : ProcedureEvidence := mkEvidence "" "" "" "" "" "".
Definition stringValue (value : option json) : string := match value with Some (JStr s) => s | _ => "" end.
Section evidence.
Variable readFile : string → option string.
Definition readProcedureEvidenceObservation (path : string) : ProcedureEvidence :=
  if blank path then no_evidence else
  match readFile path ≫= decode_object with
  | None => no_evidence
  | Some payload =>
      let value key := TrimSpace (stringValue (obj_get key (default [] payload))) in
      mkEvidence (value "procedure_steps") (value "procedure_guardrails")
        (if blank (value "procedure_summary") then value "summary" else value "procedure_summary")
        (value "procedure_success_signal") (value "artifact_path") path
  end.
Definition readProcedureEvidenceArtifact (path : string) : ProcedureEvidence :=
  if blank path then no_evidence else
  match readFile path with
  | None => no_evidence
  | Some text =>
      let steps := markdownSectionBullets text "Steps:" in
      if blank steps then no_evidence else
      mkEvidence steps (markdownSectionBullets text "Guardrails:") (markdownInlinePrefix text "Summary:")
        (markdownInlinePrefix text "Success signal:") path ""
  end.

Definition metadataKeysBySuffix (metadata : gmap string string) (suffix : string) : list string :=
  merge_sort String.le (filter (λ k, HasSuffix k suffix && negb (blank (default "" (metadata !! k)))) (map_to_list metadata).*1).
Definition firstMetadataValue (metadata : gmap string string) (suffix : string) : string :=
  match metadataKeysBySuffix metadata suffix with
  | [] => ""
  | k :: _ => TrimSpace (default "" (metadata !! k))
  end.
(** The first evidence with steps: observations, then artifacts, then the
    hints of the task itself. *)
Definition procedureEvidenceForTask (task : Task) : ProcedureEvidence :=
  let metadata := default ∅ (Runtime.Metadata task) in
  let with_steps read suffix := List.find (λ e, negb (blank (Steps e)))
    ((λ k, read (TrimSpace (default "" (metadata !! k)))) <$> metadataKeysBySuffix metadata suffix) in
  match with_steps readProcedureEvidenceObservation "_observation" with
  | Some e => e
  | None =>
      match with_steps readProcedureEvidenceArtifact "_artifact" with
      | Some e => e
      | None =>
          let h := procedureHintsFromMetadata metadata in
          mkEvidence (h_Steps h) (h_Guardrails h) (h_Summary h) (h_SuccessSignal h)
            (firstMetadataValue metadata "_artifact") (firstMetadataValue metadata "_observation")
      end
  end.
End evidence.

(** ** [json.MarshalIndent(v, prefix, indent)] with an indent of two spaces

    [depth] is the nesting of [v]. *)
Definition indent (depth : nat) : string := newline +:+ Join (replicate depth "  ") "".
Fixpoint print_indent (depth : nat) (v : json) : string :=
  match v with
  | JArr ((_ :: _) as l) =>
      "[" +:+ indent (S depth) +:+ Join (print_indent (S depth) <$> l) ("," +:+ indent (S depth)) +:+ indent depth +:+ "]"
  | JObj ((_ :: _) as m) =>
      "{" +:+ indent (S depth)
      +:+ Join ((λ p, quote p.1 +:+ ": " +:+ print_indent (S depth) p.2) <$> m) ("," +:+ indent (S depth))
      +:+ indent depth +:+ "}"
  | JArr [] => "[]"
  | JObj [] => "{}"
  | _ => print v
  end.
End texts.

(** ** Quoting a command line *)

(** The quoting that [splitArgs] undoes: double quotes around each argument,
    and a backslash before the quotes and backslashes in it. *)
Definition escape_arg (r : Z) : list Z := if bool_decide (r ∈ [backslash; double_quote]) then [backslash; r] else [r].
Definition quoted_runes (arg : string) : list Z := double_quote :: (runes arg ≫= escape_arg) ++ [double_quote].
Fixpoint command_runes (args : list string) : list Z :=
  match args with
  | [] => []
  | [a] => quoted_runes a
  | a :: args => quoted_runes a ++ 32 :: command_runes args
  end.
Definition quoteArgs (args : list string) : string := of_runes (command_runes args).

Abbreviation all_ok := (Forall (λ r, rune_ok r = true)).
Lemma quoted_ok arg : all_ok (quoted_runes arg).
Proof.
  constructor; [done|]. apply Forall_app. split; [|by repeat constructor]. generalize (runes_ok arg).
  induction 1 as [|r l Hr _ IH]; [constructor|]. cbn. apply Forall_app. split; [|exact IH].
  unfold escape_arg. case_bool_decide; by repeat constructor.
Qed.
Lemma command_ok args : all_ok (command_runes args).
Proof.
  induction args as [|a [|b args] IH]; [constructor|apply quoted_ok|].
  apply Forall_app. split; [apply quoted_ok|by constructor].
Qed.

Lemma escaped_run l cur rs :
  foldl split_step (mkSplitter l cur (Some double_quote) false) (rs ≫= escape_arg) =
  mkSplitter l (cur ++ rs) (Some double_quote) false.
Proof.
  revert cur. induction rs as [|r rs IH]; intros cur; [by rewrite app_nil_r|].
  change ((r :: rs) ≫= escape_arg) with (escape_arg r ++ (rs ≫= escape_arg)). rewrite foldl_app.
  replace (foldl split_step _ (escape_arg r)) with (mkSplitter l (cur ++ [r]) (Some double_quote) false).
  { rewrite IH. by rewrite <- app_assoc. }
  unfold escape_arg, split_step, put. case_bool_decide as Hr; cbn [foldl escaped quoted args current].
  - apply elem_of_cons in Hr as [->|Hr%list_elem_of_singleton]; [done|by subst].
  - rewrite not_elem_of_cons, not_elem_of_cons in Hr. destruct Hr as (H1 & H2 & _).
    by rewrite (proj2 (Z.eqb_neq _ _) H1), (proj2 (Z.eqb_neq _ _) H2).
Qed.
Lemma quoted_run l arg :
  foldl split_step (mkSplitter l [] None false) (quoted_runes arg) = mkSplitter l (runes arg) None false.
Proof.
  unfold quoted_runes. cbn [foldl]. change (split_step _ double_quote) with (mkSplitter l [] (Some double_quote) false).
  rewrite foldl_app, escaped_run. done.
Qed.
Lemma encode_rune_nonempty r s : encode_rune r +:+ s ≠ "".
Proof. unfold encode_rune. repeat case_match; done. Qed.
Lemma flush_argument l arg :
  flush (mkSplitter l (runes arg) None false) = l ++ filter (λ a, a ≠ "") [valid_utf8 arg].
Proof.
  unfold flush, valid_utf8. cbn [current args]. destruct (runes arg) as [|r rs]; [by rewrite app_nil_r|].
  rewrite filter_cons_True; [done|]. cbn. apply encode_rune_nonempty.
Qed.
Lemma command_run l a args :
  flush (foldl split_step (mkSplitter l [] None false) (command_runes (a :: args))) =
  l ++ filter (λ a, a ≠ "") (valid_utf8 <$> a :: args).
Proof.
  revert l a. induction args as [|b args IH]; intros l a.
  - cbn [command_runes]. rewrite quoted_run. apply flush_argument.
  - change (command_runes (a :: b :: args)) with (quoted_runes a ++ 32 :: command_runes (b :: args)).
    rewrite foldl_app, quoted_run. cbn [foldl].
    change (split_step (mkSplitter l (runes a) None false) 32) with
      (mkSplitter (flush (mkSplitter l (runes a) None false)) [] None false).
    rewrite IH, flush_argument, <- app_assoc. f_equal. rewrite fmap_cons. by rewrite <- (filter_app _ [_]).
Qed.
Lemma command_ends a args : ∃ m, command_runes (a :: args) = double_quote :: m ++ [double_quote].
Proof.
  revert a. induction args as [|b args IH]; intros a; [by eexists|].
  destruct (IH b) as [m Hm]. change (command_runes (a :: b :: args)) with (quoted_runes a ++ 32 :: command_runes (b :: args)).
  rewrite Hm. exists ((runes a ≫= escape_arg) ++ [double_quote] ++ 32 :: double_quote :: m). unfold quoted_runes.
  cbn [app]. do 2 rewrite <- app_assoc. reflexivity.
Qed.

(** No argument of a command line is empty. *)
Lemma flush_nonempty st : Forall (λ a, a ≠ "") (args st) → Forall (λ a, a ≠ "") (flush st).
Proof.
  intros H. unfold flush. destruct (current st) as [|r rs]; [done|]. apply Forall_app. split; [done|].
  constructor; [apply encode_rune_nonempty|done].
Qed.
Lemma split_nonempty rs st : Forall (λ a, a ≠ "") (args st) → Forall (λ a, a ≠ "") (args (foldl split_step st rs)).
Proof.
  revert st. induction rs as [|r rs IH]; intros st H; [done|]. apply IH. unfold split_step, put.
  repeat case_match; cbn [args]; try done. by apply flush_nonempty.
Qed.

(** Command lines round trip: what [splitArgs] makes of quoted arguments
    are the arguments (with bytes that are not UTF-8 replaced, as decoding
    does), except that empty ones are lost: no command line, however quoted,
    passes an empty argument. *)
Theorem splitArgs_quoted :
  (∀ args, splitArgs (quoteArgs args) = filter (λ a, a ≠ "") (valid_utf8 <$> args)) ∧
  (∀ raw, Forall (λ a, a ≠ "") (splitArgs raw)).
Proof.
  split; [|intros raw; unfold splitArgs; cbv zeta; case_decide; [done|]; by apply flush_nonempty, split_nonempty].
  intros args. destruct args as [|a args]; [done|]. unfold splitArgs. cbv zeta.
  assert (TrimSpace (quoteArgs (a :: args)) = quoteArgs (a :: args) ∧ quoteArgs (a :: args) ≠ "") as [-> Hne].
  { unfold quoteArgs. destruct (command_ends a args) as [m ->].
    change (of_runes (?x :: ?y)) with (String (byte 34) (of_runes y)). split; [|done].
    rewrite of_runes_app. change (of_runes [double_quote]) with (String (byte 34) "").
    unfold TrimSpace. rewrite TrimLeftSpace_head by done. change (String ?a (?x +:+ ?y)) with (String a x +:+ y). by apply TrimRightSpace_last. }
  rewrite decide_False by done. unfold quoteArgs. rewrite runes_of_runes by apply command_ok. apply (command_run []).
Qed.

(** ** Mail threads *)

Section threads.
Context {tables : UnicodeTables}.

(** Stripping ends: every turn shortens the subject. *)
Lemma len_drop_bytes n s : (len (drop_bytes n s) <= len s - n)%nat.
Proof.
  revert s. induction n as [|n IH]; intros [|a s]; cbn; try lia. specialize (IH s). unfold len in *. lia.
Qed.
Lemma len_TrimLeftSpace s : (len (TrimLeftSpace s) <= len s)%nat.
Proof. apply trim_with_length. Qed.
Lemma len_rev s : len (String.rev s) = len s.
Proof.
  induction s as [|a s IH]; [done|]. change (String a s) with (String a "" +:+ s).
  rewrite rev_app_distr, !string_length_app, IH. cbn. lia.
Qed.
Lemma len_TrimSpace s : (len (TrimSpace s) <= len s)%nat.
Proof.
  unfold TrimSpace, TrimRightSpace. rewrite len_rev. etrans; [apply trim_with_length|]. rewrite len_rev. apply trim_with_length.
Qed.
Lemma HasPrefix_len s p : HasPrefix s p = true → (len p <= len s)%nat.
Proof. intros (r & ->)%HasPrefix_spec. rewrite string_length_app. lia. Qed.
Lemma strip_reply_shorter s s' : strip_reply s = Some s' → (len s' < len s)%nat.
Proof.
  unfold strip_reply, TrimPrefix. intros H. repeat case_match; try done.
  all: injection H as <-; match goal with E : HasPrefix ?x ?p = true |- context [TrimSpace ?t] =>
    pose proof (HasPrefix_len _ _ E); pose proof (len_TrimSpace t) end.
  1: pose proof (len_drop_bytes 3 s). 2: pose proof (len_drop_bytes 3 s). 3: pose proof (len_drop_bytes 4 s).
  all: unfold len in *; cbn in *; lia.
Qed.
Lemma strip_replies_done fuel s : (len s <= fuel)%nat → strip_reply (strip_replies fuel s) = None.
Proof.
  revert s. induction fuel as [|fuel IH]; intros s H; cbn [strip_replies].
  - destruct s; [done|cbn in H; lia].
  - destruct (strip_reply s) as [s'|] eqn:E; [|done]. apply IH. apply strip_reply_shorter in E. lia.
Qed.
(** A normalized subject has no reply or forward prefix, however many it had. *)
Lemma normalizeEmailSubject_done s : strip_reply (normalizeEmailSubject s) = None.
Proof. by apply strip_replies_done. Qed.

Abbreviation key_of := canonicalEmailThreadKey.
(** What a group says of the messages [l]. *)
Definition group_ok (l : list EmailMessage) (g : emailThreadGroup) : Prop :=
  messages g = filter (λ m, key_of m = key g) l ∧
  unreadCount g = Z.of_nat (length (filter (λ m, e_Unread m = true) (messages g))) ∧
  (∀ m, m ∈ messages g → String.le (e_Date m) (latestDate g)) ∧
  (latestDate g = "" ∨ latestDate g ∈ e_Date <$> messages g) ∧
  participants g = firsts (filter (λ s, s ≠ "") (TrimSpace ∘ e_From <$> messages g)).

Lemma group_other l g m : group_ok l g → key_of m ≠ key g → group_ok (l ++ [m]) g.
Proof.
  intros (H & Hr) Hne. split; [|exact Hr]. by rewrite filter_app, filter_cons_False, app_nil_r.
Qed.
Lemma group_add l g m : group_ok l g → key_of m = key g → group_ok (l ++ [m]) (add_message g m).
Proof.
  intros (Hm & Hu & Hd & Hl & Hp) Hk. unfold add_message. split_and!; cbn [messages key unreadCount latestDate participants].
  - rewrite filter_app, filter_cons_True, <- Hm by done. done.
  - rewrite filter_app, length_app, Nat2Z.inj_add, <- Hu. destruct (e_Unread m) eqn:E.
    + rewrite filter_cons_True by done. done.
    + rewrite filter_cons_False by (by rewrite E). cbn. lia.
  - unfold string_gt. intros x [Hx|Hx%list_elem_of_singleton]%elem_of_app.
    + case_bool_decide as Hgt; [|by apply Hd]. etrans; [by apply Hd|]. by destruct (total String.le (e_Date m) (latestDate g)).
    + subst x. case_bool_decide as Hgt; [done|]. exact Hgt.
  - rewrite fmap_app. unfold string_gt. case_bool_decide; [right; set_solver|]. destruct Hl as [->|Hl]; [by left|right; set_solver].
  - rewrite fmap_app, filter_app. unfold firsts. rewrite foldl_app. fold (firsts (filter (λ s, s ≠ "") (TrimSpace ∘ e_From <$> messages g))).
    rewrite <- Hp. cbn [fmap list_fmap]. unfold compose. unfold containsString. case_bool_decide as He; cbn [negb andb].
    + by rewrite filter_cons_False by (by intros []).
    + rewrite filter_cons_True by done. cbn [filter list_filter foldl]. unfold add_new.
      destruct (decide (TrimSpace (e_From m) ∈ participants g)); [by rewrite bool_decide_true|by rewrite bool_decide_false].
Qed.
Lemma group_new l m : key_of m ∉ (key_of <$> l) → group_ok (l ++ [m]) (add_message (new_group (key_of m) m) m).
Proof.
  intros Hk. apply group_add; [|done]. unfold new_group. split_and!; cbn; try done; [|set_solver|by left].
  symmetry. apply filter_nil_iff. intros x Hx E. apply Hk. rewrite <- E. by apply list_elem_of_fmap_2.
Qed.

Lemma file_keys gs m : key <$> file_message gs m = add_new (key <$> gs) (key_of m).
Proof.
  induction gs as [|g gs IH]; [done|]. cbn [file_message]. destruct (decide (key g = key_of m)) as [Hk|Hk].
  - unfold add_new. rewrite !fmap_cons. destruct (decide _) as [H|H]; [done|]. destruct H. rewrite Hk. by left.
  - rewrite !fmap_cons, IH. unfold add_new. destruct (decide (key_of m ∈ key <$> gs)) as [H|H], (decide (key_of m ∈ key g :: _)) as [H2|H2];
      [done| | |done].
    + destruct H2. by right.
    + apply elem_of_cons in H2 as [E|E]; [by symmetry in E|done].
Qed.
Lemma file_groups l gs m : NoDup (key <$> gs) → Forall (group_ok l) gs →
  (key_of m ∉ (key <$> gs) → key_of m ∉ (key_of <$> l)) → Forall (group_ok (l ++ [m])) (file_message gs m).
Proof.
  intros Hn Hg Hnew. induction gs as [|g gs IH].
  - cbn. constructor; [|done]. apply group_new, Hnew. set_solver.
  - rewrite fmap_cons, NoDup_cons in Hn. destruct Hn as [Hn Hn2]. apply Forall_cons in Hg as [Hg Hg2]. cbn [file_message].
    case_decide as Hk.
    + constructor; [by apply group_add|]. apply Forall_forall. intros g' Hg'.
      apply group_other; [by eapply Forall_forall in Hg2|]. intros E. apply Hn. rewrite Hk, E. by apply list_elem_of_fmap_2.
    + constructor; [by apply group_other|]. apply IH; [done..|]. intros H. apply Hnew. set_solver.
Qed.
Lemma firsts_snoc l x : firsts (l ++ [x]) = add_new (firsts l) x.
Proof. unfold firsts. by rewrite foldl_app. Qed.
Lemma elem_of_firsts l x : x ∈ firsts l ↔ x ∈ l.
Proof.
  induction l as [|y l IH] using rev_ind; [done|]. rewrite firsts_snoc. unfold add_new. case_decide; set_solver.
Qed.
Lemma NoDup_firsts l : NoDup (firsts l).
Proof.
  induction l as [|y l IH] using rev_ind; [constructor|]. rewrite firsts_snoc. unfold add_new. case_decide as H; [done|].
  apply NoDup_app. split; [done|]. split; [set_solver|apply NoDup_singleton].
Qed.

(** The threads are a partition of the inbox: there is one group for each
    thread key, in the order the keys first appear, and it holds exactly the
    messages with that key, in order, the number of unread ones among them,
    their latest date and their senders without repetition. *)
Theorem groupEmailThreads_exact l :
  key <$> groupEmailThreads l = firsts (key_of <$> l) ∧ Forall (group_ok l) (groupEmailThreads l).
Proof.
  induction l as [|m l [IH1 IH2]] using rev_ind; [by split; [|constructor]|].
  unfold groupEmailThreads in *. rewrite foldl_app. cbn [foldl]. rewrite file_keys, IH1, fmap_app.
  change (key_of <$> [m]) with [key_of m]. rewrite firsts_snoc.
  split; [done|]. apply file_groups; [rewrite IH1; apply NoDup_firsts|done|].
  rewrite IH1. intros H. by rewrite <- elem_of_firsts.
Qed.
End threads.

(** ** What is read back of a plan *)

Section plans.
Context {tables : UnicodeTables}.

(** *** Lines *)

Fixpoint has_byte (c : ascii) (s : string) : bool :=
  match s with "" => false | String a r => bool_decide (a = c) || has_byte c r end.
Lemma has_byte_app c s t : has_byte c (s +:+ t) = has_byte c s || has_byte c t.
Proof. induction s as [|a s IH]; [done|]. rewrite string_cons_app. cbn [has_byte]. by rewrite IH, orb_assoc. Qed.
Lemma SplitByte_single c s : has_byte c s = false → SplitByte c s = [s].
Proof.
  induction s as [|a s IH]; [done|]. cbn [has_byte SplitByte]. intros [Ha Hs]%orb_false_iff. apply bool_decide_eq_false in Ha.
  rewrite decide_False by done. by rewrite IH.
Qed.
Lemma SplitByte_nonempty c s : SplitByte c s ≠ [].
Proof. destruct s as [|a s]; [done|]. cbn [SplitByte]. case_decide; [done|]. by destruct (SplitByte c s). Qed.
Lemma SplitByte_pieces c s : Forall (λ l, has_byte c l = false) (SplitByte c s).
Proof.
  induction s as [|a s IH]; [by constructor|]. cbn [SplitByte]. case_decide as Ha; [by constructor|].
  destruct (SplitByte c s) as [|p ps]; [|apply Forall_cons in IH as [Hp Hps]]; (constructor; [|done]); cbn [has_byte].
  - apply orb_false_iff. split; [by apply bool_decide_eq_false|done].
  - apply orb_false_iff. split; [by apply bool_decide_eq_false|done].
Qed.
Lemma SplitByte_app c s t : SplitByte c (s +:+ String c t) = SplitByte c s ++ SplitByte c t.
Proof.
  induction s as [|a s IH].
  - change ("" +:+ ?x) with x. cbn [SplitByte]. by rewrite decide_True.
  - rewrite string_cons_app. cbn [SplitByte]. case_decide; [by rewrite IH|].
    rewrite IH. destruct (SplitByte c s) eqn:E; [by destruct (SplitByte_nonempty c s)|done].
Qed.
Lemma lines_line a b : split_lines (line a +:+ b) = split_lines a ++ split_lines b.
Proof. unfold line, newline. rewrite <- string_app_assoc. apply SplitByte_app. Qed.
Lemma line_single a b : has_byte (byte 10) a = false → split_lines (line a +:+ b) = a :: split_lines b.
Proof. intros H. rewrite lines_line. unfold split_lines. by rewrite SplitByte_single. Qed.

(** *** Trimming *)

Lemma TrimRightSpace_prefix s : ∃ q, s = TrimRightSpace s +:+ q.
Proof.
  destruct (trim_with_suffix (λ b a, space2 a b) (λ c b a, space3 a b c) (String.rev s)) as [p Hp].
  exists (String.rev p). unfold TrimRightSpace. by rewrite <- rev_app_distr, <- Hp, string_rev_rev.
Qed.
Lemma TrimSpace_has_byte c s : has_byte c s = false → has_byte c (TrimSpace s) = false.
Proof.
  destruct (trim_with_suffix space2 space3 s) as [p Hp]. destruct (TrimRightSpace_prefix (TrimLeftSpace s)) as [q Hq].
  intros H. rewrite Hp, has_byte_app in H. apply orb_false_iff in H as [_ H].
  change (trim_with space2 space3 s) with (TrimLeftSpace s) in H. rewrite Hq, has_byte_app in H.
  by apply orb_false_iff in H as [H _].
Qed.
(** Trimming stops at a plain byte. *)
Lemma plain_space3_middle a b c : plain_byte b = true → space3 a b c = false.
Proof.
  intros H%plain_byte_lt. unfold space3. repeat match goal with
  | |- context [(?x =? ?y)%nat] => destruct (Nat.eqb_spec x y); try lia
  | |- context [(?x <=? ?y)%nat] => destruct (Nat.leb_spec x y); try lia
  end; done.
Qed.
Abbreviation trim_rev := (trim_with (λ b a, space2 a b) (λ c b a, space3 a b c)).
Lemma trim_with_stop a t u : plain_byte a = true → ∃ v w, t = w +:+ v ∧ trim_rev (t +:+ String a u) = v +:+ String a u.
Proof.
  intros Ha. assert (trim_rev (String a u) = String a u) as Hu.
  { apply trimmed_cons. split; [by apply andb_true_iff in Ha as [_ ?%negb_true_iff]|].
    destruct u as [|b [|c u]]; [done| |]; (split; [by apply plain_space2_last|]); [done|by apply plain_space3_last]. }
  remember (String.length t) as n eqn:E. revert t E. induction n as [n IH] using lt_wf_ind; intros t ->.
  destruct t as [|x t]; [by exists "", ""; split|]. rewrite string_cons_app.
  assert (∀ s p, String x t = p +:+ s → (String.length s < String.length (String x t))%nat →
    trim_rev (String x (t +:+ String a u)) = trim_rev (s +:+ String a u) →
    ∃ v w, String x t = w +:+ v ∧ trim_rev (String x (t +:+ String a u)) = v +:+ String a u) as Hstep.
  { intros s p Hp Hl ->. destruct (IH _ Hl s eq_refl) as (v & w & -> & Hv). exists v, (p +:+ w).
    by rewrite Hp, string_app_assoc. }
  assert (trim_rev (String x (t +:+ String a u)) = String x (t +:+ String a u) →
    ∃ v w, String x t = w +:+ v ∧ trim_rev (String x (t +:+ String a u)) = v +:+ String a u) as Hstop.
  { intros ->. exists (String x t), "". done. }
  destruct (space1 x) eqn:E1; [apply (Hstep t (String x "")); [done|cbn; lia|cbn [trim_with]; by rewrite E1]|].
  destruct t as [|y t].
  { apply Hstop, trimmed_cons. split; [done|]. split; [by apply plain_space2|]. destruct u; [done|by apply plain_space3_middle]. }
  destruct (space2 y x) eqn:E2.
  { apply (Hstep t (String x (String y ""))); [done|cbn; lia|]. rewrite string_cons_app. cbn [trim_with]. by rewrite E1, E2. }
  destruct t as [|z t].
  { apply Hstop, trimmed_cons. split; [done|]. rewrite string_cons_app. split; [done|]. by apply plain_space3. }
  destruct (space3 z y x) eqn:E3.
  { apply (Hstep t (String x (String y (String z "")))); [done|cbn; lia|]. rewrite !string_cons_app. cbn [trim_with].
    by rewrite E1, E2, E3. }
  apply Hstop, trimmed_cons. rewrite !string_cons_app. done.
Qed.
(** A text after a head that ends in a plain byte keeps that head. *)
Lemma TrimRightSpace_stop a p e : plain_byte a = true → ∃ q r, e = q +:+ r ∧
  TrimRightSpace (p +:+ String a e) = p +:+ String a q.
Proof.
  intros Ha. destruct (trim_with_stop a (String.rev e) (String.rev p) Ha) as (v & w & He & Hv).
  exists (String.rev v), (String.rev w). split; [by rewrite <- rev_app_distr, <- He, string_rev_rev|].
  unfold TrimRightSpace. change (String a e) with (String a "" +:+ e). rewrite !rev_app_distr.
  change (String.rev (String a "")) with (String a "").
  rewrite <- string_app_assoc. change (String a "" +:+ String.rev p) with (String a (String.rev p)). rewrite Hv.
  rewrite rev_app_distr. change (String a (String.rev p)) with (String a "" +:+ String.rev p).
  rewrite rev_app_distr, string_rev_rev. change (String.rev (String a "")) with (String a "").
  rewrite <- string_app_assoc. done.
Qed.
Lemma TrimSpace_label p a e : plain_byte a = true →
  match p with String b _ => plain_byte b = true | _ => True end →
  ∃ q, TrimSpace (p +:+ String a e) = p +:+ String a q.
Proof.
  intros Ha Hp. unfold TrimSpace. replace (TrimLeftSpace (p +:+ String a e)) with (p +:+ String a e).
  - destruct (TrimRightSpace_stop a p e Ha) as (q & r & _ & Hq). by exists q.
  - destruct p as [|b p]; [symmetry; by apply TrimLeftSpace_head|]. rewrite string_cons_app. symmetry. by apply TrimLeftSpace_head.
Qed.
Lemma entries_spec s : Forall (λ e, e ≠ "" ∧ TrimSpace e = e ∧ has_byte (byte 10) e = false) (entries s).
Proof.
  apply Forall_forall. intros e [He (l & -> & Hl)%list_elem_of_fmap]%list_elem_of_filter.
  split_and!; [done|apply TrimSpace_idemp|]. apply TrimSpace_has_byte.
  pose proof (SplitByte_pieces (byte 10) s) as H. by eapply Forall_forall in H.
Qed.
Lemma bullet_trim e : e ≠ "" → TrimSpace e = e → TrimSpace ("- " +:+ e) = "- " +:+ e.
Proof.
  intros Hne He. unfold TrimSpace. change ("- " +:+ e) with (String "-" (" " +:+ e)). rewrite TrimLeftSpace_head by done.
  change (String "-" (" " +:+ e)) with ("- " +:+ e). unfold TrimRightSpace. rewrite rev_app_distr.
  assert (trim_rev (String.rev e) = String.rev e) as Ht.
  { rewrite <- He at 2. unfold TrimSpace, TrimRightSpace. rewrite string_rev_rev. rewrite <- He at 1.
    unfold TrimSpace, TrimRightSpace. rewrite string_rev_rev. apply trim_with_trimmed. }
  replace (trim_rev (String.rev e +:+ String.rev "- ")) with (String.rev e +:+ String.rev "- ").
  { by rewrite rev_app_distr, !string_rev_rev. }
  assert (String.rev e ≠ "") as Hr by (intros H; apply Hne; rewrite <- (string_rev_rev e), H; done).
  symmetry. change (String.rev "- ") with " -". revert Ht Hr. generalize (String.rev e) as s. clear.
  intros [|a [|b [|c s]]] Ht Hr; [done|..]; apply trimmed_cons in Ht; apply trimmed_cons; rewrite ?string_cons_app.
  - split; [apply Ht|]. by split.
  - destruct Ht as (H1 & H2 & _). by split_and!.
  - exact Ht.
Qed.

(** *** Sections *)

Lemma section_before header l rest : Forall (λ x, TrimSpace x ≠ header) l →
  section_bullets header false [] (l ++ rest) = section_bullets header false [] rest.
Proof.
  induction 1 as [|x l Hx _ IH]; [done|]. cbn [app section_bullets negb]. cbv zeta. rewrite decide_False by done. exact IH.
Qed.
Lemma section_entry header found e rest : e ≠ "" → TrimSpace e = e → HasPrefix header "- " = false →
  section_bullets header true found (("- " +:+ e) :: rest) = section_bullets header true (found ++ [e]) rest.
Proof.
  intros Hne He Hh. cbn [section_bullets negb]. cbv zeta. rewrite bullet_trim by done. case_decide as H.
  { rewrite <- H in Hh. by rewrite HasPrefix_app in Hh. }
  rewrite decide_False by done. rewrite (HasPrefix_app "- " e). change (HasPrefix ("- " +:+ e) "## ") with false.
  unfold TrimPrefix. rewrite (HasPrefix_app "- " e). change (drop_bytes (len "- ") ("- " +:+ e)) with e. by rewrite He.
Qed.
Lemma section_entries header found es rest : Forall (λ e, e ≠ "" ∧ TrimSpace e = e ∧ has_byte (byte 10) e = false) es →
  HasPrefix header "- " = false →
  section_bullets header true found (((λ e, "- " +:+ e) <$> es) ++ rest) = section_bullets header true (found ++ es) rest.
Proof.
  intros H Hh. revert found. induction H as [|e es (H1 & H2 & _) _ IH]; intros found; [by rewrite app_nil_r|].
  cbn [fmap list_fmap app]. rewrite section_entry by done. rewrite IH. by rewrite <- app_assoc.
Qed.
(** Lines that are no bullet, no heading and not the header. *)
Definition other_line (header x : string) : Prop :=
  TrimSpace x ≠ header ∧ HasPrefix (TrimSpace x) "## " = false ∧ HasPrefix (TrimSpace x) "- " = false.
Lemma section_other header found l rest : Forall (other_line header) l →
  section_bullets header true found (l ++ rest) = section_bullets header true found rest.
Proof.
  induction 1 as [|x l (H1 & H2 & H3) _ IH]; [done|]. cbn [app section_bullets negb]. cbv zeta.
  rewrite decide_False by done. rewrite H2, H3. by case_decide.
Qed.

(** *** The lines of a plan *)

Lemma bullets_lines s rest : split_lines (bullets s +:+ rest) = ((λ e, "- " +:+ e) <$> entries s) ++ split_lines rest.
Proof.
  unfold bullets, concat. generalize (entries_spec s). generalize (entries s) as es. clear s.
  induction 1 as [|e es (_ & _ & He) _ IH]; [done|].
  assert (Join ((λ l, line ("- " +:+ l)) <$> e :: es) "" = line ("- " +:+ e) +:+ Join ((λ l, line ("- " +:+ l)) <$> es) "") as ->.
  { destruct es; cbn; [by rewrite string_app_nil_r|done]. }
  rewrite <- string_app_assoc, line_single by (by rewrite has_byte_app). by rewrite IH.
Qed.
Abbreviation bullet_lines s := ((λ e, "- " +:+ e) <$> entries s).
Definition summary_lines (h : procedureHints) : list string :=
  if blank (h_Summary h) then [] else ["Summary: " +:+ h_Summary h; ""].
Definition guardrail_lines (h : procedureHints) : list string :=
  if blank (h_Guardrails h) then [] else "" :: "Guardrails:" :: bullet_lines (h_Guardrails h).
Definition last_lines (h : procedureHints) : list string :=
  (if blank (h_SuccessSignal h) then [] else [""; "Success signal: " +:+ h_SuccessSignal h]) ++ [""; ""].
Lemma plan_lines body metadata (h := procedureHintsFromMetadata metadata) :
  hasEvidence h = true → has_byte (byte 10) (h_Summary h) = false → has_byte (byte 10) (h_SuccessSignal h) = false →
  split_lines (attachProcedureHintsToPlan body metadata) =
  (split_lines (TrimRightSet body [byte 10]) ++ [""; "## Procedure Candidate"; ""] ++ summary_lines h) ++
  "Steps:" :: bullet_lines (h_Steps h) ++ guardrail_lines h ++ last_lines h.
Proof.
  intros He Hs Hx. unfold attachProcedureHintsToPlan. fold h. rewrite He. cbn [negb]. rewrite (string_app_assoc _ newline).
  rewrite <- app_assoc. etrans; [apply lines_line|]. f_equal.
  change (split_lines (newline +:+ ?x)) with ("" :: split_lines x). cbn [app]. f_equal.
  rewrite line_single by done. f_equal. change (split_lines (newline +:+ ?x)) with ("" :: split_lines x). f_equal.
  unfold summary_lines, guardrail_lines, last_lines, field.
  assert (∀ rest, split_lines ((if blank (h_Summary h) then "" else line ("Summary" +:+ ": " +:+ h_Summary h) +:+ newline) +:+ rest)
    = (if blank (h_Summary h) then [] else ["Summary: " +:+ h_Summary h; ""]) ++ split_lines rest) as ->.
  { intros rest. destruct (blank (h_Summary h)); [done|]. rewrite <- string_app_assoc, line_single by done. done. }
  f_equal. rewrite line_single by done. f_equal. rewrite bullets_lines. f_equal.
  assert (∀ rest, split_lines ((if blank (h_Guardrails h) then "" else newline +:+ line "Guardrails:" +:+ bullets (h_Guardrails h)) +:+ rest)
    = (if blank (h_Guardrails h) then [] else "" :: "Guardrails:" :: bullet_lines (h_Guardrails h)) ++ split_lines rest) as ->.
  { intros rest. destruct (blank (h_Guardrails h)); [done|]. rewrite <- !string_app_assoc.
    change (split_lines (newline +:+ ?x)) with ("" :: split_lines x). rewrite line_single by done. by rewrite bullets_lines. }
  f_equal. destruct (blank (h_SuccessSignal h)); [done|]. rewrite <- !string_app_assoc.
  change (split_lines (newline +:+ ?x)) with ("" :: split_lines x). rewrite line_single by done. done.
Qed.

Lemma TrimRightSet_lines body (P : string → Prop) c :
  Forall P (SplitByte c body) → Forall P (SplitByte c (TrimRightSet body [c])).
Proof.
  assert (∀ s, s = TrimLeftSet s [c] ∨ ∃ u, s = u +:+ String c "" +:+ TrimLeftSet s [c]) as H.
  { induction s as [|a s IH]; [by left|]. cbn [TrimLeftSet]. case_decide as Ha; [|by left].
    apply list_elem_of_singleton in Ha as ->. right. destruct IH as [E|[u E]]; [exists ""; by rewrite E at 1|].
    exists (String c u). rewrite string_cons_app. by rewrite E at 1. }
  unfold TrimRightSet. destruct (H (String.rev body)) as [E|[u E]].
  - rewrite <- E, string_rev_rev. done.
  - rewrite <- (string_rev_rev body) at 1. rewrite E at 1. rewrite !rev_app_distr. change (String.rev (String c "")) with (String c "").
    rewrite <- string_app_assoc. change (String c "" +:+ ?x) with (String c x). rewrite SplitByte_app. by intros [? _]%Forall_app.
Qed.

Lemma label_line header p a e : plain_byte a = true →
  match p with String b _ => plain_byte b = true | _ => True end → ¬ HasPrefix header p = true → TrimSpace (p +:+ String a e) ≠ header.
Proof. intros Ha Hp Hh E. destruct (TrimSpace_label p a e Ha Hp) as [q Hq]. rewrite Hq in E. subst header. apply Hh, HasPrefix_app. Qed.
Lemma bullets_other header s : HasPrefix header "- " = false → Forall (λ x, TrimSpace x ≠ header) (bullet_lines s).
Proof.
  intros Hh. apply Forall_fmap. eapply Forall_impl; [apply entries_spec|]. intros e (H1 & H2 & _). unfold compose.
  rewrite bullet_trim by done. intros <-. by rewrite HasPrefix_app in Hh.
Qed.
Lemma last_other header h : ¬ HasPrefix header "Success signal" = true → header ≠ "" →
  Forall (other_line header) (last_lines h).
Proof.
  intros Hh Hne. unfold last_lines. apply Forall_app. split; [|by repeat constructor].
  destruct (blank (h_SuccessSignal h)); [done|]. constructor; [by repeat split|]. constructor; [|done].
  change ("Success signal: " +:+ ?x) with ("Success signal" +:+ String ":" (" " +:+ x)).
  split; [by apply label_line|]. destruct (TrimSpace_label "Success signal" ":" (" " +:+ h_SuccessSignal h)) as [q ->]; done.
Qed.
Lemma head_other header body h : Forall (λ x, TrimSpace x ≠ header) (split_lines body) → header ≠ "" →
  ¬ HasPrefix header "Summary" = true → header ≠ "## Procedure Candidate" →
  Forall (λ x, TrimSpace x ≠ header) (split_lines (TrimRightSet body [byte 10]) ++ [""; "## Procedure Candidate"; ""] ++ summary_lines h).
Proof.
  intros Hb Hne Hh H2. apply Forall_app. split; [by apply TrimRightSet_lines|]. apply Forall_app. split; [by repeat constructor|].
  unfold summary_lines. destruct (blank _); [done|]. repeat constructor; [|done].
  change ("Summary: " +:+ ?x) with ("Summary" +:+ String ":" (" " +:+ x)). by apply label_line.
Qed.

(** The evidence read back from a plan.  In the artifact of a plan whose
    own lines have no such header, the guardrails read back are those attached;
    but the steps read back are the steps and then the guardrails, since the
    blank line between the sections does not end the first. *)
Theorem plan_evidence body metadata (h := procedureHintsFromMetadata metadata) :
  hasEvidence h = true → has_byte (byte 10) (h_Summary h) = false → has_byte (byte 10) (h_SuccessSignal h) = false →
  Forall (λ l, TrimSpace l ≠ "Steps:" ∧ TrimSpace l ≠ "Guardrails:") (split_lines body) →
  let text := attachProcedureHintsToPlan body metadata in
  markdownSectionBullets text "Steps:" = Join (entries (h_Steps h) ++ entries (h_Guardrails h)) newline ∧
  markdownSectionBullets text "Guardrails:" = Join (entries (h_Guardrails h)) newline.
Proof.
  intros He Hs Hx [Hb1 Hb2]%Forall_and. cbv zeta. unfold markdownSectionBullets. rewrite (plan_lines body metadata He Hs Hx). fold h.
  assert (blank (h_Guardrails h) = true → entries (h_Guardrails h) = []) as Hg.
  { unfold h. cbn [procedureHintsFromMetadata h_Guardrails]. rewrite blank_TrimSpace. intros ->%bool_decide_eq_true. done. }
  split; f_equal.
  - rewrite section_before by by apply head_other. cbn [section_bullets]. cbv zeta. rewrite decide_True by done.
    rewrite section_entries by (done || apply entries_spec). unfold guardrail_lines. destruct (blank (h_Guardrails h)) eqn:E.
    + rewrite Hg by done. rewrite app_nil_r. cbn [app]. rewrite <- (app_nil_r (last_lines h)). by rewrite section_other by by apply last_other.
    + change (("" :: "Guardrails:" :: ?l) ++ ?r) with (["" ; "Guardrails:"] ++ (l ++ r)). rewrite section_other by by repeat constructor.
      rewrite section_entries by (done || apply entries_spec). rewrite <- (app_nil_r (last_lines h)).
      by rewrite section_other by by apply last_other.
  - rewrite section_before by by apply head_other.
    change ("Steps:" :: ?l ++ ?r) with (("Steps:" :: l) ++ r). rewrite section_before by (constructor; [done|by apply bullets_other]).
    unfold guardrail_lines. destruct (blank (h_Guardrails h)) eqn:E.
    + rewrite Hg by done. cbn [app]. rewrite <- (app_nil_r (last_lines h)). rewrite section_before; [done|].
      apply (Forall_impl (other_line "Guardrails:")); [by apply last_other|]. by intros x [? _].
    + cbn [app section_bullets]. cbv zeta. cbn [negb]. rewrite decide_False by done. rewrite decide_True by done.
      rewrite section_entries by (done || apply entries_spec). rewrite <- (app_nil_r (last_lines h)).
      by rewrite section_other by by apply last_other.
Qed.
End plans.

(** ** Examples *)

#[local] Existing Instance caseless_tables.

Definition deploy_hints : gmap string string :=
  {["procedure_steps" := "build" +:+ newline +:+ "push"; "procedure_guardrails" := "never on Friday"; "procedure_summary" := "Deploys"]}.
Definition deploy_plan : string := line "# Task Plan" +:+ line "Next Step: go".
Lemma plan_evidence_witness :
  markdownSectionBullets (attachProcedureHintsToPlan deploy_plan deploy_hints) "Steps:" =
  Join ["build"; "push"; "never on Friday"] newline.
Proof.
  assert (hasEvidence (procedureHintsFromMetadata deploy_hints) = true) as H1 by (vm_compute; reflexivity).
  assert (Forall (λ l, TrimSpace l ≠ "Steps:" ∧ TrimSpace l ≠ "Guardrails:") (split_lines deploy_plan)) as H2
    by (apply (bool_decide_eq_true_1 _ (Decision0 := _)); vm_compute; reflexivity).
  exact (proj1 (plan_evidence deploy_plan deploy_hints H1 eq_refl eq_refl H2)).
Defined.
Example split_quotes : splitArgs "commit -m 'fix it' --author=me\ too" = ["commit"; "-m"; "fix it"; "--author=me too"].
Proof. vm_compute. reflexivity. Qed.
Example forwarded : normalizeEmailSubject " Re: FWD: Invoice " = "invoice".
Proof. vm_compute. reflexivity. Qed.
Example indented_object : print_indent 0 (JObj [("a", JNum f1); ("b", JArr [JStr "x"])]) =
  Join [dq "{"; dq "  'a': 1,"; dq "  'b': ["; dq "    'x'"; dq "  ]"; "}"] newline.
Proof. vm_compute. reflexivity. Qed.
