(* ===== verification/Skills.v ===== *)
(** * Skills ([skills/registry.go], [skills/manifest.go])

    The registry of skills, the manifests that add skills to it, and the saved
    state that switches skills on and off.  The theorems: what the registry
    holds is well-formed and keeps the built-in skills, a saved manifest is
    loaded, and what a broken manifest does to the saved state. *)
From S2P Require Import Prelude GoStrings GoNum GoText StatusDirs.
From S2P Require FsAccess.
Open Scope Z_scope.

(** ** Data *)

Record MaintenancePolicy := mkPolicy {
  mp_Enabled : bool; mp_Scope : string; AllowedCardTypes : list string; MinCandidates : Z }.
Record ExternalConfig := mkExternal {
  ex_Kind : string; Command : string; ex_Args : list string; ex_Env : gmap string string; WorkDir : string;
  TimeoutMS : Z; AllowWriteRoot : bool; RequireApproval : bool }.
(** The handlers of the built-in skills, and the closure [externalHandler]
    makes of the path of a manifest and its configuration. *)
Inductive Handler :=
  | runTaskPlan | runFileEdit | runFileRead | runShellCommand | runWebSearch | runGitHubIssueSearch | runEmailInbox
  | runMemoryConsolidate | externalHandler (manifestPath : string) (cfg : ExternalConfig).
Record SkillDefinition := mkDefinition {
  Name : string; Description : string; Source : string; Uses : string; Enabled : bool;
  DefaultMetadata : gmap string string; ExecutionProfile : string; skill_Handler : option Handler;
  Maintenance : option MaintenancePolicy; External : option ExternalConfig }.
Record Manifest := mkManifest {
  m_Version : Z; m_Name : string; m_Description : string; m_Uses : string; m_Enabled : option bool;
  m_DefaultMetadata : gmap string string; m_ExecutionProfile : string;
  m_Maintenance : option MaintenancePolicy; m_External : option ExternalConfig }.
Record ManifestStatus := mkStatus {
  ms_Version : Z; ms_Name : string; ms_Path : string; ms_Loaded : bool; ms_Source : string; ms_Uses : string;
  ms_ExternalKind : string; ms_Error : string }.

(** ** The registry *)

Abbreviation Registry := (gmap string SkillDefinition).

Definition with_name (d : SkillDefinition) (name : string) : SkillDefinition :=
  mkDefinition name (Description d) (Source d) (Uses d) (Enabled d) (DefaultMetadata d) (ExecutionProfile d) (skill_Handler d)
    (Maintenance d) (External d).
Definition with_enabled (d : SkillDefinition) (enabled : bool) : SkillDefinition :=
  mkDefinition (Name d) (Description d) (Source d) (Uses d) enabled (DefaultMetadata d) (ExecutionProfile d) (skill_Handler d)
    (Maintenance d) (External d).

(** An operation gives the message of its error or the new registry. *)
Definition Register (def : SkillDefinition) (r : Registry) : string + Registry :=
  let name := TrimSpace (Name def) in
  if decide (name = "") then inl "skill name is required"
  else match skill_Handler def with
  | None => inl ("skill " +:+ name +:+ " handler is required")
  | Some _ =>
      match r !! name with
      | Some _ => inl ("skill " +:+ name +:+ " already registered")
      | None => inr (<[name := with_name def name]> r)
      end
  end.
Definition Resolve (r : Registry) (name : string) : option SkillDefinition := r !! TrimSpace name.
Definition SetEnabled (name : string) (enabled : bool) (r : Registry) : string + Registry :=
  let name := TrimSpace name in
  if decide (name = "") then inl "skill name is required"
  else match r !! name with
  | None => inl ("skill " +:+ name +:+ " not registered")
  | Some def => inr (<[name := with_enabled def enabled]> r)
  end.
Definition by_name (a b : SkillDefinition) : Prop := String.le (Name a) (Name b).
#[export] Instance by_name_dec : RelDecision by_name.
Proof. intros a b. unfold by_name. apply _. Defined.
Definition List (r : Registry) : list SkillDefinition := merge_sort by_name (map_to_list r).*2.

Definition builtin (name description : string) (handler : Handler) (policy : option MaintenancePolicy) : SkillDefinition :=
  mkDefinition name description "builtin" "" true ∅ "" (Some handler) policy None.
Definition builtins : list SkillDefinition := [
  builtin "task-plan" "Generate a task plan and supporting procedure evidence." runTaskPlan
    (Some (mkPolicy true "project" ["procedure"] 1));
  builtin "file-edit" "Write files through the execution layer." runFileEdit None;
  builtin "file-read" "Read files through the execution layer." runFileRead None;
  builtin "shell-command" "Run shell commands through the execution layer." runShellCommand None;
  builtin "web-search" "Search the web and persist candidate memory." runWebSearch
    (Some (mkPolicy true "project" ["web_result"; "procedure"] 1));
  builtin "github-issue-search" "Search GitHub issues and persist candidate memory." runGitHubIssueSearch
    (Some (mkPolicy true "project" ["github_issue"; "procedure"] 1));
  builtin "email-inbox" "Read inbox messages and persist candidate memory." runEmailInbox
    (Some (mkPolicy true "user" ["email_thread"; "email_message"; "procedure"] 1));
  builtin "memory-consolidate" "Promote candidate memory into active durable memory." runMemoryConsolidate None].
(** [must(def)] panics when the registration fails. *)
Definition must (r : option Registry) (def : SkillDefinition) : option Registry :=
  r ← r; match Register def r with inl _ => None | inr r => Some r end.
Definition registerBuiltins (r : Registry) : option Registry := foldl must (Some r) builtins.

(** ** Manifests *)

(** [^[a-z0-9][a-z0-9_-]*$] *)
Definition name_head : list (Z * Z) := [(97, 122); (48, 57)].
Definition name_tail : list (Z * Z) := [(97, 122); (48, 57); (95, 95); (45, 45)].
Definition skillNamePattern : re := RCat (RClass name_head) (RStar (RClass name_tail)).
Definition normalizeManifest (m : Manifest) : Manifest :=
  if m_Version m =? 0 then
    mkManifest 1 (m_Name m) (m_Description m) (m_Uses m) (m_Enabled m) (m_DefaultMetadata m) (m_ExecutionProfile m)
      (m_Maintenance m) (m_External m)
  else m.
Definition copyExternalConfig (c : ExternalConfig) : ExternalConfig :=
  mkExternal (TrimSpace (ex_Kind c)) (TrimSpace (Command c)) (ex_Args c) (ex_Env c) (TrimSpace (WorkDir c)) (TimeoutMS c)
    (AllowWriteRoot c) (RequireApproval c).

Section manifests.
Context {tables : UnicodeTables}.
(** [strconv.Quote], and the message of a JSON error. *)
Variables (Quote : string → string) (decode_error : string).
(** [SkillsDir()] *)
Variable skillsDir : string.

Definition validate_policy (p : MaintenancePolicy) : option string :=
  let scope := TrimSpace (mp_Scope p) in
  if negb (bool_decide (scope ∈ [""; "project"; "user"])) then Some ("invalid maintenance_policy.scope " +:+ Quote scope)
  else if MinCandidates p <? 0 then Some "maintenance_policy.min_candidates must be >= 0"
  else if existsb blank (AllowedCardTypes p) then Some "maintenance_policy.allowed_card_types contains empty value"
  else None.
Definition validate_external (c : ExternalConfig) : option string :=
  if negb (bool_decide (TrimSpace (ex_Kind c) = "command")) then Some ("unsupported external.kind " +:+ Quote (TrimSpace (ex_Kind c)))
  else if blank (Command c) then Some "external.command is required"
  else if FsAccess.IsAbs (TrimSpace (Command c)) then Some "external.command must be relative to the manifest directory"
  else if TimeoutMS c <? 0 then Some "external.timeout_ms must be >= 0"
  else if FsAccess.IsAbs (TrimSpace (WorkDir c)) then Some "external.workdir must be relative to the manifest directory"
  else None.
(** The message of the error, if there is one. *)
Definition validateManifest (m : Manifest) : option string :=
  if m_Version m <? 0 then Some "version must be >= 0"
  else if 1 <? m_Version m then Some ("unsupported manifest version " +:+ Itoa (m_Version m))
  else let name := TrimSpace (m_Name m) in
  if decide (name = "") then Some "missing name"
  else if negb (re_match skillNamePattern (runes name)) then Some ("invalid name " +:+ Quote name)
  else let hasUses := negb (blank (m_Uses m)) in
  let hasExternal := bool_decide (is_Some (m_External m)) in
  if hasUses && hasExternal then Some "uses and external are mutually exclusive"
  else if negb hasUses && negb hasExternal then Some "either uses or external is required"
  else let profile := TrimSpace (m_ExecutionProfile m) in
  if negb (bool_decide (profile ∈ [""; "user"; "root"])) then Some ("invalid execution_profile " +:+ Quote profile)
  else match m_Maintenance m ≫= validate_policy with
  | Some e => Some e
  | None => m_External m ≫= validate_external
  end.

(** The definition a valid manifest stands for. *)
Definition manifest_enabled (m : Manifest) : bool := default true (m_Enabled m).
Definition describe (d : SkillDefinition) (name : string) : SkillDefinition :=
  if decide (Description d = "") then
    mkDefinition (Name d) name (Source d) (Uses d) (Enabled d) (DefaultMetadata d) (ExecutionProfile d) (skill_Handler d)
      (Maintenance d) (External d)
  else d.
Definition external_definition (path : string) (m : Manifest) (c : ExternalConfig) : SkillDefinition :=
  describe (mkDefinition (TrimSpace (m_Name m)) (TrimSpace (m_Description m)) "external" "" (manifest_enabled m)
    (m_DefaultMetadata m) (TrimSpace (m_ExecutionProfile m)) (Some (externalHandler path (copyExternalConfig c)))
    (m_Maintenance m) (Some (copyExternalConfig c))) (TrimSpace (m_Name m)).
Definition derived_definition (base : SkillDefinition) (m : Manifest) : SkillDefinition :=
  describe (mkDefinition (TrimSpace (m_Name m))
    (if blank (m_Description m) then Description base else TrimSpace (m_Description m)) "manifest" (TrimSpace (m_Uses m))
    (manifest_enabled m) (m_DefaultMetadata m) (TrimSpace (m_ExecutionProfile m)) (skill_Handler base)
    (match m_Maintenance m with Some p => Some p | None => Maintenance base end) (External base)) (TrimSpace (m_Name m)).
Definition manifest_definition (path : string) (m : Manifest) (r : Registry) : string + SkillDefinition :=
  match m_External m with
  | Some c => inr (external_definition path m c)
  | None =>
      match Resolve r (TrimSpace (m_Uses m)) with
      | Some base => inr (derived_definition base m)
      | None => inl ("skill manifest " +:+ path +:+ " references unknown handler " +:+ TrimSpace (m_Uses m))
      end
  end.

(** Load one manifest: its status, which holds the message of its error, and
    the registry. *)
Definition loadSkillManifest (path : string) (file : File Manifest) (r : Registry) : ManifestStatus * Registry :=
  match file with
  | Torn => (mkStatus 0 "" path false "" "" "" ("decode skill manifest " +:+ path +:+ ": " +:+ decode_error), r)
  | Doc m =>
      let m := normalizeManifest m in
      let status loaded source err := mkStatus (m_Version m) (TrimSpace (m_Name m)) path loaded source (TrimSpace (m_Uses m))
        (default "" (TrimSpace ∘ ex_Kind <$> m_External m)) err in
      match validateManifest m with
      | Some e => (status false "" ("validate skill manifest " +:+ path +:+ ": " +:+ e), r)
      | None =>
          match manifest_definition path m r with
          | inl e => (status false "" e, r)
          | inr def =>
              match Register def r with
              | inl e => (status false (Source def) ("register skill manifest " +:+ path +:+ ": " +:+ e), r)
              | inr r => (status true (Source def) "", r)
              end
          end
      end
  end.

(** ** The runner's skills

    The registry and the statuses in memory; the files of the skills directory
    and [state/skills.json] on disk. *)
Record System := mkSystem {
  registry : Registry; manifests : list ManifestStatus;
  skill_files : gmap string (File Manifest); skill_state : gmap unit (File (gmap string bool)) }.
Definition skills_lens : Lens System (gmap string (File Manifest)) :=
  mkLens skill_files (λ f s, mkSystem (registry s) (manifests s) (f (skill_files s)) (skill_state s)).
Definition state_lens : Lens System (gmap unit (File (gmap string bool))) :=
  mkLens skill_state (λ f s, mkSystem (registry s) (manifests s) (skill_files s) (f (skill_state s))).
Definition set_registry (r : Registry) (s : System) : System := mkSystem r (manifests s) (skill_files s) (skill_state s).

Definition manifest_names (files : gmap string (File Manifest)) : list string :=
  merge_sort String.le (filter (λ n, HasSuffix (ToLower n) ".json" = true) (map_to_list files).*1).
Definition load_next (files : gmap string (File Manifest)) (acc : list ManifestStatus * Registry) (name : string)
    : list ManifestStatus * Registry :=
  let '(statuses, r) := acc in
  let '(status, r) := loadSkillManifest (FsAccess.Join2 skillsDir name) (default Torn (files !! name)) r in
  (statuses ++ [status], r).
(** The message of the error, if there is one, and the state left. *)
Definition LoadSkillManifests (s : System) : option string * System :=
  let '(statuses, r) := foldl (load_next (skill_files s)) ([], registry s) (manifest_names (skill_files s)) in
  let failures := filter (λ e, e ≠ "") (ms_Error <$> statuses) in
  (if decide (failures = []) then None else Some ("skill manifest load failures: " +:+ Join failures "; "),
   mkSystem r statuses (skill_files s) (skill_state s)).

Definition loadSkillState (s : System) : option (gmap string bool) :=
  match skill_state s !! tt with Some (Doc st) => Some st | Some Torn => None | None => Some ∅ end.
Definition saveSkillState (st : gmap string bool) : M System unit := WriteFile state_lens tt st.

(** [ord] is the order in which the saved switches are visited. *)
Fixpoint apply_overrides (st : gmap string bool) (ord : list string) (r : Registry) : option string * Registry :=
  match ord with
  | [] => (None, r)
  | name :: ord =>
      match Resolve r name with
      | None => apply_overrides st ord r
      | Some _ =>
          match SetEnabled name (default false (st !! name)) r with
          | inl e => (Some e, r)
          | inr r => apply_overrides st ord r
          end
      end
  end.
Definition applySkillStateOverrides (ord : list string) (s : System) : option string * System :=
  match loadSkillState s with
  | None => (Some decode_error, s)
  | Some st => let '(e, r) := apply_overrides st ord (registry s) in (e, set_registry r s)
  end.

Definition ReloadSkills (ord : list string) : M System (option string) := λ s w,
  match registerBuiltins ∅ with
  | None => (Err EPanic, set_registry ∅ s, w)
  | Some r =>
      match LoadSkillManifests (set_registry r s) with
      | (Some e, s) => (Ok (Some e), s, w)
      | (None, s) => let '(e, s) := applySkillStateOverrides ord s in (Ok e, s, w)
      end
  end.

Definition SetSkillEnabled (ord : list string) (name : string) (enabled : bool) : M System (option string) :=
  let name := TrimSpace name in
  if decide (name = "") then mret (Some "skill name is required") else
  s ← get;
  match Resolve (registry s) name with
  | None => mret (Some ("skill " +:+ name +:+ " not registered"))
  | Some _ =>
      match loadSkillState s with
      | None => mret (Some decode_error)
      | Some st => _ ← saveSkillState (<[name := enabled]> st); ReloadSkills ord
      end
  end.

(** The path of the manifest, and the message of the error. *)
Definition SaveManifest (ord : list string) (m : Manifest) : M System (string * option string) :=
  let m := normalizeManifest m in
  match validateManifest m with
  | Some e => mret ("", Some e)
  | None =>
      let name := TrimSpace (m_Name m) +:+ ".json" in
      _ ← WriteFile skills_lens name m;
      e ← ReloadSkills ord;
      mret (FsAccess.Join2 skillsDir name, e)
  end.
(** The file a name stands for, if the name is valid. *)
Definition LoadManifestFile (name : string) (s : System) : option (File Manifest) :=
  let name := TrimSpace name in
  if re_match skillNamePattern (runes name) then skill_files s !! (name +:+ ".json") else None.

Definition ListSkills (s : System) : list SkillDefinition := List (registry s).
Definition NewRunner (ord : list string) (files : gmap string (File Manifest)) (st : gmap unit (File (gmap string bool)))
    : M unit System := λ u w,
  match ReloadSkills ord (mkSystem ∅ [] files st) w with
  | (Ok _, s, w) => (Ok s, u, w)
  | (Err e, _, w) => (Err e, u, w)
  end.
End manifests.

(** ** What the registry holds *)

Section facts.
Context {tables : UnicodeTables}.
Variables (Quote : string → string) (decode_error : string) (skillsDir : string).

(** A definition has a handler, a known profile, and runs as an external
    command only what its configuration names below its manifest. *)
Definition handler_ok (h : Handler) : Prop :=
  match h with
  | externalHandler path cfg =>
      (∃ file, path = FsAccess.Join2 skillsDir file) ∧ ex_Kind cfg = "command" ∧ Command cfg ≠ "" ∧
      FsAccess.IsAbs (Command cfg) = false ∧ FsAccess.IsAbs (WorkDir cfg) = false ∧ 0 <= TimeoutMS cfg
  | _ => True
  end.
Definition definition_ok (d : SkillDefinition) : Prop :=
  ExecutionProfile d ∈ [""; "user"; "root"] ∧ ∃ h, skill_Handler d = Some h ∧ handler_ok h.
(** The registry lists its definitions under their trimmed names, and has the
    built-in skills with their own handlers. *)
Definition names_ok (r : Registry) : Prop := ∀ k d, r !! k = Some d →
  Name d = k ∧ TrimSpace k = k ∧ k ≠ "" ∧ definition_ok d.
Definition builtins_in (r : Registry) : Prop := ∀ b, b ∈ builtins →
  ∃ enabled, r !! Name b = Some (with_enabled b enabled).
Definition registry_ok (r : Registry) : Prop := names_ok r ∧ builtins_in r.

Lemma names_ok_empty : names_ok ∅.
Proof. intros k d H. by rewrite lookup_empty in H. Qed.
Lemma Register_names def r r' : names_ok r → definition_ok def → Register def r = inr r' → names_ok r'.
Proof.
  intros Hr Hd. unfold Register. case_decide as Hn; [done|]. destruct (skill_Handler def) as [h|] eqn:Eh; [|done].
  destruct (r !! TrimSpace (Name def)) eqn:E; [done|]. intros [= <-] k d [[<- <-]|[Hne H]]%lookup_insert_Some; [|by apply Hr].
  split_and!; [done|apply TrimSpace_idemp|done|]. destruct Hd as [Hp Hh]. by split.
Qed.
(** Registration adds; it changes no definition. *)
Lemma Register_keeps def r r' k d : Register def r = inr r' → r !! k = Some d → r' !! k = Some d.
Proof.
  unfold Register. case_decide as Hn; [done|]. destruct (skill_Handler def); [|done].
  destruct (r !! TrimSpace (Name def)) eqn:E; [done|]. intros [= <-] H. rewrite lookup_insert_ne; [done|]. congruence.
Qed.
Lemma SetEnabled_names name enabled r r' : names_ok r → SetEnabled name enabled r = inr r' → names_ok r'.
Proof.
  intros Hr. unfold SetEnabled. case_decide as Hn; [done|]. destruct (r !! TrimSpace name) as [def|] eqn:E; [|done].
  intros [= <-] k d [[<- <-]|[Hne H]]%lookup_insert_Some; [|by apply Hr].
  destruct (Hr _ _ E) as (H1 & H2 & H3 & H4). by split_and!.
Qed.
Lemma SetEnabled_builtins name enabled r r' : builtins_in r → SetEnabled name enabled r = inr r' → builtins_in r'.
Proof.
  intros Hb. unfold SetEnabled. case_decide as Hn; [done|]. destruct (r !! TrimSpace name) as [def|] eqn:E; [|done].
  intros [= <-] b Hin. destruct (Hb b Hin) as [e He]. destruct (decide (TrimSpace name = Name b)) as [Heq|Hne].
  - rewrite Heq in *. rewrite lookup_insert_eq. rewrite E in He. injection He as ->. by exists enabled.
  - rewrite lookup_insert_ne by done. by exists e.
Qed.

(** *** The built-in skills *)

Definition boot : Registry := default ∅ (registerBuiltins ∅).
Lemma registerBuiltins_boot : registerBuiltins ∅ = Some boot.
Proof.
  assert (match registerBuiltins ∅ with Some _ => true | None => false end = true) as H by (vm_compute; reflexivity).
  unfold boot. by destruct (registerBuiltins ∅).
Qed.
Lemma builtins_ok : Forall definition_ok builtins.
Proof. repeat constructor; by eexists. Qed.
Lemma boot_names : names_ok boot.
Proof.
  pose proof registerBuiltins_boot as E. revert E. unfold registerBuiltins.
  assert (∀ l r r', Forall definition_ok l → names_ok r → foldl must (Some r) l = Some r' → names_ok r') as H.
  { induction l as [|d l IH]; intros r r' Hl Hr; cbn [foldl]; [by intros [= <-]|]. apply Forall_cons in Hl as [Hd Hl].
    change (must (Some r) d) with (match Register d r with inl _ => None | inr r => Some r end).
    destruct (Register d r) as [e|r1] eqn:E1; [|apply IH; [done|by eapply Register_names]].
    assert (foldl must None l = None) as ->; [|done]. by clear; induction l. }
  apply H; [apply builtins_ok|apply names_ok_empty].
Qed.
Lemma boot_builtins b : b ∈ builtins → boot !! Name b = Some b.
Proof.
  assert (Forall (λ b, boot !! Name b = Some b) builtins) as H by (vm_compute; repeat constructor).
  intros Hb. by eapply Forall_forall in H.
Qed.

(** *** Manifests *)

(** What a valid manifest satisfies. *)
Lemma valid_manifest m : validateManifest Quote m = None →
  TrimSpace (m_Name m) ≠ "" ∧ re_match skillNamePattern (runes (TrimSpace (m_Name m))) = true ∧
  TrimSpace (m_ExecutionProfile m) ∈ [""; "user"; "root"] ∧
  (∀ c, m_External m = Some c → validate_external Quote c = None).
Proof.
  unfold validateManifest. cbv zeta. destruct (m_Version m <? 0); [done|]. destruct (1 <? m_Version m); [done|].
  case_decide as Hn; [done|]. destruct (re_match _ _); [cbn [negb]|done]. destruct (negb (blank _) && _); [done|].
  destruct (negb _ && negb _); [done|]. case_bool_decide as Hp; cbn [negb]; [|done].
  destruct (m_Maintenance m ≫= _); [done|]. intros H. split_and!; [done..|]. intros c Ec. by rewrite Ec in H.
Qed.
Lemma valid_external c : validate_external Quote c = None →
  TrimSpace (ex_Kind c) = "command" ∧ TrimSpace (Command c) ≠ "" ∧ FsAccess.IsAbs (TrimSpace (Command c)) = false ∧
  FsAccess.IsAbs (TrimSpace (WorkDir c)) = false ∧ 0 <= TimeoutMS c.
Proof.
  unfold validate_external, blank. case_bool_decide; cbn [negb]; [|done]. case_bool_decide; [done|].
  destruct (FsAccess.IsAbs (TrimSpace (Command c))); [done|]. destruct (Z.ltb_spec (TimeoutMS c) 0); [done|].
  by destruct (FsAccess.IsAbs (TrimSpace (WorkDir c))).
Qed.
Lemma describe_ok d name : definition_ok d → definition_ok (describe d name).
Proof. unfold describe. by case_decide. Qed.
Lemma manifest_definition_ok path m r def : (∃ file, path = FsAccess.Join2 skillsDir file) →
  names_ok r → validateManifest Quote m = None → manifest_definition path m r = inr def → definition_ok def.
Proof.
  intros Hpath Hr (_ & _ & Hp & Hv)%valid_manifest. unfold manifest_definition. destruct (m_External m) as [c|].
  - destruct (valid_external c (Hv c eq_refl)) as (H1 & H2 & H3 & H4 & H5). intros [= <-]. apply describe_ok.
    split; [exact Hp|]. eexists. split; [reflexivity|]. by split_and!.
  - destruct (Resolve r (TrimSpace (m_Uses m))) as [base|] eqn:Eb; [|done]. intros [= <-]. apply describe_ok.
    apply Hr in Eb as (_ & _ & _ & _ & Hh). by split.
Qed.
Lemma load_next_spec files l (P : Registry → Prop) :
  (∀ name m r def r', P r → names_ok r → validateManifest Quote m = None →
     manifest_definition (FsAccess.Join2 skillsDir name) m r = inr def → Register def r = inr r' → P r') →
  ∀ acc, P acc.2 ∧ names_ok acc.2 →
  let acc' := foldl (load_next Quote decode_error skillsDir files) acc l in P acc'.2 ∧ names_ok acc'.2.
Proof.
  intros HP. induction l as [|name l IH]; intros [statuses r] [Hr Hn]; [done|]. cbn [foldl]. apply IH.
  unfold load_next, loadSkillManifest. destruct (default Torn (files !! name)) as [m|]; [|done].
  set (m' := normalizeManifest m). destruct (validateManifest Quote m') eqn:Ev; [done|].
  destruct (manifest_definition _ m' r) as [e|def] eqn:Ed; [done|]. destruct (Register def r) as [e|r'] eqn:Er; [done|].
  cbn [snd]. split; [by eapply HP|]. eapply Register_names; [exact Hn| |exact Er].
  eapply manifest_definition_ok; [by eexists|exact Hn|exact Ev|exact Ed].
Qed.

(** *** Reloading *)

Abbreviation load_all files acc := (foldl (load_next Quote decode_error skillsDir files) acc (manifest_names files)).
Lemma load_all_ok files acc : names_ok acc.2 → (∀ b, b ∈ builtins → acc.2 !! Name b = Some b) →
  names_ok (load_all files acc).2 ∧ ∀ b, b ∈ builtins → (load_all files acc).2 !! Name b = Some b.
Proof.
  intros Hn Hb.
  destruct (load_next_spec files (manifest_names files) (λ r, ∀ b, b ∈ builtins → r !! Name b = Some b)) with (acc := acc)
    as [H1 H2]; [|by split|by split].
  intros name m r def r' Hr _ _ _ E b Hin. eapply Register_keeps; [exact E|]. by apply Hr.
Qed.
Lemma boot_loaded files : names_ok (load_all files ([], boot)).2 ∧ ∀ b, b ∈ builtins → (load_all files ([], boot)).2 !! Name b = Some b.
Proof. apply load_all_ok; [apply boot_names|apply boot_builtins]. Qed.
Lemma builtins_in_exact r : (∀ b, b ∈ builtins → r !! Name b = Some b) → builtins_in r.
Proof.
  intros H b Hb. exists (Enabled b). rewrite H by done. by destruct b.
Qed.
Lemma apply_overrides_ok st ord r : registry_ok r → registry_ok (apply_overrides st ord r).2.
Proof.
  revert r. induction ord as [|name ord IH]; intros r Hr; [done|]. cbn [apply_overrides].
  destruct (Resolve r name); [|by apply IH]. destruct (SetEnabled name _ r) as [e|r'] eqn:E; [done|]. apply IH.
  destruct Hr as [Hn Hb]. split; [by eapply SetEnabled_names|by eapply SetEnabled_builtins].
Qed.
Lemma LoadSkillManifests_run s :
  LoadSkillManifests Quote decode_error skillsDir (set_registry boot s) =
  let '(statuses, r) := load_all (skill_files s) ([], boot) in
  let failures := filter (λ e, e ≠ "") (ms_Error <$> statuses) in
  (if decide (failures = []) then None else Some ("skill manifest load failures: " +:+ Join failures "; "),
   mkSystem r statuses (skill_files s) (skill_state s)).
Proof. done. Qed.

Inductive SkillOp :=
  | OReload (ord : list string) | OSet (ord : list string) (name : string) (enabled : bool)
  | OSave (ord : list string) (m : Manifest).
Definition run_op (op : SkillOp) : M System unit :=
  match op with
  | OReload ord => _ ← ReloadSkills Quote decode_error skillsDir ord; mret tt
  | OSet ord name enabled => _ ← SetSkillEnabled Quote decode_error skillsDir ord name enabled; mret tt
  | OSave ord m => _ ← SaveManifest Quote decode_error skillsDir ord m; mret tt
  end.
Definition skills_ok (s : System) : Prop := registry_ok (registry s).

Lemma ReloadSkills_ok ord s w : skills_ok (ReloadSkills Quote decode_error skillsDir ord s w).1.2.
Proof.
  unfold ReloadSkills. rewrite registerBuiltins_boot, LoadSkillManifests_run. pose proof (boot_loaded (skill_files s)) as [Hn Hb].
  destruct (load_all (skill_files s) ([], boot)) as [statuses r]. cbn [snd] in Hn, Hb.
  assert (registry_ok r) as Hr by (split; [done|by apply builtins_in_exact]).
  cbv beta zeta iota. case_decide; [|exact Hr]. unfold applySkillStateOverrides. destruct (loadSkillState _) as [st|]; [|exact Hr].
  cbn [registry]. pose proof (apply_overrides_ok st ord r Hr) as Ha. by destruct (apply_overrides st ord r).
Qed.
Lemma preserves_reload ord : preserves skills_ok (ReloadSkills Quote decode_error skillsDir ord).
Proof. intros s w _. pose proof (ReloadSkills_ok ord s w) as H. by destruct (ReloadSkills _ _ _ _ s w) as [[? ?] ?]. Qed.
Lemma preserves_state st : preserves skills_ok (saveSkillState st).
Proof. by apply preserves_WriteFile. Qed.
Lemma preserves_manifest name m : preserves skills_ok (WriteFile skills_lens name m).
Proof. by apply preserves_WriteFile. Qed.
#[local] Hint Resolve preserves_reload preserves_state preserves_manifest : hoare.

(** C24. The registry is well-formed after any operation, on any disk and under
    any fault: every skill is listed under its own trimmed name, has a handler
    and a known profile, an external one runs a relative command of its own
    manifest; and no manifest replaces or removes a built-in skill.  A reload
    establishes this from any state. *)
Theorem skills_well_formed :
  (∀ ord s w, skills_ok (exec (run_op (OReload ord)) s w)) ∧ (∀ op, preserves skills_ok (run_op op)).
Proof.
  split.
  - intros ord s w. unfold exec, run_op. rewrite bind_eq. pose proof (ReloadSkills_ok ord s w) as H.
    by destruct (ReloadSkills _ _ _ _ s w) as [[[?|?] ?] ?].
  - intros [ord|ord name enabled|ord m]; unfold run_op, SetSkillEnabled, SaveManifest; preserves_tac.
Qed.

(** *** The saved switches *)

Definition switched (st : gmap string bool) (k : string) (d : SkillDefinition) : SkillDefinition :=
  match st !! k with Some enabled => with_enabled d enabled | None => d end.
Lemma with_enabled_names r k d enabled : names_ok r → r !! k = Some d → names_ok (<[k := with_enabled d enabled]> r).
Proof.
  intros Hr E k' d' [[<- <-]|[Hne H]]%lookup_insert_Some; [|by apply Hr]. destruct (Hr _ _ E) as (H1 & H2 & H3 & H4). by split_and!.
Qed.
Lemma apply_overrides_run st ord r : names_ok r → NoDup ord → (∀ k, k ∈ ord → TrimSpace k = k ∧ is_Some (st !! k)) →
  ∃ r', apply_overrides st ord r = (None, r') ∧
    ∀ k, r' !! k = (λ d, if decide (k ∈ ord) then switched st k d else d) <$> r !! k.
Proof.
  intros Hr Hnd Hk. revert r Hr. induction Hnd as [|name ord Hnin _ IH]; intros r Hr.
  { exists r. split; [done|]. intros k. destruct (r !! k); [|done]. cbn. rewrite decide_False by (by intros ?%elem_of_nil). done. }
  assert (∀ k, k ∈ ord → TrimSpace k = k ∧ is_Some (st !! k)) as Hk' by (intros k H; apply Hk; by right).
  destruct (Hk name ltac:(by left)) as [Htrim [enabled Hst]]. cbn [apply_overrides]. unfold Resolve. rewrite Htrim.
  assert (∀ k (d : SkillDefinition), k ≠ name →
    (if decide (k ∈ ord) then switched st k d else d) = (if decide (k ∈ name :: ord) then switched st k d else d)) as Hother.
  { intros k d Hne. destruct (decide (k ∈ ord)), (decide (k ∈ name :: ord)) as [H|H]; try done.
    - destruct H. by right.
    - by apply elem_of_cons in H as [?|?]. }
  destruct (r !! name) as [d|] eqn:E.
  - unfold SetEnabled. rewrite Htrim. rewrite decide_False by apply (Hr _ _ E). rewrite E, Hst. cbn [default].
    destruct (IH Hk' _ (with_enabled_names _ _ _ enabled Hr E)) as (r' & Hrun & Hl). exists r'. split; [exact Hrun|].
    intros k. rewrite Hl. destruct (decide (k = name)) as [->|Hne].
    + rewrite lookup_insert_eq, E. cbn. rewrite decide_False by done. rewrite decide_True by by left. unfold switched. by rewrite Hst.
    + rewrite lookup_insert_ne by done. destruct (r !! k) as [d'|]; [|done]. cbn. f_equal. by apply Hother.
  - destruct (IH Hk' r Hr) as (r' & Hrun & Hl). exists r'. split; [exact Hrun|]. intros k. rewrite Hl.
    destruct (decide (k = name)) as [->|Hne]; [by rewrite E|]. destruct (r !! k) as [d'|]; [|done]. cbn. f_equal. by apply Hother.
Qed.

(** The names of the saved switches are trimmed. *)
Definition trimmed_keys (st : gmap string bool) : Prop := ∀ k, is_Some (st !! k) → TrimSpace k = k.
Lemma overrides_run st ord r : names_ok r → range_of st ord → trimmed_keys st →
  ∃ r', apply_overrides st ord r = (None, r') ∧ ∀ k, r' !! k = switched st k <$> r !! k.
Proof.
  intros Hr [Hnd Hord] Ht.
  destruct (apply_overrides_run st ord r Hr Hnd) as (r' & Hrun & Hl).
  { intros k Hk%Hord%elem_of_dom. split; [by apply Ht|done]. }
  exists r'. split; [done|]. intros k. rewrite Hl. destruct (r !! k) as [d|]; [|done]. cbn. f_equal.
  case_decide as H; [done|]. unfold switched. destruct (st !! k) eqn:E; [|done]. exfalso. apply H, Hord, elem_of_dom. by eexists.
Qed.

(** What a reload computes when every manifest loads. *)
Lemma reload_run ord s w s' w' st : range_of st ord → trimmed_keys st → loadSkillState s = Some st →
  ReloadSkills Quote decode_error skillsDir ord s w = (Ok None, s', w') ↔
  let loaded := load_all (skill_files s) ([], boot) in
  filter (λ e, e ≠ "") (ms_Error <$> loaded.1) = [] ∧ w' = w ∧
  ∃ r, s' = mkSystem r loaded.1 (skill_files s) (skill_state s) ∧ ∀ k, r !! k = switched st k <$> loaded.2 !! k.
Proof.
  intros Hord Ht Hst. unfold ReloadSkills. rewrite registerBuiltins_boot, LoadSkillManifests_run.
  pose proof (boot_loaded (skill_files s)) as [Hn _]. destruct (load_all (skill_files s) ([], boot)) as [statuses r]. cbn [fst snd] in *.
  cbv beta zeta iota. destruct (overrides_run st ord r Hn Hord Ht) as (r' & Hrun & Hl).
  case_decide as Hf; [|split; [done|by intros (? & _)]]. unfold applySkillStateOverrides.
  change (loadSkillState (mkSystem r statuses (skill_files s) (skill_state s))) with (loadSkillState s). rewrite Hst. cbn [registry].
  rewrite Hrun. unfold set_registry. cbn [manifests skill_files skill_state]. split.
  - intros [= <- <-]. split_and!; [done..|]. by exists r'.
  - intros (_ & -> & r2 & -> & Hl2). repeat f_equal. apply map_eq. intros k. by rewrite Hl, Hl2.
Qed.

(** Switching a skill on or off is exact and lasting.  When the registry is
    what the files say and the disk works, [SetSkillEnabled] changes the
    switch of that one skill in the registry and in the saved state, and
    reloading everything from the disk gives the same registry again. *)
Theorem SetSkillEnabled_exact ord ord' name enabled s w st d :
  reliable w → ReloadSkills Quote decode_error skillsDir ord s w = (Ok None, s, w) →
  loadSkillState s = Some st → trimmed_keys st → range_of st ord →
  range_of (<[TrimSpace name := enabled]> st) ord' → Resolve (registry s) name = Some d →
  ∃ s' w', SetSkillEnabled Quote decode_error skillsDir ord' name enabled s w = (Ok None, s', w') ∧
    registry s' = <[TrimSpace name := with_enabled d enabled]> (registry s) ∧
    loadSkillState s' = Some (<[TrimSpace name := enabled]> st) ∧
    ReloadSkills Quote decode_error skillsDir ord' s' w' = (Ok None, s', w').
Proof.
  intros Hw Hcur Hst Ht Hord Hord' Hd. set (n := TrimSpace name) in *. unfold Resolve in Hd. fold n in Hd.
  assert (trimmed_keys (<[n := enabled]> st)) as Ht'.
  { intros k [e [[<- _]|[_ H]]%lookup_insert_Some]; [apply TrimSpace_idemp|apply Ht; by eexists]. }
  apply reload_run with (st := st) in Hcur as (Hok & _ & r & Hs & Hr); [|done..].
  assert (registry s = r) as Hreg by (rewrite Hs; done). rewrite <- Hreg in Hr.
  assert (n ≠ "") as Hne.
  { rewrite Hr in Hd. pose proof (boot_loaded (skill_files s)) as [Hn _]. intros En. rewrite En in Hd.
    destruct ((load_all (skill_files s) ([], boot)).2 !! "") eqn:E; [|done]. by destruct (Hn _ _ E) as (_ & _ & ? & _). }
  unfold SetSkillEnabled. fold n. rewrite decide_False by done. rewrite bind_eq. cbn [get]. unfold Resolve. unfold n at 1. rewrite TrimSpace_idemp. fold n.
  rewrite Hd, Hst. unfold saveSkillState. rewrite bind_eq, WriteFile_reliable by done.
  set (s1 := over state_lens _ s).
  assert (loadSkillState s1 = Some (<[n := enabled]> st)) as Hst1 by (unfold loadSkillState, s1; cbn; by rewrite lookup_insert_eq).
  set (r2 := <[n := with_enabled d enabled]> (registry s)).
  set (s2 := mkSystem r2 (load_all (skill_files s) ([], boot)).1 (skill_files s1) (skill_state s1)).
  assert (∀ s0, skill_files s0 = skill_files s → skill_state s0 = skill_state s1 →
    ReloadSkills Quote decode_error skillsDir ord' s0 (advance w) = (Ok None, s2, advance w)) as Hreload.
  { intros s0 Hf Hs0. apply reload_run with (st := <[n := enabled]> st); [done|done|unfold loadSkillState; rewrite Hs0; exact Hst1|].
    cbv zeta. rewrite Hf. split_and!; [done|done|]. exists r2. split; [unfold s2; by rewrite Hs0|]. intros k. unfold r2, switched.
    destruct (decide (n = k)) as [<-|Hk].
    - rewrite !lookup_insert_eq. rewrite Hr in Hd. destruct ((load_all (skill_files s) ([], boot)).2 !! n) as [d0|]; [|done].
      injection Hd as <-. cbn. f_equal. unfold switched. by destruct (st !! n).
    - rewrite !lookup_insert_ne by done. rewrite Hr. done. }
  exists s2, (advance w). split_and!; [by apply Hreload|done|exact Hst1|by apply Hreload].
Qed.

(** *** Manifests that load and manifests that do not *)

Abbreviation load_list files := (foldl (load_next Quote decode_error skillsDir files)).
Lemma load_list_statuses files l acc : ∃ new, (load_list files acc l).1 = acc.1 ++ new.
Proof.
  revert acc. induction l as [|name l IH]; intros [statuses r]; [by exists []; rewrite app_nil_r|]. cbn [foldl].
  unfold load_next at 2. destruct (loadSkillManifest _ _ _ _ r) as [status r']. destruct (IH (statuses ++ [status], r')) as [new ->].
  exists (status :: new). cbn. by rewrite <- app_assoc.
Qed.
Lemma load_list_keeps files l acc k d : names_ok acc.2 → acc.2 !! k = Some d → (load_list files acc l).2 !! k = Some d.
Proof.
  intros Hn Hk. apply (load_next_spec files l (λ r, r !! k = Some d)); [|by split].
  intros name m r def r' Hr _ _ _ E. by eapply Register_keeps.
Qed.
(** A broken file leaves an error. *)
Lemma load_list_torn files l acc name : name ∈ l → files !! name = Some Torn →
  filter (λ e, e ≠ "") (ms_Error <$> (load_list files acc l).1) ≠ [].
Proof.
  intros Hin Hf. revert acc. induction l as [|n l IH]; intros [statuses r]; [by apply elem_of_nil in Hin|]. cbn [foldl].
  apply elem_of_cons in Hin as [->|Hin]; [|by apply IH]. unfold load_next at 2. rewrite Hf. cbn [default id loadSkillManifest]. cbv beta iota.
  match goal with |- context [load_list files ?a l] => destruct (load_list_statuses files l a) as [new ->] end. cbn [fst].
  rewrite <- app_assoc, fmap_app, filter_app, fmap_app, filter_app. cbn [fmap list_fmap ms_Error].
  rewrite filter_cons_True by done. intros [_ [H _]%app_eq_nil]%app_eq_nil; discriminate H.
Qed.
(** Without errors every manifest is in the registry as it is described. *)
Definition loaded_as (name : string) (m : Manifest) (r : Registry) : Prop :=
  ∃ r0 def, manifest_definition (FsAccess.Join2 skillsDir name) m r0 = inr def ∧ r !! TrimSpace (Name def) = Some (with_name def (TrimSpace (Name def))).
Lemma load_list_loaded files l acc name m : names_ok acc.2 → name ∈ l → files !! name = Some (Doc m) →
  filter (λ e, e ≠ "") (ms_Error <$> (load_list files acc l).1) = [] → loaded_as name (normalizeManifest m) (load_list files acc l).2.
Proof.
  intros Hn Hin Hf. revert acc Hn. induction l as [|n l IH]; intros [statuses r] Hn Herr; [by apply elem_of_nil in Hin|]. cbn [foldl] in *.
  destruct (decide (n = name)) as [->|Hne].
  - clear IH. unfold load_next at 2 in Herr. unfold load_next at 2. rewrite Hf in *. cbn [default id] in *.
    destruct (loadSkillManifest Quote decode_error _ (Doc m) r) as [status r'] eqn:E.
    destruct (load_list_statuses files l (statuses ++ [status], r')) as [new Hnew]. rewrite Hnew in Herr. cbn [fst] in Herr.
    rewrite <- app_assoc, fmap_app, filter_app, fmap_app, filter_app in Herr. apply app_eq_nil in Herr as [_ Herr].
    apply app_eq_nil in Herr as [Herr _]. cbn [fmap list_fmap] in Herr.
    assert (ms_Error status = "") as Hs.
    { apply dec_stable. intros Hs. by rewrite filter_cons_True in Herr. }
    revert E. cbn [loadSkillManifest]. set (m' := normalizeManifest m). destruct (validateManifest Quote m') eqn:Ev.
    { intros [= <- _]. done. }
    destruct (manifest_definition (FsAccess.Join2 skillsDir name) m' r) as [e|def] eqn:Ed.
    { intros [= <- _]. cbn in Hs. subst e. exfalso. revert Ed. unfold manifest_definition. destruct (m_External m'); [done|]. by destruct (Resolve _ _). }
    destruct (Register def r) as [e|r1] eqn:Er; intros [= <- <-]; [done|]. exists r, def. split; [exact Ed|].
    apply load_list_keeps; cbn [snd].
    + eapply Register_names; [exact Hn| |exact Er]. eapply manifest_definition_ok; [by eexists|exact Hn|exact Ev|exact Ed].
    + revert Er. unfold Register. case_decide; [done|]. destruct (skill_Handler def); [|done]. destruct (r !! _); [done|].
      intros [= <-]. by rewrite lookup_insert_eq.
  - apply elem_of_cons in Hin as [->|Hin]; [done|]. apply IH; [done| |done].
    pose proof (load_next_spec files [n] (λ _, True) (λ _ _ _ _ _ _ _ _ _ _, I) (statuses, r) (conj I Hn)) as [_ H]. exact H.
Qed.

Lemma elem_of_manifest_names files name : name ∈ manifest_names files ↔ HasSuffix (ToLower name) ".json" = true ∧ is_Some (files !! name).
Proof.
  unfold manifest_names. rewrite (merge_sort_Permutation String.le), list_elem_of_filter, list_elem_of_fmap. split.
  - intros (H & (k & f) & -> & Hk%elem_of_map_to_list). split; [done|by eexists].
  - intros (H & f & Hf). split; [done|]. exists (name, f). split; [done|]. by apply elem_of_map_to_list.
Qed.

(** One broken manifest switches every built-in skill back on.  A reload
    that meets a manifest it cannot decode reports the failure and leaves all
    the built-in skills enabled, whatever the saved state says: the saved
    switches are not applied. *)
Theorem broken_manifest_reenables ord s w name b :
  HasSuffix (ToLower name) ".json" = true → skill_files s !! name = Some Torn → b ∈ builtins →
  ∃ e s', ReloadSkills Quote decode_error skillsDir ord s w = (Ok (Some e), s', w) ∧ registry s' !! Name b = Some b ∧ Enabled b = true.
Proof.
  intros Hj Hf Hb. unfold ReloadSkills. rewrite registerBuiltins_boot, LoadSkillManifests_run.
  pose proof (boot_loaded (skill_files s)) as [_ Hl]. pose proof (load_list_torn (skill_files s) (manifest_names (skill_files s)) ([], boot) name) as Ht.
  destruct (load_all (skill_files s) ([], boot)) as [statuses r]. cbn [fst snd] in *. cbv beta zeta iota.
  rewrite decide_False by (apply Ht; [apply elem_of_manifest_names; split; [done|by eexists]|done]).
  eexists _, _. split; [reflexivity|]. split; [by apply Hl|].
  assert (Forall (λ b, Enabled b = true) builtins) as He by by repeat constructor. by eapply Forall_forall in He.
Qed.

(** *** Saving a manifest *)

(** Overrides keep every definition but for its switch. *)
Lemma apply_overrides_keeps st ord r k d : r !! k = Some d →
  ∃ enabled, (apply_overrides st ord r).2 !! k = Some (with_enabled d enabled).
Proof.
  assert (∀ enabled, r !! k = Some (with_enabled d enabled) →
    ∃ enabled, (apply_overrides st ord r).2 !! k = Some (with_enabled d enabled)) as H.
  { revert r. induction ord as [|name ord IH]; intros r enabled Hk; [by exists enabled|]. cbn [apply_overrides].
    destruct (Resolve r name); [|by eapply IH]. unfold SetEnabled. case_decide; [by exists enabled|].
    destruct (r !! TrimSpace name) as [d'|] eqn:E; [|by exists enabled].
    destruct (decide (TrimSpace name = k)) as [Hn|Hn].
    - rewrite Hn in *. rewrite Hk in E. injection E as <-. eapply IH. by rewrite lookup_insert_eq.
    - eapply IH. by rewrite lookup_insert_ne. }
  intros Hk. apply (H (Enabled d)). rewrite Hk. by destruct d.
Qed.
(** A reload returns, changes no file, and without an error its registry is
    what the manifests describe but for the switches. *)
Lemma reload_keeps ord s w : ∃ e s', ReloadSkills Quote decode_error skillsDir ord s w = (Ok e, s', w) ∧
  skill_files s' = skill_files s ∧ skill_state s' = skill_state s ∧
  (e = None → filter (λ e, e ≠ "") (ms_Error <$> (load_all (skill_files s) ([], boot)).1) = [] ∧
    ∀ k d, (load_all (skill_files s) ([], boot)).2 !! k = Some d → ∃ enabled, registry s' !! k = Some (with_enabled d enabled)).
Proof.
  unfold ReloadSkills. rewrite registerBuiltins_boot, LoadSkillManifests_run.
  destruct (load_all (skill_files s) ([], boot)) as [statuses r]. cbn [fst snd]. cbv beta zeta iota.
  case_decide as Hf; [|by eexists _, _]. unfold applySkillStateOverrides.
  destruct (loadSkillState _) as [st|]; [|by eexists _, _]. cbn [registry].
  pose proof (apply_overrides_keeps st ord r) as Hk. destruct (apply_overrides st ord r) as [e r']. cbn [snd] in Hk.
  eexists _, _. split_and!; [reflexivity..|]. intros _. by split.
Qed.

Lemma class_lang ranges l : re_lang (RClass ranges) l → ∃ c, l = [c] ∧ in_class ranges c = true.
Proof. intros H. inversion H; subst. by eexists. Qed.
Lemma cat_lang r1 r2 l : re_lang (RCat r1 r2) l → ∃ l1 l2, l = l1 ++ l2 ∧ re_lang r1 l1 ∧ re_lang r2 l2.
Proof. intros H. inversion H; subst. by eexists _, _. Qed.
Lemma star_class_lang ranges l : re_lang (RStar (RClass ranges)) l → Forall (λ c, in_class ranges c = true) l.
Proof.
  intros H. remember (RStar (RClass ranges)) as r eqn:Er. induction H as [| | | | | |r l1 l2 H1 _ H2 IH]; try discriminate; [constructor|].
  injection Er as ->. apply class_lang in H1 as (c & -> & Hc). constructor; [done|by apply IH].
Qed.
Lemma valid_name_runes l : re_match skillNamePattern l = true → Forall (λ c, in_class name_tail c = true) l.
Proof.
  intros (l1 & l2 & -> & (c & -> & Hc)%class_lang & H2)%re_match_spec%cat_lang. constructor; [|by apply star_class_lang].
  revert Hc. unfold in_class, name_head, name_tail. cbn [existsb]. rewrite !orb_false_r, !orb_true_iff. tauto.
Qed.

(** Such a name is its own lower-case form. *)
Lemma runes_high a s : 128 <= bz a → ∃ r l, runes (String a s) = r :: l ∧ 128 <= r.
Proof.
  intros Ha. cbn [runes]. rewrite (proj2 (Z.ltb_ge _ 128)) by done.
  assert (128 <= RuneError) as He by done.
  destruct s as [|b s2]; [by eexists _, _|].
  destruct (lead2 a b) eqn:E2; [eexists _, _; split; [done|]; unfold lead2, cont, low6 in *; reflect_z; lia|].
  destruct s2 as [|c s3]; [by eexists _, _|].
  destruct (lead3 a b && cont c) eqn:E3; [eexists _, _; split; [done|]; unfold lead3, cont, low6 in *; reflect_z; lia|].
  destruct s3 as [|d s4]; [by eexists _, _|].
  destruct (lead4 a b && cont c && cont d) eqn:E4; [|by eexists _, _].
  eexists _, _; split; [done|]; unfold lead4, cont, low6 in *; reflect_z; lia.
Qed.
Lemma name_tail_low c : in_class name_tail c = true → c < 128 ∧ ¬ 65 <= c <= 90.
Proof. unfold in_class, name_tail. cbn [existsb fst snd]. rewrite orb_false_r, !orb_true_iff, !andb_true_iff, !Z.leb_le. lia. Qed.
Lemma name_lower s : Forall (λ c, in_class name_tail c = true) (runes s) → is_ascii s = true ∧ map_bytes lower_byte s = s.
Proof.
  induction s as [|a s IH]; [done|]. intros H. destruct (Z.leb_spec 128 (bz a)) as [Hb|Hb].
  { destruct (runes_high a s Hb) as (r & l & E & Hr). rewrite E in H. apply Forall_cons in H as [Hc%name_tail_low _]. lia. }
  cbn [runes] in H. rewrite (proj2 (Z.ltb_lt _ 128)) in H by done. apply Forall_cons in H as [[_ Hc]%name_tail_low H].
  destruct (IH H) as [Ha Hl]. cbn [is_ascii map_bytes]. rewrite Ha, Hl. unfold bz in *. split.
  - rewrite andb_true_r. apply Nat.leb_le. lia.
  - f_equal. unfold lower_byte. destruct ((65 <=? nat_of_ascii a)%nat && (nat_of_ascii a <=? 90)%nat) eqn:E; [|done].
    apply andb_true_iff in E as [?%Nat.leb_le ?%Nat.leb_le]. lia.
Qed.
Lemma map_bytes_app f s t : map_bytes f (s +:+ t) = map_bytes f s +:+ map_bytes f t.
Proof. induction s as [|a s IH]; [done|]. rewrite string_cons_app. cbn [map_bytes]. by rewrite IH, string_cons_app. Qed.
Lemma is_ascii_app s t : is_ascii s = true → is_ascii t = true → is_ascii (s +:+ t) = true.
Proof.
  intros Hs Ht. induction s as [|a s IH]; [done|]. apply andb_true_iff in Hs as [Ha Hs]. rewrite string_cons_app. cbn [is_ascii].
  by rewrite Ha, IH.
Qed.
Lemma name_json name : Forall (λ c, in_class name_tail c = true) (runes name) → HasSuffix (ToLower (name +:+ ".json")) ".json" = true.
Proof.
  intros [Ha Hl]%name_lower. unfold ToLower. rewrite is_ascii_app by done. rewrite map_bytes_app, Hl. apply HasSuffix_app.
Qed.

Lemma normalizeManifest_idemp m : normalizeManifest (normalizeManifest m) = normalizeManifest m.
Proof. unfold normalizeManifest at 2 3. destruct (m_Version m =? 0) eqn:E; [done|]. unfold normalizeManifest. by rewrite E. Qed.
Lemma manifest_definition_name path m r def : manifest_definition path m r = inr def → Name def = TrimSpace (m_Name m).
Proof.
  unfold manifest_definition. destruct (m_External m); [|destruct (Resolve _ _); [|done]]; intros [= <-];
    unfold external_definition, derived_definition, describe; by case_decide.
Qed.

(** C25. A saved manifest is the one that is loaded.  On a disk that works,
    saving a valid manifest writes it under its own name, which holds only
    lower-case letters, digits, underscores and dashes and so stays in the
    directory of the skills; loading the file gives it back; and if the reload
    reports no error, the skill of that name is the one the manifest describes
    (but for its switch). *)
Theorem SaveManifest_roundtrip ord m s w :
  reliable w → validateManifest Quote (normalizeManifest m) = None →
  let name := TrimSpace (m_Name m) in
  let path := FsAccess.Join2 skillsDir (name +:+ ".json") in
  Forall (λ c, in_class name_tail c = true) (runes name) ∧
  ∃ e s' w', SaveManifest Quote decode_error skillsDir ord m s w = (Ok (path, e), s', w') ∧
    skill_files s' = <[name +:+ ".json" := Doc (normalizeManifest m)]> (skill_files s) ∧
    LoadManifestFile (m_Name m) s' = Some (Doc (normalizeManifest m)) ∧
    (e = None → ∃ r0 def enabled,
       manifest_definition path (normalizeManifest m) r0 = inr def ∧ Resolve (registry s') name = Some (with_enabled def enabled)).
Proof.
  intros Hw Hv name path. assert (m_Name (normalizeManifest m) = m_Name m) as Hname by (unfold normalizeManifest; by destruct (_ =? 0)).
  pose proof (valid_manifest _ Hv) as (Hne & Hre & _). rewrite Hname in Hne, Hre. fold name in Hne, Hre.
  pose proof (valid_name_runes _ Hre) as Hrunes. split; [done|]. unfold SaveManifest. rewrite Hv, Hname. fold name path.
  rewrite bind_eq, WriteFile_reliable by done. set (s1 := over skills_lens _ s). rewrite bind_eq.
  assert (skill_files s1 = <[name +:+ ".json" := Doc (normalizeManifest m)]> (skill_files s)) as Hs1 by done.
  destruct (reload_keeps ord s1 (advance w)) as (e & s' & -> & Hfiles & _ & Hreg). exists e, s', (advance w).
  split_and!; [done|by rewrite Hfiles|unfold LoadManifestFile; fold name; by rewrite Hre, Hfiles, Hs1, lookup_insert_eq|].
  pose proof (name_json _ Hrunes) as Hj. intros He. destruct (Hreg He) as [Herr Hl].
  destruct (load_list_loaded (skill_files s1) (manifest_names (skill_files s1)) ([], boot) (name +:+ ".json") (normalizeManifest m))
    as (r0 & def & Hdef & Hr); [apply boot_names| |by rewrite Hs1, lookup_insert_eq|exact Herr|].
  { apply elem_of_manifest_names. split; [done|]. rewrite Hs1, lookup_insert_eq. by eexists. }
  rewrite normalizeManifest_idemp in Hdef. exists r0, def.
  assert (Name def = name) as Hdn by (rewrite (manifest_definition_name _ _ _ _ Hdef), Hname; done).
  rewrite Hdn in Hr. assert (TrimSpace name = name) as Ht by apply TrimSpace_idemp. rewrite Ht in Hr.
  destruct (Hl _ _ Hr) as [enabled Hen]. exists enabled. split; [exact Hdef|]. unfold Resolve. rewrite Ht, Hen. f_equal.
  rewrite <- Hdn. by destruct def.
Qed.
End facts.

(** *** Witnesses *)

Definition quote0 (s : string) : string := dquote +:+ s +:+ dquote.
Definition booted (files : gmap string (File Manifest)) (st : gmap unit (File (gmap string bool))) : System := mkSystem boot [] files st.
Definition lint : Manifest := mkManifest 0 " repo-lint " "Lint the repository." "shell-command" None ∅ "" None None.

Lemma booted_settled : ReloadSkills (tables := caseless_tables) quote0 "bad JSON" "/skills" [] (booted ∅ ∅) world0 = (Ok None, booted ∅ ∅, world0).
Proof.
  apply (reload_run (tables := caseless_tables)) with (st := ∅); [|by intros k [b Hb]; rewrite lookup_empty in Hb|reflexivity|].
  { split; [constructor|]. intros k. rewrite dom_empty. set_solver. }
  change (manifest_names (skill_files (booted ∅ ∅))) with (@nil string). cbn [foldl fst snd]. split_and!; [reflexivity..|].
  exists boot. split; [reflexivity|]. intros k. by destruct (boot !! k).
Qed.
Lemma SetSkillEnabled_exact_witness :
  ∃ s' w', SetSkillEnabled (tables := caseless_tables) quote0 "bad JSON" "/skills" ["shell-command"] "shell-command " false (booted ∅ ∅) world0
    = (Ok None, s', w') ∧ Enabled <$> Resolve (registry s') "shell-command" = Some false.
Proof.
  destruct (SetSkillEnabled_exact (tables := caseless_tables) quote0 "bad JSON" "/skills" [] ["shell-command"] "shell-command " false (booted ∅ ∅) world0 ∅
    (builtin "shell-command" "Run shell commands through the execution layer." runShellCommand None)) as (s' & w' & H1 & H2 & _).
  - done.
  - exact booted_settled.
  - vm_compute. reflexivity.
  - intros k [b Hb]. by rewrite lookup_empty in Hb.
  - split; [constructor|]. intros k. rewrite dom_empty. set_solver.
  - split; [apply NoDup_singleton|]. intros k. change (TrimSpace "shell-command ") with "shell-command".
    rewrite insert_empty, dom_singleton. set_solver.
  - vm_compute. reflexivity.
  - exists s', w'. split; [exact H1|]. unfold Resolve. rewrite H2. reflexivity.
Defined.
Lemma broken_manifest_reenables_witness :
  ∃ e s', ReloadSkills (tables := caseless_tables) quote0 "bad JSON" "/skills" ["shell-command"]
      (booted {["bad.json" := Torn]} {[tt := Doc {["shell-command" := false]}]}) world0 = (Ok (Some e), s', world0) ∧
    Enabled <$> registry s' !! "shell-command" = Some true.
Proof.
  destruct (broken_manifest_reenables (tables := caseless_tables) quote0 "bad JSON" "/skills" ["shell-command"]
    (booted {["bad.json" := Torn]} {[tt := Doc {["shell-command" := false]}]}) world0 "bad.json"
    (builtin "shell-command" "Run shell commands through the execution layer." runShellCommand None)) as (e & s' & H1 & H2 & _).
  - reflexivity.
  - reflexivity.
  - right. right. right. left.
  - exists e, s'. split; [exact H1|]. cbn [Name builtin] in H2. rewrite H2. reflexivity.
Defined.
Lemma SaveManifest_roundtrip_witness :
  ∃ e s' w', SaveManifest (tables := caseless_tables) quote0 "bad JSON" "/skills" [] lint (booted ∅ ∅) world0 = (Ok ("/skills/repo-lint.json", e), s', w') ∧
    LoadManifestFile "repo-lint" s' = Some (Doc (normalizeManifest lint)).
Proof.
  destruct (SaveManifest_roundtrip (tables := caseless_tables) quote0 "bad JSON" "/skills" [] lint (booted ∅ ∅) world0) as (_ & e & s' & w' & H1 & _ & H2 & _).
  - done.
  - vm_compute. reflexivity.
  - exists e, s', w'. split; [exact H1|exact H2].
Defined.
