(* ===== verification/SkillMemory.v ===== *)
(** * What the search skills remember ([skills/runner.go])

    The summaries of search results, issues and mail, the cards and edges the
    three search skills write, and [upsertCard].  Each skill's writes are one
    list, made in order; the theorem says what the memory then holds. *)
From S2P Require Import Prelude GoStrings GoNum GoText MemoryTypes MemoryStore SkillText.
From S2P Require Runtime.
Open Scope Z_scope.

(** ** The text model ([model.TextGateway]) *)

Record TextRequest := mkTextRequest {
  SystemPrompt : string; UserPrompt : string; MaxTokens : Z; Temperature : float64; Profile : string }.
Record TextResponse := mkTextResponse { resp_Text : string; resp_Provider : string; resp_Model : string }.
(** What the model answers at the [n]-th reading of the environment: a response
    and the message of an error, if there is one. *)
Abbreviation TextGateway := (nat → TextRequest → TextResponse * option string).
Definition GenerateText {S} (model : TextGateway) (req : TextRequest) : M S (TextResponse * option string) :=
  λ s w, (Ok (model (tick w) req), s, advance w).
Definition ProfileSkills : string := "skills".
(** A summary: the model's text, or the fallback when there is no model, it
    fails or it answers nothing. *)
Definition summarize {S} (model : option TextGateway) (system prompt fallback : string) : M S string :=
  match model with
  | None => mret fallback
  | Some model =>
      '(resp, err) ← GenerateText model (mkTextRequest system prompt 180 (lit 1 10) ProfileSkills);
      if bool_decide (is_Some err) || blank (resp_Text resp) then mret fallback else mret (TrimSpace (resp_Text resp))
  end.
Definition summary_prompt (task : Runtime.Task) (query kind list : string) : string :=
  "Task: " +:+ Runtime.Title task +:+ newline +:+ "Goal: " +:+ Runtime.Goal task +:+ newline +:+ "Query: " +:+ query +:+ newline
  +:+ kind +:+ ":" +:+ newline +:+ list.

(** ** Writing cards *)

(** Create the card, or update it when it exists. *)
Definition update_request (req : CreateCardRequest) : UpdateCardRequest :=
  mkUpdateCardRequest (cc_Content req) (cc_Scope req) None None
    (if decide (cc_Status req = "") then CardStatusActive else cc_Status req) (cc_Supersedes req) (cc_EvidenceRefs req) (cc_Provenance req).
Definition upsertCard (cardID : string) (req : CreateCardRequest) : M Store unit :=
  res ← try (CreateCard req);
  match res with
  | Ok _ => mret tt
  | Err ErrAlreadyExists => _ ← UpdateCard cardID (update_request req); mret tt
  | Err e => throw e
  end.
(** [CreateEdge], where an edge that exists is no error. *)
Definition linkCards (req : CreateEdgeRequest) : M Store unit :=
  res ← try (CreateEdge req);
  match res with Ok _ | Err ErrAlreadyExists => mret tt | Err e => throw e end.

Inductive Write := WCard (req : CreateCardRequest) | WEdge (req : CreateEdgeRequest).
Definition write_one (x : Write) : M Store unit :=
  match x with WCard req => upsertCard (cc_CardID req) req | WEdge req => linkCards req end.
Definition write_all : list Write → M Store unit := forM write_one.

Definition evidence (cardID snippet : string) : option (list EvidenceRef) :=
  Some [mkEvidenceRef cardID (previewText snippet 180) ""].
Definition card (cardID cardType scope status : string) (content : list (string * Any)) (agent source : string)
    (confidence : float64) (refs : option (list EvidenceRef)) : Write :=
  WCard (mkCreateCardRequest cardID cardType scope status "" None None None (Some (list_to_map content)) refs
    (mkProvenance agent source confidence)).
Definition edge (edgeID from to edgeType : string) (weight confidence : float64) (refs : option (list EvidenceRef)) : Write :=
  WEdge (mkCreateEdgeRequest edgeID from to edgeType weight confidence None None refs).
(** [1.0 / float64(idx+1)] *)
Definition rank_weight (idx : Z) : float64 := fdiv f1 (of_int (idx + 1)).

Section memory.
Context {tables : UnicodeTables} {url : UrlPackage}.
Variables (model : option TextGateway) (task : Runtime.Task) (artifactPath observationPath : string).

(** The card of the search itself, of its summary, and the edge between them. *)
Definition search_writes (cardType scope agent source summaryType summarySource rootID summaryID edgeID query provider : string)
    (counts : list (string * Any)) (summaryText : string) : list Write := [
  card rootID cardType scope "" ([
      ("task_id", AStr (Runtime.TaskID task)); ("title", AStr (Runtime.Title task)); ("goal", AStr (Runtime.Goal task));
      ("query", AStr query); ("provider", AStr provider)] ++ counts ++ [
      ("artifact_path", AStr artifactPath); ("observation_path", AStr observationPath); ("summary_card_id", AStr summaryID)])
    agent source (lit 9 10) None;
  card summaryID summaryType scope "" [
      ("task_id", AStr (Runtime.TaskID task)); ("query", AStr query); ("provider", AStr provider);
      ("summary", AStr summaryText); ("parent_id", AStr rootID)]
    agent summarySource (lit 8 10) (evidence rootID summaryText);
  edge edgeID rootID summaryID summaryType f1 (lit 8 10) (evidence summaryID summaryText)].
Definition result_counts (n : nat) : list (string * Any) :=
  [("result_count", AInt (Z.of_nat n)); ("persisted_count", AInt (Z.of_nat n))].

(** *** Web search *)

Definition summarizeSearchResults (resp : SearchResponse) : M Store string :=
  summarize model
    "You are the search summarizer of an AgentOS. Produce a short, factual summary of the strongest web search findings."
    (summary_prompt task (Query resp) "Results" (searchResultsPrompt (Results resp))) (heuristicSearchSummary resp).
Definition web_result_writes (resp : SearchResponse) (i : nat) (result : SearchResult) : list Write :=
  let idx := Z.of_nat i in
  let rootID := searchMemoryCardID (Runtime.TaskID task) in
  let cardID := canonicalSearchResultCardID (w_URL result) in [
  card cardID "web_result" ScopeProject CardStatusCandidate [
      ("task_id", AStr (Runtime.TaskID task)); ("query", AStr (Query resp)); ("provider", AStr (Provider resp));
      ("rank", AInt (idx + 1)); ("title", AStr (w_Title result)); ("url", AStr (w_URL result));
      ("url_key", AStr (canonicalURL (w_URL result))); ("snippet", AStr (w_Snippet result)); ("parent_id", AStr rootID)]
    "skills.web-search" (Provider resp) (lit 75 100) (evidence rootID (w_Snippet result));
  edge (searchResultEdgeID (Runtime.TaskID task) idx) rootID cardID "search_result" (rank_weight idx) (lit 75 100)
    (evidence cardID (w_Snippet result))].
Definition web_search_writes (resp : SearchResponse) (summaryText : string) : list Write :=
  search_writes "web_search" ScopeProject "skills.web-search" "web-search" "search_summary" "search-summary"
    (searchMemoryCardID (Runtime.TaskID task)) (searchSummaryCardID (Runtime.TaskID task))
    (searchSummaryEdgeID (Runtime.TaskID task)) (Query resp) (Provider resp) (result_counts (length (Results resp))) summaryText
  ++ List.concat (imap (web_result_writes resp) (Results resp)).
Definition persistWebSearchMemory (resp : SearchResponse) : M Store unit :=
  summaryText ← summarizeSearchResults resp; write_all (web_search_writes resp summaryText).

(** *** GitHub issues *)

Definition summarizeGitHubIssues (resp : GitHubIssueResponse) : M Store string :=
  summarize model
    "You are the GitHub issue summarizer of an AgentOS. Produce a short factual summary of the strongest issue findings."
    (summary_prompt task (Query resp) "Issues" (githubIssueResultsPrompt (Results resp))) (heuristicGitHubIssueSummary resp).
Definition github_issue_writes (resp : GitHubIssueResponse) (i : nat) (issue : GitHubIssue) : list Write :=
  let idx := Z.of_nat i in
  let rootID := githubIssueMemoryCardID (Runtime.TaskID task) in
  let cardID := canonicalGitHubIssueCardID issue in [
  card cardID "github_issue" ScopeProject CardStatusCandidate [
      ("task_id", AStr (Runtime.TaskID task)); ("query", AStr (Query resp)); ("provider", AStr (Provider resp));
      ("rank", AInt (idx + 1)); ("number", AInt (g_Number issue)); ("title", AStr (g_Title issue)); ("url", AStr (g_URL issue));
      ("state", AStr (g_State issue)); ("body", AStr (g_Body issue)); ("repo", AStr (g_Repo issue)); ("parent_id", AStr rootID)]
    "skills.github-issue-search" (Provider resp) (lit 75 100) (evidence rootID (firstNonEmpty [g_Body issue; g_Title issue]));
  edge (githubIssueEdgeID (Runtime.TaskID task) idx) rootID cardID "github_issue" (rank_weight idx) (lit 75 100)
    (evidence cardID (firstNonEmpty [g_Body issue; g_Title issue]))].
Definition github_search_writes (resp : GitHubIssueResponse) (summaryText : string) : list Write :=
  search_writes "github_issue_search" ScopeProject "skills.github-issue-search" "github-issue-search" "github_issue_summary" "github-issue-summary"
    (githubIssueMemoryCardID (Runtime.TaskID task)) (githubIssueSummaryCardID (Runtime.TaskID task))
    (githubIssueSummaryEdgeID (Runtime.TaskID task)) (Query resp) (Provider resp) (result_counts (length (Results resp))) summaryText
  ++ List.concat (imap (github_issue_writes resp) (Results resp)).
Definition persistGitHubIssueMemory (resp : GitHubIssueResponse) : M Store unit :=
  summaryText ← summarizeGitHubIssues resp; write_all (github_search_writes resp summaryText).

(** *** Mail *)

Definition summarizeEmailResults (resp : EmailResponse) : M Store string :=
  summarize model
    "You are the email summarizer of an AgentOS. Produce a short factual summary of the most relevant inbox messages."
    (summary_prompt task (Query resp) "Messages" (emailResultsPrompt (Results resp))) (heuristicEmailSummary resp).
Definition thread_writes (resp : EmailResponse) (group : emailThreadGroup) : list Write :=
  let rootID := emailMemoryCardID (Runtime.TaskID task) in
  let cardID := canonicalEmailThreadCardID (key group) in
  let snippet := firstNonEmpty [summarySnippet group; subject group] in [
  card cardID "email_thread" ScopeUser CardStatusCandidate [
      ("task_id", AStr (Runtime.TaskID task)); ("query", AStr (Query resp)); ("provider", AStr (Provider resp));
      ("thread_key", AStr (key group)); ("subject", AStr (subject group));
      ("message_count", AInt (Z.of_nat (length (messages group)))); ("unread_count", AInt (unreadCount group));
      ("latest_date", AStr (latestDate group)); ("participants", AStrs (participants group)); ("parent_id", AStr rootID)]
    "skills.email-inbox" (Provider resp) (lit 8 10) (evidence rootID snippet);
  edge (emailThreadEdgeID (Runtime.TaskID task) (key group)) rootID cardID "email_thread" f1 (lit 8 10) (evidence cardID snippet)].
Definition message_writes (resp : EmailResponse) (i : nat) (msg : EmailMessage) : list Write :=
  let idx := Z.of_nat i in
  let rootID := emailMemoryCardID (Runtime.TaskID task) in
  let cardID := canonicalEmailMessageCardID msg in
  let threadKey := canonicalEmailThreadKey msg in
  let threadID := canonicalEmailThreadCardID threadKey in [
  card cardID "email_message" ScopeUser CardStatusCandidate [
      ("task_id", AStr (Runtime.TaskID task)); ("query", AStr (Query resp)); ("provider", AStr (Provider resp));
      ("rank", AInt (idx + 1)); ("message_id", AStr (e_MessageID msg)); ("mailbox", AStr (e_Mailbox msg));
      ("from", AStr (e_From msg)); ("subject", AStr (e_Subject msg)); ("date", AStr (e_Date msg));
      ("snippet", AStr (e_Snippet msg)); ("path", AStr (e_Path msg)); ("unread", ABool (e_Unread msg));
      ("thread_key", AStr threadKey); ("thread_id", AStr threadID); ("parent_id", AStr rootID)]
    "skills.email-inbox" (Provider resp) (lit 75 100) (evidence rootID (e_Snippet msg));
  edge (emailMessageEdgeID (Runtime.TaskID task) idx) rootID cardID "email_message" (rank_weight idx) (lit 75 100)
    (evidence cardID (e_Snippet msg));
  edge (emailThreadMessageEdgeID (Runtime.TaskID task) idx) threadID cardID "thread_message" f1 (lit 75 100)
    (evidence cardID (e_Snippet msg))].
Definition email_writes (resp : EmailResponse) (summaryText : string) : list Write :=
  let groups := groupEmailThreads (Results resp) in
  search_writes "email_inbox" ScopeUser "skills.email-inbox" "email-inbox" "email_summary" "email-summary"
    (emailMemoryCardID (Runtime.TaskID task)) (emailSummaryCardID (Runtime.TaskID task))
    (emailSummaryEdgeID (Runtime.TaskID task)) (Query resp) (Provider resp)
    (result_counts (length (Results resp)) ++ [("thread_count", AInt (Z.of_nat (length groups)))]) summaryText
  ++ List.concat (thread_writes resp <$> groups) ++ List.concat (imap (message_writes resp) (Results resp)).
Definition persistEmailMemory (resp : EmailResponse) : M Store unit :=
  summaryText ← summarizeEmailResults resp; write_all (email_writes resp summaryText).
End memory.

(** ** What a list of writes does to the memory *)

(** The requests for the card, in order; the edges asked for. *)
Definition card_requests (id : string) (ws : list Write) : list CreateCardRequest :=
  omap (λ x, match x with WCard req => if decide (cc_CardID req = id) then Some req else None | WEdge _ => None end) ws.
Definition edge_requests (ws : list Write) : list string :=
  omap (λ x, match x with WEdge req => Some (ce_EdgeID req) | WCard _ => None end) ws.
(** The version a request writes. *)
Definition written_as (req : CreateCardRequest) (c : Card) : Prop :=
  card_Content c = cc_Content req ∧ Status c = NormalizeCardStatus (cc_Status req) ∧ card_Provenance c = cc_Provenance req ∧
  (cc_EvidenceRefs req ≠ None → EvidenceRefs c = cc_EvidenceRefs req).
(** The edge a request makes. *)
Definition joined_as (req : CreateEdgeRequest) (e : Edge) : Prop :=
  EdgeID e = ce_EdgeID req ∧ FromCardID e = ce_FromCardID req ∧ ToCardID e = ce_ToCardID req ∧
  EdgeType e = ce_EdgeType req ∧ Weight e = ce_Weight req ∧ edge_Confidence e = ce_Confidence req ∧
  edge_EvidenceRefs e = ce_EvidenceRefs req.
(** Each card has one new version for each request for it, in order, and one
    that was not there is of the type and scope of its first request; no card
    loses a version, no edge changes, and the new edges are those asked for,
    each as a request asked for it. *)
Definition remembered (ws : list Write) (s s' : Store) : Prop :=
  (∀ id, ∃ new, versions_of s' id = versions_of s id ++ new ∧ Forall2 written_as (card_requests id ws) new) ∧
  (∀ id c, versions_of s id = [] → head (versions_of s' id) = Some c →
     ∃ req, head (card_requests id ws) = Some req ∧ CardType c = cc_CardType req ∧ Scope c = cc_Scope req) ∧
  (∀ id e, edges s !! id = Some e → edges s' !! id = Some e) ∧
  (∀ id, is_Some (edges s' !! id) ↔ is_Some (edges s !! id) ∨ id ∈ edge_requests ws) ∧
  (∀ id e, edges s' !! id = Some e → edges s !! id = Some e ∨ ∃ req, WEdge req ∈ ws ∧ ce_EdgeID req = id ∧ joined_as req e).

(** The requests are valid, and an edge joins cards known before. *)
Definition card_request_ok (req : CreateCardRequest) : Prop :=
  create_ok req = true ∧ is_Some (cc_Content req) ∧ AgentID (cc_Provenance req) ≠ "".
Fixpoint script_ok (known : string → Prop) (ws : list Write) : Prop :=
  match ws with
  | [] => True
  | WCard req :: ws => card_request_ok req ∧ script_ok (λ id, id = cc_CardID req ∨ known id) ws
  | WEdge req :: ws => edge_ok req = true ∧ known (ce_FromCardID req) ∧ known (ce_ToCardID req) ∧ script_ok known ws
  end.
Lemma script_ok_mono known known' ws : (∀ id, known id → known' id) → script_ok known ws → script_ok known' ws.
Proof.
  revert known known'. induction ws as [|[req|req] ws IH]; intros known known' H; [done|..]; cbn.
  - intros [? ?]. split; [done|]. eapply IH; [|done]. intros id [?|?]; [by left|right; by apply H].
  - intros (? & ? & ? & ?). split_and!; [done|by apply H|by apply H|by eapply IH].
Qed.
Lemma script_ok_app known ws ws' :
  script_ok known ws → script_ok (λ id, card_requests id ws ≠ [] ∨ known id) ws' → script_ok known (ws ++ ws').
Proof.
  revert known. induction ws as [|[req|req] ws IH]; intros known; cbn.
  - intros _. apply script_ok_mono. by intros id [?|?].
  - intros [? H] H'. split; [done|]. apply IH; [done|]. eapply script_ok_mono; [|exact H']. intros id.
    unfold card_requests. cbn. case_decide; [intros _; right; by left|]. intros [?|?]; [by left|right; by right].
  - intros (? & ? & ? & H) H'. split_and!; [done..|]. by apply IH.
Qed.
Lemma script_ok_concat known l : (∀ ws, ws ∈ l → script_ok known ws) → script_ok known (List.concat l).
Proof.
  intros H. induction l as [|ws l IH]; [done|]. cbn [List.concat]. apply script_ok_app; [apply H; by left|].
  eapply script_ok_mono; [|apply IH; intros ws' Hw; apply H; by right]. intros id ?. by right.
Qed.

(** A store every card of which has a version. *)
Definition sound (s : Store) : Prop := ∀ id, cards s !! id ≠ Some [].
Lemma sound_of s : store_wf s → sound s.
Proof. intros [Hw _] id E. by apply (proj1 (Hw _ _ E)). Qed.
Lemma sound_step s s' id vs : sound s → vs ≠ [] → mem s' = mem_cards s id vs → sound s'.
Proof.
  intros Hn Hvs Hm. injection Hm as Hc _ _. intros id'. rewrite Hc.
  destruct (decide (id = id')) as [->|Hne]; [rewrite lookup_insert_eq; by intros [= ?]|].
  rewrite lookup_insert_ne by done. apply Hn.
Qed.
Definition unit_of {A} (r : result A) : result unit := match r with Ok _ => Ok tt | Err e => Err e end.
Lemma committed_unit {A} s (a : A) r : committed s a r → committed s tt (unit_of r).
Proof. intros [->|(e & -> & H)]; [by left|right; by exists e]. Qed.
Lemma provenance_kept p q : AgentID p ≠ "" →
  (if bool_decide (AgentID p ≠ "") || bool_decide (pv_Source p ≠ "") || negb (feq (Confidence p) f0) then p else q) = p.
Proof. intros H. by rewrite bool_decide_true. Qed.

(** [upsertCard] adds one version; an error after that is one of the storage. *)
Lemma upsertCard_run req s w : sound s → card_request_ok req →
  ∃ c r s' w', upsertCard (cc_CardID req) req s w = (r, s', w') ∧ committed s tt r ∧ persistent s' = persistent s ∧
    written_as req c ∧ sound s' ∧ mem s' = mem_cards s (cc_CardID req) (versions_of s (cc_CardID req) ++ [c]) ∧
    (versions_of s (cc_CardID req) = [] → CardType c = cc_CardType req ∧ Scope c = cc_Scope req).
Proof.
  intros Hn (Hok & Hc & Hp). unfold upsertCard. rewrite bind_eq. unfold try.
  destruct (CreateCard_run req s w) as (r & s1 & w1 & -> & H). rewrite Hok in H. cbn [negb] in H.
  destruct (cards s !! cc_CardID req) as [vs|] eqn:E.
  - destruct H as [-> ->]. rewrite bind_eq.
    destruct (UpdateCard_run (cc_CardID req) (update_request req) s w1) as (r & s2 & w2 & -> & H2).
    unfold create_ok in Hok. apply andb_true_iff in Hok as [Hid Hst]. apply negb_true_iff, orb_false_iff in Hid as [Hid _].
    apply bool_decide_eq_false in Hid. apply negb_true_iff, bool_decide_eq_false in Hst.
    assert (NormalizeCardStatus (uc_Status (update_request req)) = NormalizeCardStatus (cc_Status req)) as Hst'.
    { cbn. case_decide as Hs'; [by rewrite Hs'|done]. }
    assert (update_ok (cc_CardID req) (update_request req) = true) as Hu.
    { unfold update_ok. rewrite Hst'. rewrite (bool_decide_false _ Hid), (bool_decide_false _ Hst). by rewrite andb_false_r. }
    rewrite Hu in H2. cbn [negb] in H2. assert (versions_of s (cc_CardID req) = vs) as Hvs by (unfold versions_of; by rewrite E).
    rewrite Hvs in *. destruct (last vs) as [latest|] eqn:El; [|apply last_None in El; subst; by destruct (Hn (cc_CardID req))].
    destruct H2 as (Hm & Hper & Hcom).
    exists (updatedCard latest (update_request req) (clock w1 (tick w1))), (unit_of r), s2, w2.
    split; [destruct r; reflexivity|]. split; [by eapply committed_unit|].
    split; [exact Hper|]. split_and!; [|eapply sound_step; [done| |exact Hm]|exact Hm|intros ->; done]; [|by destruct vs].
    unfold written_as, updatedCard. cbn [card_Content Status card_Provenance EvidenceRefs]. rewrite Hst'.
    rewrite provenance_kept by done. destruct Hc as [content Hc]. cbn [update_request uc_Content uc_EvidenceRefs uc_Status uc_Provenance].
    split_and!; [by rewrite Hc| |done|by destruct (cc_EvidenceRefs req)].
    rewrite decide_True; [done|]. case_decide; done.
  - destruct H as (Hm & Hper & Hcom).
    exists (createdCard req (clock w (tick w))), (unit_of r), s1, w1. assert (versions_of s (cc_CardID req) = []) as -> by (unfold versions_of; by rewrite E).
    split; [destruct Hcom as [->|(e & -> & [->| ->] & _)]; reflexivity|]. split; [by eapply committed_unit|].
    split; [exact Hper|]. split_and!; [by unfold written_as; split_and!|eapply sound_step; [done| |exact Hm]; done|exact Hm|done].
Qed.
Lemma linkCards_run req s w : sound s → edge_ok req = true →
  is_Some (cards s !! ce_FromCardID req) → is_Some (cards s !! ce_ToCardID req) →
  ∃ r s' w', linkCards req s w = (r, s', w') ∧ committed s tt r ∧ persistent s' = persistent s ∧ cards s' = cards s ∧
    (edges s' = edges s ∧ is_Some (edges s !! ce_EdgeID req) ∨
     edges s !! ce_EdgeID req = None ∧ ∃ e, joined_as req e ∧ edges s' = <[ce_EdgeID req := e]> (edges s)).
Proof.
  intros Hn Hok Hf Ht. unfold linkCards. rewrite bind_eq. unfold try.
  destruct (CreateEdge_run req s w) as (r & s1 & w1 & -> & H). rewrite Hok in H. cbn [negb] in H.
  destruct (edges s !! ce_EdgeID req) as [e|] eqn:E.
  - destruct H as [-> ->]. eexists _, s, w1. split; [reflexivity|]. split; [by left|]. split_and!; [done..|]. left. by split; [|eexists].
  - rewrite decide_True in H by done. destruct H as (Hm & Hp & Hcom). injection Hm as Hc He _.
    exists (unit_of r), s1, w1. split; [destruct Hcom as [->|(e & -> & [->| ->] & _)]; reflexivity|].
    split; [by eapply committed_unit|].
    split; [exact Hp|]. split; [exact Hc|]. right. split; [done|]. eexists. split; [|exact He]. done.
Qed.

(** Remembering nothing, and one more write. *)
Lemma remembered_nil s s' : mem s' = mem s → remembered [] s s'.
Proof.
  intros [= Hc He _]. unfold remembered, versions_of. rewrite Hc, He. split_and!.
  - intros id. exists []. rewrite app_nil_r. by split.
  - intros id c ->. done.
  - done.
  - intros id. cbn. split; [by left|]. intros [?|H]; [done|by apply elem_of_nil in H].
  - intros id e H. by left.
Qed.
Lemma remembered_card req c ws s s1 s' :
  written_as req c → mem s1 = mem_cards s (cc_CardID req) (versions_of s (cc_CardID req) ++ [c]) →
  (versions_of s (cc_CardID req) = [] → CardType c = cc_CardType req ∧ Scope c = cc_Scope req) →
  remembered ws s1 s' → remembered (WCard req :: ws) s s'.
Proof.
  intros Hc [= Hcs He _] Hnew (Hv & Hfresh & Hkeep & Hall & Hmade). split_and!.
  - intros id. destruct (Hv id) as (new & Hn & Hf). unfold versions_of at 2 in Hn. rewrite Hcs in Hn.
    unfold card_requests. cbn. destruct (decide (cc_CardID req = id)) as [<-|Hne].
    + rewrite lookup_insert_eq in Hn. cbn in Hn. exists (c :: new). rewrite Hn, <- app_assoc. split; [done|by constructor].
    + rewrite lookup_insert_ne in Hn by done. by exists new.
  - intros id c' Hnone Hhead. unfold card_requests. cbn. destruct (decide (cc_CardID req = id)) as [<-|Hne].
    + exists req. split; [done|]. destruct (Hv (cc_CardID req)) as (new & Hn & _).
      unfold versions_of at 2 in Hn. rewrite Hcs, lookup_insert_eq, Hnone in Hn. cbn in Hn. rewrite Hn in Hhead.
      injection Hhead as <-. by apply Hnew.
    + apply Hfresh; [|done]. unfold versions_of in *. by rewrite Hcs, lookup_insert_ne.
  - intros id e Hid. apply Hkeep. by rewrite He.
  - intros id. rewrite Hall, He. done.
  - intros id e Hid. rewrite <- He. destruct (Hmade id e Hid) as [?|(q & Hq & ?)]; [by left|right]. exists q. split; [by right|done].
Qed.
Lemma remembered_edge req ws s s1 s' : cards s1 = cards s →
  (edges s1 = edges s ∧ is_Some (edges s !! ce_EdgeID req) ∨
   edges s !! ce_EdgeID req = None ∧ ∃ e, joined_as req e ∧ edges s1 = <[ce_EdgeID req := e]> (edges s)) →
  remembered ws s1 s' → remembered (WEdge req :: ws) s s'.
Proof.
  intros Hcs He (Hv & Hfresh & Hkeep & Hall & Hmade).
  assert (∀ id, versions_of s1 id = versions_of s id) as Hvs by (intros id; unfold versions_of; by rewrite Hcs).
  split_and!.
  - intros id. destruct (Hv id) as (new & Hn & Hf). exists new. split; [by rewrite Hn, Hvs|done].
  - intros id c Hnone. apply Hfresh. by rewrite Hvs.
  - intros id e Hid. apply Hkeep. destruct He as [[-> _]|(Hn & e' & _ & ->)]; [done|]. rewrite lookup_insert_ne; [done|]. congruence.
  - intros id. rewrite Hall. unfold edge_requests. cbn. rewrite elem_of_cons.
    destruct He as [[-> Hs]|(Hn & e' & _ & ->)].
    + split; [tauto|]. intros [?|[->|?]]; tauto.
    + destruct (decide (ce_EdgeID req = id)) as [<-|Hne].
      * rewrite lookup_insert_eq. split; [by auto|]. by left; eexists.
      * rewrite lookup_insert_ne by done. naive_solver.
  - intros id e Hid. destruct (Hmade id e Hid) as [H1|(q & Hq & ?)].
    + destruct He as [[He _]|(Hn & e' & Hj & He)]; rewrite He in H1; [by left|].
      apply lookup_insert_Some in H1 as [[<- <-]|[_ H1]]; [right|by left]. exists req. split; [left|done].
    + right. exists q. split; [by right|done].
Qed.

(** Writing stops at the first storage error, whose own write is in the memory. *)
Lemma write_all_run ws known s w : sound s → (∀ id, known id → is_Some (cards s !! id)) → script_ok known ws →
  ∃ made r s' w', write_all ws s w = (r, s', w') ∧ made `prefix_of` ws ∧ remembered made s s' ∧
    (r = Ok tt ∧ made = ws ∨ ∃ e, r = Err e ∧ storage_error e ∧ persistent s = true).
Proof.
  revert known s w. induction ws as [|[req|req] ws IH]; intros known s w Hs Hk Hok; cbn [script_ok] in Hok.
  - exists [], (Ok tt), s, w. split; [done|]. split; [done|]. split; [by apply remembered_nil|by left].
  - destruct Hok as [Hreq Hok]. destruct (upsertCard_run req s w Hs Hreq) as (c & r & s1 & w1 & E1 & Hcom & Hp & Hc & Hs1 & Hm & Hnew).
    unfold write_all, forM. cbn [foldM write_one]. rewrite bind_eq, E1.
    destruct Hcom as [->|(e & -> & He & Hpe)].
    + destruct (IH (λ id, id = cc_CardID req ∨ known id) s1 w1 Hs1) as (made & r & s' & w' & E' & Hpre & Hrem & Hr); [|done|].
      { intros id Hid. injection Hm as Hcs _ _. rewrite Hcs. destruct (decide (cc_CardID req = id)) as [<-|Hne]; [rewrite lookup_insert_eq; by eexists|].
        rewrite lookup_insert_ne by done. destruct Hid as [->|?]; [done|by apply Hk]. }
      exists (WCard req :: made), r, s', w'. split; [exact E'|]. split; [by apply prefix_cons|].
      split; [by eapply remembered_card|]. rewrite <- Hp. destruct Hr as [[-> ->]|?]; [by left|by right].
    + exists [WCard req], (Err e), s1, w1. split; [done|]. split; [apply prefix_cons, prefix_nil|].
      split; [|right; by exists e]. eapply remembered_card; [done|exact Hm|done|by apply remembered_nil].
  - destruct Hok as (Hreq & Hf & Ht & Hok).
    destruct (linkCards_run req s w Hs Hreq (Hk _ Hf) (Hk _ Ht)) as (r & s1 & w1 & E1 & Hcom & Hp & Hcs & He).
    assert (sound s1) as Hs1 by (intros id; rewrite Hcs; apply Hs).
    unfold write_all, forM. cbn [foldM write_one]. rewrite bind_eq, E1.
    destruct Hcom as [->|(e & -> & Her & Hpe)].
    + destruct (IH known s1 w1 Hs1) as (made & r & s' & w' & E' & Hpre & Hrem & Hr); [intros id Hid; rewrite Hcs; by apply Hk|done|].
      exists (WEdge req :: made), r, s', w'. split; [exact E'|]. split; [by apply prefix_cons|].
      split; [by eapply remembered_edge|]. rewrite <- Hp. destruct Hr as [[-> ->]|?]; [by left|by right].
    + exists [WEdge req], (Err e), s1, w1. split; [done|]. split; [apply prefix_cons, prefix_nil|].
      split; [|right; by exists e]. eapply remembered_edge; [exact Hcs|exact He|by apply remembered_nil].
Qed.

(** ** The writes of the three skills *)

Section theorems.
Context {tables : UnicodeTables} {url : UrlPackage}.
Variables (task : Runtime.Task) (artifactPath observationPath : string).

Lemma prefixed_nonempty a s t : String a s +:+ t ≠ "".
Proof. done. Qed.
Lemma digest8_nonempty a kind k : digest8 (String a kind) k ≠ "".
Proof. done. Qed.
Lemma card_valid cardID cardType scope status content agent source conf refs :
  cardID ≠ "" → cardType ≠ "" → NormalizeCardStatus status ≠ "" → agent ≠ "" →
  card_request_ok (mkCreateCardRequest cardID cardType scope status "" None None None (Some (list_to_map content)) refs (mkProvenance agent source conf)).
Proof.
  intros H1 H2 H3 H4. split; [|by split; [eexists|]]. unfold create_ok. cbn [cc_CardID cc_CardType cc_Status].
  by rewrite !bool_decide_false.
Qed.
Lemma edge_valid edgeID from to edgeType weight conf refs :
  edgeID ≠ "" → from ≠ "" → to ≠ "" → edgeType ≠ "" → edge_ok (mkCreateEdgeRequest edgeID from to edgeType weight conf None None refs) = true.
Proof. intros. unfold edge_ok. cbn. by rewrite !bool_decide_false. Qed.

(** A card with an edge to it from a known card. *)
Lemma pair_ok known rootID cardID cardType scope content agent source conf refs edgeID edgeType weight conf' refs' ws :
  known rootID → rootID ≠ "" → cardID ≠ "" → cardType ≠ "" → agent ≠ "" → edgeID ≠ "" → edgeType ≠ "" →
  script_ok (λ id, id = cardID ∨ known id) ws →
  script_ok known (card cardID cardType scope CardStatusCandidate content agent source conf refs
    :: edge edgeID rootID cardID edgeType weight conf' refs' :: ws).
Proof.
  intros Hk H1 H2 H3 H4 H5 H6 Hws. cbn [card edge script_ok cc_CardID ce_FromCardID ce_ToCardID].
  split; [by apply card_valid|]. split; [by apply edge_valid|]. split_and!; [by right|by left|done].
Qed.
Lemma search_writes_ok cardType scope agent source summaryType summarySource rootID summaryID edgeID query provider counts text :
  cardType ≠ "" → agent ≠ "" → summaryType ≠ "" → rootID ≠ "" → summaryID ≠ "" → edgeID ≠ "" →
  let ws := search_writes task artifactPath observationPath cardType scope agent source summaryType summarySource rootID summaryID edgeID query provider counts text in
  script_ok (λ _, False) ws ∧ card_requests rootID ws ≠ [].
Proof.
  intros. split.
  - cbn [ws search_writes card edge script_ok cc_CardID ce_FromCardID ce_ToCardID]. unfold ws, search_writes.
    cbn [card edge script_ok cc_CardID ce_FromCardID ce_ToCardID].
    split; [by apply card_valid|]. split; [by apply card_valid|]. split; [by apply edge_valid|]. split_and!; [by right; left|by left|done].
  - unfold ws, search_writes, card_requests. cbn. by rewrite decide_True.
Qed.
Lemma concat_imap_ok {A} known (f : nat → A → list Write) l :
  (∀ i x, x ∈ l → script_ok known (f i x)) → script_ok known (List.concat (imap f l)).
Proof.
  intros H. apply script_ok_concat. intros ws (i & x & -> & Hx)%elem_of_lookup_imap. apply H. by eapply list_elem_of_lookup_2.
Qed.
Lemma web_search_writes_ok resp text : script_ok (λ _, False) (web_search_writes task artifactPath observationPath resp text).
Proof.
  unfold web_search_writes. edestruct search_writes_ok as [H1 H2]; [..|apply script_ok_app; [exact H1|]]; [done..|].
  apply concat_imap_ok. intros i r _. apply pair_ok; [by left|done..].
Qed.
Lemma github_search_writes_ok resp text : script_ok (λ _, False) (github_search_writes task artifactPath observationPath resp text).
Proof.
  unfold github_search_writes. edestruct search_writes_ok as [H1 H2]; [..|apply script_ok_app; [exact H1|]]; [done..|].
  apply concat_imap_ok. intros i r _. apply pair_ok; [by left|done..].
Qed.
Abbreviation key_of := canonicalEmailThreadKey.
Lemma thread_keys l : key <$> groupEmailThreads l = firsts (key_of <$> l).
Proof.
  induction l as [|m l IH] using rev_ind; [done|]. unfold groupEmailThreads in *. rewrite foldl_app. cbn [foldl].
  rewrite file_keys, IH, fmap_app. change (key_of <$> [m]) with [key_of m]. by rewrite firsts_snoc.
Qed.
Lemma thread_cards resp m : m ∈ Results resp →
  card_requests (canonicalEmailThreadCardID (canonicalEmailThreadKey m)) (List.concat (thread_writes task resp <$> groupEmailThreads (Results resp))) ≠ [].
Proof.
  intros Hm. assert (key_of m ∈ key <$> groupEmailThreads (Results resp)) as (g & -> & Hg)%list_elem_of_fmap.
  { rewrite thread_keys, elem_of_firsts. by apply list_elem_of_fmap_2. }
  induction Hg as [g gs|g g' gs _ IH]; cbn [fmap list_fmap List.concat]; unfold card_requests; rewrite omap_app.
  - cbn. by rewrite decide_True.
  - intros [_ H]%app_eq_nil. by apply IH.
Qed.
Lemma email_writes_ok resp text : script_ok (λ _, False) (email_writes task artifactPath observationPath resp text).
Proof.
  unfold email_writes. edestruct search_writes_ok as [H1 H2]; [..|apply script_ok_app; [exact H1|]]; [done..|].
  apply script_ok_app.
  - apply script_ok_concat. intros ws (g & -> & _)%list_elem_of_fmap. apply pair_ok; [by left|done..].
  - apply concat_imap_ok. intros i m Hm. pose proof (thread_cards resp m Hm) as Ht. unfold message_writes. cbv zeta.
    apply pair_ok; [by right; left|done..|]. cbn [edge script_ok ce_FromCardID ce_ToCardID].
    split; [by apply edge_valid|]. split_and!; [by right; left|by left|done].
Qed.

Lemma summarize_run model system prompt fallback (s : Store) w :
  ∃ text w', summarize model system prompt fallback s w = (Ok text, s, w').
Proof.
  unfold summarize. destruct model as [m|]; [|by eexists _, _]. rewrite bind_eq. unfold GenerateText.
  destruct (m _ _) as [resp err]. destruct (_ || _); by eexists _, _.
Qed.
(** A summary and then a valid list of writes. *)
Lemma persist_run (summary : M Store string) writes s w : store_wf s →
  (∃ text w', summary s w = (Ok text, s, w')) → (∀ text, script_ok (λ _, False) (writes text)) →
  ∃ text made r s' w', (text ← summary; write_all (writes text)) s w = (r, s', w') ∧
    made `prefix_of` writes text ∧ remembered made s s' ∧
    (r = Ok tt ∧ made = writes text ∨ ∃ e, r = Err e ∧ storage_error e ∧ persistent s = true).
Proof.
  intros Hw (text & w1 & E) Hok. destruct (write_all_run (writes text) (λ _, False) s w1) as (made & r & s' & w' & E' & H); [|done|done|].
  { by apply sound_of. }
  exists text, made, r, s', w'. by rewrite bind_eq, E.
Qed.

(** An edge of the type from one card to the other is asked for. *)
Definition linked (ws : list Write) (from to edgeType : string) : Prop :=
  ∃ req, WEdge req ∈ ws ∧ ce_FromCardID req = from ∧ ce_ToCardID req = to ∧ ce_EdgeType req = edgeType.
(** A card of the type is asked for. *)
Definition asked (ws : list Write) (id cardType : string) : Prop :=
  ∃ req, WCard req ∈ ws ∧ cc_CardID req = id ∧ cc_CardType req = cardType.
Lemma linked_mono ws ws' from to edgeType : (∀ x, x ∈ ws → x ∈ ws') → linked ws from to edgeType → linked ws' from to edgeType.
Proof. intros H (req & Hin & Hrest). exists req. split; [by apply H|done]. Qed.
Lemma asked_mono ws ws' id cardType : (∀ x, x ∈ ws → x ∈ ws') → asked ws id cardType → asked ws' id cardType.
Proof. intros H (req & Hin & Hrest). exists req. split; [by apply H|done]. Qed.
Lemma elem_of_concat_imap {A B} (f : nat → A → list B) l i x y : l !! i = Some x → y ∈ f i x → y ∈ List.concat (imap f l).
Proof.
  intros Hi Hy. apply list_elem_of_In, in_concat. exists (f i x).
  split; apply list_elem_of_In; [apply elem_of_lookup_imap; by exists i, x|done].
Qed.

Lemma web_links resp text : let ws := web_search_writes task artifactPath observationPath resp text in
  let root := searchMemoryCardID (Runtime.TaskID task) in
  asked ws root "web_search" ∧ linked ws root (searchSummaryCardID (Runtime.TaskID task)) "search_summary" ∧
  ∀ page, page ∈ Results resp → let card := canonicalSearchResultCardID (w_URL page) in
    asked ws card "web_result" ∧ linked ws root card "search_result".
Proof.
  intros ws root. split; [eexists; split; [left|done]|]. split; [eexists; split; [right; right; left|done]|].
  intros page (i & Hi)%list_elem_of_lookup card.
  split; eexists; (split; [unfold ws, web_search_writes; apply elem_of_app; right; eapply elem_of_concat_imap; [exact Hi|]|]).
  - left.
  - done.
  - right; left.
  - done.
Qed.
Lemma github_links resp text : let ws := github_search_writes task artifactPath observationPath resp text in
  let root := githubIssueMemoryCardID (Runtime.TaskID task) in
  asked ws root "github_issue_search" ∧ linked ws root (githubIssueSummaryCardID (Runtime.TaskID task)) "github_issue_summary" ∧
  ∀ issue, issue ∈ Results resp → let card := canonicalGitHubIssueCardID issue in
    asked ws card "github_issue" ∧ linked ws root card "github_issue".
Proof.
  intros ws root. split; [eexists; split; [left|done]|]. split; [eexists; split; [right; right; left|done]|].
  intros issue (i & Hi)%list_elem_of_lookup card.
  split; eexists; (split; [unfold ws, github_search_writes; apply elem_of_app; right; eapply elem_of_concat_imap; [exact Hi|]|]).
  - left.
  - done.
  - right; left.
  - done.
Qed.
Lemma thread_asked resp m : m ∈ Results resp →
  let ws := List.concat (thread_writes task resp <$> groupEmailThreads (Results resp)) in
  let thread := canonicalEmailThreadCardID (canonicalEmailThreadKey m) in
  asked ws thread "email_thread" ∧ linked ws (emailMemoryCardID (Runtime.TaskID task)) thread "email_thread".
Proof.
  intros Hm ws thread. assert (key_of m ∈ key <$> groupEmailThreads (Results resp)) as (g & Hk & Hg)%list_elem_of_fmap.
  { rewrite thread_keys, elem_of_firsts. by apply list_elem_of_fmap_2. }
  assert (∀ x, x ∈ thread_writes task resp g → x ∈ ws) as Hin.
  { intros x Hx. apply list_elem_of_In, in_concat. exists (thread_writes task resp g).
    split; apply list_elem_of_In; [by apply list_elem_of_fmap_2|done]. }
  unfold thread. rewrite Hk.
  split; [eapply asked_mono|eapply linked_mono]; try exact Hin; eexists; (split; [first [apply list_elem_of_here|right; left]|]); split_and!; reflexivity.
Qed.
Lemma email_links resp text : let ws := email_writes task artifactPath observationPath resp text in
  let root := emailMemoryCardID (Runtime.TaskID task) in
  asked ws root "email_inbox" ∧ linked ws root (emailSummaryCardID (Runtime.TaskID task)) "email_summary" ∧
  ∀ m, m ∈ Results resp → let card := canonicalEmailMessageCardID m in
    let thread := canonicalEmailThreadCardID (canonicalEmailThreadKey m) in
    asked ws thread "email_thread" ∧ linked ws root thread "email_thread" ∧
    asked ws card "email_message" ∧ linked ws root card "email_message" ∧ linked ws thread card "thread_message".
Proof.
  intros ws root. split; [eexists; split; [left|done]|]. split; [eexists; split; [right; right; left|done]|].
  intros m Hm card thread. destruct (thread_asked resp m Hm) as [H1 H2].
  assert (∀ x, x ∈ List.concat (thread_writes task resp <$> groupEmailThreads (Results resp)) → x ∈ ws) as Hin.
  { intros x Hx. unfold ws, email_writes. apply elem_of_app. right. apply elem_of_app. by left. }
  split; [by eapply asked_mono|]. split; [by eapply linked_mono|].
  apply list_elem_of_lookup in Hm as (i & Hi).
  assert (∀ x, x ∈ message_writes task resp i m → x ∈ ws) as Hmsg.
  { intros x Hx. unfold ws, email_writes. apply elem_of_app. right. apply elem_of_app. right. by eapply elem_of_concat_imap. }
  split_and!; [eapply asked_mono|eapply linked_mono|eapply linked_mono]; try exact Hmsg; eexists.
  - split; [left|by split].
  - split; [right; left|by split_and!].
  - split; [right; right; left|by split_and!].
Qed.


Lemma web_requests id resp text req :
  req ∈ card_requests (digest8 "web_result" id) (web_search_writes task artifactPath observationPath resp text) → cc_Status req = CardStatusCandidate.
Proof.
  unfold card_requests. intros (x & Hx & Hreq)%list_elem_of_omap. destruct x as [req'|]; [|done]. case_decide as Hid; [|done].
  injection Hreq as ->. unfold web_search_writes in Hx. apply elem_of_app in Hx as [Hx|Hx].
  - unfold search_writes, card, edge in Hx. rewrite !elem_of_cons, elem_of_nil in Hx. by destruct Hx as [[= ->]|[[= ->]|[?|[]]]].
  - apply list_elem_of_In, in_concat in Hx as (l & Hl%list_elem_of_In & Hx%list_elem_of_In).
    apply elem_of_lookup_imap in Hl as (i & r & -> & _). unfold web_result_writes, card, edge in Hx.
    rewrite !elem_of_cons, elem_of_nil in Hx. by destruct Hx as [[= ->]|[?|[]]].
Qed.
Lemma web_requested resp text r : r ∈ Results resp →
  card_requests (canonicalSearchResultCardID (w_URL r)) (web_search_writes task artifactPath observationPath resp text) ≠ [].
Proof.
  intros (i & Hi)%list_elem_of_lookup H. eapply (elem_of_nil (A := CreateCardRequest)). rewrite <- H.
  apply list_elem_of_omap. eexists. split.
  - unfold web_search_writes. apply elem_of_app. right. apply list_elem_of_In, in_concat.
    exists (web_result_writes task resp i r). split; apply list_elem_of_In; [apply elem_of_lookup_imap; by exists i, r|by left].
  - cbn. by rewrite decide_True.
Qed.

(** A page that is found again loses its place.  After a web search the
    card of every result is a candidate, which is not recalled, even if it was
    promoted to an active card before. *)
Theorem found_again_demoted model s w resp r : store_wf s → disk s = None → r ∈ Results resp →
  ∃ c, last (versions_of (exec (persistWebSearchMemory model task artifactPath observationPath resp) s w)
              (canonicalSearchResultCardID (w_URL r))) = Some c ∧
    Status c = CardStatusCandidate ∧ IsRecallEligibleStatus (Status c) = false.
Proof.
  intros Hw Hd Hr.
  destruct (persist_run (summarizeSearchResults model task resp) (web_search_writes task artifactPath observationPath resp) s w Hw)
    as (text & made & res & s' & w' & E & Hpre & (Hv & _) & Hres); [apply summarize_run|apply web_search_writes_ok|].
  destruct Hres as [[-> ->]|(e & _ & _ & Hp)]; [|by unfold persistent in Hp; rewrite Hd in Hp].
  unfold exec, persistWebSearchMemory. rewrite E. destruct (Hv (canonicalSearchResultCardID (w_URL r))) as (new & -> & Hf).
  pose proof (web_requested resp text r Hr) as Hne. pose proof (web_requests (canonicalURL (w_URL r)) resp text) as Hst.
  apply Forall2_last in Hf. destruct (last (card_requests _ _)) as [req|] eqn:El; [|by apply last_None in El].
  inversion Hf as [? c Hc Heq Hc'|]; subst. exists c. assert (last new ≠ None) as Hn by by rewrite <- Hc'.
  split; [by rewrite last_app, <- Hc'|]. destruct Hc as (_ & -> & _).
  apply last_Some_elem_of, Hst in El. rewrite El. done.
Qed.
End theorems.

(** *** Witnesses *)

(** A package of URLs that have no scheme and host. *)
Definition opaque_urls : UrlPackage := mkUrlPackage (λ s, Some (mkURL "" "" "" s)) url_rest.
Definition search_task : Runtime.Task :=
  Runtime.mkTask "task-1" "Find docs" "find the docs" Runtime.TaskStateActive 0 0 "user" "chat" "user" false "web-search" "" "" None.
Definition docs_page : SearchResult := mkSearchResult "Docs" "https://example.org/docs" "The documentation.".
Definition docs_response : SearchResponse := mkResponse "docs" "tavily" [docs_page; mkSearchResult "Blog" "https://example.org/blog" "A post."].
Definition page_id : string := canonicalSearchResultCardID (tables := caseless_tables) (url := opaque_urls) (w_URL docs_page).
(** A memory in which the page is an active card. *)
Definition promoted_page : CreateCardRequest :=
  mkCreateCardRequest page_id "web_result" ScopeProject CardStatusActive "" None None None (Some ∅) None (mkProvenance "" "" f1).
Definition known_page : Store := exec (CreateCard promoted_page) NewStore world0.
Lemma known_page_wf : store_wf known_page.
Proof. apply (preserves_exec store_wf); [apply CreateCard_preserves|apply NewStore_wf]. Qed.

Lemma found_again_demoted_witness :
  Status <$> last (versions_of known_page page_id) = Some CardStatusActive ∧
  ∃ c, last (versions_of (exec (persistWebSearchMemory (tables := caseless_tables) (url := opaque_urls) None search_task "/a.md" "/o.json" docs_response)
              known_page world0) page_id) = Some c ∧ Status c = CardStatusCandidate.
Proof.
  split; [vm_compute; reflexivity|].
  destruct (found_again_demoted (tables := caseless_tables) (url := opaque_urls) search_task "/a.md" "/o.json" None known_page world0 docs_response docs_page)
    as (c & H1 & H2 & _).
  - exact known_page_wf.
  - vm_compute. reflexivity.
  - left.
  - exists c. split; [exact H1|exact H2].
Defined.
