(* ===== verification/SkillRunner.v ===== *)
(** * The task runner ([skills/runner.go], [skills/external.go], [connectors/runtime.go])

    [RunTask] with the handlers of the built-in skills, the external commands
    of manifests and the approval of root tasks, over the task store, the
    memory, the executor and the skill registry.  The theorems: what a run may
    start, which state it leaves the task in, and where it writes. *)
From S2P Require Import Prelude GoStrings GoNum GoText GoJson MemoryTypes SkillText SkillMemory.
From S2P Require FsAccess GoTime Sha1 MemoryStore StatusDirs Approval Execution Runtime Procedural Consolidator Governance MemScheduler Recall Skills.
Import FsAccess(Env, Join2, Clean, Dir, Rel, IsAbs, comps, proper, render).
Import Execution(ExecState, ActionRecord, Os, ShellOutcome).
Import Runtime(Task, TaskID).
Open Scope Z_scope.

(** ** State *)

Record ProgressEvent := mkProgress { Stage : string; Message : string }.
Record RunResult := mkRunResult {
  rr_Task : Task; rr_Action : option ActionRecord; ArtifactPaths : list string; ObservationPaths : list string }.

(** The stores of tasks, memory and the scheduler; the executor with its
    approvals and the files on disk; the skill registry; what else a listener
    of the progress of a run may touch. *)
Record System (L : Type) := mkSystem {
  stores : MemScheduler.System; machine : ExecState; skills : Skills.System; listener : L }.
Arguments mkSystem {L} _ _ _ _.
Arguments stores {L} _.
Arguments machine {L} _.
Arguments skills {L} _.
Arguments listener {L} _.
Definition with_stores {L A} (m : M MemScheduler.System A) : M (System L) A := λ s w,
  match m (stores s) w with (r, x, w') => (r, mkSystem x (machine s) (skills s) (listener s), w') end.
Definition with_machine {L A} (m : M ExecState A) : M (System L) A := λ s w,
  match m (machine s) w with (r, x, w') => (r, mkSystem (stores s) x (skills s) (listener s), w') end.
Definition with_runtime {L A} (m : M Runtime.Store A) : M (System L) A := with_stores (MemScheduler.with_runtime m).
Definition with_memory {L A} (m : M MemoryStore.Store A) : M (System L) A := with_stores (MemScheduler.with_memory m).
Definition with_approvals {L A} (m : M Approval.Store A) : M (System L) A := with_machine (Execution.with_approvals m).
Abbreviation disk s := (Execution.workspace (machine s)).

(** ** External programs *)

(** What an external program is started with: its environment beyond the
    runner's own, and the task and runtime root on its standard input. *)
Record ExternalInvocation := mkInvocation {
  inv_Command : string; inv_Args : list string; inv_Dir : string; inv_Env : gmap string string; inv_Timeout : Z;
  inv_Task : Task; inv_RuntimeRoot : string }.
Record externalArtifact := mkArtifact { ar_Kind : string; ar_Name : string; ar_Content : string }.
Record externalObservation := mkObservation { ob_Kind : string; ob_Name : string; Payload : option object }.
Record externalResult := mkExternalResult {
  ex_State : string; ex_NextAction : string; ex_FailureReason : string; ex_Metadata : gmap string string;
  Artifacts : list externalArtifact; Observations : list externalObservation }.
Record externalTelemetry := mkTelemetry {
  ManifestPath : string; CommandPath : string; tl_WorkDir : string; tl_StartedAt : Time; tl_FinishedAt : Time;
  DurationMS : Z; ApprovalRequired : bool; WriteRootExposed : bool }.

(** ** What the runner is built from *)

(** The connectors, absent or with what they answer at the [n]-th reading of
    the environment: the message of an error, or a response. *)
Record Connectors := mkConnectors {
  c_search : option (nat → string → Z → string + SearchResponse);
  c_github : option (nat → string → Z → string + GitHubIssueResponse);
  c_email : option (nat → string → Z → string + EmailResponse) }.
(** [exec_*]: the executor's configuration; [stat]: the message of an [os.Stat]
    error or whether the path is a directory; [external]: what an external
    program does at the [n]-th reading; the orders in which maps are visited;
    [notify]: what the listener does at a progress event. *)
Record Runner (L : Type) := mkRunner {
  os : Os; env : Env; exec_root : string; exec_token : string; exec_approvals : bool;
  has_approvals : bool; rootDir : string; connectors : option Connectors; model : option TextGateway;
  schedulerCfg : MemScheduler.Config;
  stat : string → string + bool; external : nat → ExternalInvocation → ShellOutcome;
  error_text : error → string; json_error : string → string;
  card_ords : nat → MemoryStore.Store → list string; group_ord : gmap string (list Task) → list string;
  notify : ProgressEvent → M (System L) unit }.
Arguments mkRunner {L} _ _ _ _ _ _ _ _ _ _ _ _ _ _ _ _ _.
Arguments os {L} _.
Arguments env {L} _.
Arguments exec_root {L} _.
Arguments exec_token {L} _.
Arguments exec_approvals {L} _.
Arguments has_approvals {L} _.
Arguments rootDir {L} _.
Arguments connectors {L} _.
Arguments model {L} _.
Arguments schedulerCfg {L} _.
Arguments stat {L} _ _.
Arguments external {L} _ _ _.
Arguments error_text {L} _ _.
Arguments json_error {L} _ _.
Arguments card_ords {L} _ _ _.
Arguments group_ord {L} _ _.
Arguments notify {L} _ _.

(** The listener touches nothing of the runner's. *)
Definition listens {L} (r : Runner L) : Prop := ∀ e s w, ∃ l w',
  notify r e s w = (Ok tt, mkSystem (stores s) (machine s) (skills s) l, w') ∧ same_env w w'.
(** The runner with another listener. *)
Definition retarget {L L'} (r : Runner L) (notify : ProgressEvent → M (System L') unit) : Runner L' :=
  mkRunner (os r) (env r) (exec_root r) (exec_token r) (exec_approvals r) (has_approvals r) (rootDir r) (connectors r) (model r)
    (schedulerCfg r) (stat r) (external r) (error_text r) (json_error r) (card_ords r) (group_ord r) notify.
(** A listener that keeps the events. *)
Definition log_events (e : ProgressEvent) : M (System (list ProgressEvent)) unit :=
  modify (λ s, mkSystem (stores s) (machine s) (skills s) (listener s ++ [e])).

Definition getter (task : Task) (key : string) : string := default "" (default ∅ (Runtime.Metadata task) !! key).
Definition unmaybe {L A} (e : option error) (a : A) : M (System L) A := match e with Some e => throw e | None => mret a end.

(** ** JSON *)

(** [map[string]any{..}] *)
Definition payload_of (members : list (string * json)) : object := foldl (λ m p, obj_set p.1 p.2 m) [] members.
Definition JInt (z : Z) : json := JNum (of_int z).
(** A slice that is nil when it is empty. *)
Definition JStrings (l : list string) : json := match l with [] => JNull | _ => JArr (JStr <$> l) end.

(** Decoding into a struct: the member of a field is found by its name, or by
    one that differs in case ([encoding/json]'s [foldName]); [null] leaves the
    zero value. *)
Definition fold_rune (r : Z) : Z :=
  if (65 <=? r) && (r <=? 90) then r + 32 else if r =? 383 then 115 else if r =? 8490 then 107 else r.
Definition fold_name (s : string) : list Z := fold_rune <$> runes s.
Definition member (name : string) (m : object) : json :=
  match obj_get name m with
  | Some v => v
  | None => default JNull (snd <$> List.find (λ p, bool_decide (fold_name p.1 = fold_name name)) m)
  end.
Definition string_field (v : json) : option string := match v with JNull => Some "" | JStr s => Some s | _ => None end.
Definition strings_field (v : json) : option (gmap string string) :=
  match v with
  | JNull => Some ∅
  | JObj m => list_to_map <$> mapM (λ p, s ← string_field p.2; Some (p.1, s)) m
  | _ => None
  end.
Definition struct_field (v : json) : option object := match v with JNull => Some [] | JObj m => Some m | _ => None end.
Definition object_field (v : json) : option (option object) := match v with JNull => Some None | JObj m => Some (Some m) | _ => None end.
Definition list_field {A} (item : json → option A) (v : json) : option (list A) :=
  match v with JNull => Some [] | JArr l => mapM item l | _ => None end.
Definition decode_artifact (v : json) : option externalArtifact :=
  m ← struct_field v;
  k ← string_field (member "kind" m); n ← string_field (member "name" m); c ← string_field (member "content" m);
  Some (mkArtifact k n c).
Definition decode_observation (v : json) : option externalObservation :=
  m ← struct_field v;
  k ← string_field (member "kind" m); n ← string_field (member "name" m); p ← object_field (member "payload" m);
  Some (mkObservation k n p).
Definition decode_result (stdout : string) : option externalResult :=
  v ← decode stdout; m ← struct_field v;
  state ← string_field (member "state" m); next ← string_field (member "next_action" m);
  reason ← string_field (member "failure_reason" m); md ← strings_field (member "metadata" m);
  artifacts ← list_field decode_artifact (member "artifacts" m);
  observations ← list_field decode_observation (member "observations" m);
  Some (mkExternalResult state next reason md artifacts observations).
(** The procedure a model answers with. *)
Definition decode_procedure (text : string) : option procedureHints :=
  v ← decode text; m ← struct_field v;
  summary ← string_field (member "summary" m); steps ← string_field (member "steps" m);
  guardrails ← string_field (member "guardrails" m); signal ← string_field (member "success_signal" m);
  Some (mkHints steps guardrails summary signal).

(** [Format(time.RFC3339Nano)]: the fraction without its trailing zeros. *)
Fixpoint trim_zeros (rev_digits : string) : string :=
  match rev_digits with String "0" r => trim_zeros r | _ => rev_digits end.
Definition RFC3339Nano (t : Time) : string :=
  if t mod Second =? 0 then GoTime.RFC3339 t
  else TrimSuffix (GoTime.RFC3339 t) "Z" +:+ "." +:+ String.rev (trim_zeros (String.rev (GoTime.digits 9 (t mod Second)))) +:+ "Z".

Section runner.
Context {tables : UnicodeTables} {url : UrlPackage} {digits : Recall.FloatFormat} {L : Type}.
Variable r : Runner L.

(** ** Progress, files and the runtime state *)

Definition emitProgress (onProgress : bool) (stage message : string) : M (System L) unit :=
  if onProgress then notify r (mkProgress (TrimSpace stage) (TrimSpace message)) else mret tt.
(** [os.WriteFile], after [os.MkdirAll] *)
Definition write_file (path content : string) : M (System L) unit :=
  f ← io;
  let write content := modify (λ s, mkSystem (stores s)
    (Execution.set_workspace (insert path content) (machine s)) (skills s) (listener s)) in
  match f with
  | NoFault => write content
  | FailEarly => throw EIO
  | FailTorn => _ ← write ""; throw EIO
  end.
Definition file_path (area kind name : string) : string := Join2 (Join2 (Join2 (rootDir r) area) kind) name.
Definition writeArtifact (kind name content : string) : M (System L) string :=
  let path := file_path "artifacts" kind name in _ ← write_file path content; mret path.
Definition writeObservation (kind name : string) (payload : json) : M (System L) string :=
  let path := file_path "observations" kind name in
  if negb (encodable payload) then throw EJson else
  _ ← write_file path (print_indent 0 payload +:+ newline); mret path.
Definition observe (kind name : string) (members : list (string * json)) : M (System L) string :=
  writeObservation kind name (JObj (payload_of members)).

(** [MoveTask] with a mutation of the next action, the failure reason (kept
    if there is none given) and the metadata. *)
Definition settled (nextAction : string) (failure : option string) (edit : gmap string string → gmap string string) (t : Task) : Task :=
  Runtime.with_fields t (Runtime.SelectedSkill t) nextAction (default (Runtime.FailureReason t) failure) (Runtime.RequiresApproval t)
    (Some (edit (default ∅ (Runtime.Metadata t)))).
Definition settle (taskID state nextAction : string) (failure : option string) (edit : gmap string string → gmap string string) : M (System L) Task :=
  with_runtime (Runtime.MoveTask taskID state (λ t, mret (settled nextAction failure edit t))).
Definition clearActiveTask (taskID : string) : M (System L) unit :=
  state ← with_runtime Runtime.LoadState;
  with_runtime (Runtime.SaveState (if decide (Runtime.ActiveTaskID state = Some taskID) then Runtime.idle state else state)).
Definition blockTask (task : Task) (reason : string) : M (System L) RunResult :=
  updated ← with_runtime (Runtime.MoveTask (TaskID task) Runtime.TaskStateBlocked (λ t,
    mret (Runtime.with_fields t (Runtime.SelectedSkill t) "blocked" reason (Runtime.RequiresApproval t) (Runtime.Metadata t))));
  _ ← clearActiveTask (TaskID updated);
  mret (mkRunResult updated None [] []).
Definition blockSearchTask (task : Task) (reason : string) : M (System L) RunResult :=
  obsPath ← observe "os" (TaskID task +:+ "-web-search.json") [
    ("type", JStr "web-search"); ("task_id", JStr (TaskID task)); ("status", JStr "blocked"); ("reason", JStr reason);
    ("goal", JStr (Runtime.Goal task))];
  result ← blockTask task reason;
  mret (mkRunResult (rr_Task result) (rr_Action result) (ArtifactPaths result) [obsPath]).

(** ** Maintenance after a task *)

(** The configuration of the scheduler of a skill, if it has one. *)
Definition schedulerForSkill (selectedSkill : string) (s : Skills.System) : option MemScheduler.Config :=
  def ← Skills.Resolve (Skills.registry s) (TrimSpace selectedSkill);
  if negb (Skills.Enabled def) then None else
  policy ← Skills.Maintenance def;
  if negb (Skills.mp_Enabled policy) then None else
  let c := schedulerCfg r in
  Some (MemScheduler.New (MemScheduler.mkConfig
    (if blank (Skills.mp_Scope policy) then MemScheduler.cf_Scope c else TrimSpace (Skills.mp_Scope policy))
    (MemScheduler.Cooldown c)
    (if 0 <? Skills.MinCandidates policy then Skills.MinCandidates policy else MemScheduler.MinCandidates c)
    (match Skills.AllowedCardTypes policy with [] => MemScheduler.AllowedCardTypes c | types => types end)
    (MemScheduler.ExtractProcedures c) (MemScheduler.ProcedureMinRuns c))).
Definition finalizeSuccessfulTask (task : Task) (onProgress : bool) : M (System L) unit :=
  _ ← clearActiveTask (TaskID task);
  if negb (bool_decide (Runtime.State task = Runtime.TaskStateDone)) then mret tt else
  s ← get;
  match schedulerForSkill (Runtime.SelectedSkill task) (skills s) with
  | None => mret tt
  | Some config =>
      let m := MemScheduler.memory (stores s) in
      '(decision, err) ← with_stores (MemScheduler.EvaluateAndSchedule config true (card_ords r 0 m) (card_ords r 1 m) (card_ords r 2 m) "task_completion");
      if negb (bool_decide (is_Some err)) && MemScheduler.Triggered decision
      then emitProgress onProgress "maintenance.schedule" "Queued memory consolidation maintenance." else mret tt
  end.

(** ** Approval of root tasks *)

Definition awaitApproval (task : Task) (record : Approval.Request) : M (System L) RunResult :=
  updated ← settle (TaskID task) Runtime.TaskStateAwaitingApproval "await root approval" (Some "")
    (λ md, <["root_approval_id" := Approval.ApprovalID record]> (delete "approval_token" md));
  _ ← clearActiveTask (TaskID updated);
  obsPath ← observe "os" (TaskID task +:+ "-root-approval.json") [
    ("type", JStr "root-approval-request"); ("task_id", JStr (TaskID task)); ("approval_id", JStr (Approval.ApprovalID record));
    ("execution", JStr (Approval.ExecutionProfile record)); ("action_kind", JStr (Approval.ActionKind record));
    ("summary", JStr (Approval.Summary record)); ("status", JStr (Approval.Status record));
    ("requested_by", JStr (Approval.RequestedBy record)); ("requested_at", JStr (GoTime.RFC3339 (Approval.CreatedAt record)));
    ("requires_human", JBool true)];
  mret (mkRunResult updated None [] [obsPath]).
Definition no_approvals : string := "root execution requested but approval flow is not configured".
Definition requestRootApproval (task : Task) (actionKind summary : string) (metadata : gmap string string) : M (System L) RunResult :=
  if negb (has_approvals r) then blockTask task no_approvals else
  let approvalID := TrimSpace (getter task "root_approval_id") in
  existing ← (if decide (approvalID = "") then mret None
              else res ← try (with_approvals (Approval.Get approvalID)); mret (match res with Ok x => Some x | Err _ => None end));
  let create :=
    record ← with_approvals (Approval.Create (Approval.mkCreateRequest (TaskID task) "root" actionKind summary
      (firstNonEmpty [Runtime.RequestedBy task; "runtime"]) metadata));
    awaitApproval task record in
  match existing with
  | Some x => if decide (Approval.Status x = Approval.StatusPending) then awaitApproval task x else create
  | None => create
  end.
(** The approval token, or the result of a task that may not run yet. *)
Definition resolveRootApproval (task : Task) (actionKind summary : string) (metadata : gmap string string) : M (System L) (string + RunResult) :=
  let stop m := result ← m; mret (inr result) in
  if negb (bool_decide (Runtime.ExecutionProfile task = "root")) then mret (inl "")
  else if negb (has_approvals r) then stop (blockTask task no_approvals)
  else
  let approvalID := getter task "root_approval_id" in
  if blank approvalID then stop (requestRootApproval task actionKind summary metadata) else
  res ← try (with_approvals (Approval.Get approvalID));
  match res with
  | Err _ => stop (blockTask task "root approval record is missing")
  | Ok record =>
      if decide (Approval.Status record = Approval.StatusPending) then stop (awaitApproval task record)
      else if decide (Approval.Status record = Approval.StatusApproved) then mret (inl (Approval.ApprovalToken record))
      else if decide (Approval.Status record = Approval.StatusDenied)
      then stop (blockTask task (firstNonEmpty [Approval.DeniedReason record; "root approval denied"]))
      else if decide (Approval.Status record = Approval.StatusConsumed)
      then stop (blockTask task "root approval already consumed; request a new approval")
      else stop (blockTask task "root approval is not usable")
  end.

(** ** Plans and summaries of the model *)

Definition no_response : TextResponse := mkTextResponse "" "" "".
(** The text, the model's response and the message of its error. *)
Definition generate (system prompt fallback : string) : M (System L) (string * TextResponse * option string) :=
  match model r with
  | None => mret (fallback, no_response, None)
  | Some model =>
      '(resp, err) ← GenerateText model (mkTextRequest system prompt 400 (lit 2 10) ProfileSkills);
      if bool_decide (is_Some err) || blank (resp_Text resp) then mret (fallback, resp, err)
      else mret (resp_Text resp +:+ newline, resp, None)
  end.
Definition plan_skill (task : Task) : string := firstNonEmpty [Runtime.SelectedSkill task; "task-plan"].
Definition generateTaskPlan (task : Task) (t : Time) : M (System L) (string * TextResponse * option string) :=
  generate
    "You are the planning module of an AgentOS. Write concise, practical markdown plans. Do not tell the user to approve, sign off, or wait for review of this plan as a separate workflow step — the plan is informational; execution is handled by the runtime."
    ("Create a short markdown task plan." +:+ newline +:+ "Task ID: " +:+ TaskID task +:+ newline +:+ "Title: " +:+ Runtime.Title task +:+ newline
     +:+ "Goal: " +:+ Runtime.Goal task +:+ newline +:+ "Selected Skill: " +:+ plan_skill task +:+ newline +:+ "Time: " +:+ GoTime.RFC3339 t)
    ("# Task Plan" +:+ newline +:+ newline +:+ "Task ID: " +:+ TaskID task +:+ newline +:+ "Title: " +:+ Runtime.Title task +:+ newline
     +:+ "Goal: " +:+ Runtime.Goal task +:+ newline +:+ "Selected Skill: " +:+ plan_skill task +:+ newline
     +:+ "Generated At: " +:+ GoTime.RFC3339 t +:+ newline +:+ newline +:+ "Next Step: execute via runtime action pipeline." +:+ newline).
Definition generateMemorySummary (task : Task) (t : Time) : M (System L) (string * TextResponse * option string) :=
  generate
    "You are the memory steward of an AgentOS. Summarize durable facts, context, and next-useful memory in concise markdown."
    ("Write a markdown memory consolidation note." +:+ newline +:+ "Task: " +:+ Runtime.Title task +:+ newline
     +:+ "Goal: " +:+ Runtime.Goal task +:+ newline +:+ "Time: " +:+ GoTime.RFC3339 t)
    ("# Memory Consolidation" +:+ newline +:+ newline +:+ "Task: " +:+ Runtime.Title task +:+ newline +:+ "Goal: " +:+ Runtime.Goal task +:+ newline
     +:+ "Generated At: " +:+ GoTime.RFC3339 t +:+ newline +:+ newline +:+ "Summary: memory consolidation placeholder artifact." +:+ newline).
Definition errorString (err : option string) : string := default "" err.
(** What the observation says of the procedure that guided the task. *)
Definition procedure_members (task : Task) : list (string * json) :=
  let md := default ∅ (Runtime.Metadata task) in
  let hints := procedureHintsFromMetadata md in
  if hasEvidence hints then [
    ("procedure_task_class", JStr (firstNonEmpty [TrimSpace (getter task "procedure_task_class"); TrimSpace (getter task "task_class")]));
    ("procedure_steps", JStr (h_Steps hints)); ("procedure_guardrails", JStr (h_Guardrails hints));
    ("procedure_summary", JStr (h_Summary hints)); ("procedure_success_signal", JStr (h_SuccessSignal hints))]
  else [].

(** ** The built-in skills *)

Definition set (key value : string) (md : gmap string string) : gmap string string := <[key := value]> md.
Definition runTaskPlan (task : Task) (onProgress : bool) : M (System L) RunResult :=
  _ ← emitProgress onProgress "planning.generate" "Generating the task plan...";
  t ← now;
  '(body, modelResp, modelErr) ← generateTaskPlan task t;
  let body := attachProcedureHintsToPlan body (default ∅ (Runtime.Metadata task)) in
  _ ← emitProgress onProgress "planning.persist" "Writing the plan artifact and observation...";
  artifactPath ← writeArtifact "reports" (TaskID task +:+ "-plan.md") body;
  obsPath ← observe "os" (TaskID task +:+ "-plan.json") ([
    ("type", JStr "task-plan"); ("task_id", JStr (TaskID task)); ("selected_skill", JStr (plan_skill task));
    ("generated_at", JStr (GoTime.RFC3339 t)); ("summary", JStr "plan artifact generated");
    ("model_provider", JStr (resp_Provider modelResp)); ("model_name", JStr (resp_Model modelResp));
    ("model_error", JStr (errorString modelErr)); ("artifact_path", JStr artifactPath)] ++ procedure_members task);
  updated ← settle (TaskID task) Runtime.TaskStateDone "plan generated" None
    (λ md, set "plan_observation" obsPath (set "plan_artifact" artifactPath md));
  _ ← finalizeSuccessfulTask updated onProgress;
  mret (mkRunResult updated None [artifactPath] [obsPath]).

(** After an action: the task is done, or failed and cleared. *)
Definition completed (action : ActionRecord) : bool := bool_decide (Execution.Status action = Execution.ActionStatusCompleted).
Definition acted (action : ActionRecord) (extra : gmap string string → gmap string string) (md : gmap string string) : gmap string string :=
  delete "approval_token" (extra (set "last_action_id" (Execution.ActionID action) md)).
Definition action_failed (task : Task) (action : ActionRecord) (what : string) : M (System L) Task :=
  settle (TaskID task) Runtime.TaskStateFailed ("investigate failed " +:+ what)
    (Some (firstNonEmpty [Execution.Error action; what +:+ " failed"])) (acted action id).
(** [action, err := ...] of the executor *)
Definition execute (m : M ExecState (ActionRecord * option error)) : M (System L) ActionRecord :=
  '(action, err) ← with_machine m; unmaybe err action.

Definition runFileEdit (task : Task) (onProgress : bool) : M (System L) RunResult :=
  let path := getter task "path" in
  let content := getter task "content" in
  if blank path then blockTask task "missing metadata.path for file-edit" else
  approval ← resolveRootApproval task Execution.ActionKindFileWrite ("root file write to " +:+ path)
    (list_to_map [("path", path); ("skill", "file-edit")]);
  match approval with
  | inr result => mret result
  | inl approvalToken =>
      _ ← emitProgress onProgress "execution.dispatch" ("Writing file " +:+ path +:+ "...");
      action ← execute (Execution.ExecuteFileWrite (os r) (env r) (exec_root r) (exec_token r) (exec_approvals r)
        (Execution.mkWriteRequest (TaskID task) path content true 0 0 "" (Runtime.ExecutionProfile task) approvalToken {["skill" := "file-edit"]}));
      _ ← emitProgress onProgress "execution.persist" "Recording file edit results...";
      obsPath ← observe "filesystem" (TaskID task +:+ "-file-edit.json") [
        ("type", JStr "file-edit"); ("task_id", JStr (TaskID task)); ("action_id", JStr (Execution.ActionID action));
        ("path", JStr path); ("status", JStr (Execution.Status action)); ("changed_files", JStrings (Execution.ChangedFiles action))];
      if completed action then
        updated ← settle (TaskID task) Runtime.TaskStateDone "file edit completed" None (acted action id);
        _ ← finalizeSuccessfulTask updated onProgress;
        mret (mkRunResult updated (Some action) [] [obsPath])
      else
        updated ← action_failed task action "file edit";
        _ ← clearActiveTask (TaskID updated);
        mret (mkRunResult updated (Some action) [] [obsPath])
  end.

Definition runFileRead (task : Task) (onProgress : bool) : M (System L) RunResult :=
  let path := getter task "path" in
  if blank path then blockTask task "missing metadata.path for file-read" else
  approval ← resolveRootApproval task Execution.ActionKindFileRead ("root file read from " +:+ path)
    (list_to_map [("path", path); ("skill", "file-read")]);
  match approval with
  | inr result => mret result
  | inl approvalToken =>
      _ ← emitProgress onProgress "execution.dispatch" ("Reading file " +:+ path +:+ "...");
      action ← execute (Execution.ExecuteFileRead (os r) (env r) (exec_root r) (exec_token r) (exec_approvals r)
        (Execution.mkReadRequest (TaskID task) path 0 0 "" (Runtime.ExecutionProfile task) approvalToken {["skill" := "file-read"]}));
      _ ← emitProgress onProgress "execution.persist" "Persisting the file read artifact...";
      artifactPath ← writeArtifact "reports" (TaskID task +:+ "-file-read.txt") (Execution.Stdout action);
      obsPath ← observe "filesystem" (TaskID task +:+ "-file-read.json") [
        ("type", JStr "file-read"); ("task_id", JStr (TaskID task)); ("action_id", JStr (Execution.ActionID action));
        ("path", JStr path); ("status", JStr (Execution.Status action)); ("artifact_path", JStr artifactPath)];
      if completed action then
        updated ← settle (TaskID task) Runtime.TaskStateDone "file read completed" None (acted action (set "file_read_artifact" artifactPath));
        _ ← finalizeSuccessfulTask updated onProgress;
        mret (mkRunResult updated (Some action) [artifactPath] [obsPath])
      else
        updated ← action_failed task action "file read";
        _ ← clearActiveTask (TaskID updated);
        mret (mkRunResult updated (Some action) [artifactPath] [obsPath])
  end.

Definition runShellCommand (task : Task) (onProgress : bool) : M (System L) RunResult :=
  let command := TrimSpace (getter task "command") in
  if decide (command = "") then blockTask task "missing metadata.command for shell-command" else
  let args := splitArgs (getter task "args") in
  let workdir := getter task "workdir" in
  approval ← resolveRootApproval task Execution.ActionKindShell ("root shell command " +:+ command)
    (list_to_map [("command", command); ("args", getter task "args"); ("workdir", workdir); ("skill", "shell-command")]);
  match approval with
  | inr result => mret result
  | inl approvalToken =>
      _ ← emitProgress onProgress "execution.dispatch" ("Running command " +:+ command +:+ "...");
      action ← execute (Execution.ExecuteShell (os r) (env r) (exec_root r) (exec_token r) (exec_approvals r)
        (Execution.mkShellRequest (TaskID task) command args workdir (parseInt (getter task "timeout_ms") 0) 0
          (parseInt (getter task "max_attempts") 0) (TrimSpace (getter task "idempotency_key")) (Runtime.ExecutionProfile task)
          approvalToken {["skill" := "shell-command"]}));
      _ ← emitProgress onProgress "execution.persist" "Persisting command output...";
      artifactPath ← writeArtifact "reports" (TaskID task +:+ "-shell.txt")
        (TrimSpace (Execution.Stdout action +:+ newline +:+ Execution.Stderr action));
      obsPath ← observe "os" (TaskID task +:+ "-shell.json") [
        ("type", JStr "shell-command"); ("task_id", JStr (TaskID task)); ("action_id", JStr (Execution.ActionID action));
        ("command", JStr command); ("args", if blank (getter task "args") then JNull else JArr (JStr <$> args));
        ("workdir", JStr workdir); ("status", JStr (Execution.Status action));
        ("attempts", JInt (Z.of_nat (length (Execution.AttemptHistory action)))); ("retryable", JBool (Execution.Retryable action));
        ("failure_type", JStr (Execution.FailureCategory action)); ("replayed", JBool (Execution.Replayed action));
        ("replay_of", JStr (Execution.ReplayOfActionID action)); ("artifact_path", JStr artifactPath)];
      if completed action then
        updated ← settle (TaskID task) Runtime.TaskStateDone "shell command completed" None (acted action (set "shell_artifact" artifactPath));
        _ ← finalizeSuccessfulTask updated onProgress;
        mret (mkRunResult updated (Some action) [artifactPath] [obsPath])
      else
        updated ← action_failed task action "shell command";
        _ ← finalizeSuccessfulTask updated onProgress;
        mret (mkRunResult updated (Some action) [artifactPath] [obsPath])
  end.

(** *** Searches *)

Definition ErrConnectorUnavailable : string := "connector unavailable".
(** A call of a connector. *)
Definition call {A} (f : nat → string → Z → string + A) (query : string) (limit : Z) : M (System L) (string + A) :=
  λ s w, (Ok (f (tick w) query limit), s, advance w).
Definition Search (c : Connectors) (query : string) (limit : Z) : M (System L) (string + SearchResponse) :=
  match c_search c with
  | None => mret (inl ErrConnectorUnavailable)
  | Some f => if blank query then mret (inl "search query is required") else call f (TrimSpace query) limit
  end.
Definition SearchGitHubIssues (c : Connectors) (query : string) (limit : Z) : M (System L) (string + GitHubIssueResponse) :=
  match c_github c with
  | None => mret (inl ErrConnectorUnavailable)
  | Some f => if blank query then mret (inl "github issue query is required") else call f (TrimSpace query) limit
  end.
Definition ListEmails (c : Connectors) (query : string) (limit : Z) : M (System L) (string + EmailResponse) :=
  match c_email c with
  | None => mret (inl ErrConnectorUnavailable)
  | Some f => call f (TrimSpace query) limit
  end.

(** The observation of a search that succeeded. *)
Definition search_members {A} (type : string) (task : Task) (resp : Response A) (artifactPath : string) : list (string * json) := [
  ("type", JStr type); ("task_id", JStr (TaskID task)); ("status", JStr "completed"); ("query", JStr (Query resp));
  ("provider", JStr (Provider resp)); ("result_count", JInt (Z.of_nat (length (Results resp)))); ("artifact_path", JStr artifactPath)].

Definition runWebSearch (task : Task) (onProgress : bool) : M (System L) RunResult :=
  match connectors r with
  | None => blockSearchTask task "web search API is not configured"
  | Some c =>
      let query := firstNonEmpty [getter task "query"; Runtime.Goal task] in
      if blank query then blockSearchTask task "missing search query" else
      _ ← emitProgress onProgress "connector.request" "Calling the web search connector...";
      answer ← Search c query 5;
      match answer with
      | inl err => blockSearchTask task err
      | inr resp =>
          _ ← emitProgress onProgress "persist.artifacts" "Writing search artifact and observation...";
          artifactPath ← writeArtifact "reports" (TaskID task +:+ "-web-search.md") (renderSearchArtifact task resp);
          obsPath ← observe "os" (TaskID task +:+ "-web-search.json")
            (("goal", JStr (Runtime.Goal task)) :: search_members "web-search" task resp artifactPath);
          _ ← emitProgress onProgress "persist.memory" "Writing search results into memory...";
          _ ← with_memory (persistWebSearchMemory (model r) task artifactPath obsPath resp);
          updated ← settle (TaskID task) Runtime.TaskStateDone "web search completed" None (λ md,
            set "web_search_summary_card_id" (searchSummaryCardID (TaskID task))
              (set "web_search_memory_card_id" (searchMemoryCardID (TaskID task)) (set "web_search_artifact" artifactPath md)));
          _ ← finalizeSuccessfulTask updated onProgress;
          mret (mkRunResult updated None [artifactPath] [obsPath])
      end
  end.

Definition runGitHubIssueSearch (task : Task) (onProgress : bool) : M (System L) RunResult :=
  match connectors r with
  | None => blockTask task "connector runtime is not configured"
  | Some c =>
      let query := firstNonEmpty [getter task "query"; Runtime.Goal task] in
      _ ← emitProgress onProgress "connector.request" "Calling the GitHub connector...";
      answer ← SearchGitHubIssues c query 5;
      match answer with
      | inl err => blockTask task err
      | inr resp =>
          _ ← emitProgress onProgress "persist.artifacts" "Writing GitHub search artifact and observation...";
          artifactPath ← writeArtifact "reports" (TaskID task +:+ "-github-issues.md") (renderGitHubIssueArtifact task resp);
          obsPath ← observe "os" (TaskID task +:+ "-github-issues.json") (search_members "github-issue-search" task resp artifactPath);
          _ ← emitProgress onProgress "persist.memory" "Writing GitHub issues into memory...";
          _ ← with_memory (persistGitHubIssueMemory (model r) task artifactPath obsPath resp);
          updated ← settle (TaskID task) Runtime.TaskStateDone "github issue search completed" None (λ md,
            set "github_issue_summary_card_id" (githubIssueSummaryCardID (TaskID task))
              (set "github_issue_memory_card_id" (githubIssueMemoryCardID (TaskID task)) (set "github_issue_artifact" artifactPath md)));
          _ ← finalizeSuccessfulTask updated onProgress;
          mret (mkRunResult updated None [artifactPath] [obsPath])
      end
  end.

Definition runEmailInbox (task : Task) (onProgress : bool) : M (System L) RunResult :=
  match connectors r with
  | None => blockTask task "connector runtime is not configured"
  | Some c =>
      let query := TrimSpace (getter task "query") in
      _ ← emitProgress onProgress "connector.request" "Calling the email connector...";
      answer ← ListEmails c query 10;
      match answer with
      | inl err => blockTask task err
      | inr resp =>
          _ ← emitProgress onProgress "persist.artifacts" "Writing email artifact and observation...";
          artifactPath ← writeArtifact "reports" (TaskID task +:+ "-email-inbox.md") (renderEmailArtifact task resp);
          obsPath ← observe "os" (TaskID task +:+ "-email-inbox.json") (search_members "email-inbox" task resp artifactPath);
          _ ← emitProgress onProgress "persist.memory" "Writing email threads into memory...";
          _ ← with_memory (persistEmailMemory (model r) task artifactPath obsPath resp);
          updated ← settle (TaskID task) Runtime.TaskStateDone "email inbox checked" None (λ md,
            set "email_summary_card_id" (emailSummaryCardID (TaskID task))
              (set "email_memory_card_id" (emailMemoryCardID (TaskID task)) (set "email_artifact" artifactPath md)));
          _ ← finalizeSuccessfulTask updated onProgress;
          mret (mkRunResult updated None [artifactPath] [obsPath])
      end
  end.

(** *** Memory consolidation *)

(** [CreateCard], where a card that exists is no error. *)
Definition create_new (req : CreateCardRequest) : M (System L) unit :=
  res ← try (with_memory (MemoryStore.CreateCard req));
  match res with Ok _ | Err ErrAlreadyExists => mret tt | Err e => throw e end.
Definition extraction_scope (task : Task) : string := firstNonEmpty [TrimSpace (getter task "scope"); ScopeProject].
Definition extractProcedureCandidates (task : Task) : M (System L) unit :=
  tasks ← with_runtime Runtime.ListTasks;
  s ← get;
  let req := Procedural.mkExtractionRequest tasks (TrimSpace (getter task "task_class")) (TrimSpace (getter task "selected_skill"))
    (extraction_scope task) (parseInt (getter task "min_runs") 2)
    (Some (procedureEvidenceForTask (λ path, disk s !! path))) in
  forM create_new (Procedural.BuildProcedureCandidates (group_ord r (Procedural.signature_groups req)) req).1.

(** The key of a group of runs, and what is read back of it. *)
Definition group_key (taskClass selectedSkill : string) : string := taskClass +:+ "|" +:+ selectedSkill.
Definition split_group_key (k : string) : string * string := default (k, "") (Cut k "|").
Definition smart_key (t : Task) : option string :=
  if negb (bool_decide (Runtime.State t = Runtime.TaskStateDone)) || negb (blank (getter t "procedure_steps")) then None else
  let taskClass := firstNonEmpty [TrimSpace (getter t "procedure_task_class"); TrimSpace (getter t "task_class")] in
  let selectedSkill := TrimSpace (Runtime.SelectedSkill t) in
  if bool_decide (taskClass = "") || bool_decide (selectedSkill = "") then None else Some (group_key taskClass selectedSkill).
Definition smart_groups (tasks : list Task) : gmap string (list Task) :=
  foldl (λ m t, match smart_key t with Some k => <[k := default [] (m !! k) ++ [t]]> m | None => m end) ∅ tasks.
Definition content_is (key value : string) (c : Card) : bool :=
  bool_decide (Recall.Sprintf_v (default ANull (default ∅ (card_Content c) !! key)) = value).
Definition procedure_known (taskClass selectedSkill scope : string) (ord : list string) (s : MemoryStore.Store) : bool :=
  existsb (λ c, content_is "task_class" taskClass c && content_is "selected_skill" selectedSkill c
      && (bool_decide (Status c = CardStatusActive) || bool_decide (Status c = CardStatusCandidate)))
    (Cards (MemoryStore.Query ord (mkQueryRequest "" "procedure" scope "" None) s)).
(** The text of an answer without a Markdown fence around it. *)
Definition strip_fence (text : string) : string :=
  let text := TrimSpace text in
  if HasPrefix text "```json" then TrimSpace (TrimSuffix (TrimPrefix text "```json") "```")
  else if HasPrefix text "```" then TrimSpace (TrimSuffix (TrimPrefix text "```") "```")
  else text.
(** A text with its backquotes as double quotes. *)
Definition quoted_text (s : string) : string := map_bytes (λ a, if decide (a = "`"%char) then byte 34 else a) s.
Definition run_evidence (i : nat) (t : Task) : string :=
  "Run " +:+ Itoa (Z.of_nat i + 1) +:+ ":" +:+ newline +:+ "Title: " +:+ Runtime.Title t +:+ newline +:+ "Goal: " +:+ Runtime.Goal t
  +:+ newline +:+ newline.
Definition smart_request (taskClass selectedSkill : string) (runs : list Task) : TextRequest :=
  mkTextRequest
    (quoted_text "You are the procedural memory extractor of an AgentOS. You extract standard operating procedures (steps, guardrails, success signal) from a series of successful task runs. Return ONLY a valid JSON object matching this schema: {`summary`: `...`, `steps`: `step1\nstep2`, `guardrails`: `rule1\nrule2`, `success_signal`: `...`}. Do not wrap in markdown code blocks.")
    ("Extract a generalized procedure for task class '" +:+ taskClass +:+ "' using skill '" +:+ selectedSkill
     +:+ "' based on these successful runs:" +:+ newline +:+ Join (imap run_evidence runs) "")
    800 (lit 1 10) ProfileSkills.
Definition smart_card (taskClass selectedSkill scope : string) (group : list Task) (p : procedureHints) : CreateCardRequest :=
  let signature := taskClass +:+ "|" +:+ selectedSkill +:+ "|" +:+ h_Steps p +:+ "|" +:+ h_Guardrails p in
  let sanitizedPrefix := ReplaceAll taskClass " " "_" in
  let sanitizedPrefix := if decide (sanitizedPrefix = "") then "generic" else sanitizedPrefix in
  mkCreateCardRequest ("procedure:" +:+ sanitizedPrefix +:+ ":" +:+ Sha1.hex_bytes (take 6 (Sha1.Sum signature))) "procedure" scope
    CardStatusCandidate "" None None None
    (Some (list_to_map [
      ("name", AStr (sanitizedPrefix +:+ "_smart")); ("task_class", AStr taskClass); ("selected_skill", AStr selectedSkill);
      ("summary", AStr (TrimSpace (h_Summary p))); ("steps", AStr (TrimSpace (h_Steps p)));
      ("guardrails", AStr (TrimSpace (h_Guardrails p))); ("success_signal", AStr (TrimSpace (h_SuccessSignal p)));
      ("supporting_runs", AStrs (TaskID <$> group))]))
    None (mkProvenance "" "smart-procedure-extractor" (lit 8 10)).
(** One group of the loop. *)
Definition extract_group (model : TextGateway) (minRuns : Z) (scope : string) (onProgress : bool) (k : string) (group : list Task)
    : M (System L) unit :=
  if Z.of_nat (length group) <? minRuns then mret tt else
  let '(taskClass, selectedSkill) := split_group_key k in
  s ← get;
  let m := MemScheduler.memory (stores s) in
  if procedure_known taskClass selectedSkill scope (card_ords r 3 m) m then mret tt else
  _ ← emitProgress onProgress "consolidate.smart_procedures" ("Extracting smart procedural template for " +:+ taskClass +:+ "...");
  '(resp, err) ← GenerateText model (smart_request taskClass selectedSkill (take (Z.to_nat minRuns) group));
  match err, decode_procedure (strip_fence (resp_Text resp)) with
  | None, Some p =>
      if blank (h_Steps p) then mret tt else create_new (smart_card taskClass selectedSkill scope group p)
  | _, _ => mret tt
  end.
Definition extractSmartProcedureCandidates (model : TextGateway) (task : Task) (onProgress : bool) : M (System L) unit :=
  tasks ← with_runtime Runtime.ListTasks;
  let minRuns := parseInt (getter task "min_runs") 2 in
  let minRuns := if minRuns <=? 0 then 2 else minRuns in
  let groups := smart_groups tasks in
  forM (λ k, extract_group model minRuns (extraction_scope task) onProgress k (default [] (groups !! k))) (group_ord r groups).

Definition extract_procedures (task : Task) (onProgress : bool) : M (System L) unit :=
  if negb (parseBool (getter task "extract_procedures")) then mret tt else
  _ ← emitProgress onProgress "consolidate.procedures" "Extracting procedural candidates from successful task runs...";
  _ ← extractProcedureCandidates task;
  match model r with
  | Some model =>
      if negb (parseBool (getter task "smart_extract_procedures")) then mret tt else
      res ← try (extractSmartProcedureCandidates model task onProgress);
      match res with
      | Ok _ => mret tt
      | Err _ => emitProgress onProgress "consolidate.smart_procedures" "Smart procedural extraction skipped due to transient model error."
      end
  | None => mret tt
  end.
Definition runMemoryConsolidate (task : Task) (onProgress : bool) : M (System L) RunResult :=
  _ ← extract_procedures task onProgress;
  _ ← emitProgress onProgress "consolidate.replay" "Reviewing candidate memories for promotion...";
  s ← get;
  '(result, err) ← with_memory (Consolidator.PromoteCandidates (card_ords r 4 (MemScheduler.memory (stores s)))
    (Consolidator.mkConsolidateRequest (TrimSpace (getter task "card_type")) (TrimSpace (getter task "scope")) 0 false));
  _ ← unmaybe err tt;
  _ ← emitProgress onProgress "consolidate.generate" "Generating the memory summary...";
  t ← now;
  '(body, modelResp, modelErr) ← generateMemorySummary task t;
  let body := body +:+ newline +:+ "Promoted candidates: " +:+ Itoa (Consolidator.Promoted result) +:+ newline
    +:+ "Examined candidates: " +:+ Itoa (Consolidator.cs_Examined result) +:+ newline in
  let body := attachProcedureHintsToPlan body (default ∅ (Runtime.Metadata task)) in
  _ ← emitProgress onProgress "persist.artifacts" "Writing the memory artifact and observation...";
  artifactPath ← writeArtifact "reports" (TaskID task +:+ "-memory.md") body;
  obsPath ← observe "os" (TaskID task +:+ "-memory.json") ([
    ("type", JStr "memory-consolidate"); ("task_id", JStr (TaskID task)); ("generated_at", JStr (GoTime.RFC3339 t));
    ("model_provider", JStr (resp_Provider modelResp)); ("model_name", JStr (resp_Model modelResp));
    ("model_error", JStr (errorString modelErr)); ("examined", JInt (Consolidator.cs_Examined result));
    ("promoted", JInt (Consolidator.Promoted result)); ("promoted_cards", JStrings (Consolidator.PromotedCards result));
    ("artifact_path", JStr artifactPath)] ++ procedure_members task);
  updated ← settle (TaskID task) Runtime.TaskStateDone "memory consolidation recorded" None
    (λ md, set "memory_observation" obsPath (set "memory_artifact" artifactPath md));
  _ ← clearActiveTask (TaskID updated);
  mret (mkRunResult updated None [artifactPath] [obsPath]).

(** ** External commands *)

Definition failExternalTask (task : Task) (reason : string) : M (System L) RunResult :=
  updated ← settle (TaskID task) Runtime.TaskStateFailed "inspect external skill output"
    (Some (firstNonEmpty [reason; "external skill failed"])) id;
  _ ← clearActiveTask (TaskID updated);
  mret (mkRunResult updated None [] []).

(** Whether a path below [base] leads out of it, as [strings.HasPrefix(rel, "..")] tells. *)
Definition escapes (base path : string) : bool :=
  match Rel base path with Some rel => HasPrefix rel ".." | None => true end.
(** The message of the error, or the paths of the command and of its working
    directory. *)
Definition resolveExternalPaths (manifestPath : string) (cfg : Skills.ExternalConfig) : string + string * string :=
  let manifestDir := Dir manifestPath in
  let commandPath := Clean (Join2 manifestDir (Skills.Command cfg)) in
  if escapes manifestDir commandPath then inl "external.command escapes the manifest directory" else
  match stat r commandPath with
  | inl err => inl err
  | inr true => inl "external.command must be a file"
  | inr false =>
      if blank (Skills.WorkDir cfg) then inr (commandPath, manifestDir) else
      let workDir := Clean (Join2 manifestDir (Skills.WorkDir cfg)) in
      if escapes manifestDir workDir then inl "external.workdir escapes the manifest directory" else inr (commandPath, workDir)
  end.

Definition boolText (b : bool) : string := if b then "true" else "false".
Definition write_artifacts (task : Task) (l : list externalArtifact) : M (System L) (list string) :=
  foldM (λ paths x,
    let name := if blank (ar_Name x) then TaskID task +:+ "-external-" +:+ Itoa (Z.of_nat (length paths) + 1) +:+ ".txt" else TrimSpace (ar_Name x) in
    path ← writeArtifact (firstNonEmpty [TrimSpace (ar_Kind x); "reports"]) name (ar_Content x);
    mret (paths ++ [path])) [] l.
Definition write_observations (task : Task) (l : list externalObservation) : M (System L) (list string) :=
  foldM (λ paths x,
    let name := if blank (ob_Name x) then TaskID task +:+ "-external-" +:+ Itoa (Z.of_nat (length paths) + 1) +:+ ".json" else TrimSpace (ob_Name x) in
    path ← writeObservation (firstNonEmpty [TrimSpace (ob_Kind x); "os"]) name (match Payload x with Some m => JObj m | None => JNull end);
    mret (paths ++ [path])) [] l.
Definition external_metadata (result : externalResult) (telemetry : externalTelemetry) (artifactPaths observationPaths : list string)
    (telemetryPath : string) (md : gmap string string) : gmap string string :=
  let first key (paths : list string) md := match paths with p :: _ => set key p md | [] => md end in
  set "external_telemetry_observation" telemetryPath
    (set "external_write_root_exposed" (boolText (WriteRootExposed telemetry))
    (set "external_approval_required" (boolText (ApprovalRequired telemetry))
    (set "external_duration_ms" (Itoa (DurationMS telemetry))
    (set "external_command_path" (CommandPath telemetry)
    (set "external_manifest_path" (ManifestPath telemetry)
    (first "external_observation" observationPaths
    (first "external_artifact" artifactPaths (ex_Metadata result ∪ md)))))))).
Definition external_states : list string := [Runtime.TaskStateDone; Runtime.TaskStateBlocked; Runtime.TaskStateFailed].
Definition applyExternalResult (task : Task) (result : externalResult) (telemetry : externalTelemetry) : M (System L) RunResult :=
  let state := if blank (ex_State result) then Runtime.TaskStateDone else TrimSpace (ex_State result) in
  if negb (bool_decide (state ∈ external_states)) then throw ErrInvalidArgument else
  artifactPaths ← write_artifacts task (Artifacts result);
  written ← write_observations task (Observations result);
  telemetryPath ← observe "os" (TaskID task +:+ "-external-telemetry.json") [
    ("type", JStr "external-skill-telemetry"); ("task_id", JStr (TaskID task)); ("selected_skill", JStr (Runtime.SelectedSkill task));
    ("manifest_path", JStr (ManifestPath telemetry)); ("command_path", JStr (CommandPath telemetry)); ("workdir", JStr (tl_WorkDir telemetry));
    ("started_at", JStr (RFC3339Nano (tl_StartedAt telemetry))); ("finished_at", JStr (RFC3339Nano (tl_FinishedAt telemetry)));
    ("duration_ms", JInt (DurationMS telemetry)); ("approval_required", JBool (ApprovalRequired telemetry));
    ("write_root_exposed", JBool (WriteRootExposed telemetry));
    ("result_state", JStr (firstNonEmpty [ex_State result; Runtime.TaskStateDone]));
    ("artifact_count", JInt (Z.of_nat (length artifactPaths))); ("observation_count", JInt (Z.of_nat (length (Observations result))))];
  let observationPaths := written ++ [telemetryPath] in
  updated ← settle (TaskID task) state (firstNonEmpty [ex_NextAction result; "external skill completed"])
    (Some (if decide (state = Runtime.TaskStateFailed) then firstNonEmpty [ex_FailureReason result; "external skill failed"] else ""))
    (external_metadata result telemetry artifactPaths observationPaths telemetryPath);
  _ ← clearActiveTask (TaskID updated);
  _ ← (if decide (state = Runtime.TaskStateDone) then finalizeSuccessfulTask updated false else mret tt);
  mret (mkRunResult updated None artifactPaths observationPaths).

(** [cmd.Run()] *)
Definition run_external (inv : ExternalInvocation) : M (System L) ShellOutcome := λ s w,
  let m := machine s in
  (Ok (external r (tick w) inv),
   mkSystem (stores s) (Execution.mkExecState (Execution.actions m) (Execution.approvals m) (Execution.workspace m) (Execution.slept m)
     (Execution.spawned m ++ [(inv_Command inv, inv_Args inv, inv_Dir inv)])) (skills s) (listener s), advance w).
(** The check of a root task: the result of one that may not run. *)
Definition external_gate (manifestPath commandPath : string) (cfg : Skills.ExternalConfig) (task : Task) : M (System L) (option RunResult) :=
  let stop m := result ← m; mret (Some result) in
  if negb (bool_decide (Runtime.ExecutionProfile task = "root")) then mret None
  else if negb (Skills.RequireApproval cfg) then stop (failExternalTask task "root external execution requires external.require_approval=true")
  else
  approval ← resolveRootApproval task Execution.ActionKindShell ("root external skill " +:+ Runtime.SelectedSkill task)
    (list_to_map [("external_command", commandPath); ("manifest_path", manifestPath)]);
  match approval with
  | inr result => mret (Some result)
  | inl approvalToken =>
      res ← try (with_approvals (Approval.Consume "root" approvalToken));
      match res with
      | Ok _ => mret None
      | Err e => stop (failExternalTask task (error_text r e))
      end
  end.
Definition external_timeout (cfg : Skills.ExternalConfig) : Z :=
  if 0 <? Skills.TimeoutMS cfg then wrap64 (Skills.TimeoutMS cfg * Millisecond) else 20 * Second.
Definition invocation (commandPath workDir : string) (cfg : Skills.ExternalConfig) (task : Task) : ExternalInvocation :=
  let root := if Skills.AllowWriteRoot cfg then rootDir r else "" in
  let vars := set "MNEMOSYNE_TASK_ID" (TaskID task) (set "MNEMOSYNE_SKILL_NAME" (Runtime.SelectedSkill task) (Skills.ex_Env cfg)) in
  mkInvocation commandPath (Skills.ex_Args cfg) workDir
    (if Skills.AllowWriteRoot cfg then set "MNEMOSYNE_RUNTIME_ROOT" (rootDir r) vars else vars)
    (external_timeout cfg) task root.
Definition run_command (manifestPath commandPath workDir : string) (cfg : Skills.ExternalConfig) (task : Task) : M (System L) RunResult :=
  if negb (Runtime.task_json_ok task) then throw EJson else
  startedAt ← now;
  outcome ← run_external (invocation commandPath workDir cfg task);
  match Execution.so_err outcome with
  | Some e => failExternalTask task (firstNonEmpty [TrimSpace (Execution.so_stderr outcome); Execution.sh_msg e])
  | None =>
      finishedAt ← now;
      match decode_result (Execution.so_stdout outcome) with
      | None => failExternalTask task ("decode external skill result: " +:+ json_error r (Execution.so_stdout outcome))
      | Some result =>
          applyExternalResult task result (mkTelemetry manifestPath commandPath workDir startedAt finishedAt
            (Z.quot (Sub finishedAt startedAt) Millisecond) (Skills.RequireApproval cfg) (Skills.AllowWriteRoot cfg))
      end
  end.
Definition externalHandler (manifestPath : string) (cfg : Skills.ExternalConfig) (task : Task) (onProgress : bool) : M (System L) RunResult :=
  _ ← emitProgress onProgress "external.invoke" "Running external skill adapter...";
  match resolveExternalPaths manifestPath cfg with
  | inl err => failExternalTask task err
  | inr (commandPath, workDir) =>
      stopped ← external_gate manifestPath commandPath cfg task;
      match stopped with
      | Some result => mret result
      | None => run_command manifestPath commandPath workDir cfg task
      end
  end.

(** ** Running a task *)

Definition applySkillDefaults (task : Task) (def : Skills.SkillDefinition) : Task :=
  let md := default ∅ (Runtime.Metadata task) in
  let md := map_imap (λ k v, Some (if blank v then default v (Skills.DefaultMetadata def !! k) else v)) (md ∪ Skills.DefaultMetadata def) in
  Runtime.mkTask (TaskID task) (Runtime.Title task) (Runtime.Goal task) (Runtime.State task) (Runtime.CreatedAt task) (Runtime.UpdatedAt task)
    (Runtime.RequestedBy task) (Runtime.Source task)
    (if blank (Runtime.ExecutionProfile task) && negb (blank (Skills.ExecutionProfile def)) then TrimSpace (Skills.ExecutionProfile def)
     else Runtime.ExecutionProfile task)
    (Runtime.RequiresApproval task) (Runtime.SelectedSkill task) (Runtime.NextAction task) (Runtime.FailureReason task) (Some md).
Definition run_handler (h : Skills.Handler) : Task → bool → M (System L) RunResult :=
  match h with
  | Skills.runTaskPlan => runTaskPlan | Skills.runFileEdit => runFileEdit | Skills.runFileRead => runFileRead
  | Skills.runShellCommand => runShellCommand | Skills.runWebSearch => runWebSearch
  | Skills.runGitHubIssueSearch => runGitHubIssueSearch | Skills.runEmailInbox => runEmailInbox
  | Skills.runMemoryConsolidate => runMemoryConsolidate
  | Skills.externalHandler manifestPath cfg => externalHandler manifestPath cfg
  end.
(** The skill a task is run by: its own, or the planner when that is unknown. *)
Definition skill_of (task : Task) (reg : gmap string Skills.SkillDefinition) : option Skills.SkillDefinition :=
  let name := TrimSpace (Runtime.SelectedSkill task) in
  match Skills.Resolve reg (if decide (name = "") then "task-plan" else name) with
  | Some def => Some def
  | None => Skills.Resolve reg "task-plan"
  end.
Definition runnable_states : list string := [Runtime.TaskStatePlanned; Runtime.TaskStateActive].
Definition RunTaskWithProgress (taskID : string) (onProgress : bool) : M (System L) RunResult :=
  task ← with_runtime (Runtime.GetTask taskID);
  if negb (bool_decide (Runtime.State task ∈ runnable_states)) then throw ErrInvalidArgument else
  s ← get;
  match skill_of task (Skills.registry (skills s)) with
  | None => throw ErrInvalidArgument
  | Some def =>
      if negb (Skills.Enabled def) then throw ErrInvalidArgument else
      match Skills.skill_Handler def with
      | None => throw EPanic
      | Some h => run_handler h (applySkillDefaults task def) onProgress
      end
  end.
Definition RunTask (taskID : string) : M (System L) RunResult := RunTaskWithProgress taskID false.
End runner.
