(* ===== verification/SkillSafety.v ===== *)
(** * What running a task may do ([skills/runner.go], [skills/external.go])

    The theorems of [SkillRunner]: a run settles its task, a root task starts
    nothing before it is approved, external programs and outputs are confined
    (and where they are not), memory and registry stay well-formed, a plan is
    always made. *)
From S2P Require Import Prelude GoStrings GoNum GoText GoJson MemoryTypes SkillText SkillMemory SkillRunner.
From S2P Require FsAccess GoTime Sha1 MemoryStore StatusDirs Approval Execution Runtime Procedural Consolidator Governance MemScheduler Recall Skills.
Import FsAccess(Env, Join2, Clean, Dir, Rel, IsAbs, comps, proper, render).
Import Execution(ExecState, ActionRecord, Os, ShellOutcome).
Import Runtime(Task, TaskID).
Open Scope Z_scope.

#[local] Hint Resolve Runtime.SaveState_dirs Runtime.LoadState_dirs Runtime.ListTasks_dirs Runtime.GetTask_dirs : hoare.

(** ** What the operations keep *)

Section frames.
Context {tables : UnicodeTables} {url : UrlPackage} {digits : Recall.FloatFormat} {L : Type}.
Variable r : Runner L.

(** An output path: below [artifacts] or [observations], as far as the kind and
    the name stay there. *)
Definition output_path (p : string) : Prop := ∃ area kind name, area ∈ ["artifacts"; "observations"] ∧ p = file_path r area kind name.

(** The files the runner's own skills write for the task [id]: in which area,
    of which kind, and what follows the ID in the name. *)
Definition own_outputs : list (string * string * string) :=
  [("artifacts", "reports", "-plan.md"); ("artifacts", "reports", "-file-read.txt");
   ("artifacts", "reports", "-shell.txt"); ("artifacts", "reports", "-web-search.md");
   ("artifacts", "reports", "-github-issues.md"); ("artifacts", "reports", "-email-inbox.md");
   ("artifacts", "reports", "-memory.md");
   ("observations", "os", "-web-search.json"); ("observations", "os", "-root-approval.json");
   ("observations", "os", "-plan.json"); ("observations", "os", "-shell.json");
   ("observations", "os", "-github-issues.json"); ("observations", "os", "-email-inbox.json");
   ("observations", "os", "-memory.json"); ("observations", "os", "-external-telemetry.json");
   ("observations", "filesystem", "-file-edit.json"); ("observations", "filesystem", "-file-read.json")].
Definition own_output (id p : string) : Prop := ∃ area kind suffix,
  (area, kind, suffix) ∈ own_outputs ∧ p = file_path r area kind (id +:+ suffix).

(** An invariant that the stores' own operations keep, and that allows writing
    the paths of [Out], among them the own outputs of the tasks of [Owner]. *)
Record Frame (Out Owner : string → Prop) (I : System L → Prop) : Prop := {
  I_own : ∀ id p, Owner id → own_output id p → Out p;
  I_notify : ∀ e, preserves I (notify r e);
  I_output : ∀ s p c, Out p → I s →
    I (mkSystem (stores s) (Execution.set_workspace (insert p c) (machine s)) (skills s) (listener s));
  I_runtime : ∀ A (m : M Runtime.Store A), preserves Runtime.dirs_ok m → preserves I (with_runtime m);
  I_memory : ∀ A (m : M MemoryStore.Store A), preserves MemoryStore.store_wf m → preserves I (with_memory m);
  I_scheduler : ∀ config configured o1 o2 o3 reason, preserves I (with_stores (MemScheduler.EvaluateAndSchedule config configured o1 o2 o3 reason));
  I_get : ∀ id, preserves I (with_approvals (Approval.Get id));
  I_create : ∀ req, preserves I (with_approvals (Approval.Create req));
  I_consume : ∀ profile token, preserves I (with_approvals (Approval.Consume profile token)) }.

Variables (Out Owner : string → Prop) (I : System L → Prop).
Hypothesis F : Frame Out Owner I.

Lemma keeps_emit onProgress stage message : preserves I (emitProgress r onProgress stage message).
Proof. pose proof (I_notify _ _ _ F). unfold emitProgress. preserves_tac. Qed.
Lemma keeps_write path content : Out path → preserves I (write_file path content).
Proof.
  intros Ho. unfold write_file. preserves_tac.
  all: apply preserves_modify; intros s; by apply F.
Qed.
(** An output among the own ones of the task. *)
Lemma keeps_artifact id kind suffix content : Owner id → ("artifacts", kind, suffix) ∈ own_outputs →
  preserves I (writeArtifact r kind (id +:+ suffix) content).
Proof. intros Hid Hin. unfold writeArtifact. preserves_tac. apply keeps_write, (I_own _ _ _ F id); [done|by exists "artifacts", kind, suffix]. Qed.
Lemma keeps_observe id kind suffix members : Owner id → ("observations", kind, suffix) ∈ own_outputs →
  preserves I (observe r kind (id +:+ suffix) members).
Proof.
  intros Hid Hin. unfold observe, writeObservation. preserves_tac.
  apply keeps_write, (I_own _ _ _ F id); [done|by exists "observations", kind, suffix].
Qed.
Lemma keeps_runtime A (m : M Runtime.Store A) : preserves Runtime.dirs_ok m → preserves I (with_runtime m). Proof. apply F. Qed.
Lemma keeps_memory A (m : M MemoryStore.Store A) : preserves MemoryStore.store_wf m → preserves I (with_memory m).
Proof. apply F. Qed.
Lemma keeps_scheduler config configured o1 o2 o3 reason : preserves I (with_stores (MemScheduler.EvaluateAndSchedule config configured o1 o2 o3 reason)).
Proof. apply F. Qed.
Lemma keeps_approval id : preserves I (with_approvals (Approval.Get id)). Proof. apply F. Qed.
Lemma keeps_create req : preserves I (with_approvals (Approval.Create req)). Proof. apply F. Qed.
Lemma keeps_consume profile token : preserves I (with_approvals (Approval.Consume profile token)). Proof. apply F. Qed.
Lemma keeps_settle taskID state next failure edit : preserves I (settle taskID state next failure edit).
Proof. by apply F, Runtime.MoveTask_dirs, Runtime.benign_ret. Qed.
#[local] Hint Resolve keeps_emit keeps_settle keeps_runtime keeps_memory keeps_scheduler keeps_approval keeps_create keeps_consume : hoare.
#[local] Hint Extern 1 (preserves I (writeArtifact _ _ _ _)) => apply keeps_artifact; [assumption|set_solver] : hoare.
#[local] Hint Extern 1 (preserves I (observe _ _ _ _)) => apply keeps_observe; [assumption|set_solver] : hoare.
Lemma keeps_clear taskID : preserves I (clearActiveTask taskID).
Proof. unfold clearActiveTask. preserves_tac. Qed.
#[local] Hint Resolve keeps_clear : hoare.
Lemma keeps_block task reason : preserves I (blockTask task reason).
Proof. unfold blockTask. preserves_tac. by apply keeps_runtime, Runtime.MoveTask_dirs, Runtime.benign_ret. Qed.
#[local] Hint Resolve keeps_block : hoare.
Lemma keeps_block_search task reason : Owner (TaskID task) → preserves I (blockSearchTask r task reason).
Proof. intros Ho. unfold blockSearchTask. preserves_tac. Qed.
Lemma keeps_finalize task onProgress : preserves I (finalizeSuccessfulTask r task onProgress).
Proof. unfold finalizeSuccessfulTask. preserves_tac. Qed.
Lemma keeps_await task record : Owner (TaskID task) → preserves I (awaitApproval r task record).
Proof. intros Ho. unfold awaitApproval. preserves_tac. Qed.
#[local] Hint Resolve keeps_block_search keeps_finalize keeps_await : hoare.
Lemma keeps_request task kind summary md : Owner (TaskID task) → preserves I (requestRootApproval r task kind summary md).
Proof. intros Ho. unfold requestRootApproval. preserves_tac. Qed.
#[local] Hint Resolve keeps_request : hoare.
Lemma keeps_resolve task kind summary md : Owner (TaskID task) → preserves I (resolveRootApproval r task kind summary md).
Proof. intros Ho. unfold resolveRootApproval. preserves_tac. Qed.
#[local] Hint Resolve keeps_resolve : hoare.
Lemma keeps_answer {A} (f : World → A) : preserves I (λ s w, (Ok (f w), s, advance w)).
Proof. by intros s w. Qed.
Lemma keeps_generate system prompt fallback : preserves I (generate r system prompt fallback).
Proof. unfold generate, GenerateText. preserves_tac. apply keeps_answer. Qed.
#[local] Hint Resolve keeps_generate : hoare.
Lemma keeps_plan task onProgress : Owner (TaskID task) → preserves I (runTaskPlan r task onProgress).
Proof. intros Ho. unfold runTaskPlan, generateTaskPlan. preserves_tac. Qed.

(** *** The searches *)

Lemma memory_write_all ws : preserves MemoryStore.store_wf (write_all ws).
Proof.
  unfold write_all, write_one, upsertCard, linkCards. preserves_tac; auto using MemoryStore.CreateCard_preserves,
    MemoryStore.UpdateCard_preserves, MemoryStore.CreateEdge_preserves.
Qed.
Lemma memory_summarize model system prompt fallback : preserves MemoryStore.store_wf (summarize model system prompt fallback).
Proof. unfold summarize, GenerateText. preserves_tac. by intros s w. Qed.
#[local] Hint Resolve memory_write_all memory_summarize : hoare.
Lemma memory_web model task a o resp : preserves MemoryStore.store_wf (persistWebSearchMemory model task a o resp).
Proof. unfold persistWebSearchMemory, summarizeSearchResults. preserves_tac. Qed.
Lemma memory_github model task a o resp : preserves MemoryStore.store_wf (persistGitHubIssueMemory model task a o resp).
Proof. unfold persistGitHubIssueMemory, summarizeGitHubIssues. preserves_tac. Qed.
Lemma memory_email model task a o resp : preserves MemoryStore.store_wf (persistEmailMemory model task a o resp).
Proof. unfold persistEmailMemory, summarizeEmailResults. preserves_tac. Qed.
#[local] Hint Resolve memory_web memory_github memory_email : hoare.
Lemma keeps_Search c query limit : preserves I (Search c query limit).
Proof. unfold Search, call. preserves_tac. apply keeps_answer. Qed.
Lemma keeps_SearchGitHub c query limit : preserves I (SearchGitHubIssues c query limit).
Proof. unfold SearchGitHubIssues, call. preserves_tac. apply keeps_answer. Qed.
Lemma keeps_ListEmails c query limit : preserves I (ListEmails c query limit).
Proof. unfold ListEmails, call. preserves_tac. apply keeps_answer. Qed.
#[local] Hint Resolve keeps_Search keeps_SearchGitHub keeps_ListEmails : hoare.
Lemma keeps_web task onProgress : Owner (TaskID task) → preserves I (runWebSearch r task onProgress).
Proof. intros Ho. unfold runWebSearch. preserves_tac. Qed.
Lemma keeps_github task onProgress : Owner (TaskID task) → preserves I (runGitHubIssueSearch r task onProgress).
Proof. intros Ho. unfold runGitHubIssueSearch. preserves_tac. Qed.
Lemma keeps_email task onProgress : Owner (TaskID task) → preserves I (runEmailInbox r task onProgress).
Proof. intros Ho. unfold runEmailInbox. preserves_tac. Qed.

(** *** Consolidation *)

Lemma keeps_create_new req : preserves I (create_new req).
Proof. unfold create_new. preserves_tac. apply keeps_memory, MemoryStore.CreateCard_preserves. Qed.
Lemma keeps_promote ord req : preserves I (with_memory (Consolidator.PromoteCandidates ord req)).
Proof. apply keeps_memory, Consolidator.PromoteCandidates_preserves. Qed.
Lemma keeps_unmaybe {A} e (a : A) : preserves I (unmaybe e a).
Proof. unfold unmaybe. preserves_tac. Qed.
#[local] Hint Resolve keeps_create_new keeps_promote keeps_unmaybe : hoare.
Lemma keeps_extract task : preserves I (extractProcedureCandidates r task).
Proof. unfold extractProcedureCandidates. preserves_tac. Qed.
Lemma keeps_group model minRuns scope onProgress k group : preserves I (extract_group r model minRuns scope onProgress k group).
Proof. unfold extract_group, GenerateText. preserves_tac. apply keeps_answer. Qed.
#[local] Hint Resolve keeps_extract keeps_group : hoare.
Lemma keeps_smart model task onProgress : preserves I (extractSmartProcedureCandidates r model task onProgress).
Proof. unfold extractSmartProcedureCandidates. preserves_tac. Qed.
#[local] Hint Resolve keeps_smart : hoare.
Lemma keeps_procedures task onProgress : preserves I (extract_procedures r task onProgress).
Proof. unfold extract_procedures. preserves_tac. Qed.
#[local] Hint Resolve keeps_procedures : hoare.
Lemma keeps_consolidate task onProgress : Owner (TaskID task) → preserves I (runMemoryConsolidate r task onProgress).
Proof. intros Ho. unfold runMemoryConsolidate, generateMemorySummary. preserves_tac. Qed.

(** *** External results *)

Lemma keeps_fail task reason : preserves I (failExternalTask task reason).
Proof. unfold failExternalTask. preserves_tac. Qed.
#[local] Hint Resolve keeps_fail : hoare.
Lemma keeps_gate manifestPath commandPath cfg task : Owner (TaskID task) → preserves I (external_gate r manifestPath commandPath cfg task).
Proof. intros Ho. unfold external_gate. preserves_tac. Qed.
#[local] Hint Resolve keeps_gate : hoare.
(** An external result names its outputs itself. *)
Hypothesis Out_any : ∀ p, output_path p → Out p.
Lemma keeps_any_artifact kind name content : preserves I (writeArtifact r kind name content).
Proof. unfold writeArtifact. preserves_tac. apply keeps_write, Out_any. exists "artifacts", kind, name. split; [left|done]. Qed.
Lemma keeps_any_observation kind name payload : preserves I (writeObservation r kind name payload).
Proof. unfold writeObservation. preserves_tac. apply keeps_write, Out_any. exists "observations", kind, name. split; [right; left|done]. Qed.
#[local] Hint Resolve keeps_any_artifact keeps_any_observation : hoare.
Lemma keeps_apply task result telemetry : Owner (TaskID task) → preserves I (applyExternalResult r task result telemetry).
Proof. intros Ho. unfold applyExternalResult, write_artifacts, write_observations. preserves_tac. Qed.
#[local] Hint Resolve keeps_apply : hoare.

(** *** Actions and programs *)

Hypothesis I_shell : ∀ req, preserves I (execute (Execution.ExecuteShell (os r) (env r) (exec_root r) (exec_token r) (exec_approvals r) req)).
Hypothesis I_read : ∀ req, preserves I (execute (Execution.ExecuteFileRead (os r) (env r) (exec_root r) (exec_token r) (exec_approvals r) req)).
Hypothesis I_file : ∀ req, preserves I (execute (Execution.ExecuteFileWrite (os r) (env r) (exec_root r) (exec_token r) (exec_approvals r) req)).
Hypothesis I_external : ∀ inv, preserves I (run_external r inv).
#[local] Hint Resolve I_shell I_read I_file I_external keeps_plan keeps_web keeps_github keeps_email keeps_consolidate : hoare.
Lemma keeps_run manifestPath c wd cfg task : Owner (TaskID task) → preserves I (run_command r manifestPath c wd cfg task).
Proof. intros Ho. unfold run_command. preserves_tac. Qed.
#[local] Hint Resolve keeps_run : hoare.
Lemma keeps_handler h task onProgress : Owner (TaskID task) → preserves I (run_handler r h task onProgress).
Proof.
  intros Ho. destruct h; cbn [run_handler]; unfold runFileEdit, runFileRead, runShellCommand, externalHandler, action_failed; preserves_tac.
Qed.
End frames.

(** The same for any run: an invariant that every output path respects. *)
Section frame_run.
Context {tables : UnicodeTables} {url : UrlPackage} {digits : Recall.FloatFormat} {L : Type}.
Variables (r : Runner L) (I : System L → Prop).
Hypothesis run_notify : ∀ e, preserves I (notify r e).
Hypothesis run_output : ∀ s p c, output_path r p → I s →
  I (mkSystem (stores s) (Execution.set_workspace (insert p c) (machine s)) (skills s) (listener s)).
Hypothesis run_runtime : ∀ A (m : M Runtime.Store A), preserves Runtime.dirs_ok m → preserves I (with_runtime m).
Hypothesis run_memory : ∀ A (m : M MemoryStore.Store A), preserves MemoryStore.store_wf m → preserves I (with_memory m).
Hypothesis run_scheduler : ∀ config configured o1 o2 o3 reason, preserves I (with_stores (MemScheduler.EvaluateAndSchedule config configured o1 o2 o3 reason)).
Hypothesis run_get : ∀ id, preserves I (with_approvals (Approval.Get id)).
Hypothesis run_create : ∀ req, preserves I (with_approvals (Approval.Create req)).
Hypothesis run_consume : ∀ profile token, preserves I (with_approvals (Approval.Consume profile token)).
Hypothesis run_shell : ∀ req, preserves I (execute (Execution.ExecuteShell (os r) (env r) (exec_root r) (exec_token r) (exec_approvals r) req)).
Hypothesis run_read : ∀ req, preserves I (execute (Execution.ExecuteFileRead (os r) (env r) (exec_root r) (exec_token r) (exec_approvals r) req)).
Hypothesis run_file : ∀ req, preserves I (execute (Execution.ExecuteFileWrite (os r) (env r) (exec_root r) (exec_token r) (exec_approvals r) req)).
Hypothesis run_program : ∀ inv, preserves I (run_external r inv).

Lemma run_frame : Frame r (output_path r) (λ _, True) I.
Proof.
  split; [|done..]. intros id p _ (area & kind & suffix & Hin & ->). exists area, kind, (id +:+ suffix).
  split; [|done]. unfold own_outputs in Hin. set_solver.
Qed.
Lemma keeps_RunTask taskID onProgress : preserves I (RunTaskWithProgress r taskID onProgress).
Proof.
  pose proof (keeps_runtime r _ _ _ run_frame). unfold RunTaskWithProgress. preserves_tac; try done.
  by apply (keeps_handler r _ _ _ run_frame).
Qed.
End frame_run.

(** ** Where a run leaves the task *)

(** What is known of the task files, through the steps that leave them alone. *)
Section on_tasks.
Context {tables : UnicodeTables} {url : UrlPackage} {digits : Recall.FloatFormat} {L : Type}.
Variable r : Runner L.
Hypothesis heard : listens r.
Variable J : Runtime.Store → Prop.
Hypothesis J_save : ∀ state, preserves J (Runtime.SaveState state).
Hypothesis J_submit : ∀ req, preserves J (Runtime.SubmitTask req).

Definition on_tasks (s : System L) : Prop := J (MemScheduler.runtime (stores s)).
Definition scheduled (s : MemScheduler.System) : Prop := J (MemScheduler.runtime s).

Lemma tasks_notify e : preserves on_tasks (notify r e).
Proof. intros s w Hs. by destruct (heard e s w) as (l & w' & -> & _). Qed.
Lemma tasks_machine {A} (m : M ExecState A) : preserves on_tasks (with_machine m).
Proof. intros s w Hs. unfold with_machine. by destruct (m (machine s) w) as [[x y] w']. Qed.
Lemma tasks_write path content : preserves on_tasks (write_file path content).
Proof. unfold write_file. preserves_tac; by apply preserves_modify. Qed.
Lemma tasks_stores {A} (m : M MemScheduler.System A) : preserves scheduled m → preserves on_tasks (with_stores m).
Proof. intros Hm s w Hs. unfold with_stores. specialize (Hm (stores s) w Hs). by destruct (m (stores s) w) as [[x y] w']. Qed.
Lemma scheduled_runtime {A} (m : M Runtime.Store A) : preserves J m → preserves scheduled (MemScheduler.with_runtime m).
Proof.
  intros Hm s w Hs. unfold MemScheduler.with_runtime. specialize (Hm (MemScheduler.runtime s) w Hs).
  by destruct (m (MemScheduler.runtime s) w) as [[x y] w'].
Qed.
Lemma scheduled_memory {A} (m : M MemoryStore.Store A) : preserves scheduled (MemScheduler.with_memory m).
Proof. intros s w Hs. unfold MemScheduler.with_memory. by destruct (m (MemScheduler.memory s) w) as [[x y] w']. Qed.
Lemma scheduled_file st : preserves scheduled (MemScheduler.saveState st).
Proof. unfold MemScheduler.saveState. preserves_tac. by apply preserves_WriteFile. Qed.
Lemma J_reads : preserves J Runtime.LoadState ∧ preserves J Runtime.ListTasks ∧ ∀ id, preserves J (Runtime.GetTask id).
Proof.
  unfold Runtime.LoadState, ReadJSON, Runtime.ListTasks, Runtime.GetTask, Runtime.findTaskLocked.
  split_and!; intros; preserves_tac.
Qed.
#[local] Hint Resolve scheduled_memory scheduled_file : hoare.
Lemma scheduled_evaluate config configured o1 o2 o3 reason :
  preserves scheduled (MemScheduler.EvaluateAndSchedule config configured o1 o2 o3 reason).
Proof.
  destruct J_reads as (Hload & Hlist & Hget). pose proof (scheduled_runtime _ Hload). pose proof (scheduled_runtime _ Hlist).
  assert (∀ id, preserves scheduled (MemScheduler.with_runtime (Runtime.GetTask id))) by (intros; by apply scheduled_runtime).
  assert (∀ req, preserves scheduled (MemScheduler.with_runtime (Runtime.SubmitTask req))) by (intros; by apply scheduled_runtime).
  unfold MemScheduler.EvaluateAndSchedule, MemScheduler.submit, MemScheduler.skip, MemScheduler.loadState, MemScheduler.cooling_down,
    MemScheduler.hydrateDecisionFromTaskID, ReadJSON. preserves_tac.
Qed.

Lemma tasks_runtime {A} (m : M Runtime.Store A) : preserves J m → preserves on_tasks (with_runtime m).
Proof. intros Hm. by apply tasks_stores, scheduled_runtime. Qed.
Lemma tasks_clear taskID : preserves on_tasks (clearActiveTask taskID).
Proof. unfold clearActiveTask. preserves_tac; apply tasks_runtime; [apply J_reads|done]. Qed.
Lemma tasks_emit onProgress stage message : preserves on_tasks (emitProgress r onProgress stage message).
Proof. pose proof tasks_notify. unfold emitProgress. preserves_tac. Qed.
Lemma tasks_observe kind name members : preserves on_tasks (observe r kind name members).
Proof. unfold observe, writeObservation. preserves_tac. apply tasks_write. Qed.
Lemma tasks_finalize task onProgress : preserves on_tasks (finalizeSuccessfulTask r task onProgress).
Proof.
  unfold finalizeSuccessfulTask. pose proof tasks_clear. pose proof tasks_emit. preserves_tac.
  apply tasks_stores, scheduled_evaluate.
Qed.
End on_tasks.

Section outcome.
Context {tables : UnicodeTables} {url : UrlPackage} {digits : Recall.FloatFormat} {L : Type}.
Variable r : Runner L.
Hypothesis heard : listens r.

Definition settled_states : list string :=
  [Runtime.TaskStateDone; Runtime.TaskStateFailed; Runtime.TaskStateBlocked; Runtime.TaskStateAwaitingApproval].
(** Every task file lies where its record says. *)
Definition tasks_wf : System L → Prop := on_tasks Runtime.dirs_ok.
(** The record [t] of the task [id] is settled, and it is what the file of the
    task holds, in the directory of its state. *)
Definition filed (id : string) (t : Task) (s : System L) : Prop :=
  on_tasks (Runtime.kept (Runtime.State t) (StatusDirs.fileName id) (Doc (Runtime.task_norm t))) s ∧
  TaskID t = id ∧ Runtime.State t ∈ settled_states.
Definition filed_result (id : string) (res : RunResult) : System L → Prop := filed id (rr_Task res).

(** [ends R P m]: where [R] holds, a success of [m] ends where [P] holds. *)
Definition ends {A} (R : System L → Prop) (P : A → System L → Prop) (m : M (System L) A) : Prop :=
  ∀ s w a s' w', R s → m s w = (Ok a, s', w') → P a s'.
Lemma ends_bind {A B} R (Q : A → System L → Prop) P (m : M (System L) A) (k : A → M (System L) B) :
  ends R Q m → (∀ a, ends (Q a) P (k a)) → ends R P (m ≫= k).
Proof.
  intros Hm Hk s w b s' w' Hs. rewrite bind_eq. destruct (m s w) as [[[a|e] s1] w1] eqn:E; [|done].
  eapply Hk, Hm, E. exact Hs.
Qed.
Lemma ends_step {A B} R P (m : M (System L) A) (k : A → M (System L) B) :
  preserves R m → (∀ a, ends R P (k a)) → ends R P (m ≫= k).
Proof.
  intros Hm. apply ends_bind. intros s w a s' w' Hs E. specialize (Hm s w Hs). by rewrite E in Hm.
Qed.
Lemma ends_ret {A} R (P : A → System L → Prop) a : (∀ s, R s → P a s) → ends R P (mret a).
Proof. by intros H s w a' s' w' Hs [= <- <- _]; apply H. Qed.
Lemma ends_throw {A} R (P : A → System L → Prop) e : ends R P (throw e).
Proof. by intros s w a s' w'. Qed.

(** Settling files the task; what follows leaves it filed. *)
Lemma move_outcome id state mutate : state ∈ settled_states → Runtime.benign mutate →
  ends tasks_wf (filed id) (with_runtime (Runtime.MoveTask id state mutate)).
Proof.
  intros Hst Hb s w t s' w' Hs. unfold with_runtime, with_stores, MemScheduler.with_runtime.
  pose proof (Runtime.MoveTask_files id state mutate (MemScheduler.runtime (stores s)) w Hb Hs) as H.
  destruct (Runtime.MoveTask id state mutate _ w) as [[[t'|e] rt] w1]; [|done]. intros [= <- <- _].
  destruct H as (H1 & H2 & _). destruct (H2 t' eq_refl) as (Hid & Hst' & Hf).
  split; [|split; [done|by rewrite Hst']]. split; [exact H1|]. cbn [stores MemScheduler.runtime]. by rewrite Hst'.
Qed.
Lemma settle_outcome id state next failure edit : state ∈ settled_states →
  ends tasks_wf (filed id) (settle id state next failure edit).
Proof. intros Hst. by apply move_outcome, Runtime.benign_ret. Qed.
Lemma at_rest state : state ∈ settled_states →
  state ∉ [Runtime.TaskStateInbox; Runtime.TaskStatePlanned; Runtime.TaskStateActive].
Proof. unfold settled_states. intros H1 H2. repeat (apply elem_of_cons in H1 as [->|H1]; [set_solver|]). set_solver. Qed.
Lemma filed_steps id t {A} (m : M (System L) A) :
  (Runtime.State t ∈ settled_states →
   preserves (on_tasks (Runtime.kept (Runtime.State t) (StatusDirs.fileName id) (Doc (Runtime.task_norm t)))) m) →
  preserves (filed id t) m.
Proof.
  intros H s w (H1 & H2 & H3). specialize (H H3 s w H1). by destruct (m s w) as [[? ?] ?].
Qed.
Lemma filed_clear id t taskID : preserves (filed id t) (clearActiveTask taskID).
Proof. apply filed_steps. intros _. apply tasks_clear. intros. apply Runtime.SaveState_kept. Qed.
Lemma filed_observe id t kind name members : preserves (filed id t) (observe r kind name members).
Proof. apply filed_steps. intros _. apply tasks_observe. Qed.
Lemma filed_finalize id t task onProgress : preserves (filed id t) (finalizeSuccessfulTask r task onProgress).
Proof.
  apply filed_steps. intros Hst. apply tasks_finalize; [done|..]; intros;
    [apply Runtime.SaveState_kept|by apply Runtime.SubmitTask_kept, at_rest].
Qed.

(** Before that the tasks stay well-formed. *)
Lemma tasks_frame : Frame r (λ _, True) (λ _, True) tasks_wf.
Proof.
  split; intros; [done|by apply tasks_notify|done|by apply tasks_runtime|..].
  - apply tasks_stores, scheduled_memory.
  - apply tasks_stores, scheduled_evaluate, Runtime.SubmitTask_dirs.
  - apply tasks_machine.
  - apply tasks_machine.
  - apply tasks_machine.
Qed.
Lemma tasks_artifact kind name content : preserves tasks_wf (writeArtifact r kind name content).
Proof. by apply (keeps_any_artifact r _ _ _ tasks_frame). Qed.
Lemma tasks_observation kind name payload : preserves tasks_wf (writeObservation r kind name payload).
Proof. by apply (keeps_any_observation r _ _ _ tasks_frame). Qed.
Lemma tasks_execute m : preserves tasks_wf (execute m).
Proof. unfold execute, unmaybe. pose proof (@tasks_machine L Runtime.dirs_ok). preserves_tac. Qed.
Lemma tasks_program inv : preserves tasks_wf (run_external r inv).
Proof. by intros s w Hs. Qed.
Lemma tasks_memory {A} (m : M MemoryStore.Store A) : preserves tasks_wf (with_memory m).
Proof. apply tasks_stores, scheduled_memory. Qed.
Lemma tasks_approvals {A} (m : M Approval.Store A) : preserves tasks_wf (with_approvals m).
Proof. apply tasks_machine. Qed.
#[local] Hint Resolve tasks_artifact tasks_observation tasks_execute tasks_program tasks_memory tasks_approvals : hoare.
#[local] Hint Resolve filed_clear filed_observe filed_finalize : hoare.
#[local] Hint Extern 1 (preserves tasks_wf (emitProgress _ _ _ _)) => apply (keeps_emit _ _ _ _ tasks_frame) : hoare.
#[local] Hint Extern 1 (preserves tasks_wf (observe _ _ _ _)) => apply tasks_observation : hoare.
#[local] Hint Extern 1 (preserves tasks_wf (generate _ _ _ _)) => apply keeps_generate : hoare.
#[local] Hint Extern 1 (preserves tasks_wf (extract_procedures _ _ _)) => apply (keeps_procedures _ _ _ _ tasks_frame) : hoare.
#[local] Hint Extern 1 (preserves tasks_wf (Search _ _ _)) => apply keeps_Search : hoare.
#[local] Hint Extern 1 (preserves tasks_wf (SearchGitHubIssues _ _ _)) => apply keeps_SearchGitHub : hoare.
#[local] Hint Extern 1 (preserves tasks_wf (ListEmails _ _ _)) => apply keeps_ListEmails : hoare.

(** Walk to the operation that settles the task, and on to the result. *)
Ltac outcome_step :=
  match goal with
  | |- ends _ _ (if ?b then _ else _) => destruct b eqn:?
  | |- ends _ _ (match ?x with _ => _ end) => destruct x eqn:?
  | |- ends _ _ (let _ := _ in _) => cbv zeta
  | |- ends _ _ (throw _) => apply ends_throw
  | |- ends (filed _ _) _ (mret _) => apply ends_ret; intros ? ?; assumption
  | |- ends tasks_wf _ (settle _ _ _ _ _) => apply settle_outcome; unfold settled_states; set_solver
  | |- ends tasks_wf _ (mbind _ (settle _ _ _ _ _)) => eapply ends_bind; [outcome_step|intros]
  | |- ends tasks_wf _ (action_failed _ _ _) => unfold action_failed
  | |- ends tasks_wf _ (mbind _ (action_failed _ _ _)) => unfold action_failed at 1
  | |- ends tasks_wf (filed_result _) (mbind _ (blockTask _ _)) => fail 1
  | |- ends _ _ (mbind _ _) => apply ends_step; [solve [preserves_tac]|intros]
  end.
Ltac outcome_tac := repeat outcome_step.

Lemma block_outcome task reason : ends tasks_wf (filed_result (TaskID task)) (blockTask task reason).
Proof.
  unfold blockTask. eapply ends_bind; [apply move_outcome; [unfold settled_states; set_solver|by apply Runtime.benign_ret]|intros].
  outcome_tac.
Qed.
Lemma fail_outcome task reason : ends tasks_wf (filed_result (TaskID task)) (failExternalTask task reason).
Proof. unfold failExternalTask. outcome_tac. Qed.
Lemma block_search_outcome task reason : ends tasks_wf (filed_result (TaskID task)) (blockSearchTask r task reason).
Proof.
  unfold blockSearchTask. apply ends_step; [preserves_tac|]. intros o. eapply ends_bind; [apply block_outcome|].
  intros res. by apply ends_ret.
Qed.
Lemma await_outcome task record : ends tasks_wf (filed_result (TaskID task)) (awaitApproval r task record).
Proof. unfold awaitApproval. outcome_tac. Qed.
Lemma request_outcome task kind summary md : ends tasks_wf (filed_result (TaskID task)) (requestRootApproval r task kind summary md).
Proof.
  unfold requestRootApproval. cbv zeta. destruct (negb _); [apply block_outcome|].
  apply ends_step; [preserves_tac|]. intros [record|]; [case_decide; [apply await_outcome|]|].
  all: apply ends_step; [preserves_tac|intros; apply await_outcome].
Qed.
(** A token, or the result of a task that was settled. *)
Definition stopped (id : string) (x : string + RunResult) (s : System L) : Prop :=
  match x with inl _ => tasks_wf s | inr res => filed_result id res s end.
Lemma stop_outcome id (m : M (System L) RunResult) :
  ends tasks_wf (filed_result id) m → ends tasks_wf (stopped id) (result ← m; mret (inr result)).
Proof. intros H. eapply ends_bind; [exact H|]. intros res. by apply ends_ret. Qed.
Lemma resolve_outcome task kind summary md : ends tasks_wf (stopped (TaskID task)) (resolveRootApproval r task kind summary md).
Proof.
  unfold resolveRootApproval. cbv zeta.
  destruct (negb (bool_decide (Runtime.ExecutionProfile task = "root"))); [by apply ends_ret|].
  destruct (negb (has_approvals r)); [apply stop_outcome, block_outcome|].
  destruct (blank _); [apply stop_outcome, request_outcome|].
  apply ends_step; [preserves_tac|]. intros [record|e]; [|apply stop_outcome, block_outcome].
  repeat case_decide; match goal with
  | |- ends _ _ (mret _) => by apply ends_ret
  | |- ends _ _ (mbind _ (awaitApproval _ _ _)) => apply stop_outcome, await_outcome
  | |- ends _ _ (mbind _ (blockTask _ _)) => apply stop_outcome, block_outcome
  end.
Qed.
Lemma gated_outcome task kind summary md (k : string → M (System L) RunResult) :
  (∀ token, ends tasks_wf (filed_result (TaskID task)) (k token)) →
  ends tasks_wf (filed_result (TaskID task)) (approval ← resolveRootApproval r task kind summary md;
    match approval with inr result => mret result | inl token => k token end).
Proof.
  intros H. eapply ends_bind; [apply resolve_outcome|]. intros [token|res]; [apply H|by apply ends_ret].
Qed.
Lemma apply_outcome task result telemetry : ends tasks_wf (filed_result (TaskID task)) (applyExternalResult r task result telemetry).
Proof.
  unfold applyExternalResult. cbv zeta. set (state := if blank (ex_State result) then _ else _).
  destruct (bool_decide (state ∈ external_states)) eqn:Hs; [|apply ends_throw]. cbn [negb]. apply bool_decide_eq_true in Hs.
  unfold write_artifacts, write_observations. do 3 (apply ends_step; [preserves_tac|intros ?]).
  eapply ends_bind; [apply settle_outcome; unfold external_states, settled_states in *; set_solver|intros t].
  do 2 (apply ends_step; [preserves_tac|intros ?]). apply ends_ret. by intros s.
Qed.
Lemma gate_outcome manifestPath c cfg task :
  ends tasks_wf (λ x s, match x with Some res => filed_result (TaskID task) res s | None => tasks_wf s end)
    (external_gate r manifestPath c cfg task).
Proof.
  assert (∀ m, ends tasks_wf (filed_result (TaskID task)) m →
    ends tasks_wf (λ x s, match x with Some res => filed_result (TaskID task) res s | None => tasks_wf s end)
      (result ← m; mret (Some result))) as Hstop.
  { intros m H. eapply ends_bind; [exact H|]. intros res. by apply ends_ret. }
  unfold external_gate. cbv zeta. destruct (negb (bool_decide _)); [by apply ends_ret|].
  destruct (negb _); [apply Hstop, fail_outcome|]. eapply ends_bind; [apply resolve_outcome|]. intros [token|res].
  - cbn [stopped]. apply ends_step; [preserves_tac|]. intros [?|?]; [by apply ends_ret|apply Hstop, fail_outcome].
  - by apply ends_ret.
Qed.
Lemma handler_outcome h task onProgress : ends tasks_wf (filed_result (TaskID task)) (run_handler r h task onProgress).
Proof.
  destruct h; cbn [run_handler].
  - unfold runTaskPlan, generateTaskPlan. outcome_tac.
  - unfold runFileEdit. cbv zeta. destruct (blank _); [apply block_outcome|]. apply gated_outcome. intros token. outcome_tac.
  - unfold runFileRead. cbv zeta. destruct (blank _); [apply block_outcome|]. apply gated_outcome. intros token. outcome_tac.
  - unfold runShellCommand. cbv zeta. case_decide; [apply block_outcome|]. apply gated_outcome. intros token. outcome_tac.
  - unfold runWebSearch. outcome_tac; apply block_search_outcome.
  - unfold runGitHubIssueSearch. outcome_tac; apply block_outcome.
  - unfold runEmailInbox. outcome_tac; apply block_outcome.
  - unfold runMemoryConsolidate, generateMemorySummary, unmaybe. outcome_tac.
  - unfold externalHandler. apply ends_step; [preserves_tac|]. intros _.
    destruct (resolveExternalPaths _ _ _) as [e|[c wd]]; [apply fail_outcome|].
    eapply ends_bind; [apply gate_outcome|]. intros [res|]; [by apply ends_ret|]. unfold run_command.
    destruct (negb _); [apply ends_throw|]. do 2 (apply ends_step; [preserves_tac|intros ?]).
    destruct (Execution.so_err _); [apply fail_outcome|].
    apply ends_step; [preserves_tac|]. intros ?. destruct (decode_result _); [apply apply_outcome|apply fail_outcome].
Qed.

Lemma GetTask_run taskID (s : System L) w :
  with_runtime (Runtime.GetTask taskID) s w = ((Runtime.GetTask taskID (MemScheduler.runtime (stores s)) w).1.1, s, w).
Proof.
  unfold with_runtime, with_stores, MemScheduler.with_runtime, Runtime.GetTask, Runtime.findTaskLocked.
  rewrite !bind_eq. cbn [get]. unfold lift_result. destruct s as [[rt m f] ma sk p]. cbn [stores MemScheduler.runtime].
  destruct (StatusDirs.find_record _ _ _ _) as [[t path]|e]; reflexivity.
Qed.
(** The task as it is stored. *)
Definition stored_task (taskID : string) (s : System L) (w : World) : result Task := (Runtime.GetTask taskID (MemScheduler.runtime (stores s)) w).1.1.
Lemma stored_task_id taskID s w task : tasks_wf s → stored_task taskID s w = Ok task → TaskID task = taskID.
Proof.
  intros Hwf. unfold stored_task, Runtime.GetTask, Runtime.findTaskLocked. rewrite !bind_eq. cbn [get]. unfold lift_result.
  destruct (StatusDirs.find_record _ _ _ _) as [[t [st n]]|e] eqn:E; [|done]. intros [= ->].
  apply StatusDirs.find_record_Ok in E as (Hl & _ & Hn). cbn in Hn. subst n. destruct (Hwf _ _ _ Hl) as [_ H].
  by apply StatusDirs.fileName_inj in H.
Qed.
(** The skill that may run the task. *)
Definition runnable (task : Task) (s : System L) (def : Skills.SkillDefinition) : Prop :=
  Runtime.State task ∈ runnable_states ∧ skill_of task (Skills.registry (skills s)) = Some def ∧ Skills.Enabled def = true.
Lemma RunTask_run taskID onProgress s w :
  (∃ task def h, stored_task taskID s w = Ok task ∧ runnable task s def ∧ Skills.skill_Handler def = Some h ∧
     RunTaskWithProgress r taskID onProgress s w = run_handler r h (applySkillDefaults task def) onProgress s w) ∨
  ((∃ e, RunTaskWithProgress r taskID onProgress s w = (Err e, s, w)) ∧
   ∀ task def, stored_task taskID s w = Ok task → runnable task s def → Skills.skill_Handler def = None).
Proof.
  unfold RunTaskWithProgress. rewrite bind_eq, GetTask_run. fold (stored_task taskID s w).
  destruct (stored_task taskID s w) as [task|e]; [|right; split; [by eexists|done]].
  destruct (bool_decide (Runtime.State task ∈ runnable_states)) eqn:Hs; cbn [negb].
  2: { apply bool_decide_eq_false in Hs. right. split; [by eexists|]. by intros ? def [= <-] [? _]. }
  apply bool_decide_eq_true in Hs. rewrite bind_eq. cbn [get]. cbv beta iota.
  destruct (skill_of task _) as [def|] eqn:Ed.
  2: { right. split; [by eexists|]. intros ? def [= <-] (_ & H & _). by rewrite Ed in H. }
  destruct (Skills.Enabled def) eqn:He; cbn [negb].
  2: { right. split; [by eexists|]. intros ? def' [= <-] (_ & H & Hen). rewrite Ed in H. injection H as ->. by rewrite He in Hen. }
  destruct (Skills.skill_Handler def) as [h|] eqn:Eh; [left|right; split; [by eexists|]].
  - exists task, def, h. split_and!; [done|by split_and!|done|reflexivity].
  - intros ? def' [= <-] (_ & H & _). rewrite Ed in H. by injection H as ->.
Qed.

(** C27. A run settles its task.  When [RunTask] returns a result, the task it
    returns is done, failed, blocked or awaiting approval, and it is what the
    task's file now holds, in the directory of that state: whichever skill ran
    it and whatever the model, the connectors, the executor, an external
    program and the disk did, memory maintenance scheduled on success included.
    Only a planned or active task whose skill is known and enabled is run at
    all: for any other nothing changes.  (The task files lie where their
    records say, which every operation keeps, and the listener of progress
    events does not touch the stores.) *)
Theorem RunTask_settles taskID onProgress s w :
  tasks_wf s →
  let '(res, s', w') := RunTaskWithProgress r taskID onProgress s w in
  (∀ result, res = Ok result →
     let task := rr_Task result in
     TaskID task = taskID ∧
     Runtime.State task ∈ [Runtime.TaskStateDone; Runtime.TaskStateFailed; Runtime.TaskStateBlocked; Runtime.TaskStateAwaitingApproval] ∧
     Runtime.task_files (MemScheduler.runtime (stores s')) !! (Runtime.State task, StatusDirs.fileName taskID)
       = Some (Doc (Runtime.task_norm task))) ∧
  ((∃ task def, stored_task taskID s w = Ok task ∧ runnable task s def) ∨ (s' = s ∧ is_ok res = false)).
Proof.
  intros Hwf. destruct (RunTask_run taskID onProgress s w) as [(task & def & h & Ht & Hr & Hh & ->)|[[e ->] _]].
  - pose proof (handler_outcome h (applySkillDefaults task def) onProgress s w) as H.
    destruct (run_handler r h _ onProgress s w) as [[res s'] w']. split.
    + intros result ->. destruct (H result s' w' Hwf eq_refl) as ([_ H1] & H2 & H3). cbn [applySkillDefaults TaskID] in *.
      pose proof (stored_task_id taskID s w task Hwf Ht) as Hid. rewrite Hid in H1, H2. auto.
    + left. by exists task, def.
  - split; [done|]. by right.
Qed.
End outcome.

(** ** What a run may start *)

Section safety.
Context {tables : UnicodeTables} {url : UrlPackage} {digits : Recall.FloatFormat} {L : Type}.
Variable r : Runner L.
Hypothesis heard : listens r.

(** No action was recorded, no program started, and no file written but the
    own outputs of the task [id]. *)
Definition quiet (id : string) (s0 s : System L) : Prop :=
  Execution.spawned (machine s) = Execution.spawned (machine s0) ∧ Execution.actions (machine s) = Execution.actions (machine s0) ∧
  ∀ p, ¬ own_output r id p → disk s !! p = disk s0 !! p.
(** The approval a root task names exists and is approved. *)
Definition root_approved (task : Task) (s : System L) : Prop := ∃ record w,
  (Approval.Get (getter task "root_approval_id") (Execution.approvals (machine s)) w).1.1 = Ok record ∧
  Approval.Status record = Approval.StatusApproved.

(** A step that only reports. *)
Lemma emit_step onProgress stage message s w : ∃ l w',
  emitProgress r onProgress stage message s w = (Ok tt, mkSystem (stores s) (machine s) (skills s) l, w') ∧ same_env w w'.
Proof. unfold emitProgress. destruct onProgress; [apply heard|]. exists (listener s), w. split; [by destruct s|done]. Qed.

(** An invariant of the machine that does not read its approvals. *)
Section machine_frames.
Variable I : System L → Prop.
Hypothesis I_machine : ∀ s s', Execution.spawned (machine s') = Execution.spawned (machine s) → Execution.actions (machine s') = Execution.actions (machine s) →
  disk s' = disk s → I s → I s'.
Variables Out Owner : string → Prop.
Hypothesis I_owned : ∀ id p, Owner id → own_output r id p → Out p.
Hypothesis I_out : ∀ s p c, Out p → I s →
  I (mkSystem (stores s) (Execution.set_workspace (insert p c) (machine s)) (skills s) (listener s)).
Lemma frame_notify e : preserves I (notify r e).
Proof. intros s w Hs. destruct (heard e s w) as (l & w' & -> & _). by apply (I_machine s). Qed.
Lemma frame_stores {A} (m : M MemScheduler.System A) : preserves I (with_stores m).
Proof. intros s w Hs. unfold with_stores. destruct (m (stores s) w) as [[x y] w']. by apply (I_machine s). Qed.
Lemma frame_runtime A (m : M Runtime.Store A) : preserves Runtime.dirs_ok m → preserves I (with_runtime m).
Proof. intros _. apply frame_stores. Qed.
Lemma frame_memory A (m : M MemoryStore.Store A) : preserves MemoryStore.store_wf m → preserves I (with_memory m).
Proof. intros _. apply frame_stores. Qed.
Lemma frame_scheduler config configured o1 o2 o3 reason : preserves I (with_stores (MemScheduler.EvaluateAndSchedule config configured o1 o2 o3 reason)).
Proof. apply frame_stores. Qed.
Lemma frame_approvals A (m : M Approval.Store A) : preserves I (with_approvals m).
Proof.
  intros s w Hs. unfold with_approvals, with_machine, Execution.with_approvals.
  destruct (m (Execution.approvals (machine s)) w) as [[x y] w']. by apply (I_machine s).
Qed.
Lemma machine_frame : Frame r Out Owner I.
Proof.
  split; [done|apply frame_notify|done|apply frame_runtime|apply frame_memory|apply frame_scheduler|..];
    intros; apply frame_approvals.
Qed.
End machine_frames.

Lemma quiet_machine id s0 s s' : Execution.spawned (machine s') = Execution.spawned (machine s) → Execution.actions (machine s') = Execution.actions (machine s) →
  disk s' = disk s → quiet id s0 s → quiet id s0 s'.
Proof. intros H1 H2 H3 (Q1 & Q2 & Q3). split_and!; [by rewrite H1|by rewrite H2|]. rewrite H3. exact Q3. Qed.
Lemma quiet_out id s0 s p c : own_output r id p → quiet id s0 s →
  quiet id s0 (mkSystem (stores s) (Execution.set_workspace (insert p c) (machine s)) (skills s) (listener s)).
Proof.
  intros Hp (Q1 & Q2 & Q3). split_and!; [done..|]. intros q Hq. cbn. rewrite lookup_insert_ne; [by apply Q3|]. by intros ->.
Qed.
Lemma quiet_refl id s : quiet id s s.
Proof. by split_and!. Qed.
Lemma quiet_frame id s0 : Frame r (own_output r id) (eq id) (quiet id s0).
Proof. apply machine_frame; [apply quiet_machine|by intros id' p <-|apply quiet_out]. Qed.

Lemma get_approval id (s : System L) w : ∃ res, with_approvals (Approval.Get id) s w = (res, s, w) ∧
  ∀ w', (Approval.Get id (Execution.approvals (machine s)) w').1.1 = res.
Proof.
  unfold with_approvals, with_machine, Execution.with_approvals, Approval.Get, Approval.findLocked.
  rewrite !bind_eq. cbn [get]. unfold lift_result. destruct s as [st [a ap ws sl sp] sk p]. cbn [machine Execution.approvals].
  destruct (StatusDirs.find_record _ _ _ _) as [[x path]|e] eqn:E; eexists; (split; [reflexivity|]); intros w';
    rewrite !bind_eq; cbn [get]; unfold lift_result; rewrite E; reflexivity.
Qed.
Lemma stop_inr (m : M (System L) RunResult) s w token s' w' : (result ← m; mret (inr result)) s w ≠ (Ok (inl (B := RunResult) token : string + RunResult), s', w').
Proof. rewrite bind_eq. by destruct (m s w) as [[[?|?] ?] ?]. Qed.
(** Without an approved record a root task gets no token. *)
Lemma resolve_unapproved task kind summary md s w token s' w' :
  Runtime.ExecutionProfile task = "root" → resolveRootApproval r task kind summary md s w = (Ok (inl token), s', w') → root_approved task s.
Proof.
  intros Hroot. unfold resolveRootApproval. rewrite bool_decide_true by done. cbn [negb]. cbv zeta.
  destruct (has_approvals r); cbn [negb]; [|intros H; by apply stop_inr in H].
  destruct (blank _); [intros H; by apply stop_inr in H|]. rewrite bind_eq. unfold try.
  destruct (get_approval (getter task "root_approval_id") s w) as (res & -> & Hget).
  destruct res as [record|e]; [|intros H; by apply stop_inr in H].
  intros E. repeat case_decide; try by apply stop_inr in E.
  exists record, w. split; [apply Hget|done].
Qed.

(** The parts of the runner that start nothing. *)
Lemma quiet_resolve s0 task kind summary md : preserves (quiet (TaskID task) s0) (resolveRootApproval r task kind summary md).
Proof. by apply (keeps_resolve _ _ _ _ (quiet_frame _ _)). Qed.
Lemma quiet_block id s0 task reason : preserves (quiet id s0) (blockTask task reason).
Proof. apply (keeps_block _ _ _ _ (quiet_frame _ _)). Qed.
Lemma quiet_emit id s0 onProgress stage message : preserves (quiet id s0) (emitProgress r onProgress stage message).
Proof. apply (keeps_emit _ _ _ _ (quiet_frame _ _)). Qed.
Lemma quiet_fail id s0 task reason : preserves (quiet id s0) (failExternalTask task reason).
Proof. apply (keeps_fail _ _ _ _ (quiet_frame _ _)). Qed.
Lemma quiet_gate s0 manifestPath c cfg task : preserves (quiet (TaskID task) s0) (external_gate r manifestPath c cfg task).
Proof. by apply (keeps_gate _ _ _ _ (quiet_frame _ _)). Qed.
(** A gated skill of an unapproved root task stops at the gate. *)
Lemma quiet_gated task kind summary md (k : string → M (System L) RunResult) s w :
  Runtime.ExecutionProfile task = "root" → ¬ root_approved task s →
  quiet (TaskID task) s (exec (approval ← resolveRootApproval r task kind summary md;
    match approval with inr result => mret result | inl token => k token end) s w).
Proof.
  intros Hroot Hno. unfold exec. rewrite bind_eq. pose proof (quiet_resolve s task kind summary md s w (quiet_refl _ s)) as Hq.
  pose proof (resolve_unapproved task kind summary md s w) as Hr.
  destruct (resolveRootApproval r task kind summary md s w) as [[[[token|res]|e] s'] w']; [|exact Hq|exact Hq].
  exfalso. by eapply Hno, Hr.
Qed.
Lemma gate_unapproved manifestPath c cfg task s w s' w' :
  Runtime.ExecutionProfile task = "root" → external_gate r manifestPath c cfg task s w = (Ok None, s', w') →
  Skills.RequireApproval cfg = true ∧ root_approved task s.
Proof.
  intros Hroot. unfold external_gate. rewrite bool_decide_true by done. cbn [negb]. cbv zeta.
  assert (∀ (m : M (System L) RunResult) s w s' w', (result ← m; mret (Some result)) s w ≠ (Ok None, s', w')) as Hstop.
  { intros m s2 w2 s3 w3. rewrite bind_eq. by destruct (m s2 w2) as [[[?|?] ?] ?]. }
  destruct (Skills.RequireApproval cfg); cbn [negb]; [|intros H; by apply Hstop in H]. rewrite bind_eq.
  match goal with |- context [resolveRootApproval r task ?k ?x ?md s w] => pose proof (resolve_unapproved task k x md s w) as Hr;
    destruct (resolveRootApproval r task k x md s w) as [[[[token|res]|e] s1] w1] end; [|done|done].
  intros _. split; [done|]. by eapply Hr.
Qed.

(** C26. A root task starts nothing before it is approved.  While the approval
    the task names is missing, pending, denied or consumed, running the task,
    by whichever skill and however often the manifests or the model ask for
    it, records no action, starts no program and writes no file but its own
    reports and observations: of the files on disk only those can change that
    the built-in skills name after this task. *)
Theorem root_needs_approval taskID onProgress s w task def :
  stored_task taskID s w = Ok task → runnable task s def →
  let task' := applySkillDefaults task def in
  Runtime.ExecutionProfile task' = "root" → ¬ root_approved task' s →
  quiet (TaskID task) s (exec (RunTaskWithProgress r taskID onProgress) s w).
Proof.
  intros Ht Hr task' Hroot Hno. unfold exec.
  destruct (RunTask_run r taskID onProgress s w) as [(task0 & def0 & h & Ht0 & Hr0 & Hh & ->)|[[e ->] _]]; [|apply quiet_refl].
  rewrite Ht in Ht0. injection Ht0 as <-. destruct Hr0 as (_ & Hd0 & _). destruct Hr as (_ & Hd & _). rewrite Hd in Hd0. injection Hd0 as <-.
  fold task'. assert (TaskID task' = TaskID task) as Hid by reflexivity.
  rewrite <- Hid. set (id := TaskID task'). fold (exec (run_handler r h task' onProgress) s w). destruct h; cbn [run_handler].
  - apply (preserves_exec (quiet id s)); [|apply quiet_refl]. by apply (keeps_plan _ _ _ _ (quiet_frame _ _)).
  - unfold runFileEdit. cbv zeta. destruct (blank _); [apply (preserves_exec (quiet id s)); [apply quiet_block|apply quiet_refl]|by apply quiet_gated].
  - unfold runFileRead. cbv zeta. destruct (blank _); [apply (preserves_exec (quiet id s)); [apply quiet_block|apply quiet_refl]|by apply quiet_gated].
  - unfold runShellCommand. cbv zeta. case_decide; [apply (preserves_exec (quiet id s)); [apply quiet_block|apply quiet_refl]|by apply quiet_gated].
  - apply (preserves_exec (quiet id s)); [|apply quiet_refl]. by apply (keeps_web _ _ _ _ (quiet_frame _ _)).
  - apply (preserves_exec (quiet id s)); [|apply quiet_refl]. by apply (keeps_github _ _ _ _ (quiet_frame _ _)).
  - apply (preserves_exec (quiet id s)); [|apply quiet_refl]. by apply (keeps_email _ _ _ _ (quiet_frame _ _)).
  - apply (preserves_exec (quiet id s)); [|apply quiet_refl]. by apply (keeps_consolidate _ _ _ _ (quiet_frame _ _)).
  - unfold exec, externalHandler. rewrite bind_eq. pose proof (quiet_emit id s onProgress "external.invoke" "Running external skill adapter..." s w (quiet_refl _ s)) as Hq.
    destruct (emit_step onProgress "external.invoke" "Running external skill adapter..." s w) as (l & w1 & E & _). rewrite E in Hq |- *.
    set (s1 := mkSystem (stores s) (machine s) (skills s) l) in *. assert (Execution.approvals (machine s1) = Execution.approvals (machine s)) as Hap by done.
    destruct (resolveExternalPaths r manifestPath cfg) as [e|[c wd]].
    { pose proof (quiet_fail id s task' e s1 w1 Hq) as H. by destruct (failExternalTask task' e s1 w1) as [[? ?] ?]. }
    rewrite bind_eq. pose proof (quiet_gate s manifestPath c cfg task' s1 w1 Hq) as H.
    pose proof (gate_unapproved manifestPath c cfg task' s1 w1) as Hg.
    destruct (external_gate r manifestPath c cfg task' s1 w1) as [[[[res|]|e] s2] w2]; [done| |done].
    exfalso. destruct (Hg s2 w2 Hroot eq_refl) as [_ (record & w' & H1 & H2)]. apply Hno. exists record, w'. by rewrite <- Hap.
Qed.

(** *** External programs *)

Definition spawned_is (l : list (string * list string * string)) (s : System L) : Prop := Execution.spawned (machine s) = l.
Lemma spawned_machine l s s' : Execution.spawned (machine s') = Execution.spawned (machine s) → Execution.actions (machine s') = Execution.actions (machine s) →
  disk s' = disk s → spawned_is l s → spawned_is l s'.
Proof. unfold spawned_is. by intros ->. Qed.
Lemma spawned_frame l : Frame r (λ _, True) (λ _, True) (spawned_is l).
Proof. apply machine_frame; [apply spawned_machine|done|done]. Qed.
Lemma spawned_fail l task reason : preserves (spawned_is l) (failExternalTask task reason).
Proof. apply (keeps_fail _ _ _ _ (spawned_frame _)). Qed.
Lemma spawned_apply l task result telemetry : preserves (spawned_is l) (applyExternalResult r task result telemetry).
Proof. by apply (keeps_apply _ _ _ _ (spawned_frame _)). Qed.
Lemma spawned_gate l manifestPath c cfg task : preserves (spawned_is l) (external_gate r manifestPath c cfg task).
Proof. by apply (keeps_gate _ _ _ _ (spawned_frame _)). Qed.
Lemma run_command_spawns manifestPath c wd cfg task s w :
  let s' := exec (run_command r manifestPath c wd cfg task) s w in
  spawned_is (Execution.spawned (machine s)) s' ∨ spawned_is (Execution.spawned (machine s) ++ [(c, Skills.ex_Args cfg, wd)]) s'.
Proof.
  unfold run_command, exec. destruct (negb _); [by left|]. right. rewrite bind_eq. cbn [now]. rewrite bind_eq. unfold run_external. cbv beta zeta iota.
  set (l := Execution.spawned (machine s) ++ _).
  match goal with |- context [mkSystem (stores s) ?m (skills s) (listener s)] => set (s1 := mkSystem (stores s) m (skills s) (listener s)) end.
  assert (spawned_is l s1) as H1 by done. destruct (Execution.so_err _) as [e|].
  - match goal with |- context [failExternalTask ?t ?x s1 ?w1] => pose proof (spawned_fail l t x s1 w1 H1) as H; by destruct (failExternalTask t x s1 w1) as [[? ?] ?] end.
  - rewrite bind_eq. cbn [now]. destruct (decode_result _) as [result|].
    + match goal with |- context [applyExternalResult r ?t ?x ?y s1 ?w1] => pose proof (spawned_apply l t x y s1 w1 H1) as H;
        by destruct (applyExternalResult r t x y s1 w1) as [[? ?] ?] end.
    + match goal with |- context [failExternalTask ?t ?x s1 ?w1] => pose proof (spawned_fail l t x s1 w1 H1) as H; by destruct (failExternalTask t x s1 w1) as [[? ?] ?] end.
Qed.

(** A path that does not escape is below its base. *)
Lemma escapes_below base path : IsAbs base = true → IsAbs path = true → escapes base path = false → comps base `prefix_of` comps path.
Proof.
  intros Hb Hp He. apply FsAccess.Rel_under; [done..|]. unfold escapes in He. destruct (Rel base path) as [rel|]; [|done].
  apply orb_true_iff. right. apply andb_true_iff. split.
  - apply negb_true_iff, not_true_iff_false. intros H. apply not_true_iff_false in He. apply He.
    apply HasPrefix_spec in H as [x ->]. change "../" with (".." +:+ "/"). rewrite <- string_app_assoc. apply HasPrefix_app.
  - apply negb_true_iff, bool_decide_eq_false. intros ->. done.
Qed.
Lemma Dir_abs path : IsAbs path = true → IsAbs (Dir path) = true.
Proof.
  intros H. unfold Dir. rewrite H. apply FsAccess.IsAbs_Clean. apply (HasPrefix_app "/").
Qed.

(** C29. An external skill starts one program of its own.  For a manifest at an
    absolute path, running the skill starts at most one program, with the arguments of the manifest: a file that exists,
    below the directory of the manifest, in a working directory below it; and
    for a root task only if the manifest requires approval and the approval
    the task names is approved.  (Below a relative runtime root, as the default
    one is, the command is looked up in the working directory of the skill and
    is not the file that was checked.) *)
Theorem external_confined manifestPath cfg task onProgress s w :
  IsAbs manifestPath = true →
  let s' := exec (externalHandler r manifestPath cfg task onProgress) s w in
  spawned_is (Execution.spawned (machine s)) s' ∨
  ∃ c wd, spawned_is (Execution.spawned (machine s) ++ [(c, Skills.ex_Args cfg, wd)]) s' ∧
    comps (Dir manifestPath) `prefix_of` comps c ∧ comps (Dir manifestPath) `prefix_of` comps wd ∧ stat r c = inr false ∧
    (Runtime.ExecutionProfile task = "root" → Skills.RequireApproval cfg = true ∧ root_approved task s).
Proof.
  intros Ha. unfold exec, externalHandler. rewrite bind_eq.
  destruct (emit_step onProgress "external.invoke" "Running external skill adapter..." s w) as (l & w1 & -> & _).
  set (s1 := mkSystem (stores s) (machine s) (skills s) l). assert (machine s1 = machine s) as Hm by done.
  assert (spawned_is (Execution.spawned (machine s)) s1) as Hs1 by (unfold spawned_is; by rewrite Hm).
  destruct (resolveExternalPaths r manifestPath cfg) as [e|[c wd]] eqn:Ep.
  { left. pose proof (spawned_fail _ task e s1 w1 Hs1) as H. by destruct (failExternalTask task e s1 w1) as [[? ?] ?]. }
  assert (comps (Dir manifestPath) `prefix_of` comps c ∧ comps (Dir manifestPath) `prefix_of` comps wd ∧ stat r c = inr false) as (Hc & Hwd & Hst).
  { revert Ep. unfold resolveExternalPaths. pose proof (Dir_abs _ Ha) as Hd.
    assert (∀ x, IsAbs (Clean (Join2 (Dir manifestPath) x)) = true) as Hj by (intros x; by apply FsAccess.IsAbs_Clean, FsAccess.IsAbs_Join2).
    destruct (escapes _ _) eqn:E1; [done|]. apply escapes_below in E1; [|done..]. destruct (stat r _) as [?|[]] eqn:Est; [done..|].
    destruct (blank _); [by intros [= <- <-]|]. destruct (escapes _ (Clean (Join2 _ (Skills.WorkDir cfg)))) eqn:E2; [done|].
    apply escapes_below in E2; [|done..]. by intros [= <- <-]. }
  rewrite bind_eq. pose proof (spawned_gate _ manifestPath c cfg task s1 w1 Hs1) as Hg.
  pose proof (gate_unapproved manifestPath c cfg task s1 w1) as Hu.
  destruct (external_gate r manifestPath c cfg task s1 w1) as [[[[res|]|e] s2] w2]; [by left| |by left].
  pose proof (run_command_spawns manifestPath c wd cfg task s2 w2) as Hr. unfold exec in Hr.
  destruct (run_command r manifestPath c wd cfg task s2 w2) as [[x s'] w']. unfold spawned_is in Hg. rewrite Hg in Hr.
  destruct Hr as [Hr|Hr]; [by left|right]. exists c, wd. split_and!; [done..|]. intros Hroot.
  destruct (Hu s2 w2 Hroot eq_refl) as [H1 (record & wg & H2 & H3)]. split; [done|]. exists record, wg. by rewrite <- Hm.
Qed.
End safety.

(** ** Where outputs go *)

(** A name that goes up [n] times. *)
Definition going_up (n : nat) (s : string) : string := Nat.iter n (λ s, ".." +:+ "/" +:+ s) s.
Lemma split_going_up n s : FsAccess.split_path (going_up n s) = replicate n ".." ++ FsAccess.split_path s.
Proof.
  induction n as [|n IH]; [done|]. change (going_up (S n) s) with (".." +:+ "/" +:+ going_up n s). by rewrite FsAccess.split_path_slash, IH.
Qed.
Lemma clean_go_up acc es : Forall proper acc →
  FsAccess.clean_go true acc (replicate (length acc) ".." ++ es) = FsAccess.clean_go true [] es.
Proof.
  induction 1 as [|a acc Ha _ IH]; [done|]. cbn [length replicate app FsAccess.clean_go].
  rewrite decide_False, decide_True by done. rewrite decide_False by apply Ha. exact IH.
Qed.

(** The artifacts of the built-in skills stay below their directory, and an
    external program can name any other.  A kind and a name that are single
    path elements give the file of that name below [artifacts] or
    [observations]; but the kind and the name of an external result are used
    as they are, and some name leads to every absolute path. *)
Theorem outputs_confined {L} (r : Runner L) : IsAbs (rootDir r) = true →
  (∀ area kind name, proper area → proper kind → proper name →
     comps (file_path r area kind name) = comps (rootDir r) ++ [area; kind; name]) ∧
  (∀ es, Forall proper es → ∃ name, file_path r "artifacts" "reports" name = render es).
Proof.
  intros Hr. split.
  - intros area kind name H1 H2 H3. unfold file_path. rewrite !FsAccess.Join2_proper by (repeat apply FsAccess.IsAbs_Join2; done).
    by rewrite <- !app_assoc.
  - intros es Hes. set (base := Join2 (Join2 (rootDir r) "artifacts") "reports").
    assert (IsAbs base = true) as Hb by (repeat apply FsAccess.IsAbs_Join2; done).
    assert (length (comps base) ≠ 0)%nat as Hn.
    { unfold base. rewrite !FsAccess.Join2_proper by (repeat apply FsAccess.IsAbs_Join2; done). rewrite !length_app. cbn. lia. }
    exists (going_up (length (comps base)) (Join es "/")). unfold file_path. fold base.
    destruct (FsAccess.Join2_comps base (going_up (length (comps base)) (Join es "/")) Hb) as [Hc ->]; [by destruct (length (comps base))|].
    rewrite Hc, split_going_up, FsAccess.split_Join by done. f_equal. rewrite <- (length_reverse (comps base)).
    rewrite clean_go_up by (by apply Forall_reverse, FsAccess.comps_proper). by rewrite FsAccess.clean_go_id.
Qed.

(** ** Groups of runs *)

Lemma index_bar a b : has_byte "|" a = false → String.index 0 "|" (a +:+ "|" +:+ b) = Some (len a).
Proof.
  induction a as [|x a IH]; intros H; [by destruct b|]. cbn [has_byte] in H. apply orb_false_iff in H as [Hx Ha].
  apply bool_decide_eq_false in Hx. rewrite string_cons_app. cbn [String.index]. rewrite IH by done.
  assert (String.prefix "|" (String x (a +:+ "|" +:+ b)) = false) as ->; [|done].
  cbn [String.prefix]. by destruct (ascii_dec "|" x).
Qed.
Lemma take_len a b : take_bytes (len a) (a +:+ b) = a.
Proof. unfold take_bytes, len. induction a as [|x a IH]; [by destruct b|]. rewrite string_cons_app. cbn [String.length String.substring]. by rewrite IH. Qed.
Lemma drop_len a b n : drop_bytes (len a + n) (a +:+ b) = drop_bytes n b.
Proof. unfold len. induction a as [|x a IH]; [done|]. rewrite string_cons_app. cbn [String.length Nat.add drop_bytes]. exact IH. Qed.
Lemma Cut_bar a b : has_byte "|" a = false → Cut (a +:+ "|" +:+ b) "|" = Some (a, b).
Proof.
  intros H. unfold Cut. rewrite index_bar by done. rewrite take_len, drop_len. done.
Qed.

(** Whether a group of runs keeps its class.  The class and the skill of a
    group are read back exactly when the class holds no bar; a class with a
    bar is cut there, and the rest of it becomes part of the skill's name. *)
Theorem group_key_split :
  (∀ taskClass selectedSkill, has_byte "|" taskClass = false →
     split_group_key (group_key taskClass selectedSkill) = (taskClass, selectedSkill)) ∧
  (∀ a b selectedSkill, has_byte "|" a = false →
     split_group_key (group_key (a +:+ "|" +:+ b) selectedSkill) = (a, group_key b selectedSkill)).
Proof.
  unfold split_group_key, group_key. split; [intros c k H; by rewrite Cut_bar|].
  intros a b k H. rewrite <- string_app_assoc, <- string_app_assoc. by rewrite Cut_bar.
Qed.

(** ** The memory and the registry *)

Section memory_invariant.
Context {tables : UnicodeTables} {url : UrlPackage} {digits : Recall.FloatFormat} {L : Type}.
(** [K]: what is known of the skills. *)
Variables (r : Runner L) (K : Skills.System → Prop).
Definition memory_ok (s : System L) : Prop := MemoryStore.store_wf (MemScheduler.memory (stores s)) ∧ K (skills s).
Definition scheduler_memory (s : MemScheduler.System) : Prop := MemoryStore.store_wf (MemScheduler.memory s).
Lemma scheduler_runtime {A} (m : M Runtime.Store A) : preserves scheduler_memory (MemScheduler.with_runtime m).
Proof. intros s w Hs. unfold MemScheduler.with_runtime. by destruct (m (MemScheduler.runtime s) w) as [[x y] w']. Qed.
Lemma scheduler_with_memory {A} (m : M MemoryStore.Store A) : preserves MemoryStore.store_wf m → preserves scheduler_memory (MemScheduler.with_memory m).
Proof.
  intros Hm s w Hs. unfold MemScheduler.with_memory. specialize (Hm (MemScheduler.memory s) w Hs).
  by destruct (m (MemScheduler.memory s) w) as [[x y] w'].
Qed.
Lemma scheduler_file st : preserves scheduler_memory (MemScheduler.saveState st).
Proof. unfold MemScheduler.saveState. preserves_tac. by apply preserves_WriteFile. Qed.
#[local] Hint Resolve scheduler_runtime scheduler_file : hoare.
Lemma scheduler_evaluate config configured o1 o2 o3 reason : preserves scheduler_memory (MemScheduler.EvaluateAndSchedule config configured o1 o2 o3 reason).
Proof.
  unfold MemScheduler.EvaluateAndSchedule, MemScheduler.submit, MemScheduler.skip, MemScheduler.loadState, MemScheduler.cooling_down,
    MemScheduler.hydrateDecisionFromTaskID, ReadJSON. preserves_tac.
  all: apply scheduler_with_memory, Governance.DecayAndCompact_preserves.
Qed.
Lemma memory_stores {A} (m : M MemScheduler.System A) : preserves scheduler_memory m → preserves memory_ok (with_stores m).
Proof.
  intros Hm s w [Hs Hk]. unfold with_stores. specialize (Hm (stores s) w Hs). destruct (m (stores s) w) as [[x y] w']. by split.
Qed.
Lemma memory_machine {A} (m : M ExecState A) : preserves memory_ok (with_machine m).
Proof. intros s w Hs. unfold with_machine. by destruct (m (machine s) w) as [[x y] w']. Qed.
#[local] Hint Resolve memory_machine : hoare.
Lemma memory_execute m : preserves memory_ok (execute m).
Proof. unfold execute, unmaybe. preserves_tac. Qed.

Lemma RunTask_memory taskID onProgress : (∀ e, preserves memory_ok (notify r e)) → preserves memory_ok (RunTaskWithProgress r taskID onProgress).
Proof.
  intros Hn. apply keeps_RunTask; intros.
  - apply Hn.
  - done.
  - apply memory_stores, scheduler_runtime.
  - by apply memory_stores, scheduler_with_memory.
  - apply memory_stores, scheduler_evaluate.
  - apply memory_machine.
  - apply memory_machine.
  - apply memory_machine.
  - apply memory_execute.
  - apply memory_execute.
  - apply memory_execute.
  - by intros s w Hs.
Qed.
(** Running tasks keeps the memory and the skills.  Any run of any task, on
    every path and under any fault, keeps the memory well-formed (versions
    numbered, edges between cards that exist, the index exact) and changes
    nothing of the skill registry, its manifests and its saved state. *)
Theorem RunTask_keeps_memory taskID onProgress : listens r → preserves memory_ok (RunTaskWithProgress r taskID onProgress).
Proof. intros heard. apply RunTask_memory. intros e s w Hs. by destruct (heard e s w) as (l & w' & -> & _). Qed.
End memory_invariant.

(** ** A plan is always made *)

Section progress.
Context {tables : UnicodeTables} {url : UrlPackage} {digits : Recall.FloatFormat} {L : Type}.
Variable r : Runner L.
Hypothesis heard : listens r.
Definition good (w : World) : Prop := reliable w ∧ Runtime.sane_clock w.
Lemma good_advance w : good w → good (advance w).
Proof. done. Qed.

Lemma encodable_set k v (m : object) : encodable v = true → encodable (JObj m) = true → encodable (JObj (obj_set k v m)) = true.
Proof.
  intros Hv. cbn. induction m as [|[k' v'] m IH]; cbn; [by rewrite Hv|]. intros [Hv' Hm]%andb_true_iff.
  destruct (String.compare k k'); cbn; [by rewrite Hv|by rewrite Hv, Hv'|rewrite Hv'; exact (IH Hm)].
Qed.
Lemma encodable_payload members : Forall (λ p, encodable p.2 = true) members → encodable (JObj (payload_of members)) = true.
Proof.
  intros H. unfold payload_of. assert (encodable (JObj []) = true) as Hm by done. revert Hm. generalize (@nil (string * json)) as m.
  induction H as [|[k v] members Hv _ IH]; intros m Hm; [done|]. cbn [foldl]. apply IH. by apply encodable_set.
Qed.
Lemma procedure_encodable task : Forall (λ p, encodable p.2 = true) (procedure_members task).
Proof. unfold procedure_members. cbv zeta. destruct (hasEvidence _); by repeat constructor. Qed.

Lemma emit_run onProgress stage message s w : good w → ∃ l w',
  emitProgress r onProgress stage message s w = (Ok tt, mkSystem (stores s) (machine s) (skills s) l, w') ∧ good w'.
Proof.
  intros Hw. destruct (emit_step r heard onProgress stage message s w) as (l & w' & -> & Hc & Hf). exists l, w'. split; [done|].
  unfold good, reliable, Runtime.sane_clock in *. by rewrite Hc, Hf.
Qed.
Lemma generate_run system prompt fallback s w : good w →
  ∃ body resp err w', generate r system prompt fallback s w = (Ok (body, resp, err), s, w') ∧ good w'.
Proof.
  intros Hw. unfold generate. destruct (model r) as [m|]; [|by eexists _, _, _, _]. rewrite bind_eq. unfold GenerateText.
  destruct (m _ _) as [resp err]. destruct (_ || _); by eexists _, _, _, _.
Qed.
Definition put_file (path content : string) (s : System L) : System L :=
  mkSystem (stores s) (Execution.set_workspace (insert path content) (machine s)) (skills s) (listener s).
Lemma write_file_run path content (s : System L) w : good w → write_file path content s w = (Ok tt, put_file path content s, advance w).
Proof. intros [Hw _]. unfold write_file. rewrite bind_eq. cbn [io]. by rewrite Hw. Qed.
Lemma writeArtifact_run kind name content s w : good w →
  writeArtifact r kind name content s w = (Ok (file_path r "artifacts" kind name), put_file (file_path r "artifacts" kind name) content s, advance w).
Proof. intros Hw. unfold writeArtifact. cbv zeta. by rewrite bind_eq, write_file_run. Qed.
Lemma observe_run kind name members s w : good w → Forall (λ p, encodable p.2 = true) members →
  observe r kind name members s w = (Ok (file_path r "observations" kind name),
    put_file (file_path r "observations" kind name) (print_indent 0 (JObj (payload_of members)) +:+ newline) s, advance w).
Proof.
  intros Hw Hm. unfold observe, writeObservation. cbv zeta. rewrite encodable_payload by done. cbn [negb].
  by rewrite bind_eq, write_file_run.
Qed.
Lemma settle_run taskID state next failure edit (s : System L) w t p : good w →
  Runtime.find_task (MemScheduler.runtime (stores s)) taskID = Ok (t, p) → json_time_ok (Runtime.CreatedAt t) = true →
  ∃ rt w', settle taskID state next failure edit s w =
    (Ok (Runtime.stamped (settled next failure edit t) state (clock w (tick w))),
     mkSystem (MemScheduler.mkSystem rt (MemScheduler.memory (stores s)) (MemScheduler.sched_file (stores s))) (machine s) (skills s) (listener s), w') ∧
    good w' ∧ Runtime.state_file rt = Runtime.state_file (MemScheduler.runtime (stores s)).
Proof.
  intros [Hw Hc] Hf Ht. unfold settle, with_runtime, with_stores, MemScheduler.with_runtime.
  erewrite Runtime.MoveTask_reliable; [|exact Hf|reflexivity|exact Hw|].
  - eexists _, _. split; [reflexivity|]. done.
  - unfold Runtime.task_json_ok. cbn. rewrite Ht. apply Hc.
Qed.
Definition set_runtime (rt : Runtime.Store) (s : System L) : System L :=
  mkSystem (MemScheduler.mkSystem rt (MemScheduler.memory (stores s)) (MemScheduler.sched_file (stores s))) (machine s) (skills s) (listener s).
Lemma with_runtime_run {A} (m : M Runtime.Store A) (s : System L) w :
  with_runtime m s w = match m (MemScheduler.runtime (stores s)) w with (x, rt, w') => (x, set_runtime rt s, w') end.
Proof. unfold with_runtime, with_stores, MemScheduler.with_runtime. by destruct (m _ w) as [[x rt] w']. Qed.
Lemma clear_run taskID (s : System L) w st : good w → Runtime.state_file (MemScheduler.runtime (stores s)) !! tt = Some (Doc st) →
  ∃ rt w', clearActiveTask taskID s w =
    (Ok tt, mkSystem (MemScheduler.mkSystem rt (MemScheduler.memory (stores s)) (MemScheduler.sched_file (stores s))) (machine s) (skills s) (listener s), w').
Proof.
  intros [Hw Hc] Hst. unfold clearActiveTask. rewrite bind_eq, with_runtime_run.
  assert (Runtime.LoadState (MemScheduler.runtime (stores s)) w = (Ok st, MemScheduler.runtime (stores s), w)) as ->.
  { unfold Runtime.LoadState, ReadJSON. rewrite bind_eq. cbn [get view Runtime.state_dir]. by rewrite Hst. }
  cbv beta iota. rewrite with_runtime_run. cbn [set_runtime stores MemScheduler.runtime machine skills listener].
  match goal with |- context [Runtime.SaveState ?x] => destruct (Runtime.SaveState_reliable x (MemScheduler.runtime (stores s)) w Hw (Hc _)) as (w' & -> & _) end.
  by eexists _, _.
Qed.
Lemma evaluate_returns config configured o1 o2 o3 reason : raises (λ _, False) (MemScheduler.EvaluateAndSchedule config configured o1 o2 o3 reason).
Proof.
  unfold MemScheduler.EvaluateAndSchedule, MemScheduler.submit, MemScheduler.skip, MemScheduler.loadState, MemScheduler.cooling_down,
    MemScheduler.hydrateDecisionFromTaskID. raises_tac.
Qed.
Lemma finalize_run task onProgress s w st : good w → Runtime.state_file (MemScheduler.runtime (stores s)) !! tt = Some (Doc st) →
  ∃ s' w', finalizeSuccessfulTask r task onProgress s w = (Ok tt, s', w') ∧ machine s' = machine s.
Proof.
  intros Hw Hst. unfold finalizeSuccessfulTask. rewrite bind_eq. destruct (clear_run (TaskID task) s w st Hw Hst) as (rt & w1 & ->).
  destruct (negb _); [by eexists _, _|]. rewrite bind_eq. cbn [get]. cbn [skills stores]. destruct (schedulerForSkill _ _ _) as [config|]; [|by eexists _, _].
  cbv zeta. rewrite bind_eq. unfold with_stores at 1. cbn [stores machine skills listener].
  match goal with |- context [MemScheduler.EvaluateAndSchedule ?a ?b ?c ?d ?e ?f ?g w1] => pose proof (evaluate_returns a b c d e f g w1) as Hr;
    destruct (MemScheduler.EvaluateAndSchedule a b c d e f g w1) as [[[[decision err]|e0] y] w2] end; [|by destruct (Hr _ _ _ eq_refl)].
  destruct (_ && _); [|by eexists _, _]. edestruct (emit_step r heard) as (l & w3 & -> & _). by eexists _, _.
Qed.

(** C28. A plan is always made.  On a disk and a clock that work, running a
    planned or active task by the planner returns, whatever the model answers
    (nothing and an error too): the task is done, and its plan and the
    observation of it are on disk at the paths its metadata names. *)
Theorem plan_succeeds taskID onProgress s w task def st : good w →
  stored_task taskID s w = Ok task → runnable task s def → Skills.skill_Handler def = Some Skills.runTaskPlan →
  json_time_ok (Runtime.CreatedAt task) = true → Runtime.state_file (MemScheduler.runtime (stores s)) !! tt = Some (Doc st) → TaskID task = taskID →
  ∃ updated artifact observation s' w',
    RunTaskWithProgress r taskID onProgress s w = (Ok (mkRunResult updated None [artifact] [observation]), s', w') ∧
    Runtime.State updated = Runtime.TaskStateDone ∧
    getter updated "plan_artifact" = artifact ∧ getter updated "plan_observation" = observation ∧
    is_Some (disk s' !! artifact) ∧ is_Some (disk s' !! observation).
Proof.
  intros Hw Ht Hrun Hh Hc Hst Hid.
  assert (∃ p, Runtime.find_task (MemScheduler.runtime (stores s)) taskID = Ok (task, p)) as [p Hf].
  { revert Ht. unfold stored_task, Runtime.GetTask, Runtime.findTaskLocked, Runtime.find_task. rewrite !bind_eq. cbn [get]. unfold lift_result.
    destruct (StatusDirs.find_record _ _ _ _) as [[x path]|e]; intros [= ->]; by exists path. }
  destruct (RunTask_run r taskID onProgress s w) as [(task0 & def0 & h & Ht0 & Hr0 & Hh0 & ->)|[_ H]].
  2: { specialize (H task def Ht Hrun). by rewrite Hh in H. }
  rewrite Ht in Ht0. injection Ht0 as <-. destruct Hr0 as (_ & Hd0 & _). destruct Hrun as (_ & Hd & _). rewrite Hd in Hd0. injection Hd0 as <-.
  rewrite Hh in Hh0. injection Hh0 as <-. cbn [run_handler]. set (task' := applySkillDefaults task def).
  assert (TaskID task' = taskID) as Hid' by done. unfold runTaskPlan. rewrite bind_eq.
  edestruct emit_run as (p1 & w1 & -> & Hw0); [exact Hw|]. rewrite bind_eq. cbn [now]. rewrite bind_eq.
  edestruct generate_run as (body & resp & err & w2 & E & Hw1); [apply good_advance, Hw0|]. unfold generateTaskPlan. rewrite E. clear E. cbv beta zeta iota.
  rewrite bind_eq. edestruct emit_run as (p2 & w3 & -> & Hw2); [exact Hw1|]. rewrite bind_eq, writeArtifact_run by done. cbv beta iota.
  rewrite bind_eq, observe_run; [|done|apply Forall_app; split; [by repeat constructor|apply procedure_encodable]]. cbv beta iota.
  rewrite bind_eq, Hid'. unfold put_file. cbn [stores machine skills listener].
  edestruct settle_run as (rt & w4 & -> & Hw4 & Hsf); [|exact Hf|exact Hc|]; [done|]. rewrite bind_eq. cbn [stores machine skills listener MemScheduler.memory MemScheduler.sched_file].
  match goal with |- context [finalizeSuccessfulTask r ?t onProgress ?s1 w4] =>
    destruct (finalize_run t onProgress s1 w4 st Hw4) as (s' & w' & -> & Hm); [cbn; by rewrite Hsf|] end.
  eexists _, _, _, s', w'. split; [reflexivity|]. rewrite Hm. cbn [machine]. split; [done|]. split_and!.
  - unfold getter. cbn. unfold set. rewrite lookup_insert_ne by done. by rewrite lookup_insert_eq.
  - unfold getter. cbn. unfold set. by rewrite lookup_insert_eq.
  - cbn. match goal with |- is_Some (<[?a := _]> _ !! ?b) => destruct (decide (a = b)) as [->|Hne] end; [rewrite lookup_insert_eq; by eexists|].
    rewrite lookup_insert_ne, lookup_insert_eq by done. by eexists.
  - cbn. rewrite lookup_insert_eq. by eexists.
Qed.
End progress.

(** ** Witnesses *)

#[local] Existing Instances caseless_tables opaque_urls.
#[local] Existing Instance Recall.no_digits.
Definition idle_os : Os := Execution.mkOs (λ _ _ _ _ _, Execution.mkShellOutcome "" "" None) (λ _, None) (λ _, None) (λ _, None).
(** A runner without a model and connectors; external programs print nothing. *)
Definition demo_runner : Runner (list ProgressEvent) :=
  mkRunner idle_os FsAccess.plain_env "/work" "" true true "/var/mnemo" None None MemScheduler.one_scope
    (λ _, inr false) (λ _ _, Execution.mkShellOutcome "{}" "" None) (λ _, "error") (λ _, "bad JSON") (λ _ _, []) (λ _, []) log_events.
Definition demo_task (profile skill : string) : Task :=
  Runtime.mkTask "task-1" "Note" "write a note" Runtime.TaskStateActive 0 0 "user" "chat" profile false skill "" "" (Some {["path" := "/work/note.md"]}).
Definition demo_system (task : Task) : System (list ProgressEvent) :=
  mkSystem
    (MemScheduler.mkSystem (Runtime.mkStore {[(Runtime.TaskStateActive, StatusDirs.fileName "task-1") := Doc task]} {[tt := Doc Runtime.boot_state]})
      MemoryStore.NewStore ∅)
    (Execution.mkExecState ∅ (Approval.NewStore 0) ∅ [] []) (Skills.booted ∅ ∅) [].
Definition root_task : Task := demo_task "root" "file-edit".
Definition planner_task : Task := demo_task "user" "".
Definition edit_skill : Skills.SkillDefinition := Skills.builtin "file-edit" "Write files through the execution layer." Skills.runFileEdit None.
Definition plan_skill_def : Skills.SkillDefinition :=
  Skills.builtin "task-plan" "Generate a task plan and supporting procedure evidence." Skills.runTaskPlan
    (Some (Skills.mkPolicy true "project" ["procedure"] 1)).
Lemma root_task_stored : stored_task "task-1" (demo_system root_task) world0 = Ok root_task.
Proof. vm_compute. reflexivity. Qed.
Lemma planner_task_stored : stored_task "task-1" (demo_system planner_task) world0 = Ok planner_task.
Proof. vm_compute. reflexivity. Qed.
Lemma root_task_runnable : runnable root_task (demo_system root_task) edit_skill.
Proof. split; [right; left|]. split; [vm_compute; reflexivity|reflexivity]. Qed.
Lemma planner_task_runnable : runnable planner_task (demo_system planner_task) plan_skill_def.
Proof. split; [right; left|]. split; [vm_compute; reflexivity|reflexivity]. Qed.

Lemma demo_heard : listens demo_runner.
Proof. intros e s w. exists (listener s ++ [e]), w. split; [reflexivity|by split]. Qed.

Lemma demo_wf : tasks_wf (demo_system planner_task).
Proof.
  intros st n t H. unfold demo_system in H. cbn [stores MemScheduler.runtime Runtime.task_files] in H.
  apply lookup_singleton_Some in H as [[= <- <-] [= <-]]. split; reflexivity.
Qed.
Lemma RunTask_settles_witness :
  ∃ result, (RunTaskWithProgress demo_runner "task-1" false (demo_system planner_task) world0).1.1 = Ok result ∧
    Runtime.State (rr_Task result) = Runtime.TaskStateDone ∧
    Runtime.task_files (MemScheduler.runtime (stores (exec (RunTaskWithProgress demo_runner "task-1" false) (demo_system planner_task) world0)))
      !! ("done", "task-1.json") = Some (Doc (Runtime.task_norm (rr_Task result))).
Proof.
  pose proof (RunTask_settles demo_runner demo_heard "task-1" false (demo_system planner_task) world0 demo_wf) as H.
  assert (match (RunTaskWithProgress demo_runner "task-1" false (demo_system planner_task) world0).1.1 with
    Ok result => Runtime.State (rr_Task result) | Err _ => "" end = Runtime.TaskStateDone) as E by (vm_compute; reflexivity).
  unfold exec. destruct (RunTaskWithProgress _ _ _ _ _) as [[[result|e] s'] w']; [|discriminate E].
  cbn [fst snd] in *. exists result. split; [reflexivity|]. split; [exact E|].
  destruct (proj1 H result eq_refl) as (_ & _ & Hf). rewrite E in Hf. exact Hf.
Defined.
Lemma root_needs_approval_witness :
  quiet demo_runner "task-1" (demo_system root_task) (exec (RunTaskWithProgress demo_runner "task-1" false) (demo_system root_task) world0).
Proof.
  apply (root_needs_approval demo_runner demo_heard "task-1" false (demo_system root_task) world0 root_task edit_skill).
  - exact root_task_stored.
  - exact root_task_runnable.
  - reflexivity.
  - intros (record & w' & H & _). vm_compute in H. discriminate H.
Defined.
Lemma external_confined_witness :
  let cfg := Skills.mkExternal "command" "bin/run" ["--fast"] ∅ "" 0 false false in
  let s := demo_system (demo_task "user" "lint") in
  let s' := exec (externalHandler demo_runner "/skills/lint.json" cfg (demo_task "user" "lint") false) s world0 in
  Execution.spawned (machine s') = [("/skills/bin/run", ["--fast"], "/skills")] ∧
  (spawned_is [] s' ∨ ∃ c wd, spawned_is [(c, ["--fast"], wd)] s' ∧ comps "/skills" `prefix_of` comps c).
Proof.
  cbv zeta. split; [vm_compute; reflexivity|].
  destruct (external_confined demo_runner demo_heard "/skills/lint.json" (Skills.mkExternal "command" "bin/run" ["--fast"] ∅ "" 0 false false)
    (demo_task "user" "lint") false (demo_system (demo_task "user" "lint")) world0 eq_refl) as [H|(c & wd & H1 & H2 & _)].
  - left. exact H.
  - right. exists c, wd. split; [exact H1|exact H2].
Defined.
Lemma outputs_confined_witness :
  comps (file_path demo_runner "artifacts" "reports" "task-1-plan.md") = ["var"; "mnemo"; "artifacts"; "reports"; "task-1-plan.md"] ∧
  ∃ name, file_path demo_runner "artifacts" "reports" name = "/etc/motd".
Proof.
  split; [vm_compute; reflexivity|].
  apply (proj2 (outputs_confined demo_runner eq_refl) ["etc"; "motd"]).
  repeat constructor; discriminate.
Defined.
Lemma RunTask_keeps_memory_witness :
  memory_ok (λ sk, sk = Skills.booted ∅ ∅) (exec (RunTaskWithProgress demo_runner "task-1" true) (demo_system planner_task) world0).
Proof.
  apply (preserves_exec (memory_ok (λ sk, sk = Skills.booted ∅ ∅)) (RunTaskWithProgress demo_runner "task-1" true) (demo_system planner_task) world0
    (RunTask_keeps_memory demo_runner (λ sk, sk = Skills.booted ∅ ∅) "task-1" true demo_heard)).
  split; [exact MemoryStore.NewStore_wf|reflexivity].
Defined.
Lemma plan_succeeds_witness :
  ∃ updated artifact observation s' w',
    RunTaskWithProgress demo_runner "task-1" false (demo_system planner_task) (Runtime.still_world Runtime.noon)
      = (Ok (mkRunResult updated None [artifact] [observation]), s', w') ∧ Runtime.State updated = Runtime.TaskStateDone.
Proof.
  destruct (plan_succeeds demo_runner demo_heard "task-1" false (demo_system planner_task) (Runtime.still_world Runtime.noon) planner_task plan_skill_def Runtime.boot_state)
    as (updated & a & o & s' & w' & H1 & H2 & _).
  - split; [exact (Runtime.still_reliable Runtime.noon)|exact (Runtime.sane_still Runtime.noon eq_refl)].
  - exact planner_task_stored.
  - exact planner_task_runnable.
  - reflexivity.
  - reflexivity.
  - reflexivity.
  - reflexivity.
  - exists updated, a, o, s', w'. split; [exact H1|exact H2].
Defined.
