(* ===== verification/RootGate.v ===== *)
(** * The root profile without an approval

    What holds of the executor's records, the approvals and the runner as long
    as nobody approved a request and no root token is configured: no action of
    another profile than [user] is ever recorded.  The invariant crosses
    [approval/store.go], [execution/executor.go] and [skills/runner.go]. *)
From S2P Require Import Prelude GoStrings GoNum StatusDirs SkillMemory SkillRunner SkillSafety.
From S2P Require FsAccess Approval Execution Executor Runtime MemoryStore MemScheduler Skills Recall GoText SkillText.
Import Execution(ExecState, ActionRecord, Os, actions, approvals, actions_dir, Save, Move).
#[local] Existing Instances Approval.request_dir Execution.action_dir.
Open Scope Z_scope.

(** ** Approvals *)

(** No record of the store is approved. *)
Definition none_approved (s : Approval.Store) : Prop :=
  Approval.store_wf s ∧ ∀ k r, Approval.files s !! k = Some (Doc r) → Approval.Status r ≠ Approval.StatusApproved.

Lemma Create_unapproved req : preserves none_approved (Approval.Create req).
Proof.
  intros s w [Hwf Hno]. pose proof (Approval.Create_preserves req s w Hwf) as Hwf'. revert Hwf'.
  unfold Approval.Create, Approval.writeLocked. destruct (_ || _); [done|]. run.
  destruct (write_record_run Approval.approvals (Approval.newRequest req (clock w (tick w))) s (advance w) Approval.approvals_ok)
    as (res & s' & w' & -> & H). destruct res as [[]|e]; intros Hwf'; (split; [exact Hwf'|]).
  - subst s'. cbn. intros k r [[_ [= <-]]|[_ Hl]]%lookup_insert_Some; [done|by eapply Hno].
  - destruct H as [_ [->| ->]]; [done|]. cbn. intros k r [[_ [=]]|[_ Hl]]%lookup_insert_Some. by eapply Hno.
Qed.
(** Nothing can be consumed. *)
Lemma Consume_unapproved profile token s w : none_approved s →
  ∃ e w', Approval.Consume profile token s w = (Err e, s, w').
Proof.
  intros [[Hd _] Hno]. unfold Approval.Consume. destruct (_ || _); [by eexists _, _|]. run.
  destruct (Approval.consume_loop_run profile token (dir_entries Approval.StatusApproved (Approval.files s)) s w)
    as (res & s' & w' & -> & [(e & -> & ->)|(name & r & t & w1 & Hin & _)]); [by eexists _, _|].
  apply dir_entries_elem in Hin as [Hl _]. destruct (Hd _ _ _ Hl) as [Hst _]. by destruct (Hno _ _ Hl).
Qed.
Lemma Get_unapproved id s w r s' w' : none_approved s → Approval.Get id s w = (Ok r, s', w') → Approval.Status r ≠ Approval.StatusApproved.
Proof.
  intros [_ Hno]. unfold Approval.Get, Approval.findLocked. run. destruct (find_record _ _ _ _) as [[r' p]|] eqn:E; [|done].
  intros [= -> <- _]. apply find_record_Ok in E as (Hl & _). by eapply Hno.
Qed.
Lemma Deny_unapproved id by_ reason : preserves none_approved (Approval.Deny id by_ reason).
Proof.
  intros s w [Hwf Hno]. pose proof (Approval.Deny_preserves id by_ reason s w Hwf) as Hwf'. revert Hwf'.
  unfold Approval.Deny, Approval.findLocked. run. destruct (find_record _ _ _ _) as [[r p]|e]; [|done]. destruct (_ && _); [done|]. run.
  destruct (move_record_run Approval.approvals p (Approval.deniedRequest r by_ reason (clock w (tick w))) s (advance w) Approval.approvals_ok)
    as (res & s' & w' & -> & H). destruct res as [[]|e]; intros Hwf'; (split; [exact Hwf'|]).
  - subst s'. cbn. intros k r' [[_ [= <-]]|[_ [_ Hl]%lookup_delete_Some]]%lookup_insert_Some; [done|by eapply Hno].
  - destruct H as [_ [->|[->| ->]]]; [done|..]; cbn.
    + intros k r' [_ Hl]%lookup_delete_Some. by eapply Hno.
    + intros k r' [[_ [=]]|[_ [_ Hl]%lookup_delete_Some]]%lookup_insert_Some. by eapply Hno.
Qed.

(** ** The executor *)

(** Nobody approved anything, and every action was the user's. *)
Definition rootless (s : ExecState) : Prop :=
  none_approved (approvals s) ∧ ∀ k r, actions s !! k = Some (Doc r) → Execution.ExecutionProfile r = "user".

Section executor.
Context {tables : GoStrings.UnicodeTables}.

Lemma Save_rootless r : Execution.ExecutionProfile r = "user" → preserves rootless (Save r).
Proof.
  intros Hr s w [Ha Hs]. unfold Save. destruct (write_record_run actions_dir r s w Execution.actions_dir_ok) as (res & s' & w' & -> & H).
  destruct res as [[]|e].
  - subst s'. split; [exact Ha|]. cbn. intros k r' [[_ [= <-]]|[_ Hl]]%lookup_insert_Some; [exact Hr|by eapply Hs].
  - destruct H as [_ [->| ->]]; [done|]. split; [exact Ha|]. cbn. intros k r' [[_ [=]]|[_ Hl]]%lookup_insert_Some. by eapply Hs.
Qed.
Lemma Move_rootless r st : Execution.ExecutionProfile r = "user" → preserves rootless (Move r st).
Proof.
  intros Hr. unfold Move. apply preserves_bind; [apply preserves_try; unfold Execution.findLocked; preserves_tac|].
  assert (∀ r', Execution.ExecutionProfile r' = "user" → preserves rootless (write_record actions_dir r')) as Hw by apply Save_rootless.
  intros [[existing path]|e]; [|by apply Hw]. apply preserves_bind; [|intros _; by apply Hw].
  intros s w [Ha Hs]. unfold Remove. run. destruct (faults w (tick w)); [|done..]. split; [exact Ha|].
  cbn. intros k r' [_ Hl]%lookup_delete_Some. by eapply Hs.
Qed.
#[local] Hint Resolve Save_rootless Move_rootless : hoare.
#[local] Hint Extern 1 (Execution.ExecutionProfile _ = _) => reflexivity : hoare.

(** Only the user profile gets through. *)
Lemma authorize_rootless hasApprovals profile token :
  hoare rootless (Execution.authorizeProfile "" hasApprovals profile token) (λ res s, rootless s ∧ (is_ok res = true → profile = "user")).
Proof.
  intros s w Hs. unfold Execution.authorizeProfile. case_decide; [by split|]. case_decide; [|by split].
  destruct (_ && _); [by split|]. destruct (blank token) eqn:Hb; [by split|]. rewrite bind_eq.
  assert (∃ b w1, (if hasApprovals then res ← try (Execution.with_approvals (Approval.Consume profile token)); mret (is_ok res) else mret false) s w
    = (Ok b, s, w1) ∧ b = false) as (b & w1 & -> & ->).
  { destruct hasApprovals; [|by eexists _, _]. rewrite bind_eq. unfold try, Execution.with_approvals.
    destruct (Consume_unapproved profile token (approvals s) w (proj1 Hs)) as (e & w' & ->). destruct s. by eexists _, _. }
  destruct (Execution.subtleConstantCompare _ _) eqn:E; [|by split]. apply Executor.subtleConstantCompare_spec in E.
  unfold blank in Hb. apply bool_decide_eq_false in Hb. congruence.
Qed.
Lemma authorized_rootless {A} hasApprovals profile token (k : M ExecState A) : (profile = "user" → preserves rootless k) →
  preserves rootless (_ ← Execution.authorizeProfile "" hasApprovals profile token; k).
Proof.
  intros Hk s w Hs. rewrite bind_eq. pose proof (authorize_rootless hasApprovals profile token s w Hs) as H.
  destruct (Execution.authorizeProfile _ _ _ _ s w) as [[[[]|e] s'] w']; [|apply H]. destruct H as [H1 H2]. by apply Hk; [apply H2|].
Qed.
Lemma tryReplay_rootless r fp : Execution.ExecutionProfile r = "user" → preserves rootless (Execution.tryReplay r fp).
Proof. intros Hr. unfold Execution.tryReplay, Execution.FindCompletedByIdempotency. preserves_tac. Qed.
Lemma shell_loop_rootless os fuel r a m p args wd t : Execution.ExecutionProfile r = "user" →
  preserves rootless (Execution.shell_loop os fuel r a m p args wd t).
Proof.
  revert r a. induction fuel as [|fuel IH]; intros r a Hr; cbn [Execution.shell_loop]; [preserves_tac|].
  apply preserves_bind; [unfold Execution.runShellAttempt; preserves_tac; by intros s w|]. intros result. cbv zeta.
  destruct (Execution.res_err result); [|preserves_tac]. destruct (Execution.shouldRetry _ _ _ _); [by apply IH|preserves_tac].
Qed.
Lemma file_loop_rootless kind op fuel r a m : preserves rootless op → Execution.ExecutionProfile r = "user" →
  preserves rootless (Execution.file_loop kind op fuel r a m).
Proof.
  intros Hop. revert r a. induction fuel as [|fuel IH]; intros r a Hr; cbn [Execution.file_loop]; [preserves_tac|].
  apply preserves_bind; [unfold Execution.performBackoff; preserves_tac; by apply preserves_modify|]. intros _.
  apply preserves_bind; [done|]. intros [out|err]; cbv zeta; [preserves_tac|]. apply preserves_bind; [apply preserves_now|]. intros t.
  destruct (_ || _); [preserves_tac|by apply IH].
Qed.
#[local] Hint Resolve tryReplay_rootless shell_loop_rootless file_loop_rootless : hoare.
Lemma file_action_rootless kind op path fp taskID changed a m key md : preserves rootless op →
  preserves rootless (Execution.run_file_action kind op "user" path fp taskID changed a m key md).
Proof. intros Hop. unfold Execution.run_file_action. preserves_tac. Qed.
Lemma recovering_rootless kind m : preserves rootless m → preserves rootless (Execution.recovering kind m).
Proof. intros Hm. unfold Execution.recovering. preserves_tac. Qed.

Lemma ExecuteShell_rootless os env root ap req : preserves rootless (Execution.ExecuteShell os env root "" ap req).
Proof.
  apply recovering_rootless. unfold Execution.executeShellInner. destruct (blank _); [apply preserves_throw|]. cbv zeta.
  apply authorized_rootless. intros ->. preserves_tac.
Qed.
Lemma ExecuteFileRead_rootless os env root ap req : preserves rootless (Execution.ExecuteFileRead os env root "" ap req).
Proof.
  apply recovering_rootless. unfold Execution.executeFileReadInner. destruct (blank _); [apply preserves_throw|]. cbv zeta.
  apply authorized_rootless. intros ->. preserves_tac. apply file_action_rootless. by intros s w.
Qed.
Lemma ExecuteFileWrite_rootless os env root ap req : preserves rootless (Execution.ExecuteFileWrite os env root "" ap req).
Proof.
  apply recovering_rootless. unfold Execution.executeFileWriteInner. destruct (blank _); [apply preserves_throw|]. cbv zeta.
  apply authorized_rootless. intros ->. preserves_tac. apply file_action_rootless.
  unfold Execution.write_op, Execution.mkdir_all, Execution.write_file. preserves_tac; by apply preserves_modify || by intros s w.
Qed.
End executor.

(** ** The runner *)

Section runner.
Context {tables : GoStrings.UnicodeTables} {url : SkillText.UrlPackage} {digits : Recall.FloatFormat} {L : Type}.
Variable r : Runner L.
Definition machine_rootless (s : System L) : Prop := rootless (machine s).
Hypothesis notify_rootless : ∀ e, preserves machine_rootless (notify r e).
Hypothesis no_token : exec_token r = "".

Lemma rootless_stores {A} (m : M MemScheduler.System A) : preserves machine_rootless (with_stores m).
Proof. intros s w Hs. unfold with_stores. by destruct (m (stores s) w) as [[? ?] ?]. Qed.
Lemma rootless_machine {A} (m : M ExecState A) : preserves rootless m → preserves machine_rootless (with_machine m).
Proof. intros Hm s w Hs. unfold with_machine. specialize (Hm (machine s) w Hs). by destruct (m (machine s) w) as [[? ?] ?]. Qed.
Lemma rootless_approvals {A} (m : M Approval.Store A) : preserves none_approved m → preserves machine_rootless (with_approvals m).
Proof.
  intros Hm. apply rootless_machine. intros s w [Ha Hs]. unfold Execution.with_approvals. specialize (Hm (approvals s) w Ha).
  by destruct (m (approvals s) w) as [[? ?] ?].
Qed.
Lemma rootless_execute m : preserves rootless m → preserves machine_rootless (execute m).
Proof. intros Hm. unfold execute, unmaybe. pose proof (rootless_machine m Hm). preserves_tac. Qed.
(** Running tasks never leaves the user profile. *)
Lemma RunTask_rootless taskID onProgress : preserves machine_rootless (RunTaskWithProgress r taskID onProgress).
Proof.
  apply keeps_RunTask; intros.
  - apply notify_rootless.
  - done.
  - apply rootless_stores.
  - apply rootless_stores.
  - apply rootless_stores.
  - apply rootless_approvals. unfold Approval.Get, Approval.findLocked. preserves_tac.
  - apply rootless_approvals, Create_unapproved.
  - apply rootless_approvals. intros s w Hs. by destruct (Consume_unapproved profile token s w Hs) as (e & w' & ->).
  - rewrite no_token. apply rootless_execute, ExecuteShell_rootless.
  - rewrite no_token. apply rootless_execute, ExecuteFileRead_rootless.
  - rewrite no_token. apply rootless_execute, ExecuteFileWrite_rootless.
  - by intros s w Hs.
Qed.

(** An approval is not bound to its task: a root task that names an approved
    request gets its token, whichever task and action the request was made for. *)
Lemma approval_borrowed task actionKind summary metadata record s s' w w' :
  Runtime.ExecutionProfile task = "root" → has_approvals r = true → blank (getter task "root_approval_id") = false →
  with_approvals (Approval.Get (getter task "root_approval_id")) s w = (Ok record, s', w') → Approval.Status record = Approval.StatusApproved →
  resolveRootApproval r task actionKind summary metadata s w = (Ok (inl (Approval.ApprovalToken record)), s', w').
Proof.
  intros Hp Ha Hb Hg Hs. unfold resolveRootApproval. rewrite bool_decide_true, Ha, Hb by done. cbn [negb]. rewrite bind_eq. unfold try.
  rewrite Hg, decide_False, decide_True by (done || by rewrite Hs). done.
Qed.
End runner.
