(* ===== verification/AgentTools.v ===== *)
(** * The registry of agent tools ([skills/agent_skills.go])

    Which tools the language model is offered, their schemas and handlers, and
    how the tools act on a larger system: all but the command runner and the
    two writers leave it as it is.  The handlers of [write_file] and
    [append_file] and the switch of the command runner are not in the source
    and are parameters. *)
From S2P Require Import Prelude GoStrings GoNum GoText GoJson AgentLoop AgentSkills.
From S2P Require FsAccess SkillText SkillRunner Recall.
Open Scope Z_scope.

Definition obj (members : list (string * json)) : json := JObj (SkillRunner.payload_of members).

(** ** Schemas *)

Definition get_system_info_parameters : json :=
  obj [("type", JStr "object"); ("properties", obj [])].
Definition get_system_info_description : string :=
  "Get information about the MnemosyneOS system: workspace path, runtime root, version, server address, and current time.".
Definition read_file_parameters : json :=
  obj [("type", JStr "object"); ("properties", obj [("path", obj [("type", JStr "string"); ("description", JStr "File path to read. Relative paths are resolved under the workspace; absolute paths must stay under the workspace or runtime root.")])]); ("required", JArr [JStr "path"])].
Definition read_file_description : string :=
  "Read a file under the workspace or runtime root. Returns the text content or an error.".
Definition list_directory_parameters : json :=
  obj [("type", JStr "object"); ("properties", obj [("path", obj [("type", JStr "string"); ("description", JStr "Absolute directory to list, or a workspace-relative path. ~ and ~/subdir are expanded. Empty = workspace root.")])])].
Definition list_directory_description : string :=
  "List files and directories. Read-only and broad by default: any absolute path the OS lets the user read is fair game (~, ~/Projects, /Users/..., /opt, etc). If the user refers to " +:+ dquote +:+ "this directory" +:+ dquote +:+ " you MUST pass its absolute path. Omitting path lists the current project workspace.".
Definition search_files_parameters : json :=
  obj [("type", JStr "object"); ("properties", obj [("pattern", obj [("type", JStr "string"); ("description", JStr "File or directory name / glob to match (e.g. 'config.json', '*.py', 'lab').")]); ("directory", obj [("type", JStr "string"); ("description", JStr ("Root to search under. Defaults to the current project workspace. Use " +:+ dquote +:+ "~" +:+ dquote +:+ " to search the user's home, or any absolute path."))]); ("max_depth", obj [("type", JStr "integer"); ("description", JStr "Max directory depth to recurse. Defaults to 5; bump to 8 for home-wide searches.")])]); ("required", JArr [JStr "pattern"])].
Definition search_files_description : string :=
  "Search for files or directories by name pattern. Read-only and broad by default (any absolute path the OS lets the user read). USE THIS whenever the user asks to find / locate / 查找 / 搜索 a file or folder — do not answer from memory. Supports glob (*.go, README*) and substring match. If a first search under the project workspace returns 0 matches, RETRY with directory=" +:+ dquote +:+ "~" +:+ dquote +:+ " before telling the user it wasn't found.".
Definition run_command_parameters : json :=
  obj [("type", JStr "object"); ("properties", obj [("command", obj [("type", JStr "string"); ("description", JStr "The full shell command to run (passed to /bin/sh -c).")]); ("workdir", obj [("type", JStr "string"); ("description", JStr "Working directory. Defaults to the project workspace. Absolute paths OK when MNEMOSYNE_FILESYSTEM_UNRESTRICTED=true or under MNEMOSYNE_FILESYSTEM_EXTRA_ROOTS.")]); ("timeout_ms", obj [("type", JStr "integer"); ("description", JStr "Command timeout in milliseconds. Default 300000 (5 min). Max 1800000 (30 min). Anything longer should be a task, not an agent-loop tool call.")])]); ("required", JArr [JStr "command"])].
Definition run_command_description : string :=
  "Execute a shell command and return stdout/stderr. Useful for running tests, build scripts, or quick experiments (pytest, go test, npm run, python script.py, ls, grep ...). For heavyweight or high-risk operations (rm -rf, deploy, long trainings) prefer creating a task — it gives the user an approval gate and persistent artifacts. Default timeout is 5 minutes; set timeout_ms up to 30 minutes for slower runs. Always report the exit code and a summary of output back to the user so they can see what really happened.".
Definition write_file_parameters : json :=
  obj [("type", JStr "object"); ("properties", obj [("path", obj [("type", JStr "string"); ("description", JStr "Target file path. Relative = under workspace. Absolute paths must be under workspace / runtime / temp / MNEMOSYNE_FILESYSTEM_EXTRA_ROOTS, or anywhere when MNEMOSYNE_FILESYSTEM_UNRESTRICTED=true.")]); ("content", obj [("type", JStr "string"); ("description", JStr "The exact bytes to write. Max 256KB per call; split larger files across multiple append_file calls.")]); ("create_dirs", obj [("type", JStr "boolean"); ("description", JStr "Create parent directories if they don't exist. Defaults to true.")])]); ("required", JArr [JStr "path"; JStr "content"])].
Definition write_file_description : string :=
  "Create or overwrite a file with the given content. Use this to author scripts, write small config files, or save experiment inputs. WARNING: this overwrites any existing file at path — prefer append_file when you want to extend. For mass edits, iterative refactors, or anything the user asked you to change in existing source code, create a task (file-edit skill) instead so the change is audited and reversible.".
Definition append_file_parameters : json :=
  obj [("type", JStr "object"); ("properties", obj [("path", obj [("type", JStr "string"); ("description", JStr "Target file path (same rules as write_file).")]); ("content", obj [("type", JStr "string"); ("description", JStr "Bytes to append. Max 256KB per call.")]); ("create_dirs", obj [("type", JStr "boolean"); ("description", JStr "Create parent directories if they don't exist. Defaults to true.")])]); ("required", JArr [JStr "path"; JStr "content"])].
Definition append_file_description : string :=
  "Append content to the end of a file. Use for iteratively building up a script, log, or experiment journal without rewriting the whole file. Creates the file if missing. Same allowed-path rules as write_file.".
Definition web_search_parameters : json :=
  obj [("type", JStr "object"); ("properties", obj [("query", obj [("type", JStr "string"); ("description", JStr "The search query.")])]); ("required", JArr [JStr "query"])].
Definition web_search_description : string :=
  "Search the web for information on a topic. Returns a list of results with titles, URLs, and snippets.".
Definition recall_memory_parameters : json :=
  obj [("type", JStr "object"); ("properties", obj [("query", obj [("type", JStr "string"); ("description", JStr "What to recall from memory.")])]); ("required", JArr [JStr "query"])].
Definition recall_memory_description : string :=
  "Search long-term memory for relevant facts, procedures, or past events. Returns matching memory cards.".
Definition list_tasks_parameters : json :=
  obj [("type", JStr "object"); ("properties", obj [("limit", obj [("type", JStr "integer"); ("description", JStr "Max number of tasks to return. Defaults to 10.")])])].
Definition list_tasks_description : string :=
  "List recent tasks in the runtime. Returns task IDs, titles, states, and selected skills.".

(** ** Registration *)

Section tools.
Context {tables : UnicodeTables} {digits : Recall.FloatFormat}.

(** What the handlers take from the host: error texts, [%q], the clock as text,
    the operating system, the connectors, the shell and the missing handlers. *)
Record ToolHost := mkToolHost {
  open_error : string → string; list_error : string → string; eval_error : string → string; home_error : string → string;
  Quote : string → string; now_text : string; GOOS : string;
  web : option (string → Z → SearchOutcome); not_configured_zh : string; not_configured_en : string;
  agentShellToolEnabled : bool; run_shell : string → string → Machine → (string * option string) * Machine;
  makeWriteFileHandler : BuiltinSkillOpts → AgentSkillHandler Machine;
  makeAppendFileHandler : BuiltinSkillOpts → AgentSkillHandler Machine;
  Version : string; Addr : string }.
Variables (h : ToolHost) (opts : BuiltinSkillOpts).

Definition makeGetSystemInfoHandler : AgentSkillHandler Machine := λ args m,
  let extraJoined := Join (FsAccess.ExtraRootsFromEnv (env m)) ", " in
  let extraJoined := if decide (extraJoined = "") then "(none)" else extraJoined in
  (says (SkillText.print_indent 0 (obj [
     ("workspace_root", JStr (WorkspaceRoot opts)); ("runtime_root", JStr (RuntimeRoot opts));
     ("version", JStr (Version h)); ("server_address", JStr (Addr h)); ("current_time", JStr (now_text h)); ("os", JStr (GOOS h));
     ("filesystem_unrestricted", JStr (if FsAccess.UnrestrictedFromEnv (env m) then "true" else "false"));
     ("filesystem_unrestricted_env", JStr "MNEMOSYNE_FILESYSTEM_UNRESTRICTED");
     ("filesystem_extra_roots_env", JStr "MNEMOSYNE_FILESYSTEM_EXTRA_ROOTS"); ("filesystem_extra_roots", JStr extraJoined)])), m).

Definition read_skills : list (AgentSkill Machine) :=
  [mkAgentSkill "get_system_info" get_system_info_description get_system_info_parameters makeGetSystemInfoHandler;
   mkAgentSkill "read_file" read_file_description read_file_parameters
     (makeReadFileHandler (open_error h) (eval_error h) (home_error h) opts);
   mkAgentSkill "list_directory" list_directory_description list_directory_parameters
     (makeListDirectoryHandler (list_error h) (eval_error h) (home_error h) opts);
   mkAgentSkill "search_files" search_files_description search_files_parameters
     (makeSearchFilesHandler (eval_error h) (home_error h) (Quote h) opts)].
Definition write_skills : list (AgentSkill Machine) :=
  [mkAgentSkill "write_file" write_file_description write_file_parameters (makeWriteFileHandler h opts);
   mkAgentSkill "append_file" append_file_description append_file_parameters (makeAppendFileHandler h opts)].
Definition query_skills : list (AgentSkill Machine) :=
  [mkAgentSkill "web_search" web_search_description web_search_parameters
     (makeWebSearchHandler (web h) (not_configured_zh h) (not_configured_en h));
   mkAgentSkill "recall_memory" recall_memory_description recall_memory_parameters makeRecallMemoryHandler;
   mkAgentSkill "list_tasks" list_tasks_description list_tasks_parameters (makeListTasksHandler (list_error h))].
Definition command_skill : AgentSkill Machine :=
  mkAgentSkill "run_command" run_command_description run_command_parameters
    (makeRunCommandHandler (eval_error h) (home_error h) opts (run_shell h)).
Definition RegisterBuiltinAgentSkills (reg : AgentSkillRegistry Machine) : AgentSkillRegistry Machine :=
  foldl Register reg (read_skills ++ (if agentShellToolEnabled h then [command_skill] else []) ++ write_skills ++ query_skills).

(** ** The tools on a larger system

    A tool sees a machine and leaves one; [put] stores what it changed. *)
Section lifting.
Context {B : Type} (view : B → Machine) (put : Machine → B → B).
Definition lift_handler (f : AgentSkillHandler Machine) : AgentSkillHandler B := λ args b,
  let '(res, m) := f args (view b) in (res, put m b).
Definition lift_skill (s : AgentSkill Machine) : AgentSkill B := mkAgentSkill (Name s) (Description s) (Parameters s) (lift_handler (Handler s)).
Definition lift_registry (r : AgentSkillRegistry Machine) : AgentSkillRegistry B :=
  mkRegistry (lift_skill <$> skills r) (lift_handler <$> index r).
End lifting.

(** ** Facts *)

Definition writing_tools : list string := ["run_command"; "write_file"; "append_file"].
Definition tool_names : list string := Name <$> skills (RegisterBuiltinAgentSkills NewAgentSkillRegistry).

Lemma register_all {S} (l : list (AgentSkill S)) (reg : AgentSkillRegistry S) :
  skills (foldl Register reg l) = skills reg ++ l ∧
  (∀ name f, index (foldl Register reg l) !! name = Some f → index reg !! name = Some f ∨ ∃ s, s ∈ l ∧ Name s = name ∧ Handler s = f) ∧
  (∀ name, is_Some (index (foldl Register reg l) !! name) ↔ is_Some (index reg !! name) ∨ ∃ s, s ∈ l ∧ Name s = name).
Proof.
  revert reg. induction l as [|s l IH]; intros reg; cbn [foldl].
  - rewrite app_nil_r. split_and!; [done|by left|]. intros name. split; [by left|]. by intros [?|(? & ?%elem_of_nil & _)].
  - destruct (IH (Register reg s)) as (H1 & H2 & H3). unfold Register in *. cbn [skills index] in *. split_and!.
    + by rewrite H1, <- app_assoc.
    + intros name f [Hl|(s' & ? & ? & ?)]%H2; [|right; exists s'; split; [by right|done]].
      apply lookup_insert_Some in Hl as [[<- <-]|[_ Hl]]; [right; exists s; split; [by left|done]|by left].
    + intros name. rewrite H3, lookup_insert_is_Some'. setoid_rewrite elem_of_cons. naive_solver.
Qed.
Lemma read_only s : s ∈ read_skills ++ query_skills → ∀ args m, (Handler s args m).2 = m.
Proof.
  unfold read_skills, query_skills. rewrite !elem_of_app, !elem_of_cons, !elem_of_nil. intros H args m.
  repeat destruct H as [H|H]; try done; subst s; reflexivity.
Qed.

(** The tools a model is offered.  Their names are pairwise different, exactly
    the offered ones can be called, [run_command] is among them only if it was
    enabled, and a tool that is not the command runner or a writer changes
    nothing, whatever its arguments. *)
Theorem builtin_tools_exact :
  let reg := RegisterBuiltinAgentSkills NewAgentSkillRegistry in
  NoDup tool_names ∧ (∀ name, is_Some (index reg !! name) ↔ name ∈ tool_names) ∧
  ("run_command" ∈ tool_names ↔ agentShellToolEnabled h = true) ∧
  (∀ name f, index reg !! name = Some f → name ∉ writing_tools → ∀ args m, (f args m).2 = m).
Proof.
  cbv zeta. unfold tool_names, RegisterBuiltinAgentSkills.
  match goal with |- context [foldl Register NewAgentSkillRegistry ?l] => destruct (register_all l NewAgentSkillRegistry) as (H1 & H2 & H3); set (tools := l) in * end.
  rewrite H1. cbn [NewAgentSkillRegistry skills index app] in *. split_and!.
  - unfold tools. by destruct (agentShellToolEnabled h); apply (bool_decide_unpack _); vm_compute.
  - intros name. rewrite H3, lookup_empty, list_elem_of_fmap. split.
    + intros [[? [=]]|(s & ? & <-)]. by exists s.
    + intros (s & -> & ?). right. by exists s.
  - unfold tools. destruct (agentShellToolEnabled h); split; try done.
    + intros _. apply (bool_decide_unpack _). by vm_compute.
    + intros H. exfalso. revert H. apply (bool_decide_unpack (¬ _)). by vm_compute.
  - intros name f [Hf|(s & Hs & <- & <-)]%H2 Hn; [by rewrite lookup_empty in Hf|]. apply read_only.
    unfold tools in Hs. rewrite !elem_of_app in *. destruct Hs as [Hs|[Hs|[Hs|Hs]]]; [by left| | |by right]; exfalso; apply Hn.
    + destruct (agentShellToolEnabled h); [|by apply elem_of_nil in Hs]. apply list_elem_of_singleton in Hs as ->. left.
    + unfold write_skills in Hs. rewrite !elem_of_cons, elem_of_nil in Hs. destruct Hs as [->|[->|[]]]; [right; left|right; right; left].
Qed.
End tools.
