(* ===== verification/Assistant.v ===== *)
(** * The assembled program ([runtimeapp/app.go])

    The conversation service of [ChatService] with the task runner of
    [SkillRunner] behind it and the tools of [AgentTools] beside it, over one
    set of stores: the composition [Build] makes, and what a turn without consent
    may do to what is behind the conversation. *)
From S2P Require Import Prelude GoStrings GoNum GoTime GoText StatusDirs.
From S2P Require FsAccess MemoryTypes MemoryStore Journal Governance Runtime Approval Execution Recall ChatStore ChatText ChatService.
From S2P Require AgentLoop AgentSkills AgentTools SkillText SkillMemory Skills MemScheduler SkillRunner SkillSafety RootGate.
Import ChatService(System, Backend, Service, chat, backend, observations, jobs, mkBackend).
Import SkillRunner(Runner).
Open Scope Z_scope.

(** ** One state *)

(** What the back end has besides the tasks and the memory. *)
Record Machine := mkMachine {
  sched_file : gmap unit (File MemScheduler.SchedulerState); exec_state : Execution.ExecState; registry : Skills.System }.
Abbreviation State := (System Machine).
(** What a listener of a run can touch: the conversations. *)
Record Aside := mkAside {
  a_chat : ChatStore.Store; a_observations : gmap string (File ChatService.IntentObservation); a_jobs : list ChatService.Job }.
Definition to_runner (s : State) : SkillRunner.System Aside :=
  let b := backend s in
  SkillRunner.mkSystem (MemScheduler.mkSystem (ChatService.runtime b) (ChatService.memory b) (sched_file (ChatService.machine b)))
    (exec_state (ChatService.machine b)) (registry (ChatService.machine b)) (mkAside (chat s) (observations s) (jobs s)).
Definition of_runner (s : SkillRunner.System Aside) : State :=
  let a := SkillRunner.listener s in
  ChatService.mkSystem (a_chat a)
    (mkBackend (MemScheduler.runtime (SkillRunner.stores s)) (MemScheduler.memory (SkillRunner.stores s))
      (mkMachine (MemScheduler.sched_file (SkillRunner.stores s)) (SkillRunner.machine s) (SkillRunner.skills s)))
    (a_observations a) (a_jobs a).
Lemma of_to_runner s : of_runner (to_runner s) = s.
Proof. by destruct s as [? [? ? []] ? ?]. Qed.
Lemma to_of_runner s : to_runner (of_runner s) = s.
Proof. by destruct s as [[] ? ? []]. Qed.
(** Run an operation of the one view on the other. *)
Definition on_runner {A} (m : M (SkillRunner.System Aside) A) : M State A := λ s w,
  match m (to_runner s) w with (r, x, w') => (r, of_runner x, w') end.
Definition on_state {A} (m : M State A) : M (SkillRunner.System Aside) A := λ s w,
  match m (of_runner s) w with (r, x, w') => (r, to_runner x, w') end.
Lemma on_runner_preserves {A} (I : State → Prop) (m : M (SkillRunner.System Aside) A) :
  preserves (I ∘ of_runner) m → preserves I (on_runner m).
Proof.
  intros Hm s w Hs. unfold on_runner. assert ((I ∘ of_runner) (to_runner s)) as Hs' by (cbn; by rewrite of_to_runner).
  specialize (Hm (to_runner s) w Hs'). by destruct (m (to_runner s) w) as [[? ?] ?].
Qed.
Lemma on_state_preserves {A} (I : State → Prop) (m : M State A) : preserves I m → preserves (I ∘ of_runner) (on_state m).
Proof.
  intros Hm s w Hs. unfold on_state. specialize (Hm (of_runner s) w Hs). destruct (m (of_runner s) w) as [[? x] ?].
  cbn in *. by rewrite of_to_runner.
Qed.

(** Operations of the approvals and of the executor. *)
Definition on_approvals {A} (m : M Approval.Store A) : M State A := on_runner (SkillRunner.with_approvals m).
Definition on_executor {A} (m : M Execution.ExecState A) : M State A := on_runner (SkillRunner.with_machine m).
#[local] Existing Instances Approval.newest_dec Execution.newest_dec.
Definition list_actions (limit : Z) : M State (list Execution.ActionRecord) := on_executor (Execution.List limit).

(** Counters by key, as a loop over the keys makes them. *)
Definition count_key (m : gmap string Z) (key : string) : gmap string Z := <[key := default 0 (m !! key) + 1]> m.
Definition count_keys (keys : list string) : gmap string Z := foldl count_key ∅ keys.

(** ** The runner behind a conversation *)

Section wiring.
Context {tables : UnicodeTables} {url : SkillText.UrlPackage} {digits : Recall.FloatFormat}.

(** The runner whose progress goes to a callback of the conversation. *)
Definition with_notify (r : Runner Aside) (onProgress : ChatText.ProgressEvent → M State unit) : Runner Aside :=
  SkillRunner.retarget r (λ e, on_state (onProgress (ChatText.mkProgress (SkillRunner.Stage e) (SkillRunner.Message e)))).
Definition chat_result (r : SkillRunner.RunResult) : ChatText.RunResult :=
  ChatText.mkRunResult (SkillRunner.rr_Task r) (SkillRunner.ArtifactPaths r) (SkillRunner.ObservationPaths r).
Definition run_for_chat (r : Runner Aside) (taskID : string) (onProgress : ChatText.ProgressEvent → M State unit) : M State ChatText.RunResult :=
  res ← on_runner (SkillRunner.RunTaskWithProgress (with_notify r onProgress) taskID true);
  mret (chat_result res).

(** ** Assembling *)

Record Options := mkOptions { opt_Addr : string; opt_RuntimeRoot : string; opt_WorkspaceRoot : string; EnableWeb : bool }.
(** What [Build] takes from its surroundings: the environment; the parser of
    durations; the clients, or the error of one of them; the runner and the
    service before their places are known; the shell tools' host and how a tool
    sees the back end. *)
Record Surroundings := mkSurroundings {
  environment : FsAccess.Env; ParseDuration : string → option Z;
  clients : result SkillRunner.Connectors;
  a_runner : Runner Aside; a_service : Service (T := Machine);
  tool_host : AgentTools.ToolHost; tool_model : AgentLoop.TextRequest → Backend Machine → string + AgentLoop.TextResponse;
  view : Backend Machine → AgentSkills.Machine; put : AgentSkills.Machine → Backend Machine → Backend Machine;
  manifest_quote : string → string; manifest_error : string; override_ord : list string }.
Variable sur : Surroundings.
Abbreviation e := (environment sur).

Definition pick (given variable fallback : string) : string :=
  let given := TrimSpace given in
  if negb (bool_decide (given = "")) then given else
  let value := TrimSpace (FsAccess.Getenv e variable) in
  if negb (bool_decide (value = "")) then value else fallback.
Definition app_Addr (opts : Options) : string := pick (opt_Addr opts) "MNEMOSYNE_ADDR" ":8080".
Definition app_RuntimeRoot (opts : Options) : string := pick (opt_RuntimeRoot opts) "MNEMOSYNE_RUNTIME_ROOT" "runtime".
Definition app_Workspace (opts : Options) : string :=
  FsAccess.Abs e (pick (opt_WorkspaceRoot opts) "MNEMOSYNE_WORKSPACE_ROOT" ".").
Definition approvalTTL : option Z :=
  let value := TrimSpace (FsAccess.Getenv e "MNEMOSYNE_ROOT_APPROVAL_TTL") in
  if decide (value = "") then Some (10 * Minute) else ParseDuration sur value.

(** The configuration [NewRunner] gives the memory scheduler. *)
Definition runner_schedule : MemScheduler.Config :=
  MemScheduler.mkConfig MemoryTypes.ScopeProject (5 * Minute) 1 ["web_result"; "email_thread"; "email_message"; "github_issue"; "procedure"] true 2.
Definition assembled_runner (opts : Options) (c : SkillRunner.Connectors) : Runner Aside :=
  let r := a_runner sur in
  SkillRunner.mkRunner (SkillRunner.os r) e (app_Workspace opts) (FsAccess.Getenv e "MNEMOSYNE_ROOT_APPROVAL_TOKEN") true true
    (app_RuntimeRoot opts) (Some c) (SkillRunner.model r) runner_schedule (SkillRunner.stat r) (SkillRunner.external r)
    (SkillRunner.error_text r) (SkillRunner.json_error r) (SkillRunner.card_ords r) (SkillRunner.group_ord r) (SkillRunner.notify r).
(** The tools the agent loop is given. *)
Definition assembled_host (opts : Options) : AgentTools.ToolHost :=
  let h := tool_host sur in
  AgentTools.mkToolHost (AgentTools.open_error h) (AgentTools.list_error h) (AgentTools.eval_error h) (AgentTools.home_error h)
    (AgentTools.Quote h) (AgentTools.now_text h) (AgentTools.GOOS h) (AgentTools.web h) (AgentTools.not_configured_zh h)
    (AgentTools.not_configured_en h) (AgentTools.agentShellToolEnabled h) (AgentTools.run_shell h)
    (AgentTools.makeWriteFileHandler h) (AgentTools.makeAppendFileHandler h) "0.1.0" (app_Addr opts).
Definition assembled_tools (opts : Options) : AgentLoop.AgentSkillRegistry (Backend Machine) :=
  AgentTools.lift_registry (view sur) (put sur)
    (AgentTools.RegisterBuiltinAgentSkills (assembled_host opts) (AgentSkills.mkOpts (app_Workspace opts) (app_RuntimeRoot opts))
       AgentLoop.NewAgentSkillRegistry).
Definition assembled_service (opts : Options) (r : Runner Aside) : Service (T := Machine) :=
  let svc := a_service sur in
  ChatService.mkService (ChatService.textModel svc) (Some (λ req b, (tool_model sur req b, b), assembled_tools opts)) true true
    (ChatText.mkSystemInfo (app_RuntimeRoot opts) (app_Workspace opts) "" (app_Addr opts))
    (ChatService.readFile svc) (run_for_chat r) (ChatService.error_text svc) (ChatService.json_error svc)
    (ChatService.card_ords svc) (ChatService.field_ords svc) (ChatService.feedback_ord svc).
Record App := mkApp { app_runner : Runner Aside; app_service : Service (T := Machine) }.

(** What a restart finds: the files of the runtime root and of the workspace. *)
Record Durable := mkDurable {
  d_memory : MemoryStore.Disk; d_runtime : Runtime.Store; d_sched : gmap unit (File MemScheduler.SchedulerState);
  d_approvals : Dirs Approval.Request; d_actions : Dirs Execution.ActionRecord; d_files : gmap string string;
  d_skill_files : gmap string (File Skills.Manifest); d_skill_state : gmap unit (File (gmap string bool));
  d_chat : ChatStore.Store; d_observations : gmap string (File ChatService.IntentObservation) }.
Definition durable (s : State) : Durable :=
  let b := backend s in
  let x := exec_state (ChatService.machine b) in
  mkDurable (default (MemoryStore.mkDisk ∅ ∅ [] false) (MemoryStore.disk (ChatService.memory b))) (ChatService.runtime b) (sched_file (ChatService.machine b))
    (Approval.files (Execution.approvals x)) (Execution.actions x) (Execution.workspace x)
    (Skills.skill_files (registry (ChatService.machine b))) (Skills.skill_state (registry (ChatService.machine b)))
    (chat s) (observations s).

(** The state file: kept if it loads, replaced if it does not. *)
Definition load_or_bootstrap : M Runtime.Store unit :=
  res ← try Runtime.LoadState;
  match res with
  | Ok state => Runtime.SaveState state
  | Err _ => t ← now; Runtime.SaveState (Runtime.mkRuntimeState ("rt-" +:+ Itoa t) "" None "idle" None "user" zeroTime)
  end.
Definition on_tasks {A} (m : M Runtime.Store A) : M Durable A := λ d w,
  match m (d_runtime d) w with
  | (res, rt, w') => (res, mkDurable (d_memory d) rt (d_sched d) (d_approvals d) (d_actions d) (d_files d) (d_skill_files d)
                             (d_skill_state d) (d_chat d) (d_observations d), w')
  end.
Definition new_registry (opts : Options) : M Durable Skills.System := λ d w,
  match Skills.NewRunner (manifest_quote sur) (manifest_error sur) (FsAccess.Join2 (app_RuntimeRoot opts) "skills") (override_ord sur)
          (d_skill_files d) (d_skill_state d) tt w with (res, _, w') => (res, d, w') end.
Definition boot_tasks : M Runtime.Store Runtime.Store := _ ← load_or_bootstrap; _ ← Runtime.Recover; get.
Definition assembled_state (d : Durable) (memory : MemoryStore.Store) (runtime : Runtime.Store) (ttl : Z) (sk : Skills.System) : State :=
  ChatService.mkSystem (d_chat d)
    (mkBackend runtime memory (mkMachine (d_sched d)
      (Execution.mkExecState (d_actions d) (Approval.mkStore (d_approvals d) (if ttl <=? 0 then 10 * Minute else ttl)) (d_files d) [] []) sk))
    (d_observations d) [].
(** [Build] on the files of [d]; what it writes before it fails stays. *)
Definition Build (opts : Options) : M Durable (App * State) :=
  d ← get;
  memory ← lift_result (Journal.NewPersistentStore (d_memory d));
  runtime ← on_tasks boot_tasks;
  match approvalTTL with
  | None => throw ErrInvalidArgument
  | Some ttl =>
      c ← lift_result (clients sur);
      sk ← new_registry opts;
      let r := assembled_runner opts c in
      mret (mkApp r (assembled_service opts r), assembled_state d memory runtime ttl sk)
  end.

End wiring.

(** ** What turns leave *)

Section facts.
Context {tables : UnicodeTables} {url : SkillText.UrlPackage} {digits : Recall.FloatFormat}.
Variables (sur : Surroundings) (opts : Options) (c : SkillRunner.Connectors).
Definition assembled : App := let r := assembled_runner sur opts c in mkApp r (assembled_service sur opts r).
Abbreviation svc := (app_service assembled).
Abbreviation records s := (exec_state (ChatService.machine (backend s))).

(** What [Build] starts from is what is on disk. *)
Lemma Build_state d w app s d' w' : Build sur opts d w = (Ok (app, s), d', w') →
  ∃ memory rt ttl sk, s = assembled_state d memory rt ttl sk.
Proof.
  unfold Build. rewrite bind_eq. cbn [get]. rewrite bind_eq.
  destruct (Journal.NewPersistentStore _) as [memory|]; [|done]. cbn [lift_result]. rewrite bind_eq. unfold on_tasks.
  destruct (boot_tasks _ _) as [[[rt|] rt'] w1]; [|done]. destruct (approvalTTL sur) as [ttl|]; [|done]. rewrite bind_eq.
  destruct (clients sur) as [c'|]; [|done]. cbn [lift_result]. rewrite bind_eq. unfold new_registry.
  destruct (Skills.NewRunner _ _ _ _ _ _ _ _) as [[[sk|] ?] w2]; [|done]. intros E.
  apply (f_equal (λ x : result (App * State) * Durable * World, match x with (Ok (_, s), _, _) => Some s | _ => None end)) in E.
  cbv beta iota in E. exists memory, rt, ttl, sk. symmetry. exact (inj Some _ _ E).
Qed.

(** *** The root profile *)

Definition back_rootless (b : Backend Machine) : Prop := RootGate.rootless (exec_state (ChatService.machine b)).
(** *** Turns nobody consented to *)

(** What may happen behind a turn: one call of a tool that writes, whatever it
    changes, or an operation on the memory that keeps it well-formed. *)
Inductive turn_effect : Backend Machine → Backend Machine → Prop :=
  | tool_called name handler args b :
      name ∈ AgentTools.writing_tools → AgentLoop.index (assembled_tools sur opts) !! name = Some handler → turn_effect b (handler args b).2
  | memory_changed A (m : M MemoryStore.Store A) b w : preserves MemoryStore.store_wf m →
      turn_effect b (mkBackend (ChatService.runtime b) (exec m (ChatService.memory b) w) (ChatService.machine b)).
(** A tool that changes nothing of what it sees leaves everything as it is. *)
Definition put_view : Prop := ∀ b, put sur (view sur b) b = b.

Lemma tool_effect : put_view → ∀ name handler args b,
  AgentLoop.index (assembled_tools sur opts) !! name = Some handler → rtc turn_effect b (handler args b).2.
Proof.
  intros Hpv name handler args b Hh. destruct (decide (name ∈ AgentTools.writing_tools)) as [Hw|Hw]; [by eapply rtc_once, tool_called|].
  unfold assembled_tools in Hh. cbn [AgentTools.lift_registry AgentLoop.index] in Hh. rewrite lookup_fmap in Hh.
  destruct (_ !! name) as [f|] eqn:Ef; [|done]. injection Hh as <-.
  pose proof (AgentTools.builtin_tools_exact (assembled_host sur opts) (AgentSkills.mkOpts (app_Workspace sur opts) (app_RuntimeRoot sur opts))) as H.
  destruct H as (_ & _ & _ & H). pose proof (H name f Ef Hw args (view sur b)) as Hf. unfold AgentTools.lift_handler.
  destruct (f args (view sur b)) as [res m]. cbn in Hf |- *. rewrite Hf, Hpv. constructor.
Qed.

(** C33. Without consent a turn only talks, remembers and uses tools.  The effect
    of a turn without consent on everything behind the conversation, the tasks,
    the memory, the skills, the actions, the approvals and the programs started,
    is a sequence of operations that keep the memory well-formed and of calls
    of [run_command], [write_file] and [append_file], if these are offered,
    whatever such a call changes.  So no task is submitted, run or moved, no
    action is recorded and no approval asked for but by these tools. *)
Theorem unconsented_turn_inert depth req s w : put_view → ¬ ChatService.consented svc req s →
  rtc turn_effect (backend s) (backend (exec (ChatService.Send svc depth req) s w)).
Proof.
  intros Hpv Hno. enough (ChatService.holds (rtc turn_effect (backend s)) (exec (ChatService.Send svc depth req) s w)) as H by exact H.
  apply ChatService.unconsented_keeps; [| |done|constructor].
  - intros A m Hm s1 w1 H1. unfold ChatService.with_memory, ChatService.holds in *.
    pose proof (memory_changed A m (backend s1) w1 Hm) as H. unfold exec in H. destruct (m _ w1) as [[? ?] ?]. eapply rtc_r; [exact H1|exact H].
  - unfold ChatService.tools_keep. cbn. split; [done|]. intros name h args b Hh Hb. etransitivity; [exact Hb|]. by apply tool_effect with (name := name).
Qed.
End facts.

(** ** A small installation *)

#[local] Existing Instances GoStrings.caseless_tables SkillMemory.opaque_urls Recall.no_digits.

Definition demo_surroundings : Surroundings :=
  mkSurroundings FsAccess.plain_env (λ _, None) (Ok (SkillRunner.mkConnectors None None None))
    (SkillRunner.mkRunner SkillSafety.idle_os FsAccess.plain_env "" "" true true "" None None MemScheduler.one_scope
      (λ _, inr false) (λ _ _, Execution.mkShellOutcome "{}" "" None) (λ _, "error") (λ _, "bad JSON") (λ _ _, []) (λ _, [])
      (λ _, mret tt))
    (ChatService.mkService (Some ChatService.eager_model) None true true (ChatText.mkSystemInfo "" "" "" "") (λ _, None)
      (λ _ _, throw ErrNotFound) (λ _, "error") (λ _, "{}") (λ _ _, []) (λ _ _ _, []) (λ _, []))
    (AgentTools.mkToolHost (λ _, "") (λ _, "") (λ _, "") (λ _, "") Skills.quote0 "now" "linux" None "" "" true (λ _ _ m, (("", None), m))
      (λ _ _ m, (AgentSkills.says "written", m)) (λ _ _ m, (AgentSkills.says "written", m)) "" "")
    (λ _ _, inl "offline")
    (λ b, AgentSkills.mkMachine FsAccess.plain_env (λ _, None) (Some (ChatService.memory b)) (Some (ChatService.runtime b)) [] (λ _, []))
    (λ _ b, b) Skills.quote0 "bad JSON" [].
Definition demo_options : Options := mkOptions " :9090 " "/var/mnemo" "/work" false.
Definition demo_connectors : SkillRunner.Connectors := SkillRunner.mkConnectors None None None.
Abbreviation demo_app := (assembled demo_surroundings demo_options demo_connectors).
Definition demo_state : State :=
  ChatService.mkSystem (ChatStore.mkStore ∅ ∅ ∅)
    (mkBackend Runtime.boot_store MemoryStore.NewStore
      (mkMachine ∅ (Execution.mkExecState ∅ (Approval.NewStore 0) ∅ [] []) (Skills.booted ∅ ∅))) ∅ [].
Lemma installed_tools : put_view demo_surroundings.
Proof. done. Qed.
Lemma demo_rootless : RootGate.rootless (exec_state (ChatService.machine (backend demo_state))).
Proof. split; [split; [exact (Approval.NewApprovals_wf 0)|]|]; intros k r H; cbn in H; by rewrite lookup_empty in H. Qed.
Lemma demo_no_consent : ¬ ChatService.consented (app_service demo_app) ChatService.cleanup demo_state.
Proof.
  intros [H|[H|[[H _]|(n & ctx & st & H)]]].
  1-3: revert H; vm_compute; discriminate.
  rewrite ChatService.plain_statement_route in H; [discriminate|vm_compute; reflexivity|].
  intros m prompt d [= <-] [= <-]. reflexivity.
Qed.
Example demo_places : app_Addr demo_surroundings demo_options = ":9090" ∧ app_Workspace demo_surroundings demo_options = "/work".
Proof. split; vm_compute; reflexivity. Qed.

(** Here every tool leaves the tasks alone, and so does the turn. *)
Lemma unconsented_turn_inert_witness :
  ChatService.runtime (backend (exec (ChatService.Send (app_service demo_app) 3 ChatService.cleanup) demo_state world0)) = Runtime.boot_store.
Proof.
  pose proof (unconsented_turn_inert demo_surroundings demo_options demo_connectors 3 ChatService.cleanup demo_state world0
    installed_tools demo_no_consent) as H.
  change Runtime.boot_store with (ChatService.runtime (backend demo_state)). induction H as [b|b1 b2 b3 H _ IH]; [done|].
  rewrite IH. destruct H as [name handler args b Hn Hh|]; [|done]. cbn in Hh. rewrite lookup_fmap in Hh.
  destruct (_ !! name) as [f|]; [|done]. injection Hh as <-. unfold AgentTools.lift_handler. by destruct (f args _).
Defined.
