(* ===== verification/Reading.v ===== *)
(** * Operations that only read

    What the stores answer without changing: the frame lemmas the harness and
    the HTTP interface share. *)
From S2P Require Import Prelude StatusDirs.
From S2P Require MemoryStore Runtime Approval Execution ChatStore ChatService SkillRunner Assistant.
Import Assistant(State, Machine, Aside, on_approvals, list_actions).
Open Scope Z_scope.

Definition reads {S A} (m : M S A) : Prop := ∀ s w, ∃ r, m s w = (r, s, w).
Lemma reads_bind {S A B} (m : M S A) (k : A → M S B) : reads m → (∀ a, reads (k a)) → reads (m ≫= k).
Proof. intros Hm Hk s w. rewrite bind_eq. destruct (Hm s w) as [[a|e] ->]; [apply Hk|by eexists]. Qed.
Lemma reads_ret {S A} (a : A) : reads (mret a : M S A).
Proof. by eexists. Qed.
Lemma reads_throw {S A} e : reads (throw e : M S A).
Proof. by eexists. Qed.
Lemma reads_get {S} : reads (get : M S S).
Proof. by eexists. Qed.
Lemma reads_lift {S A} (r : result A) : reads (lift_result r : M S A).
Proof. by eexists. Qed.
Lemma reads_try {S A} (m : M S A) : reads m → reads (try m).
Proof. intros Hm s w. unfold try. destruct (Hm s w) as [r ->]. by eexists. Qed.
Lemma reads_ReadJSON {S K A} `{Countable K} (dir : Lens S (gmap K (File A))) name : reads (ReadJSON dir name).
Proof. intros s w. unfold ReadJSON. run. destruct (view dir s !! name) as [[]|]; by eexists. Qed.
Lemma reads_preserves {S A} (I : S → Prop) (m : M S A) : reads m → preserves I m.
Proof. intros Hm s w Hs. by destruct (Hm s w) as [r ->]. Qed.
Create HintDb reads.
#[export] Hint Resolve reads_ret reads_throw reads_get reads_lift reads_ReadJSON : reads.
Ltac reads_step :=
  match goal with
  | |- reads (_ ≫= _) => apply reads_bind; [|intros ?]
  | |- reads (try _) => apply reads_try
  | |- reads (match ?x with _ => _ end) => destruct x
  | |- reads (let _ := _ in _) => cbv zeta
  | |- reads _ => solve [eauto with reads nocore]
  end.
Ltac reads_tac := repeat reads_step.

Lemma reads_runtime {A} (m : M Runtime.Store A) : reads m → reads (ChatService.with_runtime (T := Machine) m).
Proof.
  intros Hm s w. unfold ChatService.with_runtime. destruct (Hm (ChatService.runtime (ChatService.backend s)) w) as [r ->].
  exists r. by destruct s as [? [] ? ?].
Qed.
Lemma reads_chat {A} (m : M ChatStore.Store A) : reads m → reads (ChatService.with_chat (T := Machine) m).
Proof. intros Hm s w. unfold ChatService.with_chat. destruct (Hm (ChatService.chat s) w) as [r ->]. exists r. by destruct s. Qed.
Lemma reads_runner {A} (m : M (SkillRunner.System Aside) A) : reads m → reads (Assistant.on_runner m).
Proof.
  intros Hm s w. unfold Assistant.on_runner. destruct (Hm (Assistant.to_runner s) w) as [r ->]. exists r. by rewrite Assistant.of_to_runner.
Qed.
Lemma reads_machine {L A} (m : M Execution.ExecState A) : reads m → reads (SkillRunner.with_machine (L := L) m).
Proof. intros Hm s w. unfold SkillRunner.with_machine. destruct (Hm (SkillRunner.machine s) w) as [r ->]. exists r. by destruct s. Qed.
Lemma reads_approvals {A} (m : M Approval.Store A) : reads m → reads (on_approvals m).
Proof.
  intros Hm. apply reads_runner, reads_machine. intros s w. unfold Execution.with_approvals. destruct (Hm (Execution.approvals s) w) as [r ->].
  exists r. by destruct s.
Qed.
Lemma reads_GetTask id : reads (Runtime.GetTask id).
Proof. unfold Runtime.GetTask, Runtime.findTaskLocked. reads_tac. Qed.
Lemma reads_ListTasks : reads Runtime.ListTasks.
Proof. unfold Runtime.ListTasks. reads_tac. Qed.
Lemma reads_Get id : reads (Approval.Get id).
Proof. unfold Approval.Get, Approval.findLocked. reads_tac. Qed.
Lemma reads_List status : reads (Approval.List status).
Proof. unfold Approval.List. reads_tac. Qed.
Lemma reads_actions limit : reads (list_actions limit).
Proof. apply reads_runner, reads_machine. unfold Execution.List. reads_tac. Qed.
Lemma reads_SessionState id : reads (ChatService.ServiceSessionState (T := Machine) id).
Proof. apply reads_chat. unfold ChatStore.GetSessionState, ChatStore.loadStateLocked. reads_tac. Qed.
Lemma reads_catch {A} (m : M State A) : reads m → reads (ChatService.catch m).
Proof. intros Hm. unfold ChatService.catch. reads_tac; try done. Qed.
#[export] Hint Resolve reads_runtime reads_approvals reads_GetTask reads_ListTasks reads_Get reads_List reads_actions reads_SessionState : reads.

(** ** What an operation returns *)

(** Every value of [m] satisfies [Q]. *)
Definition yields {S A} (Q : A → Prop) (m : M S A) : Prop := ∀ s w, match m s w with (Ok a, _, _) => Q a | _ => True end.
Lemma yields_bind {S A B} (P : A → Prop) Q (m : M S A) (k : A → M S B) :
  yields P m → (∀ a, P a → yields Q (k a)) → yields Q (m ≫= k).
Proof.
  intros Hm Hk s w. rewrite bind_eq. specialize (Hm s w). destruct (m s w) as [[[a|e] s'] w']; [|done]. by apply Hk.
Qed.
Lemma yields_then {S A B} Q (m : M S A) (k : A → M S B) : (∀ a, yields Q (k a)) → yields Q (m ≫= k).
Proof. intros Hk. eapply (yields_bind (λ _, True)); [|done]. intros s w. by destruct (m s w) as [[[] ?] ?]. Qed.
Lemma yields_ret {S A} (Q : A → Prop) a : Q a → yields Q (mret a : M S A).
Proof. by intros H s w. Qed.
Lemma yields_throw {S A} (Q : A → Prop) e : yields Q (throw e : M S A).
Proof. by intros s w. Qed.
Lemma yields_mono {S A} (P Q : A → Prop) (m : M S A) : (∀ a, P a → Q a) → yields P m → yields Q m.
Proof. intros H Hm s w. specialize (Hm s w). destruct (m s w) as [[[a|e] s'] w']; [by apply H|done]. Qed.
Lemma yields_run {S A} (Q : A → Prop) (m : M S A) s w a s' w' : yields Q m → m s w = (Ok a, s', w') → Q a.
Proof. intros Hm E. specialize (Hm s w). by rewrite E in Hm. Qed.
