(* ===== verification/ApiServer.v ===== *)
(** * The HTTP interface ([api/server.go])

    The handlers of the JSON interface over the assembled program, and the
    routes that lead to them and, unless it is switched off, to the pages of the
    web console ([api/web.go]), whose handlers are not modelled and are a
    parameter. *)
From S2P Require Import Prelude GoStrings GoNum GoText GoJson StatusDirs Reading.
From S2P Require FsAccess MemoryTypes MemoryStore Journal Governance Runtime Approval Execution Recall ChatStore ChatText ChatService.
From S2P Require AgentTools SkillText SkillMemory Skills MemScheduler SkillRunner SkillSafety RootGate Assistant.
Import Assistant(State, App, Surroundings, Options, on_approvals, on_executor, list_actions, count_keys, registry).
Open Scope Z_scope.

(** ** Requests and responses *)

(** The path and the values of the query are decoded; [Body] is the text sent. *)
Record Request := mkRequest { Method : string; Path : string; Query : list (string * string); Body : string }.
Record Metrics := mkMetrics {
  TotalTasks : Z; TasksByState : gmap string Z; TotalActions : Z; ActionsByStatus : gmap string Z;
  ActionsByFailureCategory : gmap string Z; TotalMemoryCards : Z; MemoryByStatus : gmap string Z; ActiveSkills : Z }.
Record Health := mkHealth {
  total_skills : Z; enabled_skills : Z; disabled_skills : Z; by_source : gmap string Z;
  manifest_loaded : Z; manifest_errors : Z; manifest_total : Z }.
(** The value that is encoded as the body of a response, or a page of the web
    console. *)
Inductive Payload :=
  | Page (content : string) | ErrorText (message : string) | StatusOk | MetricsOf (m : Metrics) | StateOf (s : Runtime.RuntimeState)
  | SkillsOf (path : option string) (skills : list Skills.SkillDefinition) (statuses : list Skills.ManifestStatus)
      (health : Health) (schema : json) (error : option string)
  | SchemaOf (schema : json) | TasksOf (tasks : list Runtime.Task) | TaskOf (task : Runtime.Task)
  | RunOf (r : SkillRunner.RunResult) | ActionOf (a : Execution.ActionRecord) | CardOf (c : MemoryTypes.Card)
  | EdgeOf (edge : MemoryTypes.Edge) | QueryOf (r : MemoryTypes.QueryResponse) | RecallOf (r : Recall.Response)
  | MessagesOf (l : list ChatStore.Message) | SentOf (r : ChatText.SendResponse)
  | ApprovalsOf (l : list Approval.Request) | ApprovalOf (r : Approval.Request).
Record Response := mkResponse { Code : Z; Sent : Payload }.

Definition StatusOK : Z := 200.
Definition StatusCreated : Z := 201.
Definition StatusBadRequest : Z := 400.
Definition StatusForbidden : Z := 403.
Definition StatusNotFound : Z := 404.
Definition StatusConflict : Z := 409.
Definition StatusInternalServerError : Z := 500.

(** [url.Values.Get] *)
Definition query_get (req : Request) (key : string) : string :=
  match List.find (λ kv, bool_decide (kv.1 = key)) (Query req) with Some (_, v) => v | None => "" end.
Definition query_all (req : Request) (key : string) : list string :=
  (filter (λ kv : string * string, kv.1 = key) (Query req)).*2.

(** What the decoder finds in a body: a value, only blanks, or an error. *)
Inductive Decoded (A : Type) := Value (a : A) | AtEOF | Malformed (message : string).
Arguments Value {A} _.
Arguments AtEOF {A}.
Arguments Malformed {A} _.
(** [decodeJSON] into a target that is [zero] before *)
Definition decodeJSON {A} (zero : A) (d : Decoded A) : string + A :=
  match d with Value a => inr a | AtEOF => inr zero | Malformed message => inl message end.
(** The strict decoders of the request types, and [time.Parse(time.RFC3339, _)]. *)
Record Decoders := mkDecoders {
  enabled_body : string → Decoded bool; manifest_body : string → Decoded Skills.Manifest;
  task_body : string → Decoded Runtime.CreateTaskRequest; approved_by_body : string → Decoded string;
  denied_by_body : string → Decoded (string * string);
  shell_body : string → Decoded Execution.ShellActionRequest; read_body : string → Decoded Execution.FileReadActionRequest;
  write_body : string → Decoded Execution.FileWriteActionRequest; card_body : string → Decoded MemoryTypes.CreateCardRequest;
  update_body : string → Decoded MemoryTypes.UpdateCardRequest; edge_body : string → Decoded MemoryTypes.CreateEdgeRequest;
  chat_body : string → Decoded ChatText.SendRequest; approval_body : string → Decoded Approval.CreateRequest;
  ParseTime : string → option Time }.

Definition no_task : Runtime.CreateTaskRequest := Runtime.mkCreateTaskRequest "" "" "" "" "" false "" None.
Definition no_manifest : Skills.Manifest := Skills.mkManifest 0 "" "" "" None ∅ "" None None.
Definition no_shell : Execution.ShellActionRequest := Execution.mkShellRequest "" "" [] "" 0 0 0 "" "" "" ∅.
Definition no_read : Execution.FileReadActionRequest := Execution.mkReadRequest "" "" 0 0 "" "" "" ∅.
Definition no_write : Execution.FileWriteActionRequest := Execution.mkWriteRequest "" "" "" false 0 0 "" "" "" ∅.
Definition no_provenance : MemoryTypes.Provenance := MemoryTypes.mkProvenance "" "" f0.
Definition no_card : MemoryTypes.CreateCardRequest := MemoryTypes.mkCreateCardRequest "" "" "" "" "" None None None None None no_provenance.
Definition no_update : MemoryTypes.UpdateCardRequest := MemoryTypes.mkUpdateCardRequest None "" None None "" "" None no_provenance.
Definition no_edge : MemoryTypes.CreateEdgeRequest := MemoryTypes.mkCreateEdgeRequest "" "" "" "" f0 f0 None None None.
Definition no_message : ChatText.SendRequest := ChatText.mkSendRequest "" "" "" "" "" false.
Definition no_approval : Approval.CreateRequest := Approval.mkCreateRequest "" "" "" "" "" ∅.

(** ** Skills *)

Definition count {A} (p : A → bool) (l : list A) : Z := Z.of_nat (length (List.filter p l)).
Definition skillHealth (defs : list Skills.SkillDefinition) (statuses : list Skills.ManifestStatus) : Health :=
  mkHealth (Z.of_nat (length defs)) (count Skills.Enabled defs) (count (λ d, negb (Skills.Enabled d)) defs)
    (count_keys ((λ d, firstNonEmpty [Skills.Source d; "runtime"]) <$> defs))
    (count Skills.ms_Loaded statuses) (count (λ st, negb (blank (Skills.ms_Error st))) statuses) (Z.of_nat (length statuses)).
Definition strings (l : list string) : json := JArr (JStr <$> l).
Definition schema_field (name : string) (required : bool) (type : string) (more : list (string * json)) : json :=
  AgentTools.obj ([("name", JStr name); ("required", JBool required); ("type", JStr type)] ++ more).
Definition skillSchema : json := AgentTools.obj [
  ("execution_profiles", strings ["user"; "root"]);
  ("maintenance_scopes", strings ["project"; "user"]);
  ("external_kinds", strings ["command"]);
  ("manifest_fields", JArr [
     schema_field "name" true "string" []; schema_field "description" false "string" [];
     schema_field "uses" false "string" [("notes", JStr "mutually exclusive with external")];
     schema_field "enabled" false "bool" []; schema_field "default_metadata" false "map[string]string" [];
     schema_field "execution_profile" false "enum" [("values", strings ["user"; "root"])];
     schema_field "maintenance_policy" false "object" [];
     schema_field "external" false "object" [("notes", JStr "mutually exclusive with uses")]]);
  ("external_fields", JArr [
     schema_field "kind" true "enum" [("values", strings ["command"])]; schema_field "command" true "relative-path" [];
     schema_field "args" false "[]string" []; schema_field "env" false "map[string]string" [];
     schema_field "workdir" false "relative-path" []; schema_field "timeout_ms" false "int" [];
     schema_field "allow_write_root" false "bool" []; schema_field "require_approval" false "bool" []])].

(** ** The handlers *)

Section server.
Context {tables : UnicodeTables} {url : SkillText.UrlPackage} {digits : Recall.FloatFormat}.
(** The program that is served, the decoders, the depth of the stack of
    [Send], and the handlers of the web console by method and pattern. *)
Variables (sur : Surroundings) (opts : Options) (app : App) (dec : Decoders) (stack : nat).
Variable page : string → string → Request → M State Response.
Abbreviation runner := (Assistant.app_runner app).
Abbreviation svc := (Assistant.app_service app).
Abbreviation error_text := (SkillRunner.error_text runner).
Abbreviation Handler := (Request → M State Response).

Definition writeJSON (status : Z) (v : Payload) : M State Response := mret (mkResponse status v).
Definition writeError (status : Z) (message : string) : M State Response := writeJSON status (ErrorText message).
(** The status of an error: the first that matches, or the default. *)
Definition status_of (fallback : Z) (cases : list (error * Z)) (err : error) : Z :=
  match List.find (λ c, bool_decide (c.1 = err)) cases with Some (_, status) => status | None => fallback end.
(** Answer with the outcome of an operation. *)
Definition answer {A} (fallback : Z) (cases : list (error * Z)) (success : Z) (doc : A → Payload) (m : M State A) : M State Response :=
  res ← ChatService.catch m;
  match res with
  | Ok a => writeJSON success (doc a)
  | Err err => writeError (status_of fallback cases err) (error_text err)
  end.
(** Decode the body, or answer that it cannot be decoded. *)
Definition with_body {A} (zero : A) (d : Decoded A) (k : A → M State Response) : M State Response :=
  match decodeJSON zero d with inl message => writeError StatusBadRequest message | inr a => k a end.
(** The order in which a loop visits the cards. *)
Definition visit (s : State) : list string := SkillRunner.card_ords runner 0 (ChatService.memory (ChatService.backend s)).

Definition handleHealth : Handler := λ _, writeJSON StatusOK StatusOk.

Definition handleMetrics : Handler := λ _,
  tasks ← ChatService.catch (ChatService.with_runtime Runtime.ListTasks);
  actions ← ChatService.catch (list_actions 1000);
  s ← get;
  let tasks := match tasks with Ok l => l | Err _ => [] end in
  let actions := match actions with Ok l => l | Err _ => [] end in
  let cards := MemoryTypes.Cards (MemoryStore.Query (visit s) (MemoryTypes.mkQueryRequest "" "" "" "" None) (ChatService.memory (ChatService.backend s))) in
  writeJSON StatusOK (MetricsOf (mkMetrics (Z.of_nat (length tasks)) (count_keys (Runtime.State <$> tasks))
    (Z.of_nat (length actions)) (count_keys (Execution.Status <$> actions))
    (count_keys (filter (λ c, c ≠ "") (Execution.FailureCategory <$> actions)))
    (Z.of_nat (length cards)) (count_keys (MemoryTypes.Status <$> cards))
    (count Skills.Enabled (Skills.ListSkills (registry (ChatService.machine (ChatService.backend s))))))).

Definition handleRuntimeState : Handler := λ _,
  answer StatusInternalServerError [] StatusOK StateOf (ChatService.with_runtime Runtime.LoadState).

(** *** Skills *)

Definition on_skills {A} (m : M Skills.System A) : M State A := Assistant.on_runner (λ x w,
  match m (SkillRunner.skills x) w with
  | (r, sk, w') => (r, SkillRunner.mkSystem (SkillRunner.stores x) (SkillRunner.machine x) sk (SkillRunner.listener x), w')
  end).
Abbreviation skillsDir := (FsAccess.Join2 (SkillRunner.rootDir runner) "skills").
Abbreviation quote := (Assistant.manifest_quote sur).
Abbreviation decode_error := (Assistant.manifest_error sur).
Abbreviation switches := (Assistant.override_ord sur).
(** The skills as they are now. *)
Definition write_skills (path error : option string) : M State Response :=
  s ← get;
  let sk := registry (ChatService.machine (ChatService.backend s)) in
  writeJSON StatusOK (SkillsOf path (Skills.ListSkills sk) (Skills.manifests sk) (skillHealth (Skills.ListSkills sk) (Skills.manifests sk)) skillSchema error).
Definition handleListSkills : Handler := λ _, write_skills None None.
Definition handleSkillSchema : Handler := λ _, writeJSON StatusOK (SchemaOf skillSchema).
Definition handleReloadSkills : Handler := λ _,
  reloadErr ← on_skills (Skills.ReloadSkills quote decode_error skillsDir switches);
  write_skills None (Some (default "" reloadErr)).
(** The name a path ends with. *)
Definition route_name (prefix path : string) : string := TrimByte (TrimSuffix (TrimPrefix path prefix) "/") "/".
Definition handleSkillRoute : Handler := λ req,
  let name := route_name "/skills/" (Path req) in
  if decide (name = "") then writeError StatusNotFound "skill route not found" else
  with_body false (enabled_body dec (Body req)) (λ enabled,
    res ← ChatService.catch (on_skills (Skills.SetSkillEnabled quote decode_error skillsDir switches name enabled));
    match res with
    | Err err => writeError StatusBadRequest (error_text err)
    | Ok (Some err) => writeError StatusBadRequest err
    | Ok None => write_skills None None
    end).
Definition named (name : string) (m : Skills.Manifest) : Skills.Manifest :=
  if blank (Skills.m_Name m) then
    Skills.mkManifest (Skills.m_Version m) name (Skills.m_Description m) (Skills.m_Uses m) (Skills.m_Enabled m) (Skills.m_DefaultMetadata m)
      (Skills.m_ExecutionProfile m) (Skills.m_Maintenance m) (Skills.m_External m)
  else m.
Definition handleSkillManifestRoute : Handler := λ req,
  let name := route_name "/skills/manifests/" (Path req) in
  if decide (name = "") then writeError StatusNotFound "skill manifest route not found" else
  with_body no_manifest (manifest_body dec (Body req)) (λ manifest,
    let manifest := named name manifest in
    if negb (bool_decide (TrimSpace (Skills.m_Name manifest) = name)) then writeError StatusBadRequest "manifest name does not match path" else
    res ← ChatService.catch (on_skills (Skills.SaveManifest quote decode_error skillsDir switches manifest));
    match res with
    | Err err => writeError StatusBadRequest (error_text err)
    | Ok (_, Some err) => writeError StatusBadRequest err
    | Ok (path, None) => write_skills (Some path) None
    end).

(** *** Tasks *)

Definition handleListTasks : Handler := λ _,
  answer StatusInternalServerError [] StatusOK TasksOf (ChatService.with_runtime Runtime.ListTasks).
Definition handleCreateTask : Handler := λ req,
  with_body no_task (task_body dec (Body req)) (λ r,
    answer StatusInternalServerError [(ErrRuntimeInvalidInput, StatusBadRequest)] StatusCreated TaskOf
      (ChatService.with_runtime (Runtime.SubmitTask r))).
Definition task_errors : list (error * Z) := [(ErrTaskNotFound, StatusNotFound)].
Definition handleApproveTask (taskID : string) : Handler := λ req,
  with_body "" (approved_by_body dec (Body req)) (λ by_,
    answer StatusInternalServerError task_errors StatusOK TaskOf (ChatService.with_runtime (Runtime.ApproveTask taskID by_))).
Definition handleDenyTask (taskID : string) : Handler := λ req,
  with_body ("", "") (denied_by_body dec (Body req)) (λ '(by_, reason),
    answer StatusInternalServerError task_errors StatusOK TaskOf (ChatService.with_runtime (Runtime.DenyTask taskID by_ reason))).
(** The message of an error of [RunTask] on the task that was found. *)
Definition run_error (found : result Runtime.Task) (taskID : string) (err : error) : string :=
  match err, found with
  | ErrInvalidArgument, Ok task =>
      if decide (Runtime.State task = Runtime.TaskStateAwaitingApproval) then "task " +:+ taskID +:+ " is awaiting approval"
      else if decide (Runtime.State task ∈ SkillRunner.runnable_states) then error_text err
      else "task " +:+ taskID +:+ " is not runnable from state " +:+ Runtime.State task
  | _, _ => error_text err
  end.
Definition get_task (taskID : string) : M State (result Runtime.Task) := ChatService.catch (ChatService.with_runtime (Runtime.GetTask taskID)).
(** [RunTask] reports its progress to nobody. *)
Definition unheard (r : SkillRunner.Runner Assistant.Aside) : SkillRunner.Runner Assistant.Aside := SkillRunner.retarget r (λ _, mret tt).
(** The status and the message of a failed requeue, if one was needed. *)
Definition requeue_stopped (taskID : string) : M State (option (Z * string)) :=
  found ← get_task taskID;
  match found with
  | Ok task =>
      if decide (Runtime.State task ∈ [Runtime.TaskStateFailed; Runtime.TaskStateBlocked]) then
        res ← ChatService.catch (ChatService.with_runtime (Runtime.RequeueTask taskID "api_run" (λ t, mret t)));
        mret (match res with Ok _ => None | Err err => Some (StatusConflict, error_text err) end)
      else mret None
  | Err _ => mret None
  end.
Definition run_status (err : error) (message : string) : Z :=
  if Contains message "awaiting approval" || Contains message "not runnable" then StatusConflict
  else status_of StatusInternalServerError task_errors err.
Definition handleRunTask (taskID : string) : Handler := λ _,
  stopped ← requeue_stopped taskID;
  match stopped with
  | Some (status, message) => writeError status message
  | None =>
      found ← get_task taskID;
      res ← ChatService.catch (Assistant.on_runner (SkillRunner.RunTask (unheard runner) taskID));
      match res with
      | Ok r => writeJSON StatusOK (RunOf r)
      | Err err => let message := run_error found taskID err in writeError (run_status err message) message
      end
  end.
(** The parts of a path below a prefix. *)
Definition route_parts (prefix path : string) : list string := SplitByte "/" (TrimByte (TrimPrefix path prefix) "/").
Definition handleTaskRoute : Handler := λ req,
  let missing := writeError StatusNotFound "task route not found" in
  match route_parts "/tasks/" (Path req) with
  | [] => missing
  | taskID :: rest =>
      if decide (taskID = "") then missing else
      match rest with
      | [] =>
          if decide (Method req = "GET")
          then answer StatusInternalServerError task_errors StatusOK TaskOf (ChatService.with_runtime (Runtime.GetTask taskID))
          else missing
      | [verb] =>
          if negb (bool_decide (Method req = "POST")) then missing
          else if decide (verb = "approve") then handleApproveTask taskID req
          else if decide (verb = "deny") then handleDenyTask taskID req
          else if decide (verb = "run") then handleRunTask taskID req
          else missing
      | _ => missing
      end
  end.

(** *** Actions *)

Definition execution_errors : list (error * Z) :=
  [(ErrExecutionInvalidInput, StatusBadRequest); (ErrExecutionDenied, StatusForbidden)].
(** The executor recovers from panics: an error of any kind is answered. *)
Definition answer_action (m : M Execution.ExecState (Execution.ActionRecord * option error)) : M State Response :=
  '(record, err) ← on_executor m;
  match err with
  | Some err => writeError (status_of StatusInternalServerError execution_errors err) (error_text err)
  | None => writeJSON StatusCreated (ActionOf record)
  end.
Abbreviation executor op := (op (SkillRunner.os runner) (SkillRunner.env runner) (SkillRunner.exec_root runner)
  (SkillRunner.exec_token runner) (SkillRunner.exec_approvals runner)).
Definition handleExecuteShell : Handler := λ req,
  with_body no_shell (shell_body dec (Body req)) (λ r, answer_action (executor Execution.ExecuteShell r)).
Definition handleExecuteFileRead : Handler := λ req,
  with_body no_read (read_body dec (Body req)) (λ r, answer_action (executor Execution.ExecuteFileRead r)).
Definition handleExecuteFileWrite : Handler := λ req,
  with_body no_write (write_body dec (Body req)) (λ r, answer_action (executor Execution.ExecuteFileWrite r)).
Definition handleGetAction : Handler := λ req,
  let actionID := TrimByte (TrimPrefix (Path req) "/actions/") "/" in
  if decide (actionID = "") then writeError StatusNotFound "action route not found" else
  answer StatusInternalServerError [(ErrActionNotFound, StatusNotFound)] StatusOK ActionOf (on_executor (Execution.Get actionID)).

(** *** Memory *)

Abbreviation of_memory s := (ChatService.memory (ChatService.backend s)).
Definition handleCreateCard : Handler := λ req,
  with_body no_card (card_body dec (Body req)) (λ r,
    answer StatusBadRequest [(ErrAlreadyExists, StatusConflict)] StatusCreated CardOf (ChatService.with_memory (MemoryStore.CreateCard r))).
Definition handleUpdateCard : Handler := λ req,
  let cardID := TrimPrefix (Path req) "/cards/" in
  with_body no_update (update_body dec (Body req)) (λ r,
    answer StatusBadRequest [(ErrNotFound, StatusNotFound)] StatusOK CardOf (ChatService.with_memory (MemoryStore.UpdateCard cardID r))).
Definition handleCreateEdge : Handler := λ req,
  with_body no_edge (edge_body dec (Body req)) (λ r,
    answer StatusBadRequest [(ErrAlreadyExists, StatusConflict)] StatusCreated EdgeOf (ChatService.with_memory (MemoryStore.CreateEdge r))).
Definition handleQuery : Handler := λ req,
  let run asOf :=
    s ← get;
    writeJSON StatusOK (QueryOf (MemoryStore.Query (visit s)
      (MemoryTypes.mkQueryRequest (query_get req "card_id") (query_get req "card_type") (query_get req "scope") "" asOf) (of_memory s))) in
  let text := query_get req "as_of" in
  if decide (text = "") then run None else
  match ParseTime dec text with
  | None => writeError StatusBadRequest "as_of must be RFC3339"
  | Some asOf => run (Some asOf)
  end.
Definition recall_limit (req : Request) : option Z :=
  let text := TrimSpace (query_get req "limit") in
  if decide (text = "") then Some 10 else
  match Atoi text with Some parsed => if parsed <=? 0 then None else Some parsed | None => None end.
Definition recall_sources (req : Request) : list string :=
  filter (λ source, source ≠ "") (TrimSpace <$> (query_all req "source" ≫= SplitByte ",")).
Definition handleRecall : Handler := λ req,
  match recall_limit req with
  | None => writeError StatusBadRequest "limit must be a positive integer"
  | Some limit =>
      s ← get;
      resp ← lift_result (Recall.Recall (ChatService.card_ords svc (of_memory s) 0) (ChatService.field_ords svc (of_memory s) 0)
               (Recall.mkRecallRequest (query_get req "query") (recall_sources req) limit) (of_memory s));
      writeJSON StatusOK (RecallOf resp)
  end.

(** *** Conversations *)

Definition handleListChatMessages : Handler := λ req,
  answer StatusInternalServerError [] StatusOK MessagesOf (ChatService.ServiceMessages svc (TrimSpace (query_get req "session")) 100).
Definition handleSendChatMessage : Handler := λ req,
  with_body no_message (chat_body dec (Body req)) (λ r,
    answer StatusInternalServerError [] StatusCreated SentOf (ChatService.Send svc stack r)).

(** *** Approvals *)

Definition approval_errors : list (error * Z) := [(ErrApprovalNotFound, StatusNotFound); (ErrApprovalDenied, StatusConflict)].
Definition handleListApprovals : Handler := λ req,
  answer StatusInternalServerError [] StatusOK ApprovalsOf (on_approvals (Approval.List (query_get req "status"))).
Definition handleCreateRootApproval : Handler := λ req,
  with_body no_approval (approval_body dec (Body req)) (λ r,
    answer StatusBadRequest [] StatusCreated ApprovalOf (on_approvals (Approval.Create
      (Approval.mkCreateRequest (Approval.cq_TaskID r) "root" (Approval.cq_ActionKind r) (Approval.cq_Summary r)
         (Approval.cq_RequestedBy r) (Approval.cq_Metadata r))))).
(** The edits of the task an approval or a denial names. *)
Definition granted (approvalID : string) (t : Runtime.Task) : Runtime.Task :=
  Runtime.with_fields t (Runtime.SelectedSkill t) "root approval granted; rerun task" (Runtime.FailureReason t) (Runtime.RequiresApproval t)
    (Some (<["root_approval_id" := approvalID]> (default ∅ (Runtime.Metadata t)))).
Definition refused (approvalID reason : string) (t : Runtime.Task) : Runtime.Task :=
  Runtime.with_fields t (Runtime.SelectedSkill t) "root approval denied" (firstNonEmpty [reason; "root approval denied"]) (Runtime.RequiresApproval t)
    (Some (<["root_approval_id" := approvalID]> (delete "approval_token" (default ∅ (Runtime.Metadata t))))).
(** An operation on the task of a request, if it has one, whose error is dropped. *)
Definition for_task (record : Approval.Request) (m : string → M Runtime.Store Runtime.Task) : M State unit :=
  if decide (Approval.TaskID record = "") then mret tt else
  _ ← ChatService.catch (ChatService.with_runtime (m (Approval.TaskID record))); mret tt.
Definition handleApproveApproval (approvalID : string) : Handler := λ req,
  with_body "" (approved_by_body dec (Body req)) (λ by_,
    answer StatusInternalServerError approval_errors StatusOK ApprovalOf (
      record ← on_approvals (Approval.Approve approvalID by_);
      _ ← for_task record (λ id, Runtime.RequeueTask id "approval_granted" (λ t, mret (granted (Approval.ApprovalID record) t)));
      mret record)).
Definition handleDenyApproval (approvalID : string) : Handler := λ req,
  with_body ("", "") (denied_by_body dec (Body req)) (λ '(by_, reason),
    answer StatusInternalServerError approval_errors StatusOK ApprovalOf (
      record ← on_approvals (Approval.Deny approvalID by_ reason);
      _ ← for_task record (λ id, Runtime.MoveTask id Runtime.TaskStateBlocked
            (λ t, mret (refused (Approval.ApprovalID record) (Approval.DeniedReason record) t)));
      mret record)).
Definition handleApprovalRoute : Handler := λ req,
  let missing := writeError StatusNotFound "approval route not found" in
  match route_parts "/approvals/" (Path req) with
  | [] => missing
  | approvalID :: rest =>
      if decide (approvalID = "") then missing else
      match rest with
      | [] =>
          if decide (Method req = "GET")
          then answer StatusInternalServerError [(ErrApprovalNotFound, StatusNotFound)] StatusOK ApprovalOf (on_approvals (Approval.Get approvalID))
          else missing
      | [verb] =>
          if negb (bool_decide (Method req = "POST")) then missing
          else if decide (verb = "approve") then handleApproveApproval approvalID req
          else if decide (verb = "deny") then handleDenyApproval approvalID req
          else missing
      | _ => missing
      end
  end.

(** ** Routing *)

(** A pattern has a method and a path; one that ends with a slash stands for
    all paths below it. *)
Record Route := mkRoute { rt_Method : string; Pattern : string; rt_Handler : Handler }.
(** The pages of the console. *)
Definition web_patterns : list (string * string) := [
  ("GET", "/"); ("GET", "/dashboard"); ("POST", "/ui/chat/sessions"); ("POST", "/ui/chat/sessions/");
  ("GET", "/ui/chat"); ("GET", "/ui/chat/events"); ("GET", "/ui/chat/messages"); ("POST", "/ui/chat");
  ("POST", "/ui/chat/tasks/"); ("POST", "/ui/chat/approvals/"); ("GET", "/ui/tasks"); ("POST", "/ui/tasks");
  ("POST", "/ui/tasks/"); ("GET", "/ui/approvals"); ("POST", "/ui/approvals/"); ("GET", "/ui/recall");
  ("GET", "/ui/memory"); ("GET", "/ui/skills"); ("POST", "/ui/skills/reload"); ("POST", "/ui/skills/manifests");
  ("POST", "/ui/skills/"); ("GET", "/ui/models"); ("POST", "/ui/models"); ("POST", "/ui/models/test");
  ("POST", "/ui/models/test.json"); ("POST", "/ui/models/profile/save"); ("POST", "/ui/models/profile/apply"); ("POST", "/ui/models/profile/delete");
  ("GET", "/ui/preview"); ("GET", "/ui/artifacts/view")].
Definition registerWebRoutes : list Route := (λ mp, mkRoute mp.1 mp.2 (page mp.1 mp.2)) <$> web_patterns.
(** The routes of the JSON interface. *)
Definition api_routes : list Route := [
  mkRoute "GET" "/health" handleHealth;
  mkRoute "GET" "/metrics" handleMetrics;
  mkRoute "GET" "/runtime/state" handleRuntimeState;
  mkRoute "GET" "/skills" handleListSkills;
  mkRoute "GET" "/skills/schema" handleSkillSchema;
  mkRoute "POST" "/skills/reload" handleReloadSkills;
  mkRoute "PATCH" "/skills/" handleSkillRoute;
  mkRoute "PUT" "/skills/manifests/" handleSkillManifestRoute;
  mkRoute "GET" "/tasks" handleListTasks;
  mkRoute "POST" "/tasks" handleCreateTask;
  mkRoute "GET" "/tasks/" handleTaskRoute;
  mkRoute "POST" "/tasks/" handleTaskRoute;
  mkRoute "POST" "/actions/shell" handleExecuteShell;
  mkRoute "POST" "/actions/file-read" handleExecuteFileRead;
  mkRoute "POST" "/actions/file-write" handleExecuteFileWrite;
  mkRoute "GET" "/actions/" handleGetAction;
  mkRoute "PUT" "/cards" handleCreateCard;
  mkRoute "PATCH" "/cards/" handleUpdateCard;
  mkRoute "POST" "/edges" handleCreateEdge;
  mkRoute "GET" "/query" handleQuery;
  mkRoute "GET" "/recall" handleRecall;
  mkRoute "GET" "/chat/messages" handleListChatMessages;
  mkRoute "POST" "/chat" handleSendChatMessage;
  mkRoute "GET" "/approvals" handleListApprovals;
  mkRoute "POST" "/approvals/root-actions" handleCreateRootApproval;
  mkRoute "GET" "/approvals/" handleApprovalRoute;
  mkRoute "POST" "/approvals/" handleApprovalRoute].
Definition Routes : list Route := (if Assistant.EnableWeb opts then registerWebRoutes else []) ++ api_routes.

(** How [http.ServeMux] chooses: a pattern for [GET] serves [HEAD] too, and the
    most specific pattern that matches wins. *)
Definition route_matches (method path : string) (r : Route) : bool :=
  (bool_decide (rt_Method r = method) || (bool_decide (rt_Method r = "GET") && bool_decide (method = "HEAD")))
  && (if HasSuffix (Pattern r) "/" then HasPrefix path (Pattern r) else bool_decide (path = Pattern r)).
Definition more_specific (best : option Route) (r : Route) : option Route :=
  match best with
  | Some b => if (len (Pattern b) <? len (Pattern r))%nat then Some r else best
  | None => Some r
  end.
Definition find_route (routes : list Route) (method path : string) : option Route :=
  foldl more_specific None (List.filter (route_matches method path) routes).
Definition clean_path (path : string) : string :=
  let path := if HasPrefix path "/" then path else "/" +:+ path in
  let cleaned := FsAccess.Clean path in
  if HasSuffix path "/" && negb (bool_decide (cleaned = "/")) then cleaned +:+ "/" else cleaned.
(** A path that has a pattern of its own only with a slash at its end is sent
    there, though a less specific pattern matches it. *)
Definition redirected (method path : string) (r : Route) : bool :=
  negb (bool_decide (Pattern r = path)) && negb (HasSuffix path "/") &&
  match find_route Routes method (path +:+ "/") with Some r' => bool_decide (Pattern r' = path +:+ "/") | None => false end.
(** One request.  [None]: the multiplexer itself answers, with a redirect to
    the clean path or that there is no such route or method. *)
Definition serve (req : Request) : M State (option Response) :=
  if negb (bool_decide (clean_path (Path req) = Path req)) then mret None else
  match find_route Routes (Method req) (Path req) with
  | None => mret None
  | Some r => if redirected (Method req) (Path req) r then mret None else resp ← rt_Handler r req; mret (Some resp)
  end.
(** The request is answered by a page of the console. *)
Definition for_console (req : Request) : bool :=
  match find_route Routes (Method req) (Path req) with
  | Some r => bool_decide ((rt_Method r, Pattern r) ∈ web_patterns)
  | None => false
  end.
End server.
