(* ===== verification/ApiFacts.v ===== *)
(** * What requests do ([api/server.go])

    The theorems of [ApiServer]: reading requests change nothing; what is
    looked up is what is stored; an approval reaches its task; an error is
    never answered as a success. *)
From S2P Require Import Prelude GoStrings GoNum GoText StatusDirs Reading ApiServer.
From S2P Require FsAccess MemoryTypes MemoryStore Journal Governance Runtime Approval Execution Recall ChatStore ChatText ChatService.
From S2P Require AgentTools SkillText SkillMemory Skills MemScheduler SkillRunner SkillSafety RootGate Assistant.
Import Assistant(State, App, Machine, Aside, Surroundings, Options, on_approvals, on_executor, list_actions, registry).
Open Scope Z_scope.

(** ** Reading *)

Lemma reads_action id : reads (Execution.Get id).
Proof. unfold Execution.Get, Execution.findLocked. reads_tac. Qed.
Lemma reads_LoadState : reads Runtime.LoadState.
Proof. unfold Runtime.LoadState. reads_tac. Qed.
Lemma reads_foldM {S A B} (f : B → A → M S B) (l : list A) b : (∀ b a, reads (f b a)) → reads (foldM f b l).
Proof. intros Hf. revert b. induction l as [|a l IH]; intros b; cbn [foldM]; [apply reads_ret|]. apply reads_bind; [apply Hf|intros; apply IH]. Qed.
Lemma reads_answer {A} app fallback cases success doc (m : M State A) : reads m → reads (answer app fallback cases success doc m).
Proof. intros Hm. unfold answer. apply reads_bind; [by apply reads_catch|]. intros []; apply reads_ret. Qed.
Section messages.
Context {digits : Recall.FloatFormat} {tables : UnicodeTables}.
Lemma reads_Messages (svc : ChatService.Service (T := Machine)) id limit : reads (ChatService.ServiceMessages svc id limit).
Proof.
  unfold ChatService.ServiceMessages, ChatService.hydrate_all, ChatService.hydrateMessage. apply reads_bind.
  - apply reads_chat. unfold ChatStore.ListMessages, ChatStore.loadLocked. reads_tac.
  - intros messages. apply reads_foldM. intros acc m. reads_tac; apply reads_runtime, reads_GetTask.
Qed.
End messages.

(** ** Routes *)

Lemma find_route_in routes method path r : find_route routes method path = Some r → In r routes ∧ route_matches method path r = true.
Proof.
  unfold find_route. assert (∀ l best, (∀ b, best = Some b → In b routes ∧ route_matches method path b = true) →
    (∀ x, In x l → In x routes ∧ route_matches method path x = true) →
    foldl more_specific best l = Some r → In r routes ∧ route_matches method path r = true) as H.
  { induction l as [|x l IH]; intros best Hb Hl; cbn [foldl]; [apply Hb|]. apply IH; [|intros y Hy; apply Hl; by right].
    intros b. unfold more_specific. destruct best as [b0|]; [destruct (_ <? _)%nat|]; [intros [= <-]; apply Hl; by left|apply Hb|intros [= <-]; apply Hl; by left]. }
  apply H; [done|]. intros x Hx. by apply List.filter_In in Hx.
Qed.

Section routes.
Context {tables : UnicodeTables} {url : SkillText.UrlPackage} {digits : Recall.FloatFormat}.
Variables (sur : Surroundings) (opts : Options) (app : App) (dec : Decoders) (stack : nat) (page : string → string → Request → M State Response).
(** A request that is not for the console is for a route of the interface. *)
Lemma api_route req r : find_route (Routes sur opts app dec stack page) (Method req) (Path req) = Some r →
  for_console sur opts app dec stack page req = false → In r (api_routes sur app dec stack).
Proof.
  intros E Hc. unfold for_console in Hc. rewrite E in Hc. apply bool_decide_eq_false in Hc.
  apply find_route_in in E as [Hin _]. unfold Routes in Hin. apply in_app_or in Hin as [Hin|Hin]; [|done]. exfalso. apply Hc.
  destruct (Assistant.EnableWeb opts); [|destruct Hin]. apply list_elem_of_In, list_elem_of_fmap in Hin as ([m q] & -> & H). exact H.
Qed.
(** Without the web there is no console. *)
Lemma no_console req : Assistant.EnableWeb opts = false → for_console sur opts app dec stack page req = false.
Proof.
  intros Hw. unfold for_console, Routes. rewrite Hw. destruct (find_route _ _ _) as [r|] eqn:E; [|done].
  apply find_route_in in E as [Hin _]. change (In r (api_routes sur app dec stack)) in Hin. apply bool_decide_eq_false.
  assert (∀ r, In r (api_routes sur app dec stack) → (rt_Method r, Pattern r) ∉ web_patterns) as H; [|by apply H].
  apply List.Forall_forall. unfold api_routes. repeat constructor; cbn [rt_Method Pattern]; apply (bool_decide_unpack (¬ _)); by vm_compute.
Qed.
End routes.

(** ** Reading requests *)

Section reading.
Context {tables : UnicodeTables} {url : SkillText.UrlPackage} {digits : Recall.FloatFormat}.
Variables (sur : Surroundings) (opts : Options) (app : App) (dec : Decoders) (stack : nat) (page : string → string → Request → M State Response).

Lemma reads_written status v : reads (writeJSON status v).
Proof. apply reads_ret. Qed.
Lemma reads_error status message : reads (writeError status message).
Proof. apply reads_ret. Qed.
Lemma reads_skill_list path error : reads (write_skills path error).
Proof. unfold write_skills. apply reads_bind; [apply reads_get|]. intros; apply reads_written. Qed.
Lemma reads_task_route req : Method req ≠ "POST" → reads (handleTaskRoute app dec req).
Proof.
  intros Hm. unfold handleTaskRoute. destruct (route_parts _ _) as [|id [|verb [|]]]; repeat case_decide; try apply reads_error; try (rewrite bool_decide_false by done; apply reads_error).
  apply reads_answer, reads_runtime, reads_GetTask.
Qed.
Lemma reads_approval_route req : Method req ≠ "POST" → reads (handleApprovalRoute app dec req).
Proof.
  intros Hm. unfold handleApprovalRoute. destruct (route_parts _ _) as [|id [|verb [|]]]; repeat case_decide; try apply reads_error; try (rewrite bool_decide_false by done; apply reads_error).
  apply reads_answer, reads_approvals, reads_Get.
Qed.
Lemma routes_read r req : In r (api_routes sur app dec stack) → rt_Method r = "GET" → Method req ≠ "POST" → reads (rt_Handler r req).
Proof.
  intros Hin Hr Hm. unfold api_routes in Hin. cbn [In] in Hin.
  repeat (destruct Hin as [<-|Hin]); [..|done]; cbn [rt_Method] in Hr; try discriminate Hr; cbn [rt_Handler].
  - apply reads_written.
  - unfold handleMetrics. reads_tac; try solve [apply reads_written]; try (apply reads_catch; first [apply reads_runtime, reads_ListTasks|apply reads_actions]).
  - apply reads_answer, reads_runtime, reads_LoadState.
  - apply reads_skill_list.
  - apply reads_written.
  - apply reads_answer, reads_runtime, reads_ListTasks.
  - by apply reads_task_route.
  - unfold handleGetAction. case_decide; [apply reads_error|]. apply reads_answer, reads_runner, reads_machine, reads_action.
  - unfold handleQuery. case_decide; [|case_match; [|apply reads_error]]; (apply reads_bind; [apply reads_get|intros; apply reads_written]).
  - unfold handleRecall. case_match; [|apply reads_error]. apply reads_bind; [apply reads_get|intros]. apply reads_bind; [apply reads_lift|intros; apply reads_written].
  - apply reads_answer, reads_Messages.
  - apply reads_answer, reads_approvals, reads_List.
  - by apply reads_approval_route.
Qed.

(** C38. Reading changes nothing.  A [GET] or [HEAD] request, to any path and with
    any query, unless it is answered by a page of the web console, leaves the
    tasks, the memory, the skills, the actions, the approvals and the
    conversations as they are, reads no clock, and touches no file.  With the
    console switched off this is every such request. *)
Theorem reading_requests_inert req s w :
  Method req ∈ ["GET"; "HEAD"] → (for_console sur opts app dec stack page req = false ∨ Assistant.EnableWeb opts = false) →
  ∃ r, serve sur opts app dec stack page req s w = (r, s, w).
Proof.
  intros Hm Hw. assert (for_console sur opts app dec stack page req = false) as Hc by (destruct Hw; [done|by apply no_console]).
  revert s w. change (reads (serve sur opts app dec stack page req)). unfold serve. destruct (negb _); [apply reads_ret|].
  destruct (find_route _ _ _) as [r|] eqn:E; [|apply reads_ret]. pose proof (api_route _ _ _ _ _ _ _ _ E Hc) as Hin. apply find_route_in in E as [_ Hr].
  destruct (redirected _ _ _ _ _ _ _ _ _); [apply reads_ret|].
  assert (Method req ≠ "POST") as Hp by (intros E; rewrite E in Hm; by apply elem_of_cons in Hm as [|[|[]%elem_of_nil]%elem_of_cons]).
  assert (rt_Method r = "GET") as Hg.
  { unfold route_matches in Hr. apply andb_true_iff in Hr as [[H|[H _]%andb_true_iff]%orb_true_iff _]; [|by apply bool_decide_eq_true in H].
    apply bool_decide_eq_true in H. rewrite <- H in Hm. apply elem_of_cons in Hm as [H'|[H'|[]%elem_of_nil]%elem_of_cons]; [done|].
    exfalso. clear -Hin H'. unfold api_routes in Hin. cbn [In] in Hin. repeat (destruct Hin as [<-|Hin]); [..|done]; discriminate H'. }
  apply reads_bind; [by apply routes_read|]. intros; apply reads_ret.
Qed.
End reading.

(** ** Answers *)

(** A success carries a document, an error its message. *)
Definition well_answered (r : Response) : Prop :=
  (Code r ∈ [StatusOK; StatusCreated] ∧ ∀ message, Sent r ≠ ErrorText message) ∨
  (Code r ∈ [StatusBadRequest; StatusForbidden; StatusNotFound; StatusConflict; StatusInternalServerError] ∧ ∃ message, Sent r = ErrorText message).

Section answers.
Context {tables : UnicodeTables} {url : SkillText.UrlPackage} {digits : Recall.FloatFormat}.
Variables (sur : Surroundings) (opts : Options) (app : App) (dec : Decoders) (stack : nat) (page : string → string → Request → M State Response).
Abbreviation good m := (yields well_answered m).
Abbreviation errors := [StatusBadRequest; StatusForbidden; StatusNotFound; StatusConflict; StatusInternalServerError].

Lemma good_error status message : status ∈ errors → good (writeError status message).
Proof. intros Hs. apply yields_ret. right. split; [exact Hs|by eexists]. Qed.
Lemma good_written status v : status ∈ [StatusOK; StatusCreated] → (∀ message, v ≠ ErrorText message) → good (writeJSON status v).
Proof. intros Hs Hv. apply yields_ret. by left. Qed.
Lemma status_of_error fallback cases err : fallback ∈ errors → Forall (λ c, c.2 ∈ errors) cases → status_of fallback cases err ∈ errors.
Proof.
  intros Hf Hc. unfold status_of. destruct (List.find _ _) as [[e st]|] eqn:E; [|done]. apply List.find_some in E as [Hin _].
  rewrite Forall_forall in Hc. apply (Hc (e, st)). by apply list_elem_of_In.
Qed.
Lemma good_answer {A} fallback cases success (doc : A → Payload) m : fallback ∈ errors → Forall (λ c, c.2 ∈ errors) cases →
  success ∈ [StatusOK; StatusCreated] → (∀ a message, doc a ≠ ErrorText message) → good (answer app fallback cases success doc m).
Proof.
  intros Hf Hc Hs Hd. unfold answer. apply yields_then. intros [a|e]; [by apply good_written|by apply good_error, status_of_error].
Qed.
Lemma good_body {A} (zero : A) d k : (∀ a, good (k a)) → good (with_body zero d k).
Proof. intros Hk. unfold with_body. destruct (decodeJSON zero d); [apply good_error; by left|apply Hk]. Qed.
Lemma good_skills path error : good (write_skills path error).
Proof. unfold write_skills. apply yields_then. intros s. apply good_written; [by left|done]. Qed.
Lemma good_action m : good (answer_action app m).
Proof.
  unfold answer_action. apply yields_then. intros [record [e|]]; [apply good_error, status_of_error|apply good_written; [right; by left|done]].
  - by repeat constructor.
  - by repeat constructor.
Qed.
Ltac in_list := solve [repeat constructor].
Ltac good_step :=
  match goal with
  | |- good (writeError _ _) => apply good_error; in_list
  | |- good (writeJSON _ _) => apply good_written; [in_list|done]
  | |- good (answer _ _ _ _ _ _) => apply good_answer; [in_list|in_list|in_list|done]
  | |- good (with_body _ _ _) => apply good_body; intros
  | |- good (write_skills _ _) => apply good_skills
  | |- good (answer_action _ _) => apply good_action
  | |- good (match ?x with _ => _ end) => destruct x
  | |- good (if ?x then _ else _) => destruct x
  | |- good (_ ≫= _) => apply yields_then; intros
  end.
Lemma run_status_error err message : run_status err message ∈ errors.
Proof. unfold run_status. destruct (_ || _); [in_list|]. apply status_of_error; in_list. Qed.
Lemma requeue_stopped_error id : yields (λ st, ∀ status message, st = Some (status, message) → status ∈ errors) (requeue_stopped app id).
Proof.
  unfold requeue_stopped. apply yields_then. intros [task|e]; [case_decide|].
  - apply yields_then. intros [t|e]; apply yields_ret; [done|]. intros st msg [= <- _]. in_list.
  - by apply yields_ret.
  - by apply yields_ret.
Qed.
Lemma good_run_task id req : good (handleRunTask app id req).
Proof.
  unfold handleRunTask. eapply yields_bind; [apply requeue_stopped_error|]. intros [[status message]|] H.
  - by apply good_error, (H status message).
  - apply yields_then. intros found. apply yields_then. intros [r|e]; [apply good_written; [in_list|done]|]. apply good_error, run_status_error.
Qed.
Lemma routes_answer r req : In r (api_routes sur app dec stack) → good (rt_Handler r req).
Proof.
  intros Hin. unfold api_routes in Hin. cbn [In] in Hin. repeat (destruct Hin as [<-|Hin]); [..|done]; cbn [rt_Handler].
  all: unfold handleHealth, handleMetrics, handleRuntimeState, handleListSkills, handleSkillSchema, handleReloadSkills, handleSkillRoute,
    handleSkillManifestRoute, handleListTasks, handleCreateTask, handleTaskRoute, handleExecuteShell, handleExecuteFileRead,
    handleExecuteFileWrite, handleGetAction, handleCreateCard, handleUpdateCard, handleCreateEdge, handleQuery, handleRecall,
    handleListChatMessages, handleSendChatMessage, handleListApprovals, handleCreateRootApproval, handleApprovalRoute,
    handleApproveTask, handleDenyTask, handleApproveApproval, handleDenyApproval; cbv zeta.
  all: repeat good_step; apply good_run_task.
Qed.
(** Every answer of the interface is an outcome.  A request that is answered by
    a handler, not by a page of the console, gets a success status with a
    document or an error status with a message, never one with the other. *)
Theorem answers_are_outcomes req s w resp s' w' : for_console sur opts app dec stack page req = false →
  serve sur opts app dec stack page req s w = (Ok (Some resp), s', w') → well_answered resp.
Proof.
  intros Hc E. revert resp E. enough (yields (λ o, ∀ resp, o = Some resp → well_answered resp) (serve sur opts app dec stack page req)) as H
    by (intros resp E; by apply (yields_run _ _ _ _ _ _ _ H E)).
  unfold serve. destruct (negb _); [by apply yields_ret|]. destruct (find_route _ _ _) as [r|] eqn:E; [|by apply yields_ret].
  pose proof (api_route _ _ _ _ _ _ _ _ E Hc) as Hin. destruct (redirected _ _ _ _ _ _ _ _ _); [by apply yields_ret|].
  eapply yields_bind; [by apply routes_answer|]. intros a Ha. apply yields_ret. by intros resp [= <-].
Qed.
End answers.

(** ** Looking up a record *)

(** The first of the directories that has a file of the identifier decides. *)
Definition first_file {R} (statuses : list string) (id : string) (m : Dirs R) : option (File R) :=
  head (omap (λ status, m !! (status, fileName id)) statuses).
Lemma find_record_first {R : Type} `{DirRecord R} (nf : error) (statuses : list string) (id : string) (m : Dirs R) :
  match first_file statuses id m with
  | Some (Doc r) => ∃ p, find_record nf statuses id m = Ok (r, p)
  | Some Torn => find_record nf statuses id m = Err EJson
  | None => find_record nf statuses id m = Err nf
  end.
Proof.
  unfold first_file. induction statuses as [|st sts IH]; [done|]. cbn [find_record omap list_omap].
  destruct (m !! (st, fileName id)) as [[r|]|]; cbn; [by eexists|done|exact IH].
Qed.
(** The answer a lookup gets. *)
Definition lookup_answer {R} (app : App) (notFound : error) (doc : R → Payload) (f : option (File R)) : Response :=
  let text := SkillRunner.error_text (Assistant.app_runner app) in
  match f with
  | Some (Doc r) => mkResponse StatusOK (doc r)
  | Some Torn => mkResponse StatusInternalServerError (ErrorText (text EJson))
  | None => mkResponse StatusNotFound (ErrorText (text notFound))
  end.
Definition get_request (path : string) : Request := mkRequest "GET" path [] "".

Section paths.
Context {tables : UnicodeTables}.
Variables (kind id : string).
Hypothesis kind_proper : FsAccess.proper kind.
Hypothesis id_proper : FsAccess.proper id.
Abbreviation prefix := ("/" +:+ kind +:+ "/").
Lemma record_path : prefix +:+ id = FsAccess.render [kind; id].
Proof. unfold FsAccess.render, Join. cbn [String.concat]. by rewrite !string_app_assoc. Qed.
Lemma no_slash_left s : FsAccess.no_slash s = true → trim_left_byte "/" s = s.
Proof. destruct s as [|a r]; [done|]. cbn. intros [H _]%andb_true_iff. rewrite decide_False; [done|]. by apply negb_true_iff, bool_decide_eq_false in H. Qed.
Lemma no_slash_trim s : FsAccess.no_slash s = true → TrimByte s "/" = s.
Proof.
  intros Hs. unfold TrimByte. rewrite (no_slash_left s Hs), no_slash_left by (by rewrite FsAccess.no_slash_rev). apply string_rev_rev.
Qed.
Lemma no_slash_byte s : FsAccess.no_slash s = true → SkillText.has_byte "/" s = false.
Proof. induction s as [|a s IH]; [done|]. cbn. intros [H1 H2]%andb_true_iff. by rewrite (IH H2), orb_false_r, <- negb_true_iff. Qed.
Lemma no_slash_suffix s t : FsAccess.no_slash t = true → t ≠ "" → HasSuffix (s +:+ t) "/" = false.
Proof.
  intros Ht Hne. unfold HasSuffix. rewrite rev_app_distr. pose proof (FsAccess.no_slash_rev t) as H. rewrite Ht in H.
  destruct (String.rev t) as [|a r] eqn:E.
  - apply (f_equal String.rev) in E. rewrite string_rev_rev in E. by destruct (Hne E).
  - change (String.rev "/") with "/". rewrite string_cons_app. cbn [String.prefix]. cbn in H. destruct (ascii_dec "/" a) as [<-|]; [discriminate|reflexivity].
Qed.
Lemma record_prefix : TrimPrefix (prefix +:+ id) prefix = id.
Proof. unfold TrimPrefix. rewrite HasPrefix_app, <- (Nat.add_0_r (len prefix)). apply SkillSafety.drop_len. Qed.
Lemma record_name : TrimByte (TrimPrefix (prefix +:+ id) prefix) "/" = id.
Proof. rewrite record_prefix. apply no_slash_trim, id_proper. Qed.
Lemma record_parts : route_parts prefix (prefix +:+ id) = [id].
Proof. unfold route_parts. rewrite record_name. apply SkillText.SplitByte_single, no_slash_byte, id_proper. Qed.
Lemma record_clean : clean_path (prefix +:+ id) = prefix +:+ id.
Proof.
  unfold clean_path. assert (HasPrefix (prefix +:+ id) "/" = true) as ->.
  { rewrite <- string_app_assoc. apply HasPrefix_app. }
  rewrite no_slash_suffix by apply id_proper. cbn [andb].
  rewrite record_path, FsAccess.Clean_render, FsAccess.comps_render; [done|by rewrite !Forall_cons, Forall_nil|apply FsAccess.IsAbs_render].
Qed.
End paths.

(** Choosing a route looks at no handler. *)
#[local] Ltac forget_handlers :=
  repeat match goal with |- context [mkRoute _ _ ?h] => tryif is_var h then fail else (generalize h; intro) end.

#[local] Existing Instances Runtime.task_dir Execution.action_dir Approval.request_dir.

Section lookups.
Context {tables : UnicodeTables} {url : SkillText.UrlPackage} {digits : Recall.FloatFormat}.
Variables (sur : Surroundings) (opts : Options) (app : App) (dec : Decoders) (stack : nat) (page : string → string → Request → M State Response).
Abbreviation records s := (Assistant.exec_state (ChatService.machine (ChatService.backend s))).

Lemma find_task_route id : find_route (Routes sur opts app dec stack page) "GET" ("/tasks/" +:+ id) = Some (mkRoute "GET" "/tasks/" (handleTaskRoute app dec)).
Proof. unfold Routes, registerWebRoutes, api_routes, web_patterns. cbn [fmap list_fmap fst snd]. forget_handlers. by destruct (Assistant.EnableWeb opts), id. Qed.
Lemma find_action_route id : find_route (Routes sur opts app dec stack page) "GET" ("/actions/" +:+ id) = Some (mkRoute "GET" "/actions/" (handleGetAction app)).
Proof. unfold Routes, registerWebRoutes, api_routes, web_patterns. cbn [fmap list_fmap fst snd]. forget_handlers. by destruct (Assistant.EnableWeb opts), id. Qed.
Lemma find_approval_route method id : method = "GET" →
  find_route (Routes sur opts app dec stack page) method ("/approvals/" +:+ id) = Some (mkRoute "GET" "/approvals/" (handleApprovalRoute app dec)).
Proof. intros ->. unfold Routes, registerWebRoutes, api_routes, web_patterns. cbn [fmap list_fmap fst snd]. forget_handlers. by destruct (Assistant.EnableWeb opts), id. Qed.
Lemma serve_route req r : clean_path (Path req) = Path req → find_route (Routes sur opts app dec stack page) (Method req) (Path req) = Some r →
  redirected sur opts app dec stack page (Method req) (Path req) r = false →
  serve sur opts app dec stack page req = (resp ← rt_Handler r req; mret (Some resp)).
Proof. intros Hc Hr Hn. unfold serve. by rewrite Hc, bool_decide_true, Hr, Hn. Qed.
(** A path below a pattern with a slash stays there. *)
Lemma below_stays method pattern id r : pattern = Pattern r → id ≠ "" →
  find_route (Routes sur opts app dec stack page) method ((pattern +:+ id) +:+ "/") = Some r →
  redirected sur opts app dec stack page method (pattern +:+ id) r = false.
Proof.
  intros -> Hne E. unfold redirected. rewrite E, (bool_decide_false (Pattern r = (Pattern r +:+ id) +:+ "/")); [by rewrite andb_false_r|].
  intros E'. apply (f_equal len) in E'. rewrite !string_length_app in E'. destruct id; [done|]. cbn in E'. lia.
Qed.
(** An operation that reads one record, answered. *)
Lemma answer_find {R : Type} `{DirRecord R} (nf : error) (statuses : list string) (id : string) (m : Dirs R) (op : M State R) (doc : R → Payload) s w :
  op s w = (match find_record nf statuses id m with Ok (r, _) => Ok r | Err e => Err e end, s, w) → nf ≠ EPanic → nf ≠ EJson →
  answer app StatusInternalServerError [(nf, StatusNotFound)] StatusOK doc op s w = (Ok (lookup_answer app nf doc (first_file statuses id m)), s, w).
Proof.
  intros Hop Hp Hj. unfold answer, ChatService.catch. rewrite !bind_eq. unfold try. rewrite Hop. pose proof (find_record_first nf statuses id m) as Hf.
  destruct (first_file statuses id m) as [[r|]|].
  - by destruct Hf as [p ->].
  - rewrite Hf. unfold writeError, writeJSON, status_of. cbn. by rewrite bool_decide_false.
  - rewrite Hf. assert (status_of StatusInternalServerError [(nf, StatusNotFound)] nf = StatusNotFound) as Hs
      by (unfold status_of; cbn [List.find fst]; by rewrite bool_decide_true).
    destruct nf; try done; cbn -[status_of]; by rewrite ?Hs.
Qed.

(** C40. What is looked up is what is stored.  For the name of a task, an action or
    an approval, the answer is the record of the first status directory that
    has a file of that name, that there is none when no directory has one, and
    an internal error when that file cannot be decoded; nothing changes. *)
Theorem lookups_exact id s w : FsAccess.proper id →
  serve sur opts app dec stack page (get_request ("/tasks/" +:+ id)) s w
    = (Ok (Some (lookup_answer app ErrTaskNotFound TaskOf (first_file Runtime.find_states id (Runtime.task_files (ChatService.runtime (ChatService.backend s)))))), s, w) ∧
  serve sur opts app dec stack page (get_request ("/actions/" +:+ id)) s w
    = (Ok (Some (lookup_answer app ErrActionNotFound ActionOf (first_file Execution.action_statuses id (Execution.actions (records s))))), s, w) ∧
  serve sur opts app dec stack page (get_request ("/approvals/" +:+ id)) s w
    = (Ok (Some (lookup_answer app ErrApprovalNotFound ApprovalOf (first_file Approval.statuses id (Approval.files (Execution.approvals (records s)))))), s, w).
Proof.
  intros Hid. pose proof Hid as (Hne & _). split_and!.
  - rewrite (serve_route (get_request ("/tasks/" +:+ id)) _ (record_clean "tasks" id ltac:(done) Hid) (find_task_route id)
      (below_stays "GET" "/tasks/" id (mkRoute "GET" "/tasks/" (handleTaskRoute app dec)) eq_refl Hne (find_task_route (id +:+ "/")))). cbn [rt_Handler]. rewrite bind_eq.
    unfold handleTaskRoute. cbn [Path Method get_request]. change "/tasks/" with ("/" +:+ "tasks" +:+ "/") at 1 2. rewrite (record_parts "tasks" id) by done.
    unfold task_errors. cbv beta iota zeta. rewrite decide_False, decide_True by done. rewrite (answer_find ErrTaskNotFound Runtime.find_states id (Runtime.task_files (ChatService.runtime (ChatService.backend s)))); [done| |done|done].
    unfold ChatService.with_runtime, Runtime.GetTask, Runtime.findTaskLocked. run. destruct (find_record _ _ _ _) as [[r p]|e]; by destruct s as [? [] ? ?].
  - rewrite (serve_route (get_request ("/actions/" +:+ id)) _ (record_clean "actions" id ltac:(done) Hid) (find_action_route id)
      (below_stays "GET" "/actions/" id (mkRoute "GET" "/actions/" (handleGetAction app)) eq_refl Hne (find_action_route (id +:+ "/")))). cbn [rt_Handler]. rewrite bind_eq.
    unfold handleGetAction. cbn [Path Method get_request].
    assert (TrimByte (TrimPrefix ("/actions/" +:+ id) "/actions/") "/" = id) as -> by exact (record_name "actions" id Hid).
    cbv zeta. rewrite decide_False by done. rewrite (answer_find ErrActionNotFound Execution.action_statuses id (Execution.actions (records s))); [done| |done|done].
    unfold on_executor, Assistant.on_runner, SkillRunner.with_machine, Execution.Get, Execution.findLocked. run.
    cbn [SkillRunner.machine Assistant.to_runner]. destruct (find_record _ _ _ _) as [[r p]|e]; by destruct s as [? [? ? []] ? ?].
  - rewrite (serve_route (get_request ("/approvals/" +:+ id)) _ (record_clean "approvals" id ltac:(done) Hid) (find_approval_route "GET" id eq_refl)
      (below_stays "GET" "/approvals/" id (mkRoute "GET" "/approvals/" (handleApprovalRoute app dec)) eq_refl Hne (find_approval_route "GET" (id +:+ "/") eq_refl))). cbn [rt_Handler]. rewrite bind_eq.
    unfold handleApprovalRoute. cbn [Path Method get_request]. change "/approvals/" with ("/" +:+ "approvals" +:+ "/") at 1 2. rewrite (record_parts "approvals" id) by done.
    unfold task_errors. cbv beta iota zeta. rewrite decide_False, decide_True by done. rewrite (answer_find ErrApprovalNotFound Approval.statuses id (Approval.files (Execution.approvals (records s)))); [done| |done|done].
    unfold on_approvals, Assistant.on_runner, SkillRunner.with_approvals, SkillRunner.with_machine, Execution.with_approvals, Approval.Get, Approval.findLocked. run.
    cbn [SkillRunner.machine Assistant.to_runner]. destruct (find_record _ _ _ _) as [[r p]|e]; by destruct s as [? [? ? [? [? []] ?]] ? ?].
Qed.
End lookups.

(** ** An approval reaches its task *)

Section approval.
Context {tables : UnicodeTables} {url : SkillText.UrlPackage} {digits : Recall.FloatFormat}.
Variables (sur : Surroundings) (opts : Options) (app : App) (dec : Decoders) (stack : nat) (page : string → string → Request → M State Response).
Abbreviation records s := (Assistant.exec_state (ChatService.machine (ChatService.backend s))).
Abbreviation tasks s := (ChatService.runtime (ChatService.backend s)).

Lemma requeue_granted id trigger aid rt w t p st :
  reliable w → Runtime.sane_clock w → Runtime.tasks_inv rt → Runtime.find_task rt id = Ok (t, p) →
  Runtime.state_file rt !! tt = Some (Doc st) → Runtime.task_json_ok t = true → Runtime.State t ∈ Runtime.requeue_states →
  ∃ t' m rt' w', Runtime.RequeueTask id trigger (λ t, mret (granted aid t)) rt w = (Ok t', rt', w') ∧
    Runtime.State t' = Runtime.TaskStatePlanned ∧ Runtime.Metadata t' = Some m ∧ m !! "root_approval_id" = Some aid ∧ m !! "approval_token" = None ∧
    Runtime.task_files rt' !! (Runtime.TaskStatePlanned, fileName id) = Some (Doc (Runtime.task_norm t')).
Proof.
  intros Hw Hc Hs Hf Hst Hj Hq. destruct (Runtime.find_task_wf _ _ _ _ Hs Hf) as (Hl & -> & Hid).
  unfold Runtime.RequeueTask, Runtime.GetTask, Runtime.findTaskLocked, Runtime.LoadState, ReadJSON. run.
  change (find_record ErrTaskNotFound Runtime.find_states id (Runtime.task_files rt)) with (Runtime.find_task rt id).
  rewrite Hf. cbn [fst]. rewrite bool_decide_true by done. cbn [negb view Runtime.state_dir]. rewrite Hst.
  match goal with |- context [Runtime.MoveTask id Runtime.TaskStatePlanned ?f] => set (mut := f) end.
  assert (∀ rt1 w1, Runtime.task_files rt1 = Runtime.task_files rt → reliable w1 → Runtime.sane_clock w1 → ∃ t' m rt' w',
    Runtime.MoveTask id Runtime.TaskStatePlanned mut rt1 w1 = (Ok t', rt', w') ∧
    Runtime.State t' = Runtime.TaskStatePlanned ∧ Runtime.Metadata t' = Some m ∧ m !! "root_approval_id" = Some aid ∧ m !! "approval_token" = None ∧
    Runtime.task_files rt' !! (Runtime.TaskStatePlanned, fileName id) = Some (Doc (Runtime.task_norm t'))) as Hmove.
  { intros rt1 w1 Hsf Hw1 Hc1.
    assert (Runtime.find_task rt1 id = Ok (t, (Runtime.State t, fileName id))) as Hf1 by (unfold Runtime.find_task; by rewrite Hsf).
    set (t' := granted aid (Runtime.requeued (Runtime.State t) trigger (clock w1 (tick w1)) t)).
    assert (mut t rt1 w1 = (Ok t', rt1, advance w1)) as Hmut by done.
    assert (Runtime.TaskID t' = id) as Hid' by exact Hid.
    eexists _, _, _, _. split.
    { apply (Runtime.MoveTask_reliable _ _ _ _ _ _ _ _ _ Hf1 Hmut Hw1).
      unfold Runtime.task_json_ok in *. cbn. apply andb_true_iff in Hj as [-> _]. apply Hc1. }
    rewrite Hid'. cbn [Runtime.stamped Runtime.State Runtime.Metadata Runtime.task_files over Runtime.tasks_dir compose].
    split_and!; [done|reflexivity| | |by rewrite lookup_insert_eq].
    - apply lookup_insert_eq.
    - cbn. rewrite !lookup_insert_ne by done. by rewrite lookup_delete_ne, lookup_delete_eq by done. }
  case_decide as Hact; [|by apply Hmove].
  destruct (Runtime.SaveState_reliable (Runtime.idle st) rt w Hw (Hc _)) as (w1 & E & Hw1 & Hck). rewrite E.
  apply Hmove; [done|done|]. intros n. rewrite Hck. apply Hc.
Qed.

Definition approve_request (id body : string) : Request := mkRequest "POST" ("/approvals/" +:+ id +:+ "/approve") [] body.
Lemma approve_path id : "/approvals/" +:+ id +:+ "/approve" = FsAccess.render ["approvals"; id; "approve"].
Proof. done. Qed.
Lemma approve_clean id : FsAccess.proper id → clean_path ("/approvals/" +:+ id +:+ "/approve") = "/approvals/" +:+ id +:+ "/approve".
Proof.
  intros Hid. unfold clean_path. assert (HasPrefix ("/approvals/" +:+ id +:+ "/approve") "/" = true) as -> by apply (HasPrefix_app "/").
  assert (HasSuffix ("/approvals/" +:+ id +:+ "/approve") "/" = false) as ->.
  { change "/approve" with ("/" +:+ "approve"). rewrite !string_app_assoc. by apply no_slash_suffix. }
  rewrite approve_path, FsAccess.Clean_render, FsAccess.comps_render; [done|by rewrite !Forall_cons, Forall_nil|apply FsAccess.IsAbs_render].
Qed.
Lemma approve_parts id : FsAccess.proper id → route_parts "/approvals/" ("/approvals/" +:+ id +:+ "/approve") = [id; "approve"].
Proof.
  intros Hid. unfold route_parts. assert (TrimPrefix ("/approvals/" +:+ id +:+ "/approve") "/approvals/" = id +:+ "/approve") as ->
    by (unfold TrimPrefix; rewrite (HasPrefix_app "/approvals/"); apply (SkillSafety.drop_len "/approvals/" _ 0)).
  assert (TrimByte (id +:+ "/approve") "/" = id +:+ "/approve") as ->.
  { unfold TrimByte. destruct Hid as (Hne & Hns & _). assert (trim_left_byte "/" (id +:+ "/approve") = id +:+ "/approve") as ->.
    { destruct id as [|a id]; [done|]. rewrite string_cons_app. cbn in Hns |- *. apply andb_true_iff in Hns as [H _].
      rewrite decide_False; [done|]. by apply negb_true_iff, bool_decide_eq_false in H. }
    rewrite rev_app_distr. change (String.rev "/approve") with "evorppa/". change (trim_left_byte "/" ("evorppa/" +:+ String.rev id)) with ("evorppa/" +:+ String.rev id).
    change "evorppa/" with (String.rev "/approve"). by rewrite <- rev_app_distr, string_rev_rev. }
  change "/approve" with (String "/" "approve"). rewrite SkillText.SplitByte_app, SkillText.SplitByte_single by (apply no_slash_byte, Hid). done.
Qed.
Lemma approvals_route rest : bool_decide ("/approvals/" +:+ rest = "/approvals/root-actions") = false →
  find_route (Routes sur opts app dec stack page) "POST" ("/approvals/" +:+ rest) = Some (mkRoute "POST" "/approvals/" (handleApprovalRoute app dec)).
Proof.
  intros Hne. unfold find_route, Routes. rewrite List.filter_app.
  assert (List.filter (route_matches "POST" ("/approvals/" +:+ rest)) (if Assistant.EnableWeb opts then registerWebRoutes page else []) = []) as ->.
  { destruct (Assistant.EnableWeb opts); [|done]. unfold registerWebRoutes, web_patterns. cbn [fmap list_fmap fst snd]. forget_handlers. by destruct rest. }
  unfold api_routes. forget_handlers. rewrite List.app_nil_l.
  match goal with |- foldl _ _ (List.filter ?f ?l) = _ => change l with (take 24 l ++ [List.nth 24 l (mkRoute "" "" (λ _, mret (mkResponse 0 StatusOk)))] ++ drop 25 l) end.
  rewrite !List.filter_app. cbn [List.nth List.filter]. unfold route_matches at 2. cbn [rt_Method Pattern]. rewrite Hne, andb_false_r. by destruct rest.
Qed.
Lemma not_root_actions rest : HasSuffix rest "s" = false → bool_decide ("/approvals/" +:+ rest = "/approvals/root-actions") = false.
Proof.
  intros H. apply bool_decide_eq_false. intros E. assert (rest = "root-actions") as -> by (by injection E as E). discriminate H.
Qed.
Lemma approve_route id : find_route (Routes sur opts app dec stack page) "POST" ("/approvals/" +:+ id +:+ "/approve")
  = Some (mkRoute "POST" "/approvals/" (handleApprovalRoute app dec)).
Proof.
  apply approvals_route, not_root_actions. change "/approve" with ("/approv" +:+ "e"). rewrite string_app_assoc. unfold HasSuffix.
  by rewrite rev_app_distr.
Qed.
Lemma approve_stays id : redirected sur opts app dec stack page "POST" ("/approvals/" +:+ id +:+ "/approve") (mkRoute "POST" "/approvals/" (handleApprovalRoute app dec)) = false.
Proof.
  apply (below_stays sur opts app dec stack page "POST" "/approvals/" (id +:+ "/approve")); [done|by destruct id|].
  rewrite <- string_app_assoc. apply approvals_route, not_root_actions. unfold HasSuffix. by rewrite rev_app_distr.
Qed.

(** C37. An approval reaches its task.  On a working disk, approving a pending
    request over the interface answers with the approved request and its fresh
    token, stores it among the approved and not among the pending, and plans
    its task again (unless that is done, archived or still in the inbox) with
    the identifier of the approval, and without the token of an earlier one. *)
Theorem approval_reaches_task id body by_ s w r q b t p st :
  let a := Execution.approvals (records s) in
  let r' := Approval.approvedRequest r (HexEncode b) by_ (clock w (S (tick w))) (Approval.defaultTTL a) in
  reliable w → Runtime.sane_clock w → Runtime.tasks_inv (tasks s) → Approval.store_wf a → FsAccess.proper id →
  decodeJSON "" (approved_by_body dec body) = inr by_ → entropy w (tick w) = Some b → Approval.request_json_ok r' = true →
  find_record ErrApprovalNotFound Approval.statuses id (Approval.files a) = Ok (r, q) → Approval.Status r = Approval.StatusPending →
  Runtime.find_task (tasks s) (Approval.TaskID r) = Ok (t, p) → Runtime.State t ∈ Runtime.requeue_states →
  Runtime.state_file (tasks s) !! tt = Some (Doc st) → Runtime.task_json_ok t = true → Approval.TaskID r ≠ "" →
  ∃ t' m s' w', serve sur opts app dec stack page (approve_request id body) s w = (Ok (Some (mkResponse StatusOK (ApprovalOf r'))), s', w') ∧
    Approval.Status r' = Approval.StatusApproved ∧ Approval.ApprovalToken r' = HexEncode b ∧
    Approval.files (Execution.approvals (records s')) !! (Approval.StatusApproved, fileName id) = Some (Doc r') ∧
    Approval.files (Execution.approvals (records s')) !! (Approval.StatusPending, fileName id) = None ∧
    Runtime.task_files (tasks s') !! (Runtime.TaskStatePlanned, fileName (Approval.TaskID r)) = Some (Doc (Runtime.task_norm t')) ∧
    Runtime.State t' = Runtime.TaskStatePlanned ∧ Runtime.Metadata t' = Some m ∧ m !! "root_approval_id" = Some id ∧ m !! "approval_token" = None.
Proof.
  cbv zeta. intros Hw Hc Hinv Ha Hid Hbody Hb Hj Hr Hp Ht Hq Hst Htj Hne.
  pose proof (find_record_Ok _ _ _ _ _ _ Hr) as (Hl & _ & Hn). destruct q as [st0 n]. cbn in Hn. subst n.
  destruct (proj1 Ha _ _ _ Hl) as [Hst0 Hidr]. apply fileName_inj in Hidr. change (Approval.ApprovalID r = id) in Hidr. change (Approval.Status r = st0) in Hst0.
  pose proof (Approval.Approve_outcome id by_ (Execution.approvals (records s)) w Hw) as Hap. cbv zeta in Hap. rewrite Hr, decide_True, Hb in Hap by done.
  destruct Hap as [_ Hap]. specialize (Hap Hj).
  set (r' := Approval.approvedRequest r (HexEncode b) by_ (clock w (S (tick w))) (Approval.defaultTTL (Execution.approvals (records s)))) in *.
  set (w1 := advance (advance (advance (advance w)))) in *.
  destruct (requeue_granted (Approval.TaskID r) "approval_granted" id (tasks s) w1 t p st) as (t' & m & rt' & w2 & E & H1 & H2 & H3 & H4 & H5); try done.
  rewrite (serve_route sur opts app dec stack page (approve_request id body) _ (approve_clean id Hid) (approve_route id) (approve_stays id)).
  cbn [rt_Handler]. rewrite bind_eq. unfold handleApprovalRoute. cbn [Path Method approve_request]. rewrite approve_parts by done.
  cbv beta iota zeta. rewrite decide_False by apply Hid. rewrite bool_decide_true by done. cbn [negb]. rewrite decide_True by done.
  unfold handleApproveApproval, with_body. cbn [Body approve_request]. rewrite Hbody. unfold answer, ChatService.catch at 1. rewrite !bind_eq. unfold try at 1.
  unfold on_approvals, Assistant.on_runner, SkillRunner.with_approvals, SkillRunner.with_machine, Execution.with_approvals.
  rewrite !bind_eq. cbn [SkillRunner.machine Assistant.to_runner]. rewrite Hap. cbv beta iota.
  unfold for_task. change (Approval.TaskID r') with (Approval.TaskID r). change (Approval.ApprovalID r') with (Approval.ApprovalID r). rewrite Hidr.
  rewrite decide_False by done. unfold ChatService.catch, ChatService.with_runtime, try. rewrite !bind_eq. cbn [ChatService.backend ChatService.runtime Assistant.of_runner SkillRunner.stores MemScheduler.runtime].
  change (MemScheduler.runtime (SkillRunner.stores (Assistant.to_runner s))) with (tasks s). rewrite E. cbv beta iota.
  eexists t', m, _, _. split; [reflexivity|]. cbn. split_and!; try done.
  - by rewrite lookup_insert_eq.
  - rewrite lookup_insert_ne by done. rewrite <- Hst0, Hp. apply lookup_delete_eq.
Qed.
End approval.

(** ** A small server *)

#[local] Existing Instances GoStrings.caseless_tables SkillMemory.opaque_urls Recall.no_digits.

(** It understands who approves; no other body. *)
Definition demo_decoders : Decoders :=
  mkDecoders (λ _, Malformed "?") (λ _, Malformed "?") (λ _, Malformed "?") (λ body, if decide (body = "") then AtEOF else Value body) (λ _, AtEOF)
    (λ _, AtEOF) (λ _, AtEOF) (λ _, AtEOF) (λ _, AtEOF) (λ _, AtEOF) (λ _, AtEOF) (λ _, AtEOF) (λ _, AtEOF) (λ _, None).
Abbreviation demo_app := (Assistant.assembled Assistant.demo_surroundings Assistant.demo_options Assistant.demo_connectors).
(** A console without pages. *)
Definition no_pages : string → string → Request → M State Response := λ _ _ _, mret (mkResponse StatusOK (Page "")).
Abbreviation demo_serve := (serve Assistant.demo_surroundings Assistant.demo_options demo_app demo_decoders 3 no_pages).
Definition noon_world : World := mkWorld (λ _, Runtime.noon) (λ _, NoFault) (λ _, Some "centropy") 0.
Definition demand : Approval.CreateRequest := Approval.mkCreateRequest Runtime.busy_id "root" "shell" "restart the service" "chat" ∅.
Definition asking_state : State :=
  let s := Assistant.demo_state in
  ChatService.mkSystem (ChatService.chat s)
    (ChatService.mkBackend Runtime.busy_store MemoryStore.NewStore
      (Assistant.mkMachine ∅ (Execution.mkExecState ∅ (exec (Approval.Create demand) (Approval.NewStore 0) noon_world) ∅ [] [])
         (registry (ChatService.machine (ChatService.backend s))))) ∅ [].
Lemma asking_wf : Approval.store_wf (Execution.approvals (Assistant.exec_state (ChatService.machine (ChatService.backend asking_state)))).
Proof. exact (preserves_exec Approval.store_wf _ (Approval.NewStore 0) noon_world (Approval.Create_preserves demand) (Approval.NewApprovals_wf 0)). Qed.
Lemma noon_reliable : reliable noon_world.
Proof. intros n. reflexivity. Qed.

(** The interface with its console, a request to it, and one that is not. *)
Definition web_options : Options := Assistant.mkOptions " :9090 " "/var/mnemo" "/work" true.
Abbreviation web_serve := (serve Assistant.demo_surroundings web_options demo_app demo_decoders 3 no_pages).
Lemma reading_requests_inert_witness :
  for_console Assistant.demo_surroundings web_options demo_app demo_decoders 3 no_pages (get_request "/ui/chat") = true ∧
  ∃ r, web_serve (get_request "/tasks") asking_state noon_world = (r, asking_state, noon_world).
Proof.
  split; [vm_compute; reflexivity|].
  apply (reading_requests_inert Assistant.demo_surroundings web_options demo_app demo_decoders 3 no_pages (get_request "/tasks")); [left|].
  left. vm_compute. reflexivity.
Defined.
Lemma answers_are_outcomes_witness :
  ∃ resp, (demo_serve (get_request "/approvals") asking_state noon_world).1.1 = Ok (Some resp) ∧ well_answered resp.
Proof.
  destruct (demo_serve (get_request "/approvals") asking_state noon_world) as [[[[resp|]|e] s] w] eqn:E.
  - exists resp. split; [done|]. exact (answers_are_outcomes Assistant.demo_surroundings Assistant.demo_options demo_app demo_decoders 3 no_pages _ _ _ _ _ _ (no_console Assistant.demo_surroundings Assistant.demo_options demo_app demo_decoders 3 no_pages (get_request "/approvals") eq_refl) E).
  - exfalso. apply (f_equal (λ x, match x with (Ok None, _, _) => true | _ => false end)) in E. revert E. vm_compute. discriminate.
  - exfalso. apply (f_equal (λ x : result (option Response) * State * World, match x with (Err _, _, _) => true | _ => false end)) in E. revert E. vm_compute. discriminate.
Defined.
Lemma lookups_exact_witness :
  demo_serve (get_request "/tasks/task-1700000000000000000") asking_state noon_world
  = (Ok (Some (lookup_answer demo_app ErrTaskNotFound TaskOf
       (first_file Runtime.find_states Runtime.busy_id (Runtime.task_files Runtime.busy_store)))), asking_state, noon_world).
Proof. refine (proj1 (lookups_exact Assistant.demo_surroundings Assistant.demo_options demo_app demo_decoders 3 no_pages Runtime.busy_id asking_state noon_world _)). by vm_compute. Defined.
Definition busy_task : Runtime.Task :=
  match Runtime.find_task Runtime.busy_store Runtime.busy_id with Ok (t, _) => t | Err _ => Runtime.newTask no_task 0 end.
Lemma approval_reaches_task_witness :
  let r := Approval.newRequest demand Runtime.noon in
  ∃ s' w', demo_serve (approve_request (Approval.ApprovalID r) "alice") asking_state noon_world
    = (Ok (Some (mkResponse StatusOK (ApprovalOf (Approval.approvedRequest r (HexEncode "centropy") "alice" Runtime.noon (10 * Minute))))), s', w').
Proof.
  cbv zeta.
  edestruct (approval_reaches_task Assistant.demo_surroundings Assistant.demo_options demo_app demo_decoders 3 no_pages (Approval.ApprovalID (Approval.newRequest demand Runtime.noon))
    "alice" "alice" asking_state noon_world (Approval.newRequest demand Runtime.noon) (Approval.StatusPending, fileName (Approval.ApprovalID (Approval.newRequest demand Runtime.noon)))
    "centropy" busy_task (Runtime.TaskStateActive, fileName Runtime.busy_id)) as (t' & m & s' & w' & E & _); [..|exists s', w'; exact E].
  - exact noon_reliable.
  - intros n. by vm_compute.
  - exact Runtime.busy_store_inv.
  - exact asking_wf.
  - by vm_compute.
  - reflexivity.
  - reflexivity.
  - by vm_compute.
  - by vm_compute.
  - reflexivity.
  - by vm_compute.
  - vm_compute. repeat constructor.
  - by vm_compute.
  - by vm_compute.
  - done.
Defined.
