(* ===== verification/GoStruct.v ===== *)
(** * encoding/json into Go structs

    [json.Unmarshal] for the types the model gateway decodes: structs, slices,
    pointers, strings, [int]s and raw messages.  A value is read as its text,
    which is what [json.RawMessage] keeps; [None] is an [UnmarshalTypeError],
    which the callers answer with an error whatever else was decoded.  Keys
    match up to case ([foldName]).  A slice is decoded from scratch: objects
    that give the key of a slice twice are not modelled. *)
From S2P Require Import Prelude GoStrings GoNum GoText GoJson.
Open Scope Z_scope.

(** ** The text of a value *)

(** The text of the value that [s] starts with, and what follows it. *)
Definition raw_value (s : string) : option (string * string) :=
  let s := skip_ws s in
  '(_, r) ← parse_value (decode_fuel s) s;
  Some (take_bytes (len s - len r) s, r).

Fixpoint raw_elements (fuel : nat) (s : string) : option (list string) :=
  match fuel with
  | O => None
  | S fuel =>
      '(v, r) ← raw_value s;
      match skip_ws r with
      | String "," r => cons v <$> raw_elements fuel r
      | String "]" _ => Some [v]
      | _ => None
      end
  end.
Fixpoint raw_members (fuel : nat) (s : string) : option (list (string * string)) :=
  match fuel with
  | O => None
  | S fuel =>
      match skip_ws s with
      | String _ r =>
          '(k, r) ← parse_string r;
          match skip_ws r with
          | String ":" r =>
              '(v, r) ← raw_value r;
              match skip_ws r with
              | String "," r => cons (k, v) <$> raw_members fuel r
              | String "}" _ => Some [(k, v)]
              | _ => None
              end
          | _ => None
          end
      | "" => None
      end
  end.

(** What kind of value a text is, with its parts. *)
Inductive Raw :=
  | RNull | RString (s : string) | RArray (l : list string) | RObject (m : list (string * string)) | ROther (text : string).
Definition raw_view (s : string) : Raw :=
  match s with
  | "" => ROther s
  | String c r =>
      if decide (s = "null") then RNull
      else if decide (c = byte 34) then
        match parse_string r with Some (t, _) => RString t | None => ROther s end
      else if decide (c = "["%char) then
        match skip_ws r with
        | String "]" _ => RArray []
        | _ => match raw_elements (len r) r with Some l => RArray l | None => ROther s end
        end
      else if decide (c = "{"%char) then
        match skip_ws r with
        | String "}" _ => RObject []
        | _ => match raw_members (len r) r with Some m => RObject m | None => ROther s end
        end
      else ROther s
  end.

(** ** Decoders *)

(** From the value so far and the text to the new value. *)
Definition Decoder (A : Type) : Type := A → string → option A.

Definition into_string : Decoder string := λ old raw,
  match raw_view raw with RNull => Some old | RString s => Some s | _ => None end.
(** [strconv.ParseInt(s, 10, 64)] on the text of a number *)
Definition into_int : Decoder Z := λ old raw,
  match raw_view raw with RNull => Some old | ROther s => Atoi s | _ => None end.
(** [RawMessage.UnmarshalJSON] *)
Definition into_raw : Decoder string := λ _ raw, Some raw.
Definition into_slice {A} (zero : A) (d : Decoder A) : Decoder (list A) := λ _ raw,
  match raw_view raw with
  | RNull => Some []
  | RArray l => mapM (d zero) l
  | _ => None
  end.
Definition into_pointer {A} (zero : A) (d : Decoder A) : Decoder (option A) := λ old raw,
  match raw_view raw with
  | RNull => Some None
  | _ => Some <$> d (default zero old) raw
  end.

(** the letters outside ASCII that fold to one inside: U+017F and U+212A *)
Definition kelvin : string := String (byte 226) (String (byte 132) (String (byte 170) "")).
Definition foldName (k : string) : string := map_bytes lower_byte (ReplaceAll (ReplaceAll k "ſ" "s") kelvin "k").
(** A field: its JSON name and the decoder of the struct that sets it. *)
Definition Field (A : Type) : Type := string * Decoder A.
Definition set_field {A B} (name : string) (get : A → B) (set : A → B → A) (d : Decoder B) : Field A :=
  (name, λ old raw, set old <$> d (get old) raw).
Fixpoint into_field {A} (fields : list (Field A)) (key : string) : Decoder A := λ old raw,
  match fields with
  | [] => Some old
  | (name, d) :: rest => if decide (foldName key = foldName name) then d old raw else into_field rest key old raw
  end.
Definition into_struct {A} (fields : list (Field A)) : Decoder A := λ old raw,
  match raw_view raw with
  | RNull => Some old
  | RObject m => foldl (λ acc kv, a ← acc; into_field fields kv.1 a kv.2) (Some old) m
  | _ => None
  end.

(** [json.Unmarshal(raw, &v)], [v] zero: the text is checked first. *)
Definition Unmarshal {A} (d : Decoder A) (zero : A) (raw : string) : option A :=
  _ ← decode raw; '(v, _) ← raw_value raw; d zero v.
(** [json.NewDecoder(r).Decode(&v)]: the first value of the text. *)
Definition DecodeFirst {A} (d : Decoder A) (zero : A) (raw : string) : option A :=
  '(v, _) ← raw_value raw; d zero v.

Example raw_sample : raw_view (dq "{'a' : [1, {'b':null}] , 'A':1.50}") = RObject [("a", dq "[1, {'b':null}]"); ("A", "1.50")].
Proof. vm_compute. reflexivity. Qed.
