(* ===== verification/ModelConfig.v ===== *)
(** * The configuration of the language model

    [model/runtime.go] up to the gateway ([Config], its normal form, the
    overlay of the environment, [ConfigStore]), [model/profiles.go]
    ([ProfileStore], named configurations) and [model/lasttest.go]
    ([LastTestStore]).  Each store owns one file; a file holds the decoded
    value or does not decode ([Torn]).  Directories are not tracked:
    [os.MkdirAll] succeeds or fails.  The message of an error is kept where
    the caller shows it ([validateConfig]). *)
From S2P Require Import Prelude GoStrings GoNum GoText FsAccess ChatText.
Open Scope Z_scope.

Definition ProfileConversation : string := "conversation".
Definition ProfileRouting : string := "routing".
Definition ProfileSkills : string := "skills".

Record ProfileConfig := mkProfile { Model : string; MaxTokens : Z; Temperature : float64 }.
Record Config := mkConfig {
  Provider : string; Preset : string; BaseURL : string; APIKey : string;
  Conversation : ProfileConfig; Routing : ProfileConfig; Skills : ProfileConfig }.
Definition no_profile : ProfileConfig := mkProfile "" 0 f0.
Definition no_config : Config := mkConfig "" "" "" "" no_profile no_profile no_profile.

(** What [json.MarshalIndent] accepts, and what [json.Unmarshal] reads back:
    [temperature] is omitted when it is zero. *)
Definition profile_json_ok (p : ProfileConfig) : bool := is_finite (Temperature p).
Definition profile_norm (p : ProfileConfig) : ProfileConfig := mkProfile (Model p) (MaxTokens p) (omit_zero (Temperature p)).
Definition config_json_ok (c : Config) : bool :=
  profile_json_ok (Conversation c) && profile_json_ok (Routing c) && profile_json_ok (Skills c).
Definition config_norm (c : Config) : Config :=
  mkConfig (Provider c) (Preset c) (BaseURL c) (APIKey c)
    (profile_norm (Conversation c)) (profile_norm (Routing c)) (profile_norm (Skills c)).

(** [os.MkdirAll] of a directory that is not tracked *)
Definition MkdirAll {S} : M S unit :=
  f ← io; match f with NoFault => mret tt | _ => throw EIO end.

Section config.
Context `{UnicodeTables}.

(** ** The normal form *)

Definition normalizeMaxTokens (value fallback : Z) : Z :=
  if value <=? 0 then fallback else if 8192 <? value then 8192 else value.
Definition normalizeTemperature (value fallback : float64) : float64 :=
  if flt value f0 then fallback
  else if flt (of_int 2) value then of_int 2
  else if feq value f0 then fallback
  else value.

(** The base URL and the model that a provider known by name defaults to. *)
Definition provider_defaults (provider : string) : option (string * string) :=
  if decide (provider = "deepseek") then Some ("https://api.deepseek.com", "deepseek-chat")
  else if decide (provider = "siliconflow") then Some ("https://api.siliconflow.cn/v1", "Qwen/Qwen2.5-7B-Instruct")
  else if decide (provider = "openai") then Some ("https://api.openai.com/v1", "gpt-4o-mini")
  else None.

(** [strings.TrimRight(strings.TrimSpace(u), "/")] *)
Definition trimURL (u : string) : string := TrimRightSet (TrimSpace u) ["/"%char].

Definition normalizeConfig (cfg : Config) : Config :=
  let provider := ToLower (TrimSpace (Provider cfg)) in
  let preset := ToLower (TrimSpace (Preset cfg)) in
  if decide (provider = "" ∨ provider = "none") then
    mkConfig "none" "" "" (APIKey cfg) no_profile no_profile no_profile
  else
    let url := trimURL (BaseURL cfg) in
    let name := TrimSpace (Model (Conversation cfg)) in
    let '(provider, url, name) :=
      match provider_defaults provider with
      | Some (defaultURL, defaultName) => (provider, firstNonEmpty [url; defaultURL], firstNonEmpty [name; defaultName])
      | None => ("openai-compatible", url, name)
      end in
    mkConfig provider preset url (APIKey cfg)
      (mkProfile name (normalizeMaxTokens (MaxTokens (Conversation cfg)) 1600)
        (normalizeTemperature (Temperature (Conversation cfg)) (lit 1 5)))
      (mkProfile (firstNonEmpty [TrimSpace (Model (Routing cfg)); name]) (normalizeMaxTokens (MaxTokens (Routing cfg)) 220) f0)
      (mkProfile (firstNonEmpty [TrimSpace (Model (Skills cfg)); name]) (normalizeMaxTokens (MaxTokens (Skills cfg)) 1200)
        (normalizeTemperature (Temperature (Skills cfg)) (lit 1 5))).

(** The message of the error, if there is one. *)
Definition validateConfig (cfg : Config) : option string :=
  let cfg := normalizeConfig cfg in
  if decide (Provider cfg = "none") then Some "model provider is not configured"
  else if decide (TrimSpace (APIKey cfg) = "") then Some "model API key is not configured"
  else if decide (TrimSpace (BaseURL cfg) = "") then Some "model base URL is not configured"
  else if decide (TrimSpace (Model (Conversation cfg)) = "") then Some "conversation model is not configured"
  else if decide (TrimSpace (Model (Routing cfg)) = "") then Some "routing model is not configured"
  else if decide (TrimSpace (Model (Skills cfg)) = "") then Some "skills model is not configured"
  else None.

Definition profile (c : Config) (name : string) : ProfileConfig :=
  let name := ToLower (TrimSpace name) in
  if decide (name = ProfileRouting) then Routing c
  else if decide (name = ProfileSkills) then Skills c
  else Conversation c.

(** ** The environment *)

Section environment.
Variable env : Env.
Definition variable (name : string) : string := TrimSpace (Getenv env name).

(** The prefix of the variables of a provider. *)
Definition provider_variables (provider : string) : option string :=
  if decide (provider = "deepseek") then Some "DEEPSEEK"
  else if decide (provider = "siliconflow") then Some "SILICONFLOW"
  else if decide (provider = "openai") then Some "OPENAI"
  else if decide (provider = "openai-compatible") then Some "OPENAI_COMPAT"
  else None.

Definition configFromEnv : Config :=
  let provider := ToLower (variable "MNEMOSYNE_MODEL_PROVIDER") in
  normalizeConfig
    match provider_variables provider with
    | Some pre =>
        let '(defaultURL, defaultName) := default ("", "") (provider_defaults provider) in
        let name := firstNonEmpty [variable "MNEMOSYNE_MODEL_NAME"; defaultName] in
        mkConfig provider "" (firstNonEmpty [variable (pre +:+ "_BASE_URL"); defaultURL]) (variable (pre +:+ "_API_KEY"))
          (mkProfile name 1600 (lit 1 5)) (mkProfile name 220 f0) (mkProfile name 1200 (lit 1 5))
    | None => mkConfig "none" "" "" "" (mkProfile "" 1600 (lit 1 5)) (mkProfile "" 220 f0) (mkProfile "" 1200 (lit 1 5))
    end.

Definition mergeProfileConfig (base overlay : ProfileConfig) : ProfileConfig :=
  mkProfile
    (if decide (TrimSpace (Model overlay) = "") then Model base else TrimSpace (Model overlay))
    (if 0 <? MaxTokens overlay then MaxTokens overlay else MaxTokens base)
    (if flt f0 (Temperature overlay) then Temperature overlay else Temperature base).

(** the three steps of [applyModelEnvOverlay]: the configuration of the
    environment, the variables of the provider, the name of the model *)
Definition overlay_config (cfg : Config) : Config :=
  let envCfg := configFromEnv in
  if decide (Provider envCfg = "none") then cfg else
  mkConfig (Provider envCfg) (firstNonEmpty [Preset envCfg; Preset cfg]) (firstNonEmpty [BaseURL envCfg; BaseURL cfg])
    (firstNonEmpty [APIKey envCfg; APIKey cfg])
    (mergeProfileConfig (Conversation cfg) (Conversation envCfg))
    (mergeProfileConfig (Routing cfg) (Routing envCfg))
    (mergeProfileConfig (Skills cfg) (Skills envCfg)).
Definition overlay_provider (cfg : Config) : Config :=
  match provider_variables (ToLower (TrimSpace (Provider cfg))) with
  | Some pre =>
      mkConfig (Provider cfg) (Preset cfg) (firstNonEmpty [variable (pre +:+ "_BASE_URL"); BaseURL cfg])
        (firstNonEmpty [variable (pre +:+ "_API_KEY"); APIKey cfg]) (Conversation cfg) (Routing cfg) (Skills cfg)
  | None => cfg
  end.
Definition overlay_name (cfg : Config) : Config :=
  let name := variable "MNEMOSYNE_MODEL_NAME" in
  if decide (name = "") then cfg else
  let rename p := mkProfile name (MaxTokens p) (Temperature p) in
  mkConfig (Provider cfg) (Preset cfg) (BaseURL cfg) (APIKey cfg)
    (rename (Conversation cfg)) (rename (Routing cfg)) (rename (Skills cfg)).
Definition applyModelEnvOverlay (cfg : Config) : Config :=
  normalizeConfig (overlay_name (overlay_provider (overlay_config (normalizeConfig cfg)))).

(** ** The configuration store *)

Definition resolveModelConfigPath (runtimeRoot configPath : string) : string :=
  let configPath := TrimSpace configPath in
  if decide (configPath = "") then Join2 (Join2 runtimeRoot "model") "config.json"
  else if IsAbs configPath then configPath
  else Join2 runtimeRoot configPath.
End environment.

Record ConfigStore := mkConfigStore { path : string; persistSecrets : bool; cfg : Config }.
(** the store, [None] where the program holds [nil], and the files *)
Record State := mkState { store : option ConfigStore; files : gmap string (File Config) }.
Definition config_files : Lens State (gmap string (File Config)) :=
  mkLens files (λ f s, mkState (store s) (f (files s))).
Definition set_store (st : ConfigStore) (s : State) : State := mkState (Some st) (files s).

Definition Get (s : State) : Config := match store s with Some st => cfg st | None => no_config end.
Definition ConfigPath (s : State) : string := match store s with Some st => path st | None => "" end.
Definition PersistsSecrets (s : State) : bool := match store s with Some st => persistSecrets st | None => false end.

Definition without_key (c : Config) : Config :=
  mkConfig (Provider c) (Preset c) (BaseURL c) "" (Conversation c) (Routing c) (Skills c).
Definition diskConfig (st : ConfigStore) (c : Config) : Config := if persistSecrets st then c else without_key c.
Definition writeConfigFile (st : ConfigStore) (c : Config) : M State unit :=
  if config_json_ok (normalizeConfig c) then WriteFile config_files (path st) (config_norm (normalizeConfig c))
  else throw EJson.
Definition Save (c : Config) : M State unit :=
  s ← get;
  match store s with
  | None => throw ErrInvalidArgument
  | Some st =>
      let c := normalizeConfig c in
      _ ← writeConfigFile st (diskConfig st c);
      modify (set_store (mkConfigStore (path st) (persistSecrets st) c))
  end.

Definition NewConfigStoreAtPath (env : Env) (runtimeRoot configPath : string) : M State unit :=
  let explicitPath := bool_decide (TrimSpace configPath ≠ "") in
  let path := resolveModelConfigPath runtimeRoot configPath in
  _ ← MkdirAll;
  s ← get;
  match files s !! path with
  | Some (Doc c) => modify (set_store (mkConfigStore path explicitPath (applyModelEnvOverlay env (normalizeConfig c))))
  | Some Torn => throw EJson
  | None =>
      let st := mkConfigStore path explicitPath (applyModelEnvOverlay env (normalizeConfig (configFromEnv env))) in
      _ ← writeConfigFile st (diskConfig st (cfg st));
      modify (set_store st)
  end.
Definition NewConfigStore (env : Env) (runtimeRoot : string) : M State unit :=
  NewConfigStoreAtPath env runtimeRoot (TrimSpace (Getenv env "MNEMOSYNE_MODEL_CONFIG_PATH")).

(** ** Named profiles *)

Record profilesFile := mkProfilesFile { Version : Z; Profiles : option (gmap string Config) }.
Record ProfileStore := mkProfileStore { ps_path : string; data : profilesFile }.
Record PState := mkPState { pstore : option ProfileStore; pfiles : gmap string (File profilesFile) }.
Definition profile_files : Lens PState (gmap string (File profilesFile)) :=
  mkLens pfiles (λ f s, mkPState (pstore s) (f (pfiles s))).
Definition set_pstore (ps : ProfileStore) (s : PState) : PState := mkPState (Some ps) (pfiles s).
Definition profiles (ps : ProfileStore) : gmap string Config := default ∅ (Profiles (data ps)).

Definition profile_rune (r : Z) : bool :=
  ((97 <=? r) && (r <=? 122)) || ((65 <=? r) && (r <=? 90)) || ((48 <=? r) && (r <=? 57))
  || (r =? 45) || (r =? 95) || (r =? 46).
Definition sanitizeProfileName (name : string) : option string :=
  let name := TrimSpace name in
  if decide (name = "") then None
  else if (64 <? len name)%nat then None
  else if forallb profile_rune (runes name) then Some name else None.

Definition NewProfileStore (runtimeRoot : string) : M PState unit :=
  let path := Join2 (Join2 runtimeRoot "model") "profiles.json" in
  _ ← MkdirAll;
  s ← get;
  match pfiles s !! path with
  | Some (Doc d) => modify (set_pstore (mkProfileStore path (mkProfilesFile (Version d) (Some (default ∅ (Profiles d))))))
  | Some Torn => throw EJson
  | None => modify (set_pstore (mkProfileStore path (mkProfilesFile 1 (Some ∅))))
  end.
Definition ListNames (s : PState) : list string :=
  match pstore s with None => [] | Some ps => sort_strings (elements (dom (profiles ps))) end.
Definition GetProfile (s : PState) (name : string) : option Config :=
  ps ← pstore s; name ← sanitizeProfileName name; normalizeConfig <$> profiles ps !! name.

Definition data_norm (d : profilesFile) : profilesFile := mkProfilesFile (Version d) ((λ m : gmap string Config, config_norm <$> m) <$> Profiles d).
Definition data_json_ok (d : profilesFile) : bool :=
  bool_decide (map_Forall (λ _ c, config_json_ok c = true) (default ∅ (Profiles d))).
Definition persistLocked (ps : ProfileStore) : M PState unit :=
  if data_json_ok (data ps) then WriteFile profile_files (ps_path ps) (data_norm (data ps)) else throw EJson.
Definition SaveProfile (name : string) (c : Config) : M PState unit :=
  s ← get;
  match pstore s, sanitizeProfileName name with
  | Some ps, Some name =>
      let c := normalizeConfig c in
      match validateConfig c with
      | Some _ => throw ErrInvalidArgument
      | None =>
          if decide (Provider c = "none") then throw ErrInvalidArgument else
          let ps := mkProfileStore (ps_path ps) (mkProfilesFile 1 (Some (<[name := c]> (profiles ps)))) in
          _ ← modify (set_pstore ps);
          persistLocked ps
      end
  | _, _ => throw ErrInvalidArgument
  end.
Definition DeleteProfile (name : string) : M PState unit :=
  s ← get;
  match pstore s, sanitizeProfileName name with
  | Some ps, Some name =>
      let ps := mkProfileStore (ps_path ps) (mkProfilesFile (Version (data ps)) (delete name <$> Profiles (data ps))) in
      _ ← modify (set_pstore ps);
      persistLocked ps
  | _, _ => throw ErrInvalidArgument
  end.

(** ** The outcome of the last test *)

Record LastTestResult := mkLastTest {
  lt_Provider : string; lt_Model : string; Ok' : bool; AtUTC : Time; LatencyMs : Z; ReplyPreview : string;
  ToolCallsChecked : bool; ToolCallsSupported : bool; ToolCallsLatencyMs : Z; ToolCallsDetail : string; lt_Error : string }.
Record LastTestStore := mkLastTestStore { lt_path : string; lt_data : option LastTestResult }.
Record LState := mkLState { lstore : option LastTestStore; lfiles : gmap string (File LastTestResult) }.
Definition last_files : Lens LState (gmap string (File LastTestResult)) :=
  mkLens lfiles (λ f s, mkLState (lstore s) (f (lfiles s))).
Definition set_lstore (st : LastTestStore) (s : LState) : LState := mkLState (Some st) (lfiles s).

Definition NewLastTestStore (path : string) : M LState unit :=
  if decide (path = "") then modify (set_lstore (mkLastTestStore path None)) else
  _ ← try MkdirAll;
  s ← get;
  modify (set_lstore (mkLastTestStore path match lfiles s !! path with Some (Doc r) => Some r | _ => None end)).
Definition NewLastTestStoreBesideConfig (configPath : string) : M LState unit :=
  let configPath := Clean configPath in
  if decide (configPath = "" ∨ configPath = ".") then NewLastTestStore ""
  else NewLastTestStore (Join2 (Dir configPath) "last-test.json").
Definition GetLastTest (s : LState) : option LastTestResult := st ← lstore s; lt_data st.
Definition LastTestPath (s : LState) : string := match lstore s with Some st => lt_path st | None => "" end.
Definition stamped (res : LastTestResult) (at_ : Time) : LastTestResult :=
  mkLastTest (lt_Provider res) (lt_Model res) (Ok' res) at_ (LatencyMs res) (ReplyPreview res) (ToolCallsChecked res)
    (ToolCallsSupported res) (ToolCallsLatencyMs res) (ToolCallsDetail res) (lt_Error res).
Definition SaveLastTest (res : LastTestResult) : M LState unit :=
  s ← get;
  match lstore s with
  | None => mret tt
  | Some st =>
      at_ ← (if IsZero (AtUTC res) then now else mret (AtUTC res));
      let res := stamped res at_ in
      _ ← modify (set_lstore (mkLastTestStore (lt_path st) (Some res)));
      if decide (lt_path st = "") then mret tt
      else if json_time_ok (AtUTC res) then WriteFile last_files (lt_path st) res
      else throw EJson
  end.

(** ** Normal forms *)

Lemma TrimLeftSet_idemp s set : TrimLeftSet (TrimLeftSet s set) set = TrimLeftSet s set.
Proof. induction s as [|a s IH]; cbn; [done|]. case_decide as Ha; [done|]. cbn. by rewrite decide_False. Qed.
Lemma TrimRightSet_idemp s set : TrimRightSet (TrimRightSet s set) set = TrimRightSet s set.
Proof. unfold TrimRightSet. by rewrite string_rev_rev, TrimLeftSet_idemp. Qed.
Lemma firstNonEmpty_two a b : firstNonEmpty [a; b] = if decide (TrimSpace a = "") then TrimSpace b else TrimSpace a.
Proof. cbn. repeat case_bool_decide; case_decide; congruence. Qed.
(** Choosing again, with the same fallback, changes nothing. *)
Lemma firstNonEmpty_again a b : firstNonEmpty [TrimSpace (firstNonEmpty [a; b]); b] = firstNonEmpty [a; b].
Proof.
  rewrite firstNonEmpty_trimmed, !firstNonEmpty_two.
  destruct (decide (TrimSpace a = "")) as [Ha|Ha]; rewrite TrimSpace_idemp; [by case_decide|by rewrite decide_False].
Qed.
Lemma normalizeMaxTokens_bounds v fallback : 1 <= fallback <= 8192 → 1 <= normalizeMaxTokens v fallback <= 8192.
Proof. unfold normalizeMaxTokens. intros. destruct (v <=? 0) eqn:E1; [done|]. destruct (8192 <? v) eqn:E2; lia. Qed.
Lemma normalizeMaxTokens_idemp v fallback : 1 <= fallback <= 8192 →
  normalizeMaxTokens (normalizeMaxTokens v fallback) fallback = normalizeMaxTokens v fallback.
Proof.
  intros Hf. pose proof (normalizeMaxTokens_bounds v fallback Hf). unfold normalizeMaxTokens at 1.
  destruct (_ <=? 0) eqn:E1; [lia|]. by destruct (8192 <? _) eqn:E2; [lia|].
Qed.

(** A temperature the program would not replace. *)
Definition temperature_ok (t : float64) : Prop :=
  flt t f0 = false ∧ flt (of_int 2) t = false ∧ feq t f0 = false.
Lemma normalizeTemperature_ok v fallback : temperature_ok fallback → temperature_ok (normalizeTemperature v fallback).
Proof.
  intros Hf. unfold normalizeTemperature. destruct (flt v f0) eqn:E1; [done|].
  destruct (flt (of_int 2) v) eqn:E2; [by split|]. by destruct (feq v f0) eqn:E3.
Qed.
Lemma normalizeTemperature_fixed v fallback : temperature_ok v → normalizeTemperature v fallback = v.
Proof. intros (H1 & H2 & H3). unfold normalizeTemperature. by rewrite H1, H2, H3. Qed.
Lemma fifth_ok : temperature_ok (lit 1 5). Proof. by split_and!; vm_compute. Qed.
Lemma temperature_ok_omit t : temperature_ok t → omit_zero t = t.
Proof. destruct t as [[]| | |]; [|done..]; by intros (_ & _ & ?). all: done. Qed.

Lemma ToLower_ascii s : is_ascii s = true → ToLower s = map_bytes lower_byte s.
Proof. unfold ToLower. by intros ->. Qed.
Definition provider_names : list string := ["deepseek"; "siliconflow"; "openai"; "openai-compatible"].
Lemma provider_name_fixed p : p ∈ provider_names → ToLower (TrimSpace p) = p.
Proof. intros Hp. unfold provider_names in Hp. repeat (apply elem_of_cons in Hp as [->|Hp]; [done|]). by apply elem_of_nil in Hp. Qed.
Lemma provider_defaults_known p d : provider_defaults p = Some d →
  p ∈ ["deepseek"; "siliconflow"; "openai"] ∧ TrimSpace d.1 = d.1 ∧ trimURL d.1 = d.1 ∧ d.1 ≠ "" ∧ TrimSpace d.2 = d.2 ∧ d.2 ≠ "".
Proof.
  unfold provider_defaults. repeat case_decide; intros [= <-]; subst; (split; [set_solver|]); by split_and!.
Qed.

(** What every normalized configuration satisfies: a known provider, bounded
    answers, temperatures the API accepts. *)
Definition profile_ok (p : ProfileConfig) : Prop :=
  1 <= MaxTokens p <= 8192 ∧ flt (Temperature p) f0 = false ∧ flt (of_int 2) (Temperature p) = false.
Definition inactive (key : string) : Config := mkConfig "none" "" "" key no_profile no_profile no_profile.
Definition config_ok (c : Config) : Prop :=
  c = inactive (APIKey c) ∨
  Provider c ∈ provider_names ∧ profile_ok (Conversation c) ∧ profile_ok (Routing c) ∧ profile_ok (Skills c) ∧
  temperature_ok (Temperature (Conversation c)) ∧ Temperature (Routing c) = f0 ∧ temperature_ok (Temperature (Skills c)) ∧
  (Provider c ≠ "openai-compatible" → BaseURL c ≠ "" ∧
    Model (Conversation c) ≠ "" ∧ Model (Routing c) ≠ "" ∧ Model (Skills c) ≠ "").

Lemma firstNonEmpty_fallback a b : TrimSpace b ≠ "" → firstNonEmpty [a; b] ≠ "".
Proof. intros Hb. rewrite firstNonEmpty_two. by case_decide. Qed.
Lemma normal_profile_ok m v fallback t : 1 <= fallback <= 8192 →
  flt t f0 = false → flt (of_int 2) t = false → profile_ok (mkProfile m (normalizeMaxTokens v fallback) t).
Proof. intros Hf H1 H2. split_and!; [by apply normalizeMaxTokens_bounds..|done|done]. Qed.
Lemma normal_temperature v : temperature_ok (normalizeTemperature v (lit 1 5)).
Proof. apply normalizeTemperature_ok, fifth_ok. Qed.
Lemma normalizeConfig_ok c : config_ok (normalizeConfig c).
Proof.
  unfold normalizeConfig. case_decide as Hp; [by left|]. right.
  pose proof (normal_temperature (Temperature (Conversation c))) as (T1 & T2 & T3).
  pose proof (normal_temperature (Temperature (Skills c))) as (T4 & T5 & T6).
  destruct (provider_defaults _) as [[u n]|] eqn:E; cbn [Provider Conversation Routing Skills BaseURL Model Temperature];
    (split; [|split; [by apply normal_profile_ok|]; split; [by apply normal_profile_ok|]; split; [by apply normal_profile_ok|];
      split; [done|]; split; [done|]; split; [done|]]).
  - apply provider_defaults_known in E as (Hk & _). unfold provider_names. set_solver.
  - apply provider_defaults_known in E as (_ & Hu & _ & Hu0 & Hn & Hn0). cbn [fst snd] in *. intros _.
    assert (firstNonEmpty [TrimSpace (Model (Conversation c)); n] ≠ "") as Hm by (apply firstNonEmpty_fallback; congruence).
    split_and!; [apply firstNonEmpty_fallback; congruence|done|..]; apply firstNonEmpty_fallback; by rewrite firstNonEmpty_trimmed.
  - unfold provider_names. set_solver.
  - by intros [].
Qed.

(** A configuration whose base URL and preset need no second trimming: any
    without blanks between the slashes that end the URL. *)
Definition settled (c : Config) : Prop :=
  TrimSpace (trimURL (BaseURL c)) = trimURL (BaseURL c) ∧
  ToLower (TrimSpace (ToLower (TrimSpace (Preset c)))) = ToLower (TrimSpace (Preset c)).
Lemma trimURL_settled u : TrimSpace (trimURL u) = trimURL u → trimURL (trimURL u) = trimURL u.
Proof. intros Hu. unfold trimURL at 1. rewrite Hu. apply TrimRightSet_idemp. Qed.
Lemma chosen_url u d : TrimSpace (trimURL u) = trimURL u → TrimSpace d = d → trimURL d = d → d ≠ "" →
  firstNonEmpty [trimURL (firstNonEmpty [trimURL u; d]); d] = firstNonEmpty [trimURL u; d].
Proof.
  intros Hu Hd Hd' Hd0. rewrite (firstNonEmpty_two (trimURL u)), Hu. case_decide as Hb.
  - by rewrite Hd, Hd', firstNonEmpty_two, Hd, decide_False.
  - by rewrite trimURL_settled, firstNonEmpty_two, Hu, decide_False.
Qed.
Lemma normalizeConfig_idemp c : settled c → normalizeConfig (normalizeConfig c) = normalizeConfig c.
Proof.
  intros [Hu Hpre]. unfold normalizeConfig at 2 3. case_decide as Hp; [done|].
  destruct (provider_defaults _) as [[u n]|] eqn:E.
  - pose proof (provider_defaults_known _ _ E) as (Hk & Hu1 & Hu2 & Hu0 & Hn & Hn0). cbn [fst snd] in *.
    unfold normalizeConfig. cbn [Provider Preset BaseURL APIKey Conversation Routing Skills Model MaxTokens Temperature].
    rewrite provider_name_fixed by (unfold provider_names; set_solver). rewrite decide_False, E by done.
    rewrite Hpre, chosen_url by done. rewrite !firstNonEmpty_again, !normalizeMaxTokens_idemp by lia.
    rewrite !(normalizeTemperature_fixed (normalizeTemperature _ _)) by apply normalizeTemperature_ok, fifth_ok. done.
  - unfold normalizeConfig. cbn [Provider Preset BaseURL APIKey Conversation Routing Skills Model MaxTokens Temperature].
    change (ToLower (TrimSpace "openai-compatible")) with "openai-compatible". rewrite decide_False by (by intros [|]).
    change (provider_defaults "openai-compatible") with (@None (string * string)).
    rewrite Hpre, trimURL_settled, !TrimSpace_idemp, !firstNonEmpty_again, !normalizeMaxTokens_idemp by (done || lia).
    rewrite !(normalizeTemperature_fixed (normalizeTemperature _ _)) by apply normalizeTemperature_ok, fifth_ok. done.
Qed.
Lemma config_norm_normal c : config_norm (normalizeConfig c) = normalizeConfig c.
Proof.
  destruct (normalizeConfig_ok c) as [->|(_ & _ & _ & _ & H1 & H2 & H3 & _)]; [done|].
  destruct (normalizeConfig c) as [? ? ? ? [] [] []]; cbn in *. unfold config_norm, profile_norm; cbn.
  by rewrite (temperature_ok_omit _ H1), (temperature_ok_omit _ H3), H2.
Qed.
Lemma settled_normal c : settled c → settled (normalizeConfig c).
Proof.
  intros [Hu Hpre]. unfold normalizeConfig. case_decide; [by split|].
  destruct (provider_defaults _) as [[u n]|] eqn:E; split; cbn [Preset BaseURL]; rewrite ?Hpre; try done.
  - apply provider_defaults_known in E as (_ & Hu1 & Hu2 & _). cbn [fst] in *.
    rewrite firstNonEmpty_two. case_decide; [by rewrite Hu1, Hu2|by rewrite Hu, trimURL_settled].
  - by rewrite trimURL_settled.
Qed.
Lemma normalizeConfig_norm c : normalizeConfig (config_norm c) = normalizeConfig c.
Proof.
  assert (∀ t fb, normalizeTemperature (omit_zero t) fb = normalizeTemperature t fb) as Ht by (by intros [[]| | |] fb).
  unfold normalizeConfig, config_norm, profile_norm.
  cbn [Provider Preset BaseURL APIKey Conversation Routing Skills Model MaxTokens Temperature]. by rewrite !Ht.
Qed.
Lemma normalizeConfig_key c : APIKey (normalizeConfig c) = APIKey c.
Proof. unfold normalizeConfig. case_decide; [done|]. by destruct (provider_defaults _) as [[]|]. Qed.
Lemma normalizeConfig_without_key c : normalizeConfig (without_key c) = without_key (normalizeConfig c).
Proof.
  unfold normalizeConfig, without_key. cbn [Provider Preset BaseURL APIKey Conversation Routing Skills].
  case_decide; [done|]. by destruct (provider_defaults _) as [[]|].
Qed.
Lemma normalizeConfig_disk st c : normalizeConfig (diskConfig st c) = diskConfig st (normalizeConfig c).
Proof. unfold diskConfig. destruct (persistSecrets st); [done|apply normalizeConfig_without_key]. Qed.

(** *** The file of a configuration *)

(** What a successful [writeConfigFile] leaves. *)
Lemma writeConfigFile_ok st c s w s' w' : writeConfigFile st c s w = (Ok tt, s', w') →
  s' = mkState (store s) (<[path st := Doc (normalizeConfig c)]> (files s)) ∧ w' = advance w.
Proof.
  unfold writeConfigFile. destruct (config_json_ok _); [|done]. unfold WriteFile. run.
  destruct (faults w (tick w)); cbn; [|done|done]. intros [= <- <-]. by rewrite config_norm_normal.
Qed.
Lemma writeConfigFile_files st c s w p : ∀ r s' w', writeConfigFile st c s w = (r, s', w') →
  store s' = store s ∧ (files s' !! p = files s !! p ∨ p = path st ∧ ∀ c', files s' !! p = Some (Doc c') → c' = normalizeConfig c).
Proof.
  intros r s' w'. unfold writeConfigFile. destruct (config_json_ok _); [|intros [= <- <- <-]; by split; [|left]].
  unfold WriteFile. run. destruct (faults w (tick w)); cbn; intros [= <- <- <-]; (split; [done|]); cbn [files config_files over]; [..].
  - destruct (decide (p = path st)) as [->|Hne]; [|left; by rewrite lookup_insert_ne].
    right. split; [done|]. rewrite lookup_insert_eq. intros c' [= <-]. apply config_norm_normal.
  - by left.
  - destruct (decide (p = path st)) as [->|Hne]; [|left; by rewrite lookup_insert_ne].
    right. split; [done|]. rewrite lookup_insert_eq. by intros c' [=].
Qed.

(** *** Histories of the store

    Openings (by this or another process of the program) and saves, each with
    any outcome of the file operations.  [p] is a path no explicit setting
    names, however it spells it. *)
Inductive step (p : string) (s : State) : State → Prop :=
  | step_open env runtimeRoot configPath w :
      (TrimSpace configPath ≠ "" → Abs env (resolveModelConfigPath runtimeRoot configPath) ≠ Abs env p) →
      step p s (exec (NewConfigStoreAtPath env runtimeRoot configPath) s w)
  | step_save c w : step p s (exec (Save c) s w).

Definition private (p : string) (s : State) : Prop :=
  (∀ c, files s !! p = Some (Doc c) → APIKey c = "") ∧
  (∀ st, store s = Some st → path st = p → persistSecrets st = false).
Definition store_ok (s : State) : Prop := ∀ st, store s = Some st → config_ok (cfg st).

Lemma written_private st c s w p r s' w' : private p s → (path st = p → persistSecrets st = false) →
  writeConfigFile st (diskConfig st c) s w = (r, s', w') → private p s'.
Proof.
  intros [Hf Hs] Hst E. destruct (writeConfigFile_files _ _ _ _ p _ _ _ E) as [Es [Ef|[-> Ef]]]; split; rewrite ?Es, ?Ef; try done.
  intros c' Hc'. rewrite (Ef _ Hc'), normalizeConfig_key. unfold diskConfig. by rewrite Hst.
Qed.
Lemma Save_private c p : preserves (private p) (Save c).
Proof.
  intros s w Hs. unfold Save. rewrite bind_eq. cbn [get]. destruct (store s) as [st|] eqn:Est; [|done].
  rewrite bind_eq. destruct (writeConfigFile _ _ _ _) as [[r s1] w1] eqn:E.
  pose proof (written_private _ _ _ _ p _ _ _ Hs (proj2 Hs _ Est) E) as [H1 H2].
  destruct r as [[]|e]; [|by split]. cbn. split; [exact H1|]. cbn. intros ? [= <-]. apply (proj2 Hs _ Est).
Qed.
Lemma open_private env root cp p : (TrimSpace cp ≠ "" → resolveModelConfigPath root cp ≠ p) →
  preserves (private p) (NewConfigStoreAtPath env root cp).
Proof.
  intros Hp s w Hs. unfold NewConfigStoreAtPath, MkdirAll. rewrite !bind_eq. cbn [io].
  destruct (faults w (tick w)); cbn [mret M_ret throw]; [|done|done].
  rewrite bind_eq. cbn [get].
  assert (resolveModelConfigPath root cp = p → bool_decide (TrimSpace cp ≠ "") = false) as Hpriv.
  { intros E. apply bool_decide_eq_false. intros H'. by apply Hp in H'. }
  destruct (files s !! _) as [[c|]|] eqn:E; [|done|].
  - cbn. split; [apply Hs|]. intros ? [= <-]. exact Hpriv.
  - rewrite bind_eq. destruct (writeConfigFile _ _ _ _) as [[r s1] w1] eqn:Ew.
    refine (_ (written_private _ _ _ _ p _ _ _ Hs _ Ew)); [intros [H1 H2]|exact Hpriv].
    destruct r as [[]|e]; [|by split]. cbn. split; [exact H1|]. intros ? [= <-]. exact Hpriv.
Qed.
Lemma Save_store_ok c : preserves store_ok (Save c).
Proof.
  intros s w Hs. unfold Save. rewrite bind_eq. cbn [get]. destruct (store s) as [st|] eqn:Est; [|done].
  rewrite bind_eq. destruct (writeConfigFile _ _ _ _) as [[r s1] w1] eqn:E.
  pose proof (writeConfigFile_files _ _ _ _ "" _ _ _ E) as [Es _].
  destruct r as [[]|e]; [|unfold store_ok; by rewrite Es]. cbn. intros ? [= <-]. apply normalizeConfig_ok.
Qed.
Lemma open_store_ok env root cp : preserves store_ok (NewConfigStoreAtPath env root cp).
Proof.
  intros s w Hs. unfold NewConfigStoreAtPath, MkdirAll. rewrite !bind_eq. cbn [io].
  destruct (faults w (tick w)); cbn [mret M_ret throw]; [|done|done]. rewrite bind_eq. cbn [get].
  destruct (files s !! _) as [[c|]|] eqn:E; [|done|].
  - cbn. intros ? [= <-]. apply normalizeConfig_ok.
  - rewrite bind_eq. destruct (writeConfigFile _ _ _ _) as [[r s1] w1] eqn:Ew.
    pose proof (writeConfigFile_files _ _ _ _ "" _ _ _ Ew) as [Es _].
    destruct r as [[]|e]; [|unfold store_ok; by rewrite Es]. cbn. intros ? [= <-]. apply normalizeConfig_ok.
Qed.

(** C36. Keys stay out of the default file.  Whatever is opened and saved, at this
    path and at others, and whatever fails, the file at a path that no explicit
    setting names holds no API key if it held none, even where the
    configuration in use has one; and the configuration in use is always
    inactive or one of a known provider, with every answer bounded by 8192
    tokens and temperatures the service accepts.  Symbolic links are not
    modelled: a setting names the file at its absolute path. *)
Theorem default_path_holds_no_key p s s' : rtc (step p) s s' → private p s → store_ok s →
  (∀ c, files s' !! p = Some (Doc c) → APIKey c = "") ∧ (∀ st, store s' = Some st → config_ok (cfg st)).
Proof.
  intros Hrtc Hs Hok. enough (private p s' ∧ store_ok s') as [[H1 _] H2] by done.
  induction Hrtc as [|s1 s2 s3 Hstep _ IH]; [done|].
  destruct Hstep as [env root cp w Hne|c w]; apply IH; apply preserves_exec; try done; try by (apply Save_private || apply Save_store_ok || apply open_store_ok).
  apply open_private. intros Hcp E. apply (Hne Hcp). by rewrite E.
Qed.

(** *** The environment *)

Definition quiet (env : Env) : Prop := ∀ name, TrimSpace (Getenv env name) = "".
Lemma quiet_config env : quiet env → configFromEnv env = inactive "".
Proof. intros Hq. unfold configFromEnv, variable. by rewrite Hq. Qed.
(** Without variables the overlay only trims. *)
Lemma quiet_overlay env c : quiet env → settled c → TrimSpace (APIKey c) = APIKey c →
  applyModelEnvOverlay env (normalizeConfig c) = normalizeConfig c.
Proof.
  intros Hq Hc Hk. unfold applyModelEnvOverlay. rewrite normalizeConfig_idemp by done.
  unfold overlay_config. rewrite quiet_config by done. rewrite decide_True by done.
  unfold overlay_name, variable. rewrite Hq. rewrite decide_True by done.
  unfold overlay_provider, variable. destruct (provider_variables _) as [pre|] eqn:Ep; [|by apply normalizeConfig_idemp].
  rewrite !firstNonEmpty_two, !Hq. rewrite (decide_True (P := TrimSpace "" = "")) by done.
  assert (TrimSpace (BaseURL (normalizeConfig c)) = BaseURL (normalizeConfig c)) as ->.
  { unfold normalizeConfig. case_decide; [done|].
    destruct (provider_defaults _) as [[u n]|]; cbn [BaseURL]; [apply firstNonEmpty_trimmed|apply Hc]. }
  rewrite normalizeConfig_key, Hk. transitivity (normalizeConfig (normalizeConfig c)); [f_equal|by apply normalizeConfig_idemp].
  rewrite <- (normalizeConfig_key c). by destruct (normalizeConfig c).
Qed.

Lemma settled_disk st c : settled c → settled (diskConfig st c).
Proof. unfold diskConfig. by destruct (persistSecrets st). Qed.
Lemma reopened_config env st c : quiet env → settled c → TrimSpace (APIKey c) = APIKey c →
  applyModelEnvOverlay env (normalizeConfig (normalizeConfig (diskConfig st (normalizeConfig c)))) = diskConfig st (normalizeConfig c).
Proof.
  intros Hq Hc Hk. pose proof (normalizeConfig_idemp _ (settled_disk st c Hc)) as E.
  rewrite <- normalizeConfig_disk, E, E.
  apply quiet_overlay; [done|by apply settled_disk|]. unfold diskConfig. by destruct (persistSecrets st).
Qed.

(** A saved configuration survives a restart: the file written by a successful
    save opens, in a process without configuration variables, as the
    configuration the gateway was using, with its key where the path was set
    explicitly and without it at the default path. *)
Theorem saved_configuration_reopens c st s w s1 w1 env runtimeRoot configPath w2 :
  store s = Some st → Save c s w = (Ok tt, s1, w1) →
  settled c → TrimSpace (APIKey c) = APIKey c →
  quiet env → resolveModelConfigPath runtimeRoot configPath = path st →
  bool_decide (TrimSpace configPath ≠ "") = persistSecrets st → faults w2 (tick w2) = NoFault →
  NewConfigStoreAtPath env runtimeRoot configPath (mkState None (files s1)) w2
  = (Ok tt, mkState (Some (mkConfigStore (path st) (persistSecrets st) (diskConfig st (Get s1)))) (files s1), advance w2).
Proof.
  intros Est Hsave Hc Hk Hq Hpath Hexp Hw. unfold Save in Hsave. rewrite bind_eq in Hsave. cbn [get] in Hsave.
  rewrite Est, bind_eq in Hsave. destruct (writeConfigFile _ _ _ _) as [[[[]|e] s'] w'] eqn:Ew; [|done].
  apply writeConfigFile_ok in Ew as [-> ->]. cbn in Hsave. injection Hsave as <- <-.
  unfold NewConfigStoreAtPath, MkdirAll. rewrite !bind_eq. cbn [io]. rewrite Hw. cbn [mret M_ret]. rewrite bind_eq. cbn [get files].
  rewrite Hpath, Hexp. cbn [set_store files]. rewrite lookup_insert_eq. cbn [modify set_store files Get store cfg].
  by rewrite (reopened_config env st c Hq Hc Hk).
Qed.

Lemma provider_variables_names p pre : provider_variables p = Some pre → p ∈ provider_names.
Proof. unfold provider_variables, provider_names. repeat case_decide; intros [=]; subst; set_solver. Qed.
Lemma provider_name_active p : p ∈ provider_names → ¬ (p = "" ∨ p = "none").
Proof. unfold provider_names. intros Hp [->| ->]; by apply (bool_decide_eq_true_2 _) in Hp. Qed.
Lemma normalizeConfig_provider c : ToLower (TrimSpace (Provider c)) ∈ provider_names →
  Provider (normalizeConfig c) = ToLower (TrimSpace (Provider c)).
Proof.
  intros Hp. unfold normalizeConfig. rewrite decide_False by (by apply provider_name_active).
  destruct (provider_defaults _) as [[u n]|] eqn:E; cbn [Provider]; [done|].
  revert E. unfold provider_defaults, provider_names in *. repeat (apply elem_of_cons in Hp as [->|Hp]; [done|]). by apply elem_of_nil in Hp.
Qed.
Lemma normalizeConfig_models c m : ToLower (TrimSpace (Provider c)) ∈ provider_names → m ≠ "" → TrimSpace m = m →
  Model (Conversation c) = m → Model (Routing c) = m → Model (Skills c) = m →
  Model (Conversation (normalizeConfig c)) = m ∧ Model (Routing (normalizeConfig c)) = m ∧ Model (Skills (normalizeConfig c)) = m.
Proof.
  intros Hp Hm Ht H1 H2 H3. unfold normalizeConfig. rewrite decide_False by (by apply provider_name_active).
  destruct (provider_defaults _) as [[u n]|]; cbn [Conversation Routing Skills Model];
    rewrite ?firstNonEmpty_two, ?H1, ?H2, ?H3, ?Ht, ?Ht, ?decide_False by done; done.
Qed.

(** The environment has the last word: the provider, key and model it names
    are the ones used, whatever is on disk. *)
Theorem environment_takes_precedence env c pre :
  provider_variables (ToLower (variable env "MNEMOSYNE_MODEL_PROVIDER")) = Some pre →
  variable env (pre +:+ "_API_KEY") ≠ "" → variable env "MNEMOSYNE_MODEL_NAME" ≠ "" →
  let c' := applyModelEnvOverlay env c in
  Provider c' = ToLower (variable env "MNEMOSYNE_MODEL_PROVIDER") ∧ APIKey c' = variable env (pre +:+ "_API_KEY") ∧
  Model (Conversation c') = variable env "MNEMOSYNE_MODEL_NAME" ∧ Model (Routing c') = variable env "MNEMOSYNE_MODEL_NAME" ∧
  Model (Skills c') = variable env "MNEMOSYNE_MODEL_NAME".
Proof.
  intros Hpre Hkey Hname c'. pose proof (provider_variables_names _ _ Hpre) as Hp.
  assert (Provider (configFromEnv env) = ToLower (variable env "MNEMOSYNE_MODEL_PROVIDER")) as Hprov.
  { unfold configFromEnv. rewrite Hpre. destruct (default _ _) as [u n].
    rewrite normalizeConfig_provider; cbn [Provider]; by rewrite (provider_name_fixed _ Hp). }
  assert (∀ n, TrimSpace (variable env n) = variable env n) as Hv by (intros; apply TrimSpace_idemp).
  unfold c', applyModelEnvOverlay. set (o := overlay_provider env _).
  assert (Provider o = ToLower (variable env "MNEMOSYNE_MODEL_PROVIDER") ∧ APIKey o = variable env (pre +:+ "_API_KEY")) as [Ho1 Ho2].
  { unfold o, overlay_provider, overlay_config. rewrite decide_False by (rewrite Hprov; intros E; by apply (provider_name_active _ Hp); right).
    cbn [Provider]. rewrite Hprov, (provider_name_fixed _ Hp), Hpre. cbn [Provider APIKey]. split; [done|].
    rewrite (firstNonEmpty_two (variable _ _)), Hv. by rewrite decide_False. }
  unfold overlay_name. rewrite decide_False by done. split; [|split].
  - rewrite normalizeConfig_provider; cbn [Provider]; rewrite Ho1; by rewrite (provider_name_fixed _ Hp).
  - by rewrite normalizeConfig_key.
  - apply normalizeConfig_models; cbn [Provider Conversation Routing Skills Model]; try done.
    by rewrite Ho1, (provider_name_fixed _ Hp).
Qed.

(** *** Named profiles *)

Definition reopened (s : PState) : PState := mkPState None (pfiles s).
Lemma persist_ok ps s w s' w' : persistLocked ps s w = (Ok tt, s', w') →
  s' = mkPState (pstore s) (<[ps_path ps := Doc (data_norm (data ps))]> (pfiles s)).
Proof.
  unfold persistLocked. destruct (data_json_ok _); [|done]. unfold WriteFile. run.
  by destruct (faults w (tick w)); cbn; [intros [= <- <-]|..].
Qed.
(** A file that holds the profiles of a store opens as these profiles. *)
Lemma reopen_profiles runtimeRoot ps s w n :
  Join2 (Join2 runtimeRoot "model") "profiles.json" = ps_path ps → faults w (tick w) = NoFault →
  pfiles s !! ps_path ps = Some (Doc (data_norm (data ps))) →
  ∃ s', NewProfileStore runtimeRoot (reopened s) w = (Ok tt, s', advance w) ∧
    GetProfile s' n = GetProfile (mkPState (Some ps) (pfiles s)) n ∧ ListNames s' = ListNames (mkPState (Some ps) (pfiles s)).
Proof.
  intros Hp Hw Hf. unfold NewProfileStore, MkdirAll. rewrite !bind_eq. cbn [io]. rewrite Hw. cbn [mret M_ret].
  rewrite bind_eq. cbn [get]. rewrite Hp. cbn [reopened pfiles]. rewrite Hf. eexists. split; [reflexivity|].
  unfold GetProfile, ListNames, set_pstore, profiles. cbn [pstore option_bind mbind data Profiles data_norm].
  split.
  - destruct (sanitizeProfileName n) as [m|]; [|done]. cbn.
    destruct (Profiles (data ps)) as [l|]; cbn; [|done]. rewrite lookup_fmap. destruct (l !! m); cbn; [|done]. by rewrite normalizeConfig_norm.
  - destruct (Profiles (data ps)) as [l|]; cbn; [|done]. by rewrite dom_fmap_L.
Qed.

(** A store whose profiles can be encoded is written. *)
Lemma persists ps s w : faults w (tick w) = NoFault → data_json_ok (data ps) = true → ∃ s' w', persistLocked ps s w = (Ok tt, s', w').
Proof. intros Hw Hj. unfold persistLocked. rewrite Hj. unfold WriteFile. run. rewrite Hw. cbn. by do 2 eexists. Qed.
Lemma valid_active c : validateConfig (normalizeConfig c) = None → Provider (normalizeConfig c) ≠ "none".
Proof.
  unfold validateConfig. intros Hv E. revert Hv. rewrite decide_True; [done|]. destruct (normalizeConfig c) as [p pre u k a b d]. cbn in E. subst p.
  reflexivity.
Qed.

(** What a profile store promises: after a successful operation a name looks
    up what a map updated the same way would hold, in this process and in one
    started later. *)
Definition looks_up (runtimeRoot : string) (s : PState) (f : string → option Config) : Prop :=
  (∀ n, GetProfile s n = f n) ∧
  ∀ w, faults w (tick w) = NoFault → ∀ n, ∃ s', NewProfileStore runtimeRoot (reopened s) w = (Ok tt, s', advance w) ∧ GetProfile s' n = f n.
Definition profile_path (runtimeRoot : string) : string := Join2 (Join2 runtimeRoot "model") "profiles.json".
Definition same_profile (name n : string) : bool :=
  match sanitizeProfileName name, sanitizeProfileName n with Some a, Some b => bool_decide (a = b) | _, _ => false end.

Lemma persisted_looks_up runtimeRoot ps s w s' w' f : ps_path ps = profile_path runtimeRoot →
  persistLocked ps (set_pstore ps s) w = (Ok tt, s', w') →
  (∀ n, (m ← sanitizeProfileName n; normalizeConfig <$> profiles ps !! m) = f n) → looks_up runtimeRoot s' f.
Proof.
  intros Hp E Hf. apply persist_ok in E. cbn in E. subst s'. split; [exact Hf|]. intros w2 Hw n.
  destruct (reopen_profiles runtimeRoot ps (mkPState (Some ps) (<[ps_path ps := Doc (data_norm (data ps))]> (pfiles s))) w2 n)
    as (s' & E & Hn & _); [by rewrite Hp|done|by cbn [pfiles]; rewrite lookup_insert_eq|]. exists s'. split; [exact E|]. rewrite Hn. apply Hf.
Qed.


(** *** The last test *)

(** A damaged or missing record of the last test never stops a start. *)
Theorem last_test_always_opens path s w : ∃ s' w', NewLastTestStore path s w = (Ok tt, s', w').
Proof.
  unfold NewLastTestStore. case_decide; [by do 2 eexists|]. unfold MkdirAll. run.
  destruct (faults w (tick w)); cbn; by do 2 eexists.
Qed.
End config.

(** ** Witnesses and counterexamples *)

Section examples.
#[local] Existing Instance caseless_tables.

Definition bare_env : Env := mkEnv (λ _, "") None "/tmp" "/" Some.
Definition deepseek_config : Config :=
  mkConfig "DeepSeek" "" "https://api.deepseek.com/" "sk-1" (mkProfile "" 0 f0) (mkProfile "" 9000 f1) (mkProfile "chat" 100 f1).
Definition opened_state : State := exec (NewConfigStoreAtPath bare_env "/r" "") (mkState None ∅) world0.
Definition saved_state : State := exec (Save deepseek_config) opened_state world0.
Definition default_path : string := "/r/model/config.json".

Lemma default_path_holds_no_key_witness :
  (∀ c, files saved_state !! default_path = Some (Doc c) → APIKey c = "") ∧ (∀ st, store saved_state = Some st → config_ok (cfg st)).
Proof.
  refine (default_path_holds_no_key default_path (mkState None ∅) saved_state _ _ _).
  - eapply rtc_l; [apply (step_open _ _ bare_env "/r" "" world0); by intros []|]. eapply rtc_once. apply (step_save _ _ deepseek_config world0).
  - by split.
  - by intros st [=].
Defined.
(** The file has no key, the configuration in use does. *)
Example key_in_memory_only : APIKey (Get saved_state) = "sk-1" ∧
  APIKey <$> (f ← files saved_state !! default_path; match f with Doc c => Some c | Torn => None end) = Some "".
Proof. by split; vm_compute. Qed.

Lemma saved_configuration_reopens_witness :
  NewConfigStoreAtPath bare_env "/r" "" (mkState None (files saved_state)) world0
  = (Ok tt, mkState (Some (mkConfigStore default_path false (without_key (normalizeConfig deepseek_config)))) (files saved_state), advance world0).
Proof.
  refine (saved_configuration_reopens deepseek_config
    (mkConfigStore default_path false (applyModelEnvOverlay bare_env (normalizeConfig (configFromEnv bare_env))))
    opened_state world0 saved_state (advance world0) bare_env "/r" "" world0 _ _ _ _ _ _ _ _); try reflexivity; by split.
Defined.

Definition set_env : Env := mkEnv (λ n,
  if decide (n = "MNEMOSYNE_MODEL_PROVIDER") then "OpenAI" else if decide (n = "OPENAI_API_KEY") then " sk-2 "
  else if decide (n = "MNEMOSYNE_MODEL_NAME") then "gpt-x" else "") None "/tmp" "/" Some.
Lemma environment_takes_precedence_witness :
  let c' := applyModelEnvOverlay set_env deepseek_config in
  Provider c' = "openai" ∧ APIKey c' = "sk-2" ∧ Model (Conversation c') = "gpt-x" ∧ Model (Routing c') = "gpt-x" ∧ Model (Skills c') = "gpt-x".
Proof. refine (environment_takes_precedence set_env deepseek_config "OPENAI" _ _ _); by vm_compute. Defined.

Definition no_profiles : PState := mkPState (Some (mkProfileStore "/r/model/profiles.json" (mkProfilesFile 1 (Some ∅)))) ∅.

(** A base URL that ends in slashes with a blank between them is written to
    the file otherwise than it is used: [Save] normalizes once, the file twice. *)
Definition odd_url : Config :=
  mkConfig "deepseek" "" "https://x/ /" "sk" (mkProfile "m" 1 f1) (mkProfile "m" 1 f1) (mkProfile "m" 1 f1).
Theorem file_and_memory_differ :
  let s := exec (Save odd_url) opened_state world0 in
  BaseURL (Get s) = "https://x/" ∧
  BaseURL <$> (f ← files s !! default_path; match f with Doc c => Some c | Torn => None end) = Some "https://x".
Proof. by split; vm_compute. Qed.

(** A write cut short by a full disk leaves a file that stops the next start,
    which the conversation and the last test survive. *)
Definition full_disk : World := mkWorld (clock world0) (λ _, FailTorn) (entropy world0) 0.
Theorem torn_configuration_stops_start :
  (Save deepseek_config opened_state full_disk).1.1 = Err EIO ∧
  (NewConfigStoreAtPath bare_env "/r" "" (mkState None (files (exec (Save deepseek_config) opened_state full_disk))) world0).1.1 = Err EJson.
Proof. by split; vm_compute. Qed.

(** A profile whose file could not be written is refused and kept: the error is
    returned, but the name is bound until the next start. *)
Theorem unwritten_profile_stays :
  (SaveProfile "work" deepseek_config no_profiles full_disk).1.1 = Err EIO ∧
  GetProfile (exec (SaveProfile "work" deepseek_config) no_profiles full_disk) "work" = Some (normalizeConfig (normalizeConfig deepseek_config)).
Proof. by split; vm_compute. Qed.
End examples.
