(* ===== verification/ModelGateway.v ===== *)
(** * The gateway to the language model

    [model/runtime.go] from [RuntimeGateway] on and the DeepSeek gateway of
    [model/text.go]: what is asked of the service, how its answers are
    decoded, whole or streamed, and what counts as an answer.  The HTTP client
    and the reader of the stream are parameters ([Wire]); [S] is the state of
    the caller, which its callback changes.  A call returns a response or the
    message of its error; a panic is [EPanic]. *)
From S2P Require Import Prelude GoStrings GoNum GoText GoJson GoStruct AgentLoop ModelConfig.
Open Scope Z_scope.

(** ** Requests and answers *)

Record TextRequest := mkTextRequest {
  SystemPrompt : string; UserPrompt : string; MaxTokens : Z; Temperature : float64; Profile : string;
  Tools : list ToolDefinition; Messages : list ChatMessage }.
Record TextResponse := mkTextResponse {
  resp_Provider : string; resp_Model : string; Text : string; ToolCalls : list ToolCall;
  InputTokens : Z; OutputTokens : Z; TotalTokens : Z; LatencyMillis : Z }.

Record Usage := mkUsage { PromptTokens : Z; CompletionTokens : Z; UsageTotal : Z }.
(** An answer of the service: [C] is the form of a content, [T] of a call.
    [completionResponse] and [streamChunk] have the same fields around the
    message, which the one calls [message] and the other [delta]. *)
Record Message (C T : Type) := mkMessage { Content : C; Calls : list T }.
Arguments mkMessage {C T} _ _.
Arguments Content {C T} _.
Arguments Calls {C T} _.
Record Api (C T : Type) := mkApi {
  api_Model : string; Choices : list (Message C T); api_Usage : Usage; api_Error : option string }.
Arguments mkApi {C T} _ _ _ _.
Arguments api_Model {C T} _.
Arguments Choices {C T} _.
Arguments api_Usage {C T} _.
Arguments api_Error {C T} _.
Definition no_usage : Usage := mkUsage 0 0 0.
Definition no_api {C T} : Api C T := mkApi "" [] no_usage None.

Record streamToolCallDelta := mkDelta { d_Index : Z; d_ID : string; d_Type : string; d_Name : string; d_Arguments : string }.
Abbreviation completionResponse := (Api string ToolCall).
Abbreviation streamChunk := (Api string streamToolCallDelta).

(** ** Their JSON *)

Definition into_function {A} (name : A → string) (args : A → string) (set : A → string → string → A) : Decoder A :=
  into_struct [set_field "name" name (λ a s, set a s (args a)) into_string;
    set_field "arguments" args (λ a s, set a (name a) s) into_string].
Definition into_ToolCall : Decoder ToolCall := into_struct [
  set_field "id" tc_ID (λ c s, mkToolCall s (tc_Type c) (fn_Name c) (fn_Arguments c)) into_string;
  set_field "type" tc_Type (λ c s, mkToolCall (tc_ID c) s (fn_Name c) (fn_Arguments c)) into_string;
  ("function", into_function fn_Name fn_Arguments (λ c n a, mkToolCall (tc_ID c) (tc_Type c) n a))].
Definition into_delta : Decoder streamToolCallDelta := into_struct [
  set_field "index" d_Index (λ d i, mkDelta i (d_ID d) (d_Type d) (d_Name d) (d_Arguments d)) into_int;
  set_field "id" d_ID (λ d s, mkDelta (d_Index d) s (d_Type d) (d_Name d) (d_Arguments d)) into_string;
  set_field "type" d_Type (λ d s, mkDelta (d_Index d) (d_ID d) s (d_Name d) (d_Arguments d)) into_string;
  ("function", into_function d_Name d_Arguments (λ d n a, mkDelta (d_Index d) (d_ID d) (d_Type d) n a))].
Definition into_usage : Decoder Usage := into_struct [
  set_field "prompt_tokens" PromptTokens (λ u n, mkUsage n (CompletionTokens u) (UsageTotal u)) into_int;
  set_field "completion_tokens" CompletionTokens (λ u n, mkUsage (PromptTokens u) n (UsageTotal u)) into_int;
  set_field "total_tokens" UsageTotal (λ u n, mkUsage (PromptTokens u) (CompletionTokens u) n) into_int].
Definition into_error : Decoder string := into_struct [set_field "message" id (λ _ s, s) into_string].

Section api.
Context {C T : Type} (empty : C).
(** the key of the message, the decoders of its fields and of the choices *)
Definition into_message (fields : list (Field (Message C T))) : Decoder (Message C T) := into_struct fields.
Definition into_api (key : string) (message : Decoder (Message C T)) (others : list (Field (Message C T))) : Decoder (Api C T) :=
  into_struct [
    set_field "model" api_Model (λ a s, mkApi s (Choices a) (api_Usage a) (api_Error a)) into_string;
    set_field "choices" Choices (λ a l, mkApi (api_Model a) l (api_Usage a) (api_Error a))
      (into_slice (mkMessage empty []) (into_struct ((key, message) :: others)));
    set_field "usage" api_Usage (λ a u, mkApi (api_Model a) (Choices a) u (api_Error a)) into_usage;
    set_field "error" api_Error (λ a e, mkApi (api_Model a) (Choices a) (api_Usage a) e) (into_pointer "" into_error)].
Definition content_field (d : Decoder C) : Field (Message C T) :=
  set_field "content" Content (λ m c, mkMessage c (Calls m)) d.
Definition calls_field (zero : T) (d : Decoder T) : Field (Message C T) :=
  set_field "tool_calls" Calls (λ m l, mkMessage (Content m) l) (into_slice zero d).
End api.

Definition decodeCompletion (raw : string) : option completionResponse :=
  Unmarshal (into_api "" "message" (into_message [content_field into_raw; calls_field (mkToolCall "" "" "" "") into_ToolCall]) []) no_api raw.
Definition decodeChunk (raw : string) : option streamChunk :=
  Unmarshal (into_api "" "delta" (into_message [content_field into_raw; calls_field (mkDelta 0 "" "" "" "") into_delta]) []) no_api raw.
(** [apiErr] *)
Definition decodeError (raw : string) : option (option string) :=
  Unmarshal (into_struct [set_field "error" id (λ _ e, e) (into_pointer "" into_error)]) None raw.
(** the structs of the DeepSeek gateway: contents are strings, calls ignored *)
Definition deepseek_message : Decoder (Message string ()) := into_message [content_field into_string].
Definition finish_reason : Field (Message string ()) := ("finish_reason", λ m raw, _ ← into_string "" raw; Some m).

(** ** Contents *)

Fixpoint extractTextFromAny (value : json) : string :=
  match value with
  | JStr s => s
  | JArr l => Join (filter (λ t, t ≠ "") ((λ v, TrimSpace (extractTextFromAny v)) <$> l)) newline
  | JObj m =>
      let texts := (λ p, (p.1, TrimSpace (extractTextFromAny p.2))) <$> m in
      let found := omap (λ key, snd <$> list_find (λ p, p.1 = key) texts) ["text"; "content"; "output_text"; "reasoning_content"] in
      default "" (head (filter (λ t, t ≠ "") (snd <$> found)))
  | _ => ""
  end.
Fixpoint extractDeltaTextFromAny (value : json) : string :=
  match value with
  | JStr s => s
  | JArr l => Join ((λ v, extractDeltaTextFromAny v) <$> l) ""
  | JObj m =>
      let texts := (λ p, (p.1, extractDeltaTextFromAny p.2)) <$> m in
      let found := omap (λ key, snd <$> list_find (λ p, p.1 = key) texts) ["text"; "content"; "output_text"; "reasoning_content"] in
      default "" (head (filter (λ t, t ≠ "") (snd <$> found)))
  | _ => ""
  end.
Definition normalizeAssistantTextContent (raw : string) : string :=
  if decide (raw = "") then "" else
  match decode raw with
  | Some (JStr t) => TrimSpace t
  | Some JNull => ""
  | Some (JArr l) => TrimSpace (extractTextFromAny (JArr l))
  | Some (JObj m) => TrimSpace (extractTextFromAny (JObj m))
  | _ => TrimSpace raw
  end.
Definition normalizeAssistantDeltaContent (raw : string) : string :=
  if decide (raw = "") then "" else
  match decode raw with
  | Some (JStr t) => t
  | Some JNull => ""
  | Some (JArr l) => extractDeltaTextFromAny (JArr l)
  | Some (JObj m) => extractDeltaTextFromAny (JObj m)
  | _ => raw
  end.

Definition previewTextBody (raw : string) (max : nat) : string :=
  let text := ReplaceAll (ReplaceAll (TrimSpace raw) newline " ") (String (byte 13) "") " " in
  if (len text <=? max)%nat then text
  else if (max <=? 3)%nat then take_bytes max text
  else take_bytes (max - 3) text +:+ "...".

Section gateway.
Context `{UnicodeTables} {S : Type}.

(** ** The wire *)

Record HttpRequest := mkHttpRequest { URL : string; Authorization : string; RequestBody : string }.
(** A reader of lines: the tokens [bufio.Scanner] yields, and what its [Err]
    says after so many of them. *)
Record Scanner := mkScanner { tokens : list string; ScanErr : nat → option string }.
(** what [io.ReadAll] reads of the body and the error it ends with, and the
    body as lines *)
Record HttpResponse := mkHttpResponse { StatusCode : Z; ReadAll : string * option string; Lines : Scanner }.
Record Wire := mkWire {
  NewRequest : string → option string; (** the error of [http.NewRequest] for a URL *)
  Do : HttpRequest → M S (string + HttpResponse);
  (** the messages of [json.Marshal], of [json.Unmarshal] and of [Decode], and [%q] *)
  marshal_error : json → string; json_error : string → string; decode_error : string → string; quoted : string → string }.
Variable wire : Wire.

(** ** What is asked *)

Definition tool_call_json (c : ToolCall) : json :=
  JObj [("id", JStr (tc_ID c)); ("type", JStr (tc_Type c));
    ("function", JObj [("name", JStr (fn_Name c)); ("arguments", JStr (fn_Arguments c))])].
Definition tool_json (t : ToolDefinition) : json :=
  JObj [("type", JStr "function");
    ("function", JObj ([("name", JStr (tool_Name t)); ("description", JStr (tool_Description t))]
      ++ match tool_Parameters t with JObj [] => [] | p => [("parameters", p)] end))].
Definition message_json (m : ChatMessage) : json :=
  JObj ((if decide (AgentLoop.Content m = "") then [] else [("content", JStr (AgentLoop.Content m))])
    ++ [("role", JStr (Role m))]
    ++ (if decide (ToolCallID m = "") then [] else [("tool_call_id", JStr (ToolCallID m))])
    ++ (match AgentLoop.ToolCalls m with [] => [] | calls => [("tool_calls", JArr (tool_call_json <$> calls))] end)).
Definition prompt_pair (req : TextRequest) : list json :=
  [JObj [("content", JStr (SystemPrompt req)); ("role", JStr "system")];
   JObj [("content", JStr (UserPrompt req)); ("role", JStr "user")]].
Definition buildMessages (req : TextRequest) : list json :=
  match Messages req with [] => prompt_pair req | ms => message_json <$> ms end.

Definition answer_limit (req : TextRequest) : Z := if MaxTokens req <=? 0 then 512 else MaxTokens req.
Definition payload (model : string) (messages : list json) (stream : bool) (req : TextRequest) (tools : list ToolDefinition) : json :=
  JObj ([("max_tokens", JNum (of_int (answer_limit req))); ("messages", JArr messages); ("model", JStr model);
    ("stream", JBool stream); ("temperature", JNum (Temperature req))]
    ++ match tools with [] => [] | ts => [("tools", JArr (tool_json <$> ts))] end).

Definition completionEndpoint (baseURL : string) : string :=
  let trimmed := trimURL baseURL in
  if decide (trimmed = "") then "/chat/completions"
  else if HasSuffix (ToLower trimmed) "/chat/completions" then trimmed
  else trimmed +:+ "/chat/completions".

(** Encode the payload and post it. *)
Definition post (url key : string) (body : json) : M S (string + (Time * HttpResponse)) :=
  match encode body with
  | None => mret (inl (marshal_error wire body))
  | Some text =>
      started ← now;
      match NewRequest wire url with
      | Some e => mret (inl e)
      | None =>
          r ← Do wire (mkHttpRequest url ("Bearer " +:+ key) text);
          mret match r with inl e => inl e | inr resp => inr (started, resp) end
      end
  end.
Definition elapsed (started : Time) : M S Z := finished ← now; mret (Z.quot (Sub finished started) Millisecond).

(** ** A whole answer *)

Definition api_error (r : option string) : option string :=
  match r with Some m => if decide (m = "") then None else Some m | None => None end.

Definition generateWithProfile (cfg : Config) (profile : ProfileConfig) (req : TextRequest) : M S (string + TextResponse) :=
  sent ← post (completionEndpoint (BaseURL cfg)) (APIKey cfg)
    (payload (Model profile) (buildMessages req) false req (Tools req));
  match sent with
  | inl e => mret (inl e)
  | inr (started, resp) =>
      match ReadAll resp with
      | (_, Some e) => mret (inl e)
      | (rawBody, None) =>
          match decodeCompletion rawBody with
          | None => mret (inl (Provider cfg +:+ " API returned a non-compatible response: " +:+ json_error wire rawBody
                              +:+ "; body=" +:+ previewTextBody rawBody 180))
          | Some raw =>
              if 400 <=? StatusCode resp then
                mret (inl match api_error (api_Error raw) with
                | Some m => Provider cfg +:+ " API error: " +:+ m
                | None => Provider cfg +:+ " API returned status " +:+ Itoa (StatusCode resp) +:+ ": " +:+ previewTextBody rawBody 180
                end)
              else
                match Choices raw with
                | [] => mret (inl (Provider cfg +:+ " API returned no choices"))
                | choice :: _ =>
                    let text := normalizeAssistantTextContent (Content choice) in
                    let toolCalls := Calls choice in
                    if decide (TrimSpace text = "" ∧ toolCalls = []) then
                      mret (inl (Provider cfg +:+ " API returned an empty message content"))
                    else
                      latency ← elapsed started;
                      mret (inr (mkTextResponse (Provider cfg) (firstNonEmpty [api_Model raw; Model profile]) (TrimSpace text)
                        toolCalls (PromptTokens (api_Usage raw)) (CompletionTokens (api_Usage raw)) (UsageTotal (api_Usage raw)) latency))
                end
          end
      end
  end.

(** ** A streamed answer *)

Record partialTC := mkPartial { p_ID : string; p_Type : string; p_Name : string; p_Args : string }.
Definition emptyTC : partialTC := mkPartial "" "" "" "".
Record Streamed := mkStreamed { builder : string; modelID : string; usage : Usage; partials : list partialTC }.

Definition keep (new old : string) : string := if decide (new = "") then old else new.
Definition extend (tc : streamToolCallDelta) (p : partialTC) : partialTC :=
  mkPartial (keep (d_ID tc) (p_ID p)) (keep (d_Type tc) (p_Type p)) (keep (d_Name tc) (p_Name p)) (p_Args p +:+ d_Arguments tc).
(** One delta of a call; an index below zero is out of range. *)
Definition add_delta (partials : list partialTC) (tc : streamToolCallDelta) : option (list partialTC) :=
  if d_Index tc <? 0 then None else
  let i := Z.to_nat (d_Index tc) in
  Some (alter (extend tc) i (partials ++ replicate (Datatypes.S i - length partials) emptyTC)).
Definition add_deltas (partials : list partialTC) (tcs : list streamToolCallDelta) : option (list partialTC) :=
  foldl (λ acc tc, ps ← acc; add_delta ps tc) (Some partials) tcs.
Definition finish_call (p : partialTC) : ToolCall :=
  mkToolCall (p_ID p) (firstNonEmpty [p_Type p; "function"]) (p_Name p) (p_Args p).

(** What a line of the stream is. *)
Inductive Event := Skip | Finished | Data (text : string).
Definition read_line (line : string) : Event :=
  let line := TrimSpace line in
  if decide (line = "") then Skip
  else if HasPrefix line "data:" then
    let eventData := TrimSpace (drop_bytes 5 line) in
    if decide (eventData = "[DONE]") then Finished else Data eventData
  else Skip.

(** One decoded chunk: the error that ends the stream, a panic, or the state
    and the delta for the callback. *)
Definition heard (chunk : streamChunk) (st : Streamed) : Streamed :=
  mkStreamed (builder st) (keep (api_Model chunk) (modelID st))
    (if 0 <? UsageTotal (api_Usage chunk) then api_Usage chunk else usage st) (partials st).
Definition onDelta : Type := option (string → M S (option string)).
Definition deliver (cb : onDelta) (delta : string) : M S (option string) :=
  match cb with None => mret None | Some f => f delta end.
Definition stream_chunk (cfg : Config) (cb : onDelta) (chunk : streamChunk) (st : Streamed) : M S (string + Streamed) :=
  match api_error (api_Error chunk) with
  | Some m => mret (inl (Provider cfg +:+ " API error: " +:+ m))
  | None =>
      let st := heard chunk st in
      match Choices chunk with
      | [] => mret (inr st)
      | choice :: _ =>
          match add_deltas (partials st) (Calls choice) with
          | None => throw EPanic
          | Some ps =>
              let delta := normalizeAssistantDeltaContent (Content choice) in
              let st := mkStreamed (builder st) (modelID st) (usage st) ps in
              if decide (delta = "") then mret (inr st) else
              let st := mkStreamed (builder st +:+ delta) (modelID st) (usage st) ps in
              e ← deliver cb delta;
              mret match e with Some e => inl e | None => inr st end
          end
      end
  end.
(** The loop over the lines; [n] counts the tokens read. *)
Fixpoint stream_loop (cfg : Config) (cb : onDelta) (lines : list string) (n : nat) (st : Streamed) : M S (string + (Streamed * nat)) :=
  match lines with
  | [] => mret (inr (st, n))
  | line :: rest =>
      match read_line line with
      | Skip => stream_loop cfg cb rest (Datatypes.S n) st
      | Finished => mret (inr (st, Datatypes.S n))
      | Data eventData =>
          match decodeChunk eventData with
          | None => mret (inl (Provider cfg +:+ " streamed a non-compatible event: " +:+ json_error wire eventData
                              +:+ "; body=" +:+ previewTextBody eventData 180))
          | Some chunk =>
              r ← stream_chunk cfg cb chunk st;
              match r with
              | inl e => mret (inl e)
              | inr st => stream_loop cfg cb rest (Datatypes.S n) st
              end
          end
      end
  end.

Definition streamWithProfile (cfg : Config) (profile : ProfileConfig) (req : TextRequest) (cb : onDelta) : M S (string + TextResponse) :=
  sent ← post (completionEndpoint (BaseURL cfg)) (APIKey cfg)
    (payload (Model profile) (buildMessages req) true req (Tools req));
  match sent with
  | inl e => mret (inl e)
  | inr (started, resp) =>
      if 400 <=? StatusCode resp then
        mret (inl match (decodeError (ReadAll resp).1 ≫= api_error) with
        | Some m => Provider cfg +:+ " API error: " +:+ m
        | None => Provider cfg +:+ " API returned status " +:+ Itoa (StatusCode resp)
        end)
      else
        r ← stream_loop cfg cb (tokens (Lines resp)) 0 (mkStreamed "" "" no_usage []);
        match r with
        | inl e => mret (inl e)
        | inr (st, n) =>
            match ScanErr (Lines resp) n with
            | Some e => mret (inl e)
            | None =>
                let toolCalls := finish_call <$> partials st in
                let text := TrimSpace (builder st) in
                if decide (text = "" ∧ toolCalls = []) then
                  mret (inl (Provider cfg +:+ " API returned no streamed content"))
                else
                  latency ← elapsed started;
                  mret (inr (mkTextResponse (Provider cfg) (firstNonEmpty [modelID st; Model profile]) text toolCalls
                    (PromptTokens (usage st)) (CompletionTokens (usage st)) (UsageTotal (usage st)) latency))
            end
        end
  end.

(** ** The gateway *)

Definition applyTemperature (requested configured : float64) : float64 :=
  if feq requested f0 then f0 else if flt f0 configured then configured else requested.
Definition with_limits (req : TextRequest) (max : Z) (t : float64) : TextRequest :=
  mkTextRequest (SystemPrompt req) (UserPrompt req) max t (Profile req) (Tools req) (Messages req).
Definition resolveRequest (cfg : Config) (req : TextRequest) : string + (ProfileConfig * TextRequest) :=
  let cfg := normalizeConfig cfg in
  match validateConfig cfg with
  | Some e => inl e
  | None =>
      let profile := ModelConfig.profile cfg (Profile req) in
      if decide (TrimSpace (Model profile) = "") then
        inl ("model profile " +:+ quoted wire (firstNonEmpty [Profile req; ProfileConversation]) +:+ " is not configured")
      else
        let limit := ModelConfig.MaxTokens profile in
        let max := if (0 <? limit) && ((MaxTokens req <=? 0) || (limit <? MaxTokens req)) then limit else MaxTokens req in
        inr (profile, with_limits req max (applyTemperature (Temperature req) (ModelConfig.Temperature profile)))
  end.

(** [cfg] is what the store holds, the zero configuration without a store. *)
Definition GenerateText (cfg : Config) (req : TextRequest) : M S (string + TextResponse) :=
  match resolveRequest cfg req with
  | inl e => mret (inl e)
  | inr (profile, req) => generateWithProfile cfg profile req
  end.
Definition StreamText (cfg : Config) (req : TextRequest) (cb : onDelta) : M S (string + TextResponse) :=
  match resolveRequest cfg req with
  | inl e => mret (inl e)
  | inr (profile, req) => streamWithProfile cfg profile req cb
  end.

Definition test_request : TextRequest :=
  mkTextRequest "Reply with exactly: model connection ok" "Test the model connection." 24 f0 ProfileRouting [] [].
Definition probe_request : TextRequest :=
  mkTextRequest "You are a concise assistant. When the user asks about the current time, you MUST call the provided tool instead of replying in plain text."
    "What is the current UTC time? Please call the tool to get it." 120 f0 ProfileRouting
    [mkToolDefinition "get_current_time" "Return the current UTC time as an ISO-8601 string."
      (JObj [("properties", JObj []); ("required", JArr []); ("type", JStr "object")])] [].
Definition tested (cfg : Config) (req : TextRequest) : M S (string + TextResponse) :=
  let cfg := normalizeConfig cfg in
  match validateConfig cfg with
  | Some e => mret (inl e)
  | None => GenerateText cfg req
  end.
Definition TestConfig (cfg : Config) : M S (string + TextResponse) := tested cfg test_request.
Definition TestToolCalls (cfg : Config) : M S (string + TextResponse) := tested cfg probe_request.

(** ** The DeepSeek gateway ([text.go]) *)

Record DeepSeekGateway := mkDeepSeek { baseURL : string; apiKey : string; model : string }.
Definition NewTextGatewayFromEnv (env : FsAccess.Env) : option DeepSeekGateway :=
  let provider := ToLower (variable env "MNEMOSYNE_MODEL_PROVIDER") in
  if decide (provider = "deepseek") then
    let apiKey := variable env "DEEPSEEK_API_KEY" in
    if decide (apiKey = "") then None else
    let baseURL := trimURL (FsAccess.Getenv env "DEEPSEEK_BASE_URL") in
    let modelName := variable env "MNEMOSYNE_MODEL_NAME" in
    Some (mkDeepSeek (if decide (baseURL = "") then "https://api.deepseek.com" else baseURL) apiKey
      (if decide (modelName = "") then "deepseek-chat" else modelName))
  else None.

Section deepseek.
Variable g : DeepSeekGateway.

Definition GenerateDeepSeek (req : TextRequest) : M S (string + TextResponse) :=
  sent ← post (baseURL g +:+ "/chat/completions") (apiKey g) (payload (model g) (prompt_pair req) false req []);
  match sent with
  | inl e => mret (inl e)
  | inr (started, resp) =>
      match DecodeFirst (into_api "" "message" deepseek_message []) no_api (ReadAll resp).1 with
      | None => mret (inl (decode_error wire (ReadAll resp).1))
      | Some raw =>
          if 400 <=? StatusCode resp then
            mret (inl match api_error (api_Error raw) with
            | Some m => "deepseek API error: " +:+ m
            | None => "deepseek API returned status " +:+ Itoa (StatusCode resp)
            end)
          else
            match Choices raw with
            | [] => mret (inl "deepseek API returned no choices")
            | choice :: _ =>
                latency ← elapsed started;
                mret (inr (mkTextResponse "deepseek" (firstNonEmpty [api_Model raw; model g]) (TrimSpace (Content choice)) []
                  (PromptTokens (api_Usage raw)) (CompletionTokens (api_Usage raw)) (UsageTotal (api_Usage raw)) latency))
            end
      end
  end.

Fixpoint deepseek_loop (cb : onDelta) (lines : list string) (n : nat) (st : Streamed) : M S (string + (Streamed * nat)) :=
  match lines with
  | [] => mret (inr (st, n))
  | line :: rest =>
      match read_line line with
      | Skip => deepseek_loop cb rest (Datatypes.S n) st
      | Finished => mret (inr (st, Datatypes.S n))
      | Data payload =>
          match Unmarshal (into_api "" "delta" deepseek_message [finish_reason]) no_api payload with
          | None => mret (inl (json_error wire payload))
          | Some chunk =>
              match api_error (api_Error chunk) with
              | Some m => mret (inl ("deepseek API error: " +:+ m))
              | None =>
                  let st := mkStreamed (builder st) (keep (api_Model chunk) (modelID st))
                    (if 0 <? UsageTotal (api_Usage chunk) then api_Usage chunk else usage st) [] in
                  match Choices chunk with
                  | [] => deepseek_loop cb rest (Datatypes.S n) st
                  | choice :: _ =>
                      let delta := Content choice in
                      if decide (delta = "") then deepseek_loop cb rest (Datatypes.S n) st else
                      e ← deliver cb delta;
                      match e with
                      | Some e => mret (inl e)
                      | None => deepseek_loop cb rest (Datatypes.S n) (mkStreamed (builder st +:+ delta) (modelID st) (usage st) [])
                      end
                  end
              end
          end
      end
  end.
Definition StreamDeepSeek (req : TextRequest) (cb : onDelta) : M S (string + TextResponse) :=
  sent ← post (baseURL g +:+ "/chat/completions") (apiKey g) (payload (model g) (prompt_pair req) true req []);
  match sent with
  | inl e => mret (inl e)
  | inr (started, resp) =>
      if 400 <=? StatusCode resp then
        mret (inl match (decodeError (ReadAll resp).1 ≫= api_error) with
        | Some m => "deepseek API error: " +:+ m
        | None => "deepseek API returned status " +:+ Itoa (StatusCode resp)
        end)
      else
        r ← deepseek_loop cb (tokens (Lines resp)) 0 (mkStreamed "" "" no_usage []);
        match r with
        | inl e => mret (inl e)
        | inr (st, n) =>
            match ScanErr (Lines resp) n with
            | Some e => mret (inl e)
            | None =>
                let text := TrimSpace (builder st) in
                if decide (text = "") then mret (inl "deepseek API returned no streamed content") else
                latency ← elapsed started;
                mret (inr (mkTextResponse "deepseek" (firstNonEmpty [modelID st; model g]) text []
                  (PromptTokens (usage st)) (CompletionTokens (usage st)) (UsageTotal (usage st)) latency))
            end
        end
  end.
End deepseek.
End gateway.
