(* ===== verification/DiffText.v ===== *)
(** * Texts up to layout and identifiers ([harness/diff.go], [harness/rollup.go])

    The normal forms under which reports are compared, and what they mean: two
    plain texts have one normal form exactly if they have the same paragraphs
    of lines of words, and the replacement of identifiers is what it is on the
    tokens of the text. *)
From S2P Require Import Prelude GoStrings GoNum GoText.
From S2P Require GoJson SkillText.
Import SkillText(has_byte, SplitByte_single, SplitByte_app).
Open Scope Z_scope.

(** ** Normal forms *)

Definition word_byte (a : ascii) : bool :=
  let n := bz a in
  ((48 <=? n) && (n <=? 57)) || ((65 <=? n) && (n <=? 90)) || ((97 <=? n) && (n <=? 122)) || (n =? 95).
Definition word_start (s : string) : bool := match s with String a _ => word_byte a | "" => false end.
(** The first of the alternatives [s] starts with, and what follows it. *)
Fixpoint strip_word (words : list string) (s : string) : option (string * string) :=
  match words with
  | [] => None
  | w :: rest => if HasPrefix s w then Some (w, drop_bytes (len w) s) else strip_word rest s
  end.
(** A regular expression that starts and ends at a word boundary: [m] matches
    it without the boundaries, and gives the replacement and what follows;
    [after] says whether the last byte was a word byte.  [fuel] bounds the
    bytes left. *)
Fixpoint replace_words (m : string → option (string * string)) (fuel : nat) (after : bool) (s : string) : string :=
  match fuel, s with
  | S fuel, String a r =>
      match (if after then None else m s) with
      | Some (new, rest) => if word_start rest then String a (replace_words m fuel (word_byte a) r)
                            else new +:+ replace_words m fuel true rest
      | None => String a (replace_words m fuel (word_byte a) r)
      end
  | _, _ => s
  end.
(** [(task|approval|action|browser|session)-[0-9]+] *)
Fixpoint skip_digits (s : string) : string :=
  match s with String a r => if (48 <=? bz a) && (bz a <=? 57) then skip_digits r else s | "" => "" end.
Definition match_entity (s : string) : option (string * string) :=
  '(word, rest) ← strip_word ["task"; "approval"; "action"; "browser"; "session"] s;
  if HasPrefix rest "-" then
    let digits := drop_bytes 1 rest in
    if decide (skip_digits digits = digits) then None else Some (word +:+ "-<id>", skip_digits digits)
  else None.
(** [recall (hit|card)] *)
Definition match_recall (s : string) : option (string * string) :=
  '(_, rest) ← strip_word ["recall hit"; "recall card"] s; Some ("recall result", rest).
(** The lines of a text, runs of blank ones as one. *)
Fixpoint squeeze (blank : bool) (lines : list string) : list string :=
  match lines with
  | [] => []
  | l :: rest =>
      let l := TrimSpace l in
      if decide (l = "") then if blank then squeeze true rest else "" :: squeeze true rest else l :: squeeze false rest
  end.
Definition normalizeArtifactContent (raw : string) : string * string :=
  if decide (raw = "") then ("empty", "") else
  match GoJson.decode raw ≫= GoJson.encode with
  | Some canonical => ("json", canonical)
  | None =>
      let text := ReplaceAll raw (String (byte 13) newline) newline in
      let lines := (λ l, Join (Fields l) " ") <$> SplitByte (byte 10) text in
      ("text", TrimSpace (Join (squeeze false lines) newline))
  end.

(** ** Words *)

(** No white space anywhere, and not empty. *)
Definition bare (s : string) : Prop := ∀ p q, s = p +:+ q → trimmed space2 space3 q.
Definition word (w : string) : Prop := w ≠ "" ∧ bare w.

Lemma trimmed_nil : trimmed space2 space3 "".
Proof. done. Qed.
Lemma app_snoc_inv p q s a : p +:+ q = s +:+ String a "" → q ≠ "" → ∃ q', q = q' +:+ String a "" ∧ s = p +:+ q'.
Proof.
  revert s. induction p as [|b p IH]; intros s; [change ("" +:+ q) with q; intros -> _; by exists s|]. rewrite string_cons_app. intros E Hq.
  destruct s as [|c s].
  - cbn in E. injection E as -> E. destruct p; [done|discriminate E].
  - rewrite string_cons_app in E. injection E as -> E. destruct (IH s E Hq) as (q' & -> & ->). by exists q'.
Qed.
Lemma rev_cons a s : String.rev (String a s) = String.rev s +:+ String a "".
Proof. change (String a s) with (String a "" +:+ s). by rewrite rev_app_distr. Qed.
Lemma fields_words_go n : ∀ s cur, (len s < n)%nat →
  (∀ p q, String.rev cur = p +:+ q → q ≠ "" → trimmed space2 space3 (q +:+ s)) → Forall word (fields_go cur s).
Proof.
  unfold len. induction n as [|n IH]; intros s cur Hn Hc; [lia|].
  assert (∀ k, Forall word k → Forall word (match cur with "" => k | _ => String.rev cur :: k end)) as Hflush.
  { intros k Hk. assert (cur ≠ "" → word (String.rev cur)) as Hw; [|destruct cur; [done|by constructor; [apply Hw|]]].
    intros Hne. split; [|intros p q E; destruct (decide (q = "")) as [->|Hq]; [done|by apply (trimmed_prefix _ _ q s), (Hc p)]].
    intros E. apply Hne. by rewrite <- (string_rev_rev cur), E. }
  assert (∀ r, (String.length r < n)%nat → Forall word (fields_go "" r)) as Hnext
    by (intros r Hr; apply IH; [done|]; intros p q E Hq; by destruct p, q).
  destruct s as [|a r]; [by apply Hflush|]. cbn in Hn.
  assert (trimmed space2 space3 (String a r) → Forall word (fields_go (String a cur) r)) as Hpush.
  { intros Ht. apply IH; [lia|]. intros p q E Hq. rewrite rev_cons in E. symmetry in E.
    destruct (app_snoc_inv p q _ _ E Hq) as (q' & -> & E'). rewrite <- string_app_assoc. change (String a "" +:+ r) with (String a r).
    destruct (decide (q' = "")) as [->|Hq']; [done|by apply (Hc p)]. }
  cbn [fields_go]. destruct (space1 a) eqn:E1; [apply Hflush, Hnext; lia|].
  destruct r as [|b r]; [by apply Hpush, trimmed_cons|]. cbn in Hn.
  destruct (space2 a b) eqn:E2; [apply Hflush, Hnext; lia|].
  destruct r as [|c r]; [by apply Hpush, trimmed_cons|]. cbn in Hn.
  destruct (space3 a b c) eqn:E3; [apply Hflush, Hnext; lia|by apply Hpush, trimmed_cons].
Qed.
Lemma Fields_words s : Forall word (Fields s).
Proof. apply (fields_words_go (S (len s))); [lia|]. intros p q E Hq. by destruct p, q. Qed.

(** A space and the end of a line. *)
Definition separator (a : ascii) : Prop := a = byte 32 ∨ a = byte 10.
Definition sep_first (s : string) : Prop := match s with "" => True | String a _ => separator a end.
Lemma separator_space a : separator a → space1 a = true.
Proof. by intros [->| ->]. Qed.
Lemma separator_spaces a b c : separator c → space2 a c = false ∧ space3 a b c = false ∧ space2 c a = false ∧ space3 c a b = false ∧ space3 a c b = false.
Proof.
  intros [->| ->]; unfold space2, space3; cbn [byte]; (split_and!; [..]).
  all: repeat match goal with |- context [nat_of_ascii (byte ?n)] => change (nat_of_ascii (byte n)) with n end.
  all: cbn [Nat.eqb Nat.leb andb orb]; repeat first [rewrite andb_false_r | rewrite orb_false_r | rewrite andb_false_l]; done.
Qed.
Lemma bare_not_sep w c : bare w → separator c → has_byte c w = false.
Proof.
  intros Hw Hc. destruct (has_byte c w) eqn:E; [exfalso|done].
  assert (∃ p q, w = p +:+ String c q) as (p & q & ->).
  { clear Hw. induction w as [|a w IH]; [done|]. cbn [has_byte] in E. destruct (decide (a = c)) as [->|Hne]; [by exists "", w|].
    rewrite bool_decide_false in E by done. destruct (IH E) as (p & q & ->). by exists (String a p), q. }
  pose proof (Hw p _ eq_refl) as [H _]%trimmed_cons. apply separator_space in Hc. congruence.
Qed.
(** A word before a separator starts with no white space, nor does one end
    with it after a separator. *)
Lemma word_edge_left w r : word w → sep_first r → trimmed space2 space3 (w +:+ r).
Proof.
  intros [Hne Hb] Hr. pose proof (Hb "" w eq_refl) as Ht.
  destruct w as [|a [|b [|c w]]]; [done| | |]; rewrite !string_cons_app; rewrite !trimmed_cons in *; destruct Ht as [H1 H2]; (split; [done|]).
  - destruct r as [|d r]; [done|]. cbn. cbn in Hr. pose proof (separator_spaces a a d Hr) as (? & _). split; [done|].
    destruct r as [|e r]; [done|]. by destruct (separator_spaces a e d Hr) as (_ & _ & _ & _ & ?).
  - split; [apply H2|]. destruct r as [|d r]; [done|]. cbn in *. by destruct (separator_spaces a b d Hr) as (_ & ? & _).
  - exact H2.
Qed.
Lemma word_edge_right w r : word w → sep_first r → trimmed (λ b a, space2 a b) (λ c b a, space3 a b c) (String.rev w +:+ r).
Proof.
  intros [Hne Hb] Hr. rewrite <- (string_rev_rev w) in Hb. assert (String.rev w ≠ "") as Hne'
    by (intros E; apply Hne; by rewrite <- (string_rev_rev w), E). clear Hne. revert Hne' Hb. generalize (String.rev w). clear w. intros v Hne Hb.
  destruct v as [|a v]; [done|]. rewrite string_cons_app, trimmed_cons. rewrite rev_cons in Hb.
  pose proof (Hb (String.rev v) (String a "") eq_refl) as [H1 _]%trimmed_cons. split; [done|].
  destruct v as [|b v].
  - destruct r as [|d r]; [done|]. cbn. cbn in Hr. split; [by destruct (separator_spaces a a d Hr) as (_ & _ & ? & _)|].
    destruct r as [|e r]; [done|]. by destruct (separator_spaces e a d Hr) as (_ & _ & _ & _ & ?).
  - rewrite string_cons_app. rewrite rev_cons in Hb.
    pose proof (Hb (String.rev v) (String b (String a ""))) as H2. rewrite <- string_app_assoc in H2. specialize (H2 eq_refl).
    apply trimmed_cons in H2 as [_ [H2 _]]. split; [done|]. destruct v as [|c v].
    + destruct r as [|d r]; [done|]. cbn in *. by destruct (separator_spaces b a d Hr) as (_ & _ & _ & ? & _).
    + rewrite string_cons_app. rewrite rev_cons in Hb.
      pose proof (Hb (String.rev v) (String c (String b (String a "")))) as H3. rewrite <- !string_app_assoc in H3. specialize (H3 eq_refl).
      by apply trimmed_cons in H3 as [_ [_ H3]].
Qed.

(** A text that starts and ends with a word. *)
Definition snug (t : string) : Prop :=
  (∃ w r, word w ∧ sep_first r ∧ t = w +:+ r) ∧ (∃ w r, word w ∧ sep_first r ∧ String.rev t = String.rev w +:+ r).
Lemma snug_word w : word w → snug w.
Proof. intros Hw. split; exists w, ""; by rewrite string_app_nil_r. Qed.
Lemma snug_nonempty t : snug t → t ≠ "".
Proof. intros [(w & r & [Hw _] & _ & ->) _] E. by destruct w. Qed.
Lemma snug_left t : snug t → TrimLeftSpace t = t.
Proof. intros [(w & r & Hw & Hr & ->) _]. by apply word_edge_left. Qed.
Lemma snug_trimmed t : snug t → TrimSpace t = t.
Proof.
  intros Ht. unfold TrimSpace. rewrite snug_left by done. destruct Ht as [_ (w & r & Hw & Hr & E)].
  unfold TrimRightSpace. rewrite E. pose proof (word_edge_right w r Hw Hr) as H. unfold trimmed in H. by rewrite H, <- E, string_rev_rev.
Qed.
Lemma string_rev_sep s c : String.rev (s +:+ String c "") = String c (String.rev s).
Proof. by rewrite rev_app_distr. Qed.
Lemma snug_join s m t : m ≠ "" → sep_first m → sep_first (String.rev m) → snug s → snug t → snug (s +:+ m +:+ t).
Proof.
  intros Hm H1 H2 [(w & r & Hw & Hr & ->) _] [_ (w' & r' & Hw' & Hr' & E)]. split.
  - exists w, (r +:+ m +:+ t). split_and!; [done| |by rewrite !string_app_assoc]. by destruct r, m.
  - exists w', (r' +:+ String.rev m +:+ String.rev (w +:+ r)). split_and!; [done| |].
    + destruct r'; [|done]. assert (String.rev m ≠ "") by (intros E'; apply Hm; by rewrite <- (string_rev_rev m), E'). by destruct (String.rev m).
    + by rewrite !rev_app_distr, E, <- !string_app_assoc.
Qed.
Lemma Join_two x y l sep : Join (x :: y :: l) sep = x +:+ sep +:+ Join (y :: l) sep.
Proof. done. Qed.
Lemma snug_Join l c : separator c → l ≠ [] → Forall snug l → snug (Join l (String c "")).
Proof.
  intros Hc. induction l as [|s l IH]; [done|]. intros _ [Hs Hl]%Forall_cons. destruct l as [|t l]; [done|].
  rewrite Join_two. apply snug_join; [done|exact Hc|exact Hc|done|]. by apply IH.
Qed.
(** Blank lines around are dropped. *)
Lemma snug_framed t p q : (p = "" ∨ p = newline) → (q = "" ∨ q = newline) → snug t → TrimSpace (p +:+ t +:+ q) = t.
Proof.
  intros Hp Hq Ht. unfold TrimSpace.
  assert (TrimLeftSpace (p +:+ t +:+ q) = TrimLeftSpace (t +:+ q)) as -> by by destruct Hp as [->| ->].
  assert (TrimLeftSpace (t +:+ q) = t +:+ q) as ->.
  { destruct Ht as [(w & r & Hw & Hr & ->) _]. rewrite <- string_app_assoc. apply word_edge_left; [done|].
    destruct r; [|done]. destruct Hq as [->| ->]; [done|by right]. }
  pose proof (snug_trimmed t Ht) as H. unfold TrimSpace in H. rewrite snug_left in H by done.
  destruct Hq as [->| ->]; [by rewrite string_app_nil_r|]. unfold TrimRightSpace in *. unfold newline. rewrite string_rev_sep. exact H.
Qed.

(** ** Paragraphs *)

Definition line : Type := list string.
(** A line joins the run of the next line, if that is not blank. *)
Definition join_run (l : line) (rest : list line) (ps : list (list line)) : list (list line) :=
  match rest, ps with (_ :: _) :: _, p :: ps => (l :: p) :: ps | _, _ => [l] :: ps end.
(** The lines of words that are not blank, in runs. *)
Fixpoint paragraphs (lines : list line) : list (list line) :=
  match lines with
  | [] => []
  | [] :: rest => paragraphs rest
  | l :: rest => join_run l rest (paragraphs rest)
  end.
(** The paragraphs of a text. *)
Definition layout (raw : string) : list (list line) :=
  paragraphs (Fields <$> SplitByte (byte 10) (ReplaceAll raw (String (byte 13) newline) newline)).

Definition show_line (l : line) : string := Join l " ".
Fixpoint show_lines (ps : list (list line)) : list string :=
  match ps with
  | [] => []
  | [p] => show_line <$> p
  | p :: rest => (show_line <$> p) ++ "" :: show_lines rest
  end.
Definition line_ok (l : line) : Prop := l ≠ [] ∧ Forall word l.
Definition paragraph_ok (p : list line) : Prop := p ≠ [] ∧ Forall line_ok p.

Lemma show_line_nil l : Forall word l → show_line l = "" ↔ l = [].
Proof.
  intros Hl. split; [|by intros ->]. destruct l as [|w l]; [done|]. apply Forall_cons in Hl as [[Hw _] _].
  destruct l; cbn; [done|]. by destruct w.
Qed.
Lemma show_line_snug l : line_ok l → snug (show_line l).
Proof.
  intros [Hne Hl]. apply (snug_Join l (byte 32)); [by left|done|]. eapply Forall_impl; [exact Hl|apply snug_word].
Qed.
Lemma show_line_trim l : Forall word l → TrimSpace (show_line l) = show_line l.
Proof. intros Hl. destruct l as [|w l]; [done|]. by apply snug_trimmed, show_line_snug. Qed.
Lemma paragraphs_ok ls : Forall (Forall word) ls → Forall paragraph_ok (paragraphs ls).
Proof.
  induction ls as [|l ls IH]; [constructor|]. intros [Hl Hls]%Forall_cons. specialize (IH Hls). cbn [paragraphs].
  destruct l as [|w l]; [done|]. assert (line_ok (w :: l)) as Hok by done.
  assert (paragraph_ok [w :: l]) as H1 by (split; [done|by constructor]). unfold join_run.
  destruct ls as [|[|w' l'] ls]; [by constructor..|]. destruct (paragraphs _) as [|p ps]; [by constructor|].
  apply Forall_cons in IH as [[Hp1 Hp2] Hps]. constructor; [|done]. split; [done|by constructor].
Qed.

(** What the normal form keeps: the lines of the paragraphs, perhaps a blank
    line around. *)
Lemma squeeze_blank b rest : squeeze b ("" :: rest) = if b then squeeze true rest else "" :: squeeze true rest.
Proof. done. Qed.
Lemma squeeze_line b l rest : line_ok l → squeeze b (show_line l :: rest) = show_line l :: squeeze false rest.
Proof.
  intros [Hne Hl]. cbn [squeeze]. rewrite show_line_trim by done. by rewrite decide_False by by rewrite show_line_nil.
Qed.
Lemma squeeze_lines ls : Forall (Forall word) ls → ∃ post, (post = [] ∨ post = [""]) ∧ (paragraphs ls = [] → post = []) ∧
  squeeze true (show_line <$> ls) = show_lines (paragraphs ls) ++ post.
Proof.
  induction ls as [|l ls IH]; [exists []; auto|]. intros [Hl Hls]%Forall_cons. destruct (IH Hls) as (post & Hpost & Hnil & E). clear IH.
  destruct l as [|w l]; [by exists post|]. cbn [fmap list_fmap paragraphs]. change (list_fmap line string show_line ls) with (show_line <$> ls).
  rewrite squeeze_line by done. destruct ls as [|[|w' l'] ls].
  - exists []. auto.
  - change (show_line <$> [] :: ls) with ("" :: (show_line <$> ls)) in *. rewrite squeeze_blank in *. rewrite E.
    destruct (paragraphs ([] :: ls)) as [|p ps]; [exists [""]; rewrite Hnil by done; split_and!; [by right|done..]|]. exists post. split_and!; done.
  - change (show_line <$> (w' :: l') :: ls) with (show_line (w' :: l') :: (show_line <$> ls)) in *.
    apply Forall_cons in Hls as [Hl' _]. rewrite squeeze_line in * by done. rewrite E. exists post.
    assert (paragraphs ((w' :: l') :: ls) ≠ []) as Hr
      by (cbn [paragraphs]; unfold join_run; by repeat case_match).
    unfold join_run. destruct (paragraphs ((w' :: l') :: ls)) as [|p ps]; [done|]. split_and!; [done..|]. by destruct ps.
Qed.

(** The normal form of a plain text. *)
Definition normal_text (raw : string) : string :=
  let text := ReplaceAll raw (String (byte 13) newline) newline in
  TrimSpace (Join (squeeze false ((λ l, Join (Fields l) " ") <$> SplitByte (byte 10) text)) newline).
Lemma squeeze_lead l rest : squeeze false (l :: rest) = (if decide (TrimSpace l = "") then [""] else []) ++ squeeze true (l :: rest).
Proof. cbn [squeeze]. by case_decide. Qed.

(** The texts of the lines, one after the other. *)
Lemma Join_app l m c : l ≠ [] → m ≠ [] → Join (l ++ m) (String c "") = Join l (String c "") +:+ String c (Join m (String c "")).
Proof.
  induction l as [|x l IH]; [done|]. intros _ Hm. destruct l as [|y l].
  - cbn [app]. by destruct m.
  - change ((x :: y :: l) ++ m) with (x :: y :: (l ++ m)). rewrite !Join_two. change (y :: l ++ m) with ((y :: l) ++ m).
    rewrite IH by done. by rewrite !string_app_assoc.
Qed.
Lemma show_lines_nonempty ps : Forall paragraph_ok ps → ps ≠ [] → show_lines ps ≠ [].
Proof. intros Hps Hne E. destruct ps as [|[|l p] ps]; [done|by inversion Hps as [|?? []]|]. by destruct ps. Qed.
Lemma paragraph_snug p : paragraph_ok p → snug (Join (show_line <$> p) newline).
Proof.
  intros [Hne Hp]. apply (snug_Join _ (byte 10)); [by right|by destruct p|]. apply Forall_fmap. eapply Forall_impl; [exact Hp|apply show_line_snug].
Qed.
Lemma show_lines_snug ps : Forall paragraph_ok ps → ps ≠ [] → snug (Join (show_lines ps) newline).
Proof.
  induction ps as [|p ps IH]; [done|]. intros [Hp Hps]%Forall_cons _. destruct ps as [|q ps]; [by apply paragraph_snug|].
  specialize (IH Hps ltac:(done)). cbn [show_lines]. change (match ps with [] => _ | _ => _ end) with (show_lines (q :: ps)).
  set (rest := show_lines (q :: ps)) in *.
  assert (rest ≠ []) as Hr by by apply show_lines_nonempty. assert (show_line <$> p ≠ []) as Hs by (by destruct Hp as [Hp _], p).
  unfold newline. rewrite (Join_app _ ("" :: rest)) by done. destruct rest as [|x rest]; [done|]. rewrite Join_two.
  exact (snug_join (Join (show_line <$> p) newline) (newline +:+ newline) (Join (x :: rest) newline) ltac:(done) (or_intror eq_refl) (or_intror eq_refl)
    (paragraph_snug p Hp) IH).
Qed.
(** The normal form of a plain text is its paragraphs, written out. *)
Lemma normal_text_layout raw : normal_text raw = Join (show_lines (layout raw)) newline.
Proof.
  unfold normal_text, layout. cbv zeta. set (text := ReplaceAll _ _ _). clearbody text.
  change (λ l, Join (Fields l) " ") with (show_line ∘ Fields). rewrite list_fmap_compose. set (ls := Fields <$> SplitByte (byte 10) text).
  change (show_line <$> (Fields <$> SplitByte (byte 10) text)) with (show_line <$> ls).
  assert (Forall (Forall word) ls) as Hls by (apply Forall_fmap, Forall_true; intros; apply Fields_words). clearbody ls. clear text.
  pose proof (paragraphs_ok ls Hls) as Hok. destruct (squeeze_lines ls Hls) as (post & Hpost & Hnil & E).
  assert (∃ pre, (pre = [] ∨ pre = [""]) ∧ squeeze false (show_line <$> ls) = pre ++ show_lines (paragraphs ls) ++ post) as (pre & Hpre & ->).
  { destruct ls as [|l ls]; [exists []; split; [by left|by rewrite (Hnil eq_refl)]|].
    change (show_line <$> l :: ls) with (show_line l :: (show_line <$> ls)) in *. rewrite squeeze_lead, E. case_decide; eauto. }
  destruct (decide (paragraphs ls = [])) as [En|Hne]; [rewrite Hnil, En by done; by destruct Hpre as [->| ->]|].
  pose proof (show_lines_snug _ Hok Hne) as Hs. pose proof (show_lines_nonempty _ Hok Hne) as Hne'.
  assert (Join (pre ++ show_lines (paragraphs ls) ++ post) newline =
    (if decide (pre = []) then "" else newline) +:+ Join (show_lines (paragraphs ls)) newline +:+ (if decide (post = []) then "" else newline)) as ->.
  { unfold newline. assert (∀ l, l ≠ [] → Join (l ++ post) (String (byte 10) "") = Join l (String (byte 10) "") +:+ (if decide (post = []) then "" else String (byte 10) "")) as H2.
    { intros l Hl. destruct Hpost as [->| ->]; [by rewrite app_nil_r, string_app_nil_r|]. by rewrite Join_app. }
    rewrite <- H2 by done. destruct Hpre as [->| ->]; [done|]. rewrite (Join_app [""]); [done|done|]. intros [? ?]%app_nil. done. }
  apply snug_framed; [case_decide; auto..|done].
Qed.

(** Reading it back *)
Lemma SplitByte_Join c l : l ≠ [] → Forall (λ x, has_byte c x = false) l → SplitByte c (Join l (String c "")) = l.
Proof.
  induction l as [|x l IH]; [done|]. intros _ [Hx Hl]%Forall_cons. destruct l as [|y l]; [by apply SplitByte_single|].
  rewrite Join_two. change (String c "" +:+ Join (y :: l) (String c "")) with (String c (Join (y :: l) (String c ""))).
  rewrite SplitByte_app, SplitByte_single, IH by done. done.
Qed.
Definition read_line (s : string) : line := if decide (s = "") then [] else SplitByte (byte 32) s.
Lemma read_show l : line_ok l → read_line (show_line l) = l.
Proof.
  intros [Hne Hl]. unfold read_line. rewrite decide_False by by rewrite show_line_nil.
  apply (SplitByte_Join (byte 32)); [done|]. eapply Forall_impl; [exact Hl|]. intros w [_ Hw]. apply bare_not_sep; [done|by left].
Qed.
Lemma paragraphs_run p rest : paragraph_ok p → paragraphs (p ++ [] :: rest) = p :: paragraphs rest.
Proof.
  intros [Hne Hp]. induction p as [|l p IH]; [done|]. apply Forall_cons in Hp as [[Hl _] Hp]. destruct l as [|w l]; [done|].
  cbn [app paragraphs]. destruct p as [|l' p]; [done|]. rewrite IH by done. cbn [app]. apply Forall_cons in Hp as [[Hl' _] _]. by destruct l'.
Qed.
Lemma paragraphs_last p : paragraph_ok p → paragraphs p = [p].
Proof.
  intros [Hne Hp]. induction p as [|l p IH]; [done|]. apply Forall_cons in Hp as [[Hl _] Hp]. destruct l as [|w l]; [done|].
  cbn [paragraphs]. destruct p as [|l' p]; [done|]. rewrite IH by done. apply Forall_cons in Hp as [[Hl' _] _]. by destruct l'.
Qed.
Lemma read_paragraph p : paragraph_ok p → read_line <$> (show_line <$> p) = p.
Proof.
  intros [_ Hp]. rewrite <- list_fmap_compose. transitivity (id <$> p); [|apply list_fmap_id]. apply list_fmap_ext.
  intros i l Hi. apply read_show. eapply Forall_lookup_1; [exact Hp|exact Hi].
Qed.
Lemma paragraphs_show ps : Forall paragraph_ok ps → paragraphs (read_line <$> show_lines ps) = ps.
Proof.
  induction ps as [|p ps IH]; [done|]. intros [Hp Hps]%Forall_cons. specialize (IH Hps).
  destruct ps as [|q ps]; [cbn [show_lines]; by rewrite read_paragraph, paragraphs_last|].
  change (show_lines (p :: q :: ps)) with ((show_line <$> p) ++ "" :: show_lines (q :: ps)).
  rewrite fmap_app, read_paragraph by done. change (read_line <$> "" :: show_lines (q :: ps)) with ([] :: (read_line <$> show_lines (q :: ps))).
  by rewrite paragraphs_run, IH.
Qed.
Lemma show_lines_no_newline ps : Forall paragraph_ok ps → Forall (λ x, has_byte (byte 10) x = false) (show_lines ps).
Proof.
  assert (∀ l, line_ok l → has_byte (byte 10) (show_line l) = false) as Hline.
  { intros l [_ Hl]. unfold show_line. induction Hl as [|w l [_ Hw] Hl IH]; [done|]. apply (bare_not_sep _ (byte 10)) in Hw; [|by right].
    destruct l as [|v l]; [done|]. rewrite Join_two, !SkillText.has_byte_app, Hw, IH. done. }
  assert (∀ p, paragraph_ok p → Forall (λ x, has_byte (byte 10) x = false) (show_line <$> p)) as Hpar
    by (intros p [_ Hp]; apply Forall_fmap; eapply Forall_impl; [exact Hp|exact Hline]).
  induction ps as [|p ps IH]; [constructor|]. intros [Hp Hps]%Forall_cons. destruct ps as [|q ps]; [by apply Hpar|].
  apply Forall_app. split; [by apply Hpar|]. constructor; [done|by apply IH].
Qed.
Lemma layout_ok raw : Forall paragraph_ok (layout raw).
Proof. apply paragraphs_ok, Forall_fmap, Forall_true. intros. apply Fields_words. Qed.
(** Two texts have one normal form exactly if they have the same paragraphs. *)
Lemma normal_text_agree a b : normal_text a = normal_text b ↔ layout a = layout b.
Proof.
  rewrite !normal_text_layout. split; [|by intros ->]. intros E.
  assert (∀ ps, Forall paragraph_ok ps → ps ≠ [] → Join (show_lines ps) newline ≠ "") as Hne
    by (intros ps H1 H2; by apply snug_nonempty, show_lines_snug).
  pose proof (layout_ok a) as Ha. pose proof (layout_ok b) as Hb. revert Ha Hb E. generalize (layout a), (layout b). intros p q Hp Hq E.
  destruct (decide (p = [])) as [->|Hp0], (decide (q = [])) as [->|Hq0]; [done|by destruct (Hne q)|by destruct (Hne p)|].
  apply (f_equal (SplitByte (byte 10))) in E. unfold newline in E.
  rewrite !SplitByte_Join in E by (done || by apply show_lines_no_newline || by apply show_lines_nonempty).
  apply (f_equal (λ l, paragraphs (read_line <$> l))) in E. by rewrite !paragraphs_show in E.
Qed.

(** *** Documents *)

(** What a file is: nothing, a document with its canonical form, or a text. *)
Definition document (raw : string) : option string := GoJson.decode raw ≫= GoJson.encode.
(** Two contents say the same: the same bytes, one JSON value, or texts with
    the same words in the same lines and paragraphs. *)
Definition same_content (a b : string) : Prop :=
  a = b ∨ (∃ v v', GoJson.decode a = Some v ∧ GoJson.decode b = Some v' ∧ GoJson.encode v = GoJson.encode v' ∧ GoJson.encode v ≠ None) ∨
  (a ≠ "" ∧ b ≠ "" ∧ document a = None ∧ document b = None ∧ layout a = layout b).
Lemma normalize_agree a b : a = b ∨ normalizeArtifactContent a = normalizeArtifactContent b ↔ same_content a b.
Proof.
  assert (∀ raw, raw ≠ "" → normalizeArtifactContent raw = match document raw with Some c => ("json", c) | None => ("text", normal_text raw) end) as Hn
    by (intros raw Hr; unfold normalizeArtifactContent; rewrite decide_False by done; unfold document; by destruct (_ ≫= _)).
  assert (GoJson.decode "" = None) as Hempty by by vm_compute.
  unfold same_content. destruct (decide (a = b)) as [->|Hne]; [split; intros; by left|].
  destruct (decide (a = "")) as [->|Ha]; [|destruct (decide (b = "")) as [->|Hb]].
  - split; [intros [?|E]; [done|]|intros [?|[(v & v' & E & _)|(? & _)]]; [done|by rewrite Hempty in E|done]].
    rewrite (Hn b) in E by done. by destruct (document b).
  - split; [intros [?|E]; [done|]|intros [?|[(v & v' & _ & E & _)|(_ & ? & _)]]; [done|by rewrite Hempty in E|done]].
    rewrite (Hn a) in E by done. by destruct (document a).
  - rewrite !Hn by done. split.
    + intros [?|E]; [done|]. right. unfold document in *. 
      destruct (GoJson.decode a) as [v|] eqn:Ea, (GoJson.decode b) as [v'|] eqn:Eb; cbn [mbind option_bind] in *.
      * destruct (GoJson.encode v) as [c|] eqn:Ev, (GoJson.encode v') as [c'|] eqn:Ev'; [left|done|done|right].
        -- injection E as <-. exists v, v'. split_and!; try done; congruence.
        -- split_and!; try done. injection E as E. by apply normal_text_agree.
      * destruct (GoJson.encode v); [done|right]. injection E as E. split_and!; try done. by apply normal_text_agree.
      * destruct (GoJson.encode v'); [done|right]. injection E as E. split_and!; try done. by apply normal_text_agree.
      * right. injection E as E. split_and!; try done. by apply normal_text_agree.
    + intros [?|[(v & v' & Ea & Eb & E & En)|(_ & _ & -> & -> & El)]]; [done| |right; by rewrite (proj2 (normal_text_agree a b))].
      right. unfold document. rewrite Ea, Eb. cbn. rewrite <- E. by destruct (GoJson.encode v).
Qed.

(** ** Tokens *)

(** The runs of word bytes, and the other bytes one by one. *)
Fixpoint tokens (s : string) : list string :=
  match s with
  | "" => []
  | String a r =>
      match word_byte a, tokens r with
      | true, t :: ts => if word_start t then String a t :: ts else String a "" :: t :: ts
      | _, ts => String a "" :: ts
      end
  end.
Definition entities : list string := ["task"; "approval"; "action"; "browser"; "session"].
Definition is_digit (a : ascii) : bool := (48 <=? bz a) && (bz a <=? 57).
Definition number (s : string) : bool := bool_decide (s ≠ "" ∧ skip_digits s = "").
(** The number of an entity is hidden. *)
Fixpoint hide_entities (l : list string) : list string :=
  match l with
  | k :: ((dash :: d :: rest) as tail) =>
      if bool_decide (k ∈ entities) && bool_decide (dash = "-") && number d then (k +:+ "-<id>") :: hide_entities rest else k :: hide_entities tail
  | k :: tail => k :: hide_entities tail
  | [] => []
  end.
(** Hits and cards of a recall are results. *)
Fixpoint hide_recall (l : list string) : list string :=
  match l with
  | k :: ((space :: d :: rest) as tail) =>
      if bool_decide (k = "recall") && bool_decide (space = " ") && bool_decide (d ∈ ["hit"; "card"]) then "recall result" :: hide_recall rest
      else k :: hide_recall tail
  | k :: tail => k :: hide_recall tail
  | [] => []
  end.
Definition on_tokens (f : list string → list string) (s : string) : string := Join (f (tokens s)) "".

(** A run of word bytes. *)
Fixpoint all_word (s : string) : bool := match s with "" => true | String a r => word_byte a && all_word r end.
Definition run (w t : string) : Prop := w ≠ "" ∧ all_word w = true ∧ word_start t = false.
Lemma tokens_other a r : word_byte a = false → tokens (String a r) = String a "" :: tokens r.
Proof. intros E. cbn [tokens]. by rewrite E. Qed.
Lemma tokens_head s : match tokens s with t :: _ => word_start t = word_start s | [] => s = "" end.
Proof. destruct s as [|a r]; [done|]. cbn [tokens word_start]. by repeat (case_match; simplify_eq/=). Qed.
Lemma tokens_run w t : run w t → tokens (w +:+ t) = w :: tokens t.
Proof.
  intros (Hne & Hw & Ht). induction w as [|a w IH]; [done|]. cbn [all_word] in Hw. apply andb_true_iff in Hw as [Ha Hw].
  rewrite string_cons_app. cbn [tokens]. rewrite Ha. destruct w as [|b w].
  - change ("" +:+ t) with t. pose proof (tokens_head t) as H. destruct (tokens t) as [|u us]; [done|]. by rewrite H, Ht.
  - rewrite IH by done. cbn [word_start]. cbn [all_word] in Hw. by apply andb_true_iff in Hw as [-> _].
Qed.
Lemma split_run s : word_start s = true → ∃ w t, s = w +:+ t ∧ run w t.
Proof.
  induction s as [|a r IH]; [done|]. cbn [word_start]. intros Ha. destruct (word_start r) eqn:Er.
  - destruct (IH eq_refl) as (w & t & -> & (Hne & Hw & Ht)). exists (String a w), t. split; [done|]. split_and!; [done| |done].
    cbn [all_word]. by rewrite Ha.
  - exists (String a ""), r. split; [done|]. split_and!; [done| |done]. cbn [all_word]. by rewrite Ha.
Qed.
(** The first token tells the shape of the text. *)
Lemma tokens_inv s x ts : tokens s = x :: ts → ∃ r, s = x +:+ r ∧ ts = tokens r ∧
  (run x r ∨ ∃ a, x = String a "" ∧ word_byte a = false).
Proof.
  intros E. destruct (word_start s) eqn:Es.
  - destruct (split_run s Es) as (w & t & -> & Hr). rewrite tokens_run in E by done. injection E as <- <-. exists t. split_and!; [done..|by left].
  - destruct s as [|a r]; [done|]. cbn [word_start] in Es. rewrite tokens_other in E by done. injection E as <- <-. exists r. split_and!; [done..|right; by exists a].
Qed.
Lemma run_unique w t w' t' : run w t → run w' t' → w +:+ t = w' +:+ t' → w = w' ∧ t = t'.
Proof.
  intros H1 H2 E. apply (f_equal tokens) in E as E'. rewrite !tokens_run in E' by done. injection E' as <- _. split; [done|].
  clear -E. induction w as [|a w IH]; [done|]. rewrite !string_cons_app in E. injection E as E. by apply IH.
Qed.
Lemma Join_cons_empty x l : Join (x :: l) "" = x +:+ Join l "".
Proof. destruct l; [by rewrite string_app_nil_r|done]. Qed.

Section replacement.
Variables (m : string → option (string * string)) (hide : list string → list string).
Hypothesis m_word : ∀ s, word_start s = false → m s = None.
Hypothesis m_hides : ∀ w t new rest, run w t → m (w +:+ t) = Some (new, rest) → word_start rest = false →
  (len rest <= len t)%nat ∧ hide (w :: tokens t) = new :: hide (tokens rest).
Hypothesis m_leaves : ∀ w t, run w t → (∀ new rest, m (w +:+ t) = Some (new, rest) → word_start rest = true) →
  hide (w :: tokens t) = w :: hide (tokens t).
Hypothesis hide_nil : hide [] = [].
Hypothesis hide_other : ∀ a l, word_byte a = false → hide (String a "" :: l) = String a "" :: hide l.

Lemma replace_after fuel s : word_start s = false → replace_words m fuel true s = replace_words m fuel false s.
Proof. intros Hs. destruct fuel, s as [|a r]; [done..|]. cbn [replace_words]. by rewrite m_word. Qed.
Lemma replace_rest w : ∀ fuel t, all_word w = true → word_start t = false →
  replace_words m (len w + fuel) true (w +:+ t) = w +:+ replace_words m fuel false t.
Proof.
  induction w as [|a w IH]; intros fuel t Hw Ht; [by apply replace_after|]. cbn [all_word] in Hw. apply andb_true_iff in Hw as [Ha Hw].
  change (len (String a w) + fuel)%nat with (S (len w + fuel)). rewrite !string_cons_app. cbn [replace_words]. rewrite Ha. by rewrite IH.
Qed.
(** Replacing byte by byte is replacing on the tokens. *)
Lemma replace_tokens n : ∀ s fuel, (len s < n)%nat → (len s <= fuel)%nat → replace_words m fuel false s = on_tokens hide s.
Proof.
  unfold on_tokens. induction n as [|n IH]; intros s fuel Hn Hf; [lia|]. destruct (word_start s) eqn:Es.
  - destruct (split_run s Es) as (w & t & -> & Hrun). rewrite tokens_run by done. pose proof Hrun as (Hne & Hw & Ht).
    rewrite string_length_app in *. destruct w as [|a w]; [done|]. cbn [all_word] in Hw. apply andb_true_iff in Hw as [Ha Hw].
    assert (len (String a w) = S (len w)) as El by done. rewrite El in *.
    destruct fuel as [|fuel]; [lia|]. rewrite string_cons_app. cbn [replace_words]. rewrite <- string_cons_app.
    assert (hide (String a w :: tokens t) = String a w :: hide (tokens t) →
      String a (replace_words m fuel (word_byte a) (w +:+ t)) = Join (hide (String a w :: tokens t)) "") as Hskip.
    { intros ->. rewrite Join_cons_empty, string_cons_app, Ha. f_equal. replace fuel with (len w + (fuel - len w))%nat by lia.
      rewrite replace_rest by done. f_equal. apply IH; lia. }
    destruct (m (String a w +:+ t)) as [[new rest]|] eqn:Em; [destruct (word_start rest) eqn:Er|].
    + apply Hskip, m_leaves; [done|]. intros new' rest' E. rewrite Em in E. by injection E as <- <-.
    + destruct (m_hides _ _ _ _ Hrun Em Er) as [Hl ->]. rewrite Join_cons_empty, replace_after by done. f_equal. apply IH; lia.
    + apply Hskip, m_leaves; [done|]. intros new' rest' E. by rewrite Em in E.
  - destruct s as [|a r]; [by destruct fuel; cbn; rewrite hide_nil|]. change (len (String a r)) with (S (len r)) in *. destruct fuel as [|fuel]; [lia|].
    cbn [replace_words]. rewrite m_word by done. cbn [word_start] in Es. rewrite Es, tokens_other, hide_other, Join_cons_empty by done.
    cbn [String.append]. rewrite IH by lia. done.
Qed.
End replacement.

(** *** The two expressions *)

Lemma drop_prefix w t : drop_bytes (len w) (w +:+ t) = t.
Proof. induction w as [|a w IH]; [by destruct t|]. rewrite string_cons_app. exact IH. Qed.
Lemma strip_word_spec l s w r : strip_word l s = Some (w, r) → w ∈ l ∧ s = w +:+ r.
Proof.
  induction l as [|v l IH]; [done|]. cbn [strip_word]. destruct (HasPrefix s v) eqn:E.
  - apply HasPrefix_spec in E as [t ->]. intros [= <- <-]. split; [by left|]. f_equal. by rewrite drop_prefix.
  - intros [Hw ->]%IH. split; [by right|done].
Qed.
Lemma digit_word a : is_digit a = true → word_byte a = true.
Proof. unfold is_digit, word_byte. cbv zeta. by intros ->. Qed.
Lemma skip_digits_cons a r : skip_digits (String a r) = if is_digit a then skip_digits r else String a r.
Proof. done. Qed.
Lemma skip_digits_split s : ∃ ds, s = ds +:+ skip_digits s ∧ skip_digits ds = "" ∧ all_word ds = true.
Proof.
  induction s as [|a s (ds & E & H1 & H2)]; [by exists ""|]. rewrite skip_digits_cons. destruct (is_digit a) eqn:Ea; [|by exists ""].
  exists (String a ds). rewrite string_cons_app, <- E, skip_digits_cons, Ea. cbn [all_word]. by rewrite (digit_word a Ea).
Qed.
Lemma skip_digits_app ds r : skip_digits ds = "" → word_start r = false → skip_digits (ds +:+ r) = r.
Proof.
  intros H Hr. induction ds as [|a ds IH].
  - destruct r as [|a r]; [done|]. change ("" +:+ String a r) with (String a r). rewrite skip_digits_cons.
    destruct (is_digit a) eqn:Ea; [|done]. apply digit_word in Ea. cbn [word_start] in Hr. congruence.
  - rewrite string_cons_app, skip_digits_cons. rewrite skip_digits_cons in H. destruct (is_digit a); [by apply IH|done].
Qed.
Lemma word_starts l s w r : strip_word l s = Some (w, r) → forallb word_start l = true → word_start s = true.
Proof.
  intros [Hw ->]%strip_word_spec Hl. rewrite forallb_forall in Hl. specialize (Hl w (proj1 (list_elem_of_In _ _) Hw)). by destruct w.
Qed.
Lemma entity_run w t : w ∈ entities → word_start t = false → run w t.
Proof. intros Hw Ht. unfold entities in Hw. rewrite !elem_of_cons, elem_of_nil in Hw. by destruct_or! Hw; subst w. Qed.
Lemma entity_found w t : w ∈ entities → strip_word entities (w +:+ t) = Some (w, t).
Proof.
  intros Hw. unfold entities in *. rewrite !elem_of_cons, elem_of_nil in Hw. by destruct_or! Hw; subst w; cbn; destruct t.
Qed.
Lemma entities_on_tokens fuel s : (len s <= fuel)%nat → replace_words match_entity fuel false s = on_tokens hide_entities s.
Proof.
  apply (replace_tokens match_entity hide_entities) with (n := S (len s)); [| | |done| |lia].
  - intros t Ht. unfold match_entity. destruct (strip_word _ t) as [[w r]|] eqn:E; [|done]. apply word_starts in E; [congruence|done].
  - intros w t new rest Hrun. unfold match_entity. destruct (strip_word _ _) as [[k r]|] eqn:E; [|done]. cbn [mbind option_bind].
    apply strip_word_spec in E as [Hk E]. destruct (HasPrefix r "-") eqn:Er; [|done]. apply HasPrefix_spec in Er as [ds ->].
    destruct (run_unique _ _ _ _ Hrun (entity_run k ("-" +:+ ds) Hk eq_refl) E) as [-> ->]. clear E.
    change (drop_bytes 1 ("-" +:+ ds)) with ds. cbv zeta. case_decide as Hd; [done|]. intros [= <- <-] Hrest.
    destruct (skip_digits_split ds) as (d & Ed & H1 & H2). split.
    { apply (f_equal len) in Ed. rewrite string_length_app in *. lia. }
    change ("-" +:+ ds) with (String "-" ds). rewrite tokens_other by done. rewrite Ed at 1. assert (d ≠ "") as Hne by (intros ->; apply Hd; symmetry; exact Ed).
    rewrite tokens_run by done. cbn [hide_entities]. rewrite !bool_decide_true by done. unfold number. by rewrite bool_decide_true.
  - intros w t Hrun Hno. destruct (tokens t) as [|dash [|d ts]] eqn:Et; [done..|]. cbn [hide_entities].
    destruct (bool_decide (w ∈ entities) && bool_decide (dash = "-") && number d) eqn:E; [exfalso|done].
    apply andb_true_iff in E as [[Hw%bool_decide_eq_true ->%bool_decide_eq_true]%andb_true_iff [Hd0 Hd]%bool_decide_eq_true].
    apply tokens_inv in Et as (r & -> & Et & _). symmetry in Et. apply tokens_inv in Et as (r' & -> & _ & [Hr|(a & -> & Ha)]).
    + specialize (Hno (w +:+ "-<id>") r'). destruct Hr as (_ & _ & Hr). rewrite Hno in Hr; [done|]. unfold match_entity.
      change ["task"; "approval"; "action"; "browser"; "session"] with entities. rewrite entity_found by done. cbn [mbind option_bind].
      rewrite HasPrefix_app. change (drop_bytes 1 ("-" +:+ d +:+ r')) with (d +:+ r'). cbv zeta. rewrite skip_digits_app by done.
      rewrite decide_False; [done|]. intros E. apply (f_equal len) in E. rewrite string_length_app in E. destruct d; [done|]. unfold len in E. cbn in E. lia.
    + rewrite skip_digits_cons in Hd. destruct (is_digit a) eqn:Ea; [|done]. apply digit_word in Ea. congruence.
  - intros a l Ha. cbn [hide_entities]. destruct l as [|dash [|d l]]; [done..|]. rewrite bool_decide_false; [done|].
    unfold entities. rewrite !elem_of_cons, elem_of_nil. intros H. by destruct_or! H.
Qed.
Lemma results_on_tokens fuel s : (len s <= fuel)%nat → replace_words match_recall fuel false s = on_tokens hide_recall s.
Proof.
  assert (∀ d, d ∈ ["hit"; "card"] → ∀ r, word_start r = false → run d r) as Hrun
    by (intros d Hd r Hr; rewrite !elem_of_cons, elem_of_nil in Hd; by destruct_or! Hd; subst d).
  assert (∀ t, word_start t = false → run "recall" t) as Hrecall by done.
  assert (∀ v r, v ∈ ["recall hit"; "recall card"] → ∃ d, d ∈ ["hit"; "card"] ∧ v +:+ r = "recall" +:+ " " +:+ d +:+ r) as Hform.
  { intros v r Hv. rewrite !elem_of_cons, elem_of_nil in Hv. destruct_or! Hv; subst v; [by exists "hit"; split; [left|]|by exists "card"; split; [right; left|]]. }
  apply (replace_tokens match_recall hide_recall) with (n := S (len s)); [| | |done| |lia].
  - intros t Ht. unfold match_recall. destruct (strip_word _ t) as [[w r]|] eqn:E; [|done]. apply word_starts in E; [congruence|done].
  - intros w t new rest Hw. unfold match_recall. destruct (strip_word _ _) as [[k r]|] eqn:E; [|done]. cbn [mbind option_bind].
    intros [= <- <-] Hr. apply strip_word_spec in E as [Hk E]. destruct (Hform k r Hk) as (d & Hd & Ek). rewrite Ek in E.
    destruct (run_unique _ _ _ _ Hw (Hrecall (" " +:+ d +:+ r) eq_refl) E) as [-> ->]. split; [rewrite !string_length_app; lia|].
    change (" " +:+ d +:+ r) with (String " " (d +:+ r)). rewrite tokens_other, tokens_run by (done || by apply Hrun).
    rewrite !elem_of_cons, elem_of_nil in Hd. by destruct_or! Hd; subst d.
  - intros w t Hw Hno. destruct (tokens t) as [|space [|d ts]] eqn:Et; [done..|]. cbn [hide_recall].
    destruct (bool_decide (w = "recall") && bool_decide (space = " ") && bool_decide (d ∈ ["hit"; "card"])) eqn:E; [exfalso|done].
    apply andb_true_iff in E as [[->%bool_decide_eq_true ->%bool_decide_eq_true]%andb_true_iff Hd%bool_decide_eq_true].
    apply tokens_inv in Et as (r & -> & Et & _). symmetry in Et. apply tokens_inv in Et as (r' & -> & _ & [Hr|(a & -> & Ha)]).
    + destruct Hr as (_ & _ & Hr). rewrite (Hno "recall result" r') in Hr; [done|].
      rewrite !elem_of_cons, elem_of_nil in Hd. by destruct_or! Hd; subst d; cbn; destruct r'.
    + rewrite !elem_of_cons, elem_of_nil in Hd. by destruct_or! Hd.
  - intros a l Ha. destruct l as [|space [|d l]]; [done..|]. cbn [hide_recall]. rewrite bool_decide_false by discriminate. done.
Qed.
