(* ===== verification/Harness.v ===== *)
(** * The scenario harness: data and loading ([harness/types.go], [harness/loader.go])

    Scenarios and run reports, the files the harness reads and writes, and the
    loading and selection of scenarios.  The theorems: a loaded scenario is
    well-formed, and a selection by tags does not depend on how tags are
    written. *)
From S2P Require Import Prelude GoStrings GoNum GoText.
From S2P Require FsAccess GoTime GoJson ChatText.
Import FsAccess(Env, Abs, Join2, Dir, Rel, IsAbs, comps, render).
Import ChatText(Base, sort_strings).
Open Scope Z_scope.

(** ** Scenarios *)

Record Fixtures := mkFixtures { SearchResponseFile : string; GitHubResponseFile : string; EmailResponseFile : string }.
Record Step := mkStep {
  st_ID : string; st_Type : string; st_SessionID : string; st_Message : string; st_Title : string; st_Goal : string;
  st_RequestedBy : string; st_Source : string; st_ExecutionProfile : string; st_RequiresApproval : bool;
  st_SelectedSkill : string; st_Metadata : gmap string string; TaskRef : string; ApprovalRef : string;
  st_ApprovedBy : string; ConfirmFirst : bool }.
Record Assertion := mkAssertion {
  as_Type : string; as_Step : string; as_SessionID : string; as_Field : string; as_Status : string; as_Path : string;
  Equals : string; as_Contains : string; as_Query : string; as_Source : string; Expected : Z; Min : Z;
  MinConfidence : float64; MaxConfidence : float64 }.
(** [sc_Dir] is not stored. *)
Record Scenario := mkScenario {
  sc_Name : string; sc_Description : string; Lane : string; Tags : list string; sc_Fixtures : Fixtures;
  Steps : list Step; Assertions : list Assertion; sc_Dir : string }.

Definition StepTypeSubmitTask : string := "submit_task".
Definition StepTypeRunTask : string := "run_task".
Definition StepTypeApprovePending : string := "approve_pending".
Definition StepTypeSendChat : string := "send_chat".
Definition StepTypeRestartRuntime : string := "restart_runtime".
Definition StepTypeConsolidate : string := "consolidate_memory".
Definition StepTypeSeedMemoryCard : string := "seed_memory_card".
Definition StepTypeRequeueTask : string := "requeue_task".
Definition StepTypeScheduleMemory : string := "schedule_memory_consolidation".
Definition StepTypeFetchMetrics : string := "fetch_metrics".

(** ** Reports *)

Record MetricsSnapshot := mkMetrics {
  TotalTasks : Z; TasksByState : gmap string Z; TotalActions : Z; ActionsByStatus : gmap string Z;
  ActionsByFailureCategory : gmap string Z; TotalMemoryCards : Z; MemoryByStatus : gmap string Z; ActiveSkills : Z }.
Record StepProgress := mkStepProgress { sp_Stage : string; sp_Message : string }.
Record StepReport := mkStepReport {
  sr_ID : string; sr_Type : string; sr_SessionID : string; sr_TaskID : string; sr_TaskState : string;
  sr_SelectedSkill : string; sr_ActionID : string; ActionStatus : string; ActionFailureCategory : string;
  ActionReplayed : bool; sr_ReplayOfActionID : string; ActionAttempts : Z; RetryAttempts : Z; RetrySucceeded : bool;
  sr_CardType : string; SchedulerTriggered : bool; SchedulerSkipReason : string; SchedulerCandidateCount : Z;
  Metrics : MetricsSnapshot; sr_ApprovalID : string; UserContent : string; AssistantContent : string;
  sr_ArtifactPaths : list string; sr_ObservationPaths : list string; PromotedCount : Z; SupersededCount : Z;
  ArchivedCount : Z; MemoryFeedbackUpdates : Z; ProcedureFeedbackUpdates : Z; sr_Progress : list StepProgress;
  sr_StartedAt : Time; sr_FinishedAt : Time; sr_Error : string }.
Record AssertionResult := mkAssertionResult {
  ar_Type : string; ar_Step : string; ar_Passed : bool; ar_Description : string; Details : string }.
Record RunReport := mkRunReport {
  ScenarioName : string; ScenarioDescription : string; ScenarioLane : string; ScenarioTags : list string;
  ScenarioPath : string; RunDir : string; RuntimeRoot : string; StartedAt : Time; FinishedAt : Time; Passed : bool;
  StepReports : list StepReport; AssertionResults : list AssertionResult; rp_Error : string }.
Record ScenarioStats := mkStats {
  ss_ScenarioName : string; ss_RunCount : Z; ss_PassedCount : Z; ss_FailedCount : Z; AssertionCount : Z;
  FailedAssertions : Z; WorkingAssertions : Z; DurableAssertions : Z; RecallAssertions : Z; ProcedureAssertions : Z;
  ProcedurePromotions : Z; ProcedureSupersedes : Z; ss_MemoryFeedbackUpdates : Z; ss_ProcedureFeedbackUpdates : Z;
  ss_RetryAttempts : Z; RetrySuccesses : Z; ActionReplays : Z; MetricsSnapshots : Z; MaxObservedTasks : Z;
  MaxObservedActions : Z; MaxObservedMemoryCards : Z; SchedulerTriggers : Z; SchedulerCooldownSkips : Z;
  SchedulerThresholdSkips : Z; SchedulerTypeSkips : Z; SchedulerExistingSkips : Z; SchedulerBusySkips : Z;
  MemoryFailures : Z; AverageDurationMS : Z; LatestRunDir : string; LatestError : string; TopFailureMessages : list string }.
Record Rollup := mkRollup {
  RootDir : string; GeneratedAt : Time; ru_RunCount : Z; ru_PassedCount : Z; ru_FailedCount : Z;
  ScenarioResults : list ScenarioStats }.

(** ** Files

    A file the harness writes as JSON holds the value; other files hold bytes.
    Paths are keys by their absolute cleaned form. *)
Inductive Document := ReportDoc (r : RunReport) | ScenarioDoc (s : Scenario) | RollupDoc (r : Rollup).
Inductive Node := Bytes (s : string) | Stored (d : Document) | Directory.
Abbreviation Disk := (gmap string Node).

(** [document_text]: the text encoding/json prints; [read_report] and
    [read_scenario]: what it decodes from a text the harness did not write, or
    its error; the messages of file errors; [strconv.Quote]. *)
Record Host := mkHost {
  env : Env; Quote : string → string;
  document_text : Document → string; read_report : string → string + RunReport; read_scenario : string → string + Scenario;
  stat_error : string → string; open_error : string → string }.

Section files.
Variable h : Host.

Definition lookup_node (d : Disk) (path : string) : option Node := if decide (path = "") then None else d !! Abs (env h) path.
Definition is_dir (d : Disk) (path : string) : bool := match lookup_node d path with Some Directory => true | _ => false end.
Definition exists_ (d : Disk) (path : string) : bool := bool_decide (is_Some (lookup_node d path)).
Definition node_text (n : Node) : option string :=
  match n with Bytes s => Some s | Stored doc => Some (document_text h doc) | Directory => None end.
(** [os.ReadFile]: the message of the error or the bytes. *)
Definition ReadFile (d : Disk) (path : string) : string + string :=
  match lookup_node d path ≫= node_text with Some s => inr s | None => inl (open_error h path) end.
Definition decode_report (n : Node) : option (string + RunReport) :=
  match n with
  | Stored (ReportDoc r) => Some (inr r)
  | _ => read_report h <$> node_text n
  end.
Definition decode_scenario (n : Node) : option (string + Scenario) :=
  match n with
  | Stored (ScenarioDoc s) => Some (inr s)
  | _ => read_scenario h <$> node_text n
  end.

(** The directory of a key and those above it. *)
Definition ancestors (key : string) : list string :=
  (λ n, render (take n (comps key))) <$> seq 0 (S (length (comps key))).
Definition is_file (d : Disk) (key : string) : bool := match d !! key with Some Directory | None => false | Some _ => true end.
Definition make_dirs (keys : list string) (d : Disk) : Disk := foldr (λ k d, <[k := Directory]> d) d keys.
Definition MkdirAll (path : string) : M Disk unit :=
  d ← get;
  if is_dir d path then mret tt else
  f ← io;
  let keys := ancestors (Abs (env h) path) in
  match f with
  | NoFault => if decide (path = "") then throw EIO else if existsb (is_file d) keys then throw EIO else modify (make_dirs keys)
  | _ => throw EIO
  end.
(** [os.WriteFile] *)
Definition WriteNode (path : string) (n : Node) : M Disk unit :=
  d ← get;
  let key := Abs (env h) path in
  if decide (path = "") then throw EIO
  else if is_dir d path || negb (is_dir d (Dir key)) then throw EIO else
  f ← io;
  match f with
  | NoFault => modify (insert key n)
  | FailEarly => throw EIO
  | FailTorn => _ ← modify (insert key (Bytes "")); throw EIO
  end.
End files.

(** ** Loading and selecting scenarios *)

(** [fmt.Sprintf(format_%02d, i)] *)
Definition two_digits (i : Z) : string := GoTime.digits 2 i.

Section loader.
Context {tables : UnicodeTables}.
Variable h : Host.

(** [strings.ToLower(strings.TrimSpace(lane))] *)
Definition NormalizeLane (lane : string) : string := ToLower (TrimSpace lane).

(** The distinct tags that are not empty, at their first places. *)
Definition add_tag (acc : gset string * list string) (tag : string) : gset string * list string :=
  let tag := ToLower (TrimSpace tag) in
  if decide (tag = "") then acc
  else if decide (tag ∈ acc.1) then acc else ({[tag]} ∪ acc.1, acc.2 ++ [tag]).
Definition NormalizeTags (tags : list string) : list string := sort_strings (foldl add_tag (∅, []) tags).2.

Definition resolveScenarioFile (d : Disk) (path : string) : string + string :=
  let path := TrimSpace path in
  if decide (path = "") then inl "scenario path is required" else
  match lookup_node h d path with
  | None => inl (stat_error h path)
  | Some Directory => inr (Join2 path "scenario.json")
  | Some _ => inr path
  end.

(** The steps with their identifiers filled in, or the identifier that occurs
    twice. *)
Fixpoint number_steps (i : Z) (seen : gset string) (steps : list Step) : string + list Step :=
  match steps with
  | [] => inr []
  | s :: rest =>
      let id := if blank (st_ID s) then "step-" +:+ two_digits i else st_ID s in
      if decide (id ∈ seen) then inl id else
      match number_steps (i + 1) ({[id]} ∪ seen) rest with
      | inl dup => inl dup
      | inr rest => inr (mkStep id (st_Type s) (st_SessionID s) (st_Message s) (st_Title s) (st_Goal s) (st_RequestedBy s)
          (st_Source s) (st_ExecutionProfile s) (st_RequiresApproval s) (st_SelectedSkill s) (st_Metadata s) (TaskRef s)
          (ApprovalRef s) (st_ApprovedBy s) (ConfirmFirst s) :: rest)
      end
  end.
Definition LoadScenario (d : Disk) (path : string) : string + Scenario :=
  match resolveScenarioFile d path with
  | inl e => inl e
  | inr resolved =>
      match lookup_node h d resolved ≫= decode_scenario h with
      | None => inl (open_error h resolved)
      | Some (inl e) => inl e
      | Some (inr sc) =>
          let dir := Dir (FsAccess.Clean resolved) in
          let name := if blank (sc_Name sc) then Base dir else sc_Name sc in
          match Steps sc with
          | [] => inl ("scenario " +:+ Quote h name +:+ " has no steps")
          | steps =>
              match number_steps 1 ∅ steps with
              | inl dup => inl ("scenario " +:+ Quote h name +:+ " has duplicate step id " +:+ Quote h dup)
              | inr steps => inr (mkScenario name (sc_Description sc) (NormalizeLane (Lane sc)) (NormalizeTags (Tags sc))
                  (sc_Fixtures sc) steps (Assertions sc) dir)
              end
          end
      end
  end.

(** [for tag in tags: if tagSet[tag] return true] *)
Definition any_tag (tags : list string) (tagSet : gset string) : bool := existsb (λ tag, bool_decide (tag ∈ tagSet)) tags.
Definition ScenarioMatchesTags (scenario : Scenario) (tags : list string) : bool :=
  let tags := NormalizeTags tags in
  match tags, Tags scenario with
  | [], _ => true
  | _, [] => false
  | _, own => any_tag tags (list_to_set ((λ tag, ToLower (TrimSpace tag)) <$> own))
  end.

(** The paths whose scenario is selected, or the first error. *)
Fixpoint select_paths (keep : Scenario → bool) (d : Disk) (paths : list string) : string + list string :=
  match paths with
  | [] => inr []
  | path :: rest =>
      match LoadScenario d path with
      | inl e => inl e
      | inr scenario =>
          match select_paths keep d rest with
          | inl e => inl e
          | inr filtered => inr (if keep scenario then path :: filtered else filtered)
          end
      end
  end.
Definition nonempty (what : string) (selected : string + list string) : string + list string :=
  match selected with inr [] => inl what | _ => selected end.
Definition FilterScenarioPathsByTags (d : Disk) (paths tags : list string) : string + list string :=
  let tags := NormalizeTags tags in
  match tags with
  | [] => inr paths
  | _ => nonempty ("no scenarios matched tags [" +:+ Join tags " " +:+ "]")
           (select_paths (λ sc, ScenarioMatchesTags sc tags) d paths)
  end.
Definition FilterScenarioPathsByLane (d : Disk) (paths : list string) (lane : string) : string + list string :=
  let lane := NormalizeLane lane in
  if decide (lane = "") then inr paths else
  nonempty ("no scenarios matched lane " +:+ Quote h lane) (select_paths (λ sc, bool_decide (Lane sc = lane)) d paths).
End loader.

(** ** What loading and selecting promise *)

Section loaded.
Context {tables : UnicodeTables}.
Variable h : Host.

Definition norm_tag (tag : string) : string := ToLower (TrimSpace tag).

Lemma add_tag_fold tags : ∀ acc, (∀ t, t ∈ acc.1 ↔ t ∈ acc.2) → NoDup acc.2 →
  let acc' := foldl add_tag acc tags in
  NoDup acc'.2 ∧ ∀ t, t ∈ acc'.2 ↔ t ∈ acc.2 ∨ (t ≠ "" ∧ ∃ raw, raw ∈ tags ∧ norm_tag raw = t).
Proof.
  induction tags as [|tag tags IH]; intros acc Hs Hn; [set_solver|]. cbn [foldl].
  assert (let acc1 := add_tag acc tag in (∀ t, t ∈ acc1.1 ↔ t ∈ acc1.2) ∧ NoDup acc1.2 ∧
    ∀ t, t ∈ acc1.2 ↔ t ∈ acc.2 ∨ (t ≠ "" ∧ norm_tag tag = t)) as (Hs1 & Hn1 & H1).
  { unfold add_tag. fold (norm_tag tag). repeat case_decide; cbn; [naive_solver|naive_solver|].
    split_and!; [set_solver|apply NoDup_app; split_and!; [done| |apply NoDup_singleton]|]; [|set_solver].
    intros t Ht ->%list_elem_of_singleton. by apply Hs in Ht. }
  destruct (IH _ Hs1 Hn1) as [Hn' H']. split; [done|]. intros t. rewrite H', H1. set_solver.
Qed.
(** The normal tags: distinct, sorted, not empty. *)
Lemma NormalizeTags_spec tags :
  NoDup (NormalizeTags tags) ∧ StronglySorted String.le (NormalizeTags tags) ∧
  ∀ t, t ∈ NormalizeTags tags ↔ t ≠ "" ∧ ∃ raw, raw ∈ tags ∧ norm_tag raw = t.
Proof.
  destruct (add_tag_fold tags (∅, [])) as [Hn H]; [set_solver|constructor|]. unfold NormalizeTags, sort_strings.
  split_and!; [by rewrite merge_sort_Permutation|apply StronglySorted_merge_sort; apply _|].
  intros t. rewrite merge_sort_Permutation, H. set_solver.
Qed.
Lemma number_steps_spec steps : ∀ i seen steps', number_steps i seen steps = inr steps' →
  length steps' = length steps ∧ NoDup (st_ID <$> steps') ∧ Forall (λ s, st_ID s ∉ seen) steps' ∧
  Forall2 (λ s s', st_Type s' = st_Type s ∧ (blank (st_ID s) = false → st_ID s' = st_ID s)) steps steps'.
Proof.
  induction steps as [|s steps IH]; intros i seen steps'; cbn [number_steps].
  - intros [= <-]. split_and!; [done|constructor|constructor|constructor].
  - case_decide as Hin; [done|]. destruct (number_steps _ _ steps) as [|rest] eqn:E; [done|]. intros [= <-].
    apply IH in E as (Hl & Hn & Hseen & H2). cbn [length fmap list_fmap st_ID]. split_and!.
    + by rewrite Hl.
    + constructor; [|done]. intros (s' & Hid & Hs')%list_elem_of_fmap. rewrite Forall_forall in Hseen. apply Hseen in Hs'. set_solver.
    + constructor; [done|]. eapply Forall_impl; [exact Hseen|]. intros ?. set_solver.
    + constructor; [|done]. split; [done|]. cbn. by intros ->.
Qed.

(** A loaded scenario is well-formed.  It has a step; every step has an
    identifier that no other step has, the one it was written with unless that
    was blank; its tags are distinct, sorted, not empty and in the normal form
    by which scenarios are selected, and so is its lane. *)
Theorem LoadScenario_wellformed d path sc : LoadScenario h d path = inr sc →
  Steps sc ≠ [] ∧ NoDup (st_ID <$> Steps sc) ∧
  NoDup (Tags sc) ∧ StronglySorted String.le (Tags sc) ∧
  ∃ raw, Lane sc = NormalizeLane (Lane raw) ∧ Assertions sc = Assertions raw ∧
    (∀ t, t ∈ Tags sc ↔ t ≠ "" ∧ ∃ tag, tag ∈ Tags raw ∧ norm_tag tag = t) ∧
    Forall2 (λ s s', st_Type s' = st_Type s ∧ (blank (st_ID s) = false → st_ID s' = st_ID s)) (Steps raw) (Steps sc).
Proof.
  unfold LoadScenario. destruct (resolveScenarioFile h d path) as [|resolved]; [done|].
  destruct (lookup_node h d resolved ≫= decode_scenario h) as [[|raw]|]; [done| |done].
  destruct (Steps raw) as [|s0 steps0] eqn:Es; [done|]. rewrite <- Es.
  destruct (number_steps 1 ∅ (Steps raw)) as [|steps] eqn:E; [done|]. intros [= <-].
  apply number_steps_spec in E as (Hl & Hn & _ & H2). destruct (NormalizeTags_spec (Tags raw)) as (Ht & Hsort & Hin).
  cbn [Steps Tags Lane Assertions]. split_and!; [|done..|exists raw; done]. intros ->. by rewrite Es in Hl.
Qed.

End loaded.

#[local] Existing Instance caseless_tables.
Definition plain_host : Host :=
  mkHost (FsAccess.mkEnv (λ _, "") None "/tmp" "/" (λ p, Some p)) (λ s, s) (λ _, "") (λ _, inl "not a report") (λ _, inl "not a scenario")
    (λ p, "stat " +:+ p) (λ p, "open " +:+ p).
Definition plain_step (id type : string) : Step := mkStep id type "" "" "" "" "" "" "" false "" ∅ "" "" "" false.
Definition smoke_scenario : Scenario :=
  mkScenario "" "" " Smoke" ["b"; "A "; "B"] (mkFixtures "" "" "") [plain_step "" StepTypeRunTask; plain_step "last" StepTypeFetchMetrics] [] "".
Definition smoke_disk : Disk := {["/s" := Directory; "/s/smoke" := Directory; "/s/smoke/scenario.json" := Stored (ScenarioDoc smoke_scenario)]}.
Lemma LoadScenario_wellformed_witness : ∃ sc,
  LoadScenario plain_host smoke_disk "/s/smoke" = inr sc ∧ sc_Name sc = "smoke" ∧ Tags sc = ["a"; "b"] ∧
  st_ID <$> Steps sc = ["step-01"; "last"] ∧ NoDup (st_ID <$> Steps sc).
Proof.
  eexists. split; [vm_compute; reflexivity|]. split; [reflexivity|]. split; [reflexivity|]. split; [reflexivity|].
  eapply (LoadScenario_wellformed plain_host smoke_disk "/s/smoke"). vm_compute. reflexivity.
Defined.
