(* ===== verification/HarnessDiff.v ===== *)
(** * Comparing run reports ([harness/diff.go])

    Loading a report, comparing two of them line by line, and the normal forms
    under which texts and artifacts are compared.  The theorems: when a
    comparison is clean, and what a clean comparison says of two reports. *)
From S2P Require Import Prelude GoStrings GoNum GoText DiffText Harness.
From S2P Require FsAccess GoJson ChatText.
Import FsAccess(Env, Abs, Join2, Dir, Rel, IsAbs, comps, render).
Import ChatText(Base).
Open Scope Z_scope.

Record ReportDiff := mkReportDiff { LeftPath : string; RightPath : string; SameScenario : bool; HasDiff : bool; Lines : list string }.

(** ** Formatting *)

Definition fmt_bool (b : bool) : string := if b then "true" else "false".
(** [%v] of a map: by key *)
Definition fmt_map (m : gmap string Z) : string :=
  "map[" +:+ Join ((λ k, k +:+ ":" +:+ Itoa (default 0 (m !! k))) <$> ChatText.sort_strings (map_to_list m).*1) " " +:+ "]".
Definition fmt_len {A} (l : list A) : string := Itoa (Z.of_nat (length l)).
(** [if differ { appendDiff(label: l != r) }] *)
Definition differs (cond : bool) (label l r : string) : list string := if cond then [label +:+ ": " +:+ l +:+ " != " +:+ r] else [].

(** ** Normal forms *)

Definition normalizeAssertionDetails (report : RunReport) (details : string) : string :=
  let details := TrimSpace details in
  if decide (details = "") then "" else
  let hide details root := if decide (root = "") then details else ReplaceAll details root "<runtime-root>" in
  let details := foldl hide details [TrimSpace (RuntimeRoot report); TrimSpace (RunDir report)] in
  let details := replace_words match_entity (len details) false details in
  replace_words match_recall (len details) false details.

(** [left] is compared key by key; a key that [right] lacks counts as 0. *)
Definition equalStringIntMap (left right : gmap string Z) : bool :=
  bool_decide (size left = size right) && forallb (λ kv, default 0 (right !! kv.1) =? kv.2) (map_to_list left).

Definition shortArtifactPath (root full : string) : string :=
  if bool_decide (root = "") || negb (IsAbs full) then Base full else
  match Rel root full with
  | Some rel => if HasPrefix rel ".." then Base full else rel
  | None => Base full
  end.

Section diff.
Variable h : Host.

(** ** Loading *)

Definition resolveReportFilePath (d : Disk) (reportDir kind path : string) : string :=
  let path := TrimSpace path in
  if decide (path = "") then path else
  let fallback := Join2 (Join2 reportDir kind) (Base path) in
  if IsAbs path then
    if exists_ h d path then path else if exists_ h d fallback then fallback else path
  else
    let candidate := Join2 reportDir path in
    if exists_ h d candidate then candidate else if exists_ h d fallback then fallback else candidate.
Definition resolveReportFileList (d : Disk) (paths : list string) (reportDir kind : string) : list string :=
  resolveReportFilePath d reportDir kind <$> paths.
Definition with_paths (s : StepReport) (artifacts observations : list string) : StepReport :=
  mkStepReport (sr_ID s) (sr_Type s) (sr_SessionID s) (sr_TaskID s) (sr_TaskState s) (sr_SelectedSkill s) (sr_ActionID s)
    (ActionStatus s) (ActionFailureCategory s) (ActionReplayed s) (sr_ReplayOfActionID s) (ActionAttempts s) (RetryAttempts s)
    (RetrySucceeded s) (sr_CardType s) (SchedulerTriggered s) (SchedulerSkipReason s) (SchedulerCandidateCount s) (Metrics s)
    (sr_ApprovalID s) (UserContent s) (AssistantContent s) artifacts observations (PromotedCount s)
    (SupersededCount s) (ArchivedCount s) (MemoryFeedbackUpdates s) (ProcedureFeedbackUpdates s) (sr_Progress s) (sr_StartedAt s)
    (sr_FinishedAt s) (sr_Error s).
Definition with_steps (r : RunReport) (steps : list StepReport) : RunReport :=
  mkRunReport (ScenarioName r) (ScenarioDescription r) (ScenarioLane r) (ScenarioTags r) (ScenarioPath r) (RunDir r)
    (RuntimeRoot r) (StartedAt r) (FinishedAt r) (Passed r) steps (AssertionResults r) (rp_Error r).
Definition resolveReportPaths (d : Disk) (report : RunReport) (reportDir : string) : RunReport :=
  with_steps report ((λ s, with_paths s (resolveReportFileList d (sr_ArtifactPaths s) reportDir "artifacts")
    (resolveReportFileList d (sr_ObservationPaths s) reportDir "observations")) <$> StepReports report).
(** The report and the file it is in. *)
Definition LoadRunReport (d : Disk) (path : string) : string + RunReport * string :=
  let reportPath := TrimSpace path in
  if decide (reportPath = "") then inl "report path is required" else
  match lookup_node h d reportPath with
  | None => inl (stat_error h reportPath)
  | Some node =>
      let reportPath := match node with Directory => Join2 reportPath "report.json" | _ => reportPath end in
      match lookup_node h d reportPath ≫= decode_report h with
      | None => inl (open_error h reportPath)
      | Some (inl e) => inl e
      | Some (inr report) => inr (resolveReportPaths d report (Dir (FsAccess.Clean reportPath)), reportPath)
      end
  end.

(** ** Comparing *)

Definition compare_artifact (d : Disk) (prefix : string) (leftRoot rightRoot : string) (i : Z) (left right : option string) : list string :=
  let label := prefix +:+ " artifact[" +:+ Itoa i +:+ "]" in
  match left, right with
  | None, None => []
  | None, Some p => [label +:+ ": missing on left, right=" +:+ shortArtifactPath rightRoot p]
  | Some p, None => [label +:+ ": missing on right, left=" +:+ shortArtifactPath leftRoot p]
  | Some leftPath, Some rightPath =>
      match ReadFile h d leftPath, ReadFile h d rightPath with
      | inr leftRaw, inr rightRaw =>
          if decide (leftRaw = rightRaw) then [] else
          let '(leftKind, leftNormalized) := normalizeArtifactContent leftRaw in
          let '(rightKind, rightNormalized) := normalizeArtifactContent rightRaw in
          if bool_decide (leftKind = rightKind) && bool_decide (leftNormalized = rightNormalized) then [] else
          let diffKind := if decide (leftKind = rightKind ∧ leftKind ≠ "") then leftKind +:+ " semantic" else "content" in
          [label +:+ " " +:+ diffKind +:+ " differs: " +:+ shortArtifactPath leftRoot leftPath +:+ " != " +:+ shortArtifactPath rightRoot rightPath]
      | l, r =>
          match l with inl e => [label +:+ ": read left failed: " +:+ e] | inr _ => [] end
          ++ match r with inl e => [label +:+ ": read right failed: " +:+ e] | inr _ => [] end
      end
  end.
Definition compareArtifactContents (d : Disk) (prefix : string) (left : StepReport) (leftRoot : string) (right : StepReport) (rightRoot : string)
    : list string :=
  seq 0 (Nat.max (length (sr_ArtifactPaths left)) (length (sr_ArtifactPaths right))) ≫= λ i,
    compare_artifact d prefix leftRoot rightRoot (Z.of_nat i) (sr_ArtifactPaths left !! i) (sr_ArtifactPaths right !! i).

Definition differ_string (prefix name : string) (l r : string) : list string :=
  differs (negb (bool_decide (l = r))) (prefix +:+ name) (Quote h l) (Quote h r).
Definition differ_bool (prefix name : string) (l r : bool) : list string :=
  differs (negb (bool_decide (l = r))) (prefix +:+ name) (fmt_bool l) (fmt_bool r).
Definition differ_int (prefix name : string) (l r : Z) : list string :=
  differs (negb (l =? r)) (prefix +:+ name) (Itoa l) (Itoa r).
Definition differ_len {A} (prefix name : string) (l r : list A) : list string :=
  differs (negb (length l =? length r)%nat) (prefix +:+ name) (fmt_len l) (fmt_len r).
Definition differ_map (prefix name : string) (l r : gmap string Z) : list string :=
  differs (negb (equalStringIntMap l r)) (prefix +:+ name) (fmt_map l) (fmt_map r).
(** The fields of a step, in the order of the source. *)
Definition diff_identity (prefix : string) (l r : StepReport) : list string :=
  differ_string prefix " id" (sr_ID l) (sr_ID r)
  ++ differ_string prefix " type" (sr_Type l) (sr_Type r)
  ++ differ_string prefix " task_state" (sr_TaskState l) (sr_TaskState r)
  ++ differ_string prefix " selected_skill" (sr_SelectedSkill l) (sr_SelectedSkill r)
  ++ differ_bool prefix " scheduler_triggered" (SchedulerTriggered l) (SchedulerTriggered r)
  ++ differ_string prefix " scheduler_skip_reason" (SchedulerSkipReason l) (SchedulerSkipReason r)
  ++ differ_int prefix " scheduler_candidate_count" (SchedulerCandidateCount l) (SchedulerCandidateCount r).
Definition diff_metrics (prefix : string) (l r : MetricsSnapshot) : list string :=
  differ_int prefix " metrics.total_tasks" (TotalTasks l) (TotalTasks r)
  ++ differ_int prefix " metrics.total_actions" (TotalActions l) (TotalActions r)
  ++ differ_int prefix " metrics.total_memory_cards" (TotalMemoryCards l) (TotalMemoryCards r)
  ++ differ_int prefix " metrics.active_skills" (ActiveSkills l) (ActiveSkills r)
  ++ differ_map prefix " metrics.tasks_by_state" (TasksByState l) (TasksByState r)
  ++ differ_map prefix " metrics.actions_by_status" (ActionsByStatus l) (ActionsByStatus r)
  ++ differ_map prefix " metrics.actions_by_failure_category" (ActionsByFailureCategory l) (ActionsByFailureCategory r)
  ++ differ_map prefix " metrics.memory_by_status" (MemoryByStatus l) (MemoryByStatus r).
Definition diff_action (prefix : string) (l r : StepReport) : list string :=
  differ_string prefix " action_status" (ActionStatus l) (ActionStatus r)
  ++ differ_string prefix " action_failure_category" (ActionFailureCategory l) (ActionFailureCategory r)
  ++ differ_bool prefix " action_replayed" (ActionReplayed l) (ActionReplayed r)
  ++ differs (negb (bool_decide (blank (sr_ReplayOfActionID l) = blank (sr_ReplayOfActionID r)))) (prefix +:+ " replay_of_action_id presence")
       (Quote h (sr_ReplayOfActionID l)) (Quote h (sr_ReplayOfActionID r))
  ++ differ_int prefix " action_attempts" (ActionAttempts l) (ActionAttempts r)
  ++ differ_int prefix " retry_attempts" (RetryAttempts l) (RetryAttempts r)
  ++ differ_bool prefix " retry_succeeded" (RetrySucceeded l) (RetrySucceeded r)
  ++ differ_int prefix " memory_feedback_updates" (MemoryFeedbackUpdates l) (MemoryFeedbackUpdates r)
  ++ differ_int prefix " procedure_feedback_updates" (ProcedureFeedbackUpdates l) (ProcedureFeedbackUpdates r).
Definition diff_outputs (d : Disk) (prefix leftRoot rightRoot : string) (l r : StepReport) : list string :=
  differ_len prefix " artifact_count" (sr_ArtifactPaths l) (sr_ArtifactPaths r)
  ++ compareArtifactContents d prefix l leftRoot r rightRoot
  ++ differ_len prefix " observation_count" (sr_ObservationPaths l) (sr_ObservationPaths r)
  ++ differ_len prefix " progress_count" (sr_Progress l) (sr_Progress r).
Definition diff_step (d : Disk) (leftRoot rightRoot : string) (i : Z) (l r : StepReport) : list string :=
  let prefix := "step[" +:+ Itoa i +:+ "](" +:+ firstNonEmpty [sr_ID l; sr_ID r] +:+ ")" in
  diff_identity prefix l r ++ diff_metrics prefix (Metrics l) (Metrics r) ++ diff_action prefix l r
  ++ diff_outputs d prefix leftRoot rightRoot l r.
Definition diff_assertion (left right : RunReport) (i : Z) (l r : AssertionResult) : list string :=
  let prefix := "assertion[" +:+ Itoa i +:+ "](" +:+ ar_Type l +:+ ")" in
  differs (negb (bool_decide (ar_Type l = ar_Type r)) || negb (bool_decide (ar_Step l = ar_Step r))) (prefix +:+ " identity")
    ("(" +:+ ar_Type l +:+ "," +:+ ar_Step l +:+ ")") ("(" +:+ ar_Type r +:+ "," +:+ ar_Step r +:+ ")")
  ++ differ_bool prefix " passed" (ar_Passed l) (ar_Passed r)
  ++ differ_string prefix " details" (normalizeAssertionDetails left (Details l)) (normalizeAssertionDetails right (Details r)).

(** [for i := 0; i < max(len(left), len(right)); i++] *)
Definition diff_lists {A} (what : string) (show : A → string) (both : Z → A → A → list string) (left right : list A) : list string :=
  seq 0 (Nat.max (length left) (length right)) ≫= λ i,
    let label := what +:+ "[" +:+ Itoa (Z.of_nat i) +:+ "]" in
    match left !! i, right !! i with
    | None, None => []
    | None, Some r => [label +:+ ": missing on left, right=" +:+ show r]
    | Some l, None => [label +:+ ": missing on right, left=" +:+ show l]
    | Some l, Some r => both (Z.of_nat i) l r
    end.
Definition diff_lines (d : Disk) (left right : RunReport) : list string :=
  differ_string "" "scenario_name" (ScenarioName left) (ScenarioName right)
  ++ differ_bool "" "passed" (Passed left) (Passed right)
  ++ differ_len "" "assertion_count" (AssertionResults left) (AssertionResults right)
  ++ differ_len "" "step_count" (StepReports left) (StepReports right)
  ++ diff_lists "step" (λ s, sr_ID s +:+ "/" +:+ sr_Type s) (diff_step d (RuntimeRoot left) (RuntimeRoot right))
       (StepReports left) (StepReports right)
  ++ diff_lists "assertion" ar_Description (diff_assertion left right) (AssertionResults left) (AssertionResults right).
Definition DiffReports (d : Disk) (left : RunReport) (leftPath : string) (right : RunReport) (rightPath : string) : ReportDiff :=
  let lines := diff_lines d left right in
  let hasDiff := negb (bool_decide (lines = [])) in
  mkReportDiff leftPath rightPath (bool_decide (ScenarioName left = ScenarioName right)) hasDiff
    (if hasDiff then lines else ["no differences"]).
End diff.

(** ** When a comparison is clean *)

Lemma differs_nil c label l r : differs c label l r = [] ↔ c = false.
Proof. unfold differs. by destruct c. Qed.
Lemma bind_nil {A B} (f : A → list B) l : (l ≫= f) = [] ↔ ∀ x, x ∈ l → f x = [].
Proof.
  induction l as [|x l IH]; [split; [by intros _ x ?%elem_of_nil|done]|].
  rewrite bind_cons, app_nil, IH. split; [intros [??] y [->|?]%elem_of_cons; auto|].
  intros H. split; [apply H; by left|intros; apply H; by right].
Qed.
(** Two lists of one length that agree position by position. *)
Lemma positions_agree {A} (P : A → A → Prop) (f : nat → option A → option A → list string) (l r : list A) :
  (∀ i x y, f i (Some x) (Some y) = [] ↔ P x y) →
  length l = length r ∧ (seq 0 (Nat.max (length l) (length r)) ≫= λ i, f i (l !! i) (r !! i)) = [] ↔ Forall2 P l r.
Proof.
  intros Hf. rewrite bind_nil, Forall2_lookup. split.
  - intros [Hl H] i. specialize (H i). rewrite elem_of_seq in H.
    destruct (l !! i) as [x|] eqn:E, (r !! i) as [y|] eqn:E'.
    + apply Some_Forall2, (Hf i), H. apply lookup_lt_Some in E. lia.
    + apply lookup_lt_Some in E. apply lookup_ge_None in E'. lia.
    + apply lookup_lt_Some in E'. apply lookup_ge_None in E. lia.
    + apply None_Forall2.
  - intros H. assert (length l = length r) as Hl.
    { apply Forall2_length with (P := P), Forall2_lookup. exact H. }
    split; [done|]. intros i Hi%elem_of_seq. destruct (lookup_lt_is_Some_2 l i) as [x E]; [lia|].
    destruct (lookup_lt_is_Some_2 r i) as [y E']; [lia|]. specialize (H i). rewrite E, E' in H |- *. inversion H. by apply Hf.
Qed.

(** Counts without zeros are compared exactly. *)
Lemma equalStringIntMap_exact l r : (∀ k, l !! k ≠ Some 0) → (∀ k, r !! k ≠ Some 0) → equalStringIntMap l r = true ↔ l = r.
Proof.
  intros Hl Hr. unfold equalStringIntMap. rewrite andb_true_iff, bool_decide_eq_true, forallb_forall. split.
  - intros [Hsize H]. assert (l ⊆ r) as Hsub.
    { apply map_subseteq_spec. intros k v Hk. assert (In (k, v) (map_to_list l)) as Hin by by apply list_elem_of_In, elem_of_map_to_list.
      apply H, Z.eqb_eq in Hin. cbn in Hin. destruct (r !! k) as [v'|] eqn:E; cbn in *; [by subst|]. by subst; apply Hl in Hk. }
    apply map_subseteq_size_eq; [done|lia].
  - intros <-. split; [done|]. intros [k v] Hin%list_elem_of_In%elem_of_map_to_list. cbn. rewrite Hin. apply Z.eqb_refl.
Qed.
Lemma equalStringIntMap_refl l : equalStringIntMap l l = true.
Proof.
  unfold equalStringIntMap. rewrite bool_decide_true by done. apply forallb_forall.
  intros [k v] Hin%list_elem_of_In%elem_of_map_to_list. cbn. rewrite Hin. apply Z.eqb_refl.
Qed.
(** With zeros the comparison depends on the side: [other] is not looked at. *)
Lemma equalStringIntMap_one_sided : let l : gmap string Z := {["done" := 0; "failed" := 1]} in
  let r : gmap string Z := {["failed" := 1; "other" := 5]} in equalStringIntMap l r = true ∧ equalStringIntMap r l = false.
Proof. by vm_compute. Qed.

Section clean.
Variable h : Host.

(** Two artifacts are the same when both can be read and their contents say
    the same. *)
Definition same_artifact (d : Disk) (p q : string) : Prop :=
  ∃ a b, ReadFile h d p = inr a ∧ ReadFile h d q = inr b ∧ same_content a b.
(** What no line on the metrics means. *)
Definition metrics_match (l r : MetricsSnapshot) : Prop :=
  TotalTasks l = TotalTasks r ∧ TotalActions l = TotalActions r ∧ TotalMemoryCards l = TotalMemoryCards r ∧ ActiveSkills l = ActiveSkills r ∧
  equalStringIntMap (TasksByState l) (TasksByState r) = true ∧ equalStringIntMap (ActionsByStatus l) (ActionsByStatus r) = true ∧
  equalStringIntMap (ActionsByFailureCategory l) (ActionsByFailureCategory r) = true ∧
  equalStringIntMap (MemoryByStatus l) (MemoryByStatus r) = true.
(** Metrics that list only what there is. *)
Definition counted (m : MetricsSnapshot) : Prop :=
  (∀ k, TasksByState m !! k ≠ Some 0) ∧ (∀ k, ActionsByStatus m !! k ≠ Some 0) ∧
  (∀ k, ActionsByFailureCategory m !! k ≠ Some 0) ∧ (∀ k, MemoryByStatus m !! k ≠ Some 0).
Lemma metrics_match_counted l r : counted l → counted r → metrics_match l r ↔ l = r.
Proof.
  intros (L1 & L2 & L3 & L4) (R1 & R2 & R3 & R4). unfold metrics_match. rewrite !equalStringIntMap_exact by done.
  destruct l, r. cbn. split; [intros (E1 & E2 & E3 & E4 & E5 & E6 & E7 & E8); congruence|intros [= -> -> -> -> -> -> -> ->]; by split_and!].
Qed.
Definition same_identity (l r : StepReport) : Prop :=
  sr_ID l = sr_ID r ∧ sr_Type l = sr_Type r ∧ sr_TaskState l = sr_TaskState r ∧ sr_SelectedSkill l = sr_SelectedSkill r ∧
  SchedulerTriggered l = SchedulerTriggered r ∧ SchedulerSkipReason l = SchedulerSkipReason r ∧
  SchedulerCandidateCount l = SchedulerCandidateCount r.
Definition same_action (l r : StepReport) : Prop :=
  ActionStatus l = ActionStatus r ∧ ActionFailureCategory l = ActionFailureCategory r ∧ ActionReplayed l = ActionReplayed r ∧
  blank (sr_ReplayOfActionID l) = blank (sr_ReplayOfActionID r) ∧ ActionAttempts l = ActionAttempts r ∧
  RetryAttempts l = RetryAttempts r ∧ RetrySucceeded l = RetrySucceeded r ∧ MemoryFeedbackUpdates l = MemoryFeedbackUpdates r ∧
  ProcedureFeedbackUpdates l = ProcedureFeedbackUpdates r.
Definition same_outputs (d : Disk) (l r : StepReport) : Prop :=
  Forall2 (same_artifact d) (sr_ArtifactPaths l) (sr_ArtifactPaths r) ∧
  length (sr_ObservationPaths l) = length (sr_ObservationPaths r) ∧ length (sr_Progress l) = length (sr_Progress r).
(** Identifiers of tasks, actions and approvals, contents of messages, errors
    and times are free; [agree] compares the metrics. *)
Definition same_step (agree : MetricsSnapshot → MetricsSnapshot → Prop) (d : Disk) (l r : StepReport) : Prop :=
  same_identity l r ∧ agree (Metrics l) (Metrics r) ∧ same_action l r ∧ same_outputs d l r.
(** What the details of an assertion say: the roots of the run, the numbers of
    entities and the kinds of recall results are hidden. *)
Definition without_root (details root : string) : string := if decide (root = "") then details else ReplaceAll details root "<runtime-root>".
Definition shown_details (report : RunReport) (details : string) : string :=
  on_tokens hide_recall (on_tokens hide_entities
    (without_root (without_root (TrimSpace details) (TrimSpace (RuntimeRoot report))) (TrimSpace (RunDir report)))).
Lemma normalizeAssertionDetails_tokens report details : normalizeAssertionDetails report details = shown_details report details.
Proof.
  unfold normalizeAssertionDetails, shown_details. cbv zeta. case_decide as E.
  - rewrite E. unfold without_root. by repeat case_decide.
  - cbn [foldl]. rewrite entities_on_tokens by done. by rewrite results_on_tokens.
Qed.
Definition same_assertion (left right : RunReport) (l r : AssertionResult) : Prop :=
  ar_Type l = ar_Type r ∧ ar_Step l = ar_Step r ∧ ar_Passed l = ar_Passed r ∧
  shown_details left (Details l) = shown_details right (Details r).

Lemma compare_artifact_nil d prefix lr rr i p q : compare_artifact h d prefix lr rr i (Some p) (Some q) = [] ↔ same_artifact d p q.
Proof.
  unfold compare_artifact, same_artifact. destruct (ReadFile h d p) as [e|a], (ReadFile h d q) as [e'|b]; cbn [app].
  1-3: split; [done|]; intros (? & ? & ? & ? & _); congruence.
  transitivity (same_content a b); [|split; [intros H; by exists a, b|by intros (? & ? & [= <-] & [= <-] & H)]].
  rewrite <- normalize_agree. case_decide as E; [split; [by left|done]|].
  destruct (normalizeArtifactContent a) as [k n] eqn:Ea, (normalizeArtifactContent b) as [k' n'] eqn:Eb.
  destruct (decide (k = k' ∧ n = n')) as [[<- <-]|Hne]; [rewrite !bool_decide_true by done; split; [by right|done]|].
  replace (bool_decide (k = k') && bool_decide (n = n')) with false by (do 2 case_bool_decide; naive_solver).
  split; [done|]. intros [?|En]; [done|]. exfalso. apply Hne. by injection En as <- <-.
Qed.
Lemma negb_bool_decide_false P `{Decision P} : negb (bool_decide P) = false ↔ P.
Proof. by rewrite negb_false_iff, bool_decide_eq_true. Qed.
Lemma differ_string_nil p n l r : differ_string h p n l r = [] ↔ l = r.
Proof. unfold differ_string. by rewrite differs_nil, negb_bool_decide_false. Qed.
Lemma differ_bool_nil p n l r : differ_bool p n l r = [] ↔ l = r.
Proof. unfold differ_bool. by rewrite differs_nil, negb_bool_decide_false. Qed.
Lemma differ_int_nil p n l r : differ_int p n l r = [] ↔ l = r.
Proof. unfold differ_int. by rewrite differs_nil, negb_false_iff, Z.eqb_eq. Qed.
Lemma differ_len_nil {A} p n (l r : list A) : differ_len p n l r = [] ↔ length l = length r.
Proof. unfold differ_len. by rewrite differs_nil, negb_false_iff, Nat.eqb_eq. Qed.
Lemma differ_map_nil p n l r : differ_map p n l r = [] ↔ equalStringIntMap l r = true.
Proof. unfold differ_map. by rewrite differs_nil, negb_false_iff. Qed.
Lemma artifacts_nil d prefix l lr r rr :
  length (sr_ArtifactPaths l) = length (sr_ArtifactPaths r) ∧ compareArtifactContents h d prefix l lr r rr = []
  ↔ Forall2 (same_artifact d) (sr_ArtifactPaths l) (sr_ArtifactPaths r).
Proof.
  apply (positions_agree (same_artifact d) (λ i, compare_artifact h d prefix lr rr (Z.of_nat i))).
  intros. apply compare_artifact_nil.
Qed.
Lemma diff_identity_nil p l r : diff_identity h p l r = [] ↔ same_identity l r.
Proof.
  unfold diff_identity, same_identity. rewrite !app_nil, !differ_string_nil, !differ_bool_nil, differ_int_nil. tauto.
Qed.
Lemma diff_metrics_nil p l r : diff_metrics p l r = [] ↔ metrics_match l r.
Proof. unfold diff_metrics, metrics_match. rewrite !app_nil, !differ_int_nil, !differ_map_nil. tauto. Qed.
Lemma diff_action_nil p l r : diff_action h p l r = [] ↔ same_action l r.
Proof.
  unfold diff_action, same_action. rewrite !app_nil, !differ_string_nil, !differ_bool_nil, !differ_int_nil, differs_nil, negb_bool_decide_false. tauto.
Qed.
Lemma diff_outputs_nil d p lr rr l r : diff_outputs h d p lr rr l r = [] ↔ same_outputs d l r.
Proof.
  unfold diff_outputs, same_outputs. rewrite !app_nil, !differ_len_nil, <- (artifacts_nil d p l lr r rr). tauto.
Qed.
Lemma diff_step_nil d lr rr i l r : diff_step h d lr rr i l r = [] ↔ same_step metrics_match d l r.
Proof. unfold diff_step, same_step. by rewrite !app_nil, diff_identity_nil, diff_metrics_nil, diff_action_nil, diff_outputs_nil. Qed.
Lemma diff_assertion_nil left right i l r : diff_assertion h left right i l r = [] ↔ same_assertion left right l r.
Proof.
  unfold diff_assertion, same_assertion. rewrite <- !normalizeAssertionDetails_tokens. rewrite !app_nil, differ_bool_nil, differ_string_nil, differs_nil, orb_false_iff,
    !negb_bool_decide_false. tauto.
Qed.
Lemma diff_lists_nil {A} what show (both : Z → A → A → list string) P l r : (∀ i x y, both i x y = [] ↔ P x y) →
  length l = length r ∧ diff_lists what show both l r = [] ↔ Forall2 P l r.
Proof.
  intros H. apply (positions_agree P (λ i x y, match x, y with
    | None, None => [] | None, Some r => [_] | Some l, None => [_] | Some l, Some r => both (Z.of_nat i) l r end)).
  intros i x y. apply H.
Qed.

Lemma Forall2_iff_in {A} (P Q : A → A → Prop) (l r : list A) : (∀ x y, x ∈ l → y ∈ r → P x y ↔ Q x y) → Forall2 P l r ↔ Forall2 Q l r.
Proof.
  intros H. rewrite !Forall2_same_length_lookup. apply and_iff_compat_l. split; intros HP i x y Hx Hy;
    apply (H x y (list_elem_of_lookup_2 _ _ _ Hx) (list_elem_of_lookup_2 _ _ _ Hy)), (HP i); done.
Qed.
Lemma Forall2_diag_in {A} (P : A → A → Prop) (l : list A) : (∀ x, x ∈ l → P x x) → Forall2 P l l.
Proof. intros H. apply Forall_Forall2_diag, Forall_forall, H. Qed.
Lemma diff_clean d left leftPath right rightPath : HasDiff (DiffReports h d left leftPath right rightPath) = false ↔
  ScenarioName left = ScenarioName right ∧ Passed left = Passed right ∧
  Forall2 (same_step metrics_match d) (StepReports left) (StepReports right) ∧
  Forall2 (same_assertion left right) (AssertionResults left) (AssertionResults right).
Proof.
  cbn [HasDiff DiffReports]. rewrite negb_bool_decide_false. unfold diff_lines.
  rewrite !app_nil, differ_string_nil, differ_bool_nil, !differ_len_nil.
  rewrite <- (diff_lists_nil "step" (λ s, sr_ID s +:+ "/" +:+ sr_Type s) (diff_step h d (RuntimeRoot left) (RuntimeRoot right)))
    by (intros; apply diff_step_nil).
  rewrite <- (diff_lists_nil "assertion" ar_Description (diff_assertion h left right)) by (intros; apply diff_assertion_nil). tauto.
Qed.

(** C32. A comparison of two reports is clean exactly when the runs agree.  For
    reports whose metrics list no zero counts, as the harness writes them, it
    reports no difference if and only if the scenario and the verdict are the
    same and, one by one, the steps agree in identity, states, counts and equal
    metrics, and in artifacts that can all be read and say the same, that is
    have the same bytes, one JSON value, or the same paragraphs of lines of
    words; and the assertions agree in identity, verdict and details, up to
    the roots of the runs, the numbers of entities and the kinds of recall
    results, token by token.  So a report agrees with itself if and only if
    all its artifacts can be read. *)
Theorem DiffReports_exact d left leftPath right rightPath :
  Forall (counted ∘ Metrics) (StepReports left) → Forall (counted ∘ Metrics) (StepReports right) →
  let diff := DiffReports h d left leftPath right rightPath in
  (HasDiff diff = false ↔
    ScenarioName left = ScenarioName right ∧ Passed left = Passed right ∧
    Forall2 (same_step eq d) (StepReports left) (StepReports right) ∧
    Forall2 (same_assertion left right) (AssertionResults left) (AssertionResults right)) ∧
  (HasDiff diff = false → Lines diff = ["no differences"]) ∧
  (left = right → HasDiff diff = false ↔
    ∀ s p, s ∈ StepReports left → p ∈ sr_ArtifactPaths s → ∃ text, ReadFile h d p = inr text).
Proof.
  intros Hl Hr. cbv zeta. assert (∀ l r, l ∈ StepReports left → r ∈ StepReports right → same_step metrics_match d l r ↔ same_step eq d l r) as Hstep.
  { intros l r Hin Hin'. unfold same_step. rewrite Forall_forall in Hl, Hr. by rewrite (metrics_match_counted _ _ (Hl l Hin) (Hr r Hin')). }
  assert (HasDiff (DiffReports h d left leftPath right rightPath) = false ↔
    ScenarioName left = ScenarioName right ∧ Passed left = Passed right ∧ Forall2 (same_step eq d) (StepReports left) (StepReports right) ∧
    Forall2 (same_assertion left right) (AssertionResults left) (AssertionResults right)) as Hclean.
  { rewrite diff_clean. enough (Forall2 (same_step metrics_match d) (StepReports left) (StepReports right) ↔
      Forall2 (same_step eq d) (StepReports left) (StepReports right)) as -> by done.
    by apply Forall2_iff_in. }
  split_and!; [exact Hclean| |].
  - unfold DiffReports. cbn [HasDiff Lines]. by intros ->.
  - intros <-. rewrite Hclean. split.
    + intros (_ & _ & Hs & _) s p Hin Hp. apply list_elem_of_lookup in Hin as [i Hi].
      destruct (Forall2_lookup_lr _ _ _ _ _ _ Hs Hi Hi) as (_ & _ & _ & Ha & _).
      apply list_elem_of_lookup in Hp as [j Hj]. destruct (Forall2_lookup_lr _ _ _ _ _ _ Ha Hj Hj) as (a & _ & H & _). eauto.
    + intros H. split_and!; [done..|apply Forall2_diag_in|apply Forall2_diag_in; done].
      intros s Hs. unfold same_step, same_identity, same_action, same_outputs. split_and!; try done.
      apply Forall2_diag_in. intros p Hp. destruct (H s p Hs Hp) as [text Ht]. exists text, text. split_and!; [done..|by left].
Qed.
End clean.

(** ** Two runs of a scenario *)

#[local] Existing Instance caseless_tables.
Definition counts : MetricsSnapshot := mkMetrics 1 {["done" := 1]} 0 ∅ ∅ 0 ∅ 0.
(** A step that left an artifact, and a task with a number. *)
Definition left_step (task : string) (m : MetricsSnapshot) (artifacts : list string) : StepReport :=
  mkStepReport "run" "run_task" "default" task "done" "task-plan" "" "" "" false "" 0 0 false "" false "" 0 m "" "" ""
    artifacts [] 0 0 0 0 0 [] zeroTime zeroTime "".
Definition one_run (dir task artifact details : string) : RunReport :=
  mkRunReport "smoke" "" "smoke" [] "" dir (dir +:+ "/runtime") zeroTime zeroTime true [left_step task counts [artifact]]
    [mkAssertionResult "task_state" "run" true "" details] "".
Definition first_run := one_run "/runs/a" "task-17" "/a.md" "task-17 is done in /runs/a/runtime, recall hit 1".
Definition second_run := one_run "/runs/b" "task-204" "/b.md" "task-204 is done in /runs/b/runtime, recall card 1 ".
Definition other_run := one_run "/runs/c" "task-5" "/c.md" "task-5 is done in /runs/c/runtime, recall hit 1".
Definition lines_of (l : list string) : string := Join l newline.
Definition diff_disk : Disk := {["/a.md" := Bytes (lines_of ["# Plan"; ""; "look  around"; ""; ""; "leave"]);
  "/b.md" := Bytes (lines_of [""; "#   Plan"; ""; "look around "; " "; "leave"; ""]); "/c.md" := Bytes (lines_of ["# Plan"; "look around"; "leave"])]}.
Lemma one_run_counted dir task artifact details : Forall (counted ∘ Metrics) (StepReports (one_run dir task artifact details)).
Proof.
  repeat constructor; cbn; intros k; [|by rewrite lookup_empty..]. by intros [_ ?]%lookup_singleton_Some.
Qed.
Lemma DiffReports_exact_witness :
  Forall2 (same_step plain_host eq diff_disk) (StepReports first_run) (StepReports second_run) ∧
  ¬ Forall2 (same_step plain_host eq diff_disk) (StepReports first_run) (StepReports other_run).
Proof.
  split.
  - destruct (DiffReports_exact plain_host diff_disk first_run "" second_run "") as ([H _] & _); [apply one_run_counted..|].
    apply H. vm_compute. reflexivity.
  - intros H. assert (HasDiff (DiffReports plain_host diff_disk first_run "" other_run "") = true) as E by (vm_compute; reflexivity).
    destruct (DiffReports_exact plain_host diff_disk first_run "" other_run "") as ([_ H'] & _); [apply one_run_counted..|].
    rewrite H' in E; [discriminate E|]. split; [reflexivity|]. split; [reflexivity|]. split; [exact H|].
    constructor; [|constructor]. split; [reflexivity|]. split; [reflexivity|]. split; [reflexivity|]. vm_compute. reflexivity.
Defined.
