(* ===== verification/HarnessRollup.v ===== *)
(** * Collecting runs, rollups and baselines ([harness/rollup.go])

    The runs below a directory, their statistics per scenario, and baselines:
    reports saved with their artifacts, against which later runs are compared.
    The theorems: the statistics are the sums they announce in any order of
    the scenario map, and a saved baseline is matched by the runs it was saved
    from. *)
From S2P Require Import Prelude GoStrings GoNum GoText Harness HarnessDiff.
From S2P Require FsAccess GoTime GoJson ChatText.
Import FsAccess(Env, Abs, Join2, Dir, Rel, IsAbs, comps, render).
Import ChatText(Base, sort_strings).
Open Scope Z_scope.

(** ** Names and times *)

Definition slug_byte (a : ascii) : string :=
  if bool_decide (a ∈ [" "%char; "_"%char; "/"%char; "\"%char; "."%char; ":"%char; ","%char]) then "-"
  else if bool_decide (a ∈ ["("%char; ")"%char]) then "" else String a "".
Definition slugify {tables : UnicodeTables} (value : string) : string :=
  let value := TrimByte (ReplaceBytes slug_byte (ToLower (TrimSpace value))) "-" in
  if decide (value = "") then "scenario" else value.

Definition leap_year (y : Z) : bool := (y mod 4 =? 0) && (negb (y mod 100 =? 0) || (y mod 400 =? 0)).
Definition daysIn (m y : Z) : Z :=
  if m =? 2 then if leap_year y then 29 else 28 else if bool_decide (m ∈ [4; 6; 9; 11]) then 30 else 31.
(** The number of a day, from the 400-year era of its March-based year. *)
Definition days_of_civil (y m d : Z) : Z :=
  let y := if m <=? 2 then y - 1 else y in
  let era := y / 400 in
  let yoe := y mod 400 in
  let doy := (153 * (if 2 <? m then m - 3 else m + 9) + 2) / 5 + d - 1 in
  era * 146097 + (yoe * 365 + yoe / 4 - yoe / 100 + doy) - 719468.
(** [n] digits *)
Fixpoint take_digits (n : nat) (acc : Z) (s : string) : option (Z * string) :=
  match n, s with
  | O, _ => Some (acc, s)
  | S n, String a r => d ← digit_of a; take_digits n (10 * acc + d) r
  | _, _ => None
  end.
Definition expect (c : ascii) (s : string) : option string := match s with String a r => if decide (a = c) then Some r else None | "" => None end.
(** [time.Parse] with the layout 20060102T150405Z *)
Definition parse_stamp (s : string) : option Time :=
  '(y, s) ← take_digits 4 0 s; '(m, s) ← take_digits 2 0 s; '(d, s) ← take_digits 2 0 s;
  s ← expect "T" s;
  '(hh, s) ← take_digits 2 0 s; '(mm, s) ← take_digits 2 0 s; '(ss, s) ← take_digits 2 0 s;
  s ← expect "Z" s;
  if bool_decide (s = "") && (1 <=? m) && (m <=? 12) && (1 <=? d) && (d <=? daysIn m y) && (hh <? 24) && (mm <? 60) && (ss <? 60)
  then Some ((days_of_civil y m d * 86400 + hh * 3600 + mm * 60 + ss) * Second) else None.
Definition parseLatestRunTime (runDir : string) : Time :=
  if blank runDir then zeroTime else
  let base := Base runDir in
  if (len base <? 16)%nat then zeroTime else default zeroTime (parse_stamp (take_bytes 16 base)).

(** ** Kinds of assertions *)

Definition isWorkingMemoryAssertion (kind : string) : bool :=
  bool_decide (kind ∈ ["session_state_contains"; "working_topic_contains"; "working_focus_task_equals";
    "working_pending_question_contains"; "working_pending_action_contains"]).
Definition isDurableMemoryAssertion (kind : string) : bool :=
  bool_decide (kind ∈ ["memory_card_count"; "memory_card_contains"; "edge_count"; "durable_card_count"; "durable_card_contains";
    "durable_card_status"; "durable_card_confidence_range"; "durable_card_scope"; "durable_card_supersedes";
    "durable_card_version_equals"; "durable_card_version_at_least"; "durable_card_activation_score_range"; "edge_exists"]).
Definition isProcedureMemoryAssertion (kind : string) : bool :=
  bool_decide (kind ∈ ["procedure_count"; "procedure_contains"; "procedure_step_contains"]).
Definition isRecallMemoryAssertion (kind : string) : bool := bool_decide (kind ∈ ["recall_contains"; "recall_not_contains"]).

(** ** Failures *)

Definition more_frequent (a b : string * Z) : Prop := b.2 < a.2 ∨ (a.2 = b.2 ∧ String.le a.1 b.1).
#[export] Instance more_frequent_dec : RelDecision more_frequent := λ a b, _.
Definition topFailureMessages (ord : list string) (failures : gmap string Z) (limit : Z) : list string :=
  if bool_decide (failures = ∅) || (limit <=? 0) then [] else
  let items := merge_sort more_frequent (omap (λ text, count ← failures !! text; Some (text, count)) ord) in
  (λ it, it.1 +:+ " (x" +:+ Itoa it.2 +:+ ")") <$> take (Z.to_nat limit) items.

(** ** Statistics of a scenario *)

Record accum := mkAccum { stats : ScenarioStats; totalDuration : Z; failures : gmap string Z }.
Definition new_stats (name : string) : ScenarioStats :=
  mkStats name 0 0 0 0 0 0 0 0 0 0 0 0 0 0 0 0 0 0 0 0 0 0 0 0 0 0 0 0 "" "" [].
Definition new_accum (name : string) : accum := mkAccum (new_stats name) 0 ∅.
Definition one (b : bool) : Z := if b then 1 else 0.
Definition failure_key (a : AssertionResult) : string := firstNonEmpty [Details a; ar_Description a; ar_Type a].
Definition count_assertion (e : accum) (a : AssertionResult) : accum :=
  let s := stats e in
  let working := isWorkingMemoryAssertion (ar_Type a) in
  let procedure := isProcedureMemoryAssertion (ar_Type a) in
  let durable := isDurableMemoryAssertion (ar_Type a) in
  let recall := isRecallMemoryAssertion (ar_Type a) in
  let failed := negb (ar_Passed a) in
  mkAccum
    (mkStats (ss_ScenarioName s) (ss_RunCount s) (ss_PassedCount s) (ss_FailedCount s) (AssertionCount s)
      (FailedAssertions s + one failed)
      (WorkingAssertions s + one working)
      (DurableAssertions s + one (negb working && negb procedure && durable))
      (RecallAssertions s + one (negb working && negb procedure && negb durable && recall))
      (ProcedureAssertions s + one (negb working && procedure))
      (ProcedurePromotions s) (ProcedureSupersedes s) (ss_MemoryFeedbackUpdates s) (ss_ProcedureFeedbackUpdates s)
      (ss_RetryAttempts s) (RetrySuccesses s) (ActionReplays s) (MetricsSnapshots s) (MaxObservedTasks s) (MaxObservedActions s)
      (MaxObservedMemoryCards s) (SchedulerTriggers s) (SchedulerCooldownSkips s) (SchedulerThresholdSkips s)
      (SchedulerTypeSkips s) (SchedulerExistingSkips s) (SchedulerBusySkips s)
      (MemoryFailures s + one (failed && (working || procedure || durable || recall)))
      (AverageDurationMS s) (LatestRunDir s) (LatestError s) (TopFailureMessages s))
    (totalDuration e)
    (if failed then
       <[failure_key a := default 0 (failures e !! failure_key a) + 1]> (failures e)
     else failures e).
(** Sums of numbers that are read from reports wrap around. *)
Definition count_step (e : accum) (p : StepReport) : accum :=
  let s := stats e in
  let fetch := bool_decide (sr_Type p = StepTypeFetchMetrics) in
  let schedule := bool_decide (sr_Type p = StepTypeScheduleMemory) in
  let skip reason := one (schedule && bool_decide (TrimSpace (SchedulerSkipReason p) = reason)) in
  let procedures := bool_decide (sr_Type p = StepTypeConsolidate) && bool_decide (TrimSpace (sr_CardType p) = "procedure") in
  let observed (field : MetricsSnapshot → Z) (best : Z) := if fetch then if best <? field (Metrics p) then field (Metrics p) else best else best in
  mkAccum
    (mkStats (ss_ScenarioName s) (ss_RunCount s) (ss_PassedCount s) (ss_FailedCount s) (AssertionCount s) (FailedAssertions s)
      (WorkingAssertions s) (DurableAssertions s) (RecallAssertions s) (ProcedureAssertions s)
      (if procedures then wrap64 (ProcedurePromotions s + PromotedCount p) else ProcedurePromotions s)
      (if procedures then wrap64 (ProcedureSupersedes s + SupersededCount p) else ProcedureSupersedes s)
      (wrap64 (ss_MemoryFeedbackUpdates s + MemoryFeedbackUpdates p))
      (wrap64 (ss_ProcedureFeedbackUpdates s + ProcedureFeedbackUpdates p))
      (wrap64 (ss_RetryAttempts s + RetryAttempts p))
      (RetrySuccesses s + one (RetrySucceeded p))
      (ActionReplays s + one (ActionReplayed p))
      (MetricsSnapshots s + one fetch)
      (observed TotalTasks (MaxObservedTasks s)) (observed TotalActions (MaxObservedActions s))
      (observed TotalMemoryCards (MaxObservedMemoryCards s))
      (SchedulerTriggers s + one (schedule && SchedulerTriggered p))
      (SchedulerCooldownSkips s + skip "cooldown") (SchedulerThresholdSkips s + skip "candidate_threshold")
      (SchedulerTypeSkips s + skip "no_eligible_candidates") (SchedulerExistingSkips s + skip "existing_consolidation_task")
      (SchedulerBusySkips s + skip "runtime_busy")
      (MemoryFailures s) (AverageDurationMS s) (LatestRunDir s) (LatestError s) (TopFailureMessages s))
    (totalDuration e) (failures e).
Definition count_run (e : accum) (report : RunReport) : accum :=
  let s := stats e in
  mkAccum
    (mkStats (ss_ScenarioName s) (ss_RunCount s + 1) (ss_PassedCount s + one (Passed report))
      (ss_FailedCount s + one (negb (Passed report))) (AssertionCount s + Z.of_nat (length (AssertionResults report)))
      (FailedAssertions s) (WorkingAssertions s) (DurableAssertions s) (RecallAssertions s) (ProcedureAssertions s)
      (ProcedurePromotions s) (ProcedureSupersedes s) (ss_MemoryFeedbackUpdates s) (ss_ProcedureFeedbackUpdates s)
      (ss_RetryAttempts s) (RetrySuccesses s) (ActionReplays s) (MetricsSnapshots s) (MaxObservedTasks s) (MaxObservedActions s)
      (MaxObservedMemoryCards s) (SchedulerTriggers s) (SchedulerCooldownSkips s) (SchedulerThresholdSkips s)
      (SchedulerTypeSkips s) (SchedulerExistingSkips s) (SchedulerBusySkips s)
      (MemoryFailures s) (AverageDurationMS s) (LatestRunDir s) (LatestError s) (TopFailureMessages s))
    (totalDuration e) (failures e).
(** [with_latest], [with_average]: the fields that are set, not summed. *)
Definition with_latest (s : ScenarioStats) (dir err : string) : ScenarioStats :=
  mkStats (ss_ScenarioName s) (ss_RunCount s) (ss_PassedCount s) (ss_FailedCount s) (AssertionCount s) (FailedAssertions s)
    (WorkingAssertions s) (DurableAssertions s) (RecallAssertions s) (ProcedureAssertions s) (ProcedurePromotions s)
    (ProcedureSupersedes s) (ss_MemoryFeedbackUpdates s) (ss_ProcedureFeedbackUpdates s) (ss_RetryAttempts s) (RetrySuccesses s)
    (ActionReplays s) (MetricsSnapshots s) (MaxObservedTasks s) (MaxObservedActions s) (MaxObservedMemoryCards s)
    (SchedulerTriggers s) (SchedulerCooldownSkips s) (SchedulerThresholdSkips s) (SchedulerTypeSkips s) (SchedulerExistingSkips s)
    (SchedulerBusySkips s) (MemoryFailures s) (AverageDurationMS s) dir err (TopFailureMessages s).
Definition with_average (s : ScenarioStats) (average : Z) (top : list string) : ScenarioStats :=
  mkStats (ss_ScenarioName s) (ss_RunCount s) (ss_PassedCount s) (ss_FailedCount s) (AssertionCount s) (FailedAssertions s)
    (WorkingAssertions s) (DurableAssertions s) (RecallAssertions s) (ProcedureAssertions s) (ProcedurePromotions s)
    (ProcedureSupersedes s) (ss_MemoryFeedbackUpdates s) (ss_ProcedureFeedbackUpdates s) (ss_RetryAttempts s) (RetrySuccesses s)
    (ActionReplays s) (MetricsSnapshots s) (MaxObservedTasks s) (MaxObservedActions s) (MaxObservedMemoryCards s)
    (SchedulerTriggers s) (SchedulerCooldownSkips s) (SchedulerThresholdSkips s) (SchedulerTypeSkips s) (SchedulerExistingSkips s)
    (SchedulerBusySkips s) (MemoryFailures s) average (LatestRunDir s) (LatestError s) top.
Definition add_run (e : accum) (report : RunReport) : accum :=
  let e := foldl count_step (foldl count_assertion (count_run e report) (AssertionResults report)) (StepReports report) in
  let newest := After (StartedAt report) (parseLatestRunTime (LatestRunDir (stats e))) in
  mkAccum (if newest then with_latest (stats e) (RunDir report) (rp_Error report) else stats e)
    (wrap64 (totalDuration e + Sub (FinishedAt report) (StartedAt report))) (failures e).

(** ** Rollups *)

Definition scenario_of (report : RunReport) : string := firstNonEmpty [ScenarioName report; "unknown"].
Definition file_run (byScenario : gmap string accum) (report : RunReport) : gmap string accum :=
  let name := scenario_of report in
  <[name := add_run (default (new_accum name) (byScenario !! name)) report]> byScenario.
(** [ord_of]: the order in which the failures of a scenario are visited. *)
Definition finish (ord_of : gmap string Z → list string) (e : accum) : ScenarioStats :=
  let s := stats e in
  with_average s (if 0 <? ss_RunCount s then Z.quot (Z.quot (totalDuration e) Millisecond) (ss_RunCount s) else AverageDurationMS s)
    (topFailureMessages (ord_of (failures e)) (failures e) 3).
Definition by_name (a b : ScenarioStats) : Prop := String.le (ss_ScenarioName a) (ss_ScenarioName b).
#[export] Instance by_name_dec : RelDecision by_name := λ a b, _.
Definition scenario_results (ord_of : gmap string Z → list string) (ord : list string) (byScenario : gmap string accum) : list ScenarioStats :=
  merge_sort by_name (omap (λ name, finish ord_of <$> byScenario !! name) ord).
(** [ord]: the order in which the scenarios are visited. *)
Definition rollup_of (ord_of : gmap string Z → list string) (ord : list string) (root : string) (t : Time) (reports : list RunReport) : Rollup :=
  mkRollup root t (Z.of_nat (length reports))
    (Z.of_nat (length (filter (λ r, Passed r = true) reports))) (Z.of_nat (length (filter (λ r, Passed r = false) reports)))
    (scenario_results ord_of ord (foldl file_run ∅ reports)).

Definition line_if (c : bool) (l : string) : list string := if c then [l] else [].
Definition render_scenario (s : ScenarioStats) : list string :=
  [ss_ScenarioName s +:+ ": runs=" +:+ Itoa (ss_RunCount s) +:+ " pass=" +:+ Itoa (ss_PassedCount s) +:+ " fail=" +:+ Itoa (ss_FailedCount s)
   +:+ " avg=" +:+ Itoa (AverageDurationMS s) +:+ "ms failed_assertions=" +:+ Itoa (FailedAssertions s)
   +:+ " working=" +:+ Itoa (WorkingAssertions s) +:+ " durable=" +:+ Itoa (DurableAssertions s)
   +:+ " procedure=" +:+ Itoa (ProcedureAssertions s) +:+ " recall=" +:+ Itoa (RecallAssertions s)
   +:+ " memory_failures=" +:+ Itoa (MemoryFailures s)]
  ++ line_if ((0 <? ss_MemoryFeedbackUpdates s) || (0 <? ss_ProcedureFeedbackUpdates s))
       ("  memory_feedback_updates=" +:+ Itoa (ss_MemoryFeedbackUpdates s) +:+ " procedure_feedback_updates=" +:+ Itoa (ss_ProcedureFeedbackUpdates s))
  ++ line_if ((0 <? ss_RetryAttempts s) || (0 <? RetrySuccesses s))
       ("  retry_attempts=" +:+ Itoa (ss_RetryAttempts s) +:+ " retry_successes=" +:+ Itoa (RetrySuccesses s))
  ++ line_if (0 <? ActionReplays s) ("  action_replays=" +:+ Itoa (ActionReplays s))
  ++ line_if (0 <? MetricsSnapshots s)
       ("  metrics_snapshots=" +:+ Itoa (MetricsSnapshots s) +:+ " max_observed_tasks=" +:+ Itoa (MaxObservedTasks s)
        +:+ " max_observed_actions=" +:+ Itoa (MaxObservedActions s) +:+ " max_observed_memory_cards=" +:+ Itoa (MaxObservedMemoryCards s))
  ++ line_if ((0 <? SchedulerTriggers s) || (0 <? SchedulerCooldownSkips s) || (0 <? SchedulerThresholdSkips s)
              || (0 <? SchedulerTypeSkips s) || (0 <? SchedulerExistingSkips s) || (0 <? SchedulerBusySkips s))
       ("  scheduler_triggers=" +:+ Itoa (SchedulerTriggers s) +:+ " scheduler_cooldown_skips=" +:+ Itoa (SchedulerCooldownSkips s)
        +:+ " scheduler_threshold_skips=" +:+ Itoa (SchedulerThresholdSkips s) +:+ " scheduler_type_skips=" +:+ Itoa (SchedulerTypeSkips s)
        +:+ " scheduler_existing_task_skips=" +:+ Itoa (SchedulerExistingSkips s) +:+ " scheduler_runtime_busy_skips=" +:+ Itoa (SchedulerBusySkips s))
  ++ line_if ((0 <? ProcedurePromotions s) || (0 <? ProcedureSupersedes s))
       ("  procedure_promotions=" +:+ Itoa (ProcedurePromotions s) +:+ " procedure_supersessions=" +:+ Itoa (ProcedureSupersedes s))
  ++ ((λ f, "  - " +:+ f) <$> TopFailureMessages s).
Definition RenderRollupText (rollup : Rollup) : string :=
  Join (["Runs: " +:+ Itoa (ru_RunCount rollup); "Passed: " +:+ Itoa (ru_PassedCount rollup); "Failed: " +:+ Itoa (ru_FailedCount rollup)]
    ++ (ScenarioResults rollup ≫= render_scenario)) newline.

(** ** Collecting runs *)

Definition older (a b : RunReport) : Prop := StartedAt a <= StartedAt b.
#[export] Instance older_dec : RelDecision older := λ a b, decide (StartedAt a <= StartedAt b).

Section runs.
Context {tables : UnicodeTables}.
Variable h : Host.
(** [sort.Slice] is not stable: the order in which it meets runs that started
    at the same time. *)
Variable shuffle : list RunReport → list RunReport.

(** The names in a directory, sorted. *)
Definition child_names (d : Disk) (key : string) : list string :=
  sort_strings (omap (λ k, if decide (k ≠ key ∧ Dir k = key) then Some (Base k) else None) (map_to_list d).*1).
Definition ReadDir (d : Disk) (path : string) : string + list string :=
  if is_dir h d path then inr (child_names d (Abs (env h) path)) else inl (open_error h path).
Definition reportMatchesTags (d : Disk) (report : RunReport) (tags : list string) : bool :=
  let tags := NormalizeTags tags in
  let reportTags := NormalizeTags (ScenarioTags report) in
  let reportTags :=
    if bool_decide (reportTags = []) && negb (blank (ScenarioPath report)) then
      match LoadScenario h d (ScenarioPath report) with inr scenario => NormalizeTags (Tags scenario) | inl _ => reportTags end
    else reportTags in
  match tags, reportTags with
  | [], _ => true
  | _, [] => false
  | _, _ => any_tag tags (list_to_set reportTags)
  end.
Fixpoint collect (d : Disk) (root : string) (tags : list string) (lane : string) (names : list string) : string + list RunReport :=
  match names with
  | [] => inr []
  | name :: rest =>
      if negb (is_dir h d (Join2 root name)) then collect d root tags lane rest else
      match LoadRunReport h d (Join2 root name) with
      | inl e => inl e
      | inr (report, _) =>
          match collect d root tags lane rest with
          | inl e => inl e
          | inr reports =>
              inr (if reportMatchesTags d report tags && (bool_decide (lane = "") || bool_decide (NormalizeLane (ScenarioLane report) = lane))
                   then report :: reports else reports)
          end
      end
  end.
Definition CollectRunReportsWithScope (d : Disk) (root : string) (tags : list string) (lane : string) : string + list RunReport :=
  let root := TrimSpace root in
  if decide (root = "") then inl "run root is required" else
  match ReadDir d root with
  | inl e => inl e
  | inr names =>
      match collect d root (NormalizeTags tags) (NormalizeLane lane) names with
      | inl e => inl e
      | inr reports => inr (merge_sort older (shuffle reports))
      end
  end.
Definition CollectRunReports (d : Disk) (root : string) (tags : list string) : string + list RunReport :=
  CollectRunReportsWithScope d root tags "".

Definition BuildRollupWithScope (ord_of : gmap string Z → list string) (ord : gmap string accum → list string)
    (root : string) (tags : list string) (lane : string) : M Disk (string + Rollup) :=
  d ← get;
  match CollectRunReportsWithScope d root tags lane with
  | inl e => mret (inl e)
  | inr reports => t ← now; mret (inr (rollup_of ord_of (ord (foldl file_run ∅ reports)) root t reports))
  end.
Definition BuildRollup ord_of ord (root : string) : M Disk (string + Rollup) := BuildRollupWithScope ord_of ord root [] "".
Definition BuildRollupWithTags ord_of ord (root : string) (tags : list string) : M Disk (string + Rollup) :=
  BuildRollupWithScope ord_of ord root tags "".

(** ** Baselines *)

Definition report_json_ok (r : RunReport) : bool :=
  json_time_ok (StartedAt r) && json_time_ok (FinishedAt r)
  && forallb (λ s, json_time_ok (sr_StartedAt s) && json_time_ok (sr_FinishedAt s)) (StepReports r).
Definition document_ok (doc : Document) : bool :=
  match doc with
  | ReportDoc r => report_json_ok r
  | ScenarioDoc s => forallb (λ a, is_finite (MinConfidence a) && is_finite (MaxConfidence a)) (Assertions s)
  | RollupDoc r => json_time_ok (GeneratedAt r)
  end.
Definition writeJSON (path : string) (doc : Document) : M Disk unit :=
  if document_ok doc then WriteNode h path (Stored doc) else throw EJson.
Definition SaveRollup (path : string) (rollup : Rollup) : M Disk unit :=
  _ ← MkdirAll h (Dir (FsAccess.Clean path)); writeJSON path (RollupDoc rollup).

Definition snapshot_file (scenarioDir kind slug : string) (out : list string) (p : nat * string) : M Disk (list string) :=
  let '(i, src) := p in
  d ← get;
  match lookup_node h d src ≫= node_text h with
  | None => mret (out ++ [src])
  | Some raw =>
      let dest := Join2 (Join2 scenarioDir kind) (slug +:+ "-" +:+ two_digits (Z.of_nat i) +:+ "-" +:+ Base src) in
      _ ← WriteNode h dest (Bytes raw);
      mret (out ++ [default dest (Rel scenarioDir dest)])
  end.
Definition snapshotStepFiles (scenarioDir kind stepID : string) (paths : list string) : M Disk (list string) :=
  match paths with
  | [] => mret []
  | _ =>
      _ ← MkdirAll h (Join2 scenarioDir kind);
      foldM (snapshot_file scenarioDir kind (slugify (firstNonEmpty [stepID; "step"]))) [] (zip (seq 0 (length paths)) paths)
  end.
Definition snapshot_step (scenarioDir : string) (out : list StepReport) (s : StepReport) : M Disk (list StepReport) :=
  artifacts ← snapshotStepFiles scenarioDir "artifacts" (sr_ID s) (sr_ArtifactPaths s);
  observations ← snapshotStepFiles scenarioDir "observations" (sr_ID s) (sr_ObservationPaths s);
  mret (out ++ [with_paths s artifacts observations]).
Definition snapshotBaselineReport (report : RunReport) (scenarioDir : string) : M Disk RunReport :=
  steps ← foldM (snapshot_step scenarioDir) [] (StepReports report);
  mret (with_steps report steps).
Definition save_run (baselineRoot : string) (written : list string) (report : RunReport) : M Disk (list string) :=
  let scenarioDir := Join2 baselineRoot (slugify (ScenarioName report)) in
  _ ← MkdirAll h scenarioDir;
  baselineReport ← snapshotBaselineReport report scenarioDir;
  let path := Join2 scenarioDir "report.json" in
  _ ← writeJSON path (ReportDoc baselineReport);
  mret (written ++ [path]).
Definition SaveBaselineWithScope (srcRoot baselineRoot : string) (tags : list string) (lane : string) : M Disk (string + list string) :=
  d ← get;
  match CollectRunReportsWithScope d srcRoot tags lane with
  | inl e => mret (inl e)
  | inr reports =>
      _ ← MkdirAll h baselineRoot;
      written ← foldM (save_run baselineRoot) [] reports;
      mret (inr written)
  end.
Definition SaveBaseline (srcRoot baselineRoot : string) : M Disk (string + list string) := SaveBaselineWithScope srcRoot baselineRoot [] "".
Definition SaveBaselineWithTags (srcRoot baselineRoot : string) (tags : list string) : M Disk (string + list string) :=
  SaveBaselineWithScope srcRoot baselineRoot tags "".

Record BaselineCheck := mkBaselineCheck { Compared : Z; bc_Passed : bool; bc_Lines : list string }.
Definition check_run (d : Disk) (baselineRoot : string) (out : BaselineCheck) (report : RunReport) : BaselineCheck :=
  let baselinePath := Join2 (Join2 baselineRoot (slugify (ScenarioName report))) "report.json" in
  match LoadRunReport h d baselinePath with
  | inl e => mkBaselineCheck (Compared out) false (bc_Lines out ++ [ScenarioName report +:+ ": missing baseline (" +:+ e +:+ ")"])
  | inr (baseline, _) =>
      let diff := DiffReports h d baseline baselinePath report (RunDir report) in
      if HasDiff diff then
        mkBaselineCheck (Compared out + 1) false
          (bc_Lines out ++ (ScenarioName report +:+ ": changed") :: ((λ l, "  " +:+ l) <$> Lines diff))
      else mkBaselineCheck (Compared out + 1) (bc_Passed out) (bc_Lines out ++ [ScenarioName report +:+ ": matches baseline"])
  end.
Definition CheckBaselineWithScope (d : Disk) (srcRoot baselineRoot : string) (tags : list string) (lane : string) : string + BaselineCheck :=
  match CollectRunReportsWithScope d srcRoot tags lane with
  | inl e => inl e
  | inr reports => inr (foldl (check_run d baselineRoot) (mkBaselineCheck 0 true []) reports)
  end.
Definition CheckBaseline (d : Disk) (srcRoot baselineRoot : string) : string + BaselineCheck := CheckBaselineWithScope d srcRoot baselineRoot [] "".
Definition CheckBaselineWithTags (d : Disk) (srcRoot baselineRoot : string) (tags : list string) : string + BaselineCheck :=
  CheckBaselineWithScope d srcRoot baselineRoot tags "".
End runs.

(** ** Sums *)

Definition sum {A} (c : A → Z) (l : list A) : Z := foldr (λ x n, c x + n) 0 l.
Definition count {A} (p : A → bool) (l : list A) : Z := sum (λ x, one (p x)) l.

Lemma sum_cons {A} (c : A → Z) x l : sum c (x :: l) = c x + sum c l.
Proof. done. Qed.
#[global] Arguments sum : simpl never.

Section sums.
Context {A B : Type} (f : A → B → A) (g : A → Z) (c : B → Z).

Lemma sum_app (l k : list B) : sum c (l ++ k) = sum c l + sum c k.
Proof. induction l as [|x l IH]; [done|]. cbn [app]. rewrite !sum_cons. lia. Qed.
Lemma sum_bind {D} (h : D → list B) l : sum c (l ≫= h) = sum (λ x, sum c (h x)) l.
Proof. induction l as [|x l IH]; [done|]. rewrite bind_cons, sum_app, sum_cons. by rewrite IH. Qed.
(** A field that every step adds to. *)
Lemma foldl_field : (∀ a b, g (f a b) = g a + c b) → ∀ l a, g (foldl f a l) = g a + sum c l.
Proof. intros H l. induction l as [|x l IH]; intros a; [by rewrite Z.add_0_r|]. cbn [foldl]. rewrite IH, H, sum_cons. lia. Qed.
Lemma foldl_keep : (∀ a b, g (f a b) = g a) → ∀ l a, g (foldl f a l) = g a.
Proof. intros H l. induction l as [|x l IH]; intros a; cbn; [done|]. by rewrite IH, H. Qed.
Lemma foldl_wraps : (∀ a b, int64_range (g a) → g (f a b) = wrap64 (g a + c b)) →
  ∀ l a, int64_range (g a) → g (foldl f a l) = wrap64 (g a + sum c l).
Proof.
  intros H l. induction l as [|x l IH]; intros a Ha; [by rewrite Z.add_0_r, wrap64_small|]. cbn [foldl].
  rewrite IH, H, sum_cons by (done || (rewrite H by done; apply wrap64_range)).
  unfold wrap64. rewrite (Z.add_assoc (g a)). generalize (g a + c x). intros z.
  replace ((z + 2 ^ 63) mod 2 ^ 64 - 2 ^ 63 + sum c l + 2 ^ 63) with ((z + 2 ^ 63) mod 2 ^ 64 + sum c l) by lia.
  rewrite Zplus_mod_idemp_l. do 2 f_equal. lia.
Qed.
(** A maximum over the steps that have one. *)
Lemma foldl_best (q : B → bool) : (∀ a b, g (f a b) = if q b then Z.max (g a) (c b) else g a) →
  ∀ l a, g (foldl f a l) = foldr (λ x n, if q x then Z.max (c x) n else n) (g a) l.
Proof.
  intros H l. induction l as [|x l IH]; intros a; cbn; [done|]. rewrite IH, H.
  destruct (q x); [|done]. clear. generalize (c x), (g a). intros u v. induction l as [|y l IH]; cbn; [lia|].
  destruct (q y); rewrite IH; lia.
Qed.
End sums.

Lemma sum_le {A} (c c' : A → Z) l : (∀ x, c x <= c' x) → sum c l <= sum c' l.
Proof. intros H. induction l as [|x l IH]; [done|]. rewrite !sum_cons. specialize (H x). lia. Qed.
Lemma sum_plus {A} (c c' : A → Z) l : sum (λ x, c x + c' x) l = sum c l + sum c' l.
Proof. induction l as [|x l IH]; [done|]. rewrite !sum_cons. lia. Qed.
Lemma count_filter {A} (p : A → bool) l : count p l = Z.of_nat (length (filter (λ x, p x = true) l)).
Proof.
  induction l as [|x l IH]; [done|]. unfold count in *. rewrite sum_cons, IH, filter_cons.
  destruct (p x); unfold one; [rewrite decide_True by done|rewrite decide_False by done]; cbn [length]; lia.
Qed.
Lemma sum_const {A} (l : list A) : sum (λ _, 1) l = Z.of_nat (length l).
Proof. induction l as [|x l IH]; [done|]. rewrite sum_cons. cbn [length]. lia. Qed.

(** ** The statistics of a scenario *)

Definition assertions_of (runs : list RunReport) : list AssertionResult := runs ≫= AssertionResults.
Definition steps_of (runs : list RunReport) : list StepReport := runs ≫= StepReports.
Abbreviation run_stats name runs := (foldl add_run (new_accum name) runs).

(** A field that runs, assertions and steps add to. *)
Lemma run_field (g : ScenarioStats → Z) cr ca cs :
  (∀ s dir err, g (with_latest s dir err) = g s) →
  (∀ e r, g (stats (count_run e r)) = g (stats e) + cr r) →
  (∀ e a, g (stats (count_assertion e a)) = g (stats e) + ca a) →
  (∀ e p, g (stats (count_step e p)) = g (stats e) + cs p) →
  ∀ runs e, g (stats (foldl add_run e runs)) = g (stats e) + (sum cr runs + sum ca (assertions_of runs) + sum cs (steps_of runs)).
Proof.
  intros Hl Hr Ha Hs runs e. unfold assertions_of, steps_of. rewrite !sum_bind, <- !sum_plus.
  apply (foldl_field add_run (λ e, g (stats e))). intros e' r. unfold add_run.
  assert (g (stats (foldl count_step (foldl count_assertion (count_run e' r) (AssertionResults r)) (StepReports r)))
    = g (stats e') + (cr r + sum ca (AssertionResults r) + sum cs (StepReports r))) as E.
  { rewrite (foldl_field count_step (λ e, g (stats e)) cs Hs), (foldl_field count_assertion (λ e, g (stats e)) ca Ha), Hr. lia. }
  cbn. case_match; cbn; [rewrite Hl|]; apply E.
Qed.
(** A field that the steps add to, wrapping around. *)
Lemma wrapping_field (g : ScenarioStats → Z) cs :
  (∀ s dir err, g (with_latest s dir err) = g s) →
  (∀ e r, g (stats (count_run e r)) = g (stats e)) →
  (∀ e a, g (stats (count_assertion e a)) = g (stats e)) →
  (∀ e p, int64_range (g (stats e)) → g (stats (count_step e p)) = wrap64 (g (stats e) + cs p)) →
  ∀ runs e, int64_range (g (stats e)) → g (stats (foldl add_run e runs)) = wrap64 (g (stats e) + sum cs (steps_of runs)).
Proof.
  intros Hl Hr Ha Hs runs e He. unfold steps_of. rewrite sum_bind.
  apply (foldl_wraps add_run (λ e, g (stats e))); [|done]. clear e He. intros e r He. unfold add_run.
  assert (g (stats (foldl count_step (foldl count_assertion (count_run e r) (AssertionResults r)) (StepReports r)))
    = wrap64 (g (stats e) + sum cs (StepReports r))) as E.
  { rewrite (foldl_wraps count_step (λ e, g (stats e)) cs Hs);
      rewrite (foldl_keep count_assertion (λ e, g (stats e)) Ha), Hr; done. }
  cbn. case_match; cbn; [rewrite Hl|]; apply E.
Qed.

(** The number of failures with a message. *)
Lemma failure_counts key runs : ∀ e,
  default 0 (failures (foldl add_run e runs) !! key)
  = default 0 (failures e !! key) + count (λ a, negb (ar_Passed a) && bool_decide (failure_key a = key)) (assertions_of runs).
Proof.
  unfold count, assertions_of. intros e. rewrite sum_bind. revert e. set (g := λ e : accum, default 0 (failures e !! key)).
  intros e. apply (foldl_field add_run g). intros e' r. unfold add_run. unfold g at 1. cbn.
  change (g (foldl count_step (foldl count_assertion (count_run e' r) (AssertionResults r)) (StepReports r)) =
    g e' + sum (λ a, one (negb (ar_Passed a) && bool_decide (failure_key a = key))) (AssertionResults r)).
  rewrite (foldl_keep count_step g) by done.
  rewrite (foldl_field count_assertion g (λ a, one (negb (ar_Passed a) && bool_decide (failure_key a = key)))); [done|].
  intros e2 a. unfold g, count_assertion. cbn [failures stats].
  destruct (ar_Passed a); cbn [negb andb one]; [lia|]. destruct (decide (failure_key a = key)) as [<-|Hne].
  - by rewrite lookup_insert_eq, bool_decide_true.
  - rewrite lookup_insert_ne, bool_decide_false by done. cbn [one]. lia.
Qed.
Lemma duration_of runs : ∀ e, int64_range (totalDuration e) →
  totalDuration (foldl add_run e runs) = wrap64 (totalDuration e + sum (λ r, Sub (FinishedAt r) (StartedAt r)) runs).
Proof.
  intros e He. apply (foldl_wraps add_run totalDuration); [|done]. clear. intros e r He. unfold add_run. cbn.
  rewrite (foldl_keep count_step totalDuration), (foldl_keep count_assertion totalDuration) by done. done.
Qed.
Lemma run_stats_name name runs : ss_ScenarioName (stats (run_stats name runs)) = name.
Proof.
  change name with (ss_ScenarioName (stats (new_accum name))) at 2. generalize (new_accum name).
  induction runs as [|r runs IH]; intros e; [done|]. cbn [foldl]. rewrite IH. unfold add_run. cbn.
  assert (∀ l e, ss_ScenarioName (stats (foldl count_assertion e l)) = ss_ScenarioName (stats e)) as Ha.
  { intros l. induction l as [|a l IHl]; intros ?; [done|]. cbn [foldl]. by rewrite IHl. }
  assert (∀ l e, ss_ScenarioName (stats (foldl count_step e l)) = ss_ScenarioName (stats e)) as Hs.
  { intros l. induction l as [|a l IHl]; intros ?; [done|]. cbn [foldl]. by rewrite IHl. }
  case_match; cbn; by rewrite Hs, Ha.
Qed.

(** ** The runs of a scenario *)

Definition runs_of (name : string) (reports : list RunReport) : list RunReport := filter (λ r, scenario_of r = name) reports.

Lemma file_runs name reports :
  foldl file_run ∅ reports !! name = match runs_of name reports with [] => None | runs => Some (run_stats name runs) end.
Proof.
  induction reports as [|r reports IH] using rev_ind; [done|]. rewrite foldl_app. unfold runs_of. rewrite filter_app.
  fold (runs_of name reports). cbn [foldl]. unfold file_run at 1. rewrite filter_cons, filter_nil.
  destruct (decide (scenario_of r = name)) as [->|Hne].
  - rewrite lookup_insert_eq, IH. destruct (runs_of name reports) as [|r' runs]; [done|].
    cbn [default id app foldl]. by rewrite foldl_app.
  - rewrite lookup_insert_ne, IH by done. by rewrite app_nil_r.
Qed.
Lemma filed_scenarios reports ord name : range_of (foldl file_run ∅ reports) ord →
  name ∈ ord ↔ ∃ r, r ∈ reports ∧ scenario_of r = name.
Proof.
  intros [_ H]. rewrite H, elem_of_dom, file_runs. unfold runs_of.
  destruct (filter (λ r, scenario_of r = name) reports) as [|r runs] eqn:E.
  - split; [by intros []|]. intros (r & Hr & Hs). assert (r ∈ filter (λ r, scenario_of r = name) reports) as Hin
      by by apply list_elem_of_filter. rewrite E in Hin. by apply elem_of_nil in Hin.
  - split; [|by eauto]. intros _. exists r.
    assert (r ∈ filter (λ r, scenario_of r = name) reports) as Hin by (rewrite E; by left).
    apply list_elem_of_filter in Hin as [??]. done.
Qed.
(** Every run belongs to one scenario. *)
Lemma runs_partition names reports : NoDup names → (∀ r, r ∈ reports → scenario_of r ∈ names) →
  sum (λ name, Z.of_nat (length (runs_of name reports))) names = Z.of_nat (length reports).
Proof.
  intros Hn. induction reports as [|r reports IH]; intros Hin.
  { clear. induction names as [|name names IH]; [done|]. rewrite sum_cons, IH. done. }
  assert (sum (λ name, one (bool_decide (scenario_of r = name))) names = 1) as H1.
  { assert (scenario_of r ∈ names) as Hr by (apply Hin; left). clear -Hn Hr. revert Hr.
    induction Hn as [|name names Hnot _ IH]; [by intros ?%elem_of_nil|]. rewrite elem_of_cons, sum_cons.
    destruct (decide (scenario_of r = name)) as [<-|Hne]; [|intros [?|?]; [done|]; rewrite bool_decide_false, IH by done; done].
    intros _. rewrite bool_decide_true by done. cbn [one].
    assert (sum (λ name, one (bool_decide (scenario_of r = name))) names = 0) as ->; [|done].
    clear IH. induction names as [|x names IH]; [done|]. apply not_elem_of_cons in Hnot as [Hx Hnot].
    by rewrite sum_cons, bool_decide_false, IH. }
  cbn [length]. rewrite Nat2Z.inj_succ, <- IH by (intros; apply Hin; by right). unfold Z.succ. rewrite Z.add_comm, <- H1, <- sum_plus.
  clear. induction names as [|name names IH]; [done|]. rewrite !sum_cons, IH. f_equal. unfold runs_of. rewrite filter_cons.
  destruct (decide (scenario_of r = name)); [rewrite bool_decide_true by done|rewrite bool_decide_false by done]; cbn [one length]; lia.
Qed.

(** ** Rankings *)

#[local] Instance more_frequent_trans : Transitive more_frequent.
Proof.
  intros a b c [H1|[E1 H1]] [H2|[E2 H2]]; unfold more_frequent; [left; lia..|].
  right. split; [congruence|]. by transitivity b.1.
Qed.
#[local] Instance more_frequent_total : Total more_frequent.
Proof.
  intros a b. unfold more_frequent. destruct (Z.lt_trichotomy a.2 b.2) as [|[|]]; [auto..|auto].
  destruct (total String.le a.1 b.1); auto.
Qed.
#[local] Instance more_frequent_antisym : AntiSymm eq more_frequent.
Proof.
  intros [x m] [y n] [H1|[E1 H1]] [H2|[E2 H2]]; cbn in *; try lia. subst. f_equal. by apply (anti_symm String.le).
Qed.
#[local] Instance by_name_trans : Transitive by_name.
Proof. intros a b c. unfold by_name. by transitivity (ss_ScenarioName b). Qed.
#[local] Instance by_name_total : Total by_name.
Proof. intros a b. unfold by_name. apply (total String.le). Qed.

Definition ranking (ord : list string) (failures : gmap string Z) : list (string * Z) :=
  merge_sort more_frequent (omap (λ text, count ← failures !! text; Some (text, count)) ord).
Lemma topFailureMessages_ord ord ord' failures limit : range_of failures ord → range_of failures ord' →
  topFailureMessages ord failures limit = topFailureMessages ord' failures limit.
Proof.
  intros H H'. unfold topFailureMessages. case_match; [done|]. do 2 f_equal. fold (ranking ord failures) (ranking ord' failures).
  apply (StronglySorted_unique more_frequent); [apply StronglySorted_merge_sort; apply _..|].
  unfold ranking. rewrite !merge_sort_Permutation. apply omap_Permutation. by eapply range_of_Permutation.
Qed.
Lemma failures_positive key n runs : ∀ e, (∀ k m, failures e !! k = Some m → 0 < m) →
  failures (foldl add_run e runs) !! key = Some n → 0 < n.
Proof.
  assert (∀ l e, (∀ k m, failures e !! k = Some m → 0 < m) → ∀ k m, failures (foldl count_assertion e l) !! k = Some m → 0 < m) as Ha.
  { intros l. induction l as [|a l IH]; intros e He; [done|]. cbn [foldl]. apply IH. intros k m. unfold count_assertion. cbn [failures].
    destruct (negb (ar_Passed a)); [|apply He]. intros [[<- <-]|[_ ?]]%lookup_insert_Some; [|by eapply He].
    destruct (failures e !! failure_key a) as [m'|] eqn:E; cbn [default id]; [apply He in E|]; lia. }
  assert (∀ l e, failures (foldl count_step e l) = failures e) as Hs.
  { intros l. induction l as [|a l IH]; intros e; [done|]. cbn [foldl]. by rewrite IH. }
  induction runs as [|r runs IH]; intros e He; [apply He|]. cbn [foldl]. apply IH. intros k m.
  unfold add_run. cbn [failures]. rewrite Hs. by apply Ha.
Qed.
Lemma ranking_elem ord e name runs key n : e = run_stats name runs → range_of (failures e) ord →
  (key, n) ∈ ranking ord (failures e) ↔ 0 < n ∧ n = count (λ a, negb (ar_Passed a) && bool_decide (failure_key a = key)) (assertions_of runs).
Proof.
  intros -> [_ Hr]. unfold ranking. rewrite merge_sort_Permutation, list_elem_of_omap.
  pose proof (failure_counts key runs (new_accum name)) as Hc. cbn [new_accum failures] in Hc. rewrite lookup_empty in Hc.
  cbn [default id] in Hc. rewrite Z.add_0_l in Hc. rewrite <- Hc. split.
  - intros (k & _ & H). destruct (_ !! k) as [m|] eqn:E; [|done]. injection H as -> ->. rewrite E. cbn.
    split; [|done]. apply (failures_positive key n runs (new_accum name)); [|done]. intros ??. cbn. by rewrite lookup_empty.
  - intros [Hn ->]. exists key. destruct (failures (run_stats name runs) !! key) as [m|] eqn:E; cbn [default id] in *; [|lia].
    split; [|done]. apply Hr, elem_of_dom. by eauto.
Qed.

(** ** What a rollup says *)

Definition is_procedure_step (p : StepReport) : bool :=
  bool_decide (sr_Type p = StepTypeConsolidate) && bool_decide (TrimSpace (sr_CardType p) = "procedure").
Definition is_memory_assertion (kind : string) : bool :=
  isWorkingMemoryAssertion kind || isProcedureMemoryAssertion kind || isDurableMemoryAssertion kind || isRecallMemoryAssertion kind.
(** The statistics of the runs of one scenario. *)
Definition exact_stats (s : ScenarioStats) (runs : list RunReport) : Prop :=
  let steps := steps_of runs in let assertions := assertions_of runs in
  ss_RunCount s = Z.of_nat (length runs) ∧
  ss_PassedCount s = count Passed runs ∧ ss_FailedCount s = count (λ r, negb (Passed r)) runs ∧
  AssertionCount s = Z.of_nat (length assertions) ∧ FailedAssertions s = count (λ a, negb (ar_Passed a)) assertions ∧
  WorkingAssertions s + ProcedureAssertions s + DurableAssertions s + RecallAssertions s
    = count (λ a, is_memory_assertion (ar_Type a)) assertions ∧
  MemoryFailures s = count (λ a, negb (ar_Passed a) && is_memory_assertion (ar_Type a)) assertions ∧
  ss_RetryAttempts s = wrap64 (sum RetryAttempts steps) ∧ RetrySuccesses s = count RetrySucceeded steps ∧
  ActionReplays s = count ActionReplayed steps ∧
  ss_MemoryFeedbackUpdates s = wrap64 (sum MemoryFeedbackUpdates steps) ∧
  ProcedurePromotions s = wrap64 (sum (λ p, if is_procedure_step p then PromotedCount p else 0) steps) ∧
  MaxObservedTasks s = foldr (λ p n, if bool_decide (sr_Type p = StepTypeFetchMetrics) then Z.max (TotalTasks (Metrics p)) n else n) 0 steps ∧
  SchedulerTriggers s = count (λ p, bool_decide (sr_Type p = StepTypeScheduleMemory) && SchedulerTriggered p) steps ∧
  AverageDurationMS s = Z.quot (Z.quot (wrap64 (sum (λ r, Sub (FinishedAt r) (StartedAt r)) runs)) Millisecond) (Z.of_nat (length runs)).

Lemma best_field (field : MetricsSnapshot → Z) (g : ScenarioStats → Z) :
  (∀ s dir err, g (with_latest s dir err) = g s) →
  (∀ e r, g (stats (count_run e r)) = g (stats e)) →
  (∀ e a, g (stats (count_assertion e a)) = g (stats e)) →
  (∀ e p, g (stats (count_step e p)) = if bool_decide (sr_Type p = StepTypeFetchMetrics) then Z.max (g (stats e)) (field (Metrics p)) else g (stats e)) →
  ∀ runs e, g (stats (foldl add_run e runs)) =
    foldr (λ p n, if bool_decide (sr_Type p = StepTypeFetchMetrics) then Z.max (field (Metrics p)) n else n) (g (stats e)) (steps_of runs).
Proof.
  intros Hl Hr Ha Hs runs. induction runs as [|r runs IH]; intros e; [done|]. cbn [foldl]. rewrite IH. unfold steps_of.
  rewrite bind_cons, foldr_app. fold (steps_of runs).
  assert (g (stats (add_run e r)) = foldr (λ p n, if bool_decide (sr_Type p = StepTypeFetchMetrics) then Z.max (field (Metrics p)) n else n)
    (g (stats e)) (StepReports r)) as ->.
  { unfold add_run. assert (∀ (f : bool) s dir err, g (if f then with_latest s dir err else s) = g s) as Hf by (intros [] ???; [apply Hl|done]).
    cbn [stats]. rewrite Hf. rewrite (foldl_best count_step (λ e, g (stats e)) (λ p, field (Metrics p)) (λ p, bool_decide (sr_Type p = StepTypeFetchMetrics)) Hs).
    by rewrite (foldl_keep count_assertion (λ e, g (stats e)) Ha), Hr. }
  generalize (g (stats e)). generalize (steps_of runs) (StepReports r). clear. intros l k z.
  assert (∀ l u v, foldr (λ p n, if bool_decide (sr_Type p = StepTypeFetchMetrics) then Z.max (field (Metrics p)) n else n) (Z.max u v) l
    = Z.max u (foldr (λ p n, if bool_decide (sr_Type p = StepTypeFetchMetrics) then Z.max (field (Metrics p)) n else n) v l)) as Hm.
  { clear. intros l u v. induction l as [|x l IH]; [done|]. cbn [foldr]. case_bool_decide; rewrite IH; lia. }
  induction k as [|x k IH]; [done|]. cbn [foldr]. rewrite <- IH. case_bool_decide; [|done]. by rewrite Hm.
Qed.

Ltac stat_fields := unfold count_step, count_assertion, count_run, with_latest;
  cbn [stats ss_RunCount ss_PassedCount ss_FailedCount AssertionCount FailedAssertions WorkingAssertions ProcedureAssertions
    DurableAssertions RecallAssertions MemoryFailures ss_RetryAttempts RetrySuccesses ActionReplays ss_MemoryFeedbackUpdates
    ProcedurePromotions MaxObservedTasks SchedulerTriggers AverageDurationMS].
Lemma sum_zero {A} (l : list A) : sum (λ _, 0) l = 0.
Proof. induction l as [|x l IH]; [done|]. by rewrite sum_cons, IH. Qed.
Lemma sum_Permutation {A} (c : A → Z) l k : l ≡ₚ k → sum c l = sum c k.
Proof. induction 1; rewrite ?sum_cons; try done; lia. Qed.
Lemma sum_fmap {A B} (c : B → Z) (f : A → B) l : sum c (f <$> l) = sum (λ x, c (f x)) l.
Proof. induction l as [|x l IH]; [done|]. rewrite fmap_cons, !sum_cons. lia. Qed.
Lemma sum_ext {A} (c c' : A → Z) l : (∀ x, x ∈ l → c x = c' x) → sum c l = sum c' l.
Proof.
  intros H. induction l as [|x l IH]; [done|]. rewrite !sum_cons, H, IH by (by left || (intros; apply H; by right)). done.
Qed.
Lemma length_assertions runs : sum (λ r, Z.of_nat (length (AssertionResults r))) runs = Z.of_nat (length (assertions_of runs)).
Proof.
  unfold assertions_of. induction runs as [|r runs IH]; [done|]. rewrite sum_cons, bind_cons, length_app, IH. lia.
Qed.

(** What the runs of a scenario add up to. *)
Lemma run_stats_exact ord_of name runs : runs ≠ [] → exact_stats (finish ord_of (run_stats name runs)) runs.
Proof.
  intros Hne. assert (0 < Z.of_nat (length runs)) as Hpos by (destruct runs; [done|cbn [length]; lia]).
  unfold exact_stats, finish, with_average. stat_fields.
  rewrite (run_field ss_RunCount (λ _, 1) (λ _, 0) (λ _, 0)) by (intros; stat_fields; lia).
  rewrite (run_field ss_PassedCount (λ r, one (Passed r)) (λ _, 0) (λ _, 0)) by (intros; stat_fields; lia).
  rewrite (run_field ss_FailedCount (λ r, one (negb (Passed r))) (λ _, 0) (λ _, 0)) by (intros; stat_fields; lia).
  rewrite (run_field AssertionCount (λ r, Z.of_nat (length (AssertionResults r))) (λ _, 0) (λ _, 0)) by (intros; stat_fields; lia).
  rewrite (run_field FailedAssertions (λ _, 0) (λ a, one (negb (ar_Passed a))) (λ _, 0)) by (intros; stat_fields; lia).
  rewrite (run_field (λ s, WorkingAssertions s + ProcedureAssertions s + DurableAssertions s + RecallAssertions s) (λ _, 0)
    (λ a, one (is_memory_assertion (ar_Type a))) (λ _, 0)).
  2-3: intros; stat_fields; lia.
  2: { intros e a. stat_fields. unfold is_memory_assertion.
       destruct (isWorkingMemoryAssertion _), (isProcedureMemoryAssertion _), (isDurableMemoryAssertion _), (isRecallMemoryAssertion _); cbn [one negb andb orb]; lia. }
  2: intros; stat_fields; lia.
  rewrite (run_field MemoryFailures (λ _, 0) (λ a, one (negb (ar_Passed a) && is_memory_assertion (ar_Type a))) (λ _, 0))
    by (intros; stat_fields; unfold is_memory_assertion; lia).
  rewrite (wrapping_field ss_RetryAttempts RetryAttempts) by (intros; stat_fields; done).
  rewrite (run_field RetrySuccesses (λ _, 0) (λ _, 0) (λ p, one (RetrySucceeded p))) by (intros; stat_fields; lia).
  rewrite (run_field ActionReplays (λ _, 0) (λ _, 0) (λ p, one (ActionReplayed p))) by (intros; stat_fields; lia).
  rewrite (wrapping_field ss_MemoryFeedbackUpdates MemoryFeedbackUpdates) by (intros; stat_fields; done).
  rewrite (wrapping_field ProcedurePromotions (λ p, if is_procedure_step p then PromotedCount p else 0)).
  2-4: intros; stat_fields; done.
  2: { intros e p He. stat_fields. fold (is_procedure_step p). destruct (is_procedure_step p); [done|]. by rewrite Z.add_0_r, wrap64_small. }
  2: stat_fields; done.
  rewrite (best_field TotalTasks MaxObservedTasks) by (intros; stat_fields; repeat case_match; lia).
  rewrite (run_field SchedulerTriggers (λ _, 0) (λ _, 0)
    (λ p, one (bool_decide (sr_Type p = StepTypeScheduleMemory) && SchedulerTriggered p))) by (intros; stat_fields; lia).
  rewrite duration_of by done. rewrite length_assertions, sum_const, !sum_zero.
  cbn [new_accum new_stats]. stat_fields. cbn [totalDuration].
  rewrite !Z.add_0_l, ?Z.add_0_r. split_and!; try done. case_match; [done|lia].
Qed.

(** ** The theorem *)

Definition entry ord_of reports name : ScenarioStats := finish ord_of (run_stats name (runs_of name reports)).
Lemma entry_name ord_of reports name : ss_ScenarioName (entry ord_of reports name) = name.
Proof. apply run_stats_name. Qed.
Lemma runs_nonempty reports name r : r ∈ reports → scenario_of r = name → runs_of name reports ≠ [].
Proof. intros Hr Hs E. assert (r ∈ runs_of name reports) as H by by apply list_elem_of_filter. rewrite E in H. by apply elem_of_nil in H. Qed.
Lemma filed_entries ord_of reports ord : range_of (foldl file_run ∅ reports) ord →
  omap (λ name, finish ord_of <$> foldl file_run ∅ reports !! name) ord = entry ord_of reports <$> ord.
Proof.
  intros Hr. assert (∀ name, name ∈ ord → runs_of name reports ≠ []) as Hin.
  { intros name (r & ? & ?)%(filed_scenarios reports ord name Hr). by eapply runs_nonempty. }
  clear Hr. induction ord as [|name ord IH]; [done|]. cbn [omap list_omap]. rewrite file_runs.
  rewrite fmap_cons. unfold entry at 1. destruct (runs_of name reports) as [|r runs] eqn:E; [by destruct (Hin name); [left|]|].
  cbn [fmap option_fmap option_map]. f_equal. apply IH. intros n Hn. apply Hin. by right.
Qed.
Lemma results_entries ord_of reports ord root t : range_of (foldl file_run ∅ reports) ord →
  ScenarioResults (rollup_of ord_of ord root t reports) ≡ₚ entry ord_of reports <$> ord.
Proof. intros H. cbn. unfold scenario_results. rewrite merge_sort_Permutation. by rewrite filed_entries. Qed.
Lemma entry_names ord_of reports (ord : list string) : ss_ScenarioName <$> (entry ord_of reports <$> ord) = ord.
Proof. rewrite <- list_fmap_compose. rewrite <- (list_fmap_id ord) at 2. apply list_fmap_ext. intros ???. apply entry_name. Qed.
Lemma results_sorted ord_of reports ord root t : StronglySorted by_name (ScenarioResults (rollup_of ord_of ord root t reports)).
Proof. apply StronglySorted_merge_sort; apply _. Qed.
Lemma top_ranking ord failures : topFailureMessages ord failures 3 = (λ it, it.1 +:+ " (x" +:+ Itoa it.2 +:+ ")") <$> take 3 (ranking ord failures).
Proof.
  unfold topFailureMessages. case_bool_decide as E; [|done]. subst failures. cbn [orb]. unfold ranking.
  assert (omap (λ text, count ← (∅ : gmap string Z) !! text; Some (text, count)) ord = []) as ->; [|done].
  induction ord as [|k ord IH]; [done|]. cbn [omap list_omap]. by rewrite lookup_empty.
Qed.
Lemma entry_ord ord_of ord_of' reports name : (∀ m, range_of m (ord_of m)) → (∀ m, range_of m (ord_of' m)) →
  entry ord_of reports name = entry ord_of' reports name.
Proof. intros H H'. unfold entry, finish. f_equal. by apply topFailureMessages_ord. Qed.
Lemma results_ord ord_of ord_of' ord ord' root t reports :
  (∀ m, range_of m (ord_of m)) → (∀ m, range_of m (ord_of' m)) →
  range_of (foldl file_run ∅ reports) ord → range_of (foldl file_run ∅ reports) ord' →
  ScenarioResults (rollup_of ord_of' ord' root t reports) = ScenarioResults (rollup_of ord_of ord root t reports).
Proof.
  intros Ho Ho' Hr Hr'. apply (StronglySorted_unique_strong by_name); [|apply results_sorted..|].
  - intros a b. rewrite !results_entries by done. rewrite !list_elem_of_fmap. intros (x & -> & _) (y & -> & _) Hab Hba.
    rewrite (entry_ord ord_of' ord_of reports x) by done. f_equal. rewrite <- (entry_name ord_of' reports x), <- (entry_name ord_of reports y).
    by apply (anti_symm String.le).
  - rewrite !results_entries by done. rewrite (range_of_Permutation _ ord' ord) by done.
    erewrite list_fmap_ext; [done|]. intros ???. by apply entry_ord.
Qed.

(** A rollup counts what the reports say.  Whatever the order in which the
    scenario map and the failure maps are visited: every run is counted once,
    as passed or as failed; there is one entry per scenario, sorted by name,
    and its statistics are those of the runs of that scenario (sums wrapping
    at 64 bits, the highest numbers observed, the average of the durations);
    the failures it shows are the most frequent ones with their counts. *)
Theorem rollup_exact ord_of ord root t reports :
  (∀ m, range_of m (ord_of m)) → range_of (foldl file_run ∅ reports) ord →
  let ru := rollup_of ord_of ord root t reports in
  let names := ss_ScenarioName <$> ScenarioResults ru in
  ru_RunCount ru = ru_PassedCount ru + ru_FailedCount ru ∧
  sum ss_RunCount (ScenarioResults ru) = ru_RunCount ru ∧
  NoDup names ∧ StronglySorted String.le names ∧
  (∀ name, name ∈ names ↔ ∃ r, r ∈ reports ∧ scenario_of r = name) ∧
  (∀ s, s ∈ ScenarioResults ru → let runs := runs_of (ss_ScenarioName s) reports in
     exact_stats s runs ∧
     ∃ ranked, StronglySorted more_frequent ranked ∧
       (∀ key n, (key, n) ∈ ranked ↔ 0 < n ∧ n = count (λ a, negb (ar_Passed a) && bool_decide (failure_key a = key)) (assertions_of runs)) ∧
       TopFailureMessages s = (λ it, it.1 +:+ " (x" +:+ Itoa it.2 +:+ ")") <$> take 3 ranked) ∧
  (∀ ord_of' ord', (∀ m, range_of m (ord_of' m)) → range_of (foldl file_run ∅ reports) ord' → rollup_of ord_of' ord' root t reports = ru).
Proof.
  intros Ho Hr ru names. pose proof (results_entries ord_of reports ord root t Hr) as Hp. fold ru in Hp.
  assert (names ≡ₚ ord) as Hn by (unfold names; rewrite Hp; by rewrite entry_names). split_and!.
  - cbn. clear. induction reports as [|r l IH]; [done|]. rewrite !filter_cons. destruct (Passed r); cbn [length decide]; simpl length; lia.
  - rewrite (sum_Permutation _ _ _ Hp), sum_fmap. cbn [ru rollup_of ru_RunCount].
    rewrite <- (runs_partition ord reports); [|apply Hr|intros r Hin; apply (filed_scenarios reports ord _ Hr); by exists r].
    apply sum_ext. intros name Hname. apply (filed_scenarios reports ord name Hr) in Hname as (r & Hin & Hs).
    apply (run_stats_exact ord_of name (runs_of name reports)). by eapply runs_nonempty.
  - rewrite Hn. apply Hr.
  - apply (StronglySorted_map by_name); [by intros ?????|apply (results_sorted ord_of reports ord root t)].
  - intros name. rewrite Hn. by apply filed_scenarios.
  - intros s Hs. rewrite Hp in Hs. apply list_elem_of_fmap in Hs as (name & -> & Hname).
    apply (filed_scenarios reports ord name Hr) in Hname as (r & Hin & Hsc). rewrite entry_name. cbv zeta. split.
    + apply run_stats_exact. by eapply runs_nonempty.
    + exists (ranking (ord_of (failures (run_stats name (runs_of name reports)))) (failures (run_stats name (runs_of name reports)))). split_and!.
      * apply StronglySorted_merge_sort; apply _.
      * intros key n. by eapply ranking_elem.
      * cbn. apply top_ranking.
  - intros ord_of' ord' Ho' Hr'. unfold ru, rollup_of at 1 2. f_equal. exact (results_ord ord_of ord_of' ord ord' root t reports Ho Ho' Hr Hr').
Qed.

Definition no_metrics : MetricsSnapshot := mkMetrics 0 ∅ 0 ∅ ∅ 0 ∅ 0.
Definition demo_step (id type : string) (retries : Z) : StepReport :=
  mkStepReport id type "default" "" "" "" "" "" "" false "" 0 retries (0 <? retries) "" false "" 0 no_metrics "" "" "" [] [] 0 0 0 0 0 []
    0 0 "".
Definition demo_run (name : string) (start : Time) (passed : bool) (retries : Z) : RunReport :=
  mkRunReport name "" "smoke" ["nightly"] "" "/runs/r" "/runs/r/runtime" start (start + 5 * Second) passed
    [demo_step "step-01" StepTypeRunTask retries] [mkAssertionResult "recall_contains" "step-01" passed "recall" "no hit"] "".
Definition demo_runs : list RunReport := [demo_run "beta" 0 true 2; demo_run "alpha" 10 false 0; demo_run "beta" 20 false 3].
Definition demo_rollup : Rollup :=
  rollup_of (λ m, elements (dom m)) (elements (dom (foldl file_run ∅ demo_runs))) "runs" 0 demo_runs.
Lemma rollup_exact_witness :
  (λ s, (ss_ScenarioName s, ss_RunCount s, ss_RetryAttempts s, TopFailureMessages s)) <$> ScenarioResults demo_rollup
    = [("alpha", 1, 0, ["no hit (x1)"]); ("beta", 2, 5, ["no hit (x1)"])] ∧
  ru_RunCount demo_rollup = ru_PassedCount demo_rollup + ru_FailedCount demo_rollup.
Proof.
  split; [vm_compute; reflexivity|].
  unfold demo_rollup. apply (rollup_exact (λ m, elements (dom m))); [intros m; apply range_of_elements|apply range_of_elements].
Defined.
