(* ===== verification/HarnessBaseline.v ===== *)
(** * Saved baselines ([harness/rollup.go])

    The round trip of [SaveBaseline] and [CheckBaseline]: on a working disk,
    runs whose artifacts can be read match the baseline they were saved as. *)
From S2P Require Import Prelude GoStrings GoNum GoText Harness HarnessDiff HarnessRollup.
From S2P Require FsAccess GoTime GoJson ChatText.
Import FsAccess(Env, Abs, Join2, Dir, Rel, IsAbs, comps, render, proper, no_slash).
Import ChatText(Base).
Open Scope Z_scope.

(** ** Paths of cleaned elements *)

Lemma Join2_render cs e : Forall proper cs → proper e → Join2 (render cs) e = render (cs ++ [e]).
Proof.
  intros Hcs He. destruct (FsAccess.Join2_comps (render cs) e) as [_ ->]; [apply FsAccess.IsAbs_render|by destruct He|].
  by rewrite FsAccess.Join2_proper, FsAccess.comps_render by (done || apply FsAccess.IsAbs_render).
Qed.
Lemma Join2_below root e : IsAbs root = true → proper e → Join2 root e = render (comps root ++ [e]).
Proof.
  intros Hr He. destruct (FsAccess.Join2_comps root e Hr) as [_ ->]; [by destruct He|]. by rewrite FsAccess.Join2_proper.
Qed.
Lemma render_inj cs cs' : Forall proper cs → Forall proper cs' → render cs = render cs' → cs = cs'.
Proof. intros H H' E. rewrite <- (FsAccess.comps_render cs), <- (FsAccess.comps_render cs') by done. by rewrite E. Qed.
Lemma Abs_render env cs : Forall proper cs → Abs env (render cs) = render cs.
Proof.
  intros H. unfold Abs. rewrite FsAccess.IsAbs_render, FsAccess.Clean_render by apply FsAccess.IsAbs_render. by rewrite FsAccess.comps_render.
Qed.
Lemma Dir_snoc cs e : Forall proper (cs ++ [e]) → Dir (render (cs ++ [e])) = render cs.
Proof. intros H. rewrite FsAccess.Dir_render, length_app by done. cbn [length]. by rewrite Nat.add_sub, take_app_length. Qed.
Lemma Rel_below cs cs' : Forall proper (cs ++ cs') → cs' ≠ [] → Rel (render cs) (render (cs ++ cs')) = Some (Join cs' "/").
Proof.
  intros H Hne. assert (Forall proper cs) as Hcs by (by apply Forall_app in H as [? _]).
  unfold Rel. rewrite !FsAccess.IsAbs_render, bool_decide_true by done. cbn [negb].
  rewrite !FsAccess.comps_render by done.
  assert (FsAccess.strip_common cs (cs ++ cs') = ([], cs')) as ->; [|by destruct cs'].
  clear. induction cs as [|c cs IH]; [by destruct cs'|]. cbn. by rewrite decide_True.
Qed.

(** A path is the path of its directory and the last element. *)
Lemma render_snoc cs : ∃ pre, ∀ e, render (cs ++ [e]) = pre +:+ e.
Proof.
  exists ("/" +:+ match cs with [] => "" | _ => Join cs "/" +:+ "/" end). intros e. unfold render.
  rewrite <- (string_app_assoc "/"). f_equal. induction cs as [|c cs IH]; [done|].
  destruct cs as [|c' cs]; [cbn [app]; rewrite !FsAccess.Join_cons; by rewrite <- string_app_assoc|].
  cbn [app] in *. rewrite (FsAccess.Join_cons c), IH, (FsAccess.Join_cons c). by rewrite <- !string_app_assoc.
Qed.
Lemma render_last_inj cs a b : render (cs ++ [a]) = render (cs ++ [b]) → a = b.
Proof. destruct (render_snoc cs) as [pre H]. rewrite !H. apply (inj (String.append pre)). Qed.

(** ** Slugs are file names *)

Fixpoint all_bytes (p : ascii → bool) (s : string) : bool := match s with String a r => p a && all_bytes p r | "" => true end.
Lemma all_bytes_app p s t : all_bytes p (s +:+ t) = all_bytes p s && all_bytes p t.
Proof. induction s as [|a s IH]; [done|]. rewrite string_cons_app. cbn. by rewrite IH, andb_assoc. Qed.
Lemma all_bytes_rev p s : all_bytes p (String.rev s) = all_bytes p s.
Proof.
  induction s as [|a s IH]; [done|]. change (String a s) with (String a "" +:+ s). rewrite rev_app_distr, !all_bytes_app, IH.
  cbn. by rewrite andb_comm.
Qed.
Lemma all_bytes_trim p c s : all_bytes p s = true → all_bytes p (TrimByte s c) = true.
Proof.
  assert (∀ s, all_bytes p s = true → all_bytes p (trim_left_byte c s) = true) as Hl.
  { clear s. intros s. induction s as [|a s IH]; [done|]. cbn. case_decide; [|done]. intros [_ ?]%andb_true_iff. auto. }
  intros H. unfold TrimByte. rewrite all_bytes_rev. by apply Hl; rewrite all_bytes_rev; apply Hl.
Qed.
Definition name_byte (a : ascii) : bool := negb (bool_decide (a = "/"%char)) && negb (bool_decide (a = "."%char)).
Lemma slug_bytes s : all_bytes name_byte (ReplaceBytes slug_byte s) = true.
Proof.
  induction s as [|a s IH]; [done|]. cbn [ReplaceBytes]. rewrite all_bytes_app, IH, andb_true_r.
  unfold slug_byte. case_bool_decide as E1; [done|]. case_bool_decide as E2; [done|]. cbn. unfold name_byte. rewrite andb_true_r.
  rewrite !bool_decide_false by set_solver. done.
Qed.
Lemma no_slash_bytes s : all_bytes name_byte s = true → no_slash s = true.
Proof.
  induction s as [|a s IH]; [done|]. cbn. intros [[Ha _]%andb_true_iff Hs]%andb_true_iff. by rewrite Ha, IH.
Qed.
Lemma slug_nonempty {tables : UnicodeTables} s : slugify s ≠ "".
Proof. unfold slugify. by case_decide. Qed.
Lemma slug_name {tables : UnicodeTables} s : all_bytes name_byte (slugify s) = true.
Proof. unfold slugify. case_decide; [done|]. apply all_bytes_trim, slug_bytes. Qed.
Lemma slug_proper {tables : UnicodeTables} s : proper (slugify s).
Proof.
  pose proof (slug_name s) as H. split_and!; [apply slug_nonempty|by apply no_slash_bytes|..]; by intros E; rewrite E in H.
Qed.
(** A name with a dash in the middle. *)
Lemma dashed_proper a b : no_slash a = true → no_slash b = true → a ≠ "" → proper (a +:+ "-" +:+ b).
Proof.
  intros Ha Hb Hne. split_and!; [by destruct a| |..].
  - by rewrite !FsAccess.no_slash_app, Ha, Hb.
  - intros E. apply (f_equal len) in E. rewrite !string_length_app in E. unfold len in E. cbn in E. destruct a; [done|]. cbn in E. lia.
  - intros E. destruct a as [|c1 a]; [done|]. rewrite string_cons_app in E. injection E as _ E.
    destruct a as [|c2 a]; [done|]. rewrite string_cons_app in E. injection E as _ E. by destruct a.
Qed.
Lemma pretty_N_name (n : N) : no_slash (pretty n) = true.
Proof.
  assert (∀ s, no_slash s = true → no_slash (pretty_N_go n s) = true) as H.
  { induction (N.lt_wf_0 n) as [n _ IH]. intros s Hs. destruct (decide (0 < n)%N) as [Hn|Hn].
    - rewrite pretty_N_go_step by done. apply IH; [by apply N.div_lt|]. cbn. rewrite Hs, andb_true_r.
      apply negb_true_iff, bool_decide_eq_false. unfold pretty_N_char. by repeat case_match.
    - assert (n = 0%N) as -> by lia. done. }
  unfold pretty, pretty_N. case_decide; [done|]. by apply H.
Qed.
Lemma two_digits_name i : no_slash (two_digits (Z.of_nat i)) = true.
Proof.
  unfold two_digits, GoTime.digits. generalize (2 - len (Itoa (Z.of_nat i)))%nat. intros n.
  assert (no_slash (Itoa (Z.of_nat i)) = true) as H by (by destruct i; [|apply (pretty_N_name (N.pos _))]).
  revert H. generalize (Itoa (Z.of_nat i)). induction n as [|n IH]; intros s Hs; [done|]. cbn. by apply IH.
Qed.
Lemma Base_name src : FsAccess.split_path src ≠ [] → no_slash (Base src) = true.
Proof.
  intros H. unfold Base. case_decide; [done|]. destruct (last (FsAccess.split_path src)) as [e|] eqn:E.
  - apply last_Some_elem_of in E. by apply (FsAccess.split_go_elems "" src e) in E as [_ ?].
  - by apply last_None in E.
Qed.

Ltac proper_names := rewrite ?Forall_app, ?Forall_cons, ?Forall_nil; by repeat (assumption || split).

(** ** Writing below a directory *)

Section baseline.
Context {tables : UnicodeTables}.
Variable h : Host.
Variable root : string.
Hypothesis root_abs : IsAbs root = true.

Definition base : list string := comps root.
Definition at_ (cs : list string) : string := render (base ++ cs).
(** The directory [cs] and those above it exist. *)
Definition chain (d : Disk) (cs : list string) : Prop := ∀ n, d !! render (take n cs) = Some Directory.
Lemma base_proper : Forall proper base.
Proof. by apply FsAccess.comps_proper. Qed.
Lemma at_proper cs : Forall proper cs → Forall proper (base ++ cs).
Proof. intros H. apply Forall_app. split; [apply base_proper|done]. Qed.
Lemma at_inj cs cs' : Forall proper cs → Forall proper cs' → at_ cs = at_ cs' → cs = cs'.
Proof. intros H H' E%render_inj; [by apply app_inv_head in E|by apply at_proper..]. Qed.
Lemma at_nonempty cs : at_ cs ≠ "".
Proof. done. Qed.
Lemma lookup_at d cs : Forall proper cs → lookup_node h d (at_ cs) = d !! at_ cs.
Proof. intros H. unfold lookup_node, at_. rewrite decide_False by done. by rewrite Abs_render by by apply at_proper. Qed.
Lemma join_at cs e : Forall proper cs → proper e → Join2 (at_ cs) e = at_ (cs ++ [e]).
Proof. intros H He. unfold at_. rewrite Join2_render by (done || by apply at_proper). by rewrite <- app_assoc. Qed.
Lemma chain_last d cs : chain d cs → d !! render cs = Some Directory.
Proof. intros H. specialize (H (length cs)). by rewrite firstn_all in H. Qed.
Lemma is_dir_at d cs : Forall proper cs → d !! at_ cs = Some Directory → is_dir h d (at_ cs) = true.
Proof. intros Hp H. unfold is_dir. by rewrite lookup_at, H. Qed.

Lemma write_at d cs e n w : reliable w → Forall proper (cs ++ [e]) → d !! at_ cs = Some Directory →
  d !! at_ (cs ++ [e]) ≠ Some Directory →
  WriteNode h (at_ (cs ++ [e])) n d w = (Ok tt, <[at_ (cs ++ [e]) := n]> d, advance w).
Proof.
  intros Hw Hp Hdir Hno. assert (Forall proper cs) as Hcs by (by apply Forall_app in Hp as [? _]).
  unfold WriteNode. rewrite bind_eq. cbn [get]. rewrite decide_False by apply at_nonempty.
  assert (Abs (env h) (at_ (cs ++ [e])) = at_ (cs ++ [e])) as -> by (by apply Abs_render, at_proper).
  assert (Dir (at_ (cs ++ [e])) = at_ cs) as ->.
  { unfold at_. rewrite app_assoc. apply Dir_snoc. rewrite <- app_assoc. by apply at_proper. }
  rewrite (is_dir_at d cs) by done. assert (is_dir h d (at_ (cs ++ [e])) = false) as ->.
  { unfold is_dir. rewrite lookup_at by done. by destruct (d !! at_ (cs ++ [e])) as [[]|]. }
  cbn [orb negb]. rewrite bind_eq. cbn [io]. by rewrite Hw.
Qed.
Lemma make_dirs_lookup keys d k : make_dirs keys d !! k = if decide (k ∈ keys) then Some Directory else d !! k.
Proof.
  induction keys as [|k' keys IH]; [done|].
  change (make_dirs (k' :: keys) d) with (<[k' := Directory]> (make_dirs keys d)). destruct (decide (k = k')) as [->|Hne].
  - rewrite lookup_insert_eq, decide_True; [done|by left].
  - rewrite lookup_insert_ne, IH by done. destruct (decide (k ∈ keys)); [rewrite decide_True|rewrite decide_False]; [done|by right|done|].
    by intros [?|?]%elem_of_cons.
Qed.
Lemma ancestors_elem cs k : Forall proper cs → k ∈ ancestors (render cs) ↔ ∃ n, k = render (take n cs).
Proof.
  intros Hp. unfold ancestors. rewrite FsAccess.comps_render, list_elem_of_fmap by done. split.
  - intros (n & -> & _). by exists n.
  - intros (n & ->). destruct (decide (n ≤ length cs)%nat).
    + exists n. split; [done|]. apply elem_of_seq. lia.
    + exists (length cs). rewrite firstn_all, take_ge by lia. split; [done|]. apply elem_of_seq. lia.
Qed.
Lemma mkdir_run d path cs w : reliable w → path ≠ "" → Forall proper cs → Abs (env h) path = render cs →
  (∀ n, is_file d (render (take n cs)) = false) → (d !! render cs = Some Directory → chain d cs) →
  ∃ d' w', MkdirAll h path d w = (Ok tt, d', w') ∧ reliable w' ∧ chain d' cs ∧
    ∀ k, (∀ n, k ≠ render (take n cs)) → d' !! k = d !! k.
Proof.
  intros Hw Hne Hp Habs Hfile Hchain. unfold MkdirAll. rewrite bind_eq. cbn [get].
  destruct (is_dir h d path) eqn:E.
  { exists d, w. split_and!; [done..| |done]. apply Hchain. unfold is_dir, lookup_node in E. rewrite decide_False, Habs in E by done.
    by destruct (d !! render cs) as [[]|]. }
  rewrite bind_eq. cbn [io]. rewrite Hw, decide_False by done. rewrite Habs.
  assert (existsb (is_file d) (ancestors (render cs)) = false) as ->.
  { apply not_true_is_false. intros (k & Hk & Hf)%existsb_exists. apply list_elem_of_In, ancestors_elem in Hk as [n ->]; [|done].
    by rewrite Hfile in Hf. }
  eexists _, _. split_and!; [reflexivity|done|..].
  - intros n. rewrite make_dirs_lookup, decide_True; [done|]. apply ancestors_elem; [done|]. by exists n.
  - intros k Hk. rewrite make_dirs_lookup, decide_False; [done|]. intros [n ->]%ancestors_elem; [by apply (Hk n)|done].
Qed.
(** A directory in an existing one. *)
Lemma mkdir_at d cs e w : reliable w → Forall proper (cs ++ [e]) → chain d (base ++ cs) →
  (∀ s, d !! at_ (cs ++ [e]) ≠ Some (Bytes s)) → (∀ s, d !! at_ (cs ++ [e]) ≠ Some (Stored s)) →
  ∃ d' w', MkdirAll h (at_ (cs ++ [e])) d w = (Ok tt, d', w') ∧ reliable w' ∧ chain d' (base ++ cs ++ [e]) ∧
    ∀ k, k ≠ at_ (cs ++ [e]) → d' !! k = d !! k.
Proof.
  intros Hw Hp Hc Hb Hs.
  assert (∀ n, take n (base ++ cs ++ [e]) = take n (base ++ cs) ∨ take n (base ++ cs ++ [e]) = base ++ cs ++ [e]) as Htake.
  { intros n. rewrite app_assoc. destruct (decide (n ≤ length (base ++ cs))%nat); [left; by apply take_app_le|right].
    apply take_ge. rewrite (length_app _ [e]). cbn [length]. lia. }
  destruct (mkdir_run d (at_ (cs ++ [e])) (base ++ cs ++ [e]) w) as (d' & w' & Hrun & Hw' & Hc' & Hk); [done..|by apply at_proper| | | |].
  - by apply Abs_render, at_proper.
  - intros n. unfold is_file. destruct (Htake n) as [->| ->]; [by rewrite Hc|]. fold (at_ (cs ++ [e])).
    destruct (d !! at_ (cs ++ [e])) as [[]|] eqn:E; [by destruct (Hb s)|by destruct (Hs d0)|done..].
  - intros Hd n. destruct (Htake n) as [->| ->]; [apply Hc|done].
  - exists d', w'. split_and!; [done..|]. intros k Hne.
    destruct (decide (k ∈ ancestors (render (base ++ cs ++ [e])))) as [[n ->]%ancestors_elem|Hno]; [|by apply at_proper|].
    + destruct (Htake n) as [E|E]; rewrite E in *; [|done]. specialize (Hc' n). rewrite E in Hc'. by rewrite Hc, Hc'.
    + apply Hk. intros n ->. apply Hno, ancestors_elem; [by apply at_proper|]. by exists n.
Qed.

(** ** Snapshots *)

Definition snapshot_name (step : string) (i : nat) (src : string) : string :=
  slugify (firstNonEmpty [step; "step"]) +:+ "-" +:+ two_digits (Z.of_nat i) +:+ "-" +:+ Base src.
Definition names_from (step : string) (n : nat) (paths : list string) : list string :=
  zip_with (snapshot_name step) (seq n (length paths)) paths.
Definition src_text (d : Disk) (p : string) : option string := lookup_node h d p ≫= node_text h.
(** [p] is no file below the baseline. *)
Definition outside (p : string) : Prop := ∀ sl cs, Abs (env h) p ≠ at_ (sl :: cs).
Definition relative (kind name : string) : string := kind +:+ "/" +:+ name.

Lemma split_go_nil cur s : FsAccess.split_go cur s = [] → cur = "".
Proof.
  revert cur. induction s as [|a s IH]; intros cur; cbn; [by case_decide|]. case_decide as Ha.
  - intros [H _]%app_nil. by case_decide.
  - intros H%IH. done.
Qed.
Lemma slashes_only src : FsAccess.split_path src = [] → src ≠ "" → Abs (env h) src = "/".
Proof.
  intros H Hne. destruct src as [|a r]; [done|]. assert (a = "/"%char) as ->.
  { unfold FsAccess.split_path in H. cbn in H. case_decide as Ha; [done|]. by apply split_go_nil in H. }
  unfold Abs. change (IsAbs (String "/" r)) with (HasPrefix ("/" +:+ r) "/"). rewrite HasPrefix_app.
  unfold FsAccess.Clean, comps. change (IsAbs (String "/" r)) with (HasPrefix ("/" +:+ r) "/"). by rewrite HasPrefix_app, H.
Qed.
Lemma snapshot_name_proper step i src d raw : chain d base → src_text d src = Some raw → proper (snapshot_name step i src).
Proof.
  intros Hc Hs. apply dashed_proper; [apply no_slash_bytes, slug_name| |apply slug_nonempty].
  rewrite FsAccess.no_slash_app, two_digits_name. cbn [andb]. change (no_slash ("-" +:+ Base src)) with (no_slash (Base src)).
  apply Base_name. intros Hnil. unfold src_text, lookup_node in Hs. case_decide as Hne; [done|].
  rewrite slashes_only in Hs by done. specialize (Hc 0%nat). change (render (take 0 base)) with "/" in Hc. by rewrite Hc in Hs.
Qed.

Section kind.
Variables sl kind : string.
Hypothesis sl_proper : proper sl.
Hypothesis kind_proper : proper kind.

(** The directory of the kind exists, and holds no directories. *)
Definition flat (d : Disk) : Prop := ∀ name, proper name → d !! at_ [sl; kind; name] ≠ Some Directory.
Lemma snapshot_file_run step out i src d w : reliable w → chain d (base ++ [sl; kind]) → flat d →
  ∃ x d' w', snapshot_file h (at_ [sl]) kind (slugify (firstNonEmpty [step; "step"])) out (i, src) d w = (Ok (out ++ [x]), d', w') ∧
    reliable w' ∧ chain d' (base ++ [sl; kind]) ∧ flat d' ∧
    (∀ k, (proper (snapshot_name step i src) → k ≠ at_ [sl; kind; snapshot_name step i src]) → d' !! k = d !! k) ∧
    (∀ raw, src_text d src = Some raw → x = relative kind (snapshot_name step i src) ∧
       d' !! at_ [sl; kind; snapshot_name step i src] = Some (Bytes raw)).
Proof.
  intros Hw Hc Hf. unfold snapshot_file. rewrite bind_eq. cbn [get]. fold (src_text d src).
  assert (chain d base) as Hbase.
  { intros n. specialize (Hc (n `min` length base)%nat). rewrite take_app_le in Hc by lia. by rewrite <- take_take, firstn_all in Hc. }
  destruct (src_text d src) as [raw|] eqn:Es.
  2: { exists src, d, w. split_and!; done. }
  pose proof (snapshot_name_proper step i src d raw Hbase Es) as Hn. fold (snapshot_name step i src).
  assert (Forall proper [sl; kind]) as Hp by proper_names.
  rewrite (join_at [sl] kind) by proper_names. cbn [app]. rewrite (join_at [sl; kind]) by done. cbn [app].
  rewrite bind_eq. change [sl; kind; snapshot_name step i src] with ([sl; kind] ++ [snapshot_name step i src]).
  rewrite write_at; [|done|proper_names|by apply chain_last|by apply Hf]. cbn [app].
  eexists _, _, _. split_and!; [reflexivity|done|..].
  - intros n. rewrite lookup_insert_ne; [apply Hc|]. intros E%render_inj.
    + apply (f_equal length) in E. rewrite length_take, !length_app in E. cbn in E. lia.
    + apply at_proper; proper_names.
    + by apply Forall_take, at_proper.
  - intros name Hname. destruct (decide (at_ [sl; kind; name] = at_ [sl; kind; snapshot_name step i src])) as [->|Hne];
      [by rewrite lookup_insert_eq|rewrite lookup_insert_ne by done; by apply Hf].
  - intros k Hk. rewrite lookup_insert_ne; [done|]. intros <-. by apply Hk.
  - intros raw' [= <-]. rewrite lookup_insert_eq. split; [|done].
    unfold at_. change [sl; kind; snapshot_name step i src] with ([sl] ++ [kind; snapshot_name step i src]). rewrite app_assoc.
    rewrite Rel_below; [done| |done]. rewrite <- app_assoc. apply at_proper; proper_names.
Qed.

Lemma src_text_frame d d' p : (∀ k, (∀ cs, k ≠ at_ (sl :: cs)) → d' !! k = d !! k) → outside p → src_text d' p = src_text d p.
Proof. intros Hk Hp. unfold src_text, lookup_node. case_decide; [done|]. by rewrite Hk. Qed.
(** What a list of snapshots leaves. *)
Definition copied (d d' : Disk) (step : string) (n : nat) (paths xs : list string) : Prop :=
  ∀ i p raw, paths !! i = Some p → outside p → src_text d p = Some raw →
    xs !! i = Some (relative kind (snapshot_name step (n + i) p)) ∧ d' !! at_ [sl; kind; snapshot_name step (n + i) p] = Some (Bytes raw).
Lemma snapshot_list step paths : ∀ n out d w, reliable w → chain d (base ++ [sl; kind]) → flat d → NoDup (names_from step n paths) →
  ∃ xs d' w', foldM (snapshot_file h (at_ [sl]) kind (slugify (firstNonEmpty [step; "step"]))) out (zip (seq n (length paths)) paths) d w
      = (Ok (out ++ xs), d', w') ∧ reliable w' ∧ length xs = length paths ∧ chain d' (base ++ [sl; kind]) ∧ flat d' ∧
    (∀ k, (∀ name, name ∈ names_from step n paths → proper name → k ≠ at_ [sl; kind; name]) → d' !! k = d !! k) ∧
    copied d d' step n paths xs.
Proof.
  induction paths as [|p paths IH]; intros n out d w Hw Hc Hf Hn.
  { exists [], d, w. rewrite app_nil_r. split_and!; done. }
  unfold names_from in Hn. cbn [length seq zip_with] in Hn. fold (names_from step (S n) paths) in Hn. apply NoDup_cons in Hn as [Hnew Hn].
  cbn [length seq zip zip_with foldM]. rewrite bind_eq.
  destruct (snapshot_file_run step out n p d w Hw Hc Hf) as (x & d1 & w1 & -> & Hw1 & Hc1 & Hf1 & Hk1 & Hx).
  destruct (IH (S n) (out ++ [x]) d1 w1 Hw1 Hc1 Hf1 Hn) as (xs & d2 & w2 & Hrun & Hw2 & Hl & Hc2 & Hf2 & Hk2 & Hcopied).
  exists (x :: xs), d2, w2. rewrite <- app_assoc in Hrun. split_and!; [exact Hrun|done|by cbn; rewrite Hl|done|done|..].
  - intros k Hk. unfold names_from in Hk. cbn [length seq zip_with] in Hk. fold (names_from step (S n) paths) in Hk.
    rewrite Hk2, Hk1; [done|apply Hk; by left|]. intros name Hin. apply Hk. by right.
  - intros [|i] q raw Hq Hout Hraw; cbn in Hq.
    + injection Hq as ->. rewrite Nat.add_0_r. destruct (Hx raw Hraw) as [-> Hd1]. split; [done|]. rewrite Hk2; [done|].
      intros name Hin _ E. unfold at_ in E. change (?a :: ?b :: ?c :: []) with ([a; b] ++ [c]) in E.
      rewrite !app_assoc in E. apply render_last_inj in E. by subst name.
    + rewrite <- Nat.add_succ_comm. apply Hcopied; [done..|]. rewrite <- Hraw. apply src_text_frame; [|done].
      intros k Hk. by apply Hk1.
Qed.
End kind.

(** ** A report *)

Section report.
Variable sl : string.
Hypothesis sl_proper : proper sl.

Definition kinds : list string := ["artifacts"; "observations"].
Definition no_file (d : Disk) (cs : list string) : Prop := ∀ n, d !! at_ cs = Some n → n = Directory.
(** The directory of the scenario, ready for files of the two kinds. *)
Definition ready (d : Disk) : Prop := chain d (base ++ [sl]) ∧ ∀ kind, kind ∈ kinds → no_file d [sl; kind] ∧ flat sl kind d.
Lemma kind_name kind : kind ∈ kinds → proper kind.
Proof. intros [->|[->|[]%elem_of_nil]%elem_of_cons]%elem_of_cons; by vm_compute. Qed.
Lemma kind_apart kind kind' cs cs' : kind ∈ kinds → kind' ∈ kinds → kind ≠ kind' → Forall proper cs → Forall proper cs' →
  at_ (sl :: kind :: cs) ≠ at_ (sl :: kind' :: cs').
Proof.
  intros H1%kind_name H2%kind_name Hne Hcs Hcs' E%at_inj; [|proper_names..]. congruence.
Qed.
Lemma ready_frame d d' kind : ready d → kind ∈ kinds → chain d' (base ++ [sl; kind]) → flat sl kind d' →
  (∀ k, k ≠ at_ [sl; kind] → (∀ name, proper name → k ≠ at_ [sl; kind; name]) → d' !! k = d !! k) → ready d'.
Proof.
  intros [Hc Hr] Hkind Hc' Hf' Hk. assert (chain d' (base ++ [sl])) as Hc2.
  { intros n. specialize (Hc' (n `min` length (base ++ [sl]))%nat). change [sl; kind] with ([sl] ++ [kind]) in Hc'.
    rewrite app_assoc, take_app_le in Hc' by lia. by rewrite <- take_take, firstn_all in Hc'. }
  split; [done|]. intros kind' Hkind'. destruct (decide (kind' = kind)) as [->|Hne].
  - split; [|done]. intros n Hn. apply chain_last in Hc'. unfold at_ in Hn. rewrite Hc' in Hn. by injection Hn.
  - destruct (Hr kind' Hkind') as [Hno Hflat]. split.
    + intros n. rewrite Hk; [apply Hno|by apply kind_apart; try apply Forall_nil|].
      intros name Hname. apply kind_apart; [done..|by apply Forall_nil|by proper_names].
    + intros name Hname. rewrite Hk; [by apply Hflat|by apply kind_apart; try apply Forall_nil; proper_names|].
      intros name' Hname'. apply kind_apart; [done..|by proper_names|by proper_names].
Qed.
Lemma snapshotStepFiles_run d kind step paths w : reliable w → ready d → kind ∈ kinds → NoDup (names_from step 0 paths) →
  ∃ xs d' w', snapshotStepFiles h (at_ [sl]) kind step paths d w = (Ok xs, d', w') ∧ reliable w' ∧ ready d' ∧ length xs = length paths ∧
    (∀ k, k ≠ at_ [sl; kind] → (∀ name, name ∈ names_from step 0 paths → proper name → k ≠ at_ [sl; kind; name]) → d' !! k = d !! k) ∧
    copied sl kind d d' step 0 paths xs.
Proof.
  intros Hw [Hc Hr] Hkind Hn. pose proof (kind_name kind Hkind) as Hkp. destruct (Hr kind Hkind) as [Hno Hflat].
  unfold snapshotStepFiles. destruct paths as [|p paths]; [by exists [], d, w|]. set (l := p :: paths) in *. clearbody l.
  rewrite bind_eq, join_at by proper_names. cbn [app].
  destruct (mkdir_at d [sl] kind w) as (d1 & w1 & Hmk & Hw1 & Hc1 & Hk1); [done|proper_names|done|..].
  1-2: intros x Hx; cbn [app] in Hx; by specialize (Hno _ Hx).
  cbn [app] in Hc1, Hk1, Hmk. rewrite Hmk. assert (flat sl kind d1) as Hf1.
  { intros name Hname. rewrite Hk1; [by apply Hflat|]. intros E%at_inj; [done|proper_names..]. }
  destruct (snapshot_list sl kind sl_proper Hkp step l 0 [] d1 w1 Hw1 Hc1 Hf1 Hn) as (xs & d2 & w2 & Hrun & Hw2 & Hl & Hc2 & Hf2 & Hk2 & Hcop).
  exists xs, d2, w2. cbn [app] in *. assert (∀ k, k ≠ at_ [sl; kind] →
    (∀ name, name ∈ names_from step 0 l → proper name → k ≠ at_ [sl; kind; name]) → d2 !! k = d !! k) as Hframe.
  { intros k Hne Hk. by rewrite Hk2, Hk1. }
  split_and!; [done..| |done|done|].
  - apply (ready_frame d d2 kind); [done..|]. intros k Hne Hk. apply Hframe; [done|]. intros name _. apply Hk.
  - intros i q raw Hq Hout Hraw. apply Hcop; [done..|]. rewrite <- Hraw. apply (src_text_frame sl); [|done].
    intros k Hk. apply Hk1. cbn. apply Hk.
Qed.

(** A step of the baseline, for a step whose artifacts have the texts [d0]
    gives. *)
Definition snap (d0 d : Disk) (s s' : StepReport) : Prop := ∃ artifacts observations,
  s' = with_paths s artifacts observations ∧ length observations = length (sr_ObservationPaths s) ∧
  length artifacts = length (sr_ArtifactPaths s) ∧
  ∀ i p, sr_ArtifactPaths s !! i = Some p → ∃ raw, src_text d0 p = Some raw ∧
    artifacts !! i = Some (relative "artifacts" (snapshot_name (sr_ID s) i p)) ∧
    d !! at_ [sl; "artifacts"; snapshot_name (sr_ID s) i p] = Some (Bytes raw).
Definition step_names (s : StepReport) : list string := names_from (sr_ID s) 0 (sr_ArtifactPaths s).
Definition readable (d : Disk) (s : StepReport) : Prop :=
  (∀ p, p ∈ sr_ArtifactPaths s → is_Some (src_text d p) ∧ outside p) ∧ NoDup (names_from (sr_ID s) 0 (sr_ObservationPaths s)).
Definition elsewhere (d d' : Disk) : Prop :=
  ∀ k, (∀ kind cs, kind ∈ kinds → Forall proper cs → k ≠ at_ (sl :: kind :: cs)) → d' !! k = d !! k.
Lemma elsewhere_trans d d1 d2 : elsewhere d d1 → elsewhere d1 d2 → elsewhere d d2.
Proof. intros H1 H2 k Hk. by rewrite H2, H1. Qed.
Lemma elsewhere_text d d' p : elsewhere d d' → outside p → src_text d' p = src_text d p.
Proof. intros H Hp. apply (src_text_frame sl); [|done]. intros k Hk. apply H. intros kind cs _ _. apply Hk. Qed.
Lemma name_elem s i p : sr_ArtifactPaths s !! i = Some p → snapshot_name (sr_ID s) i p ∈ step_names s.
Proof.
  intros H. apply list_elem_of_lookup. exists i. unfold step_names, names_from. rewrite lookup_zip_with, H.
  rewrite lookup_seq_lt by by eapply lookup_lt_Some. done.
Qed.

Lemma snapshot_step_run d0 out s d w : reliable w → ready d → readable d0 s → NoDup (step_names s) →
  (∀ p, outside p → src_text d p = src_text d0 p) →
  ∃ s' d' w', snapshot_step h (at_ [sl]) out s d w = (Ok (out ++ [s']), d', w') ∧ reliable w' ∧ ready d' ∧ elsewhere d d' ∧
    snap d0 d' s s' ∧ ∀ name, proper name → name ∉ step_names s → d' !! at_ [sl; "artifacts"; name] = d !! at_ [sl; "artifacts"; name].
Proof.
  intros Hw Hr [Hread Hobs] Hn Hsame. unfold snapshot_step. rewrite bind_eq.
  assert ("artifacts" ∈ kinds ∧ "observations" ∈ kinds) as [Ha Ho] by (unfold kinds; set_solver).
  destruct (snapshotStepFiles_run d "artifacts" (sr_ID s) (sr_ArtifactPaths s) w) as (xs & d1 & w1 & -> & Hw1 & Hr1 & Hl1 & Hk1 & Hc1); [done..|].
  rewrite bind_eq.
  destruct (snapshotStepFiles_run d1 "observations" (sr_ID s) (sr_ObservationPaths s) w1) as (ys & d2 & w2 & -> & Hw2 & Hr2 & Hl2 & Hk2 & _); [done..|].
  assert (∀ name, proper name → d2 !! at_ [sl; "artifacts"; name] = d1 !! at_ [sl; "artifacts"; name]) as Hart.
  { intros name Hname. apply Hk2; [apply kind_apart; [done..|proper_names|proper_names]|].
    intros name' _ Hname'. apply kind_apart; [done..|proper_names|proper_names]. }
  eexists _, d2, w2. split_and!; [reflexivity|done|done|..].
  - intros k Hk. rewrite Hk2, Hk1; [done|..]; intros; (apply Hk; [done|proper_names]).
  - exists xs, ys. split_and!; [done..|]. intros i p Hp. destruct (Hread p) as [[raw Hraw] Hout]; [by eapply list_elem_of_lookup_2|].
    exists raw. split; [done|]. destruct (Hc1 i p raw Hp Hout) as [Hx Hd]; [by rewrite Hsame|]. split; [done|].
    rewrite Hart; [done|]. apply (snapshot_name_proper _ _ _ d raw); [|by rewrite Hsame].
    intros n. destruct Hr as [Hc _]. specialize (Hc (n `min` length base)%nat). rewrite take_app_le in Hc by lia.
    by rewrite <- take_take, firstn_all in Hc.
  - intros name Hname Hnot. rewrite Hart by done. apply Hk1; [intros E%at_inj; [done|proper_names..]; by apply kind_name|].
    intros name' Hin Hname' E%at_inj; [|by pose proof (kind_name _ Ha); proper_names..]. injection E as <-. done.
Qed.
Lemma snap_stays d0 d d' s s' : chain d0 base → snap d0 d s s' →
  (∀ name, proper name → name ∈ step_names s → d' !! at_ [sl; "artifacts"; name] = d !! at_ [sl; "artifacts"; name]) → snap d0 d' s s'.
Proof.
  intros Hc (A & O & -> & HO & HA & H) Hk. exists A, O. split_and!; [done..|]. intros i p Hp. destruct (H i p Hp) as (raw & Hraw & Hx & Hd).
  exists raw. split_and!; [done..|]. rewrite Hk; [done| |by apply name_elem]. by apply (snapshot_name_proper _ _ _ d0 raw).
Qed.
Lemma snapshot_steps_run d0 steps : chain d0 base → ∀ out d w, reliable w → ready d → Forall (readable d0) steps → NoDup (steps ≫= step_names) →
  (∀ p, outside p → src_text d p = src_text d0 p) →
  ∃ steps' d' w', foldM (snapshot_step h (at_ [sl])) out steps d w = (Ok (out ++ steps'), d', w') ∧ reliable w' ∧ ready d' ∧ elsewhere d d' ∧
    Forall2 (snap d0 d') steps steps' ∧
    ∀ name, proper name → name ∉ steps ≫= step_names → d' !! at_ [sl; "artifacts"; name] = d !! at_ [sl; "artifacts"; name].
Proof.
  intros Hc0. induction steps as [|s steps IH]; intros out d w Hw Hr Hread Hn Hsame.
  { exists [], d, w. rewrite app_nil_r. by split_and!. }
  apply Forall_cons in Hread as [Hs Hread]. rewrite bind_cons in Hn. apply NoDup_app in Hn as (Hn & Hdis & Hn').
  cbn [foldM]. rewrite bind_eq.
  destruct (snapshot_step_run d0 out s d w) as (s' & d1 & w1 & -> & Hw1 & Hr1 & He1 & Hsnap & Hk1); [done..|].
  destruct (IH (out ++ [s']) d1 w1) as (steps' & d2 & w2 & -> & Hw2 & Hr2 & He2 & Hsnaps & Hk2); [done..| |].
  { intros p Hp. rewrite <- Hsame by done. by apply elsewhere_text. }
  exists (s' :: steps'), d2, w2. rewrite <- app_assoc. split_and!; [done..|by eapply elsewhere_trans| |].
  - constructor; [|done]. apply (snap_stays d0 d1); [done..|]. intros name Hname Hin. apply Hk2; [done|]. by apply Hdis.
  - intros name Hname Hnot. rewrite bind_cons, not_elem_of_app in Hnot. destruct Hnot. by rewrite Hk2, Hk1.
Qed.
End report.

(** ** The runs *)

Definition slug_of (r : RunReport) : string := slugify (ScenarioName r).
Definition artifact_names (r : RunReport) : list string := StepReports r ≫= step_names.
(** A run that can be saved: its times are in the range of RFC 3339, its
    artifacts can be read, lie outside the baseline, and are given different
    names that do not end in white space. *)
Definition saveable (d : Disk) (r : RunReport) : Prop :=
  report_json_ok r = true ∧ Forall (readable d) (StepReports r) ∧ NoDup (artifact_names r) ∧
  ∀ name, name ∈ artifact_names r → TrimSpace (relative "artifacts" name) = relative "artifacts" name.
(** The run is in the baseline. *)
Definition saved (d0 d : Disk) (r : RunReport) : Prop := ∃ steps,
  d !! at_ [slug_of r; "report.json"] = Some (Stored (ReportDoc (with_steps r steps))) ∧
  Forall2 (snap (slug_of r) d0 d) (StepReports r) steps.
Definition other_scenario (sl : string) (d d' : Disk) : Prop := ∀ k, (∀ cs, Forall proper cs → k ≠ at_ (sl :: cs)) → d' !! k = d !! k.

Lemma snap_times sl d0 d steps steps' : Forall2 (snap sl d0 d) steps steps' →
  forallb (λ s, json_time_ok (sr_StartedAt s) && json_time_ok (sr_FinishedAt s)) steps'
  = forallb (λ s, json_time_ok (sr_StartedAt s) && json_time_ok (sr_FinishedAt s)) steps.
Proof. induction 1 as [|s s' steps steps' (A & O & -> & _) _ IH]; [done|]. cbn. by rewrite IH. Qed.
Lemma report_name : proper "report.json".
Proof. by vm_compute. Qed.

Lemma save_run_run d0 r written d w : reliable w → chain d0 base → chain d base → (∀ cs, Forall proper cs → d !! at_ (slug_of r :: cs) = None) →
  saveable d0 r → (∀ p, outside p → src_text d p = src_text d0 p) →
  ∃ d' w', save_run h root written r d w = (Ok (written ++ [at_ [slug_of r; "report.json"]]), d', w') ∧ reliable w' ∧
    saved d0 d' r ∧ other_scenario (slug_of r) d d'.
Proof.
  intros Hw Hc0 Hc Hfresh (Hjson & Hread & Hnames & _) Hsame. pose proof (slug_proper (ScenarioName r)) as Hsl. fold (slug_of r) in Hsl.
  unfold save_run. fold (slug_of r). cbv zeta.
  assert (Join2 root (slug_of r) = at_ [slug_of r]) as -> by by apply Join2_below.
  destruct (mkdir_at d [] (slug_of r) w) as (d1 & w1 & Hmk & Hw1 & Hc1 & Hk1); [done|proper_names|by rewrite app_nil_r|..].
  1-2: intros x; cbn [app]; by rewrite Hfresh by by apply Forall_nil.
  cbn [app] in Hmk, Hc1, Hk1. rewrite bind_eq, Hmk, bind_eq. clear Hmk.
  assert (∀ e cs, Forall proper (e :: cs) → d1 !! at_ (slug_of r :: e :: cs) = None) as Hfresh1.
  { intros e cs Hp. rewrite Hk1; [by apply Hfresh|]. apply Forall_cons in Hp as [He Hcs]. intros E%at_inj; [done|proper_names..]. }
  unfold snapshotBaselineReport. rewrite bind_eq.
  destruct (snapshot_steps_run (slug_of r) Hsl d0 (StepReports r) Hc0 [] d1 w1) as (steps & d2 & w2 & -> & Hw2 & [Hc2 Hr2] & He2 & Hsnap & _); [done| |done..| |].
  { split; [done|]. intros kind Hkind%kind_name. split.
    - intros n. by rewrite Hfresh1 by proper_names.
    - intros name Hname. by rewrite Hfresh1 by proper_names. }
  { intros p Hp. rewrite <- Hsame by done. apply (src_text_frame (slug_of r)); [|done]. intros k Hk. by apply Hk1. }
  assert (∀ kind cs, kind ∈ kinds → Forall proper cs → at_ [slug_of r; "report.json"] ≠ at_ (slug_of r :: kind :: cs)) as Hreport.
  { pose proof report_name. intros kind cs Hkind Hcs E. pose proof (kind_name kind Hkind). apply at_inj in E; [|proper_names..].
    injection E as <- _. unfold kinds in Hkind. rewrite !elem_of_cons, elem_of_nil in Hkind. naive_solver. }
  cbn [mret M_ret app]. rewrite bind_eq. unfold writeJSON. cbn [document_ok].
  assert (report_json_ok (with_steps r steps) = true) as ->.
  { unfold report_json_ok in *. cbn. by rewrite (snap_times _ _ _ _ _ Hsnap). }
  pose proof report_name as Hname. rewrite (join_at [slug_of r]) by proper_names. cbn [app].
  change [slug_of r; "report.json"] with ([slug_of r] ++ ["report.json"]).
  rewrite write_at; [|done|proper_names|by apply chain_last|]; cbn [app].
  2: { rewrite He2 by by apply Hreport. rewrite Hfresh1; [done|proper_names]. }
  eexists _, _. split_and!; [reflexivity|done|..].
  - exists steps. rewrite lookup_insert_eq. split; [done|]. eapply Forall2_impl; [exact Hsnap|]. intros s s' Hs.
    apply (snap_stays (slug_of r) d0 d2); [done..|]. intros name Hname' _. rewrite lookup_insert_ne; [done|].
    apply Hreport; [by left|proper_names].
  - intros k Hk. rewrite lookup_insert_ne by (intros <-; apply (Hk ["report.json"]); [proper_names|done]).
    rewrite He2 by (intros kind cs ?%kind_name ?; apply Hk; proper_names). apply Hk1, Hk. by apply Forall_nil.
Qed.
Lemma other_key sl sl' cs cs' : proper sl → proper sl' → sl ≠ sl' → Forall proper cs → Forall proper cs' → at_ (sl :: cs) ≠ at_ (sl' :: cs').
Proof. intros H H' Hne Hcs Hcs' E%at_inj; [|proper_names..]. congruence. Qed.
Lemma slug_of_proper r : proper (slug_of r).
Proof. apply slug_proper. Qed.
Lemma saved_elsewhere d0 d d' r (reports : list RunReport) : chain d0 base → (∀ r', r' ∈ reports → slug_of r' ≠ slug_of r) → saved d0 d r →
  (∀ k, (∀ r' cs, r' ∈ reports → Forall proper cs → k ≠ at_ (slug_of r' :: cs)) → d' !! k = d !! k) → saved d0 d' r.
Proof.
  intros Hc Hne (steps & Hreport & Hsnap) Hk. pose proof (slug_of_proper r) as Hr.
  assert (∀ cs, Forall proper cs → d' !! at_ (slug_of r :: cs) = d !! at_ (slug_of r :: cs)) as Hown.
  { intros cs Hcs. apply Hk. intros r' cs' Hin Hcs'. apply other_key; [done|apply slug_of_proper|by intros E; apply (Hne r')|done|done]. }
  exists steps. split; [rewrite Hown; [done|]; pose proof report_name; proper_names|].
  eapply Forall2_impl; [exact Hsnap|]. intros s s' Hs. apply (snap_stays (slug_of r) d0 d); [done..|]. intros name Hname _.
  apply Hown. assert (proper "artifacts") by by vm_compute. proper_names.
Qed.
Lemma save_runs d0 reports : chain d0 base → ∀ written d w, reliable w → chain d base → NoDup (slug_of <$> reports) → Forall (saveable d0) reports →
  (∀ r, r ∈ reports → ∀ cs, Forall proper cs → d !! at_ (slug_of r :: cs) = None) → (∀ p, outside p → src_text d p = src_text d0 p) →
  ∃ d' w', foldM (save_run h root) written reports d w = (Ok (written ++ ((λ r, at_ [slug_of r; "report.json"]) <$> reports)), d', w') ∧
    Forall (saved d0 d') reports ∧ ∀ k, (∀ r cs, r ∈ reports → Forall proper cs → k ≠ at_ (slug_of r :: cs)) → d' !! k = d !! k.
Proof.
  intros Hc0. induction reports as [|r reports IH]; intros written d w Hw Hc Hn Hs Hfresh Hsame.
  { exists d, w. rewrite fmap_nil, app_nil_r. by split_and!. }
  rewrite fmap_cons in *. apply NoDup_cons in Hn as [Hnew Hn]. apply Forall_cons in Hs as [Hr Hs]. cbn [foldM]. rewrite bind_eq.
  assert (∀ r', r' ∈ reports → slug_of r' ≠ slug_of r) as Hother.
  { intros r' Hin E. apply Hnew, list_elem_of_fmap. by exists r'. }
  destruct (save_run_run d0 r written d w) as (d1 & w1 & -> & Hw1 & Hsaved & Hk1); [done|done|done|by intros; apply Hfresh; [left|]|done|done|].
  destruct (IH (written ++ [at_ [slug_of r; "report.json"]]) d1 w1) as (d2 & w2 & -> & Hall & Hk2); [done| |done|done|..].
  - intros n. rewrite Hk1; [apply Hc|]. intros cs Hcs E%render_inj; [|by apply Forall_take, base_proper|
      apply at_proper; pose proof (slug_of_proper r); proper_names]. apply (f_equal length) in E. rewrite length_take, length_app in E. cbn in E. lia.
  - intros r' Hin cs Hcs. rewrite Hk1; [by apply Hfresh; [right|]|]. intros cs' Hcs'. apply other_key; [apply slug_of_proper..|by apply Hother|done|done].
  - intros p Hp. rewrite <- Hsame by done. apply (src_text_frame (slug_of r)); [|done]. intros k Hk. apply Hk1. intros cs _. apply Hk.
  - exists d2, w2. rewrite <- app_assoc. split_and!; [done|constructor; [|done]|].
    + apply (saved_elsewhere d0 d1 d2 r reports); done.
    + intros k Hk. rewrite Hk2, Hk1; [done|intros cs Hcs; apply Hk; [by left|done]|intros r' cs Hin Hcs; apply Hk; [by right|done]].
Qed.

(** ** Checking *)

#[local] Arguments resolveReportFilePath : simpl never.
#[local] Arguments resolveReportFileList : simpl never.
#[local] Arguments relative : simpl never.
#[local] Arguments at_ : simpl never.

Lemma TrimSpace_path cs e a : plain_byte a = true → TrimSpace (render (cs ++ [e +:+ String a ""])) = render (cs ++ [e +:+ String a ""]).
Proof.
  intros Ha. destruct (render_snoc cs) as [pre H]. unfold TrimSpace. unfold render at 1.
  change ("/" +:+ ?x) with (String "/" x). rewrite GoJson.TrimLeftSpace_head by done.
  change (String "/" ?x) with ("/" +:+ x). fold (render (cs ++ [e +:+ String a ""])). rewrite H, string_app_assoc.
  by apply GoJson.TrimRightSpace_last.
Qed.
Lemma relative_at sl kind name : proper sl → proper kind → proper name → Join2 (at_ [sl]) (relative kind name) = at_ [sl; kind; name].
Proof.
  intros Hsl Hk Hn. unfold relative. destruct (FsAccess.Join2_comps (at_ [sl]) (kind +:+ "/" +:+ name)) as [Hc ->];
    [apply FsAccess.IsAbs_render|by destruct kind; [destruct Hk|]|].
  assert (Forall proper (base ++ [sl])) as Hp by (apply at_proper; proper_names).
  rewrite Hc, FsAccess.split_path_slash, !FsAccess.split_proper by done. unfold at_. rewrite FsAccess.comps_render by done.
  cbn [app]. rewrite FsAccess.clean_go_id by proper_names. by rewrite reverse_involutive, <- app_assoc.
Qed.
Lemma src_text_file d p raw : src_text d p = Some raw ↔ ReadFile h d p = inr raw.
Proof. unfold ReadFile. fold (src_text d p). destruct (src_text d p); [|done]. split; [by intros [= ->]|by intros [= ->]]. Qed.
Lemma resolve_snapshot d sl name raw : proper sl → proper name → TrimSpace (relative "artifacts" name) = relative "artifacts" name →
  d !! at_ [sl; "artifacts"; name] = Some (Bytes raw) →
  resolveReportFilePath h d (at_ [sl]) "artifacts" (relative "artifacts" name) = at_ [sl; "artifacts"; name].
Proof.
  intros Hsl Hn Ht Hd. unfold resolveReportFilePath. rewrite Ht. assert (proper "artifacts") as Ha by by vm_compute.
  cbv zeta. rewrite decide_False by done. change (IsAbs (relative "artifacts" name)) with false. cbv iota.
  rewrite relative_at by done. unfold exists_. rewrite lookup_at by proper_names. by rewrite Hd.
Qed.
Lemma load_saved d0 d r : saved d0 d r → ∃ steps,
  Forall2 (snap (slug_of r) d0 d) (StepReports r) steps ∧
  LoadRunReport h d (at_ [slug_of r; "report.json"]) =
    inr (resolveReportPaths h d (with_steps r steps) (at_ [slug_of r]), at_ [slug_of r; "report.json"]).
Proof.
  intros (steps & Hd & Hsnap). exists steps. split; [done|]. pose proof (slug_of_proper r) as Hsl. pose proof report_name as Hn.
  unfold LoadRunReport. assert (TrimSpace (at_ [slug_of r; "report.json"]) = at_ [slug_of r; "report.json"]) as ->.
  { unfold at_. change [slug_of r; "report.json"] with ([slug_of r] ++ ["report.jso" +:+ String "n" ""]). rewrite app_assoc. by apply TrimSpace_path. }
  cbv zeta. rewrite decide_False by apply at_nonempty. rewrite lookup_at by proper_names. rewrite Hd. cbv iota.
  rewrite lookup_at by proper_names. rewrite Hd. cbn [mbind option_bind decode_report]. do 3 f_equal.
  assert (Forall proper (base ++ [slug_of r; "report.json"])) as Hp by (apply at_proper; proper_names).
  unfold at_ at 1. rewrite FsAccess.Clean_render, FsAccess.comps_render by (done || apply FsAccess.IsAbs_render).
  change [slug_of r; "report.json"] with ([slug_of r] ++ ["report.json"]) in *. rewrite app_assoc in *. by apply Dir_snoc.
Qed.
Lemma saved_matches d0 d r path : chain d0 base → saveable d0 r → (∀ p, outside p → src_text d p = src_text d0 p) → ∀ steps,
  Forall2 (snap (slug_of r) d0 d) (StepReports r) steps →
  HasDiff (DiffReports h d (resolveReportPaths h d (with_steps r steps) (at_ [slug_of r])) path r (RunDir r)) = false.
Proof.
  intros Hc (_ & Hread & _ & Htrim) Hsame steps Hsnap. apply diff_clean. cbn. split_and!; [done..| |].
  - apply Forall2_fmap_l. apply Forall2_same_length_lookup_2; [by symmetry; eapply Forall2_length|].
    intros j s' s Hj' Hj. destruct (Forall2_lookup_lr _ _ _ _ _ _ Hsnap Hj Hj') as (A & O & -> & HO & HA & H).
    unfold same_step, same_identity, metrics_match, same_action, same_outputs. cbn. rewrite !equalStringIntMap_refl. split_and!; try done.
    + unfold resolveReportFileList. apply Forall2_fmap_l, Forall2_same_length_lookup_2; [done|]. intros i a p Ha Hp.
      destruct (H i p Hp) as (raw & Hraw & Hx & Hd). rewrite Ha in Hx. injection Hx as ->.
      assert (s ∈ StepReports r) as Hs by by eapply list_elem_of_lookup_2.
      rewrite Forall_forall in Hread. destruct (Hread s Hs) as [Hout _]. destruct (Hout p) as [_ Hout']; [by eapply list_elem_of_lookup_2|].
      pose proof (snapshot_name_proper (sr_ID s) i p d0 raw Hc Hraw) as Hname.
      unfold compose. rewrite (resolve_snapshot d _ _ raw); [|apply slug_of_proper|done|apply Htrim, list_elem_of_bind; exists s; split; [by apply name_elem|done]|done].
      exists raw, raw. split_and!; [|apply src_text_file; by rewrite Hsame|by left]. apply src_text_file. unfold src_text.
      assert (proper "artifacts") by by vm_compute. pose proof (slug_of_proper r). rewrite lookup_at by proper_names. by rewrite Hd.
    + unfold resolveReportFileList. by rewrite length_fmap.
  - apply Forall2_same_length_lookup_2; [done|]. intros i a a' Hi Hi'. rewrite Hi in Hi'. by injection Hi' as <-.
Qed.
Lemma check_saved d0 d reports : chain d0 base → Forall (saveable d0) reports → Forall (saved d0 d) reports →
  (∀ p, outside p → src_text d p = src_text d0 p) → ∀ out,
  foldl (check_run h d root) out reports = mkBaselineCheck (Compared out + Z.of_nat (length reports)) (bc_Passed out)
    (bc_Lines out ++ ((λ r, ScenarioName r +:+ ": matches baseline") <$> reports)).
Proof.
  intros Hc Hs Hsaved Hsame. induction reports as [|r reports IH]; intros out.
  { rewrite Z.add_0_r, fmap_nil, app_nil_r. by destruct out. }
  apply Forall_cons in Hs as [Hr Hs]. apply Forall_cons in Hsaved as [Hsv Hsaved]. cbn [foldl]. rewrite IH by done.
  unfold check_run. fold (slug_of r). assert (Join2 (Join2 root (slug_of r)) "report.json" = at_ [slug_of r; "report.json"]) as ->.
  { rewrite (Join2_below root) by (done || apply slug_of_proper). pose proof (slug_of_proper r). pose proof report_name. by rewrite (join_at [slug_of r]) by proper_names. }
  destruct (load_saved d0 d r Hsv) as (steps & Hsnap & ->). cbv zeta. rewrite (saved_matches d0) by done.
  cbn [Compared bc_Passed bc_Lines]. rewrite <- app_assoc. cbn [app length]. rewrite fmap_cons. f_equal. lia.
Qed.
End baseline.

(** ** The round trip *)

Section roundtrip.
Context {tables : UnicodeTables}.
Variables (h : Host) (shuffle : list RunReport → list RunReport).

(** The directory [root] can be made, and nothing is below it. *)
Record fresh (root : string) (d : Disk) : Prop := mkFresh {
  fresh_abs : IsAbs root = true;
  fresh_up : ∀ n, is_file d (render (take n (comps root))) = false;
  fresh_tree : d !! render (comps root) = Some Directory → ∀ n, d !! render (take n (comps root)) = Some Directory;
  fresh_below : ∀ cs, cs ≠ [] → Forall proper cs → d !! at_ root cs = None }.

Lemma mkdir_text d d' cs p : (∀ n, is_file d (render (take n cs)) = false) → chain d' cs → Forall proper cs →
  (∀ k, (∀ n, k ≠ render (take n cs)) → d' !! k = d !! k) → src_text h d' p = src_text h d p.
Proof.
  intros Hf Hc Hp Hk. unfold src_text, lookup_node. case_decide; [done|].
  destruct (decide (Abs (env h) p ∈ ancestors (render cs))) as [[n ->]%ancestors_elem|Hno]; [|done|].
  - rewrite Hc. specialize (Hf n). unfold is_file in Hf. by destruct (d !! render (take n cs)) as [[]|].
  - rewrite Hk; [done|]. intros n E. apply Hno. rewrite E. apply ancestors_elem; [done|]. by exists n.
Qed.

(** C31. A baseline is matched by the runs it was saved from.  On a working
    disk, below an absolute path that holds nothing yet, runs are saved if
    their scenarios have different slugs and each run has times that can be
    written, artifacts that can be read and lie outside the baseline, and
    different names for the copies of its artifacts, none ending in white
    space (copies of one name overwrite each other); and as long as the same
    runs are collected, comparing them with that baseline counts every one,
    passes, and reports a match for each, although paths were rewritten and
    artifacts copied in between.  Files outside the baseline keep their
    contents. *)
Theorem baseline_roundtrip root src tags lane d w reports :
  reliable w → fresh root d → CollectRunReportsWithScope h shuffle d src tags lane = inr reports →
  NoDup (slug_of <$> reports) → Forall (saveable h root d) reports →
  ∃ d' w', SaveBaselineWithScope h shuffle src root tags lane d w
      = (Ok (inr ((λ r, at_ root [slug_of r; "report.json"]) <$> reports)), d', w') ∧
    (∀ p, outside h root p → src_text h d' p = src_text h d p) ∧
    ∀ src' tags' lane', CollectRunReportsWithScope h shuffle d' src' tags' lane' = inr reports →
      CheckBaselineWithScope h shuffle d' src' root tags' lane' = inr (mkBaselineCheck (Z.of_nat (length reports)) true
        ((λ r, ScenarioName r +:+ ": matches baseline") <$> reports)).
Proof.
  intros Hw [Habs Hup Htree Hbelow] Hcollect Hn Hs. pose proof (base_proper root Habs) as Hb.
  unfold SaveBaselineWithScope. rewrite bind_eq. cbn [get]. rewrite Hcollect, bind_eq.
  destruct (mkdir_run h d root (comps root) w) as (d0 & w0 & -> & Hw0 & Hc0 & Hk0); [done|by intros ->|done| |done|done|].
  { unfold Abs. rewrite Habs. by apply FsAccess.Clean_render. }
  assert (∀ p, src_text h d0 p = src_text h d p) as Htext by (intros p; by apply (mkdir_text d d0 (comps root))).
  assert (Forall (saveable h root d0) reports) as Hs0.
  { eapply Forall_impl; [exact Hs|]. intros r (Hj & Hr & Hrest). split; [done|]. split; [|done].
    eapply Forall_impl; [exact Hr|]. intros s [Hp Ho]. split; [|done]. intros p. rewrite Htext. apply Hp. }
  rewrite bind_eq. destruct (save_runs h root Habs d0 reports Hc0 [] d0 w0) as (d' & w' & -> & Hsaved & Hk); [done..| |done|].
  { intros r _ cs Hcs. rewrite Hk0; [apply Hbelow; [done|]; pose proof (slug_of_proper r); proper_names|].
    intros n E%render_inj; [|by apply (at_proper root Habs); pose proof (slug_of_proper r); proper_names|by apply Forall_take].
    apply (f_equal length) in E. unfold base in E. rewrite length_take, length_app in E. cbn in E. lia. }
  assert (∀ p, outside h root p → src_text h d' p = src_text h d0 p) as Hout.
  { intros p Hp. unfold src_text, lookup_node. case_decide; [done|]. rewrite Hk; [done|]. intros r cs _ _. apply Hp. }
  exists d', w'. split_and!; [done|intros p Hp; by rewrite Hout|].
  intros src' tags' lane' Hc'. unfold CheckBaselineWithScope. rewrite Hc'. f_equal.
  by rewrite (check_saved h root Habs d0 d' reports).
Qed.
End roundtrip.

#[local] Existing Instance caseless_tables.
Definition smoke_step : StepReport := with_paths (demo_step "plan step" StepTypeRunTask 0) ["/runs/r1/plan.md"] ["/runs/r1/gone.json"].
Definition smoke_run : RunReport :=
  mkRunReport "Smoke (v1)" "" "smoke" [] "" "/runs/r1" "/runs/r1/runtime" 0 Second true [smoke_step]
    [mkAssertionResult "task_state" "plan step" true "done" "task task-17 reached done"] "".
Definition runs_disk : Disk := {["/" := Directory; "/runs" := Directory; "/runs/r1" := Directory;
  "/runs/r1/report.json" := Stored (ReportDoc smoke_run); "/runs/r1/plan.md" := Bytes "# Task Plan"]}.
Lemma outside_runs p : IsAbs p = true → HasPrefix (Abs (env plain_host) p) "/r" = true → outside plain_host "/base" p.
Proof.
  intros _ H sl cs E. rewrite E in H. unfold at_, base in H. change (comps "/base") with ["base"] in H. by destruct cs.
Qed.
Lemma baseline_roundtrip_witness : ∃ d' w',
  SaveBaselineWithScope plain_host (λ l, l) "/runs" "/base" [] "" runs_disk world0 = (Ok (inr ["/base/smoke-v1/report.json"]), d', w') ∧
  (CollectRunReportsWithScope plain_host (λ l, l) d' "/runs" [] "" = inr [smoke_run] →
   CheckBaselineWithScope plain_host (λ l, l) d' "/runs" "/base" [] "" = inr (mkBaselineCheck 1 true ["Smoke (v1): matches baseline"])).
Proof.
  destruct (baseline_roundtrip plain_host (λ l, l) "/base" "/runs" [] "" runs_disk world0 [smoke_run]) as (d' & w' & Hrun & _ & Hcheck).
  - done.
  - split; [reflexivity| |by vm_compute|].
    + intros n. change (comps "/base") with ["base"]. destruct n as [|[|n]]; vm_compute; reflexivity.
    + intros cs Hne _. unfold at_, base. change (comps "/base") with ["base"]. destruct cs as [|c cs]; [done|]. unfold runs_disk.
      rewrite !lookup_insert_ne by (by destruct cs). by destruct cs.
  - vm_compute. reflexivity.
  - vm_compute. apply NoDup_singleton.
  - constructor; [|done]. split; [reflexivity|]. split; [|split].
    + constructor; [|done]. split; [|apply NoDup_singleton]. intros p ->%list_elem_of_singleton. split; [by eexists|]. by apply outside_runs.
    + vm_compute. apply NoDup_singleton.
    + intros name ->%list_elem_of_singleton. vm_compute. reflexivity.
  - exists d', w'. split; [exact Hrun|]. apply Hcheck.
Defined.
