(* ===== verification/HarnessFixtures.v ===== *)
(** * What a scenario runs against ([harness/fixtures.go], [harness/model_stub.go])

    The connectors that answer from fixture files, and the text model that
    answers from the prompt alone.  The theorems: a stub route is one the
    conversation accepts, and a streamed text is the text. *)
From S2P Require Import Prelude GoStrings GoNum GoText GoJson.
From S2P Require FsAccess ChatRoute ChatService SkillText SkillMemory SkillRunner Harness.
Import SkillText(Response, mkResponse).
Open Scope Z_scope.

(** ** Fixtures *)

Section fixtures.
(** An answer from a fixture: the query filled in, the results cut. *)
Definition fixture_answer {A} (resp : Response A) (n : nat) (query : string) (limit : Z) : string + Response A :=
  let results := SkillText.Results resp in
  inr (mkResponse (if blank (SkillText.Query resp) then query else SkillText.Query resp) (SkillText.Provider resp)
         (if (0 <? limit) && (limit <? Z.of_nat (length results)) then take (Z.to_nat limit) results else results)).

(** [parse_*]: what encoding/json decodes from the text of a fixture. *)
Record Parsers := mkParsers {
  parse_search : string → string + SkillText.SearchResponse;
  parse_github : string → string + SkillText.GitHubIssueResponse;
  parse_email : string → string + SkillText.EmailResponse }.
Variables (h : Harness.Host) (p : Parsers) (d : Harness.Disk).

Definition readFixtureJSON {A} (parse : string → string + A) (path : string) : string + A :=
  match Harness.ReadFile h d path with inl e => inl e | inr raw => parse raw end.
(** A connector, or none where no file is named. *)
Definition load_connector {A} (parse : string → string + Response A) (scenario : Harness.Scenario) (file : string)
    : string + option (nat → string → Z → string + Response A) :=
  if blank file then inr None else
  match readFixtureJSON parse (FsAccess.Join2 (Harness.sc_Dir scenario) file) with
  | inl e => inl e
  | inr resp => inr (Some (fixture_answer resp))
  end.
Definition loadSearchConnector (sc : Harness.Scenario) := load_connector (parse_search p) sc (Harness.SearchResponseFile (Harness.sc_Fixtures sc)).
Definition loadGitHubConnector (sc : Harness.Scenario) := load_connector (parse_github p) sc (Harness.GitHubResponseFile (Harness.sc_Fixtures sc)).
Definition loadEmailConnector (sc : Harness.Scenario) := load_connector (parse_email p) sc (Harness.EmailResponseFile (Harness.sc_Fixtures sc)).
Definition loadFixtureConnectors (sc : Harness.Scenario) : string + SkillRunner.Connectors :=
  match loadSearchConnector sc with
  | inl e => inl e
  | inr search =>
      match loadGitHubConnector sc with
      | inl e => inl e
      | inr github =>
          match loadEmailConnector sc with
          | inl e => inl e
          | inr email => inr (SkillRunner.mkConnectors search github email)
          end
      end
  end.
End fixtures.

(** ** The stub model *)

Section stub.
Context {tables : UnicodeTables}.

Definition extractPromptBlock (prompt label : string) : string :=
  match Cut prompt label with Some (_, rest) => TrimSpace rest | None => "" end.
Fixpoint fallbackSection (prompt : string) (labels : list string) : string :=
  match labels with
  | [] => ""
  | label :: labels =>
      let value := extractPromptBlock prompt label in
      if blank value then fallbackSection prompt labels else TrimSpace value
  end.
Definition containsAnyText (text : string) (values : list string) : bool := existsb (λ v, Contains text (ToLower v)) values.
Definition looksLikeSocialReplyText (text : string) : bool :=
  bool_decide (TrimSpace (ToLower text) ∈
    ["hi"; "hello"; "hey"; "你好"; "您好"; "嗨"; "哈喽"; "早上好"; "晚上好"; "谢谢"; "thank you"; "thanks"]).

(** The route the stub answers with, and its text. *)
Definition stub_decision (act kind skill reason : string) (confidence : float64) : ChatRoute.RouteDecision :=
  ChatRoute.mkRoute act kind skill reason confidence "" "" false [].
Definition stub_route (prompt : string) : ChatRoute.RouteDecision :=
  let userMessage := ToLower (extractPromptBlock prompt "User message:") in
  if containsAnyText userMessage ["继续"; "展开"; "详细"; "继续展开"]
     && (Contains (ToLower prompt) "pending_action=summarize_focus_task" || Contains (ToLower prompt) "pending_question=")
  then stub_decision "confirm" "direct_reply" "" "follow-up to pending question" (lit 97 100)
  else if containsAnyText userMessage ["邮件"; "邮箱"; "inbox"; "email"; "mail"]
  then stub_decision "new_task" "task_request" "email-inbox" "email request" (lit 94 100)
  else if containsAnyText userMessage ["搜索"; "search"; "web"]
  then stub_decision "new_task" "task_request" "web-search" "search request" (lit 96 100)
  else if Contains userMessage "github" && containsAnyText userMessage ["issue"; "问题"]
  then stub_decision "new_task" "task_request" "github-issue-search" "github issue request" (lit 94 100)
  else if looksLikeSocialReplyText userMessage
  then stub_decision "chat" "direct_reply" "" "social greeting" (lit 95 100)
  else stub_decision "new_task" "task_request" "task-plan" "generic task request" (lit 75 100).
Definition stubRoutingResponse (prompt : string) : string :=
  let d := stub_route prompt in
  print (JObj [("confidence", JNum (ChatRoute.Confidence d)); ("dialogue_act", JStr (ChatRoute.rd_DialogueAct d));
    ("intent_kind", JStr (ChatRoute.IntentKind d)); ("reason", JStr (ChatRoute.Reason d)); ("skill", JStr (ChatRoute.rd_Skill d))]).

Definition stubConversationResponse (prompt : string) : string :=
  if Contains prompt "Artifact excerpts:" && Contains prompt "prod.example.internal"
  then "重点邮件提到 deployment window，并要求在 rollout 后验证 prod.example.internal。"
  else if Contains prompt "Artifact excerpts:" && Contains prompt "OpenClaw"
  then "OpenClaw 的 memory 设计核心是文件化记忆、混合检索和按需展开完整内容。"
  else
    let answer := extractPromptBlock prompt "Fallback answer:" in
    if negb (blank answer) then TrimSpace answer else
    let reply := extractPromptBlock prompt "Fallback reply:" in
    if negb (blank reply) then TrimSpace reply else "我在这里，可以继续当前会话。".
Definition stubSkillsResponse (prompt : string) : string :=
  if Contains prompt "Selected skill: web-search"
  then "搜索已完成。我已经整理了 OpenClaw memory 设计的要点，包括文件化记忆、BM25 与向量混合检索，以及时间衰减。需要我继续展开这些结果吗？"
  else if Contains prompt "Selected skill: github-issue-search" then "GitHub issue 搜索已完成，相关问题和状态已经整理好。需要我继续归纳重点吗？"
  else if Contains prompt "Selected skill: email-inbox" then "收件箱扫描已完成，邮件线程已经整理完毕。需要我继续总结要点吗？"
  else if Contains prompt "Task state: awaiting_approval" then "任务正在等待审批。批准后重新运行即可继续。"
  else if Contains prompt "Selected skill: task-plan" then "计划已生成，下一步可以检查 artifact 或继续执行计划。"
  else
    let fallback := extractPromptBlock prompt "Deterministic fallback summary:" in
    if negb (blank fallback) then TrimSpace fallback else "任务已完成。".
Definition stubResponse (profile prompt : string) : string :=
  if decide (profile = "routing") then stubRoutingResponse prompt
  else if decide (profile = "conversation") then stubConversationResponse prompt
  else if decide (profile = "skills") then stubSkillsResponse prompt
  else fallbackSection prompt ["Fallback reply:"; "Fallback answer:"; "Deterministic fallback summary:"].

(** Slices of [size] runes; the length of the text counts bytes. *)
Fixpoint rune_chunks (fuel : nat) (size : nat) (rs : list Z) : list string :=
  match fuel, rs with
  | S fuel, _ :: _ => of_runes (take size rs) :: rune_chunks fuel size (drop size rs)
  | _, _ => []
  end.
Definition chunkText (text : string) (size : Z) : list string :=
  if (size <=? 0) || (Z.of_nat (len text) <=? size) then [text]
  else rune_chunks (length (runes text)) (Z.to_nat size) (runes text).

(** The two faces of the stub: for the runner and for the conversation. *)
Definition stub_gateway : SkillMemory.TextGateway := λ _ req,
  (SkillMemory.mkTextResponse (stubResponse (SkillMemory.Profile req) (SkillMemory.UserPrompt req)) "harness" "stub", None).
Definition stub_text (req : ChatService.TextReq) : string := stubResponse (ChatService.tq_Profile req) (ChatService.UserPrompt req).
Definition stub_model : ChatService.TextModel :=
  ChatService.mkTextModel (λ _ prompt, Ok (stub_route prompt)) (λ _ req, (chunkText (stub_text req) 32, inr (stub_text req)))
    (λ _ req, inr (stub_text req)).

(** ** What the stub answers *)

(** The parts of a stream, one after the other. *)
Definition parts (l : list string) : string := foldr String.append "" l.
Lemma rune_chunks_parts size rs fuel : (0 < size)%nat → (length rs ≤ fuel)%nat →
  parts (rune_chunks fuel size rs) = of_runes rs.
Proof.
  intros Hs. revert rs. induction fuel as [|fuel IH]; intros rs Hl.
  - destruct rs; [done|]. cbn in Hl. lia.
  - destruct rs as [|r rs]; [done|]. cbn [rune_chunks parts foldr]. fold (parts (rune_chunks fuel size (drop size (r :: rs)))).
    rewrite IH by (rewrite length_drop; cbn [length] in *; lia). by rewrite <- of_runes_app, take_drop.
Qed.

(** The stub is a model the program accepts.  Whatever the prompt, its route is
    valid and is the one the conversation takes from it, with the session as its
    scope and a low risk; and the parts it streams are the text, once the text
    is valid UTF-8. *)
Theorem stub_is_faithful :
  (∀ prompt, ChatRoute.valid_route (stub_route prompt)) ∧
  (∀ message ctx st, ∃ prompt, ChatRoute.modelRouteDecision (ChatService.RouteAnswer stub_model 0) message ctx st
     = Ok (let d := stub_route prompt in ChatRoute.mkRoute (ChatRoute.rd_DialogueAct d) (ChatRoute.IntentKind d) (ChatRoute.rd_Skill d)
             (ChatRoute.Reason d) (ChatRoute.Confidence d) "session" "low" false [])) ∧
  (∀ req, valid_utf8 (stub_text req) = stub_text req → parts (ChatService.StreamText stub_model 0 req).1 = stub_text req).
Proof.
  assert (∀ prompt, ∃ act kind skill reason c, stub_route prompt = stub_decision act kind skill reason c ∧
    ChatRoute.one_of act ChatRoute.validDialogueActs && ChatRoute.one_of kind [ChatRoute.IntentKindDirect; ChatRoute.IntentKindTask]
      && (bool_decide (skill = "") || ChatRoute.one_of skill ChatRoute.validSkills) = true) as Hr.
  { intros prompt. unfold stub_route. cbv zeta.
    repeat match goal with |- context [if ?b then _ else _] => destruct b end; eexists _, _, _, _, _; (split; [reflexivity|vm_compute; reflexivity]). }
  split_and!.
  - intros prompt. destruct (Hr prompt) as (act & kind & skill & reason & cf & -> & [[H1 H2]%andb_true_iff H3]%andb_true_iff).
    split_and!; cbn; [by apply ChatRoute.in_list_bool..| |constructor].
    apply orb_true_iff in H3 as [H3|H3]; [left; by apply bool_decide_eq_true in H3|right; by apply ChatRoute.in_list_bool].
  - intros message ctx st. unfold ChatRoute.modelRouteDecision. cbn [ChatService.RouteAnswer stub_model].
    match goal with |- context [stub_route ?p] => exists p; destruct (Hr p) as (act & kind & skill & reason & cf & -> & H) end.
    cbn. cbn in H. by rewrite H.
  - intros req Hv. cbn [ChatService.StreamText stub_model fst]. unfold chunkText. destruct (_ || _); [cbn; apply string_app_nil_r|].
    rewrite rune_chunks_parts by lia. exact Hv.
Qed.
End stub.
