(* ===== verification/HarnessSteps.v ===== *)
(** * The steps of a scenario ([harness/runner.go])

    A scenario runs against services of its own: one definition per step type
    of [executeStep], with what the step reports.  A step that fails keeps what
    it had done and reported. *)
From S2P Require Import Prelude GoStrings GoNum GoText GoJson Harness.
From S2P Require FsAccess MemoryTypes MemoryStore Consolidator Procedural Runtime Approval Execution ChatStore ChatText ChatService.
From S2P Require SkillText SkillMemory Skills MemScheduler SkillRunner Assistant HarnessFixtures.
From S2P Require Recall.
Import Assistant(State, Machine, Aside, exec_state, registry, on_approvals, list_actions, count_keys).
Import MemoryTypes(Card, CardID, Version, CardType).
Import Procedural(ProcedureEvidence, mkEvidence).
Open Scope Z_scope.

(** ** Reports of a step *)

Definition with_task (id state skill : string) (p : StepReport) : StepReport :=
  mkStepReport (sr_ID p) (sr_Type p) (sr_SessionID p) id state skill (sr_ActionID p) (ActionStatus p) (ActionFailureCategory p)
    (ActionReplayed p) (sr_ReplayOfActionID p) (ActionAttempts p) (RetryAttempts p) (RetrySucceeded p) (sr_CardType p)
    (SchedulerTriggered p) (SchedulerSkipReason p) (SchedulerCandidateCount p) (Metrics p) (sr_ApprovalID p) (UserContent
    p) (AssistantContent p) (sr_ArtifactPaths p) (sr_ObservationPaths p) (PromotedCount p) (SupersededCount p)
    (ArchivedCount p) (MemoryFeedbackUpdates p) (ProcedureFeedbackUpdates p) (sr_Progress p) (sr_StartedAt p)
    (sr_FinishedAt p) (sr_Error p).
Definition with_approval (id : string) (p : StepReport) : StepReport :=
  mkStepReport (sr_ID p) (sr_Type p) (sr_SessionID p) (sr_TaskID p) (sr_TaskState p) (sr_SelectedSkill p) (sr_ActionID p)
    (ActionStatus p) (ActionFailureCategory p) (ActionReplayed p) (sr_ReplayOfActionID p) (ActionAttempts p)
    (RetryAttempts p) (RetrySucceeded p) (sr_CardType p) (SchedulerTriggered p) (SchedulerSkipReason p)
    (SchedulerCandidateCount p) (Metrics p) id (UserContent p) (AssistantContent p) (sr_ArtifactPaths p)
    (sr_ObservationPaths p) (PromotedCount p) (SupersededCount p) (ArchivedCount p) (MemoryFeedbackUpdates p)
    (ProcedureFeedbackUpdates p) (sr_Progress p) (sr_StartedAt p) (sr_FinishedAt p) (sr_Error p).
Definition with_ids (approval task : string) (p : StepReport) : StepReport :=
  mkStepReport (sr_ID p) (sr_Type p) (sr_SessionID p) task (sr_TaskState p) (sr_SelectedSkill p) (sr_ActionID p) (ActionStatus p)
    (ActionFailureCategory p) (ActionReplayed p) (sr_ReplayOfActionID p) (ActionAttempts p) (RetryAttempts p)
    (RetrySucceeded p) (sr_CardType p) (SchedulerTriggered p) (SchedulerSkipReason p) (SchedulerCandidateCount p) (Metrics
    p) approval (UserContent p) (AssistantContent p) (sr_ArtifactPaths p) (sr_ObservationPaths p) (PromotedCount p)
    (SupersededCount p) (ArchivedCount p) (MemoryFeedbackUpdates p) (ProcedureFeedbackUpdates p) (sr_Progress p)
    (sr_StartedAt p) (sr_FinishedAt p) (sr_Error p).
Definition with_task_state (state skill : string) (p : StepReport) : StepReport :=
  mkStepReport (sr_ID p) (sr_Type p) (sr_SessionID p) (sr_TaskID p) state skill (sr_ActionID p) (ActionStatus p)
    (ActionFailureCategory p) (ActionReplayed p) (sr_ReplayOfActionID p) (ActionAttempts p) (RetryAttempts p)
    (RetrySucceeded p) (sr_CardType p) (SchedulerTriggered p) (SchedulerSkipReason p) (SchedulerCandidateCount p) (Metrics
    p) (sr_ApprovalID p) (UserContent p) (AssistantContent p) (sr_ArtifactPaths p) (sr_ObservationPaths p) (PromotedCount
    p) (SupersededCount p) (ArchivedCount p) (MemoryFeedbackUpdates p) (ProcedureFeedbackUpdates p) (sr_Progress p)
    (sr_StartedAt p) (sr_FinishedAt p) (sr_Error p).
Definition with_outputs (artifacts observations : list string) (p : StepReport) : StepReport :=
  mkStepReport (sr_ID p) (sr_Type p) (sr_SessionID p) (sr_TaskID p) (sr_TaskState p) (sr_SelectedSkill p) (sr_ActionID p)
    (ActionStatus p) (ActionFailureCategory p) (ActionReplayed p) (sr_ReplayOfActionID p) (ActionAttempts p)
    (RetryAttempts p) (RetrySucceeded p) (sr_CardType p) (SchedulerTriggered p) (SchedulerSkipReason p)
    (SchedulerCandidateCount p) (Metrics p) (sr_ApprovalID p) (UserContent p) (AssistantContent p) (sr_ArtifactPaths p ++
    artifacts) (sr_ObservationPaths p ++ observations) (PromotedCount p) (SupersededCount p) (ArchivedCount p)
    (MemoryFeedbackUpdates p) (ProcedureFeedbackUpdates p) (sr_Progress p) (sr_StartedAt p) (sr_FinishedAt p) (sr_Error p).
Definition with_action (id status category : string) (replayed : bool) (replayOf : string) (attempts retries : Z) (retried : bool) (p : StepReport) : StepReport :=
  mkStepReport (sr_ID p) (sr_Type p) (sr_SessionID p) (sr_TaskID p) (sr_TaskState p) (sr_SelectedSkill p) id status category replayed
    replayOf attempts retries retried (sr_CardType p) (SchedulerTriggered p) (SchedulerSkipReason p)
    (SchedulerCandidateCount p) (Metrics p) (sr_ApprovalID p) (UserContent p) (AssistantContent p) (sr_ArtifactPaths p)
    (sr_ObservationPaths p) (PromotedCount p) (SupersededCount p) (ArchivedCount p) (MemoryFeedbackUpdates p)
    (ProcedureFeedbackUpdates p) (sr_Progress p) (sr_StartedAt p) (sr_FinishedAt p) (sr_Error p).
Definition with_decision (triggered : bool) (reason : string) (count : Z) (p : StepReport) : StepReport :=
  mkStepReport (sr_ID p) (sr_Type p) (sr_SessionID p) (sr_TaskID p) (sr_TaskState p) (sr_SelectedSkill p) (sr_ActionID p)
    (ActionStatus p) (ActionFailureCategory p) (ActionReplayed p) (sr_ReplayOfActionID p) (ActionAttempts p)
    (RetryAttempts p) (RetrySucceeded p) (sr_CardType p) triggered reason count (Metrics p) (sr_ApprovalID p) (UserContent
    p) (AssistantContent p) (sr_ArtifactPaths p) (sr_ObservationPaths p) (PromotedCount p) (SupersededCount p)
    (ArchivedCount p) (MemoryFeedbackUpdates p) (ProcedureFeedbackUpdates p) (sr_Progress p) (sr_StartedAt p)
    (sr_FinishedAt p) (sr_Error p).
Definition with_metrics (m : MetricsSnapshot) (p : StepReport) : StepReport :=
  mkStepReport (sr_ID p) (sr_Type p) (sr_SessionID p) (sr_TaskID p) (sr_TaskState p) (sr_SelectedSkill p) (sr_ActionID p)
    (ActionStatus p) (ActionFailureCategory p) (ActionReplayed p) (sr_ReplayOfActionID p) (ActionAttempts p)
    (RetryAttempts p) (RetrySucceeded p) (sr_CardType p) (SchedulerTriggered p) (SchedulerSkipReason p)
    (SchedulerCandidateCount p) m (sr_ApprovalID p) (UserContent p) (AssistantContent p) (sr_ArtifactPaths p)
    (sr_ObservationPaths p) (PromotedCount p) (SupersededCount p) (ArchivedCount p) (MemoryFeedbackUpdates p)
    (ProcedureFeedbackUpdates p) (sr_Progress p) (sr_StartedAt p) (sr_FinishedAt p) (sr_Error p).
Definition with_chat (session user assistant : string) (p : StepReport) : StepReport :=
  mkStepReport (sr_ID p) (sr_Type p) session (sr_TaskID p) (sr_TaskState p) (sr_SelectedSkill p) (sr_ActionID p) (ActionStatus p)
    (ActionFailureCategory p) (ActionReplayed p) (sr_ReplayOfActionID p) (ActionAttempts p) (RetryAttempts p)
    (RetrySucceeded p) (sr_CardType p) (SchedulerTriggered p) (SchedulerSkipReason p) (SchedulerCandidateCount p) (Metrics
    p) (sr_ApprovalID p) user assistant (sr_ArtifactPaths p) (sr_ObservationPaths p) (PromotedCount p) (SupersededCount p)
    (ArchivedCount p) (MemoryFeedbackUpdates p) (ProcedureFeedbackUpdates p) (sr_Progress p) (sr_StartedAt p)
    (sr_FinishedAt p) (sr_Error p).
Definition with_feedback (updates procedures : Z) (p : StepReport) : StepReport :=
  mkStepReport (sr_ID p) (sr_Type p) (sr_SessionID p) (sr_TaskID p) (sr_TaskState p) (sr_SelectedSkill p) (sr_ActionID p)
    (ActionStatus p) (ActionFailureCategory p) (ActionReplayed p) (sr_ReplayOfActionID p) (ActionAttempts p)
    (RetryAttempts p) (RetrySucceeded p) (sr_CardType p) (SchedulerTriggered p) (SchedulerSkipReason p)
    (SchedulerCandidateCount p) (Metrics p) (sr_ApprovalID p) (UserContent p) (AssistantContent p) (sr_ArtifactPaths p)
    (sr_ObservationPaths p) (PromotedCount p) (SupersededCount p) (ArchivedCount p) updates procedures (sr_Progress p)
    (sr_StartedAt p) (sr_FinishedAt p) (sr_Error p).
Definition with_promotion (cardType : string) (promoted superseded archived : Z) (p : StepReport) : StepReport :=
  mkStepReport (sr_ID p) (sr_Type p) (sr_SessionID p) (sr_TaskID p) (sr_TaskState p) (sr_SelectedSkill p) (sr_ActionID p)
    (ActionStatus p) (ActionFailureCategory p) (ActionReplayed p) (sr_ReplayOfActionID p) (ActionAttempts p)
    (RetryAttempts p) (RetrySucceeded p) cardType (SchedulerTriggered p) (SchedulerSkipReason p) (SchedulerCandidateCount
    p) (Metrics p) (sr_ApprovalID p) (UserContent p) (AssistantContent p) (sr_ArtifactPaths p) (sr_ObservationPaths p)
    promoted superseded archived (MemoryFeedbackUpdates p) (ProcedureFeedbackUpdates p) (sr_Progress p) (sr_StartedAt p)
    (sr_FinishedAt p) (sr_Error p).
Definition with_progress (stage message : string) (p : StepReport) : StepReport :=
  mkStepReport (sr_ID p) (sr_Type p) (sr_SessionID p) (sr_TaskID p) (sr_TaskState p) (sr_SelectedSkill p) (sr_ActionID p)
    (ActionStatus p) (ActionFailureCategory p) (ActionReplayed p) (sr_ReplayOfActionID p) (ActionAttempts p)
    (RetryAttempts p) (RetrySucceeded p) (sr_CardType p) (SchedulerTriggered p) (SchedulerSkipReason p)
    (SchedulerCandidateCount p) (Metrics p) (sr_ApprovalID p) (UserContent p) (AssistantContent p) (sr_ArtifactPaths p)
    (sr_ObservationPaths p) (PromotedCount p) (SupersededCount p) (ArchivedCount p) (MemoryFeedbackUpdates p)
    (ProcedureFeedbackUpdates p) (sr_Progress p ++ [mkStepProgress stage message]) (sr_StartedAt p) (sr_FinishedAt p)
    (sr_Error p).
Definition with_end (t : Time) (err : string) (p : StepReport) : StepReport :=
  mkStepReport (sr_ID p) (sr_Type p) (sr_SessionID p) (sr_TaskID p) (sr_TaskState p) (sr_SelectedSkill p) (sr_ActionID p)
    (ActionStatus p) (ActionFailureCategory p) (ActionReplayed p) (sr_ReplayOfActionID p) (ActionAttempts p)
    (RetryAttempts p) (RetrySucceeded p) (sr_CardType p) (SchedulerTriggered p) (SchedulerSkipReason p)
    (SchedulerCandidateCount p) (Metrics p) (sr_ApprovalID p) (UserContent p) (AssistantContent p) (sr_ArtifactPaths p)
    (sr_ObservationPaths p) (PromotedCount p) (SupersededCount p) (ArchivedCount p) (MemoryFeedbackUpdates p)
    (ProcedureFeedbackUpdates p) (sr_Progress p) (sr_StartedAt p) t err.

(** ** Small helpers *)

Section helpers.
Context {tables : UnicodeTables}.

Definition parseBool (raw : string) : bool :=
  bool_decide (ToLower (TrimSpace raw) ∈ ["1"; "true"; "yes"; "y"; "on"]).
Definition parseInt (raw : string) (fallback : Z) : Z :=
  let raw := TrimSpace raw in
  if decide (raw = "") then fallback else
  match Atoi raw with Some parsed => if parsed <=? 0 then fallback else parsed | None => fallback end.
Definition parseCSVList (raw : string) : list string :=
  let raw := TrimSpace raw in
  if decide (raw = "") then [] else filter (λ part, part ≠ "") (TrimSpace <$> SplitByte "," raw).
(** Without duplicates and blanks, in the order of first occurrences. *)
Definition dedupe_next (acc : gset string * list string) (value : string) : gset string * list string :=
  let value := TrimSpace value in
  if decide (value = "") then acc else if decide (value ∈ acc.1) then acc else ({[value]} ∪ acc.1, acc.2 ++ [value]).
Definition dedupeStrings (values : list string) : list string := (foldl dedupe_next (∅, []) values).2.
Definition cloneMap (input : gmap string string) : option (gmap string string) := if decide (input = ∅) then None else Some input.
(** [step.Metadata[key]], [task.Metadata[key]] *)
Definition at_key (md : gmap string string) (key : string) : string := default "" (md !! key).
Definition task_metadata (t : Runtime.Task) : gmap string string := default ∅ (Runtime.Metadata t).
Definition collectTaskArtifacts (task : Runtime.Task) : list string :=
  let entries := filter (λ kv, HasSuffix kv.1 "_artifact" && negb (blank kv.2)) (map_to_list (task_metadata task)) in
  dedupeStrings (ChatText.sort_strings entries.*2).

(** ** The evidence of procedures *)

Definition harnessMetadataKeysBySuffix (metadata : gmap string string) (suffix : string) : list string :=
  ChatText.sort_strings (filter (λ kv, HasSuffix kv.1 suffix && negb (blank kv.2)) (map_to_list metadata)).*1.
Definition harnessFirstMetadataValue (metadata : gmap string string) (suffix : string) : string :=
  match harnessMetadataKeysBySuffix metadata suffix with [] => "" | key :: _ => TrimSpace (at_key metadata key) end.
Definition harnessStringValue (value : option json) : string := match value with Some (JStr s) => s | _ => "" end.
(** The first line with the prefix. *)
Definition harnessMarkdownInlinePrefix (text prefix : string) : string :=
  match List.find (λ line, HasPrefix line prefix) (TrimSpace <$> SplitByte (byte 10) text) with
  | Some line => TrimSpace (TrimPrefix line prefix)
  | None => ""
  end.
Fixpoint section_lines (header : string) (inSection : bool) (collected : list string) (lines : list string) : list string :=
  match lines with
  | [] => collected
  | line :: rest =>
      let trimmed := TrimSpace line in
      if decide (trimmed = header) then section_lines header true collected rest
      else if negb inSection then section_lines header inSection collected rest
      else if decide (trimmed = "") then
        match collected with [] => section_lines header inSection collected rest | _ => collected end
      else if HasPrefix trimmed "## " then collected
      else if HasPrefix trimmed "- "
      then section_lines header inSection (collected ++ [TrimSpace (TrimPrefix trimmed "- ")]) rest
      else section_lines header inSection collected rest
  end.
Definition harnessMarkdownSectionBullets (text header : string) : string :=
  Join (section_lines header false [] (SplitByte (byte 10) text)) newline.

Section evidence.
Variable readFile : string → option string.
Definition harnessReadProcedureObservation (path : string) : ProcedureEvidence :=
  if blank path then SkillText.no_evidence else
  match readFile path ≫= decode_object with
  | None => SkillText.no_evidence
  | Some payload =>
      let value key := TrimSpace (harnessStringValue (obj_get key (default [] payload))) in
      mkEvidence (value "procedure_steps") (value "procedure_guardrails") (value "procedure_summary")
        (value "procedure_success_signal") (value "artifact_path") path
  end.
Definition harnessReadProcedureArtifact (path : string) : ProcedureEvidence :=
  if blank path then SkillText.no_evidence else
  match readFile path with
  | None => SkillText.no_evidence
  | Some text =>
      let steps := harnessMarkdownSectionBullets text "Steps:" in
      if blank steps then SkillText.no_evidence else
      mkEvidence steps (harnessMarkdownSectionBullets text "Guardrails:") (harnessMarkdownInlinePrefix text "Summary:")
        (harnessMarkdownInlinePrefix text "Success signal:") path ""
  end.
(** The first evidence with steps among the files the metadata names. *)
Definition first_with_steps (read : string → ProcedureEvidence) (metadata : gmap string string) (suffix : string) : option ProcedureEvidence :=
  List.find (λ e, negb (blank (Procedural.Steps e)))
    ((λ key, read (TrimSpace (at_key metadata key))) <$> harnessMetadataKeysBySuffix metadata suffix).
Definition harnessProcedureEvidenceForTask (task : Runtime.Task) : ProcedureEvidence :=
  let metadata := task_metadata task in
  match first_with_steps harnessReadProcedureObservation metadata "_observation" with
  | Some evidence => evidence
  | None =>
      match first_with_steps harnessReadProcedureArtifact metadata "_artifact" with
      | Some evidence => evidence
      | None =>
          mkEvidence (TrimSpace (at_key metadata "procedure_steps")) (TrimSpace (at_key metadata "procedure_guardrails"))
            (TrimSpace (at_key metadata "procedure_summary")) (TrimSpace (at_key metadata "procedure_success_signal"))
            (harnessFirstMetadataValue metadata "_artifact") (harnessFirstMetadataValue metadata "_observation")
      end
  end.
End evidence.
End helpers.

(** ** The environment of a run *)

(** The services act on one state; [connectors] is what they were built with. *)
Record Env := mkEnv {
  state : State; connectors : SkillRunner.Connectors; lastTaskID : string; lastApprovalID : string;
  stepResults : gmap string StepReport }.
Definition set_state (s : State) (e : Env) : Env := mkEnv s (connectors e) (lastTaskID e) (lastApprovalID e) (stepResults e).
Definition in_state {A} (m : M State A) : M Env A := λ e w, match m (state e) w with (r, s, w') => (r, set_state s e, w') end.
Definition remember_task (id : string) : M Env unit :=
  modify (λ e, mkEnv (state e) (connectors e) id (lastApprovalID e) (stepResults e)).
Definition remember_approval (id : string) : M Env unit :=
  modify (λ e, mkEnv (state e) (connectors e) (lastTaskID e) id (stepResults e)).
Definition remember_step (p : StepReport) : M Env unit :=
  modify (λ e, mkEnv (state e) (connectors e) (lastTaskID e) (lastApprovalID e) (<[sr_ID p := p]> (stepResults e))).
Definition stepReport (e : Env) (id : string) : option StepReport := stepResults e !! id.
Definition resolveTaskRef (e : Env) (ref : string) : string + string :=
  let ref := TrimSpace ref in
  if decide (ref ∈ [""; "last"]) then if blank (lastTaskID e) then inl "no last task is available" else inr (lastTaskID e) else
  match stepReport e ref with
  | Some report => if blank (sr_TaskID report) then inr ref else inr (sr_TaskID report)
  | None => inr ref
  end.
(** The runner's system with a log of its progress beside it. *)
Definition on_logged {A} (m : M (SkillRunner.System (list SkillRunner.ProgressEvent)) A)
    : M State (result A * list SkillRunner.ProgressEvent) := λ s w,
  let x := Assistant.to_runner s in
  match m (SkillRunner.mkSystem (SkillRunner.stores x) (SkillRunner.machine x) (SkillRunner.skills x) []) w with
  | (r, y, w') => (Ok (r, SkillRunner.listener y),
      Assistant.of_runner (SkillRunner.mkSystem (SkillRunner.stores y) (SkillRunner.machine y) (SkillRunner.skills y) (SkillRunner.listener x)), w')
  end.

(** ** The services of a run *)

(** What a run takes from its host: the surroundings of an assembled program,
    of which it uses the operating system, the orders of maps and the texts of
    errors; the parsers of fixtures and numbers; the depth of the stack; the
    text of a file that is not an artifact, and what [os.Stat] says of one. *)
Inductive FileStatus := Present | Missing | Unreadable (message : string).
Record Rig := mkRig {
  sur : Assistant.Surroundings; parsers : HarnessFixtures.Parsers; host : Host;
  ParseFloat : string → string + float64; stack : nat;
  other_text : State → string → option string; other_status : State → string → FileStatus }.

#[local] Existing Instances Approval.newest_dec Execution.newest_dec.

Section steps.
Context {tables : UnicodeTables} {url : SkillText.UrlPackage} {digits : Recall.FloatFormat}.
(** The rig, the scenario, its root and the disk its fixtures are on. *)
Variables (rig : Rig) (scenario : Scenario) (runtimeRoot : string) (d : Disk).
Abbreviation template := (Assistant.a_runner (sur rig)).
Abbreviation talk := (Assistant.a_service (sur rig)).
Abbreviation environ := (Assistant.environment (sur rig)).

Definition error_text : error → string := SkillRunner.error_text template.
Definition harness_runner (c : SkillRunner.Connectors) : SkillRunner.Runner Aside :=
  SkillRunner.mkRunner (SkillRunner.os template) environ (FsAccess.Abs environ (FsAccess.Join2 runtimeRoot "workspace")) "" true true
    runtimeRoot (Some c) (Some HarnessFixtures.stub_gateway) Assistant.runner_schedule (SkillRunner.stat template) (SkillRunner.external template)
    (SkillRunner.error_text template) (SkillRunner.json_error template) (SkillRunner.card_ords template) (SkillRunner.group_ord template)
    (SkillRunner.notify template).
Definition harness_service (c : SkillRunner.Connectors) : ChatService.Service (T := Machine) :=
  ChatService.mkService (Some HarnessFixtures.stub_model) None true true (ChatText.mkSystemInfo "" "" "" "") (ChatService.readFile talk)
    (Assistant.run_for_chat (harness_runner c)) (ChatService.error_text talk) (ChatService.json_error talk)
    (ChatService.card_ords talk) (ChatService.field_ords talk) (ChatService.feedback_ord talk).
Definition load_registry {S} (files : gmap string (File Skills.Manifest)) (st : gmap unit (File (gmap string bool))) : M S Skills.System := λ e w,
  match Skills.NewRunner (Assistant.manifest_quote (sur rig)) (Assistant.manifest_error (sur rig)) (FsAccess.Join2 runtimeRoot "skills")
          (Assistant.override_ord (sur rig)) files st tt w with (res, _, w') => (res, e, w') end.
(** Services built again from the files of the runtime root: the memory, which
    has none, starts empty. *)
Definition fresh_state (s : State) (sk : Skills.System) : State :=
  Assistant.assembled_state (Assistant.durable s) MemoryStore.NewStore (ChatService.runtime (ChatService.backend s)) (10 * Minute) sk.
Definition rebuildServices : M Env (option string) :=
  match HarnessFixtures.loadFixtureConnectors (host rig) (parsers rig) d scenario with
  | inl err => mret (Some err)
  | inr c =>
      e ← get;
      let reg := registry (ChatService.machine (ChatService.backend (state e))) in
      sk ← load_registry (Skills.skill_files reg) (Skills.skill_state reg);
      _ ← modify (λ e, mkEnv (fresh_state (state e) sk) c (lastTaskID e) (lastApprovalID e) (stepResults e));
      mret None
  end.

(** ** One step *)

(** An operation whose error is a text for the step. *)
Definition attempt {A} (m : M State A) : M Env (string + A) :=
  res ← in_state (ChatService.catch m);
  mret (match res with Ok a => inr a | Err e => inl (error_text e) end).
(** A step ends with its report and maybe an error. *)
Abbreviation Outcome := (StepReport * option string)%type.
Definition finished (p : StepReport) : M Env Outcome := mret (p, None).
Definition failed (p : StepReport) (err : string) : M Env Outcome := mret (p, Some err).
(** The pair of a result and an error of its own. *)
Definition settle_error {A} (res : A * option error) : M State A := match res.2 with Some e => throw e | None => mret res.1 end.

Abbreviation meta step := (at_key (st_Metadata step)).
Definition note_approval (task : Runtime.Task) (p : StepReport) : M Env StepReport :=
  let approvalID := TrimSpace (at_key (task_metadata task) "root_approval_id") in
  if decide (approvalID = "") then mret p else
  _ ← remember_approval approvalID; mret (with_approval approvalID p).
Definition report_task (task : Runtime.Task) (p : StepReport) : StepReport :=
  with_task (Runtime.TaskID task) (Runtime.State task) (Runtime.SelectedSkill task) p.

Definition submit_request (step : Step) : Runtime.CreateTaskRequest :=
  Runtime.mkCreateTaskRequest (firstNonEmpty [st_Title step; st_Goal step]) (st_Goal step) (firstNonEmpty [st_RequestedBy step; "harness"])
    (firstNonEmpty [st_Source step; "harness"]) (firstNonEmpty [st_ExecutionProfile step; "user"]) (st_RequiresApproval step)
    (st_SelectedSkill step) (cloneMap (st_Metadata step)).
Definition submit_task (step : Step) (p : StepReport) : M Env Outcome :=
  res ← attempt (ChatService.with_runtime (Runtime.SubmitTask (submit_request step)));
  match res with
  | inl err => failed p err
  | inr task =>
      _ ← remember_task (Runtime.TaskID task);
      p ← note_approval task (report_task task p);
      finished p
  end.

Definition report_action (a : Execution.ActionRecord) (p : StepReport) : StepReport :=
  let attempts := Z.of_nat (length (Execution.AttemptHistory a)) in
  let attempts := if (attempts =? 0) && (0 <? Execution.Attempt a) then Execution.Attempt a else attempts in
  let retries := if 1 <? attempts then attempts - 1 else RetryAttempts p in
  with_action (Execution.ActionID a) (Execution.Status a) (Execution.FailureCategory a) (Execution.Replayed a) (Execution.ReplayOfActionID a)
    attempts retries (bool_decide (Execution.Status a = Execution.ActionStatusCompleted) && (0 <? retries)) p.
Definition report_result (result : SkillRunner.RunResult) (p : StepReport) : StepReport :=
  let p := with_outputs (SkillRunner.ArtifactPaths result) (SkillRunner.ObservationPaths result) (report_task (SkillRunner.rr_Task result) p) in
  match SkillRunner.rr_Action result with Some a => report_action a p | None => p end.
Definition log_progress (events : list SkillRunner.ProgressEvent) (p : StepReport) : StepReport :=
  foldl (λ p ev, with_progress (SkillRunner.Stage ev) (SkillRunner.Message ev) p) p events.
Definition run_task (step : Step) (p : StepReport) : M Env Outcome :=
  e ← get;
  match resolveTaskRef e (TaskRef step) with
  | inl err => failed p err
  | inr taskID =>
      '(res, events) ← in_state (on_logged
        (SkillRunner.RunTaskWithProgress (SkillRunner.retarget (harness_runner (connectors e)) SkillRunner.log_events) taskID true));
      let p := log_progress events p in
      match res with
      | Err EPanic => throw EPanic
      | Err err => failed p (error_text err)
      | Ok result =>
          _ ← remember_task (Runtime.TaskID (SkillRunner.rr_Task result));
          p ← note_approval (SkillRunner.rr_Task result) (report_result result p);
          finished p
      end
  end.

Definition pickApproval (ref : string) : M Env (string + Approval.Request) :=
  e ← get;
  let ref := TrimSpace ref in
  if decide (ref = "" ∨ ref = "pending") then
    res ← attempt (on_approvals (Approval.List Approval.StatusPending));
    mret (match res with
      | inl err => inl err
      | inr records =>
          match merge_sort Approval.newest records with r :: _ => inr r | [] => inl "no pending approvals available" end
      end)
  else if decide (ref = "last") then
    if blank (lastApprovalID e) then mret (inl "no last approval is available") else
    attempt (on_approvals (Approval.Get (lastApprovalID e)))
  else match stepReport e ref with
  | Some report => attempt (on_approvals (Approval.Get (if blank (sr_ApprovalID report) then ref else sr_ApprovalID report)))
  | None => attempt (on_approvals (Approval.Get ref))
  end.
Definition granted (approvalID : string) (t : Runtime.Task) : Runtime.Task :=
  Runtime.with_fields t (Runtime.SelectedSkill t) "root approval granted; rerun task" "" (Runtime.RequiresApproval t)
    (Some (<["root_approval_id" := approvalID]> (task_metadata t))).
Definition approve_pending (step : Step) (p : StepReport) : M Env Outcome :=
  picked ← pickApproval (ApprovalRef step);
  match picked with
  | inl err => failed p err
  | inr record =>
      res ← attempt (on_approvals (Approval.Approve (Approval.ApprovalID record) (firstNonEmpty [st_ApprovedBy step; "harness"])));
      match res with
      | inl err => failed p err
      | inr record =>
          let p := with_ids (Approval.ApprovalID record) (Approval.TaskID record) p in
          _ ← remember_approval (Approval.ApprovalID record);
          if decide (Approval.TaskID record = "") then finished p else
          moved ← attempt (ChatService.with_runtime (Runtime.MoveTask (Approval.TaskID record) Runtime.TaskStatePlanned
                    (λ t, mret (granted (Approval.ApprovalID record) t))));
          match moved with
          | inl err => failed p err
          | inr updated =>
              _ ← remember_task (Runtime.TaskID updated);
              finished (with_task_state (Runtime.State updated) (Runtime.SelectedSkill updated) p)
          end
      end
  end.

Definition requeue_task (step : Step) (p : StepReport) : M Env Outcome :=
  e ← get;
  match resolveTaskRef e (TaskRef step) with
  | inl err => failed p err
  | inr taskID =>
      res ← attempt (ChatService.with_runtime (Runtime.RequeueTask taskID (firstNonEmpty [meta step "trigger"; "harness_requeue"]) (λ t, mret t)));
      match res with
      | inl err => failed p err
      | inr task => _ ← remember_task (Runtime.TaskID task); finished (report_task task p)
      end
  end.

Definition schedule_config (step : Step) : MemScheduler.Config :=
  MemScheduler.New (MemScheduler.mkConfig (firstNonEmpty [TrimSpace (meta step "scope"); MemoryTypes.ScopeProject])
    (wrap64 (parseInt (meta step "cooldown_ms") 0 * Millisecond)) (parseInt (meta step "min_candidates") 1)
    (parseCSVList (meta step "allowed_card_types")) (parseBool (meta step "extract_procedures")) (parseInt (meta step "min_runs") 2)).
(** The order in which the [n]-th loop visits the cards. *)
Definition visit (n : nat) (s : State) : list string := SkillRunner.card_ords template n (ChatService.memory (ChatService.backend s)).
Definition evaluate_schedule (step : Step) : M State MemScheduler.Decision :=
  s ← get;
  res ← Assistant.on_runner (SkillRunner.with_stores (MemScheduler.EvaluateAndSchedule (schedule_config step) true
          (visit 0 s) (visit 1 s) (visit 2 s) (firstNonEmpty [TrimSpace (meta step "reason"); "harness"])));
  settle_error res.
Definition schedule_memory (step : Step) (p : StepReport) : M Env Outcome :=
  res ← attempt (evaluate_schedule step);
  match res with
  | inl err => failed p err
  | inr decision =>
      _ ← (if decide (MemScheduler.d_TaskID decision = "") then mret tt else remember_task (MemScheduler.d_TaskID decision));
      finished (with_task (MemScheduler.d_TaskID decision) (MemScheduler.TaskState decision) (MemScheduler.d_SelectedSkill decision)
        (with_decision (MemScheduler.Triggered decision) (MemScheduler.SkipReason decision) (MemScheduler.CandidateCount decision) p))
  end.

(** *** Metrics *)

Definition all_cards (s : State) : list Card :=
  MemoryTypes.Cards (MemoryStore.Query (visit 0 s) (MemoryTypes.mkQueryRequest "" "" "" "" None) (ChatService.memory (ChatService.backend s))).
Definition runtimeMetricsSnapshot : M State MetricsSnapshot :=
  tasks ← ChatService.with_runtime Runtime.ListTasks;
  actions ← list_actions 1000;
  s ← get;
  let cards := all_cards s in
  mret (mkMetrics (Z.of_nat (length tasks)) (count_keys (Runtime.State <$> tasks))
    (Z.of_nat (length actions)) (count_keys (Execution.Status <$> actions))
    (count_keys (filter (λ c, blank c = false) (Execution.FailureCategory <$> actions)))
    (Z.of_nat (length cards)) (count_keys (MemoryTypes.Status <$> cards))
    (Z.of_nat (length (filter (λ def, Skills.Enabled def = true) (Skills.ListSkills (registry (ChatService.machine (ChatService.backend s)))))))).
Definition fetch_metrics (p : StepReport) : M Env Outcome :=
  res ← attempt runtimeMetricsSnapshot;
  match res with inl err => failed p err | inr snapshot => finished (with_metrics snapshot p) end.

(** *** A turn of the conversation *)

Definition latestCardsByID (n : nat) (s : State) : gmap string Card :=
  foldl (λ m c, <[CardID c := c]> m) ∅ (MemoryStore.LatestCards (visit n s) (ChatService.memory (ChatService.backend s))).
Definition newer (before : gmap string Card) (kv : string * Card) : bool :=
  match before !! kv.1 with Some prev => Version prev <? Version kv.2 | None => false end.
Definition feedbackUpdateCounts (before after : gmap string Card) : Z * Z :=
  let updated := (filter (λ kv, newer before kv = true) (map_to_list after)).*2 in
  (Z.of_nat (length updated), Z.of_nat (length (filter (λ c, CardType c = "procedure") updated))).
Definition chat_request (step : Step) : ChatText.SendRequest :=
  let source := if decide (st_Source step = "") then if ConfirmFirst step then "harness" else "intent-confirmation" else st_Source step in
  ChatText.mkSendRequest (firstNonEmpty [st_SessionID step; "default"]) (st_Message step) (firstNonEmpty [st_RequestedBy step; "harness"])
    source (firstNonEmpty [st_ExecutionProfile step; "user"]) false.
Definition note_task (p : StepReport) : M Env StepReport :=
  if decide (sr_TaskID p = "") then mret p else
  _ ← remember_task (sr_TaskID p);
  res ← attempt (ChatService.with_runtime (Runtime.GetTask (sr_TaskID p)));
  match res with
  | inl _ => mret p
  | inr task => note_approval task (with_outputs (collectTaskArtifacts task) []
                  (with_task_state (Runtime.State task) (Runtime.SelectedSkill task) p))
  end.
Definition send_chat (step : Step) (p : StepReport) : M Env Outcome :=
  e ← get;
  let before := latestCardsByID 0 (state e) in
  res ← attempt (ChatService.Send (harness_service (connectors e)) (stack rig) (chat_request step));
  match res with
  | inl err => failed p err
  | inr resp =>
      let reply := ChatText.AssistantMessage resp in
      let p := with_chat (firstNonEmpty [st_SessionID step; "default"]) (ChatStore.Content (ChatText.UserMessage resp)) (ChatStore.Content reply) p in
      p ← note_task (with_task (ChatStore.msg_TaskID reply) (ChatStore.TaskState reply) (ChatStore.SelectedSkill reply) p);
      e ← get;
      let '(updates, procedures) := feedbackUpdateCounts before (latestCardsByID 1 (state e)) in
      finished (with_feedback updates procedures p)
  end.

Definition restart_runtime (p : StepReport) : M Env Outcome :=
  let p := with_progress "runtime.restart" "Rebuilding harness runtime services from the existing runtime root..." p in
  res ← rebuildServices;
  match res with Some err => failed p err | None => finished p end.

(** *** Memory *)

(** What a file of the run holds. *)
Definition file_text (s : State) (path : string) : option string :=
  match Execution.workspace (exec_state (ChatService.machine (ChatService.backend s))) !! path with
  | Some text => Some text
  | None => other_text rig s path
  end.
Definition create_missing (req : MemoryTypes.CreateCardRequest) : M State unit :=
  res ← try (ChatService.with_memory (MemoryStore.CreateCard req));
  match res with Ok _ | Err ErrAlreadyExists => mret tt | Err e => throw e end.
Definition extraction_request (md : gmap string string) (tasks : list Runtime.Task) (s : State) : Procedural.ProcedureExtractionRequest :=
  Procedural.mkExtractionRequest tasks (TrimSpace (at_key md "task_class")) (TrimSpace (at_key md "selected_skill"))
    (firstNonEmpty [TrimSpace (at_key md "scope"); MemoryTypes.ScopeProject]) (parseInt (at_key md "min_runs") 2)
    (Some (harnessProcedureEvidenceForTask (file_text s))).
Definition extractProcedureCandidates (md : gmap string string) : M State unit :=
  tasks ← ChatService.with_runtime Runtime.ListTasks;
  s ← get;
  let req := extraction_request md tasks s in
  forM create_missing (Procedural.BuildProcedureCandidates (SkillRunner.group_ord template (Procedural.signature_groups req)) req).1.
Definition consolidate_request (step : Step) : Consolidator.ConsolidateRequest :=
  let raw := TrimSpace (meta step "limit") in
  Consolidator.mkConsolidateRequest (TrimSpace (meta step "card_type")) (TrimSpace (meta step "scope"))
    (if decide (raw = "") then 0 else default 0 (Sscanf_d raw)) (parseBool (meta step "archive_remaining")).
Definition promote (req : Consolidator.ConsolidateRequest) : M State Consolidator.ConsolidateResult :=
  s ← get;
  res ← ChatService.with_memory (Consolidator.PromoteCandidates (visit 0 s) req);
  settle_error res.
Definition consolidate_memory (step : Step) (p : StepReport) : M Env Outcome :=
  let req := consolidate_request step in
  let extract := parseBool (meta step "extract_procedures") in
  let p := if extract then with_progress "memory.extract_procedures" "Extracting procedural candidates from successful task runs..." p else p in
  extracted ← (if extract then attempt (extractProcedureCandidates (st_Metadata step)) else mret (inr tt));
  match extracted with
  | inl err => failed p err
  | inr _ =>
      let p := with_progress "memory.consolidate" ("Promoting candidate memory card_type="
        +:+ firstNonEmpty [Consolidator.cr_CardType req; "all"] +:+ " scope=" +:+ firstNonEmpty [Consolidator.cr_Scope req; "all"]) p in
      res ← attempt (promote req);
      match res with
      | inl err => failed p err
      | inr r => finished (with_outputs []
          ["examined=" +:+ Itoa (Consolidator.cs_Examined r) +:+ " promoted=" +:+ Itoa (Consolidator.Promoted r)]
          (with_promotion (Consolidator.cr_CardType req) (Consolidator.Promoted r) (Consolidator.Superseded r) (Consolidator.cs_Archived r) p))
      end
  end.

(** The content of a seeded card: the keys after [content.]. *)
Definition seeded_content (md : gmap string string) : gmap string MemoryTypes.Any :=
  list_to_map (omap (λ kv, if HasPrefix kv.1 "content." then Some (TrimPrefix kv.1 "content.", MemoryTypes.AStr kv.2) else None) (map_to_list md)).
(** A number of the metadata: none, or its value, or the error. *)
Definition parse_number_at (md : gmap string string) (key : string) : string + option float64 :=
  let raw := TrimSpace (at_key md key) in
  if decide (raw = "") then inr None else
  match ParseFloat rig raw with
  | inl err => inl ("invalid " +:+ key +:+ " " +:+ Quote (host rig) raw +:+ ": " +:+ err)
  | inr value => inr (Some value)
  end.
Definition seeded_activation (md : gmap string string) (score : option float64) : option MemoryTypes.ActivationState :=
  let policy := TrimSpace (at_key md "activation_decay_policy") in
  match score with
  | Some value => Some (MemoryTypes.mkActivation value None None policy)
  | None => if decide (policy = "") then None else Some (MemoryTypes.mkActivation f1 None None policy)
  end.
Definition seedCardRequestFromMetadata (md : gmap string string) : string + MemoryTypes.CreateCardRequest :=
  let cardID := TrimSpace (at_key md "card_id") in
  let cardType := TrimSpace (at_key md "card_type") in
  if decide (cardID = "" ∨ cardType = "") then inl "seed_memory_card requires metadata.card_id and metadata.card_type" else
  match parse_number_at md "activation_score" with
  | inl err => inl err
  | inr score =>
      match parse_number_at md "confidence" with
      | inl err => inl err
      | inr confidence => inr (MemoryTypes.mkCreateCardRequest cardID cardType (TrimSpace (at_key md "scope")) (TrimSpace (at_key md "status"))
          (TrimSpace (at_key md "supersedes")) None None (seeded_activation md score) (Some (seeded_content md)) None
          (MemoryTypes.mkProvenance "harness" (firstNonEmpty [TrimSpace (at_key md "source"); "harness"]) (default f0 confidence)))
      end
  end.
Definition seed_memory_card (step : Step) (p : StepReport) : M Env Outcome :=
  match seedCardRequestFromMetadata (st_Metadata step) with
  | inl err => failed p err
  | inr req =>
      res ← attempt (ChatService.with_memory (MemoryStore.CreateCard req));
      match res with
      | inl err => failed p err
      | inr card => finished (with_progress "memory.seed"
          ("Seeded " +:+ CardType card +:+ " " +:+ CardID card +:+ " status=" +:+ MemoryTypes.Status card) p)
      end
  end.

(** *** Dispatch *)

Definition step_handlers : list (string * (Step → StepReport → M Env Outcome)) := [
  (StepTypeSubmitTask, submit_task); (StepTypeRunTask, run_task); (StepTypeApprovePending, approve_pending);
  (StepTypeRequeueTask, requeue_task); (StepTypeScheduleMemory, schedule_memory); (StepTypeFetchMetrics, λ _, fetch_metrics);
  (StepTypeSendChat, send_chat); (StepTypeRestartRuntime, λ _, restart_runtime); (StepTypeConsolidate, consolidate_memory);
  (StepTypeSeedMemoryCard, seed_memory_card)].
Definition executeStep (step : Step) (p : StepReport) : M Env Outcome :=
  match List.find (λ handler, bool_decide (handler.1 = st_Type step)) step_handlers with
  | Some (_, handler) => handler step p
  | None => failed p ("unsupported step type " +:+ Quote (host rig) (st_Type step))
  end.

(** Step after step, up to the first error. *)
Definition blank_report (step : Step) (t : Time) : StepReport :=
  mkStepReport (st_ID step) (st_Type step) (firstNonEmpty [st_SessionID step; "default"]) "" "" "" "" "" "" false "" 0 0 false "" false "" 0
    (mkMetrics 0 ∅ 0 ∅ ∅ 0 ∅ 0) "" "" "" [] [] 0 0 0 0 0 [] t zeroTime "".
Definition run_step (step : Step) : M Env Outcome :=
  started ← now;
  '(p, err) ← executeStep step (blank_report step started);
  ended ← now;
  let p := with_end ended (default "" err) p in
  _ ← remember_step p;
  mret (p, err).
Fixpoint run_steps (steps : list Step) : M Env (list StepReport * option string) :=
  match steps with
  | [] => mret ([], None)
  | step :: rest =>
      '(p, err) ← run_step step;
      match err with
      | Some err => mret ([p], Some err)
      | None => '(reports, err) ← run_steps rest; mret (p :: reports, err)
      end
  end.
End steps.
