(* ===== verification/HarnessFacts.v ===== *)
(** * What steps and assertions leave alone

    Reading operations change neither the state nor the environment; and an
    invariant of the back end that the services keep is kept by every step of a
    scenario. *)
From S2P Require Import Prelude GoStrings GoNum GoText StatusDirs Reading Harness HarnessSteps.
From S2P Require MemoryStore Consolidator Governance Runtime Approval Execution Recall ChatStore ChatText ChatService.
From S2P Require SkillText Skills MemScheduler SkillRunner Assistant HarnessFixtures.
Import Assistant(State, Machine, Aside, on_approvals).
Open Scope Z_scope.

(** ** Reading *)

Lemma reads_in_state {A} (m : M State A) : reads m → reads (in_state m).
Proof. intros Hm e w. unfold in_state. destruct (Hm (state e) w) as [r ->]. exists r. by destruct e. Qed.
Section attempts.
Context {tables : UnicodeTables} {url : SkillText.UrlPackage} {digits : Recall.FloatFormat}.
Variable rig : Rig.
Lemma reads_attempt {A} (m : M State A) : reads m → reads (attempt rig m).
Proof. intros Hm. apply reads_bind; [by apply reads_in_state, reads_catch|]. intros []; apply reads_ret. Qed.
End attempts.
#[export] Hint Resolve reads_attempt : reads.

(** ** What a step reports *)

Ltac yields_step :=
  match goal with
  | |- yields _ (mret _) => apply yields_ret
  | |- yields _ (finished _) => apply yields_ret
  | |- yields _ (failed _ _) => apply yields_ret
  | |- yields _ (throw _) => apply yields_throw
  | |- yields _ (match ?x with _ => _ end) => destruct x
  | |- yields _ (let _ := _ in _) => cbv zeta
  | |- yields _ (_ ≫= _) => apply yields_then; intros ?
  end.

(** The report is still that of the same step. *)
Definition same_step (p p' : StepReport) : Prop :=
  sr_ID p' = sr_ID p ∧ sr_Type p' = sr_Type p ∧ sr_StartedAt p' = sr_StartedAt p.
#[export] Instance same_step_trans : Transitive same_step.
Proof. intros p q r (H1 & H2 & H3) (H4 & H5 & H6). split_and!; congruence. Qed.

Section reports.
Context {tables : UnicodeTables} {url : SkillText.UrlPackage} {digits : Recall.FloatFormat}.
Variables (rig : Rig) (scenario : Scenario) (runtimeRoot : string) (d : Disk).

Lemma note_approval_same task p : yields (same_step p) (note_approval task p).
Proof. unfold note_approval. repeat yields_step; done. Qed.
Lemma log_progress_same events p : same_step p (log_progress events p).
Proof.
  revert p. induction events as [|ev events IH]; intros p; [done|]. cbn [log_progress foldl].
  transitivity (with_progress (SkillRunner.Stage ev) (SkillRunner.Message ev) p); [done|apply IH].
Qed.
Lemma report_result_same r p : same_step p (report_result r p).
Proof. unfold report_result. by destruct (SkillRunner.rr_Action r). Qed.
Lemma note_task_same p : yields (same_step p) (note_task rig p).
Proof.
  unfold note_task. repeat yields_step; try done. eapply yields_mono; [|apply note_approval_same]. done.
Qed.
Definition outcome_of (p : StepReport) (o : StepReport * option string) : Prop := same_step p o.1.
Lemma approval_outcome p0 task p : same_step p0 p → yields (outcome_of p0) (p ← note_approval task p; finished p).
Proof. intros H. eapply yields_bind; [apply note_approval_same|]. intros p' Hp. apply yields_ret. unfold outcome_of. cbn. by transitivity p. Qed.
Lemma run_task_same step p : yields (outcome_of p) (run_task rig runtimeRoot step p).
Proof.
  unfold run_task. do 2 yields_step; [by yields_step|]. apply yields_then. intros [[r|e] events]; cbv beta iota zeta.
  - apply yields_then; intros _. apply approval_outcome. transitivity (log_progress events p); [apply log_progress_same|apply report_result_same].
  - destruct e; [..|apply yields_ret; apply log_progress_same]; try (apply yields_ret; apply log_progress_same). apply yields_throw.
Qed.
Lemma send_chat_same step p : yields (outcome_of p) (send_chat rig runtimeRoot step p).
Proof.
  unfold send_chat. do 3 yields_step; [by yields_step|]. cbv zeta. eapply yields_bind; [apply note_task_same|]. intros p' Hp.
  apply yields_then; intros e'. destruct (feedbackUpdateCounts _ _) as [u pr]. apply yields_ret. unfold outcome_of. exact Hp.
Qed.
(** Every step reports on itself. *)
Lemma executeStep_same step p : yields (outcome_of p) (executeStep rig scenario runtimeRoot d step p).
Proof.
  unfold executeStep. destruct (List.find _ _) as [[type handler]|] eqn:E; [|by apply yields_ret].
  apply List.find_some in E as [Hin _]. unfold step_handlers in Hin. cbn [List.In] in Hin.
  destruct Hin as [[= _ <-]|[[= _ <-]|[[= _ <-]|[[= _ <-]|[[= _ <-]|[[= _ <-]|[[= _ <-]|[[= _ <-]|[[= _ <-]|[[= _ <-]|[]]]]]]]]]]].
  - unfold submit_task. apply yields_then. intros [err|task]; [by yields_step|]. apply yields_then; intros _. by apply approval_outcome.
  - apply run_task_same.
  - unfold approve_pending. repeat yields_step; done.
  - unfold requeue_task. repeat yields_step; done.
  - unfold schedule_memory. repeat yields_step; done.
  - unfold fetch_metrics. repeat yields_step; done.
  - apply send_chat_same.
  - unfold restart_runtime. repeat yields_step; done.
  - unfold consolidate_memory. cbv zeta. apply yields_then; intros [err|u]; destruct (parseBool _); repeat yields_step; done.
  - unfold seed_memory_card. repeat yields_step; done.
Qed.
End reports.

(** ** What a step keeps *)

Section frames.
Context {tables : UnicodeTables} {url : SkillText.UrlPackage} {digits : Recall.FloatFormat}.
Variables (rig : Rig) (scenario : Scenario) (runtimeRoot : string) (d : Disk).
Variable J : ChatService.Backend Machine → Prop.
Abbreviation hold := (ChatService.holds J).
Definition kept (e : Env) : Prop := hold (state e).
(** The services keep it; an approval need not. *)
Record services_keep : Prop := mkServicesKeep {
  keep_runtime : ∀ A (m : M Runtime.Store A), preserves hold (ChatService.with_runtime m);
  keep_memory : ∀ A (m : M MemoryStore.Store A), preserves MemoryStore.store_wf m → preserves hold (ChatService.with_memory m);
  keep_schedule : ∀ config o1 o2 o3 reason, preserves hold
    (Assistant.on_runner (SkillRunner.with_stores (MemScheduler.EvaluateAndSchedule config true o1 o2 o3 reason)));
  keep_logged : ∀ c id, preserves hold
    (on_logged (SkillRunner.RunTaskWithProgress (SkillRunner.retarget (harness_runner rig runtimeRoot c) SkillRunner.log_events) id true));
  keep_chat_run : ∀ c id cb, (∀ ev, preserves hold (cb ev)) → preserves hold (Assistant.run_for_chat (harness_runner rig runtimeRoot c) id cb);
  keep_restart : ∀ s sk, hold s → hold (fresh_state s sk) }.
Hypothesis services : services_keep.

Lemma kept_in_state {A} (m : M State A) : preserves hold m → preserves kept (in_state m).
Proof. intros Hm e w He. unfold in_state. specialize (Hm (state e) w He). by destruct (m (state e) w) as [[? ?] ?]. Qed.
Lemma kept_catch {A} (m : M State A) : preserves hold m → preserves hold (ChatService.catch m).
Proof. intros Hm. unfold ChatService.catch. apply preserves_bind; [by apply preserves_try|]. intros [|[]]; apply preserves_ret || apply preserves_throw. Qed.
Lemma kept_attempt {A} (m : M State A) : preserves hold m → preserves kept (attempt rig m).
Proof. intros Hm. apply preserves_bind; [by apply kept_in_state, kept_catch|]. intros []; apply preserves_ret. Qed.
Lemma kept_runtime {A} (m : M Runtime.Store A) : preserves kept (attempt rig (ChatService.with_runtime m)).
Proof. apply kept_attempt, keep_runtime, services. Qed.
Lemma kept_remember_task id : preserves kept (remember_task id).
Proof. by apply preserves_modify. Qed.
Lemma kept_remember_approval id : preserves kept (remember_approval id).
Proof. by apply preserves_modify. Qed.
Lemma kept_finished p : preserves kept (finished p).
Proof. apply preserves_ret. Qed.
Lemma kept_failed p err : preserves kept (failed p err).
Proof. apply preserves_ret. Qed.
#[local] Hint Resolve kept_runtime kept_remember_task kept_remember_approval kept_finished kept_failed : hoare.
Lemma kept_note_approval task p : preserves kept (note_approval task p).
Proof. unfold note_approval. preserves_tac. Qed.
#[local] Hint Resolve kept_note_approval : hoare.
Lemma kept_note_task p : preserves kept (note_task rig p).
Proof. unfold note_task. preserves_tac. Qed.
#[local] Hint Resolve kept_note_task : hoare.

Lemma kept_run_task step p : preserves kept (run_task rig runtimeRoot step p).
Proof.
  unfold run_task. apply preserves_bind; [apply preserves_get|intros e]. destruct (resolveTaskRef _ _) as [|id]; [apply kept_failed|].
  apply preserves_bind; [apply kept_in_state, keep_logged, services|]. intros [[r|err] events]; preserves_tac.
Qed.
Lemma kept_send c depth req : preserves hold (ChatService.Send (harness_service rig runtimeRoot c) depth req).
Proof.
  apply ChatService.Send_keeps; try done.
  - intros A m Hm. by apply keep_memory.
  - intros. apply keep_runtime, services.
  - intros id cb Hcb. cbn [harness_service ChatService.RunTaskWithProgress]. by apply keep_chat_run.
Qed.
Lemma kept_send_chat step p : preserves kept (send_chat rig runtimeRoot step p).
Proof.
  unfold send_chat. apply preserves_bind; [apply preserves_get|intros e]. apply preserves_bind; [apply kept_attempt, kept_send|].
  intros [err|resp]; preserves_tac.
Qed.
Lemma kept_load files st : preserves kept (load_registry rig runtimeRoot files st).
Proof. intros e w He. unfold load_registry. by destruct (Skills.NewRunner _ _ _ _ _ _ _ _) as [[? ?] ?]. Qed.
Lemma kept_restart p : preserves kept (restart_runtime rig scenario runtimeRoot d p).
Proof.
  unfold restart_runtime, rebuildServices. cbv zeta.
  destruct (HarnessFixtures.loadFixtureConnectors _ _ _ _) as [|c]; [apply preserves_bind; [apply preserves_ret|intros []; preserves_tac]|].
  apply preserves_bind; [|intros []; preserves_tac]. apply preserves_bind; [apply preserves_get|intros e].
  apply preserves_bind; [apply kept_load|]. intros sk. apply preserves_bind; [|intros; apply preserves_ret].
  apply preserves_modify. intros e' He. exact (keep_restart services _ _ He).
Qed.
Lemma kept_settle_error {A} (res : A * option error) : preserves hold (settle_error res).
Proof. unfold settle_error. destruct res.2; [apply preserves_throw|apply preserves_ret]. Qed.
#[local] Hint Resolve kept_settle_error : hoare.
Lemma kept_schedule step p : preserves kept (schedule_memory rig step p).
Proof.
  unfold schedule_memory. apply preserves_bind; [|intros []; preserves_tac]. apply kept_attempt. unfold evaluate_schedule.
  apply preserves_bind; [apply preserves_get|intros s]. apply preserves_bind; [apply keep_schedule, services|]. intros; apply kept_settle_error.
Qed.
Lemma kept_metrics p : preserves kept (fetch_metrics rig p).
Proof.
  unfold fetch_metrics. apply preserves_bind; [|intros []; preserves_tac]. apply kept_attempt, reads_preserves.
  unfold runtimeMetricsSnapshot. apply reads_bind; [apply reads_runtime, reads_ListTasks|intros tasks].
  apply reads_bind; [apply reads_actions|intros actions]. apply reads_bind; [apply reads_get|intros s]. apply reads_ret.
Qed.
Lemma kept_create req : preserves hold (ChatService.with_memory (MemoryStore.CreateCard req)).
Proof. apply keep_memory; [done|]. apply MemoryStore.CreateCard_preserves. Qed.
Lemma kept_extract md : preserves hold (extractProcedureCandidates rig md).
Proof.
  unfold extractProcedureCandidates. apply preserves_bind; [apply keep_runtime, services|intros tasks]. apply preserves_bind; [apply preserves_get|intros s].
  apply preserves_forM. intros req. unfold create_missing. apply preserves_bind; [apply preserves_try, kept_create|].
  intros [|[]]; apply preserves_ret || apply preserves_throw.
Qed.
Lemma kept_promote req : preserves hold (promote rig req).
Proof.
  unfold promote. apply preserves_bind; [apply preserves_get|intros s]. apply preserves_bind; [|intros; apply kept_settle_error].
  apply keep_memory; [done|]. apply Consolidator.PromoteCandidates_preserves.
Qed.
Lemma kept_consolidate step p : preserves kept (consolidate_memory rig step p).
Proof.
  unfold consolidate_memory. cbv zeta.
  apply preserves_bind; [destruct (parseBool _); [apply kept_attempt, kept_extract|apply preserves_ret]|].
  intros [|]; [apply kept_failed|]. apply preserves_bind; [apply kept_attempt, kept_promote|]. intros []; preserves_tac.
Qed.
Lemma kept_seed step p : preserves kept (seed_memory_card rig step p).
Proof.
  unfold seed_memory_card. destruct (seedCardRequestFromMetadata _ _); [apply kept_failed|].
  apply preserves_bind; [apply kept_attempt, kept_create|]. intros []; preserves_tac.
Qed.
Lemma kept_pick ref : preserves kept (pickApproval rig ref).
Proof.
  apply reads_preserves. unfold pickApproval. apply reads_bind; [apply reads_get|intros e]. cbv zeta.
  repeat case_decide; [| |reads_tac]; reads_tac.
Qed.
Lemma kept_approve step p : (∀ id by_, preserves hold (on_approvals (Approval.Approve id by_))) → preserves kept (approve_pending rig step p).
Proof.
  intros Ha. unfold approve_pending. apply preserves_bind; [apply kept_pick|]. intros [err|record]; [apply kept_failed|].
  apply preserves_bind; [by apply kept_attempt|]. intros [|]; preserves_tac.
Qed.

(** A step that approves nothing, or whose approvals keep it. *)
Definition approvals_kept (step : Step) : Prop :=
  st_Type step ≠ StepTypeApprovePending ∨ ∀ id by_, preserves hold (on_approvals (Approval.Approve id by_)).
Lemma executeStep_keeps step p : approvals_kept step → preserves kept (executeStep rig scenario runtimeRoot d step p).
Proof.
  intros Ha. unfold executeStep. destruct (List.find _ _) as [[type handler]|] eqn:E; [|apply kept_failed].
  apply List.find_some in E as [Hin Ht]. apply bool_decide_eq_true in Ht. cbn [fst] in Ht. unfold step_handlers in Hin. cbn [List.In] in Hin.
  destruct Hin as [[= <- <-]|[[= <- <-]|[[= <- <-]|[[= <- <-]|[[= <- <-]|[[= <- <-]|[[= <- <-]|[[= <- <-]|[[= <- <-]|[[= <- <-]|[]]]]]]]]]]].
  - unfold submit_task. preserves_tac.
  - apply kept_run_task.
  - apply kept_approve. destruct Ha as [Ha|Ha]; [by rewrite Ht in Ha|done].
  - unfold requeue_task. preserves_tac.
  - apply kept_schedule.
  - apply kept_metrics.
  - apply kept_send_chat.
  - apply kept_restart.
  - apply kept_consolidate.
  - apply kept_seed.
Qed.
Lemma run_step_keeps step : approvals_kept step → preserves kept (run_step rig scenario runtimeRoot d step).
Proof.
  intros Ha. unfold run_step. apply preserves_bind; [apply preserves_now|intros t].
  apply preserves_bind; [by apply executeStep_keeps|]. intros [p err]. apply preserves_bind; [apply preserves_now|intros t'].
  apply preserves_bind; [by apply preserves_modify|]. intros; apply preserves_ret.
Qed.
Lemma run_steps_keeps steps : Forall approvals_kept steps → preserves kept (run_steps rig scenario runtimeRoot d steps).
Proof.
  induction 1 as [|step steps Ha _ IH]; [apply preserves_ret|]. cbn [run_steps]. apply preserves_bind; [by apply run_step_keeps|].
  intros [p [err|]]; [apply preserves_ret|]. apply preserves_bind; [exact IH|]. intros []; apply preserves_ret.
Qed.
End frames.

(** ** A small bench *)

Definition bench_ord (n : nat) (s : MemoryStore.Store) : list string := elements (dom (MemoryStore.cards s)).
Definition bench_runner : SkillRunner.Runner Aside :=
  let r := Assistant.a_runner Assistant.demo_surroundings in
  SkillRunner.mkRunner (SkillRunner.os r) (SkillRunner.env r) "" "" true true "" None None (SkillRunner.schedulerCfg r) (SkillRunner.stat r)
    (SkillRunner.external r) (SkillRunner.error_text r) (SkillRunner.json_error r) bench_ord (SkillRunner.group_ord r) (SkillRunner.notify r).
Definition bench_surroundings : Assistant.Surroundings :=
  let x := Assistant.demo_surroundings in
  Assistant.mkSurroundings (Assistant.environment x) (Assistant.ParseDuration x) (Assistant.clients x) bench_runner (Assistant.a_service x)
    (Assistant.tool_host x) (Assistant.tool_model x) (Assistant.view x) (Assistant.put x) (Assistant.manifest_quote x)
    (Assistant.manifest_error x) (Assistant.override_ord x).
Definition bench_rig : Rig :=
  mkRig bench_surroundings (HarnessFixtures.mkParsers (λ _, inl "bad JSON") (λ _, inl "bad JSON") (λ _, inl "bad JSON")) plain_host
    (λ _, inr f1) 3 (λ _ _, None) (λ _ _, Missing).
Definition bench_env (memory : MemoryStore.Store) : Env :=
  let s := Assistant.demo_state in
  mkEnv (ChatService.mkSystem (ChatService.chat s)
    (ChatService.mkBackend (ChatService.runtime (ChatService.backend s)) memory (ChatService.machine (ChatService.backend s))) ∅ [])
    (SkillRunner.mkConnectors None None None) "" "" ∅.
