(* ===== verification/HarnessAssert.v ===== *)
(** * The assertions of a scenario ([harness/runner.go])

    After its steps a scenario asks questions of what they left: one definition
    per assertion type of [evaluateAssertion].  The theorems: judging changes
    nothing, one verdict is given for every assertion in order, and asking
    whether recall finds a text and whether it does not are complementary. *)
From S2P Require Import Prelude GoStrings GoNum GoText GoJson Reading Harness HarnessSteps HarnessFacts.
From S2P Require FsAccess MemoryTypes MemoryStore Runtime Approval ChatStore ChatText ChatService SkillText SkillRunner Assistant Recall.
Import Assistant(State, on_approvals).
Import MemoryTypes(Any, AStr, AFloat, AInt, ABool, ANull, AStrs, AList, AMap, Card, CardID, card_Content).
Open Scope Z_scope.

Definition AssertTaskState : string := "task_state".
Definition AssertSelectedSkill : string := "selected_skill".
Definition AssertApprovalCount : string := "approval_count".
Definition AssertArtifactCount : string := "artifact_count".
Definition AssertObservationCount : string := "observation_count".
Definition AssertArtifactContains : string := "artifact_contains".
Definition AssertAssistantContains : string := "assistant_contains".
Definition AssertFileContains : string := "file_contains".
Definition AssertSessionStateContain : string := "session_state_contains".
Definition AssertMemoryCardCount : string := "memory_card_count".
Definition AssertMemoryCardContains : string := "memory_card_contains".
Definition AssertEdgeCount : string := "edge_count".
Definition AssertRecallContains : string := "recall_contains".
Definition AssertFileAbsent : string := "file_absent".
Definition AssertWorkingTopicContains : string := "working_topic_contains".
Definition AssertWorkingFocusTaskEquals : string := "working_focus_task_equals".
Definition AssertWorkingPendingQuestionContains : string := "working_pending_question_contains".
Definition AssertWorkingPendingActionContains : string := "working_pending_action_contains".
Definition AssertDurableCardCount : string := "durable_card_count".
Definition AssertDurableCardContains : string := "durable_card_contains".
Definition AssertDurableCardStatus : string := "durable_card_status".
Definition AssertDurableCardConfidenceRange : string := "durable_card_confidence_range".
Definition AssertDurableCardScope : string := "durable_card_scope".
Definition AssertDurableCardSupersedes : string := "durable_card_supersedes".
Definition AssertDurableCardVersionEquals : string := "durable_card_version_equals".
Definition AssertDurableCardVersionAtLeast : string := "durable_card_version_at_least".
Definition AssertDurableCardActivationRange : string := "durable_card_activation_score_range".
Definition AssertEdgeExists : string := "edge_exists".
Definition AssertRecallNotContains : string := "recall_not_contains".
Definition AssertProcedureCount : string := "procedure_count".
Definition AssertProcedureContains : string := "procedure_contains".
Definition AssertProcedureStepContains : string := "procedure_step_contains".
Definition AssertActionAttemptCount : string := "action_attempt_count".
Definition AssertActionFailureCategory : string := "action_failure_category".
Definition AssertActionReplayed : string := "action_replayed".
Definition AssertRetrySucceeded : string := "retry_succeeded".
Definition AssertSchedulerTriggered : string := "scheduler_triggered".
Definition AssertSchedulerSkipReason : string := "scheduler_skip_reason".
Definition AssertMetricsTotalTasksAtLeast : string := "metrics_total_tasks_at_least".
Definition AssertMetricsTotalActionsAtLeast : string := "metrics_total_actions_at_least".
Definition AssertMetricsTotalMemoryAtLeast : string := "metrics_total_memory_cards_at_least".
Definition AssertMetricsActiveSkillsAtLeast : string := "metrics_active_skills_at_least".
Definition AssertMetricsTaskStateAtLeast : string := "metrics_task_state_at_least".
Definition AssertMetricsActionStatusAtLeast : string := "metrics_action_status_at_least".
Definition AssertMetricsMemoryStatusAtLeast : string := "metrics_memory_status_at_least".

(** ** Texts *)

(** [json.Marshal] of a dynamic value: the keys of a map are sorted. *)
Fixpoint any_text (a : Any) : string :=
  match a with
  | AStr s => quote s
  | AFloat f => format_number f
  | AInt z => Itoa z
  | ABool b => if b then "true" else "false"
  | ANull => "null"
  | AStrs l => "[" +:+ Join (quote <$> l) "," +:+ "]"
  | AList l => "[" +:+ Join (any_text <$> l) "," +:+ "]"
  | AMap l => "{" +:+ Join ((λ kv, quote kv.1 +:+ ":" +:+ kv.2)
                <$> merge_sort Recall.key_le ((λ kv, (kv.1, any_text kv.2)) <$> l)) "," +:+ "}"
  end.
Definition content_text (c : MemoryTypes.Content) : option string :=
  if MemoryTypes.content_json_ok c
  then Some (match c with Some m => any_text (AMap (map_to_list m)) | None => "null" end) else None.
(** [raw, err := json.Marshal(card.Content)], and the text is in it *)
Definition content_contains (text : string) (card : Card) : bool :=
  match content_text (card_Content card) with Some raw => Contains raw text | None => false end.
(** [fmt.Sprintf("%.3f", f)], rounded to even *)
Definition thousandths (m : positive) (e : Z) : Z :=
  if 0 <=? e then Zpos m * 2 ^ e * 1000 else
  let den := 2 ^ (- e) in
  let q := Zpos m * 1000 / den in
  let r := (Zpos m * 1000) mod den in
  if 2 * r <? den then q else if den <? 2 * r then q + 1 else if Z.even q then q else q + 1.
Definition format_fixed3 (f : float64) : string :=
  match f with
  | S754_zero neg => (if (neg : bool) then "-" else "") +:+ "0.000"
  | S754_finite neg m e =>
      let t := thousandths m e in
      (if (neg : bool) then "-" else "") +:+ Itoa (t / 1000) +:+ "." +:+ GoTime.digits 3 (t mod 1000)
  | S754_infinity neg => if (neg : bool) then "-Inf" else "+Inf"
  | S754_nan => "NaN"
  end.
Definition boolText (b : bool) : string := if b then "true" else "false".

Section assertions.
Context {tables : UnicodeTables} {url : SkillText.UrlPackage} {digits : Recall.FloatFormat}.
Variables (rig : Rig) (runtimeRoot : string).
Abbreviation q s := (Quote (host rig) s).
Abbreviation or_all s := (firstNonEmpty [s; "all"]).
Abbreviation session a := (firstNonEmpty [as_SessionID a; "default"]).
Abbreviation range_text a := ("[" +:+ format_fixed3 (MinConfidence a) +:+ ", " +:+ format_fixed3 (MaxConfidence a) +:+ "]").

Definition descriptions : list (string * (Assertion → string)) := [
  (AssertTaskState, λ a, "task from " +:+ as_Step a +:+ " reaches " +:+ Equals a);
  (AssertSelectedSkill, λ a, "task from " +:+ as_Step a +:+ " selects " +:+ Equals a);
  (AssertApprovalCount, λ a, "approval count for status " +:+ or_all (as_Status a));
  (AssertArtifactCount, λ a, "artifact count for " +:+ as_Step a);
  (AssertObservationCount, λ a, "observation count for " +:+ as_Step a);
  (AssertArtifactContains, λ a, "artifact from " +:+ as_Step a +:+ " contains " +:+ q (as_Contains a));
  (AssertAssistantContains, λ a, "assistant reply from " +:+ as_Step a +:+ " contains " +:+ q (as_Contains a));
  (AssertFileContains, λ a, "file " +:+ as_Path a +:+ " contains " +:+ q (as_Contains a));
  (AssertFileAbsent, λ a, "file " +:+ as_Path a +:+ " is absent");
  (AssertSessionStateContain, λ a, "session " +:+ session a +:+ " field " +:+ as_Field a +:+ " contains " +:+ q (as_Contains a));
  (AssertWorkingTopicContains, λ a, "working topic for session " +:+ session a +:+ " contains " +:+ q (as_Contains a));
  (AssertWorkingFocusTaskEquals, λ a, "working focus task for session " +:+ session a +:+ " equals " +:+ q (Equals a));
  (AssertWorkingPendingQuestionContains, λ a, "working pending question for session " +:+ session a +:+ " contains " +:+ q (as_Contains a));
  (AssertWorkingPendingActionContains, λ a, "working pending action for session " +:+ session a +:+ " contains " +:+ q (as_Contains a));
  (AssertMemoryCardCount, λ a, "memory card count for type " +:+ or_all (as_Field a));
  (AssertMemoryCardContains, λ a, "memory card type " +:+ or_all (as_Field a) +:+ " contains " +:+ q (as_Contains a));
  (AssertDurableCardCount, λ a, "durable card count for type " +:+ or_all (as_Field a));
  (AssertDurableCardContains, λ a, "durable card type " +:+ or_all (as_Field a) +:+ " contains " +:+ q (as_Contains a));
  (AssertDurableCardStatus, λ a, "durable card type " +:+ or_all (as_Field a) +:+ " has status " +:+ q (Equals a));
  (AssertDurableCardConfidenceRange, λ a, "durable card type " +:+ or_all (as_Field a) +:+ " confidence is within " +:+ range_text a);
  (AssertDurableCardScope, λ a, "durable card type " +:+ or_all (as_Field a) +:+ " has scope " +:+ q (Equals a));
  (AssertDurableCardSupersedes, λ a, "durable card type " +:+ or_all (as_Field a) +:+ " supersedes " +:+ q (Equals a));
  (AssertDurableCardVersionEquals, λ a, "durable card type " +:+ or_all (as_Field a) +:+ " version equals " +:+ Itoa (Expected a));
  (AssertDurableCardVersionAtLeast, λ a, "durable card type " +:+ or_all (as_Field a) +:+ " version is at least " +:+ Itoa (Min a));
  (AssertDurableCardActivationRange, λ a, "durable card type " +:+ or_all (as_Field a) +:+ " activation score is within " +:+ range_text a);
  (AssertEdgeCount, λ a, "edge count for type " +:+ or_all (as_Field a));
  (AssertEdgeExists, λ a, "edge type " +:+ or_all (as_Field a) +:+ " exists with card match " +:+ q (as_Contains a));
  (AssertRecallContains, λ a, "recall query " +:+ q (as_Query a) +:+ " source " +:+ or_all (as_Source a) +:+ " contains " +:+ q (as_Contains a));
  (AssertRecallNotContains, λ a, "recall query " +:+ q (as_Query a) +:+ " source " +:+ or_all (as_Source a)
     +:+ " does not contain " +:+ q (as_Contains a));
  (AssertActionAttemptCount, λ a, "action attempt count for " +:+ as_Step a);
  (AssertActionFailureCategory, λ a, "action failure category for " +:+ as_Step a +:+ " equals " +:+ q (Equals a));
  (AssertActionReplayed, λ a, "action replay flag for " +:+ as_Step a +:+ " equals " +:+ q (Equals a));
  (AssertRetrySucceeded, λ a, "retry succeeded for " +:+ as_Step a +:+ " equals " +:+ q (Equals a));
  (AssertSchedulerTriggered, λ a, "scheduler triggered for " +:+ as_Step a +:+ " equals " +:+ q (Equals a))].
Definition assertionDescription (a : Assertion) : string :=
  match List.find (λ entry, bool_decide (entry.1 = as_Type a)) descriptions with
  | Some (_, describe) => describe a
  | None => as_Type a
  end.
Definition passAssertion (a : Assertion) (details : string) : AssertionResult :=
  mkAssertionResult (as_Type a) (as_Step a) true (assertionDescription a) details.
Definition failAssertion (a : Assertion) (details : string) : AssertionResult :=
  mkAssertionResult (as_Type a) (as_Step a) false (assertionDescription a) details.
Definition verdict (a : Assertion) (ok : bool) (yes no : string) : AssertionResult :=
  if ok then passAssertion a yes else failAssertion a no.
Definition evaluateCountAssertion (a : Assertion) (actual : Z) (subject : string) : AssertionResult :=
  if 0 <? Min a then
    let text := subject +:+ " count=" +:+ Itoa actual +:+ " min=" +:+ Itoa (Min a) in verdict a (Min a <=? actual) text text
  else verdict a (actual =? Expected a) (subject +:+ " count=" +:+ Itoa actual)
         (subject +:+ " count=" +:+ Itoa actual +:+ " expected=" +:+ Itoa (Expected a)).

(** ** What is asked *)

(** A judge of one assertion type. *)
Abbreviation Judge := (Assertion → M Env AssertionResult).
Definition memory_of (e : Env) : MemoryStore.Store := ChatService.memory (ChatService.backend (state e)).
Definition order (e : Env) : list string := visit rig 0 (state e).
Definition found (e : Env) (cardType status : string) : MemoryTypes.QueryResponse :=
  MemoryStore.Query (order e) (MemoryTypes.mkQueryRequest "" cardType "" status None) (memory_of e).
Definition typed_cards (e : Env) (a : Assertion) : list Card := MemoryTypes.Cards (found e (TrimSpace (as_Field a)) "").
Definition procedures (e : Env) : list Card := MemoryTypes.Cards (found e "procedure" MemoryTypes.CardStatusActive).
Definition step_not_found (a : Assertion) : AssertionResult := failAssertion a ("step " +:+ q (as_Step a) +:+ " not found").
(** The report of the step, or a failure. *)
Definition on_step (judge : Assertion → StepReport → AssertionResult) : Judge := λ a,
  e ← get;
  mret (match stepReport e (as_Step a) with None => step_not_found a | Some step => judge a step end).

(** *** Tasks, approvals, steps *)

(** A field of the task as the store has it. *)
Definition stored_field (stored : Runtime.Task → string) (reached expected : string) : Judge := λ a,
  e ← get;
  match resolveTaskRef e (as_Step a) with
  | inl err => mret (failAssertion a err)
  | inr taskID =>
      res ← attempt rig (ChatService.with_runtime (Runtime.GetTask taskID));
      mret (match res with
        | inl err => failAssertion a err
        | inr task => verdict a (bool_decide (stored task = Equals a)) ("task " +:+ Runtime.TaskID task +:+ reached +:+ stored task)
            ("task " +:+ Runtime.TaskID task +:+ expected +:+ stored task +:+ " expected=" +:+ Equals a)
        end)
  end.
(** The field the step recorded, if it did. *)
Definition task_field (recorded : StepReport → string) (stored : Runtime.Task → string)
    (recorded_yes recorded_no reached expected : string) : Judge := λ a,
  e ← get;
  match stepReport e (as_Step a) with
  | Some step =>
      if blank (recorded step) then stored_field stored reached expected a else
      mret (verdict a (bool_decide (recorded step = Equals a)) ("step " +:+ as_Step a +:+ recorded_yes +:+ recorded step)
        ("step " +:+ as_Step a +:+ recorded_no +:+ recorded step +:+ " expected=" +:+ Equals a))
  | None => stored_field stored reached expected a
  end.
Definition task_state : Judge :=
  task_field sr_TaskState Runtime.State " recorded state " " task_state=" " reached " " state=".
Definition selected_skill : Judge :=
  task_field sr_SelectedSkill Runtime.SelectedSkill " recorded selected skill " " selected skill=" " selected skill " " selected skill=".
Definition approval_count : Judge := λ a,
  res ← attempt rig (on_approvals (Approval.List (as_Status a)));
  mret (match res with
    | inl err => failAssertion a err
    | inr records => evaluateCountAssertion a (Z.of_nat (length records)) ("approval status=" +:+ or_all (as_Status a))
    end).
Definition count_on_step (count : Assertion → StepReport → Z) (subject : Assertion → string) : Judge :=
  on_step (λ a step, evaluateCountAssertion a (count a step) ("step " +:+ as_Step a +:+ subject a)).
Definition artifact_count : Judge := count_on_step (λ _ p, Z.of_nat (length (sr_ArtifactPaths p))) (λ _, " artifacts").
Definition observation_count : Judge := count_on_step (λ _ p, Z.of_nat (length (sr_ObservationPaths p))) (λ _, " observations").
Definition action_attempt_count : Judge := count_on_step (λ _, ActionAttempts) (λ _, " action attempts").
Definition metrics_total_tasks : Judge := count_on_step (λ _ p, TotalTasks (Metrics p)) (λ _, " metrics total_tasks").
Definition metrics_total_actions : Judge := count_on_step (λ _ p, TotalActions (Metrics p)) (λ _, " metrics total_actions").
Definition metrics_total_memory : Judge := count_on_step (λ _ p, TotalMemoryCards (Metrics p)) (λ _, " metrics total_memory_cards").
Definition metrics_active_skills : Judge := count_on_step (λ _ p, ActiveSkills (Metrics p)) (λ _, " metrics active_skills").
(** A counter of the metrics, 0 if it is not there. *)
Definition metrics_counter (counters : MetricsSnapshot → gmap string Z) (label : string) : Judge :=
  count_on_step (λ a p, default 0 (counters (Metrics p) !! TrimSpace (as_Field a)))
    (λ a, " metrics " +:+ label +:+ "=" +:+ firstNonEmpty [as_Field a; "unknown"]).
Definition metrics_task_state : Judge := metrics_counter TasksByState "task_state".
Definition metrics_action_status : Judge := metrics_counter ActionsByStatus "action_status".
Definition metrics_memory_status : Judge := metrics_counter MemoryByStatus "memory_status".
Definition action_failure_category : Judge := on_step (λ a step,
  let expected := TrimSpace (Equals a) in
  let text := "step " +:+ as_Step a +:+ " action_failure_category=" +:+ q (ActionFailureCategory step) in
  verdict a (bool_decide (ActionFailureCategory step = expected)) text (text +:+ " expected=" +:+ q expected)).
Definition flag_on_step (flag : StepReport → bool) (label : string) (more : StepReport → string) : Judge := on_step (λ a step,
  let expected := parseBool (Equals a) in
  let text := "step " +:+ as_Step a +:+ label +:+ boolText (flag step) in
  verdict a (Bool.eqb (flag step) expected) text (text +:+ " expected=" +:+ boolText expected +:+ more step)).
Definition action_replayed : Judge := flag_on_step ActionReplayed " action_replayed=" (λ _, "").
Definition retry_succeeded : Judge := flag_on_step RetrySucceeded " retry_succeeded=" (λ _, "").
Definition scheduler_triggered : Judge :=
  flag_on_step SchedulerTriggered " scheduler_triggered=" (λ p, " skip_reason=" +:+ q (SchedulerSkipReason p)).
Definition scheduler_skip_reason : Judge := on_step (λ a step,
  let actual := TrimSpace (SchedulerSkipReason step) in
  let expected := TrimSpace (Equals a) in
  let text := "step " +:+ as_Step a +:+ " scheduler_skip_reason=" +:+ q actual in
  verdict a (bool_decide (actual = expected)) text (text +:+ " expected=" +:+ q expected)).
Definition assistant_contains : Judge := on_step (λ a step,
  verdict a (Contains (AssistantContent step) (as_Contains a)) ("assistant reply contained " +:+ q (as_Contains a))
    ("assistant reply for step " +:+ as_Step a +:+ " did not contain " +:+ q (as_Contains a))).

(** *** Files *)

Definition text_contains (e : Env) (text path : string) : bool :=
  match file_text rig (state e) path with Some raw => Contains raw text | None => false end.
Definition artifact_contains : Judge := λ a,
  e ← get;
  mret (match stepReport e (as_Step a) with
    | None => step_not_found a
    | Some step =>
        match List.find (text_contains e (as_Contains a)) (sr_ArtifactPaths step) with
        | Some path => passAssertion a ("artifact " +:+ ChatText.Base path +:+ " contained " +:+ q (as_Contains a))
        | None => failAssertion a ("no artifact from step " +:+ as_Step a +:+ " contained " +:+ q (as_Contains a))
        end
    end).
Definition assertion_path (a : Assertion) : string :=
  if FsAccess.IsAbs (as_Path a) then as_Path a else FsAccess.Join2 runtimeRoot (as_Path a).
Definition file_contains : Judge := λ a,
  e ← get;
  let path := assertion_path a in
  mret (match file_text rig (state e) path with
    | None => failAssertion a (open_error (host rig) path)
    | Some raw => verdict a (Contains raw (as_Contains a)) ("file " +:+ path +:+ " contained " +:+ q (as_Contains a))
        ("file " +:+ path +:+ " did not contain " +:+ q (as_Contains a))
    end).
Definition file_status (s : State) (path : string) : FileStatus :=
  if bool_decide (is_Some (Execution.workspace (Assistant.exec_state (ChatService.machine (ChatService.backend s))) !! path))
  then Present else other_status rig s path.
Definition file_absent : Judge := λ a,
  e ← get;
  let path := assertion_path a in
  mret (match file_status (state e) path with
    | Missing => passAssertion a ("file " +:+ path +:+ " is absent")
    | Unreadable err => failAssertion a err
    | Present => failAssertion a ("file " +:+ path +:+ " exists but should be absent")
    end).

(** *** Conversations *)

Definition sessionStateField (st : ChatStore.SessionState) (field : string) : string :=
  let field := TrimSpace field in
  if decide (field = "topic") then ChatStore.Topic st
  else if decide (field = "focus_task_id") then ChatStore.FocusTaskID st
  else if decide (field = "pending_action") then ChatStore.PendingAction st
  else if decide (field = "pending_question") then ChatStore.PendingQuestion st
  else if decide (field = "last_user_act") then ChatStore.LastUserAct st
  else if decide (field = "last_assistant_act") then ChatStore.LastAssistantAct st
  else "".
Definition on_session (judge : Assertion → ChatStore.SessionState → AssertionResult) : Judge := λ a,
  res ← attempt rig (ChatService.ServiceSessionState (session a));
  mret (match res with inl err => failAssertion a err | inr st => judge a st end).
Definition session_state_contains : Judge := on_session (λ a st,
  let value := sessionStateField st (as_Field a) in
  verdict a (Contains value (as_Contains a)) ("session field " +:+ as_Field a +:+ " contained " +:+ q (as_Contains a))
    ("session field " +:+ as_Field a +:+ "=" +:+ q value +:+ " did not contain " +:+ q (as_Contains a))).
Definition working_contains (what label : string) (field : ChatStore.SessionState → string) : Judge := on_session (λ a st,
  verdict a (Contains (field st) (as_Contains a)) ("working " +:+ what +:+ " contained " +:+ q (as_Contains a))
    ("working " +:+ label +:+ "=" +:+ q (field st) +:+ " did not contain " +:+ q (as_Contains a))).
Definition working_topic_contains : Judge := working_contains "topic" "topic" ChatStore.Topic.
Definition working_pending_question_contains : Judge := working_contains "pending question" "pending_question" ChatStore.PendingQuestion.
Definition working_pending_action_contains : Judge := working_contains "pending action" "pending_action" ChatStore.PendingAction.
Definition working_focus_task_equals : Judge := on_session (λ a st,
  let actual := TrimSpace (ChatStore.FocusTaskID st) in
  let expected := TrimSpace (Equals a) in
  verdict a (bool_decide (actual = expected)) ("working focus task matched " +:+ expected)
    ("working focus_task_id=" +:+ q actual +:+ " expected=" +:+ q expected)).

(** *** Cards and edges *)

Definition card_count (kind : string) : Judge := λ a,
  e ← get;
  mret (evaluateCountAssertion a (Z.of_nat (length (typed_cards e a))) (kind +:+ " cards type=" +:+ or_all (as_Field a))).
Definition card_contains (kind : string) : Judge := λ a,
  e ← get;
  mret (match List.find (content_contains (as_Contains a)) (typed_cards e a) with
    | Some card => passAssertion a (kind +:+ " card " +:+ CardID card +:+ " contained " +:+ q (as_Contains a))
    | None => failAssertion a ("no " +:+ kind +:+ " card type=" +:+ or_all (as_Field a) +:+ " contained " +:+ q (as_Contains a))
    end).
Definition findMatchingCard (cards : list Card) (contains : string) : option Card :=
  let contains := TrimSpace contains in
  if decide (contains = "") then head cards else List.find (content_contains contains) cards.
(** The card the assertion is about, or a failure. *)
Definition on_card (judge : Assertion → Card → AssertionResult) : Judge := λ a,
  e ← get;
  mret (match findMatchingCard (typed_cards e a) (as_Contains a) with
    | None => failAssertion a ("no durable card type=" +:+ or_all (as_Field a) +:+ " matched contains=" +:+ q (as_Contains a))
    | Some card => judge a card
    end).
Abbreviation durable card := ("durable card " +:+ CardID card).
Definition durable_card_status : Judge := on_card (λ a card,
  let text := durable card +:+ " status=" +:+ MemoryTypes.Status card in
  verdict a (bool_decide (MemoryTypes.Status card = Equals a)) text (text +:+ " expected=" +:+ Equals a)).
Definition confidenceInRange (actual minValue maxValue : float64) : bool :=
  if negb (feq minValue f0) && flt actual minValue then false
  else negb (negb (feq maxValue f0) && flt maxValue actual).
Definition in_range_on_card (label : string) (value : Card → float64) : Judge := on_card (λ a card,
  let text := durable card +:+ " " +:+ label +:+ "=" +:+ format_fixed3 (value card) in
  verdict a (confidenceInRange (value card) (MinConfidence a) (MaxConfidence a)) (text +:+ " within " +:+ range_text a)
    (text +:+ " outside " +:+ range_text a)).
Definition durable_card_confidence_range : Judge := in_range_on_card "confidence" (λ c, MemoryTypes.Confidence (MemoryTypes.card_Provenance c)).
Definition durable_card_activation_range : Judge := in_range_on_card "activation_score" (λ c, MemoryTypes.Score (MemoryTypes.Activation c)).
Definition cardScope (card : Card) : string :=
  if negb (blank (MemoryTypes.Scope card)) then TrimSpace (MemoryTypes.Scope card) else
  match MemoryTypes.content_string (card_Content card) "scope" with
  | Some scope => TrimSpace scope
  | None =>
      if decide (MemoryTypes.CardType card ∈ ["email_inbox"; "email_summary"; "email_thread"; "email_message"]) then "user"
      else if decide (MemoryTypes.CardType card ∈ ["web_search"; "search_summary"; "web_result"; "github_issue_search";
                        "github_issue_summary"; "github_issue"]) then "project"
      else ""
  end.
Definition durable_card_scope : Judge := on_card (λ a card,
  verdict a (bool_decide (cardScope card = TrimSpace (Equals a))) (durable card +:+ " scope=" +:+ cardScope card)
    (durable card +:+ " scope=" +:+ q (cardScope card) +:+ " expected=" +:+ q (Equals a))).
Definition durable_card_supersedes : Judge := on_card (λ a card,
  let expected := TrimSpace (Equals a) in
  verdict a (bool_decide (TrimSpace (MemoryTypes.Supersedes card) = expected)) (durable card +:+ " supersedes=" +:+ MemoryTypes.Supersedes card)
    (durable card +:+ " supersedes=" +:+ q (MemoryTypes.Supersedes card) +:+ " expected=" +:+ q expected)).
Definition durable_card_version_equals : Judge := on_card (λ a card,
  let text := durable card +:+ " version=" +:+ Itoa (MemoryTypes.Version card) in
  verdict a (MemoryTypes.Version card =? Expected a) text (text +:+ " expected=" +:+ Itoa (Expected a))).
Definition durable_card_version_at_least : Judge := on_card (λ a card,
  let text := durable card +:+ " version=" +:+ Itoa (MemoryTypes.Version card) +:+ " min=" +:+ Itoa (Min a) in
  verdict a (Min a <=? MemoryTypes.Version card) text text).
Definition edge_typed (edgeType : string) (edge : MemoryTypes.Edge) : bool :=
  bool_decide (edgeType = "") || bool_decide (MemoryTypes.EdgeType edge = edgeType).
Definition edge_count : Judge := λ a,
  e ← get;
  let edgeType := TrimSpace (as_Field a) in
  mret (evaluateCountAssertion a (Z.of_nat (length (filter (λ edge, edge_typed edgeType edge = true) (MemoryTypes.Edges (found e "" "")))))
    ("memory edges type=" +:+ or_all edgeType)).
Definition edge_matches (edgeType contains : string) (edge : MemoryTypes.Edge) : bool :=
  edge_typed edgeType edge && (bool_decide (contains = "") || Contains (MemoryTypes.FromCardID edge) contains
    || Contains (MemoryTypes.ToCardID edge) contains).
Definition edge_exists : Judge := λ a,
  e ← get;
  let edgeType := TrimSpace (as_Field a) in
  let contains := TrimSpace (as_Contains a) in
  mret (match List.find (edge_matches edgeType contains) (MemoryTypes.Edges (found e "" "")) with
    | Some edge => passAssertion a ("edge " +:+ MemoryTypes.EdgeID edge +:+ " exists type=" +:+ MemoryTypes.EdgeType edge +:+ " from="
        +:+ MemoryTypes.FromCardID edge +:+ " to=" +:+ MemoryTypes.ToCardID edge)
    | None => failAssertion a ("no edge exists for type=" +:+ or_all edgeType +:+ " contains=" +:+ q contains)
    end).
Definition procedure_count : Judge := λ a,
  e ← get; mret (evaluateCountAssertion a (Z.of_nat (length (procedures e))) "active procedures").
Definition procedure_contains : Judge := λ a,
  e ← get;
  mret (match List.find (content_contains (as_Contains a)) (procedures e) with
    | Some card => passAssertion a ("procedure " +:+ CardID card +:+ " contained " +:+ q (as_Contains a))
    | None => failAssertion a ("no active procedure contained " +:+ q (as_Contains a))
    end).
(** The texts of a field that holds text. *)
Definition procedure_value (value : option Any) : option string :=
  match value with
  | Some (AStr typed) => if blank typed then None else Some typed
  | Some (AStrs (_ :: _ as typed)) => Some (Join typed newline)
  | Some (AList typed) =>
      match omap (λ item, match item with AStr text => if blank text then None else Some text | _ => None end) typed with
      | [] => None
      | parts => Some (Join parts newline)
      end
  | _ => None
  end.
Definition procedureFields (card : Card) : list string :=
  omap (λ key, procedure_value (default ∅ (card_Content card) !! key)) ["steps"; "guardrails"; "summary"].
Definition procedure_step_contains : Judge := λ a,
  e ← get;
  mret (match List.find (λ card, existsb (λ value, Contains value (as_Contains a)) (procedureFields card)) (procedures e) with
    | Some card => passAssertion a ("procedure " +:+ CardID card +:+ " step contained " +:+ q (as_Contains a))
    | None => failAssertion a ("no active procedure step contained " +:+ q (as_Contains a))
    end).

(** *** Recall *)

Definition recall_request (a : Assertion) : Recall.RecallRequest :=
  let source := TrimSpace (as_Source a) in
  Recall.mkRecallRequest (TrimSpace (as_Query a)) (if decide (source = "") then [] else [source]) 10.
Definition recall_fields (e : Env) : string → list (string * string) :=
  ChatService.field_ords (Assistant.a_service (sur rig)) (memory_of e) 0.
Definition recalled (a : Assertion) : M Env (list Recall.Hit) :=
  e ← get;
  resp ← lift_result (Recall.Recall (order e) (recall_fields e) (recall_request a) (memory_of e));
  mret (Recall.Hits resp).
(** Where a hit holds the text. *)
Definition hit_place (text : string) (hit : Recall.Hit) : option string :=
  if Contains (Recall.h_Snippet hit) text then Some "hit"
  else if content_contains text (Recall.h_Card hit) then Some "card" else None.
Fixpoint first_place (text : string) (hits : list Recall.Hit) : option (string * string) :=
  match hits with
  | [] => None
  | hit :: rest => match hit_place text hit with Some place => Some (place, Recall.h_CardID hit) | None => first_place text rest end
  end.
Definition not_recalled (a : Assertion) : string :=
  "recall query=" +:+ q (as_Query a) +:+ " source=" +:+ q (as_Source a) +:+ " did not contain " +:+ q (as_Contains a).
Definition recall_contains : Judge := λ a,
  hits ← recalled a;
  mret (match first_place (as_Contains a) hits with
    | Some (place, cardID) => passAssertion a ("recall " +:+ place +:+ " " +:+ cardID +:+ " contained " +:+ q (as_Contains a))
    | None => failAssertion a (not_recalled a)
    end).
Definition recall_not_contains : Judge := λ a,
  hits ← recalled a;
  mret (match first_place (as_Contains a) hits with
    | Some (place, cardID) => failAssertion a ("recall " +:+ place +:+ " " +:+ cardID +:+ " unexpectedly contained " +:+ q (as_Contains a))
    | None => passAssertion a (not_recalled a)
    end).

(** ** All assertions *)

Definition judges : list (string * Judge) := [
  (AssertTaskState, task_state); (AssertSelectedSkill, selected_skill); (AssertApprovalCount, approval_count);
  (AssertArtifactCount, artifact_count); (AssertObservationCount, observation_count); (AssertArtifactContains, artifact_contains);
  (AssertAssistantContains, assistant_contains); (AssertFileContains, file_contains); (AssertFileAbsent, file_absent);
  (AssertSessionStateContain, session_state_contains); (AssertWorkingTopicContains, working_topic_contains);
  (AssertWorkingFocusTaskEquals, working_focus_task_equals); (AssertWorkingPendingQuestionContains, working_pending_question_contains);
  (AssertWorkingPendingActionContains, working_pending_action_contains); (AssertMemoryCardCount, card_count "memory");
  (AssertMemoryCardContains, card_contains "memory"); (AssertDurableCardCount, card_count "durable");
  (AssertDurableCardContains, card_contains "durable"); (AssertDurableCardStatus, durable_card_status);
  (AssertDurableCardConfidenceRange, durable_card_confidence_range); (AssertDurableCardScope, durable_card_scope);
  (AssertDurableCardSupersedes, durable_card_supersedes); (AssertDurableCardVersionEquals, durable_card_version_equals);
  (AssertDurableCardVersionAtLeast, durable_card_version_at_least); (AssertDurableCardActivationRange, durable_card_activation_range);
  (AssertEdgeCount, edge_count); (AssertEdgeExists, edge_exists); (AssertRecallContains, recall_contains);
  (AssertRecallNotContains, recall_not_contains); (AssertProcedureCount, procedure_count); (AssertProcedureContains, procedure_contains);
  (AssertProcedureStepContains, procedure_step_contains); (AssertActionAttemptCount, action_attempt_count);
  (AssertActionFailureCategory, action_failure_category); (AssertActionReplayed, action_replayed);
  (AssertRetrySucceeded, retry_succeeded); (AssertSchedulerTriggered, scheduler_triggered);
  (AssertSchedulerSkipReason, scheduler_skip_reason); (AssertMetricsTotalTasksAtLeast, metrics_total_tasks);
  (AssertMetricsTotalActionsAtLeast, metrics_total_actions); (AssertMetricsTotalMemoryAtLeast, metrics_total_memory);
  (AssertMetricsActiveSkillsAtLeast, metrics_active_skills); (AssertMetricsTaskStateAtLeast, metrics_task_state);
  (AssertMetricsActionStatusAtLeast, metrics_action_status); (AssertMetricsMemoryStatusAtLeast, metrics_memory_status)].
Definition evaluateAssertion : Judge := λ a,
  match List.find (λ entry, bool_decide (entry.1 = as_Type a)) judges with
  | Some (_, judge) => judge a
  | None => mret (failAssertion a ("unsupported assertion type " +:+ q (as_Type a)))
  end.
Definition evaluateAssertions (l : list Assertion) : M Env (list AssertionResult * bool) :=
  results ← foldM (λ acc a, r ← evaluateAssertion a; mret (acc ++ [r])) [] l;
  mret (results, forallb ar_Passed results).
End assertions.

(** ** Judging changes nothing *)

Section verdicts.
Context {tables : UnicodeTables} {url : SkillText.UrlPackage} {digits : Recall.FloatFormat}.
Variables (rig : Rig) (runtimeRoot : string).

(** A judge that reads, and whose verdict is about its assertion. *)
Definition about (a : Assertion) (r : AssertionResult) : Prop :=
  ar_Type r = as_Type a ∧ ar_Step r = as_Step a ∧ ar_Description r = assertionDescription rig a.
Definition judges_well (judge : Assertion → M Env AssertionResult) : Prop := ∀ a, reads (judge a) ∧ yields (about a) (judge a).
Lemma well_pure (f : Assertion → Env → AssertionResult) : (∀ a e, about a (f a e)) → judges_well (λ a, e ← get; mret (f a e)).
Proof. intros H a. split; [by apply reads_bind; [apply reads_get|]; intros; apply reads_ret|]. apply yields_then. intros e. by apply yields_ret. Qed.
Lemma well_attempt {A} (m : Assertion → M State A) (f : Assertion → string + A → AssertionResult) :
  (∀ a, reads (m a)) → (∀ a x, about a (f a x)) → judges_well (λ a, res ← attempt rig (m a); mret (f a res)).
Proof.
  intros Hm H a. split; [apply reads_bind; [by apply reads_attempt|]; intros; apply reads_ret|]. apply yields_then. intros x. by apply yields_ret.
Qed.
Lemma about_verdict a ok yes no : about a (verdict rig a ok yes no).
Proof. unfold verdict. by destruct ok. Qed.
Lemma about_count a n subject : about a (evaluateCountAssertion rig a n subject).
Proof. unfold evaluateCountAssertion. destruct (0 <? Min a); apply about_verdict. Qed.
Lemma about_fail a t : about a (failAssertion rig a t).
Proof. done. Qed.
Lemma about_pass a t : about a (passAssertion rig a t).
Proof. done. Qed.
Lemma well_on_step (judge : Assertion → StepReport → AssertionResult) : (∀ a p, about a (judge a p)) → judges_well (on_step rig judge).
Proof. intros H. apply well_pure. intros a e. by destruct (stepReport e (as_Step a)). Qed.
Lemma well_on_card (judge : Assertion → Card → AssertionResult) : (∀ a c, about a (judge a c)) → judges_well (on_card rig judge).
Proof. intros H. apply well_pure. intros a e. by destruct (findMatchingCard _ _). Qed.
Lemma well_on_session (judge : Assertion → ChatStore.SessionState → AssertionResult) :
  (∀ a st, about a (judge a st)) → judges_well (on_session rig judge).
Proof. intros H. apply well_attempt; [intros; apply reads_SessionState|]. by intros a [|]. Qed.
Lemma well_count_on_step count subject : judges_well (count_on_step rig count subject).
Proof. apply well_on_step. intros. apply about_count. Qed.
Lemma well_flag flag label more : judges_well (flag_on_step rig flag label more).
Proof. apply well_on_step. intros. apply about_verdict. Qed.
Lemma well_range label value : judges_well (in_range_on_card rig label value).
Proof. apply well_on_card. intros. apply about_verdict. Qed.
Lemma well_stored stored reached expected : judges_well (stored_field rig stored reached expected).
Proof.
  intros a. unfold stored_field. split.
  - apply reads_bind; [apply reads_get|intros e]. destruct (resolveTaskRef _ _); [apply reads_ret|].
    apply reads_bind; [apply reads_attempt, reads_runtime, reads_GetTask|]. intros; apply reads_ret.
  - apply yields_then. intros e. destruct (resolveTaskRef _ _); [by apply yields_ret|]. apply yields_then. intros [|]; apply yields_ret; [done|apply about_verdict].
Qed.
Lemma well_task_field recorded stored t1 t2 t3 t4 : judges_well (task_field rig recorded stored t1 t2 t3 t4).
Proof.
  intros a. destruct (well_stored stored t3 t4 a) as [H1 H2]. unfold task_field. split.
  - apply reads_bind; [apply reads_get|intros e]. destruct (stepReport _ _); [|done]. destruct (blank _); [done|apply reads_ret].
  - apply yields_then. intros e. destruct (stepReport _ _); [|done]. destruct (blank _); [done|]. apply yields_ret, about_verdict.
Qed.
Lemma reads_recalled a : reads (recalled rig a).
Proof. unfold recalled. reads_tac. Qed.
Lemma well_recall (f : Assertion → option (string * string) → AssertionResult) :
  (∀ a x, about a (f a x)) → judges_well (λ a, hits ← recalled rig a; mret (f a (first_place (as_Contains a) hits))).
Proof.
  intros H a. split; [apply reads_bind; [apply reads_recalled|]; intros; apply reads_ret|]. apply yields_then. intros. by apply yields_ret.
Qed.
Lemma judges_all_well : Forall (λ entry, judges_well entry.2) (judges rig runtimeRoot).
Proof.
  unfold judges, task_state, selected_skill, artifact_count, observation_count, action_attempt_count, metrics_total_tasks,
    metrics_total_actions, metrics_total_memory, metrics_active_skills, metrics_task_state, metrics_action_status,
    metrics_memory_status, metrics_counter, action_replayed, retry_succeeded, scheduler_triggered,
    durable_card_confidence_range, durable_card_activation_range.
  repeat (apply Forall_cons; split); try apply Forall_nil; cbn [snd]; 
    first [apply well_task_field|apply well_count_on_step|apply well_flag|apply well_range|idtac].
  all: try (apply well_pure; intros; first [apply about_count|by destruct (List.find _ _)]).
  all: try (apply well_on_step; intros; apply about_verdict).
  all: try (apply well_on_session; intros; apply about_verdict).
  all: try (apply well_on_card; intros; apply about_verdict).
  - apply (well_attempt (λ a, on_approvals (Approval.List (as_Status a)))); [intros; apply reads_approvals, reads_List|].
    intros a [|]; [done|apply about_count].
  - apply well_pure. intros a e. destruct (stepReport _ _); [|done]. by destruct (List.find _ _).
  - apply well_pure. intros a e. cbv zeta. destruct (file_text _ _ _); [apply about_verdict|done].
  - apply well_pure. intros a e. cbv zeta. by destruct (file_status _ _ _).
  - apply (well_recall (λ a found, match found with Some (place, cardID) => passAssertion rig a _ | None => failAssertion rig a _ end)).
    by intros ? [[]|].
  - apply (well_recall (λ a found, match found with Some (place, cardID) => failAssertion rig a _ | None => passAssertion rig a _ end)).
    by intros ? [[]|].
  - done.
Qed.
Lemma evaluateAssertion_well : judges_well (evaluateAssertion rig runtimeRoot).
Proof.
  intros a. unfold evaluateAssertion. destruct (List.find _ _) as [[type judge]|] eqn:E.
  - apply List.find_some in E as [Hin _]. apply list_elem_of_In in Hin. pose proof judges_all_well as H.
    rewrite Forall_forall in H. exact (H _ Hin a).
  - split; [apply reads_ret|by apply yields_ret].
Qed.

Definition judge_next (acc : list AssertionResult) (a : Assertion) : M Env (list AssertionResult) :=
  r ← evaluateAssertion rig runtimeRoot a; mret (acc ++ [r]).
Lemma evaluate_each l : ∀ acc e w,
  (∃ err, foldM judge_next acc l e w = (Err err, e, w)) ∨
  ∃ rs, foldM judge_next acc l e w = (Ok (acc ++ rs), e, w) ∧
    Forall2 (λ a r, about a r ∧ evaluateAssertion rig runtimeRoot a e w = (Ok r, e, w)) l rs.
Proof.
  induction l as [|a l IH]; intros acc e w; [right; exists []; by rewrite app_nil_r|]. cbn [foldM]. rewrite bind_eq.
  destruct (evaluateAssertion_well a) as [Hr Hy]. destruct (Hr e w) as [[r|err] E].
  - assert (judge_next acc a e w = (Ok (acc ++ [r]), e, w)) as -> by (unfold judge_next; rewrite bind_eq, E; done).
    destruct (IH (acc ++ [r]) e w) as [H|(rs & H & Hf)]; [by left|]. right. exists (r :: rs). rewrite H, <- app_assoc. split; [done|].
    constructor; [|done]. split; [|done]. exact (yields_run _ _ _ _ _ _ _ Hy E).
  - assert (judge_next acc a e w = (Err err, e, w)) as -> by (unfold judge_next; rewrite bind_eq, E; done). left. by exists err.
Qed.
(** Judging is reading.  Whatever the assertions, the services and their stores
    are as before; unless the program panics there is one verdict for each
    assertion, in order, about it and the one it gets alone; and the scenario
    passes if all of them pass. *)
Theorem verdicts_in_order l e w :
  ∃ res, evaluateAssertions rig runtimeRoot l e w = (res, e, w) ∧
  ∀ results passed, res = Ok (results, passed) →
    (passed = true ↔ Forall (λ r, ar_Passed r = true) results) ∧
    Forall2 (λ a r, ar_Type r = as_Type a ∧ ar_Step r = as_Step a ∧ ar_Description r = assertionDescription rig a ∧
      evaluateAssertion rig runtimeRoot a e w = (Ok r, e, w)) l results.
Proof.
  unfold evaluateAssertions. change (λ acc a, r ← evaluateAssertion rig runtimeRoot a; mret (acc ++ [r])) with judge_next. rewrite bind_eq.
  destruct (evaluate_each l [] e w) as [[err ->]|(rs & -> & Hf)]; [by eexists|].
  eexists. split; [reflexivity|]. intros results passed [= <- <-]. split.
  - rewrite forallb_forall, Forall_forall. by setoid_rewrite list_elem_of_In.
  - eapply Forall2_impl; [exact Hf|]. by intros a r [(H1 & H2 & H3) H4].
Qed.
End verdicts.

(** ** What the verdicts on the memory mean *)

Section meaning.
Context {tables : UnicodeTables} {url : SkillText.UrlPackage} {digits : Recall.FloatFormat}.
Variables (rig : Rig) (runtimeRoot : string) (e : Env).

(** The latest version of a card, of a type and a status if they are given. *)
Definition latest_card (cardType status : string) (card : Card) : Prop :=
  (∃ id, MemoryStore.latest_in (memory_of e) id = Some card) ∧
  (cardType = "" ∨ MemoryTypes.CardType card = cardType) ∧ (status = "" ∨ MemoryTypes.Status card = status).
Definition memory_sound : Prop :=
  MemoryStore.store_wf (memory_of e) ∧ range_of (MemoryStore.cards (memory_of e)) (order rig e).
Lemma found_card_spec cardType status card : memory_sound →
  card ∈ MemoryTypes.Cards (found rig e cardType status) ↔ latest_card cardType status card.
Proof.
  intros [_ Hr]. unfold found, latest_card, MemoryStore.latest_in. rewrite MemoryStore.Query_cards_elem by done.
  unfold MemoryStore.matchesQuery. cbn. setoid_rewrite andb_true_iff. setoid_rewrite andb_true_iff.
  setoid_rewrite orb_true_iff. setoid_rewrite bool_decide_eq_true. naive_solver.
Qed.
Lemma find_passes {A} (f : A → bool) (l : list A) : is_Some (List.find f l) ↔ ∃ x, x ∈ l ∧ f x = true.
Proof.
  split.
  - intros [x Hx]. apply List.find_some in Hx as [Hin Hf]. exists x. by rewrite list_elem_of_In.
  - intros (x & Hin%list_elem_of_In & Hf). destruct (List.find f l) eqn:E; [done|].
    pose proof (List.find_none _ _ E _ Hin). congruence.
Qed.
Lemma found_edge_spec edge : memory_sound →
  edge ∈ MemoryTypes.Edges (found rig e "" "") ↔ MemoryStore.edges (memory_of e) !! MemoryTypes.EdgeID edge = Some edge.
Proof.
  intros [Hs Hr]. unfold found. rewrite MemoryStore.Query_scan by done. cbn [MemoryTypes.Edges].
  destruct (MemoryStore.collectEdges_exact (memory_of e)
    (CardID <$> omap (MemoryStore.found_card (memory_of e) (MemoryTypes.mkQueryRequest "" "" "" "" None)) (order rig e)) Hs) as [_ ->].
  split; [by intros [H _]|]. intros H. split; [done|]. pose proof Hs as (Hc & He & _). destruct (He _ _ H) as (_ & [vs Hvs] & _).
  destruct (Hc _ _ Hvs) as (Hne & _). destruct (last vs) as [card|] eqn:El; [|by apply last_None in El].
  assert (MemoryStore.resolveAsOf (MemoryStore.versions_of (memory_of e) (MemoryTypes.FromCardID edge)) None = Some card) as Hl
    by (unfold MemoryStore.versions_of; change (MemoryStore.cards (memory_of e)) with (MemoryStore.mem (memory_of e)).1.1; cbn; by rewrite Hvs).
  exists (CardID card). rewrite (MemoryStore.resolve_CardID _ _ _ _ Hs Hl). split; [|by left].
  apply list_elem_of_fmap. exists card. split; [by rewrite (MemoryStore.resolve_CardID _ _ _ _ Hs Hl)|].
  apply list_elem_of_omap. exists (MemoryTypes.FromCardID edge). split.
  - apply Hr, elem_of_dom. by exists vs.
  - by apply MemoryStore.found_card_Some.
Qed.
Lemma find_verdict {A} a (f : A → bool) (l : list A) (yes : A → string) no :
  ar_Passed (match List.find f l with Some x => passAssertion rig a (yes x) | None => failAssertion rig a no end) = true ↔
  ∃ x, x ∈ l ∧ f x = true.
Proof. rewrite <- find_passes. destruct (List.find f l) as [x|]; cbn; [split; [by exists x|done]|split; [done|by intros [? ?]]]. Qed.
(** What a count must be. *)
Definition counted (a : Assertion) (n : Z) : Prop := if 0 <? Min a then Min a <= n else n = Expected a.
Lemma count_verdict a n subject : ar_Passed (evaluateCountAssertion rig a n subject) = true ↔ counted a n.
Proof.
  unfold evaluateCountAssertion, counted, verdict. destruct (0 <? Min a).
  - destruct (Min a <=? n) eqn:E; cbn; [apply Z.leb_le in E|apply Z.leb_gt in E]; split; try done; lia.
  - destruct (n =? Expected a) eqn:E; cbn; [apply Z.eqb_eq in E|apply Z.eqb_neq in E]; done.
Qed.
Lemma first_place_spec text hits : is_Some (first_place text hits) ↔
  ∃ hit, hit ∈ hits ∧ (Contains (Recall.h_Snippet hit) text = true ∨ content_contains text (Recall.h_Card hit) = true).
Proof.
  induction hits as [|hit hits IH]; cbn [first_place].
  - split; [by intros []|by intros (? & ?%elem_of_nil & _)].
  - unfold hit_place. destruct (Contains (Recall.h_Snippet hit) text) eqn:E1; [|destruct (content_contains text _) eqn:E2].
    + split; [intros _; exists hit; split; [left|by left]|by eexists].
    + split; [intros _; exists hit; split; [left|by right]|by eexists].
    + rewrite IH. split; [intros (x & Hx & H); exists x; split; [by right|done]|].
      intros (x & [->|Hx]%elem_of_cons & H); [exfalso; destruct H; congruence|by exists x].
Qed.

(** Recall finds the text of the assertion. *)
Definition text_recalled (a : Assertion) : Prop :=
  ∃ resp hit, Recall.Recall (order rig e) (recall_fields rig e) (recall_request a) (memory_of e) = Ok resp ∧ hit ∈ Recall.Hits resp ∧
    (Contains (Recall.h_Snippet hit) (as_Contains a) = true ∨ content_contains (as_Contains a) (Recall.h_Card hit) = true).
Lemma recalled_run a w r (f : option (string * string) → AssertionResult) :
  (hits ← recalled rig a; mret (f (first_place (as_Contains a) hits))) e w = (Ok r, e, w) →
  ∃ place, r = f place ∧ (is_Some place ↔ text_recalled a).
Proof.
  rewrite bind_eq. unfold recalled. rewrite bind_eq. cbn [get]. rewrite bind_eq. cbn [lift_result].
  destruct (Recall.Recall _ _ _ _) as [resp|err] eqn:E; cbn; [|done]. intros [= <-]. eexists. split; [reflexivity|].
  rewrite first_place_spec. unfold text_recalled. rewrite E. split; [by intros (hit & H1 & H2); exists resp, hit|].
  by intros (? & hit & [= <-] & H1 & H2); exists hit.
Qed.
(** A count without repetitions is the size of the set of IDs. *)
Lemma count_ids {A} (key : A → string) (l : list A) (P : A → Prop) :
  NoDup (key <$> l) → (∀ x, x ∈ l ↔ P x) →
  ∃ ids : gset string, (∀ id, id ∈ ids ↔ ∃ x, key x = id ∧ P x) ∧ length l = size ids.
Proof.
  intros Hn Hl. exists (list_to_set (key <$> l)). split.
  - intros id. rewrite elem_of_list_to_set, list_elem_of_fmap. setoid_rewrite Hl. naive_solver.
  - by rewrite size_list_to_set, length_fmap.
Qed.
Lemma count_found cardType status : memory_sound → ∃ ids : gset string,
  (∀ id, id ∈ ids ↔ ∃ card, CardID card = id ∧ latest_card cardType status card) ∧
  length (MemoryTypes.Cards (found rig e cardType status)) = size ids.
Proof.
  intros Hm. apply count_ids; [|by intros card; apply found_card_spec].
  destruct Hm as [Hs Hr]. by apply MemoryStore.Query_cards_NoDup.
Qed.
Lemma count_edges edgeType : memory_sound → ∃ ids : gset string,
  (∀ id, id ∈ ids ↔ ∃ edge, MemoryTypes.EdgeID edge = id ∧
     MemoryStore.edges (memory_of e) !! MemoryTypes.EdgeID edge = Some edge ∧ edge_typed edgeType edge = true) ∧
  length (filter (λ edge, edge_typed edgeType edge = true) (MemoryTypes.Edges (found rig e "" ""))) = size ids.
Proof.
  intros Hm. apply count_ids.
  - destruct Hm as [Hs Hr]. unfold found. rewrite MemoryStore.Query_scan by done. cbn [MemoryTypes.Edges].
    match goal with |- context [MemoryStore.collectEdgesForCards _ ?ids] =>
      pose proof (proj1 (MemoryStore.collectEdges_exact (memory_of e) ids Hs)) as Hn end.
    eapply sublist_NoDup; [exact Hn|]. apply fmap_sublist, sublist_filter.
  - intros edge. rewrite list_elem_of_filter, found_edge_spec by done. tauto.
Qed.

(** The cards an assertion on one durable card may be about. *)
Definition candidate (a : Assertion) (card : Card) : Prop :=
  latest_card (TrimSpace (as_Field a)) "" card ∧
  (TrimSpace (as_Contains a) = "" ∨ content_contains (TrimSpace (as_Contains a)) card = true).
(** What each of them asks of its card. *)
Definition card_conditions (a : Assertion) : list (string * (Card → bool)) :=
  [(AssertDurableCardStatus, λ card, bool_decide (MemoryTypes.Status card = Equals a));
   (AssertDurableCardConfidenceRange, λ card,
      confidenceInRange (MemoryTypes.Confidence (MemoryTypes.card_Provenance card)) (MinConfidence a) (MaxConfidence a));
   (AssertDurableCardScope, λ card, bool_decide (cardScope card = TrimSpace (Equals a)));
   (AssertDurableCardSupersedes, λ card, bool_decide (TrimSpace (MemoryTypes.Supersedes card) = TrimSpace (Equals a)));
   (AssertDurableCardVersionEquals, λ card, MemoryTypes.Version card =? Expected a);
   (AssertDurableCardVersionAtLeast, λ card, Min a <=? MemoryTypes.Version card);
   (AssertDurableCardActivationRange, λ card,
      confidenceInRange (MemoryTypes.Score (MemoryTypes.Activation card)) (MinConfidence a) (MaxConfidence a))].

(** The card judged is one of the candidates, whenever there is one. *)
Lemma matching_card a : memory_sound →
  match findMatchingCard (typed_cards rig e a) (as_Contains a) with
  | Some card => candidate a card
  | None => ¬ ∃ card, candidate a card
  end.
Proof.
  intros Hm. unfold findMatchingCard, candidate, typed_cards. case_decide as Hb.
  - destruct (MemoryTypes.Cards (found rig e (TrimSpace (as_Field a)) "")) as [|card cards] eqn:E; cbn [head].
    + intros (card & [H _]). apply (found_card_spec _ _ _ Hm) in H. rewrite E in H. by apply elem_of_nil in H.
    + split; [|by left]. apply (found_card_spec _ _ _ Hm). rewrite E. left.
  - destruct (List.find _ _) as [card|] eqn:E.
    + apply List.find_some in E as [Hin%list_elem_of_In Hc]. split; [|by right]. by apply (found_card_spec _ _ _ Hm).
    + intros (card & [H [Hn|Hc]]); [done|]. apply (found_card_spec _ _ _ Hm), list_elem_of_In in H.
      pose proof (List.find_none _ _ E _ H). congruence.
Qed.
Lemma on_card_verdict a w r (cond : Card → bool) yes no : memory_sound →
  on_card rig (λ a card, verdict rig a (cond card) (yes card) (no card)) a e w = (Ok r, e, w) →
  (ar_Passed r = true → ∃ card, candidate a card ∧ cond card = true) ∧
  ((∃ card, candidate a card) → (∀ card, candidate a card → cond card = true) → ar_Passed r = true).
Proof.
  intros Hm. pose proof (matching_card a Hm) as H. unfold on_card. rewrite bind_eq. cbn [get].
  destruct (findMatchingCard _ _) as [card|]; intros [= <-].
  - unfold verdict. split.
    + destruct (cond card) eqn:E; [|done]. by exists card.
    + intros _ Hall. by rewrite (Hall card H).
  - split; [done|]. intros Hc. by destruct H.
Qed.
#[local] Ltac judge_of E H := unfold evaluateAssertion in E; rewrite H in E.

(** C35. Assertions on the memory mean what they say, each of the eighteen
    types.  In a well-formed memory, whatever order maps are visited in: a card
    or a procedure is found exactly if the latest version of some card of the
    type holds the text (a step: in one of the fields of an active procedure);
    a count is the number of such cards, active procedures or edges; an edge is
    found exactly if the memory has it; recall contains a text exactly if a hit
    or its card does, and does not contain it exactly if not.  The seven types
    on one durable card (status, scope, version and so on) judge a card of the
    type that holds the text: they pass only if some such card is as asked, and
    they do pass if there is one and all are (with several that differ, which
    one is judged depends on the order). *)
Theorem memory_verdicts_exact a w r : memory_sound → evaluateAssertion rig runtimeRoot a e w = (Ok r, e, w) →
  (as_Type a ∈ [AssertMemoryCardContains; AssertDurableCardContains] →
     (ar_Passed r = true ↔ ∃ card, latest_card (TrimSpace (as_Field a)) "" card ∧ content_contains (as_Contains a) card = true)) ∧
  (as_Type a = AssertProcedureContains →
     (ar_Passed r = true ↔ ∃ card, latest_card "procedure" MemoryTypes.CardStatusActive card ∧ content_contains (as_Contains a) card = true)) ∧
  (as_Type a = AssertProcedureStepContains →
     (ar_Passed r = true ↔ ∃ card text, latest_card "procedure" MemoryTypes.CardStatusActive card ∧
        text ∈ procedureFields card ∧ Contains text (as_Contains a) = true)) ∧
  (as_Type a ∈ [AssertMemoryCardCount; AssertDurableCardCount] →
     ∃ ids : gset string, (∀ id, id ∈ ids ↔ ∃ card, CardID card = id ∧ latest_card (TrimSpace (as_Field a)) "" card) ∧
       (ar_Passed r = true ↔ counted a (Z.of_nat (size ids)))) ∧
  (as_Type a = AssertProcedureCount →
     ∃ ids : gset string, (∀ id, id ∈ ids ↔ ∃ card, CardID card = id ∧ latest_card "procedure" MemoryTypes.CardStatusActive card) ∧
       (ar_Passed r = true ↔ counted a (Z.of_nat (size ids)))) ∧
  (as_Type a = AssertEdgeCount →
     ∃ ids : gset string, (∀ id, id ∈ ids ↔ ∃ edge, MemoryTypes.EdgeID edge = id ∧
         MemoryStore.edges (memory_of e) !! MemoryTypes.EdgeID edge = Some edge ∧ edge_typed (TrimSpace (as_Field a)) edge = true) ∧
       (ar_Passed r = true ↔ counted a (Z.of_nat (size ids)))) ∧
  (as_Type a = AssertEdgeExists →
     (ar_Passed r = true ↔ ∃ edge, MemoryStore.edges (memory_of e) !! MemoryTypes.EdgeID edge = Some edge ∧
        edge_matches (TrimSpace (as_Field a)) (TrimSpace (as_Contains a)) edge = true)) ∧
  (as_Type a = AssertRecallContains → (ar_Passed r = true ↔ text_recalled a)) ∧
  (as_Type a = AssertRecallNotContains → (ar_Passed r = true ↔ ¬ text_recalled a)) ∧
  (∀ cond, (as_Type a, cond) ∈ card_conditions a →
     (ar_Passed r = true → ∃ card, candidate a card ∧ cond card = true) ∧
     ((∃ card, candidate a card) → (∀ card, candidate a card → cond card = true) → ar_Passed r = true)).
Proof.
  intros Hm E. split_and!.
  - intros [H|[H|[]%elem_of_nil]%elem_of_cons]%elem_of_cons.
    all: judge_of E H; injection E as <-; rewrite find_verdict; setoid_rewrite found_card_spec; done.
  - intros H. judge_of E H. injection E as <-. rewrite find_verdict. by setoid_rewrite found_card_spec.
  - intros H. judge_of E H. injection E as <-. rewrite find_verdict. setoid_rewrite found_card_spec; [|done].
    setoid_rewrite existsb_exists. setoid_rewrite <- list_elem_of_In. naive_solver.
  - destruct (count_found (TrimSpace (as_Field a)) "" Hm) as (ids & Hids & Hsize). intros H. exists ids. split; [exact Hids|].
    rewrite <- Hsize. revert H. intros [H|[H|[]%elem_of_nil]%elem_of_cons]%elem_of_cons.
    all: judge_of E H; injection E as <-; apply count_verdict.
  - destruct (count_found "procedure" MemoryTypes.CardStatusActive Hm) as (ids & Hids & Hsize). intros H. exists ids.
    split; [exact Hids|]. rewrite <- Hsize. judge_of E H. injection E as <-. apply count_verdict.
  - destruct (count_edges (TrimSpace (as_Field a)) Hm) as (ids & Hids & Hsize). intros H. exists ids.
    split; [exact Hids|]. rewrite <- Hsize. judge_of E H. injection E as <-. apply count_verdict.
  - intros H. judge_of E H. injection E as <-. rewrite find_verdict. by setoid_rewrite found_edge_spec.
  - intros H. judge_of E H. apply (recalled_run a w r (λ place, match place with Some (place, cardID) => passAssertion rig a _ | None => failAssertion rig a _ end)) in E
      as ([[place id]|] & -> & <-); cbn; split; done || by intros [? ?].
  - intros H. judge_of E H. apply (recalled_run a w r (λ place, match place with Some (place, cardID) => failAssertion rig a _ | None => passAssertion rig a _ end)) in E
      as ([[place id]|] & -> & <-); cbn; split; first [done|by intros [? ?]|by intros H'; exfalso; apply H'; eexists].
  - intros cond H. unfold card_conditions in H. rewrite !elem_of_cons, elem_of_nil in H.
    destruct H as [[= H ->]|[[= H ->]|[[= H ->]|[[= H ->]|[[= H ->]|[[= H ->]|[[= H ->]|[]]]]]]]].
    all: judge_of E H; eapply on_card_verdict in E; [exact E|exact Hm].
Qed.
End meaning.

#[local] Existing Instances GoStrings.caseless_tables SkillMemory.opaque_urls Recall.no_digits.
Definition weather_assertion : Assertion :=
  mkAssertion AssertMemoryCardContains "" "" " web_result " "" "" "" "Weather" "" "" 0 0 f0 f0.
Definition weather_verdict : AssertionResult :=
  passAssertion bench_rig weather_assertion "memory card web:2 contained Weather".
Lemma memory_verdicts_exact_witness :
  evaluateAssertion bench_rig "/run" weather_assertion (bench_env Recall.web_store) world0 = (Ok weather_verdict, bench_env Recall.web_store, world0) ∧
  ∃ card, latest_card (bench_env Recall.web_store) "web_result" "" card ∧ content_contains "Weather" card = true.
Proof.
  assert (evaluateAssertion bench_rig "/run" weather_assertion (bench_env Recall.web_store) world0
    = (Ok weather_verdict, bench_env Recall.web_store, world0)) as E.
  { destruct (proj1 (evaluateAssertion_well bench_rig "/run" weather_assertion) (bench_env Recall.web_store) world0) as [r Hr].
    rewrite Hr. replace r with (evaluateAssertion bench_rig "/run" weather_assertion (bench_env Recall.web_store) world0).1.1 by (by rewrite Hr).
    replace ((evaluateAssertion bench_rig "/run" weather_assertion (bench_env Recall.web_store) world0).1.1) with (Ok weather_verdict);
      [reflexivity|]. vm_compute. reflexivity. }
  split; [exact E|].
  apply (proj1 (memory_verdicts_exact bench_rig "/run" (bench_env Recall.web_store) weather_assertion world0 weather_verdict
    (conj Recall.web_store_wf (range_of_elements _)) E)); [left|reflexivity].
Defined.
