(* ===== verification/HarnessRunner.v ===== *)
(** * Running a scenario ([harness/runner.go])

    [RunScenario]: a fresh runtime root, the steps in order up to the first
    error, the assertions if there was none, and a report on disk. *)
From S2P Require Import Prelude GoStrings GoNum GoText StatusDirs Reading Harness HarnessSteps HarnessFacts HarnessAssert.
From S2P Require FsAccess GoTime MemoryStore Governance Runtime Approval Execution Recall ChatStore ChatText ChatService.
From S2P Require SkillText SkillMemory Skills MemScheduler SkillRunner SkillSafety RootGate AgentLoop Assistant HarnessFixtures HarnessDiff HarnessRollup HarnessBaseline.
Import Assistant(State, Durable, d_runtime, d_skill_files, d_skill_state).
Import FsAccess(Join2).
Open Scope Z_scope.

(** The disk of the harness, and what the stores of the run's root hold. *)
Record Site := mkSite { disk : Disk; root : Durable }.
Definition on_disk {A} (m : M Disk A) : M Site A := λ s w, match m (disk s) w with (r, x, w') => (r, mkSite x (root s), w') end.
Definition on_root {A} (m : M Durable A) : M Site A := λ s w, match m (root s) w with (r, x, w') => (r, mkSite (disk s) x, w') end.

Definition runtime_dirs (root : string) : list string :=
  let below area names := Join2 (Join2 root area) <$> names in
  [Join2 root "state"]
  ++ below "tasks" [Runtime.TaskStateInbox; Runtime.TaskStatePlanned; Runtime.TaskStateActive; Runtime.TaskStateBlocked;
       Runtime.TaskStateAwaitingApproval; Runtime.TaskStateDone; Runtime.TaskStateFailed; Runtime.TaskStateArchived]
  ++ below "actions" [Execution.ActionStatusPending; Execution.ActionStatusRunning; Execution.ActionStatusCompleted; Execution.ActionStatusFailed]
  ++ below "approvals" [Approval.StatusPending; Approval.StatusApproved; Approval.StatusDenied; Approval.StatusConsumed]
  ++ below "artifacts" ["reports"] ++ below "observations" ["filesystem"; "os"] ++ below "sessions" ["history"; "archive"]
  ++ [Join2 root "workspace"].
Definition harness_state : Runtime.RuntimeState :=
  Runtime.mkRuntimeState "harness-runtime" "harness-user" None "idle" None "user" zeroTime.
(** [time.Format] with the layout 20060102T150405Z *)
Definition stamp (t : Time) : string :=
  let secs := t / Second in
  let '(y, m, d) := GoTime.civil_of_days (secs / 86400) in
  let s := secs mod 86400 in
  GoTime.digits 4 y +:+ GoTime.digits 2 m +:+ GoTime.digits 2 d +:+ "T"
  +:+ GoTime.digits 2 (s / 3600) +:+ GoTime.digits 2 (s / 60 mod 60) +:+ GoTime.digits 2 (s mod 60) +:+ "Z".

Section runner.
Context {tables : UnicodeTables} {url : SkillText.UrlPackage} {digits : Recall.FloatFormat}.
Variable rig : Rig.
Abbreviation h := (host rig).

Definition bootstrapRuntimeRoot (root : string) : M Site unit :=
  _ ← forM (λ dir, on_disk (MkdirAll h dir)) (runtime_dirs root);
  on_root (Assistant.on_tasks (WriteFile Runtime.state_dir tt harness_state)).
Definition make_places (runDir runtimeRoot : string) : M Site unit :=
  _ ← bootstrapRuntimeRoot runtimeRoot;
  _ ← on_disk (MkdirAll h runDir);
  on_disk (MkdirAll h (Join2 runtimeRoot "workspace")).
Definition newRuntimeEnv (runDir runtimeRoot : string) (scenario : Scenario) : M Site (string + Env) :=
  res ← try (make_places runDir runtimeRoot);
  match res with
  | Err e => mret (inl (error_text rig e))
  | Ok _ =>
      s ← get;
      match HarnessFixtures.loadFixtureConnectors h (parsers rig) (disk s) scenario with
      | inl err => mret (inl err)
      | inr c =>
          sk ← load_registry rig runtimeRoot (d_skill_files (root s)) (d_skill_state (root s));
          mret (inr (mkEnv (Assistant.assembled_state (root s) MemoryStore.NewStore (d_runtime (root s)) (10 * Minute) sk) c "" "" ∅))
      end
  end.

(** What a run left, written over what there was. *)
Definition commit (files : gmap string string) (d : Disk) : Disk :=
  list_to_map ((λ kv, (FsAccess.Abs (Harness.env h) kv.1, Bytes kv.2)) <$> map_to_list files) ∪ d.
Definition play {A} (env : Env) (m : M Env A) : M Site A := λ s w,
  match m env w with
  | (r, env', w') => (r, mkSite (commit (Assistant.d_files (Assistant.durable (state env'))) (disk s)) (Assistant.durable (state env')), w')
  end.

Definition without_dir (sc : Scenario) : Scenario :=
  mkScenario (sc_Name sc) (sc_Description sc) (Lane sc) (Tags sc) (sc_Fixtures sc) (Steps sc) (Assertions sc) "".
Definition writeRunArtifacts (runDir : string) (scenario : Scenario) (report : RunReport) : M Disk unit :=
  _ ← MkdirAll h runDir;
  _ ← HarnessRollup.writeJSON h (Join2 runDir "scenario.json") (ScenarioDoc (without_dir scenario));
  HarnessRollup.writeJSON h (Join2 runDir "report.json") (ReportDoc report).

(** The steps, then the assertions unless a step failed. *)
Record Run := mkRun { run_reports : list StepReport; run_error : option string; run_results : list AssertionResult; run_passed : bool }.
Definition run_all (scenario : Scenario) (runtimeRoot : string) (d : Disk) : M Env Run :=
  '(reports, err) ← run_steps rig scenario runtimeRoot d (Steps scenario);
  match err with
  | Some err => mret (mkRun reports (Some err) [] false)
  | None => '(results, passed) ← evaluateAssertions rig runtimeRoot (Assertions scenario); mret (mkRun reports None results passed)
  end.
Definition run_report (scenario : Scenario) (runDir runtimeRoot : string) (started ended : Time) (r : Run) : RunReport :=
  mkRunReport (sc_Name scenario) (sc_Description scenario) (Lane scenario) (Tags scenario) (sc_Dir scenario) runDir runtimeRoot
    started ended (run_passed r) (run_reports r) (run_results r) (default "" (run_error r)).
Definition run_dir (scenario : Scenario) (outRoot : string) (started : Time) : string :=
  Join2 outRoot (stamp started +:+ "-" +:+ HarnessRollup.slugify (sc_Name scenario)).
(** The error of a run: of its first failed step, or of its assertions. *)
Definition run_outcome (scenario : Scenario) (r : Run) : option string :=
  match run_error r with
  | Some err => Some err
  | None => if run_passed r then None else Some ("scenario " +:+ Quote h (sc_Name scenario) +:+ " failed one or more assertions")
  end.
(** From the environment, or the error of its setup, to the report. *)
Definition complete_run (scenario : Scenario) (runDir runtimeRoot : string) (started : Time) (built : string + Env)
    : M Site (RunReport * option string) :=
  s ← get;
  r ← (match built with
       | inl err => mret (mkRun [] (Some err) [] false)
       | inr env => play env (run_all scenario runtimeRoot (disk s))
       end);
  ended ← now;
  let report := run_report scenario runDir runtimeRoot started ended r in
  _ ← try (on_disk (writeRunArtifacts runDir scenario report));
  mret (report, run_outcome scenario r).
Definition RunScenario (scenario : Scenario) (outRoot : string) : M Site (RunReport * option string) :=
  started ← now;
  let runDir := run_dir scenario outRoot started in
  let runtimeRoot := Join2 runDir "runtime" in
  built ← newRuntimeEnv runDir runtimeRoot scenario;
  complete_run scenario runDir runtimeRoot started built.
End runner.

(** ** What a run reports *)

Section reports.
Context {tables : UnicodeTables} {url : SkillText.UrlPackage} {digits : Recall.FloatFormat}.
Variable rig : Rig.

(** One step: the handler of its type answers, from a blank report, with a
    report and perhaps an error.  The report, dated and with the text of the
    error, is remembered under the identifier of the step. *)
Definition step_ran scenario root d (step : Step) (e : Env) (w : World) (p : StepReport) (err : option string) (e' : Env) (w' : World) : Prop :=
  ∃ answer e1 w1,
    executeStep rig scenario root d step (blank_report step (clock w (tick w))) e (advance w) = (Ok (answer, err), e1, w1) ∧
    p = with_end (clock w1 (tick w1)) (default "" err) answer ∧
    sr_ID p = st_ID step ∧ sr_Type p = st_Type step ∧ sr_Error p = default "" err ∧
    e' = mkEnv (state e1) (connectors e1) (lastTaskID e1) (lastApprovalID e1) (<[st_ID step := p]> (stepResults e1)) ∧ w' = advance w1.
(** The steps one after the other, each from what the ones before it left,
    all of them or up to the first that errs. *)
Inductive steps_ran scenario root d : list Step → Env → World → list StepReport → option string → Env → World → Prop :=
  | all_ran e w : steps_ran scenario root d [] e w [] None e w
  | one_erred step steps e w p err e' w' : step_ran scenario root d step e w p (Some err) e' w' →
      steps_ran scenario root d (step :: steps) e w [p] (Some err) e' w'
  | one_ran step steps e w p e1 w1 ps err e' w' : step_ran scenario root d step e w p None e1 w1 →
      steps_ran scenario root d steps e1 w1 ps err e' w' → steps_ran scenario root d (step :: steps) e w (p :: ps) err e' w'.
Lemma run_step_ran scenario root d step e w p err e' w' :
  run_step rig scenario root d step e w = (Ok (p, err), e', w') → step_ran scenario root d step e w p err e' w'.
Proof.
  unfold run_step, step_ran. rewrite bind_eq. cbn [now]. rewrite bind_eq.
  pose proof (executeStep_same rig scenario root d step (blank_report step (clock w (tick w))) e (advance w)) as H.
  destruct (executeStep _ _ _ _ _ _ _ _) as [[[[p1 err1]|] e1] w1]; [|done]. destruct H as (H1 & H2 & _). cbn in H1, H2.
  rewrite bind_eq. cbn [now]. rewrite bind_eq. cbn [remember_step modify]. cbn [mret M_ret].
  intros [= <- <- <- <-]. exists p1, e1, w1. cbn. rewrite H1. by split_and!.
Qed.
Lemma run_steps_ran scenario root d steps : ∀ e w reports err e' w',
  run_steps rig scenario root d steps e w = (Ok (reports, err), e', w') → steps_ran scenario root d steps e w reports err e' w'.
Proof.
  induction steps as [|step steps IH]; intros e w reports err e' w'; cbn [run_steps].
  { intros [= <- <- <- <-]. constructor. }
  rewrite bind_eq. destruct (run_step _ _ _ _ _ e w) as [[[[p err1]|] e1] w1] eqn:E1; [|done]. cbv beta iota.
  apply run_step_ran in E1. destruct err1 as [err1|].
  - intros [= <- <- <- <-]. by constructor.
  - rewrite bind_eq. destruct (run_steps _ _ _ _ steps e1 w1) as [[[[ps err2]|] e2] w2] eqn:E2; [|done]. cbv beta iota.
    intros [= <- <- <- <-]. eapply one_ran; [exact E1|]. by apply IH.
Qed.
(** The verdicts: each assertion on its own, on what the steps left. *)
Definition judged (root : string) (e : Env) (w : World) (a : Assertion) (v : AssertionResult) : Prop :=
  evaluateAssertion rig root a e w = (Ok v, e, w) ∧ ar_Type v = as_Type a ∧ ar_Step v = as_Step a.
(** What a run of a scenario that was set up comes to. *)
Definition run_went scenario root d (e : Env) (w : World) (r : Run) : Prop := ∃ e' w',
  steps_ran scenario root d (Steps scenario) e w (run_reports r) (run_error r) e' w' ∧
  match run_error r with
  | Some _ => run_results r = [] ∧ run_passed r = false
  | None => Forall2 (judged root e' w') (Assertions scenario) (run_results r) ∧
      (run_passed r = true ↔ Forall (λ v, ar_Passed v = true) (run_results r))
  end.
Lemma run_all_went scenario root d e w r e' w' :
  run_all rig scenario root d e w = (Ok r, e', w') → run_went scenario root d e w r.
Proof.
  unfold run_all. rewrite bind_eq. destruct (run_steps _ _ _ _ _ e w) as [[[[reports err]|] e1] w1] eqn:E; [|done]. cbv beta iota.
  apply run_steps_ran in E. destruct err as [err|]; [intros [= <- _ _]; by exists e1, w1|]. rewrite bind_eq.
  unfold evaluateAssertions. change (λ acc a, r ← evaluateAssertion rig root a; mret (acc ++ [r])) with (judge_next rig root). rewrite bind_eq.
  destruct (evaluate_each rig root (Assertions scenario) [] e1 w1) as [[err ->]|(rs & -> & Hf)]; [done|]. cbv beta iota.
  intros [= <- _ _]. exists e1, w1. split; [exact E|]. cbn [run_error run_results run_passed]. split.
  - eapply Forall2_impl; [exact Hf|]. by intros a v [(H1 & H2 & _) H3].
  - rewrite forallb_forall, Forall_forall. by setoid_rewrite list_elem_of_In.
Qed.
Lemma play_run {A} env (m : M Env A) s w a s' w' : play rig env m s w = (Ok a, s', w') → ∃ env', m env w = (Ok a, env', w').
Proof. unfold play. destruct (m env w) as [[[x|] env'] w1]; [|done]. intros [= <- _ <-]. by exists env'. Qed.
(** What a scenario whose environment was or was not set up comes to. *)
Definition completed scenario root (s : Site) (w : World) (built : string + Env) (r : Run) : Prop :=
  match built with
  | inl setup => r = mkRun [] (Some setup) [] false
  | inr env => run_went scenario root (disk s) env w r
  end.
Lemma complete_run_went scenario runDir root started built s w report err s' w' :
  complete_run rig scenario runDir root started built s w = (Ok (report, err), s', w') →
  ∃ r ended, report = run_report scenario runDir root started ended r ∧ err = run_outcome rig scenario r ∧
    completed scenario root s w built r.
Proof.
  unfold complete_run. rewrite bind_eq. cbn [get]. rewrite bind_eq.
  set (start := match built with inl e => _ | inr env => _ end). destruct (start s w) as [[[r|] s2] w2] eqn:E; [|done].
  rewrite bind_eq. cbn [now]. rewrite bind_eq. unfold try. destruct (on_disk _ s2 _) as [[x s3] w3].
  intros H. apply (f_equal (λ x : result (RunReport * option string) * Site * World, match x with (Ok a, _, _) => Some a | _ => None end)) in H.
  cbv beta iota in H. apply (inj Some) in H. injection H as <- <-. eexists r, _. split; [reflexivity|]. split; [reflexivity|].
  destruct built as [e|env]; [by injection E|]. apply play_run in E as [env' E]. by apply run_all_went in E.
Qed.

(** C34. A run does what the scenario says, and its report tells it.  When
    [RunScenario] returns, which it does unless the program panics: if the
    environment could not be set up the report has that error, is not passed
    and holds neither steps nor verdicts.  Otherwise the steps were executed
    one after the other, each from what the ones before it left, all of them
    unless one erred, and the report has exactly their reports.  If one erred,
    it is the last reported, its error is the error of the run and of the
    report, the report is not passed and no assertion is judged.  If none
    erred, the report has the verdict on every assertion, in order, on what
    the steps left; it is passed exactly if all of them are; and the run has
    no error exactly if the report is passed. *)
Theorem RunScenario_reports scenario outRoot s w report err s' w' :
  RunScenario rig scenario outRoot s w = (Ok (report, err), s', w') →
  let runDir := run_dir scenario outRoot (clock w (tick w)) in let root := Join2 runDir "runtime" in
  match newRuntimeEnv rig runDir root scenario s (advance w) with
  | (Err _, _, _) => False
  | (Ok (inl setup), _, _) => StepReports report = [] ∧ AssertionResults report = [] ∧ Passed report = false ∧
      rp_Error report = setup ∧ err = Some setup
  | (Ok (inr env), s1, w1) => ∃ failure env' w2,
      steps_ran scenario root (disk s1) (Steps scenario) env w1 (StepReports report) failure env' w2 ∧
      match failure with
      | Some e => AssertionResults report = [] ∧ Passed report = false ∧ rp_Error report = e ∧ err = Some e
      | None => Forall2 (judged root env' w2) (Assertions scenario) (AssertionResults report) ∧
          (Passed report = true ↔ Forall (λ v, ar_Passed v = true) (AssertionResults report)) ∧
          (err = None ↔ Passed report = true) ∧ rp_Error report = ""
      end
  end.
Proof.
  unfold RunScenario. rewrite bind_eq. cbn [now]. rewrite bind_eq. cbv zeta.
  destruct (newRuntimeEnv _ _ _ _ s (advance w)) as [[[built|] s1] w1]; [|done].
  intros (r & ended & -> & -> & H)%complete_run_went.
  cbn [run_report Passed rp_Error StepReports AssertionResults]. destruct built as [setup|env]; cbn [completed] in H; [by subst r|].
  destruct H as (env' & w2 & Hsteps & H). exists (run_error r), env', w2. split; [exact Hsteps|].
  unfold run_outcome. destruct (run_error r) as [e|]; [by destruct H as [-> ->]|]. destruct H as [Hf Hp].
  split_and!; [exact Hf|exact Hp| |done]. by destruct (run_passed r).
Qed.
End reports.

(** ** What a run keeps *)

Section kept.
Context {tables : UnicodeTables} {url : SkillText.UrlPackage} {digits : Recall.FloatFormat}.
Variables (rig : Rig) (runtimeRoot : string).

(** A run with a log, and one for the conversation, keep what runs keep. *)
Lemma logged_keeps (I : SkillRunner.System (list SkillRunner.ProgressEvent) → Prop) (J : State → Prop) {A}
    (m : M (SkillRunner.System (list SkillRunner.ProgressEvent)) A) :
  (∀ s, J s → I (let x := Assistant.to_runner s in SkillRunner.mkSystem (SkillRunner.stores x) (SkillRunner.machine x) (SkillRunner.skills x) [])) →
  (∀ y a, I y → J (Assistant.of_runner (SkillRunner.mkSystem (SkillRunner.stores y) (SkillRunner.machine y) (SkillRunner.skills y) a))) →
  preserves I m → preserves J (on_logged m).
Proof.
  intros H1 H2 Hm s w Hs. unfold on_logged. specialize (Hm _ w (H1 s Hs)). cbv zeta in Hm. cbv zeta.
  destruct (m _ w) as [[r y] w']. by apply H2.
Qed.
Lemma chat_run_keeps (J : State → Prop) r id cb :
  preserves (J ∘ Assistant.of_runner) (SkillRunner.RunTaskWithProgress (Assistant.with_notify r cb) id true) →
  preserves J (Assistant.run_for_chat r id cb).
Proof.
  intros H. unfold Assistant.run_for_chat. apply preserves_bind; [by apply Assistant.on_runner_preserves|]. intros; apply preserves_ret.
Qed.

Lemma rootless_services : services_keep rig runtimeRoot Assistant.back_rootless.
Proof.
  split.
  - intros A m s w Hs. unfold ChatService.with_runtime. by destruct (m _ w) as [[? ?] ?].
  - intros A m _ s w Hs. unfold ChatService.with_memory. by destruct (m _ w) as [[? ?] ?].
  - intros. apply Assistant.on_runner_preserves. apply RootGate.rootless_stores.
  - intros c id. apply (logged_keeps RootGate.machine_rootless); [done|done|]. apply RootGate.RunTask_rootless; [|done].
    intros ev. by apply preserves_modify.
  - intros c id cb Hcb. apply chat_run_keeps.
    apply (RootGate.RunTask_rootless (Assistant.with_notify (harness_runner rig runtimeRoot c) cb)); [|done].
    intros ev. exact (Assistant.on_state_preserves _ _ (Hcb _)).
  - done.
Qed.
Definition back_wf (b : ChatService.Backend Assistant.Machine) : Prop := MemoryStore.store_wf (ChatService.memory b).
Lemma memory_services : services_keep rig runtimeRoot back_wf.
Proof.
  split.
  - intros A m s w Hs. unfold ChatService.with_runtime. by destruct (m _ w) as [[? ?] ?].
  - intros A m Hm s w Hs. unfold ChatService.with_memory. specialize (Hm _ w Hs). by destruct (m _ w) as [[? ?] ?].
  - intros. apply Assistant.on_runner_preserves. intros s w Hs. unfold SkillRunner.with_stores.
    pose proof (SkillSafety.scheduler_evaluate config true o1 o2 o3 reason (SkillRunner.stores s) w Hs) as H.
    by destruct (MemScheduler.EvaluateAndSchedule _ _ _ _ _ _ _ _) as [[? ?] ?].
  - intros c id. apply (logged_keeps (SkillSafety.memory_ok (λ _, True))); [by intros s Hs|by intros y a [H _]|].
    apply SkillSafety.RunTask_memory. intros ev. by apply preserves_modify.
  - intros c id cb Hcb. apply chat_run_keeps. intros s w Hs.
    assert (∀ ev, preserves (SkillSafety.memory_ok (λ _, True)) (SkillRunner.notify (Assistant.with_notify (harness_runner rig runtimeRoot c) cb) ev)) as Hn.
    { intros ev y w1 [Hy _]. pose proof (Assistant.on_state_preserves _ _ (Hcb (ChatText.mkProgress (SkillRunner.Stage ev) (SkillRunner.Message ev))) y w1) as H.
      cbn [Assistant.with_notify SkillRunner.retarget SkillRunner.notify]. destruct (Assistant.on_state _ y w1) as [[? y'] ?]. split; [by apply H|done]. }
    pose proof (SkillSafety.RunTask_memory _ (λ _, True) id true Hn s w (conj Hs I)) as H.
    destruct (SkillRunner.RunTaskWithProgress _ _ _ s w) as [[? ?] ?]. exact (proj1 H).
  - intros s sk _. exact MemoryStore.NewStore_wf.
Qed.

Lemma approvals_fine J step : st_Type step ≠ StepTypeApprovePending → approvals_kept J step.
Proof. by left. Qed.
Lemma memory_approvals step : approvals_kept back_wf step.
Proof.
  right. intros id by_. apply Assistant.on_runner_preserves. intros s w Hs. unfold SkillRunner.with_approvals, SkillRunner.with_machine.
  by destruct (Execution.with_approvals _ _ _) as [[? ?] ?].
Qed.
Lemma run_all_keeps J scenario d : services_keep rig runtimeRoot J → Forall (approvals_kept J) (Steps scenario) →
  preserves (kept J) (run_all rig scenario runtimeRoot d).
Proof.
  intros HJ Ha. unfold run_all. apply preserves_bind; [by apply run_steps_keeps|]. intros [reports [err|]]; [apply preserves_ret|].
  apply preserves_bind; [|intros []; apply preserves_ret]. unfold evaluateAssertions. apply preserves_bind; [|intros; apply preserves_ret].
  apply preserves_foldM. intros acc a _. apply preserves_bind; [|intros; apply preserves_ret].
  apply reads_preserves. apply evaluateAssertion_well.
Qed.
End kept.

Section scenarios.
Context {tables : UnicodeTables} {url : SkillText.UrlPackage} {digits : Recall.FloatFormat}.
Variable rig : Rig.

(** The records of actions and approvals below a runtime root. *)
Definition records (d : Durable) : Execution.ExecState :=
  Execution.mkExecState (Assistant.d_actions d) (Approval.mkStore (Assistant.d_approvals d) (10 * Minute)) (Assistant.d_files d) [] [].
Definition same_records (d0 : Durable) (s : Site) : Prop :=
  Assistant.d_actions (root s) = Assistant.d_actions d0 ∧ Assistant.d_approvals (root s) = Assistant.d_approvals d0.
Lemma records_disk d0 {A} (m : M Disk A) : preserves (same_records d0) (on_disk m).
Proof. intros s w Hs. unfold on_disk. by destruct (m (disk s) w) as [[? ?] ?]. Qed.
Lemma places_records d0 runDir runtimeRoot : preserves (same_records d0) (make_places rig runDir runtimeRoot).
Proof.
  unfold make_places, bootstrapRuntimeRoot. apply preserves_bind; [|intros; apply preserves_bind; [apply records_disk|intros; apply records_disk]].
  apply preserves_bind; [apply preserves_forM; intros; apply records_disk|]. intros _ s w Hs. unfold on_root, Assistant.on_tasks.
  by destruct (WriteFile _ _ _ _ _) as [[? ?] ?].
Qed.
Lemma newRuntimeEnv_records runDir runtimeRoot scenario s w res s' w' :
  newRuntimeEnv rig runDir runtimeRoot scenario s w = (res, s', w') →
  same_records (root s) s' ∧
  ∀ env, res = Ok (inr env) → ∃ d rt sk, state env = Assistant.assembled_state d MemoryStore.NewStore rt (10 * Minute) sk ∧
    Assistant.d_actions d = Assistant.d_actions (root s) ∧ Assistant.d_approvals d = Assistant.d_approvals (root s).
Proof.
  unfold newRuntimeEnv. rewrite bind_eq. unfold try. pose proof (places_records (root s) runDir runtimeRoot s w (conj eq_refl eq_refl)) as H.
  destruct (make_places _ _ _ s w) as [[[[]|err] s1] w1]; [|by intros [= <- <- <-]]. rewrite bind_eq. cbn [get].
  destruct (HarnessFixtures.loadFixtureConnectors _ _ _ _) as [err|c]; [by intros [= <- <- <-]|]. rewrite bind_eq. unfold load_registry.
  destruct (Skills.NewRunner _ _ _ _ _ _ _ _) as [[[sk|err] ?] w2]; [|by intros [= <- <- <-]]. cbn [mret M_ret].
  intros E. assert (s1 = s') as <- by (by injection E). split; [exact H|]. intros env ->.
  apply (f_equal (λ x : result (string + Env) * Site * World, match x with (Ok (inr a), _, _) => Some a | _ => None end)) in E.
  cbv beta iota in E. apply (inj Some) in E. subst env. exists (root s1), (d_runtime (root s1)), sk. split; [reflexivity|exact H].
Qed.

Definition site_rootless (s : Site) : Prop := RootGate.rootless (records (root s)).
Lemma rootless_disk {A} (m : M Disk A) : preserves site_rootless (on_disk m).
Proof. intros s w Hs. unfold on_disk. by destruct (m (disk s) w) as [[? ?] ?]. Qed.
Lemma play_rootless {A} env (m : M Env A) : kept Assistant.back_rootless env → preserves (kept Assistant.back_rootless) m →
  preserves site_rootless (play rig env m).
Proof. intros He Hm s w _. unfold play. specialize (Hm env w He). by destruct (m env w) as [[? env'] ?]. Qed.
Lemma assembled_rootless d rt sk : RootGate.rootless (records d) →
  Assistant.back_rootless (ChatService.backend (Assistant.assembled_state d MemoryStore.NewStore rt (10 * Minute) sk)).
Proof. done. Qed.

Lemma complete_rootless scenario runDir runtimeRoot started built :
  (∀ env, built = inr env → kept Assistant.back_rootless env) → (∀ step, step ∈ Steps scenario → st_Type step ≠ StepTypeApprovePending) →
  preserves site_rootless (complete_run rig scenario runDir runtimeRoot started built).
Proof.
  intros Henv Hno. unfold complete_run. apply preserves_bind; [apply preserves_get|intros s2]. apply preserves_bind.
  - destruct built as [err|env]; [apply preserves_ret|]. apply play_rootless; [by apply Henv|].
    apply run_all_keeps; [apply rootless_services|]. apply Forall_forall. intros step Hstep. apply approvals_fine, Hno, Hstep.
  - intros r. apply preserves_bind; [apply preserves_now|intros ended]. apply preserves_bind; [apply preserves_try, rootless_disk|].
    intros; apply preserves_ret.
Qed.

(** Nothing of a scenario acts as root that it does not approve.  If it has no
    step that approves, and the runtime root it is run in held no approved
    request and no action of another profile, for instance because it is new,
    so it does after the run, whatever the steps ask for and whatever fails. *)
Theorem scenario_acts_as_user scenario outRoot s w :
  (∀ step, step ∈ Steps scenario → st_Type step ≠ StepTypeApprovePending) → RootGate.rootless (records (root s)) →
  let d := root (exec (RunScenario rig scenario outRoot) s w) in
  (∀ k r, Assistant.d_actions d !! k = Some (Doc r) → Execution.ExecutionProfile r = "user") ∧
  (∀ k r, Assistant.d_approvals d !! k = Some (Doc r) → Approval.Status r ≠ Approval.StatusApproved).
Proof.
  intros Hno Hs. cbv zeta. enough (RootGate.rootless (records (root (exec (RunScenario rig scenario outRoot) s w)))) as [[_ H1] H2] by done.
  unfold RunScenario, exec. rewrite bind_eq. cbn [now]. rewrite bind_eq.
  destruct (newRuntimeEnv _ _ _ _ s (advance w)) as [[built s1] w1] eqn:E. apply newRuntimeEnv_records in E as [[Ea Ep] Henv].
  assert (site_rootless s1) as Hs1 by (unfold site_rootless, records; by rewrite Ea, Ep).
  destruct built as [built|err]; [|exact Hs1].
  enough (site_rootless (exec (complete_run rig scenario (run_dir scenario outRoot (clock w (tick w)))
    (Join2 (run_dir scenario outRoot (clock w (tick w))) "runtime") (clock w (tick w)) built) s1 w1)) as H
    by (unfold site_rootless, exec in H; exact H).
  apply preserves_exec; [|exact Hs1]. apply complete_rootless; [|exact Hno]. intros env ->.
  destruct (Henv env eq_refl) as (d & rt & sk & Est & Ed & Eap). unfold kept, ChatService.holds. rewrite Est. apply assembled_rootless.
  unfold records. rewrite Ed, Eap. exact Hs.
Qed.
(** The assertions are judged on a sound memory.  The memory of a run is
    well-formed after its setup and after any steps, approvals and restarts
    included, whatever they ask for and whatever fails. *)
Theorem scenario_memory_sound runDir runtimeRoot scenario d steps s w env s' w' w1 :
  newRuntimeEnv rig runDir runtimeRoot scenario s w = (Ok (inr env), s', w') →
  MemoryStore.store_wf (memory_of env) ∧
  MemoryStore.store_wf (memory_of (exec (run_steps rig scenario runtimeRoot d steps) env w1)).
Proof.
  intros E. apply newRuntimeEnv_records in E as [_ Henv]. destruct (Henv env eq_refl) as (d0 & rt & sk & Est & _).
  assert (kept back_wf env) as Hk by (unfold kept, ChatService.holds, back_wf; rewrite Est; exact MemoryStore.NewStore_wf).
  split; [exact Hk|]. apply (preserves_exec (kept back_wf)); [|exact Hk]. apply run_steps_keeps; [apply memory_services|].
  apply Forall_forall. intros step _. apply memory_approvals.
Qed.
End scenarios.

(** ** The directory of a run *)

Section directory.
Context {tables : UnicodeTables} {url : SkillText.UrlPackage} {digits : Recall.FloatFormat}.
Variables (rig : Rig) (outRoot : string).
Hypothesis outRoot_abs : FsAccess.IsAbs outRoot = true.
Abbreviation h := (host rig).
Abbreviation at_ := (HarnessBaseline.at_ outRoot).

Lemma Itoa_name z : FsAccess.no_slash (Itoa z) = true.
Proof.
  unfold Itoa. destruct z as [|p|p]; [done|apply (HarnessBaseline.pretty_N_name (N.pos p))|].
  change (pretty (Z.neg p)) with ("-" +:+ pretty (N.pos p)). by rewrite FsAccess.no_slash_app, HarnessBaseline.pretty_N_name.
Qed.
Lemma digits_name n z : FsAccess.no_slash (GoTime.digits n z) = true.
Proof.
  unfold GoTime.digits. generalize (n - len (Itoa z))%nat. intros k. pose proof (Itoa_name z) as H. revert H. generalize (Itoa z).
  induction k as [|k IH]; intros s Hs; [done|]. cbn. by apply IH.
Qed.
(** The name of the directory of a run. *)
Definition run_name (scenario : Scenario) (started : Time) : string := stamp started +:+ "-" +:+ HarnessRollup.slugify (sc_Name scenario).
Lemma run_name_proper scenario started : FsAccess.proper (run_name scenario started).
Proof.
  apply HarnessBaseline.dashed_proper.
  - unfold stamp. destruct (GoTime.civil_of_days _) as [[y m] dd]. rewrite !FsAccess.no_slash_app, !digits_name. done.
  - apply (HarnessBaseline.slug_proper (sc_Name scenario)).
  - unfold stamp. destruct (GoTime.civil_of_days _) as [[y m] dd]. intros E. apply (f_equal len) in E. rewrite !string_length_app in E. cbn in E. lia.
Qed.
Lemma run_dir_at scenario started : run_dir scenario outRoot started = at_ [run_name scenario started].
Proof. unfold run_dir. apply HarnessBaseline.Join2_below; [done|apply run_name_proper]. Qed.

(** A scenario as loading leaves it. *)
Definition normal (sc : Scenario) : Prop :=
  blank (sc_Name sc) = false ∧ Steps sc ≠ [] ∧ NoDup (st_ID <$> Steps sc) ∧ Forall (λ s, blank (st_ID s) = false) (Steps sc) ∧
  NormalizeLane (Lane sc) = Lane sc ∧ NormalizeTags (Tags sc) = Tags sc.
Lemma number_steps_normal steps : ∀ i seen, NoDup (st_ID <$> steps) → Forall (λ s, blank (st_ID s) = false) steps →
  (∀ s, s ∈ steps → st_ID s ∉ seen) → number_steps i seen steps = inr steps.
Proof.
  induction steps as [|s steps IH]; intros i seen Hn Hb Hs; [done|]. cbn [number_steps]. apply Forall_cons in Hb as [Hb Hb'].
  cbn [fmap list_fmap] in Hn. apply NoDup_cons in Hn as [Hn Hn']. rewrite Hb. rewrite decide_False by (apply Hs; left).
  rewrite IH; [by destruct s|done..|]. intros s' Hs'. rewrite not_elem_of_union, not_elem_of_singleton. split; [|apply Hs; by right].
  intros E. apply Hn. rewrite <- E. by apply list_elem_of_fmap_2.
Qed.
Definition in_dir (sc : Scenario) (dir : string) : Scenario :=
  mkScenario (sc_Name sc) (sc_Description sc) (Lane sc) (Tags sc) (sc_Fixtures sc) (Steps sc) (Assertions sc) dir.

Lemma trimmed_at name e a : plain_byte a = true → TrimSpace (at_ [name; e +:+ String a ""]) = at_ [name; e +:+ String a ""].
Proof.
  intros Ha. unfold HarnessBaseline.at_. change [name; e +:+ String a ""] with ([name] ++ [e +:+ String a ""]). rewrite app_assoc.
  by apply HarnessBaseline.TrimSpace_path.
Qed.
Lemma dir_at name e : Forall FsAccess.proper (HarnessBaseline.base outRoot ++ [name; e]) → FsAccess.Dir (FsAccess.Clean (at_ [name; e])) = at_ [name].
Proof.
  intros Hp. unfold HarnessBaseline.at_. rewrite FsAccess.Clean_render, FsAccess.comps_render by (done || apply FsAccess.IsAbs_render).
  change [name; e] with ([name] ++ [e]) in *. rewrite app_assoc in *. by apply HarnessBaseline.Dir_snoc.
Qed.

(** A run's directory holds the run.  On a working disk, once the directory
    exists, the report written there is the report that is loaded from it, up to
    the places of its files, and the scenario written there loads as the
    scenario that was run, from its new directory: a run can be repeated. *)
Theorem run_directory_roundtrip scenario started report d w :
  let runDir := run_dir scenario outRoot started in
  reliable w → d !! runDir = Some Directory →
  d !! Join2 runDir "scenario.json" ≠ Some Directory → d !! Join2 runDir "report.json" ≠ Some Directory →
  HarnessRollup.document_ok (ReportDoc report) = true → HarnessRollup.document_ok (ScenarioDoc scenario) = true →
  ∃ d' w', writeRunArtifacts rig runDir scenario report d w = (Ok tt, d', w') ∧
    HarnessDiff.LoadRunReport h d' (Join2 runDir "report.json")
      = inr (HarnessDiff.resolveReportPaths h d' report runDir, Join2 runDir "report.json") ∧
    (normal scenario → LoadScenario h d' (Join2 runDir "scenario.json") = inr (in_dir scenario runDir)).
Proof.
  cbv zeta. rewrite run_dir_at. set (name := run_name scenario started). pose proof (run_name_proper scenario started) as Hname. fold name in Hname.
  assert (FsAccess.proper "scenario.json") as Hsc by by vm_compute.
  assert (FsAccess.proper "report.json") as Hre by by vm_compute.
  rewrite !HarnessBaseline.join_at by HarnessBaseline.proper_names. cbn [app].
  intros Hw Hdir Hs Hr Hdoc1 Hdoc2. unfold writeRunArtifacts. rewrite bind_eq.
  assert (MkdirAll h (at_ [name]) d w = (Ok tt, d, w)) as ->.
  { unfold MkdirAll. rewrite bind_eq. cbn [get]. by rewrite HarnessBaseline.is_dir_at by HarnessBaseline.proper_names. }
  rewrite bind_eq. unfold HarnessRollup.writeJSON. rewrite Hdoc1, HarnessBaseline.join_at by HarnessBaseline.proper_names. cbn [app].
  change (HarnessRollup.document_ok (ScenarioDoc (without_dir scenario))) with (HarnessRollup.document_ok (ScenarioDoc scenario)). rewrite Hdoc2.
  assert (at_ [name; "scenario.json"] ≠ at_ [name]) as Hne1 by (intros E%HarnessBaseline.at_inj; [done|HarnessBaseline.proper_names..]).
  assert (at_ [name; "report.json"] ≠ at_ [name]) as Hne2 by (intros E%HarnessBaseline.at_inj; [done|HarnessBaseline.proper_names..]).
  assert (at_ [name; "report.json"] ≠ at_ [name; "scenario.json"]) as Hne3 by (intros E%HarnessBaseline.at_inj; [done|HarnessBaseline.proper_names..]).
  rewrite (HarnessBaseline.write_at h outRoot outRoot_abs d [name] "scenario.json") by (done || HarnessBaseline.proper_names).
  cbv beta iota. rewrite HarnessBaseline.join_at by HarnessBaseline.proper_names. cbn [app].
  rewrite (HarnessBaseline.write_at h outRoot outRoot_abs (<[at_ [name; "scenario.json"] := Stored (ScenarioDoc (without_dir scenario))]> d) [name] "report.json").
  2: by apply reliable_advance.
  2: by HarnessBaseline.proper_names.
  2: by rewrite lookup_insert_ne.
  2: by rewrite lookup_insert_ne.
  cbn [app]. eexists _, _. split; [reflexivity|].
  assert (Forall FsAccess.proper (HarnessBaseline.base outRoot ++ [name; "report.json"])) as Hp1 by (apply HarnessBaseline.at_proper; [done|HarnessBaseline.proper_names]).
  assert (Forall FsAccess.proper (HarnessBaseline.base outRoot ++ [name; "scenario.json"])) as Hp2 by (apply HarnessBaseline.at_proper; [done|HarnessBaseline.proper_names]).
  set (d' := <[at_ [name; "report.json"] := _]> _).
  assert (d' !! at_ [name; "report.json"] = Some (Stored (ReportDoc report))) as Hd1 by apply lookup_insert_eq.
  assert (d' !! at_ [name; "scenario.json"] = Some (Stored (ScenarioDoc (without_dir scenario)))) as Hd2
    by (unfold d'; by rewrite lookup_insert_ne, lookup_insert_eq).
  clearbody d'. split.
  - unfold HarnessDiff.LoadRunReport. 
    assert (TrimSpace (at_ [name; "report.json"]) = at_ [name; "report.json"]) as -> by exact (trimmed_at name "report.jso" "n"%char eq_refl).
    cbv zeta. rewrite decide_False by apply HarnessBaseline.at_nonempty. rewrite HarnessBaseline.lookup_at by HarnessBaseline.proper_names.
    rewrite Hd1. cbv iota. rewrite HarnessBaseline.lookup_at by HarnessBaseline.proper_names. rewrite Hd1. cbn [mbind option_bind decode_report].
    by rewrite dir_at.
  - intros (Hnm & Hst & Hnd & Hbl & Hlane & Htags). unfold LoadScenario, resolveScenarioFile. 
    assert (TrimSpace (at_ [name; "scenario.json"]) = at_ [name; "scenario.json"]) as -> by exact (trimmed_at name "scenario.jso" "n"%char eq_refl).
    cbv zeta. rewrite decide_False by apply HarnessBaseline.at_nonempty. rewrite HarnessBaseline.lookup_at by HarnessBaseline.proper_names.
    rewrite Hd2. cbv iota. rewrite HarnessBaseline.lookup_at by HarnessBaseline.proper_names. rewrite Hd2. cbn [mbind option_bind decode_scenario without_dir].
    unfold without_dir. cbn [sc_Name Steps Lane Tags sc_Description sc_Fixtures Assertions]. rewrite dir_at by done. rewrite Hnm.
    pose proof (number_steps_normal (Steps scenario) 1 ∅ Hnd Hbl (λ s _, not_elem_of_empty _)) as Hnum.
    unfold in_dir. destruct (Steps scenario) as [|step steps]; [done|]. rewrite Hnum, Hlane, Htags. reflexivity.
Qed.
End directory.

(** ** A small run *)

#[local] Existing Instances GoStrings.caseless_tables SkillMemory.opaque_urls Recall.no_digits.
(** Submit a root task, run it and look at the metrics. *)
Definition demo_scenario : Scenario :=
  mkScenario "Root Check" "" "smoke" [] (mkFixtures "" "" "")
    [mkStep "submit" StepTypeSubmitTask "" "" "List files" "run ls" "" "" "root" false "shell-command" {["command" := "ls"]} "" "" "" false;
     plain_step "run" StepTypeRunTask; plain_step "metrics" StepTypeFetchMetrics]
    [mkAssertion AssertTaskState "run" "" "" "" "" Runtime.TaskStateAwaitingApproval "" "" "" 0 0 f0 f0;
     mkAssertion AssertMetricsTotalTasksAtLeast "metrics" "" "" "" "" "" "" "" "" 0 1 f0 f0] "".
Definition demo_site : Site := mkSite {["/" := Directory]} (Assistant.durable Assistant.demo_state).
Abbreviation demo_result := (RunScenario bench_rig demo_scenario "/out" demo_site world0).
Definition passed_of (x : result (RunReport * option string) * Site * World) : option (bool * string * nat) :=
  match x with (Ok (r, _), _, _) => Some (Passed r, rp_Error r, length (StepReports r)) | _ => None end.
Lemma demo_no_approval step : step ∈ Steps demo_scenario → st_Type step ≠ StepTypeApprovePending.
Proof. unfold demo_scenario. cbn [Steps]. rewrite !elem_of_cons, elem_of_nil. by intros [->|[->|[->|[]]]]. Qed.
Lemma demo_records : RootGate.rootless (records (root demo_site)).
Proof. exact Assistant.demo_rootless. Qed.

Lemma RunScenario_reports_witness :
  passed_of demo_result = Some (true, "", 3%nat) ∧
  ∃ root d env w reports env' w' results, length reports = 3%nat ∧
    steps_ran bench_rig demo_scenario root d (Steps demo_scenario) env w reports None env' w' ∧
    Forall2 (judged bench_rig root env' w') (Assertions demo_scenario) results ∧ Forall (λ v, ar_Passed v = true) results.
Proof.
  assert (passed_of demo_result = Some (true, "", 3%nat)) as H by (vm_compute; reflexivity). split; [exact H|].
  destruct demo_result as [[[[report err]|e] s'] w'] eqn:E; [|discriminate H].
  pose proof (RunScenario_reports bench_rig demo_scenario "/out" demo_site world0 report err s' w' E) as Hr.
  injection H as H1 H2 H3. cbv zeta in Hr. destruct (newRuntimeEnv _ _ _ _ _ _) as [[[[setup|env]|] s1] w1]; [| |destruct Hr].
  - destruct Hr as [Hr _]. rewrite Hr in H3. discriminate H3.
  - destruct Hr as (failure & env' & w2 & Hs & Hr). destruct failure as [e|].
    + destruct Hr as (_ & Hr & _). rewrite Hr in H1. discriminate H1.
    + destruct Hr as (Hf & Hp & _). eexists _, _, _, _, _, _, _, _. split; [exact H3|]. split; [exact Hs|]. split; [exact Hf|]. by apply Hp.
Defined.
Lemma scenario_acts_as_user_witness :
  st_ID <$> Steps demo_scenario = ["submit"; "run"; "metrics"] ∧
  (∀ k r, Assistant.d_actions (root (exec (RunScenario bench_rig demo_scenario "/out") demo_site world0)) !! k = Some (Doc r) →
     Execution.ExecutionProfile r = "user").
Proof.
  split; [reflexivity|].
  exact (proj1 (scenario_acts_as_user bench_rig demo_scenario "/out" demo_site world0 demo_no_approval demo_records)).
Defined.
Lemma scenario_memory_sound_witness : ∃ env,
  MemoryStore.store_wf (memory_of (exec (run_steps bench_rig demo_scenario "/out/runtime" ∅ (Steps demo_scenario)) env world0)).
Proof.
  assert (is_ok (newRuntimeEnv bench_rig "/out" "/out/runtime" demo_scenario demo_site world0).1.1 = true) as H by (vm_compute; reflexivity).
  assert (match (newRuntimeEnv bench_rig "/out" "/out/runtime" demo_scenario demo_site world0).1.1 with Ok (inr _) => true | _ => false end = true) as H2
    by (vm_compute; reflexivity).
  destruct (newRuntimeEnv bench_rig "/out" "/out/runtime" demo_scenario demo_site world0) as [[[[err|env]|e] s'] w'] eqn:E; [discriminate H2| |discriminate H].
  exists env. exact (proj2 (scenario_memory_sound bench_rig "/out" "/out/runtime" demo_scenario ∅ (Steps demo_scenario) demo_site world0 env s' w' world0 E)).
Defined.
Lemma run_directory_roundtrip_witness :
  run_dir demo_scenario "/out" 1700000000000000000 = "/out/20231114T221320Z-root-check" ∧
  ∃ d' w', writeRunArtifacts bench_rig "/out/20231114T221320Z-root-check" demo_scenario HarnessBaseline.smoke_run
    {["/out/20231114T221320Z-root-check" := Directory]} world0 = (Ok tt, d', w') ∧
    LoadScenario (host bench_rig) d' "/out/20231114T221320Z-root-check/scenario.json" = inr (in_dir demo_scenario "/out/20231114T221320Z-root-check").
Proof.
  assert (run_dir demo_scenario "/out" 1700000000000000000 = "/out/20231114T221320Z-root-check") as E by (vm_compute; reflexivity).
  split; [exact E|].
  destruct (run_directory_roundtrip bench_rig "/out" eq_refl demo_scenario 1700000000000000000 HarnessBaseline.smoke_run
    {["/out/20231114T221320Z-root-check" := Directory]} world0) as (d' & w' & H1 & _ & H2).
  - exact (λ _, eq_refl).
  - rewrite E. reflexivity.
  - rewrite E. vm_compute. discriminate.
  - rewrite E. vm_compute. discriminate.
  - vm_compute. reflexivity.
  - vm_compute. reflexivity.
  - exists d', w'. rewrite E in H1, H2. split; [exact H1|]. apply H2. split_and!; try (vm_compute; reflexivity); [discriminate| |].
    + apply (bool_decide_unpack _). vm_compute. exact I.
    + repeat constructor.
Defined.
